(* ===== verification/_CoqProject ===== *)
-Q . S2P
Prelude.v
JsValue.v
Json.v
Regex.v
Platform.v
AsyncOperation.v
FailureClassification.v
AsyncRepo.v
AsyncActions.v
AsyncSpec.v
AsyncProofs.v
AsyncBehaviour.v
AsyncCreate.v
AsyncCreateProofs.v
AsyncQuery.v
Saga.v
SagaProofs.v
Cron.v
Scheduling.v
SchedulingProofs.v
HttpIdempotency.v
HttpIdempotencyProofs.v
SaRevocation.v
Net.v
JwtTrust.v
JwtProofs.v
Authz.v
AuthzProofs.v
RouteTable.v
RouteProofs.v
SsrfGuard.v
SsrfProofs.v
SsrfIpv6.v
HttpActivity.v
SsrfTargets.v
WebhookKeys.v
Webhook.v
WebhookProofs.v
IsoDate.v
AuditChain.v
AuditChainProofs.v
PlanImpact.v
PlanImpactProofs.v
Governance.v
GovernanceProofs.v
Quota.v
QuotaLimits.v
QuotaActions.v
QuotaProofs.v
QuotaDecisions.v
Plans.v
Assignments.v
PlanActions.v
PlanProofs.v
PgTable.v
PgSql.v
PgPlan.v
PgBulk.v
PgSaved.v
PgSemantics.v
PgRender.v
PgTypes.v
PgAccess.v
PgWhere.v
PgText.v
PgExecutor.v
PgTenant.v
PgContext.v
PgPaging.v
MongoFilter.v
MongoWrite.v
MongoPipeline.v
MongoTransfer.v
MongoPlan.v
MongoQuery.v
MongoScope.v
MongoExecutor.v
MongoServer.v
MongoPages.v
MongoRules.v
