(* ===== verification/Prelude.v ===== *)
(** * The control services of Falcone

    A verification development of the services of the repository that carry
    state or decide about access: the asynchronous operations of the
    provisioning orchestrator, the sagas of the control-plane executor, the
    scheduling engine with its cron expressions, the webhook engine with its
    guard against server-side request forgery, and of the control plane the
    verification of tokens, the authorization decisions, the route table, the
    idempotency keys of HTTP requests and the audit log, with the plans, quotas
    and overrides that say what a tenant may use.

    ** How the parts interact

    A request reaches the control plane ([server.mjs]): its token is verified
    against the realms that issue tokens and against revoked service accounts,
    its route is looked up, the gate of the route decides, and a request with an
    idempotency key runs at most once.

    The provisioning orchestrator keeps one row per long-running operation.  A
    request creates it ([async-operation-create]) under an optional idempotency
    key; workers move it along a status graph ([-transition]); tenants cancel,
    retry and query it ([-cancel], [-retry], [-query]); superadmins override a
    refused retry ([-retry-override]); two sweeps end operations that no worker
    reports on any more ([-timeout-sweep], [-orphan-sweep]).  Every status change
    goes through one function, [applyTransition], and writes a row of the
    transition log.  A saga of the executor runs the forward functions of a
    workflow in order and, when one fails, the compensations of the completed
    ones in reverse; it stores its progress so that a restart can undo what was
    interrupted.  The scheduling engine keeps jobs per workspace; a trigger
    selects the due ones, inserts their executions and invokes the runner, which
    claims an execution, performs the action and counts failures.  The webhook
    dispatcher turns an event into one delivery per matching subscription; a
    worker signs the body, asks the guard where the request may go, posts it and
    settles the delivery, and the retry scheduler decides about another attempt.
    The flow activities of the workflow worker use the same guard.  A tenant is
    assigned a plan of a catalogue that superadmins keep; its limits, overridden
    per tenant or not, decide at the gates of the control plane; every change is
    appended to the hash-chained audit log.  Rows of a workspace's own PostgreSQL
    database are read and written through a planner that makes one parametrised
    statement of a request; documents of a shared MongoDB through a planner that
    puts the tenant and the workspace into every filter and document.  The services
    share a database, an event broker and a clock, which are outside the
    repository.

    ** Files and what they model

    - [Prelude]: results of code that can throw, the iteration lemmas, list and
      option lemmas, the hint databases and tactics of the development.
    - [JsValue], [Json]: JavaScript values, truthiness, number and
      string functions; the text [JSON.stringify] writes; the text [JSON.parse]
      reads, with the round trip.
    - [Regex]: the regular expressions of the sources, a matcher by derivatives
      with its correctness proof.
    - [Platform]: the state and error monad [M] over a [world] (database, how far
      clock, UUIDs and broker have been read, events published), with the class
      that holds those sequences.
    - [AsyncOperation]: src/packages/provisioning-orchestrator/src/models,
      [async-operation-states.mjs], [async-operation.mjs], [retry-attempt.mjs].
      The JavaScript object of an operation is the record [operation].
    - [FailureClassification]: [failure-classification.mjs],
      [manual-intervention-flag.mjs], [retry-override.mjs].
    - [AsyncRepo]: the repositories and migrations 073 to 078.  The database is
      the record of its tables; a statement is the function it denotes on them,
      with its WHERE conditions, unique constraints and row counts.
    - [AsyncActions], [AsyncCreate], [AsyncQuery]: the handlers under [actions/],
      one definition per handler, every guard and early return in source order.
    - [AsyncSpec]: the abstract operation store, a step relation over the tables
      with its invariants by rule induction, and the wider machine that also has
      the retry override and the creation.  [AsyncProofs] shows what steps the
      handlers on existing operations take, [AsyncCreateProofs] that every handler
      which writes operations refines the wider machine; [AsyncBehaviour] says what
      each handler does on every branch.
    - [Saga] and [SagaProofs]: src/apps/control-plane-executor/src/saga over
      migration 070.  The state is the tables together with the trace of effects.
    - [Cron]: src/packages/scheduling-engine/src/cron-validator.mjs.
    - [Scheduling] and [SchedulingProofs]: the models, quota and the three actions
      of src/packages/scheduling-engine over its migration 001.
    - [HttpIdempotency] and [HttpIdempotencyProofs]: [http-idempotency.mjs] of
      src/packages/internal-contracts over migration 124.  Several processes
      share the table; every statement is a step of its own, may fail, and may
      take effect without its answer arriving.
    - [SaRevocation]: src/apps/control-plane/sa-revocation.mjs and the service
      accounts of [tenant-store.mjs].
    - [Net]: origins, hosts and URLs as the sources take them apart.
    - [JwtTrust] and [JwtProofs]: [jwt-trust-policy.mjs]: which realm an issuer
      names, the key sets and their cache, the acceptance of a token.
    - [Authz] and [AuthzProofs]: the identity of a verified token, the gate of a
      route, [authorization-model.json] and the tenant and workspace decisions.
    - [RouteTable] and [RouteProofs]: [routes.mjs], [route-table.mjs]: templates,
      their compilation and the choice among matching routes.
    - [SsrfGuard], [SsrfProofs], [SsrfIpv6]: the blocked address ranges of
      [webhook-subscription.mjs], [ssrf.mjs] of the workflow worker and the
      delivery worker, on every spelling of an IPv4 address and on IPv6 addresses
      as a URL writes them.
    - [HttpActivity], [SsrfTargets]: [http-request.mjs] and [limits.mjs] of the
      workflow worker.
    - [WebhookKeys]: [webhook-master-key.mjs] and
      [webhook-signing.mjs].
    - [Webhook] and [WebhookProofs]: the delivery records, the three actions of
      src/packages/webhook-engine and their composition in [webhook-runtime.mjs].
    - [IsoDate]: the text of an instant.
    - [AuditChain] and [AuditChainProofs]: [audit-hash.mjs] and the writer and reader of
      [audit-store.mjs] in src/apps/control-plane.
    - [Governance], [GovernanceProofs]: the tables of plans and quotas (migrations
      097, 098, 100, 103, 104, 105), the append to their audit log, and how a
      program over them is shown to keep a relation between the tables.
    - [Quota], [QuotaLimits], [QuotaActions]: the quota models, the repository of
      overrides, effective limits and decisions of the provisioning orchestrator,
      its override actions, and the gates of the control plane that ask for a
      decision.  [QuotaProofs], [QuotaDecisions]: their theorems.
    - [PlanImpact], [PlanImpactProofs]: what a change of plan means for the limits
      and capabilities of a tenant, as pure functions of the two entitlements and
      the usage observed.
    - [Plans], [Assignments], [PlanActions]: the models and repositories of plans,
      their limits and capabilities and of assignments, and the actions of
      packages/provisioning-orchestrator/src/actions/plan-*.mjs that change them;
      [PlanProofs]: their theorems.
    - [PgTable], [PgSql], [PgPlan], [PgBulk], [PgSaved]: the planner of
      src/packages/adapters/src/postgresql-data-api.mjs, from the making regular of
      a request to the text of its statement and the values it binds.
      [PgSemantics], [PgRender]: what the conditions of a statement mean in
      PostgreSQL's three-valued logic, and that the builders write them.
      [PgExecutor]: postgres-data-executor.mjs with the connections, the probe for
      vectors and the errors beside it.  [PgTypes], [PgAccess], [PgWhere],
      [PgText], [PgTenant], [PgContext], [PgPaging]: the theorems, on the samples
      of [PgSemantics].
    - [MongoFilter], [MongoWrite], [MongoPipeline], [MongoTransfer], [MongoPlan]:
      the planner of src/packages/adapters/src/mongodb-data-api.mjs: dotted paths, filters with
      their scope and cursors, documents with updates and validation, limits and
      plan policies, pipelines, bulk writes, imports, exports, transactions and
      change streams, the plan of a request, the errors.  A request is the record
      [mongo_request], a plan is [mongo_plan].  [MongoExecutor]:
      mongo-data-executor.mjs.  [MongoQuery]: what a filter selects, as MongoDB's
      manual says, and a small server.  [MongoScope], [MongoServer], [MongoPages],
      [MongoRules]: the theorems.

    ** What the theorems show

    Operations: transition, cancellation, retry and the two sweeps perform steps
    of the abstract store, whence the log of each operation replays to its status,
    the log only grows, attempts count the returns to pending, terminal states are
    dead ends, at most three transitions are accepted between two retries, and
    callers of other tenants change nothing; a retry override and a creation are
    steps of the wider machine, the first unlogged.  The functional theorems give the response, the tables and
    the events of the cancel, retry and creation handlers and the sweeps per
    branch.  Until its record expires, a key answers requests of one type
    with one operation and refuses those of another type; the hash of the parameters ignores the order of fields.  Queries are confined
    to the tenant, and the pages of a list make it up.  Classification picks the
    most specific mapping.

    Sagas: the exact order of forward and compensating calls, with the bound on
    retries; a second execution under a completed key calls nothing; what
    recovery undoes; the reach of the status read model.

    Scheduling: a parsed expression denotes exactly the values of its tokens, the
    next run is the first match; workspace isolation, the quota, at most one run
    per execution whatever the engine does in between, the settlement of a failure, and when the trigger runs a due
    job.

    Requests: an accepted token is signed by a key of the issuer it names, is in
    its time and audience; a revocation is enforced on every replica within the
    life of its cache; a token of a tenant realm acts in that tenant only; the
    gate and the permission matrix decide exactly as their documents say; the
    seed routes without a token are listed; the chosen route is the most
    specific one.  In every interleaving of processes a handler is dispatched at
    most once per key, a replay is the answer that was recorded, and a
    reservation always ends in an answer.

    Webhooks: the guard agrees with the numeric definition of the blocked ranges
    on every IPv4 spelling and on every IPv6 address as the URL parser writes it,
    but for the addresses it blocks beyond them; a request leaves only for a public address
    or one that was allowed; each delivery ends, after the attempts its policy
    allows, in a terminal state, and its requests go to the stored address, signed
    with the stored secret; signing contexts
    come only from verified keys; key texts are read back as written.

    Audit: a log written by the store verifies, and two verified logs with the
    same last hash have the same contents, or two inputs with the same hash are
    exhibited.

    Quotas: overrides keep one active row per tenant and dimension and what is
    no longer active is final, the audit chain included; the limit in force is
    the documented precedence; what the workspace gate bounds when creations run
    alone and when they interleave; the exact arithmetic of a product quota.

    Plans: the catalogue keeps one current assignment per tenant, on a plan in
    use, whatever is asked of it; an answered assignment governs its tenant; the
    impact recorded with it covers both plans exactly.

    Data: a plan runs as a role that was granted what it does, names declared
    columns only, and has no value of the request in its text; its conditions
    select exactly the rows that were asked for; on a table with a tenant column
    it reaches and writes rows of the caller's tenant only; its statements run in
    the caller's context, on one database; the pages of a list, planned one by one, make it up when no
    order column is NULL or left out.

    Documents: whatever a request asks, the filters of a plan select documents of
    its own tenant and workspace only, the match of a change stream events that
    show them, and what a plan writes is stamped with them; other scopes stay
    as they are and are never shown, but an update may move a document there; the
    pages of a list, asked of the executor, make it up when its order compares
    plain values; validation is the documented meaning of a schema;
    aggregations keep the limits of the plan.

    Some theorems state behaviour that the code shows and its authors would not
    want; each is a theorem about the definitions like any other, and says so in
    its comment: a weekday of 7 that never runs, a floor that is not a lower
    bound, stale pending operations that are never recovered, overrides that are
    never completed, flags that are never reopened, keys that a failed saga
    blocks, outputs that are lost when a compensation is interrupted, due jobs
    that starve when the driver gives [Date] objects, result queries over columns
    that do not exist, retries of webhooks that do not wait, accepted deliveries
    that are posted again, tokens of deleted accounts that stay good, tenant
    tokens that claim a platform actor type, updates that move a document to
    another tenant, joins without a scope, pages that are lost for generated
    identifiers, limits that a request sets for itself.

    ** Conventions, fuel and bounds

    Strings are 8-bit code units.  Numbers are exact: the services compute on
    counters, limits and milliseconds far below 2^53.  An ISO timestamp is its
    epoch milliseconds.  A fresh value, the time or the outcome of a publication
    is the next element of a sequence given by a class, and every theorem is for
    all such sequences.  PostgreSQL leaves the order of rows with equal sort keys
    open; the model takes table order.  A transaction that throws gives back the
    tables it started from.

    [nextRunAt] probes a year of minutes (366 days), the code's own bound, so the
    loop is a recursion on that number.  [count_up] runs one round per value up to
    the end of its range.  [missed_fuel] is the number of minutes between the last
    window and now, plus two: each round moves at least a minute on, and
    [missed_windows_terminates] shows that more rounds change nothing.  The base
    36 digits of a correlation id have one round per bit of the number.
    [json_parse] has one round per character of its text, since every value
    consumes one; [compilePath] one per character of the template;
    [invoke_delivery] is given rounds, and [delivery_terminates] shows that the
    attempts of the policy are enough of them.

    ** What is taken as given

    [Platform]: clock, UUIDs, broker.  [Workflows] (in [Saga]): what each forward
    and compensating call gives or throws.  [Scheduler] (in [Scheduling]): the
    environment, the result of each action invocation, how timestamps come back
    from the driver.  [CreateEnv] (in [AsyncCreate]): SHA-256 and the decimal
    digits of a fraction.  [HttpRuntime]: the URL parser of a request, SHA-256,
    the handlers.  [JwtRuntime], [RealmUrls]: signature verification, the
    realms' addresses.  [SaStore]: the rows of service accounts as other requests
    leave them.  [UrlParser]: the WHATWG parser.  [Endpoints]: what the receiver
    of a webhook answers.  [WebhookStore]: the delivery store, which has no
    implementation in the repository, with its laws.  [Crypto]: SHA-256, HMAC and
    AES-GCM.  [NumberText]: the text of a
    number.  [AuditEnv]: SHA-256 and what a JSONB column gives back.
    [SqlOps], [SqlOrder], [SqlSort]: PostgreSQL's comparisons and its ORDER BY;
    [WorkspaceDatabase], [Connections],
    [Embeddings]: the server, where a workspace's database is, the provider.
    [MongoQueries], [MongoOrder]: MongoDB's query language, as far as its manual
    fixes it; [MongoDriver], [MongoServer]: the driver's operations and what they
    may do to a collection; [MongoFinds]: that a find sorts and cuts;
    [MongoContracts], [MetadataReader]: contract data and
    the metadata of a collection; [MongoOptions]: where a workspace's MongoDB is.
    Each is given concretely in [MongoQuery], [MongoServer] or [MongoPages].
    [GovEnv]: the environment, whether there is a producer, the texts read as
    numbers and dates.  Nothing is assumed of them beyond what a theorem states
    as its hypothesis.

    ** What is not modelled

    Logging, metrics and the durations that only they see; the members that every
    JavaScript object inherits; except for the
    idempotency keys, the concurrent interleaving of two statements of different
    requests (a request runs to its end; a row that changes while an action is
    performed is an argument of [failed_run_settles]); likewise the moment between
    the query of a service account and the filling of its cache; failures of the
    saga store's writes, which do nothing as long as the adapter exports no query;
    the catalogue queries and the probe in the log of the statements sent to
    PostgreSQL; the response of a test double without a reader in the HTTP activity;
    the workflows' own calls to
    Keycloak, PostgreSQL, Kafka and APISIX; the life of the webhook master key as
    PostgreSQL functions; the consoles, the other adapters, servers and collectors, which
    are I/O around small mappings.  Next in line are the
    sub-quotas of workspaces, the administration of webhooks, the validator of
    flow definitions and the filters of the realtime gateway. *)

From stdpp Require Export base tactics option list strings gmap pretty.
From Stdlib Require Export ZArith Lia.

(** ** Results of code that can throw *)

Inductive result (E A : Type) : Type :=
| Ok (a : A)
| Err (e : E).
Arguments Ok {E A} a.
Arguments Err {E A} e.

#[export] Instance result_ret E : MRet (result E) := fun A a => Ok a.
#[export] Instance result_bind E : MBind (result E) := fun A B f r =>
  match r with Ok a => f a | Err e => Err e end.
#[export] Instance result_fmap E : FMap (result E) := fun A B f r =>
  match r with Ok a => Ok (f a) | Err e => Err e end.
#[export] Instance result_eq_dec E A `{EqDecision E, EqDecision A} : EqDecision (result E A).
Proof. solve_decision. Defined.

Definition is_ok {E A} (r : result E A) : bool :=
  match r with Ok _ => true | Err _ => false end.

(** [guard_or b e]: [if (!b) throw e]. *)
Definition guard_or {E} (b : bool) (e : E) : result E unit :=
  if b then Ok tt else Err e.

(** [throw_if b e]: [if (b) throw e]. *)
Definition throw_if {E} (b : bool) (e : E) : result E unit :=
  if b then Err e else Ok tt.

(** ** Stateful code that can throw

    A JavaScript exception does not undo the writes made before it, so the
    state is returned on both outcomes. *)

Definition M (S E A : Type) : Type := S -> result E A * S.

#[export] Instance M_ret S E : MRet (M S E) := fun A a s => (Ok a, s).
#[export] Instance M_bind S E : MBind (M S E) := fun A B f m s =>
  match m s with
  | (Ok a, s') => f a s'
  | (Err e, s') => (Err e, s')
  end.
#[export] Instance M_fmap S E : FMap (M S E) := fun A B f m s =>
  match m s with
  | (Ok a, s') => (Ok (f a), s')
  | (Err e, s') => (Err e, s')
  end.

Definition get_state {S E} : M S E S := fun s => (Ok s, s).
Definition put_state {S E} (s : S) : M S E unit := fun _ => (Ok tt, s).
Definition modify {S E} (f : S -> S) : M S E unit := fun s => (Ok tt, f s).
Definition throw {S E A} (e : E) : M S E A := fun s => (Err e, s).
Definition lift {S E A} (r : result E A) : M S E A := fun s => (r, s).

(** [try { m } catch (e) { h e }]. *)
Definition try_catch {S E A} (m : M S E A) (h : E -> M S E A) : M S E A := fun s =>
  match m s with
  | (Ok a, s') => (Ok a, s')
  | (Err e, s') => h e s'
  end.

(** [BEGIN; try { m; COMMIT } catch (e) { ROLLBACK; throw e }]: on an error the
    whole state is the one [BEGIN] saw. *)
Definition transaction {S E A} (m : M S E A) : M S E A := fun s =>
  match m s with
  | (Ok a, s') => (Ok a, s')
  | (Err e, _) => (Err e, s)
  end.

(** [for (const x of xs) { await f x }]. *)
Fixpoint for_each {S E A} (f : A -> M S E unit) (xs : list A) : M S E unit :=
  match xs with
  | [] => mret tt
  | x :: xs' => f x ≫= fun _ => for_each f xs'
  end.

(** The same loop carrying an accumulator (the [let] variables it updates). *)
Fixpoint for_fold {S E A B} (f : B -> A -> M S E B) (b : B) (xs : list A) : M S E B :=
  match xs with
  | [] => mret b
  | x :: xs' => f b x ≫= fun b' => for_fold f b' xs'
  end.

(** ** Automation *)

Create HintDb falcone discriminated.

Ltac unfold_monad :=
  unfold mbind, mret, fmap, M_bind, M_ret, M_fmap, result_bind, result_ret, result_fmap,
    get_state, put_state, modify, throw, lift, try_catch, guard_or, throw_if in *.

(** Split every match of the goal or of a hypothesis. *)
Ltac split_matches :=
  intros; repeat (case_match; simplify_eq/=; try done); simplify_eq/=; try done.

Ltac run_code := unfold_monad; simpl in *; split_matches.

(** ** Generic lemmas *)

Lemma throw_if_ok {E} (b : bool) (e : E) u : throw_if b e = Ok u <-> b = false.
Proof. destruct b, u; simpl; naive_solver. Qed.

Lemma guard_or_ok {E} (b : bool) (e : E) u : guard_or b e = Ok u <-> b = true.
Proof. destruct b, u; simpl; naive_solver. Qed.

Lemma result_bind_ok {E A B} (r : result E A) (f : A -> result E B) b :
  (r ≫= f) = Ok b <-> exists a, r = Ok a /\ f a = Ok b.
Proof. destruct r; simpl; naive_solver. Qed.

Lemma result_bind_err {E A B} (r : result E A) (f : A -> result E B) e :
  (r ≫= f) = Err e <-> r = Err e \/ exists a, r = Ok a /\ f a = Err e.
Proof. destruct r; simpl; naive_solver. Qed.

Lemma M_bind_ok {S E A B} (m : M S E A) (f : A -> M S E B) s b s'' :
  (m ≫= f) s = (Ok b, s'') <-> exists a s', m s = (Ok a, s') /\ f a s' = (Ok b, s'').
Proof.
  unfold mbind, M_bind. destruct (m s) as [[a|e] s'] eqn:?; naive_solver.
Qed.

Lemma M_bind_run {S E A B} (m : M S E A) (f : A -> M S E B) s a s' :
  m s = (Ok a, s') -> (m ≫= f) s = f a s'.
Proof. unfold mbind, M_bind. by intros ->. Qed.

Lemma M_bind_run_err {S E A B} (m : M S E A) (f : A -> M S E B) s e s' :
  m s = (Err e, s') -> (m ≫= f) s = (Err e, s').
Proof. unfold mbind, M_bind. by intros ->. Qed.

Lemma transaction_err {S E A} (m : M S E A) s e s' :
  transaction m s = (Err e, s') -> s' = s.
Proof. unfold transaction. split_matches. Qed.

Lemma transaction_ok {S E A} (m : M S E A) s a s' :
  transaction m s = (Ok a, s') <-> m s = (Ok a, s').
Proof. unfold transaction. destruct (m s) as [[]]; naive_solver. Qed.

(** An invariant every iteration keeps is kept by the loop, thrown errors included. *)
Lemma for_fold_inv {S E A B} (I : S -> Prop) (f : B -> A -> M S E B) xs :
  (forall b x s, x ∈ xs -> I s -> I (snd (f b x s))) ->
  forall b s, I s -> I (snd (for_fold f b xs s)).
Proof.
  induction xs as [|x xs IH]; intros Hf b s Hs; [done|]. simpl.
  unfold mbind, M_bind. specialize (Hf b x s) as Hx.
  destruct (f b x s) as [[b'|e] s'] eqn:Heq.
  - apply IH; [intros; apply Hf; set_solver|]. apply Hx; set_solver.
  - apply Hx; set_solver.
Qed.

Lemma for_each_inv {S E A} (I : S -> Prop) (f : A -> M S E unit) xs :
  (forall x s, x ∈ xs -> I s -> I (snd (f x s))) ->
  forall s, I s -> I (snd (for_each f xs s)).
Proof.
  induction xs as [|x xs IH]; intros Hf s Hs; [done|]. simpl.
  unfold mbind, M_bind. specialize (Hf x s) as Hx.
  destruct (f x s) as [[b'|e] s'] eqn:Heq.
  - apply IH; [intros; apply Hf; set_solver|]. apply Hx; set_solver.
  - apply Hx; set_solver.
Qed.

#[export] Hint Rewrite @throw_if_ok @guard_or_ok @result_bind_ok @result_bind_err : falcone.
