(* ===== verification/JsValue.v ===== *)
(** * JavaScript values and the standard-library functions the services use

    Strings are lists of 8-bit code units (Latin-1), so the classes [\s], [\d],
    case conversion and [trim] are JavaScript's on that range.  A finite number
    is an exact integer or an exact non-integer rational: no rounding to IEEE
    doubles is modelled (the services compute on counters, limits and
    millisecond clocks far below 2^53).  [undefined] and [null] are distinct
    values; objects keep their keys in insertion order. *)
From S2P Require Import Prelude.
From Stdlib Require Export QArith.
From Stdlib Require Import Ascii.

(** ** Numbers *)

(** A JavaScript number; [NFrac] holds the finite non-integers. *)
Inductive jsnum : Type :=
| NInt (z : Z)
| NFrac (q : Q)
| NNaN
| NInf (negative : bool).

#[export] Instance jsnum_eq_dec : EqDecision jsnum.
Proof.
  assert (EqDecision Q) by (intros [] []; solve_decision). solve_decision.
Defined.

(** The number with an exact rational value, in its canonical form. *)
Definition num_of_Q (q : Q) : jsnum :=
  let r := Qred q in
  if decide (Qden r = 1%positive) then NInt (Qnum r) else NFrac r.

(** [Number.isInteger] on a number. *)
Definition num_is_integer (n : jsnum) : bool :=
  match n with NInt _ => true | _ => false end.

(** [Number.isFinite] on a number. *)
Definition num_is_finite (n : jsnum) : bool :=
  match n with NInt _ | NFrac _ => true | _ => false end.

Definition num_Q (n : jsnum) : Q :=
  match n with NInt z => inject_Z z | NFrac q => q | _ => 0 end.

(** [a <= b]; every comparison with NaN is false. *)
Definition num_leb (a b : jsnum) : bool :=
  match a, b with
  | NNaN, _ | _, NNaN => false
  | NInf true, _ | _, NInf false => true
  | NInf false, _ | _, NInf true => false
  | NInt x, NInt y => (x <=? y)%Z
  | _, _ => Qle_bool (num_Q a) (num_Q b)
  end.

(** [a < b]. *)
Definition num_ltb (a b : jsnum) : bool :=
  match a, b with
  | NNaN, _ | _, NNaN => false
  | _, _ => negb (num_leb b a)
  end.

(** [a === b] on numbers. *)
Definition num_eqb (a b : jsnum) : bool :=
  match a, b with
  | NNaN, _ | _, NNaN => false
  | _, _ => bool_decide (a = b)
  end.

(** [Math.trunc] *)
Definition num_trunc (n : jsnum) : jsnum :=
  match n with
  | NFrac q => NInt (Z.quot (Qnum q) (Zpos (Qden q)))
  | _ => n
  end.

(** ** Values *)

Inductive jsval : Type :=
| JUndef
| JNull
| JBool (b : bool)
| JNum (n : jsnum)
| JStr (s : string)
| JArr (xs : list jsval)
| JObj (kvs : list (string * jsval)).

Fixpoint jsval_eqb (a b : jsval) {struct a} : bool :=
  match a, b with
  | JUndef, JUndef => true
  | JNull, JNull => true
  | JBool x, JBool y => Bool.eqb x y
  | JNum x, JNum y => bool_decide (x = y)
  | JStr x, JStr y => String.eqb x y
  | JArr xs, JArr ys =>
      (fix go (xs ys : list jsval) : bool :=
         match xs, ys with
         | [], [] => true
         | x :: xs', y :: ys' => jsval_eqb x y && go xs' ys'
         | _, _ => false
         end) xs ys
  | JObj xs, JObj ys =>
      (fix go (xs ys : list (string * jsval)) : bool :=
         match xs, ys with
         | [], [] => true
         | (k, x) :: xs', (k', y) :: ys' => String.eqb k k' && jsval_eqb x y && go xs' ys'
         | _, _ => false
         end) xs ys
  | _, _ => false
  end.

(** Truthiness: [Boolean(v)]. *)
Definition truthy (v : jsval) : bool :=
  match v with
  | JUndef | JNull => false
  | JBool b => b
  | JNum (NInt z) => negb (z =? 0)%Z
  | JNum NNaN => false
  | JNum _ => true
  | JStr s => negb (String.eqb s "")
  | JArr _ | JObj _ => true
  end.

(** Truthiness of an optional string field ([undefined]/[null] is [None]). *)
Definition truthy_str (s : option string) : bool :=
  match s with Some s => negb (String.eqb s "") | None => false end.

Definition nonempty (s : string) : bool := negb (String.eqb s "").

(** [v === null || v === undefined] *)
Definition nullish (v : jsval) : bool :=
  match v with JUndef | JNull => true | _ => false end.

(** [a ?? b] *)
Definition coalesce (a b : jsval) : jsval := if nullish a then b else a.

(** [o.k], for an object: absent keys read [undefined]. *)
Fixpoint assoc_lookup {A} (k : string) (kvs : list (string * A)) : option A :=
  match kvs with
  | [] => None
  | (k', v) :: kvs' => if String.eqb k k' then Some v else assoc_lookup k kvs'
  end.

Definition js_get (v : jsval) (k : string) : jsval :=
  match v with
  | JObj kvs => default JUndef (assoc_lookup k kvs)
  | _ => JUndef
  end.

(** [Object.hasOwn(o, k)] *)
Definition has_own (v : jsval) (k : string) : bool :=
  match v with
  | JObj kvs => match assoc_lookup k kvs with Some _ => true | None => false end
  | _ => false
  end.

(** Assignment [o[k] = v] on the ordered pairs: in place when present, else appended. *)
Fixpoint assoc_set {A} (k : string) (v : A) (kvs : list (string * A)) : list (string * A) :=
  match kvs with
  | [] => [(k, v)]
  | (k', v') :: kvs' => if String.eqb k k' then (k', v) :: kvs' else (k', v') :: assoc_set k v kvs'
  end.

(** ** Strings *)

Definition chars (s : string) : list ascii := String.list_ascii_of_string s.
Definition of_chars (l : list ascii) : string := String.string_of_list_ascii l.
Definition code (c : ascii) : N := N_of_ascii c.

(** The white space of [\s] and [trim]: TAB LF VT FF CR, space and NBSP. *)
Definition is_space (c : ascii) : bool :=
  let n := code c in ((9 <=? n) && (n <=? 13) || (n =? 32) || (n =? 160))%N.

Definition is_digit (c : ascii) : bool := ((48 <=? code c) && (code c <=? 57))%N.
Definition is_lower (c : ascii) : bool := ((97 <=? code c) && (code c <=? 122))%N.
Definition is_upper (c : ascii) : bool := ((65 <=? code c) && (code c <=? 90))%N.
(** [\w] *)
Definition is_word (c : ascii) : bool :=
  is_digit c || is_lower c || is_upper c || (code c =? 95)%N.

Fixpoint drop_while {A} (p : A -> bool) (l : list A) : list A :=
  match l with
  | [] => []
  | x :: l' => if p x then drop_while p l' else l
  end.

Definition trim_chars (l : list ascii) : list ascii :=
  reverse (drop_while is_space (reverse (drop_while is_space l))).

(** [s.trim()] *)
Definition trim (s : string) : string := of_chars (trim_chars (chars s)).

(** [c.toLowerCase()] on Latin-1 (the letters A-Z and U+00C0..U+00DE but U+00D7). *)
Definition lower_char (c : ascii) : ascii :=
  let n := code c in
  if is_upper c || ((192 <=? n) && (n <=? 222) && negb (n =? 215))%N
  then ascii_of_N (n + 32) else c.

Definition to_lower_case (s : string) : string := of_chars (lower_char <$> chars s).

(** [l.split(sep)] for a one-character separator. *)
Fixpoint split_chars (sep : ascii) (l : list ascii) : list (list ascii) :=
  match l with
  | [] => [[]]
  | c :: l' =>
      if Ascii.eqb c sep then [] :: split_chars sep l'
      else match split_chars sep l' with
           | [] => [[c]]
           | w :: ws => (c :: w) :: ws
           end
  end.

Definition split_on (sep : ascii) (s : string) : list string :=
  of_chars <$> split_chars sep (chars s).

(** [l.split(/\s+/)]: [in_sep] is set while the current run of white space has
    already produced its cut. *)
Fixpoint split_ws_chars (in_sep : bool) (l : list ascii) : list (list ascii) :=
  match l with
  | [] => [[]]
  | c :: l' =>
      if is_space c then
        if in_sep then split_ws_chars true l' else [] :: split_ws_chars true l'
      else match split_ws_chars false l' with
           | [] => [[c]]
           | w :: ws => (c :: w) :: ws
           end
  end.

Definition split_ws (s : string) : list string := of_chars <$> split_ws_chars false (chars s).

(** [xs.join(sep)] *)
Fixpoint join (sep : string) (xs : list string) : string :=
  match xs with
  | [] => ""
  | [x] => x
  | x :: xs' => x +:+ sep +:+ join sep xs'
  end.

Fixpoint prefix_chars (p l : list ascii) : bool :=
  match p, l with
  | [], _ => true
  | a :: p', b :: l' => Ascii.eqb a b && prefix_chars p' l'
  | _ :: _, [] => false
  end.

(** [s.startsWith(p)] *)
Definition starts_with (p s : string) : bool := prefix_chars (chars p) (chars s).

Fixpoint includes_chars (p l : list ascii) : bool :=
  prefix_chars p l || match l with [] => false | _ :: l' => includes_chars p l' end.

(** [s.includes(p)] *)
Definition includes (p s : string) : bool := includes_chars (chars p) (chars s).

(** [xs.includes(x)] on strings, and [new Set(xs).has(x)]. *)
Definition str_in (x : string) (xs : list string) : bool := existsb (String.eqb x) xs.

(** ** [Number(s)] *)

Definition digit_val (c : ascii) : N :=
  let n := code c in
  if is_digit c then (n - 48)%N
  else if is_lower c then (n - 87)%N
  else if is_upper c then (n - 55)%N else 99%N.

(** Value of a non-empty run of digits of the base, all of [l]. *)
Fixpoint digits_val (base : N) (acc : N) (l : list ascii) : option N :=
  match l with
  | [] => Some acc
  | c :: l' => if (digit_val c <? base)%N then digits_val base (acc * base + digit_val c)%N l' else None
  end.

Definition digits_of (base : N) (l : list ascii) : option N :=
  match l with [] => None | _ => digits_val base 0 l end.

(** The longest prefix of decimal digits, and the rest. *)
Fixpoint span_digits (l : list ascii) : list ascii * list ascii :=
  match l with
  | c :: l' => if is_digit c then let '(d, r) := span_digits l' in (c :: d, r) else ([], l)
  | [] => ([], [])
  end.

Definition dec_val (l : list ascii) : N := default 0%N (digits_val 10 0 l).

(** [e]/[E] with an optionally signed exponent, or nothing. *)
Definition exponent_of (l : list ascii) : option Z :=
  match l with
  | [] => Some 0%Z
  | c :: l' =>
      if Ascii.eqb c "e" || Ascii.eqb c "E" then
        let '(neg, l'') := match l' with
                           | "-"%char :: r => (true, r)
                           | "+"%char :: r => (false, r)
                           | _ => (false, l')
                           end in
        (fun n => if neg : bool then (- Z.of_N n)%Z else Z.of_N n) <$> digits_of 10 l''
      else None
  end.

Definition Qpow10 (e : Z) : Q :=
  if (0 <=? e)%Z then inject_Z (10 ^ e) else (1 # Z.to_pos (10 ^ (- e)))%Q.

(** An unsigned decimal literal: digits, optional fraction, optional exponent. *)
Definition decimal_of (l : list ascii) : option Q :=
  let '(ip, r) := span_digits l in
  let '(fp, r') := match r with "."%char :: r1 => span_digits r1 | _ => ([], r) end in
  if bool_decide (ip = [] /\ fp = []) then None
  else (fun e => (inject_Z (Z.of_N (dec_val (ip ++ fp))) * Qpow10 (e - Z.of_nat (length fp)))%Q)
         <$> exponent_of r'.

Definition num_of_opt (q : option Q) : jsnum :=
  match q with Some q => num_of_Q q | None => NNaN end.

(** StringToNumber: the white space around the literal is ignored, the empty
    literal is 0, [0x]/[0o]/[0b] prefixes and [Infinity] are accepted. *)
Definition to_number_chars (l : list ascii) : jsnum :=
  match trim_chars l with
  | [] => NInt 0
  | "0"%char :: x :: r =>
      let based b := match digits_of b r with Some n => NInt (Z.of_N n) | None => NNaN end in
      if Ascii.eqb x "x" || Ascii.eqb x "X" then based 16%N
      else if Ascii.eqb x "o" || Ascii.eqb x "O" then based 8%N
      else if Ascii.eqb x "b" || Ascii.eqb x "B" then based 2%N
      else num_of_opt (decimal_of ("0"%char :: x :: r))
  | "-"%char :: r =>
      if bool_decide (r = chars "Infinity") then NInf true
      else num_of_opt (Qopp <$> decimal_of r)
  | "+"%char :: r =>
      if bool_decide (r = chars "Infinity") then NInf false
      else num_of_opt (decimal_of r)
  | r => if bool_decide (r = chars "Infinity") then NInf false else num_of_opt (decimal_of r)
  end.

Definition to_number (s : string) : jsnum := to_number_chars (chars s).

Example to_number_examples :
  to_number <$> ["5"; "05"; ""; " 7 "; "1.5"; "1e2"; "0x1F"; "*"; "1-2"; "-3"; "2.50e1"; "."; "1e"]
  = [NInt 5; NInt 5; NInt 0; NInt 7; NFrac (3 # 2); NInt 100; NInt 31; NNaN; NNaN; NInt (-3); NInt 25; NNaN; NNaN].
Proof. vm_compute. reflexivity. Qed.

(** [`${n}`] of a natural number. *)
Definition show_N (n : N) : string := pretty.pretty n.
Definition show_Z (z : Z) : string := pretty.pretty z.

(** [`${n}`] of a number; the digits of a fraction are not spelled out. *)
Definition show_num (n : jsnum) : string :=
  match n with
  | NInt z => show_Z z
  | NFrac _ => "<fraction>"
  | NNaN => "NaN"
  | NInf neg => if neg then "-Infinity" else "Infinity"
  end.

(** [Math.min(a, b)] *)
Definition num_min (a b : jsnum) : jsnum :=
  match a, b with NNaN, _ | _, NNaN => NNaN | _, _ => if num_leb a b then a else b end.

Definition num_negative (n : jsnum) : bool :=
  match n with NInf s => s | NNaN => false | _ => negb (Qle_bool 0 (num_Q n)) end.

(** [a * b] and [a + b]. *)
Definition num_mul (a b : jsnum) : jsnum :=
  match a, b with
  | NNaN, _ | _, NNaN => NNaN
  | NInf _, NInt 0 | NInt 0, NInf _ => NNaN
  | NInf _, _ | _, NInf _ => NInf (xorb (num_negative a) (num_negative b))
  | _, _ => num_of_Q (num_Q a * num_Q b)
  end.
Definition num_add (a b : jsnum) : jsnum :=
  match a, b with
  | NNaN, _ | _, NNaN => NNaN
  | NInf s, NInf t => if Bool.eqb s t then NInf s else NNaN
  | NInf s, _ | _, NInf s => NInf s
  | _, _ => num_of_Q (num_Q a + num_Q b)
  end.
Definition num_floor (n : jsnum) : jsnum :=
  match n with NFrac q => NInt (Qnum q / Z.pos (Qden q)) | _ => n end.

(** [Number(v)]: an array converts through its string, so only the empty and
    the one-element arrays can give a number. *)
Fixpoint js_number (v : jsval) : jsnum :=
  match v with
  | JUndef => NNaN
  | JNull => NInt 0
  | JBool b => NInt (if b then 1 else 0)
  | JNum n => n
  | JStr s => to_number s
  | JObj _ => NNaN
  | JArr [] => NInt 0
  | JArr [x] => match x with
                | JUndef | JNull => NInt 0
                | JBool _ => NNaN
                | _ => js_number x
                end
  | JArr (_ :: _ :: _) => NNaN
  end.

(** [Number.isInteger(v)]: no conversion. *)
Definition js_is_integer (v : jsval) : bool :=
  match v with JNum n => num_is_integer n | _ => false end.

(** [Number.parseInt(s, 10)]: leading white space, a sign, then the longest
    prefix of digits. *)
Definition parse_int_chars (l : list ascii) : jsnum :=
  let '(neg, l') := match drop_while is_space l with
                    | "-"%char :: r => (true, r)
                    | "+"%char :: r => (false, r)
                    | r => (false, r)
                    end in
  match span_digits l' with
  | ([], _) => NNaN
  | (ds, _) => let n := Z.of_N (dec_val ds) in NInt (if neg : bool then (- n)%Z else n)
  end.

Definition parse_int (s : string) : jsnum := parse_int_chars (chars s).

(** [n.toString(36)] of a natural number. *)
Definition digit36 (d : N) : ascii :=
  ascii_of_N (if d <? 10 then 48 + d else 87 + d)%N.

Fixpoint base36_digits (fuel : nat) (n : N) (acc : list ascii) : list ascii :=
  match fuel with
  | O => acc
  | S fuel' =>
      let acc' := digit36 (n mod 36) :: acc in
      if (n <? 36)%N then acc' else base36_digits fuel' (n / 36)%N acc'
  end.

(** Each step divides by 36, so [N.size_nat n] steps are more than enough. *)
Definition to_base36 (n : N) : string := of_chars (base36_digits (S (N.size_nat n)) n []).

Example to_base36_examples : to_base36 <$> [0; 35; 36; 1767225600000]%N = ["0"; "z"; "10"; "mjuohs00"].
Proof. vm_compute. reflexivity. Qed.

(** [Number.parseInt(`${v}`, 10)]: a number prints its decimal expansion. *)
Definition parse_int_of (v : jsval) : jsnum :=
  match v with
  | JNum n => if num_is_finite n then num_trunc n else NNaN
  | JStr s => parse_int s
  | _ => NNaN
  end.

(** [String(v)]; the digits of a fraction are not spelled out. *)
Fixpoint js_to_string (v : jsval) : string :=
  match v with
  | JUndef => "undefined"
  | JNull => "null"
  | JBool b => if b then "true" else "false"
  | JNum n => show_num n
  | JStr s => s
  | JArr xs => join "," (List.map (fun x => match x with JUndef | JNull => "" | _ => js_to_string x end) xs)
  | JObj _ => "[object Object]"
  end.

(** [[...new Set(items)]] on strings. *)
Definition string_set (items : list jsval) : list string :=
  foldl (fun acc v => match v with JStr s => if str_in s acc then acc else acc ++ [s] | _ => acc end) [] items.

(** ** HTTP-style responses *)
Record response := mk_response {
  res_status : Z;
  res_headers : list (string * string);
  res_body : jsval
}.
Definition jstr_opt (o : option string) : jsval := match o with Some s => JStr s | None => JNull end.
Definition jint (z : Z) : jsval := JNum (NInt z).

(** ** Errors

    The errors the services throw: [Object.assign(new Error(message), { code, field })]. *)
Record js_error := mk_error {
  err_code : option string;
  err_message : string;
  err_field : option string;
  err_status : option Z
}.

Definition coded (code message : string) : js_error := mk_error (Some code) message None None.
Definition coded_field (code message field : string) : js_error := mk_error (Some code) message (Some field) None.
Definition plain_error (message : string) : js_error := mk_error None message None None.
(** [error.statusCode = n] *)
Definition with_status (n : Z) (e : js_error) : js_error :=
  mk_error (err_code e) (err_message e) (err_field e) (Some n).

#[export] Instance js_error_eq_dec : EqDecision js_error.
Proof. solve_decision. Defined.

Definition has_code (c : string) (e : js_error) : bool := bool_decide (err_code e = Some c).

(** ** Lemmas *)

Lemma str_in_elem x xs : str_in x xs = true <-> x ∈ xs.
Proof.
  unfold str_in. rewrite existsb_exists. setoid_rewrite <- list_elem_of_In.
  setoid_rewrite String.eqb_eq. naive_solver.
Qed.

Lemma str_in_not_elem x xs : str_in x xs = false <-> x ∉ xs.
Proof. rewrite <- str_in_elem, not_true_iff_false. done. Qed.

Lemma nonempty_true s : nonempty s = true <-> s <> "".
Proof. unfold nonempty. rewrite negb_true_iff, String.eqb_neq. done. Qed.

Lemma chars_of_chars l : chars (of_chars l) = l.
Proof. unfold chars, of_chars. apply String.list_ascii_of_string_of_list_ascii. Qed.

Lemma of_chars_chars s : of_chars (chars s) = s.
Proof. unfold chars, of_chars. apply String.string_of_list_ascii_of_string. Qed.

Lemma chars_app s1 s2 : chars (s1 +:+ s2) = chars s1 ++ chars s2.
Proof. induction s1 as [|c s1 IH]; [done|]. simpl. f_equal. apply IH. Qed.

Lemma assoc_set_fresh {A} k (v : A) kvs : assoc_lookup k kvs = None -> assoc_set k v kvs = kvs ++ [(k, v)].
Proof.
  induction kvs as [|[k' v'] kvs IH]; [done|]. simpl. destruct (String.eqb k k'); [done|]. intros Hn. by rewrite IH.
Qed.

Lemma assoc_lookup_none {A} k (kvs : list (string * A)) : k ∉ kvs.*1 -> assoc_lookup k kvs = None.
Proof.
  induction kvs as [|[k' v] kvs IH]; [done|]. simpl. rewrite not_elem_of_cons. intros [Hne Hk].
  destruct (String.eqb_spec k k'); [done | by apply IH].
Qed.

Lemma assoc_set_elem {A} k (v : A) kvs x : NoDup kvs.*1 -> x ∈ assoc_set k v kvs <-> x = (k, v) \/ (x ∈ kvs /\ x.1 <> k).
Proof.
  induction kvs as [|[k' v'] kvs IH]; intros Hnd; simpl.
  - rewrite list_elem_of_singleton. set_solver.
  - rewrite fmap_cons, NoDup_cons in Hnd. destruct Hnd as [Hk Hnd]. destruct (String.eqb_spec k k') as [->|Hne].
    + rewrite !elem_of_cons. split; [|intros [-> | [[-> | Hx] Hn]]; [by left | done | by right]].
      intros [-> | Hx]; [by left|]. right. split; [by right|]. intros Heq. apply Hk. rewrite <- Heq. exact (list_elem_of_fmap_2 fst _ _ Hx).
    + rewrite elem_of_cons, IH, elem_of_cons by done. split.
      * intros [-> | [-> | [Hx Hn]]]; [right; simpl; auto | by left | right; auto].
      * intros [-> | [[-> | Hx] Hn]]; auto.
Qed.

Lemma assoc_set_nodup {A} k (v : A) kvs : NoDup kvs.*1 -> NoDup (assoc_set k v kvs).*1.
Proof.
  induction kvs as [|[k' v'] kvs IH]; intros Hnd; simpl; [apply NoDup_singleton|]. rewrite fmap_cons, NoDup_cons in Hnd. destruct Hnd as [Hk Hnd].
  destruct (String.eqb_spec k k') as [->|Hne]; rewrite fmap_cons, NoDup_cons; [by split|]. split; [|by apply IH].
  simpl. intros ([k2 v2] & Heq & [[= -> ->] | [Hx _]]%assoc_set_elem)%list_elem_of_fmap_1; simpl in Heq; [congruence | | done].
  apply Hk. rewrite Heq. exact (list_elem_of_fmap_2 fst _ _ Hx).
Qed.

Lemma digits_val_app base l1 l2 acc :
  digits_val base acc (l1 ++ l2) = match digits_val base acc l1 with Some v => digits_val base v l2 | None => None end.
Proof. revert acc. induction l1 as [|c l1 IH]; intros acc; simpl; [done|]. by case_match. Qed.

Lemma base36_digits_app fuel n acc : base36_digits fuel n acc = base36_digits fuel n [] ++ acc.
Proof.
  revert n acc. induction fuel as [|fuel IH]; intros n acc; simpl; [done|].
  destruct (n <? 36)%N; [done|].
  rewrite (IH _ (_ :: acc)), (IH _ [_]). rewrite <- app_assoc. done.
Qed.

Lemma digit36_cases d : (d < 36)%N ->
  is_digit (digit36 d) = true \/ is_lower (digit36 d) = true.
Proof.
  intros Hd. unfold digit36, is_digit, is_lower, code.
  destruct (N.ltb_spec d 10); rewrite N_ascii_embedding by lia; [left|right];
    rewrite andb_true_iff, !N.leb_le; lia.
Qed.

Lemma base36_digits_class n :
  Forall (fun c => is_digit c || is_lower c = true) (chars (to_base36 n)).
Proof.
  unfold to_base36. rewrite chars_of_chars. generalize (S (N.size_nat n)) as fuel.
  intros fuel. revert n. induction fuel as [|fuel IH]; intros n; simpl; [constructor|].
  assert (Hd : is_digit (digit36 (n mod 36)) || is_lower (digit36 (n mod 36)) = true).
  { rewrite orb_true_iff. apply digit36_cases. apply N.mod_lt. done. }
  destruct (n <? 36)%N; [by repeat constructor|].
  rewrite base36_digits_app. apply Forall_app. split; [apply IH|by repeat constructor].
Qed.

Lemma to_base36_nonempty n : chars (to_base36 n) <> [].
Proof.
  unfold to_base36. rewrite chars_of_chars. simpl.
  destruct (n <? 36)%N; [done|]. rewrite base36_digits_app. by destruct (base36_digits _ _ _).
Qed.

Lemma drop_while_split {A} (p : A -> bool) l :
  exists a, l = a ++ drop_while p l /\ Forall (fun c => p c = true) a.
Proof.
  induction l as [|c l (a & Hl & Ha)]; simpl; [by exists []|].
  destruct (p c) eqn:?; [|by exists []]. exists (c :: a). simpl. split; [congruence|by constructor].
Qed.

(** [trim] cuts white space at both ends. *)
Lemma trim_chars_split l :
  exists a b, l = a ++ trim_chars l ++ b /\ Forall (fun c => is_space c = true) a.
Proof.
  unfold trim_chars. destruct (drop_while_split is_space l) as (a & Hl & Ha).
  destruct (drop_while_split is_space (reverse (drop_while is_space l))) as (b & Hr & Hb).
  exists a, (reverse b). split; [|done]. rewrite Hl at 1. f_equal.
  rewrite <- reverse_app, <- Hr. by rewrite reverse_involutive.
Qed.

Lemma is_space_not_word c : is_space c = true -> is_word c = false.
Proof. destruct c as [[] [] [] [] [] [] [] []]; vm_compute; congruence. Qed.

#[export] Hint Rewrite chars_of_chars of_chars_chars chars_app : falcone.

Lemma string_set_acc items acc :
  NoDup acc ->
  let f := fun acc v => match v with JStr s => if str_in s acc then acc else acc ++ [s] | _ => acc end in
  NoDup (foldl f acc items) /\ (forall s, s ∈ foldl f acc items <-> s ∈ acc \/ JStr s ∈ items).
Proof.
  intros Hnd f. revert acc Hnd. induction items as [|v items IH]; intros acc Hnd; simpl.
  { split; [done|]. intros s. rewrite elem_of_nil. tauto. }
  assert (Hf : NoDup (f acc v) /\ forall s, s ∈ f acc v <-> s ∈ acc \/ JStr s = v).
  { unfold f. destruct v as [| | | |s| |]; try (split; [done|]; intros t; naive_solver).
    destruct (str_in s acc) eqn:Hs; [apply str_in_elem in Hs | apply str_in_not_elem in Hs].
    - split; [done|]. intros t. naive_solver.
    - split; [apply NoDup_app; split_and!; [done | set_solver | apply NoDup_singleton]|]. intros t. set_solver. }
  destruct Hf as [Hnd' Hel]. destruct (IH (f acc v) Hnd') as [H1 H2]. split; [done|]. intros s.
  rewrite H2, Hel, elem_of_cons. tauto.
Qed.

Lemma string_set_spec items : NoDup (string_set items) /\ forall s, s ∈ string_set items <-> JStr s ∈ items.
Proof.
  destruct (string_set_acc items [] ltac:(constructor)) as [H1 H2]. split; [done|]. intros s. unfold string_set.
  rewrite H2, elem_of_nil. tauto.
Qed.

(** ** Splitting what was joined *)

Definition free_of (c : ascii) (l : list ascii) : bool := negb (existsb (Ascii.eqb c) l).

Lemma free_of_cons c d l : free_of c (d :: l) = negb (Ascii.eqb c d) && free_of c l.
Proof. unfold free_of. simpl. by rewrite negb_orb. Qed.

Lemma free_of_app c l1 l2 : free_of c (l1 ++ l2) = free_of c l1 && free_of c l2.
Proof. unfold free_of. by rewrite existsb_app, negb_orb. Qed.


Lemma split_chars_free c l : free_of c l = true -> split_chars c l = [l].
Proof.
  induction l as [|d l IH]; [done|]. rewrite free_of_cons, andb_true_iff, negb_true_iff. intros [Hd Hl].
  simpl. rewrite (Ascii.eqb_sym d c), Hd, IH by done. done.
Qed.

Lemma split_chars_app c l r : free_of c l = true -> split_chars c (l ++ c :: r) = l :: split_chars c r.
Proof.
  induction l as [|d l IH]; simpl; [by rewrite Ascii.eqb_refl|].
  rewrite free_of_cons, andb_true_iff, negb_true_iff. intros [Hd Hl].
  rewrite (Ascii.eqb_sym d c), Hd, IH by done. done.
Qed.

(** [s.split(sep)] undoes [join(sep)] on non-empty lists of parts without the separator. *)
Lemma split_join sep (xs : list string) :
  xs <> [] -> Forall (fun x => free_of sep (chars x) = true) xs ->
  split_on sep (join (of_chars [sep]) xs) = xs.
Proof.
  intros Hne Hf. unfold split_on. induction Hf as [|x xs Hx Hxs IH]; [done|].
  destruct xs as [|y xs].
  - simpl. rewrite split_chars_free by done. simpl. by rewrite of_chars_chars.
  - change (join (of_chars [sep]) (x :: y :: xs)) with (x +:+ of_chars [sep] +:+ join (of_chars [sep]) (y :: xs)).
    rewrite !chars_app, chars_of_chars. cbn [app]. rewrite split_chars_app by done.
    rewrite fmap_cons, of_chars_chars, IH by done. done.
Qed.
