(* ===== verification/Json.v ===== *)
(** * JSON text, written and read

    [JSON.stringify] of a value and its length in UTF-8, and [JSON.parse] with the
    round trip.  The decimal digits of a
    number that is not an integer are a parameter. *)
From S2P Require Import Prelude JsValue.
From stdpp Require Import sorting.
From Stdlib Require Import Ascii QArith.
Local Open Scope Z_scope.

Class NumberText := { fraction_text : Q -> string }.

Definition quote : string := String (ascii_of_N 34) "".
Definition hex_digit (n : N) : string := of_chars [digit36 n].

Definition json_char (c : ascii) : string :=
  let n := code c in
  if (n =? 34)%N then "\" +:+ quote
  else if (n =? 92)%N then "\\"
  else if (n =? 8)%N then "\b" else if (n =? 9)%N then "\t" else if (n =? 10)%N then "\n"
  else if (n =? 12)%N then "\f" else if (n =? 13)%N then "\r"
  else if (n <? 32)%N then "\u00" +:+ hex_digit (n / 16) +:+ hex_digit (n mod 16)
  else of_chars [c].

Definition json_string (s : string) : string :=
  quote +:+ foldr (fun c acc => json_char c +:+ acc) "" (chars s) +:+ quote.

Definition is_undef (v : jsval) : bool := match v with JUndef => true | _ => false end.

(** ** The order of keys *)

(** [Object.keys(v).sort()] compares code units. *)
Definition key_le {A} (a b : string * A) : Prop := String.leb a.1 b.1 = true.
#[export] Instance key_le_dec {A} : RelDecision (@key_le A).
Proof. intros a b. unfold key_le. apply _. Defined.

#[export] Instance key_le_total {A} : Total (@key_le A).
Proof. intros a b. unfold key_le. apply String.leb_total. Qed.
#[export] Instance key_le_trans {A} : Transitive (@key_le A).
Proof.
  intros a b c Hab Hbc. unfold key_le in *.
  apply Is_true_true. apply Is_true_true in Hab, Hbc. change (String.le a.1 c.1). by etrans.
Qed.

(** Fields with distinct keys are sorted in one way. *)
Lemma sort_fields_unique {A} (l l' : list (string * A)) : NoDup l.*1 -> l ≡ₚ l' -> merge_sort key_le l = merge_sort key_le l'.
Proof.
  intros Hn Hp. apply (Sorted_unique_strong key_le).
  - intros a b Ha Hb Hab Hba. assert (Heq : a.1 = b.1) by by apply String.leb_antisym.
    rewrite !merge_sort_Permutation in *. rewrite Hp in Hn. rewrite Hp in Ha.
    apply list_elem_of_lookup in Ha as [i Hi], Hb as [j Hj].
    assert (i = j) as <- by (eapply NoDup_lookup; [exact Hn| |];
      rewrite list_lookup_fmap, ?Hi, ?Hj; cbn; [reflexivity|by rewrite Heq]). congruence.
  - apply Sorted_merge_sort, _.
  - apply Sorted_merge_sort, _.
  - by rewrite !merge_sort_Permutation.
Qed.

(** The same value but for the order of the fields of the objects. *)
Inductive same_json : jsval -> jsval -> Prop :=
| same_leaf v : (forall xs, v <> JArr xs) -> (forall kvs, v <> JObj kvs) -> same_json v v
| same_arr xs ys : same_items xs ys -> same_json (JArr xs) (JArr ys)
| same_obj kvs kvs' kvs'' :
    NoDup kvs.*1 -> same_fields kvs kvs' -> kvs' ≡ₚ kvs'' -> same_json (JObj kvs) (JObj kvs'')
with same_items : list jsval -> list jsval -> Prop :=
| same_items_nil : same_items [] []
| same_items_cons x y xs ys : same_json x y -> same_items xs ys -> same_items (x :: xs) (y :: ys)
with same_fields : list (string * jsval) -> list (string * jsval) -> Prop :=
| same_fields_nil : same_fields [] []
| same_fields_cons k x y kvs kvs' :
    same_json x y -> same_fields kvs kvs' -> same_fields ((k, x) :: kvs) ((k, y) :: kvs').

Scheme same_json_mut := Minimality for same_json Sort Prop
  with same_items_mut := Minimality for same_items Sort Prop
  with same_fields_mut := Minimality for same_fields Sort Prop.

Lemma same_json_undef v v' : same_json v v' -> is_undef v = is_undef v'.
Proof. by intros []. Qed.

Section numbers.
Context `{!NumberText}.

Definition json_number (n : jsnum) : string :=
  match n with NInt z => show_Z z | NFrac q => fraction_text q | _ => "null" end.

(** [JSON.stringify(v)]; below the top, [undefined] is [null] in an array and
    leaves no field in an object. *)
Fixpoint json_text (v : jsval) : string :=
  match v with
  | JUndef | JNull => "null"
  | JBool b => if b then "true" else "false"
  | JNum n => json_number n
  | JStr s => json_string s
  | JArr xs => "[" +:+ JsValue.join "," (List.map json_text xs) +:+ "]"
  | JObj kvs => "{" +:+ JsValue.join "," (List.flat_map (fun kv =>
                 if is_undef kv.2 then [] else [json_string kv.1 +:+ ":" +:+ json_text kv.2]) kvs) +:+ "}"
  end.

(** [Buffer.byteLength(s)]: a code unit above 127 takes two bytes. *)
Definition byte_length (s : string) : Z :=
  foldr (fun c n => (if (code c <? 128)%N then 1 else 2) + n) 0 (chars s).

End numbers.

(** * Reading JSON text

    [JSON.parse], the inverse of the writer above.  A [\u] escape above 00FF
    has no character in the string model and is refused.  The recursion is on a
    number of rounds: a level of nesting and an element take at least one
    character each, so twice the length of the text is enough. *)

Definition is_json_space (c : ascii) : bool := let n := code c in ((n =? 32) || (n =? 9) || (n =? 10) || (n =? 13))%N.
Definition skip_space (l : list ascii) : list ascii := drop_while is_json_space l.

(** ** Strings *)

Definition quote_char : ascii := ascii_of_N 34.
Definition backslash : ascii := ascii_of_N 92.

Definition unescape (c : ascii) : option ascii :=
  let n := code c in
  if ((n =? 34) || (n =? 92) || (n =? 47))%N then Some c
  else if Ascii.eqb c "b" then Some (ascii_of_N 8) else if Ascii.eqb c "f" then Some (ascii_of_N 12)
  else if Ascii.eqb c "n" then Some (ascii_of_N 10) else if Ascii.eqb c "r" then Some (ascii_of_N 13)
  else if Ascii.eqb c "t" then Some (ascii_of_N 9) else None.

Definition hex4 (ds : list ascii) : option ascii :=
  n ← digits_of 16 ds; if (n <? 256)%N then Some (ascii_of_N n) else None.

Definition cons_read (c : ascii) (o : option (list ascii * list ascii)) : option (list ascii * list ascii) :=
  '(s, r) ← o; Some (c :: s, r).

(** The characters up to the closing quote, and what follows it. *)
Fixpoint parse_chars (l : list ascii) : option (list ascii * list ascii) :=
  match l with
  | [] => None
  | c :: r =>
      if Ascii.eqb c quote_char then Some ([], r)
      else if Ascii.eqb c backslash then
        match r with
        | e :: r1 =>
            if Ascii.eqb e "u" then
              match r1 with
              | a :: b :: d :: f :: r2 => match hex4 [a; b; d; f] with Some x => cons_read x (parse_chars r2) | None => None end
              | _ => None
              end
            else match unescape e with Some x => cons_read x (parse_chars r1) | None => None end
        | [] => None
        end
      else if (code c <? 32)%N then None
      else cons_read c (parse_chars r)
  end.

(** ** Numbers *)

Definition is_e (c : ascii) : bool := Ascii.eqb c "e" || Ascii.eqb c "E".

(** The exponent, when there is one. *)
Definition parse_exponent (l : list ascii) : option (Z * list ascii) :=
  match l with
  | c :: r =>
      if is_e c then
        let '(neg, r') := match r with "-"%char :: t => (true, t) | "+"%char :: t => (false, t) | _ => (false, r) end in
        match span_digits r' with
        | ([], _) => None
        | (ds, t) => Some (if neg : bool then - Z.of_N (dec_val ds) else Z.of_N (dec_val ds), t)
        end
      else Some (0, l)
  | [] => Some (0, l)
  end.

(** The fraction, when there is one. *)
Definition parse_fraction (l : list ascii) : option (list ascii * list ascii) :=
  match l with
  | "."%char :: r => match span_digits r with ([], _) => None | (ds, t) => Some (ds, t) end
  | _ => Some ([], l)
  end.

(** No digit, or a zero before another digit. *)
Definition bad_integer (ip : list ascii) : bool :=
  match ip with [] => true | c :: _ :: _ => Ascii.eqb c "0" | _ => false end.

Definition split_sign (l : list ascii) : bool * list ascii := match l with "-"%char :: r => (true, r) | _ => (false, l) end.

Definition number_value (neg : bool) (ip fp : list ascii) (e : Z) : jsnum :=
  let q := (inject_Z (Z.of_N (dec_val (ip ++ fp))) * Qpow10 (e - Z.of_nat (length fp)))%Q in
  num_of_Q (if neg then Qopp q else q).

Definition parse_number (l : list ascii) : option (jsnum * list ascii) :=
  let '(neg, l1) := split_sign l in
  let '(ip, l2) := span_digits l1 in
  if bad_integer ip then None
  else '(fp, l3) ← parse_fraction l2;
       '(e, l4) ← parse_exponent l3;
       Some (number_value neg ip fp e, l4).

(** ** Values *)

Definition strip_prefix (p : string) (l : list ascii) : option (list ascii) :=
  if prefix_chars (chars p) l then Some (drop (length (chars p)) l) else None.

Fixpoint parse_value (fuel : nat) (l : list ascii) : option (jsval * list ascii) :=
  match fuel with
  | O => None
  | S f =>
      match skip_space l with
      | [] => None
      | c :: r =>
          if Ascii.eqb c quote_char then '(s, t) ← parse_chars r; Some (JStr (of_chars s), t)
          else if Ascii.eqb c "[" then
            match skip_space r with
            | "]"%char :: t => Some (JArr [], t)
            | _ => '(xs, t) ← parse_elements f r; Some (JArr xs, t)
            end
          else if Ascii.eqb c "{" then
            match skip_space r with
            | "}"%char :: t => Some (JObj [], t)
            | _ => '(kvs, t) ← parse_fields f [] r; Some (JObj kvs, t)
            end
          else match strip_prefix "null" (c :: r) with Some t => Some (JNull, t) | None =>
               match strip_prefix "true" (c :: r) with Some t => Some (JBool true, t) | None =>
               match strip_prefix "false" (c :: r) with Some t => Some (JBool false, t) | None =>
               '(n, t) ← parse_number (c :: r); Some (JNum n, t)
               end end end
      end
  end
(** The elements up to the closing bracket, at least one. *)
with parse_elements (fuel : nat) (l : list ascii) : option (list jsval * list ascii) :=
  match fuel with
  | O => None
  | S f =>
      '(x, t) ← parse_value f l;
      match skip_space t with
      | ","%char :: u => '(xs, v) ← parse_elements f u; Some (x :: xs, v)
      | "]"%char :: u => Some ([x], u)
      | _ => None
      end
  end
(** The fields up to the closing brace, at least one; a key read twice keeps its
    first place and its last value. *)
with parse_fields (fuel : nat) (acc : list (string * jsval)) (l : list ascii) : option (list (string * jsval) * list ascii) :=
  match fuel with
  | O => None
  | S f =>
      match skip_space l with
      | c :: r =>
          if Ascii.eqb c quote_char then
            '(k, t) ← parse_chars r;
            match skip_space t with
            | ":"%char :: u =>
                '(x, v) ← parse_value f u;
                let acc' := assoc_set (of_chars k) x acc in
                match skip_space v with
                | ","%char :: w => parse_fields f acc' w
                | "}"%char :: w => Some (acc', w)
                | _ => None
                end
            | _ => None
            end
          else None
      | [] => None
      end
  end.

(** [JSON.parse(s)]; [None] when it throws. *)
Definition json_parse (s : string) : option jsval :=
  let l := chars s in
  match parse_value (2 * length l + 2) l with
  | Some (v, r) => match skip_space r with [] => Some v | _ => None end
  | None => None
  end.

Example json_parse_examples :
  json_parse <$> ["[1, 2.5e1,-3 ]"; "{" +:+ quote +:+ "a" +:+ quote +:+ ":{}, " +:+ quote +:+ "a" +:+ quote +:+ ":null}";
                  "01"; "[1,]"; quote +:+ "\u0041\n" +:+ quote; "tru"; "0.50"]
  = [Some (JArr [JNum (NInt 1); JNum (NInt 25); JNum (NInt (-3))]); Some (JObj [("a", JNull)]);
     None; None; Some (JStr (String "A" (String (ascii_of_N 10) ""))); None; Some (JNum (NFrac (1 # 2)))].
Proof. vm_compute. reflexivity. Qed.

(** ** The rounds suffice *)

Lemma drop_while_length {A} (p : A -> bool) l : (length (drop_while p l) <= length l)%nat.
Proof. induction l as [|c l IH]; simpl; [lia|]. case_match; simpl; lia. Qed.

Lemma skip_space_length l : (length (skip_space l) <= length l)%nat.
Proof. apply drop_while_length. Qed.

Lemma span_digits_length l ds r : span_digits l = (ds, r) -> length l = (length ds + length r)%nat.
Proof.
  revert ds r. induction l as [|c l IH]; intros ds r; simpl; [by intros [= <- <-]|].
  destruct (is_digit c); [|by intros [= <- <-]]. destruct (span_digits l) as [d t] eqn:E. intros [= <- <-].
  simpl. f_equal. by apply IH.
Qed.

Lemma cons_read_some c o s r : cons_read c o = Some (s, r) <-> exists s', o = Some (s', r) /\ s = c :: s'.
Proof. unfold cons_read. destruct o as [[s' r']|]; simpl; naive_solver. Qed.

Lemma parse_chars_length n : forall l s r, (length l <= n)%nat -> parse_chars l = Some (s, r) -> (length r < length l)%nat.
Proof.
  induction n as [|n IH]; intros [|c l] s r Hn; simpl in *; try done; [lia|].
  assert (Hrec : forall l' s' r', (length l' <= length l)%nat -> parse_chars l' = Some (s', r') -> (length r' < S (length l))%nat).
  { intros l' s' r' Hl' Hp. apply IH in Hp; lia. }
  intros Hp. repeat (case_match; simplify_eq/=; try done); try lia.
  all: apply cons_read_some in Hp as (s' & Hp & _); eapply Hrec in Hp; simpl; lia.
Qed.

Lemma parse_number_length l n r : parse_number l = Some (n, r) -> (length r < length l)%nat.
Proof.
  unfold parse_number. destruct (split_sign l) as [neg l1] eqn:Hl1.
  assert (Hlen1 : (length l1 <= length l)%nat) by (unfold split_sign in Hl1; repeat case_match; simplify_eq/=; lia).
  destruct (span_digits l1) as [ip l2] eqn:Hd. apply span_digits_length in Hd.
  destruct (bad_integer ip) eqn:Hip; [done|]. destruct (parse_fraction l2) as [[fp l3]|] eqn:Hf; [|done]. cbn [mbind option_bind].
  assert (Hlen3 : (length l3 <= length l2)%nat).
  { unfold parse_fraction in Hf. repeat case_match; simplify_eq/=; try lia.
    all: match goal with H : span_digits _ = _ |- _ => apply span_digits_length in H; simpl in *; lia end. }
  destruct (parse_exponent l3) as [[e l4]|] eqn:He; [|done]. cbn [mbind option_bind]. intros [= _ <-].
  assert (Hlen4 : (length l4 <= length l3)%nat).
  { unfold parse_exponent in He. destruct l3 as [|c3 t3]; [by simplify_eq|]. destruct (is_e c3); [|by simplify_eq].
    destruct (match t3 with "-"%char :: t => _ | _ => _ end) as [b t] eqn:Ht.
    assert (length t <= length t3)%nat by (repeat case_match; simplify_eq/=; lia).
    destruct (span_digits t) as [ds u] eqn:Hs. apply span_digits_length in Hs. destruct ds; [done|]. injection He as _ <-. simpl in *. lia. }
  destruct ip; [done|]. simpl in *. lia.
Qed.

Lemma strip_prefix_length p l t : strip_prefix p l = Some t -> p <> "" -> l <> [] -> (length t < length l)%nat.
Proof.
  unfold strip_prefix. case_match; [|done]. intros [= <-] Hp Hl. rewrite length_drop.
  destruct p; [done|]. destruct l; [done|]. simpl. lia.
Qed.

(** Rewrite with the length lemmas everywhere. *)
Ltac lengths :=
  repeat match goal with
  | H : parse_chars ?l = Some (_, _) |- _ => apply (parse_chars_length (length l)) in H; [|lia]
  | H : parse_number _ = Some (_, _) |- _ => apply parse_number_length in H
  | H : strip_prefix _ _ = Some _ |- _ => apply strip_prefix_length in H; [|done|done]
  | H : skip_space ?l = _ |- _ => pose proof (skip_space_length l); rewrite H in *; clear H
  end; simpl in *; lia.

Ltac read_steps :=
  repeat (case_match; simplify_eq/=; try done);
  repeat match goal with
  | H : ?m ≫= _ = Some _ |- _ => let E := fresh "E" in destruct m as [[]|] eqn:E; cbn [mbind option_bind] in H; [|done]
  | H : Some _ = Some _ |- _ => progress simplify_eq/=
  | H : match ?x with _ => _ end = Some _ |- _ => destruct x eqn:?; simplify_eq/=; try done
  | H : (if ?x then _ else _) = Some _ |- _ => destruct x eqn:?; simplify_eq/=; try done
  end.

Lemma parse_lengths f :
  (forall l v r, parse_value f l = Some (v, r) -> (length r < length l)%nat) /\
  (forall l v r, parse_elements f l = Some (v, r) -> (length r < length l)%nat) /\
  (forall acc l v r, parse_fields f acc l = Some (v, r) -> (length r < length l)%nat).
Proof.
  induction f as [|f (IHv & IHe & IHf)]; [done|]. split_and!.
  - intros l v r Hp. cbn [parse_value] in Hp. destruct (skip_space l) as [|c t] eqn:Hs; [done|].
    destruct (Ascii.eqb c quote_char). { read_steps. lengths. }
    destruct (Ascii.eqb c "["). { read_steps; try (apply IHe in E); lengths. }
    destruct (Ascii.eqb c "{"). { read_steps; try (apply IHf in E); lengths. }
    read_steps; lengths.
  - intros l v r Hp. cbn [parse_elements] in Hp. destruct (parse_value f l) as [[x t]|] eqn:Hv; [|done]. apply IHv in Hv.
    cbn in Hp. read_steps; try (apply IHe in E); lengths.
  - intros acc l v r Hp. cbn [parse_fields] in Hp. destruct (skip_space l) as [|c t] eqn:Hs; [done|].
    destruct (Ascii.eqb c quote_char); [|done]. destruct (parse_chars t) as [[k t1]|] eqn:Hk; [|done]. cbn in Hp.
    destruct (skip_space t1) as [|c1 u] eqn:Hs1; [done|]. 
    assert (Hc : exists x v', parse_value f u = Some (x, v') /\
      (match skip_space v' with ","%char :: w => parse_fields f (assoc_set (of_chars k) x acc) w
       | "}"%char :: w => Some (assoc_set (of_chars k) x acc, w) | _ => None end) = Some (v, r)).
    { read_steps; eauto. all: eexists _, _; split; [done|]; by case_match; simplify_eq/=. }
    clear Hp. destruct Hc as (x & v' & Hv & Hp). apply IHv in Hv. read_steps; try (apply IHf in Hp); lengths.
Qed.

(** With at least this many rounds the result does not depend on their number. *)
Lemma parse_rounds n :
  (forall l f g, (length l <= n)%nat -> (2 * length l + 1 <= f)%nat -> (2 * length l + 1 <= g)%nat -> parse_value f l = parse_value g l) /\
  (forall l f g, (length l <= n)%nat -> (2 * length l + 2 <= f)%nat -> (2 * length l + 2 <= g)%nat -> parse_elements f l = parse_elements g l) /\
  (forall acc l f g, (length l <= n)%nat -> (2 * length l + 1 <= f)%nat -> (2 * length l + 1 <= g)%nat ->
     parse_fields f acc l = parse_fields g acc l).
Proof.
  induction n as [|n (IHv & IHe & IHf)].
  - assert (Hv : forall f g, (1 <= f)%nat -> (1 <= g)%nat -> parse_value f [] = parse_value g []) by (intros [|f] [|g]; simpl; lia || done).
    split_and!; [intros [|] f g ? ? ?; simpl in *; [apply Hv; lia | lia] | |];
      [intros [|] [|[|f]] [|[|g]] ? ? ?; simpl in *; lia || done | intros acc [|] [|f] [|g] ? ? ?; simpl in *; lia || done].
  - assert (Hval : forall l f g, (length l <= S n)%nat -> (2 * length l + 1 <= f)%nat -> (2 * length l + 1 <= g)%nat ->
        parse_value f l = parse_value g l).
    { intros l [|f] [|g] Hn Hf Hg; try lia. cbn [parse_value]. pose proof (skip_space_length l).
      destruct (skip_space l) as [|c r] eqn:Hs; [done|]. simpl in *.
      rewrite (IHe r f g), (IHf [] r f g) by lia. done. }
    split_and!; [done| |].
    + intros l [|f] [|g] Hn Hf Hg; try lia. cbn [parse_elements]. rewrite (Hval l f g) by lia.
      destruct (parse_value g l) as [[x t]|] eqn:Hx; [|done]. cbn [mbind option_bind]. apply parse_lengths in Hx.
      pose proof (skip_space_length t). destruct (skip_space t) as [|c u]; [done|]. simpl in *. rewrite (IHe u f g) by lia. done.
    + intros acc l [|f] [|g] Hn Hf Hg; try lia. cbn [parse_fields]. pose proof (skip_space_length l).
      destruct (skip_space l) as [|c r]; [done|]. simpl in *. destruct (Ascii.eqb c quote_char); [|done].
      destruct (parse_chars r) as [[k t]|] eqn:Hk; [|done]. cbn [mbind option_bind]. apply (parse_chars_length (length r)) in Hk; [|lia].
      pose proof (skip_space_length t). destruct (skip_space t) as [|c' u]; [done|]. simpl in *.
      rewrite (IHv u f g) by lia. destruct (parse_value g u) as [[x v]|] eqn:Hx; [|done]. cbn [mbind option_bind]. apply parse_lengths in Hx.
      pose proof (skip_space_length v). destruct (skip_space v) as [|c2 w]; [done|]. simpl in *. rewrite (IHf (assoc_set (of_chars k) x acc) w f g) by lia. done.
Qed.

(** More rounds keep a value that was read. *)
Lemma parse_more f :
  (forall l x, parse_value f l = Some x -> parse_value (S f) l = Some x) /\
  (forall l x, parse_elements f l = Some x -> parse_elements (S f) l = Some x) /\
  (forall acc l x, parse_fields f acc l = Some x -> parse_fields (S f) acc l = Some x).
Proof.
  induction f as [|f (IHv & IHe & IHf)]; [done|]. split_and!.
  - intros l x Hp. cbn [parse_value] in Hp. remember (S f) as g. cbn [parse_value]. subst g.
    destruct (skip_space l) as [|c r]; [done|]. destruct (Ascii.eqb c quote_char); [done|].
    assert (He : forall y, ('(xs, t) ← parse_elements f r; Some (JArr xs, t)) = Some y -> ('(xs, t) ← parse_elements (S f) r; Some (JArr xs, t)) = Some y).
    { intros y. destruct (parse_elements f r) as [e|] eqn:He; [|done]. by rewrite (IHe _ _ He). }
    assert (Hf : forall y, ('(kvs, t) ← parse_fields f [] r; Some (JObj kvs, t)) = Some y -> ('(kvs, t) ← parse_fields (S f) [] r; Some (JObj kvs, t)) = Some y).
    { intros y. destruct (parse_fields f [] r) as [e|] eqn:He'; [|done]. by rewrite (IHf _ _ _ He'). }
    destruct (Ascii.eqb c "["); [|destruct (Ascii.eqb c "{"); [|done]].
    + destruct (skip_space r) as [|[] t]; auto. repeat case_match; auto.
    + destruct (skip_space r) as [|[] t]; auto. repeat case_match; auto.
  - intros l x Hp. cbn [parse_elements] in Hp. remember (S f) as g. cbn [parse_elements]. subst g.
    destruct (parse_value f l) as [[y t]|] eqn:Hv; [|done]. rewrite (IHv _ _ Hv). cbn [mbind option_bind] in *.
    destruct (skip_space t) as [|c u]; [done|].
    assert (He : forall z, ('(xs, v) ← parse_elements f u; Some (y :: xs, v)) = Some z -> ('(xs, v) ← parse_elements (S f) u; Some (y :: xs, v)) = Some z).
    { intros z. destruct (parse_elements f u) as [e|] eqn:He; [|done]. by rewrite (IHe _ _ He). }
    destruct c; repeat case_match; auto.
  - intros acc l x Hp. cbn [parse_fields] in Hp. remember (S f) as g. cbn [parse_fields]. subst g.
    destruct (skip_space l) as [|c r]; [done|]. destruct (Ascii.eqb c quote_char); [|done].
    destruct (parse_chars r) as [[k t]|]; [|done]. cbn [mbind option_bind] in *. destruct (skip_space t) as [|c' u]; [done|].
    assert (He : forall z, ('(y, v) ← parse_value f u;
        match skip_space v with ","%char :: w => parse_fields f (assoc_set (of_chars k) y acc) w
        | "}"%char :: w => Some (assoc_set (of_chars k) y acc, w) | _ => None end) = Some z ->
      ('(y, v) ← parse_value (S f) u;
        match skip_space v with ","%char :: w => parse_fields (S f) (assoc_set (of_chars k) y acc) w
        | "}"%char :: w => Some (assoc_set (of_chars k) y acc, w) | _ => None end) = Some z).
    { intros z. destruct (parse_value f u) as [[y v]|] eqn:Hv; [|done]. rewrite (IHv _ _ Hv). cbn [mbind option_bind].
      destruct (skip_space v) as [|[] w]; auto. repeat case_match; auto. }
    destruct c'; repeat case_match; auto.
Qed.

Lemma parse_value_le f g l x : (f <= g)%nat -> parse_value f l = Some x -> parse_value g l = Some x.
Proof. induction 1; [done|]. intros Hp. by apply parse_more, IHle. Qed.
Lemma parse_elements_le f g l x : (f <= g)%nat -> parse_elements f l = Some x -> parse_elements g l = Some x.
Proof. induction 1; [done|]. intros Hp. by apply parse_more, IHle. Qed.
Lemma parse_fields_le f g acc l x : (f <= g)%nat -> parse_fields f acc l = Some x -> parse_fields g acc l = Some x.
Proof. induction 1; [done|]. intros Hp. by apply parse_more, IHle. Qed.

(** A value that some number of rounds reads is read. *)
Lemma json_parse_reads f s v : parse_value f (chars s) = Some (v, []) -> json_parse s = Some v.
Proof.
  intros Hp. unfold json_parse. set (l := chars s) in *. set (m := Nat.max f (2 * length l + 2)%nat).
  rewrite (proj1 (parse_rounds (length l)) l _ m) by lia.
  rewrite (parse_value_le f m l (v, [])) by (lia || done). done.
Qed.

(** ** Reading what was written *)

(** The values that survive: no [undefined], whole numbers, distinct keys. *)
Fixpoint plain (v : jsval) : Prop :=
  match v with
  | JUndef => False
  | JNum n => match n with NInt _ => True | _ => False end
  | JArr xs => foldr and True (List.map plain xs)
  | JObj kvs => NoDup kvs.*1 /\ foldr and True (List.map (fun kv => plain kv.2) kvs)
  | _ => True
  end.

(** What may follow a number. *)
Definition ends_number (l : list ascii) : Prop :=
  match l with [] => True | c :: _ => c = ","%char \/ c = "]"%char \/ c = "}"%char end.

Lemma parse_json_char c l : parse_chars (chars (json_char c) ++ l) = cons_read c (parse_chars l).
Proof. destruct c as [[] [] [] [] [] [] [] []]; reflexivity. Qed.

Lemma parse_json_chars cs rest :
  parse_chars (chars (foldr (fun c acc => json_char c +:+ acc) "" cs) ++ quote_char :: rest) = Some (cs, rest).
Proof.
  induction cs as [|c cs IH]; [done|]. cbn [foldr]. rewrite chars_app, <- app_assoc, parse_json_char, IH. done.
Qed.

Lemma json_string_text s rest :
  chars (json_string s) ++ rest = quote_char :: chars (foldr (fun c acc => json_char c +:+ acc) "" (chars s)) ++ quote_char :: rest.
Proof. unfold json_string. rewrite !chars_app, <- !app_assoc. done. Qed.

Lemma pretty_digits (n : N) : (0 < n)%N ->
  exists d ds, (forall s, chars (pretty.pretty_N_go n s) = d :: ds ++ chars s) /\ Forall (fun c => is_digit c = true) (d :: ds) /\
    digits_val 10 0 (d :: ds) = Some n /\ Ascii.eqb d "0" = false.
Proof.
  induction (N.lt_wf_0 n) as [n _ IH]; intros Hn.
  assert (Hdigit : forall m, (m < 10)%N -> is_digit (pretty.pretty_N_char m) = true /\ digit_val (pretty.pretty_N_char m) = m /\
    (Ascii.eqb (pretty.pretty_N_char m) "0" = false \/ m = 0%N)).
  { intros m Hm. assert (Hc : forallb (fun m => is_digit (pretty.pretty_N_char m) && (digit_val (pretty.pretty_N_char m) =? m)%N &&
      (negb (Ascii.eqb (pretty.pretty_N_char m) "0") || (m =? 0)%N)) (N.of_nat <$> seq 0 10) = true) by (vm_compute; reflexivity).
    rewrite forallb_forall in Hc. specialize (Hc m). rewrite !andb_true_iff, orb_true_iff, negb_true_iff, !N.eqb_eq in Hc.
    destruct Hc as [[] []]; [|by auto..]. apply list_elem_of_In, list_elem_of_fmap. exists (N.to_nat m). rewrite elem_of_seq. split; lia. }
  destruct (Hdigit (n mod 10)%N) as (Hd & Hv & Hz); [apply N.mod_lt; lia|].
  destruct (N.ltb_spec n 10) as [Hlt|Hge].
  - rewrite N.mod_small in * by lia. exists (pretty.pretty_N_char n), []. split_and!.
    + intros s. rewrite pretty.pretty_N_go_step, N.div_small, pretty.pretty_N_go_0, N.mod_small by lia. done.
    + by repeat constructor.
    + cbn [digits_val]. rewrite Hv. destruct (N.ltb_spec n 10); [|lia]. done.
    + destruct Hz; [done | lia].
  - destruct (IH (n / 10)%N) as (d & ds & Hs & Hds & Hval & H0); [apply N.div_lt; lia | apply N.div_str_pos; lia|].
    exists d, (ds ++ [pretty.pretty_N_char (n mod 10)]). split_and!; [| | |done].
    + intros s. rewrite pretty.pretty_N_go_step by lia. rewrite Hs. rewrite <- app_assoc. done.
    + rewrite app_comm_cons. apply Forall_app. by split; [|repeat constructor].
    + rewrite app_comm_cons, digits_val_app, Hval. cbn [digits_val]. rewrite Hv.
      destruct (N.ltb_spec (n mod 10) 10) as [_|]; [|pose proof (N.mod_lt n 10 ltac:(lia)); lia].
      f_equal. pose proof (N.div_mod n 10 ltac:(lia)). lia.
Qed.

Lemma span_digits_all ds rest :
  Forall (fun c => is_digit c = true) ds -> match rest with c :: _ => is_digit c = false | [] => True end ->
  span_digits (ds ++ rest) = (ds, rest).
Proof.
  induction 1 as [|c ds Hc Hds IH]; intros Hr; simpl; [destruct rest; simpl; by rewrite ?Hr|]. rewrite Hc, (IH Hr). done.
Qed.

Lemma ends_not_digit rest : ends_number rest -> match rest with c :: _ => is_digit c = false | [] => True end.
Proof. destruct rest as [|c rest]; [done|]. by intros [-> | [-> | ->]]. Qed.

Lemma ends_fraction rest : ends_number rest -> parse_fraction rest = Some ([], rest) /\ parse_exponent rest = Some (0, rest).
Proof. destruct rest as [|c rest]; [done|]. by intros [-> | [-> | ->]]. Qed.

Lemma number_value_int (neg : bool) ds n : digits_val 10 0 ds = Some n -> number_value neg ds [] 0 = NInt (if neg then - Z.of_N n else Z.of_N n).
Proof.
  intros Hv. unfold number_value, dec_val. rewrite app_nil_r, Hv. cbn [default length Z.of_nat Z.sub Qpow10].
  assert (Hq : forall z, num_of_Q (inject_Z z) = NInt z).
  { intros z. unfold num_of_Q. assert (Hr : Qred (inject_Z z) = inject_Z z).
    { unfold inject_Z. unfold Qred. destruct (Z.ggcd z 1) as [g [a b]] eqn:Hg.
      pose proof (Z.ggcd_gcd z 1) as H1. pose proof (Z.ggcd_correct_divisors z 1) as H2. rewrite Hg in H1, H2. simpl in H1.
      rewrite Z.gcd_1_r in H1. subst g. destruct H2 as [-> Hb]. assert (b = 1) as -> by lia. f_equal; lia. }
    rewrite Hr. simpl. done. }
  set (m := Z.of_N n). assert (Hm : (inject_Z m * inject_Z (10 ^ 0))%Q = inject_Z m) by (unfold inject_Z, Qmult; simpl; by rewrite Z.mul_1_r).
  change (num_of_Q (if neg then - (inject_Z m * inject_Z (10 ^ 0)) else inject_Z m * inject_Z (10 ^ 0))%Q = NInt (if neg then - m else m)). rewrite Hm.
  destruct neg; [|apply Hq]. replace (- inject_Z m)%Q with (inject_Z (- m)) by done. apply Hq.
Qed.

Lemma not_minus d ds : is_digit d = true -> split_sign (d :: ds) = (false, d :: ds).
Proof. destruct d as [[] [] [] [] [] [] [] []]; done. Qed.

Lemma parse_json_digits (neg : bool) d ds n rest :
  Forall (fun c => is_digit c = true) (d :: ds) -> digits_val 10 0 (d :: ds) = Some n -> bad_integer (d :: ds) = false -> ends_number rest ->
  parse_number ((if neg then ["-"%char] else []) ++ (d :: ds) ++ rest) = Some (NInt (if neg then - Z.of_N n else Z.of_N n), rest).
Proof.
  intros Hds Hv H0 He. unfold parse_number.
  assert (Hs : split_sign ((if neg then ["-"%char] else []) ++ (d :: ds) ++ rest) = (neg, (d :: ds) ++ rest)).
  { destruct neg; [done|]. inversion Hds; subst. simpl. by apply not_minus. }
  rewrite Hs, span_digits_all by (done || by apply ends_not_digit). rewrite H0.
  destruct (ends_fraction rest He) as [-> Hx]. cbn [mbind option_bind]. rewrite Hx. cbn [mbind option_bind]. f_equal. f_equal.
  by apply number_value_int.
Qed.

Lemma parse_json_int z rest : ends_number rest -> parse_number (chars (show_Z z) ++ rest) = Some (NInt z, rest).
Proof.
  intros He. unfold show_Z. destruct z as [|p|p].
  - pose proof (parse_json_digits false "0" [] 0 rest ltac:(by repeat constructor) eq_refl eq_refl He) as Hp. exact Hp.
  - destruct (pretty_digits (N.pos p)) as (d & ds & Hs & Hds & Hv & H0); [done|].
    assert (Hc : chars (pretty.pretty (Z.pos p)) = d :: ds) by (change (chars (pretty.pretty_N_go (N.pos p) "") = d :: ds); by rewrite Hs, app_nil_r).
    rewrite Hc. pose proof (parse_json_digits false d ds (N.pos p) rest Hds Hv) as Hp. apply Hp; [|done]. by destruct ds.
  - destruct (pretty_digits (N.pos p)) as (d & ds & Hs & Hds & Hv & H0); [done|].
    assert (Hc : chars (pretty.pretty (Z.neg p)) = "-"%char :: d :: ds)
      by (change ("-"%char :: chars (pretty.pretty_N_go (N.pos p) "") = "-"%char :: d :: ds); by rewrite Hs, app_nil_r).
    rewrite Hc. pose proof (parse_json_digits true d ds (N.pos p) rest Hds Hv) as Hp. apply Hp; [|done]. by destruct ds.
Qed.

(** Induction through the elements of arrays and the fields of objects. *)
Lemma jsval_nested_ind (P : jsval -> Prop) :
  P JUndef -> P JNull -> (forall b, P (JBool b)) -> (forall n, P (JNum n)) -> (forall s, P (JStr s)) ->
  (forall xs, Forall P xs -> P (JArr xs)) -> (forall kvs, Forall (fun kv => P kv.2) kvs -> P (JObj kvs)) -> forall v, P v.
Proof.
  intros Hu Hn Hb Hnum Hs Ha Ho. fix IH 1. intros [| |b|n|s|xs|kvs]; [exact Hu | exact Hn | apply Hb | apply Hnum | apply Hs | |].
  - apply Ha. induction xs as [|x xs IHxs]; constructor; [apply IH | done].
  - apply Ho. induction kvs as [|[k x] kvs IHk]; constructor; [apply IH | done].
Qed.

(** [===] on the trees of values is equality. *)
Lemma jsval_eqb_eq a b : jsval_eqb a b = true <-> a = b.
Proof.
  revert b. induction a as [| |x|n|s|xs IH|kvs IH] using jsval_nested_ind; intros b; destruct b as [| |y|m|t|ys|kvs']; try (split; done).
  - cbn. rewrite Bool.eqb_true_iff. split; congruence.
  - cbn. rewrite bool_decide_eq_true. split; congruence.
  - cbn. rewrite String.eqb_eq. split; congruence.
  - revert ys. induction IH as [|x xs Hx _ IH]; intros [|y ys]; try (split; done). cbn [jsval_eqb]. rewrite andb_true_iff, Hx.
    specialize (IH ys). cbn [jsval_eqb] in IH. rewrite IH. split; [intros [-> [= ->]]; done | intros [= -> ->]; done].
  - revert kvs'. induction IH as [|[k x] kvs Hx _ IH]; intros [|[k' y] kvs']; try (split; done). cbn [jsval_eqb]. rewrite !andb_true_iff, String.eqb_eq, (Hx y).
    specialize (IH kvs'). cbn [jsval_eqb] in IH. rewrite IH. cbn [snd]. split; [intros [[-> ->] [= ->]]; done | intros [= -> -> ->]; done].
Qed.

#[export] Instance jsval_eq_dec : EqDecision jsval.
Proof. intros a b. destruct (jsval_eqb a b) eqn:E; [left; by apply jsval_eqb_eq | right; intros H%jsval_eqb_eq; congruence]. Defined.

Lemma number_start (c : ascii) f l :
  is_digit c || Ascii.eqb c "-" = true -> parse_value (S f) (c :: l) = '(n, t) ← parse_number (c :: l); Some (JNum n, t).
Proof. destruct c as [[] [] [] [] [] [] [] []]; intros Hc; try discriminate Hc; reflexivity. Qed.

Lemma show_Z_start z : exists c cs, chars (show_Z z) = c :: cs /\ is_digit c || Ascii.eqb c "-" = true.
Proof.
  unfold show_Z. destruct z as [|p|p].
  - by exists "0"%char, [].
  - destruct (pretty_digits (N.pos p)) as (d & ds & Hs & Hds & _ & _); [done|]. exists d, ds.
    split; [change (chars (pretty.pretty_N_go (N.pos p) "") = d :: ds); by rewrite Hs, app_nil_r|]. inversion Hds; subst. by apply orb_true_iff; left.
  - eexists "-"%char, _. done.
Qed.

Section roundtrip.
Context `{!NumberText}.

(** The text of a value starts with a character that is no space and closes nothing. *)
Lemma text_start v : plain v -> exists c cs, chars (json_text v) = c :: cs /\ is_json_space c = false /\ c <> "]"%char /\ c <> "}"%char.
Proof.
  destruct v as [| |[]|[z| | |]|s|xs|kvs]; simpl; try done; intros _; try (by eexists _, _).
  destruct (show_Z_start z) as (c & cs & -> & Hc). exists c, cs. split; [done|].
  destruct c as [[] [] [] [] [] [] [] []]; try discriminate Hc; done.
Qed.

Lemma skip_nonspace c l : is_json_space c = false -> skip_space (c :: l) = c :: l.
Proof. unfold skip_space. simpl. by intros ->. Qed.

Definition reads (v : jsval) : Prop :=
  forall rest, ends_number rest -> exists f, parse_value f (chars (json_text v) ++ rest) = Some (v, rest).

Lemma read_elements xs : xs <> [] -> Forall reads xs -> forall rest,
  exists f, parse_elements f (chars (JsValue.join "," (List.map json_text xs)) ++ "]"%char :: rest) = Some (xs, rest).
Proof.
  intros Hne Hxs rest. induction Hxs as [|x xs Hx Hxs IH]; [done|]. destruct xs as [|y xs].
  - destruct (Hx ("]"%char :: rest)) as [f Hf]; [by right; left|]. exists (S f). cbn [parse_elements List.map JsValue.join].
    rewrite Hf. done.
  - destruct IH as [g Hg]; [done|].
    destruct (Hx (","%char :: chars (JsValue.join "," (List.map json_text (y :: xs))) ++ "]"%char :: rest)) as [f Hf]; [by left|].
    exists (S (Nat.max f g)). cbn [parse_elements].
    assert (Ht : chars (JsValue.join "," (List.map json_text (x :: y :: xs))) ++ "]"%char :: rest
      = chars (json_text x) ++ ","%char :: chars (JsValue.join "," (List.map json_text (y :: xs))) ++ "]"%char :: rest).
    { cbn [List.map JsValue.join]. rewrite !chars_app, <- !app_assoc. done. }
    rewrite Ht, (parse_value_le f (Nat.max f g) _ _ ltac:(lia) Hf). cbn [mbind option_bind]. rewrite skip_nonspace by done.
    rewrite (parse_elements_le g (Nat.max f g) _ _ ltac:(lia) Hg). done.
Qed.

Definition field_text (kv : string * jsval) : string := json_string kv.1 +:+ ":" +:+ json_text kv.2.

Lemma plain_fields kvs : foldr and True (List.map (fun kv => plain kv.2) kvs) ->
  List.flat_map (fun kv => if is_undef kv.2 then [] else [json_string kv.1 +:+ ":" +:+ json_text kv.2]) kvs = field_text <$> kvs.
Proof. induction kvs as [|[k v] kvs IH]; [done|]. simpl. intros [Hv Hkvs]. destruct v; try done; simpl; by rewrite IH. Qed.

Lemma field_text_app kv rest :
  chars (field_text kv) ++ rest = quote_char :: chars (foldr (fun c acc => json_char c +:+ acc) "" (chars kv.1)) ++ quote_char :: ":"%char :: chars (json_text kv.2) ++ rest.
Proof. unfold field_text. rewrite chars_app, <- app_assoc, json_string_text, chars_app, <- app_assoc. done. Qed.

Lemma read_fields kvs : kvs <> [] -> Forall (fun kv => reads kv.2) kvs -> forall acc rest, NoDup (acc ++ kvs).*1 ->
  exists f, parse_fields f acc (chars (JsValue.join "," (field_text <$> kvs)) ++ "}"%char :: rest) = Some (acc ++ kvs, rest).
Proof.
  intros Hne Hkvs. induction Hkvs as [|[k x] kvs Hx Hkvs IH]; [done|]. intros acc rest Hnd.
  assert (Hset : assoc_set k x acc = acc ++ [(k, x)]).
  { apply assoc_set_fresh, assoc_lookup_none. rewrite fmap_app, fmap_cons in Hnd. apply NoDup_app in Hnd as (_ & Hd & _).
    intros Hk. by apply (Hd k Hk); constructor. }
  assert (Hone : forall f rest' y, parse_value f (chars (json_text x) ++ rest') = Some (x, rest') ->
    parse_fields (S f) acc (chars (field_text (k, x)) ++ rest') = y <->
    match skip_space rest' with
    | ","%char :: w => parse_fields f (acc ++ [(k, x)]) w | "}"%char :: w => Some (acc ++ [(k, x)], w) | _ => None end = y).
  { intros f rest' y Hf. rewrite field_text_app. cbn [parse_fields]. rewrite skip_nonspace by done.
    assert (Hq : Ascii.eqb quote_char quote_char = true) by done. rewrite Hq, parse_json_chars. cbn [mbind option_bind fst snd].
    rewrite skip_nonspace by done. rewrite Hf. cbn [mbind option_bind]. rewrite of_chars_chars, Hset. done. }
  destruct kvs as [|kv kvs].
  - destruct (Hx ("}"%char :: rest)) as [f Hf]; [by right; right|]. exists (S f). cbn [fmap list_fmap JsValue.join]. by apply (Hone f).
  - destruct (IH ltac:(done) (acc ++ [(k, x)]) rest) as [g Hg]; [by rewrite <- app_assoc|].
    set (more := chars (JsValue.join "," (field_text <$> kv :: kvs)) ++ "}"%char :: rest) in *.
    destruct (Hx (","%char :: more)) as [f Hf]; [by left|]. exists (S (Nat.max f g)).
    assert (Ht : chars (JsValue.join "," (field_text <$> (k, x) :: kv :: kvs)) ++ "}"%char :: rest = chars (field_text (k, x)) ++ ","%char :: more).
    { unfold more. cbn [fmap list_fmap JsValue.join]. rewrite !chars_app, <- !app_assoc. done. }
    rewrite Ht. apply (Hone (Nat.max f g)); [by apply (parse_value_le f); [lia|]|]. rewrite skip_nonspace by done.
    rewrite (parse_fields_le g (Nat.max f g) _ _ _ ltac:(lia) Hg). by rewrite <- app_assoc.
Qed.

Lemma Forall_given {A} (P Q : A -> Prop) l : Forall (fun x => P x -> Q x) l -> foldr and True (List.map P l) -> Forall Q l.
Proof. induction 1; simpl; constructor; naive_solver. Qed.

Lemma read_json v : plain v -> reads v.
Proof.
  induction v as [| |b|n|s|xs IH|kvs IH] using jsval_nested_ind; intros Hp rest He; try done.
  - by exists 1%nat.
  - by destruct b; exists 1%nat.
  - destruct n as [z| | |]; try done. exists 1%nat. cbn [json_text json_number].
    destruct (show_Z_start z) as (c & cs & Hc & Hd). pose proof (parse_json_int z rest He) as Hz. rewrite Hc in *. simpl app in *.
    rewrite number_start by done. by rewrite Hz.
  - exists 1%nat. cbn [json_text]. rewrite json_string_text. cbn [parse_value]. rewrite skip_nonspace by done.
    assert (Hq : Ascii.eqb quote_char quote_char = true) by done. rewrite Hq, parse_json_chars. cbn [mbind option_bind]. by rewrite of_chars_chars.
  - cbn [json_text]. destruct xs as [|x xs]; [by exists 1%nat|].
    assert (Hall : Forall reads (x :: xs)) by exact (Forall_given plain reads _ IH Hp).
    destruct (read_elements (x :: xs) ltac:(done) Hall rest) as [f Hf]. exists (S f). rewrite !chars_app, <- !app_assoc.
    destruct (text_start x) as (c & cs & Hc & Hs & Hb & _); [by destruct Hp|].
    assert (Ht : exists cs', chars (JsValue.join "," (List.map json_text (x :: xs))) = c :: cs').
    { destruct xs; cbn [List.map JsValue.join]; [by exists cs|]. rewrite chars_app, Hc. by eexists. }
    destruct Ht as [cs' Ht]. cbn [chars]. cbn [parse_value]. change (chars "[") with ["["%char]. change (chars "]") with ["]"%char].
    cbn [app]. rewrite skip_nonspace by done. rewrite Ht in *. cbn [app] in *.
    change (Ascii.eqb "[" quote_char) with false. change (Ascii.eqb "[" "[") with true. cbv iota. rewrite skip_nonspace by done.
    rewrite Hf. cbn [mbind option_bind]. destruct c as [[] [] [] [] [] [] [] []]; done.
  - cbn [json_text]. destruct Hp as [Hnd Hp]. rewrite (plain_fields kvs Hp). destruct kvs as [|kv kvs]; [by exists 1%nat|].
    assert (Hall : Forall (fun kv => reads kv.2) (kv :: kvs))
      by exact (Forall_given (fun kv => plain kv.2) (fun kv => reads kv.2) _ IH Hp).
    destruct (read_fields (kv :: kvs) ltac:(done) Hall [] rest ltac:(done)) as [f Hf]. exists (S f). rewrite !chars_app, <- !app_assoc.
    assert (Ht : exists cs', chars (JsValue.join "," (field_text <$> kv :: kvs)) = quote_char :: cs').
    { destruct kvs; cbn [fmap list_fmap JsValue.join]; rewrite ?chars_app; unfold field_text, json_string; rewrite !chars_app; by eexists. }
    destruct Ht as [cs' Ht]. cbn [parse_value]. change (chars "{") with ["{"%char]. change (chars "}") with ["}"%char].
    cbn [app]. rewrite skip_nonspace by done. rewrite Ht in *. cbn [app] in *.
    change (Ascii.eqb "{" quote_char) with false. change (Ascii.eqb "{" "[") with false. change (Ascii.eqb "{" "{") with true. cbv iota.
    rewrite skip_nonspace by done. rewrite Hf. cbn [mbind option_bind]. done.
Qed.

(** What [JSON.stringify] writes, [JSON.parse] reads back. *)
Lemma json_parse_text v : plain v -> json_parse (json_text v) = Some v.
Proof. intros Hp. destruct (read_json v Hp [] I) as [f Hf]. rewrite app_nil_r in Hf. by apply (json_parse_reads f). Qed.

End roundtrip.
