(* ===== verification/Regex.v ===== *)
(** * Regular expressions of the sources

    The subset of JavaScript regular expressions the services use, as a syntax
    tree over character classes, with an executable matcher by derivatives and
    the proof that it decides the usual language.  [re_test_full r s] is
    [/^r$/.test(s)], [re_test r s] is [/r/.test(s)], and [re_test_word_start]
    is [/\br/.test(s)] for an [r] that starts with a word character. *)
From S2P Require Import Prelude JsValue.
From Stdlib Require Import Ascii.

Inductive re : Type :=
| RNone
| REps
| RCls (p : ascii -> bool)
| RSeq (r1 r2 : re)
| RAlt (r1 r2 : re)
| RStar (r : re).

(** ** The language of an expression *)

Inductive re_lang : re -> list ascii -> Prop :=
| lang_eps : re_lang REps []
| lang_cls p c : p c = true -> re_lang (RCls p) [c]
| lang_seq r1 r2 l1 l2 : re_lang r1 l1 -> re_lang r2 l2 -> re_lang (RSeq r1 r2) (l1 ++ l2)
| lang_alt_l r1 r2 l : re_lang r1 l -> re_lang (RAlt r1 r2) l
| lang_alt_r r1 r2 l : re_lang r2 l -> re_lang (RAlt r1 r2) l
| lang_star_nil r : re_lang (RStar r) []
| lang_star_app r l1 l2 : re_lang r l1 -> re_lang (RStar r) l2 -> re_lang (RStar r) (l1 ++ l2).

(** ** The matcher *)

Definition rseq (r1 r2 : re) : re :=
  match r1, r2 with
  | RNone, _ | _, RNone => RNone
  | REps, r | r, REps => r
  | _, _ => RSeq r1 r2
  end.

Definition ralt (r1 r2 : re) : re :=
  match r1, r2 with
  | RNone, r | r, RNone => r
  | _, _ => RAlt r1 r2
  end.

Fixpoint nullable (r : re) : bool :=
  match r with
  | RNone | RCls _ => false
  | REps | RStar _ => true
  | RSeq r1 r2 => nullable r1 && nullable r2
  | RAlt r1 r2 => nullable r1 || nullable r2
  end.

Fixpoint deriv (c : ascii) (r : re) : re :=
  match r with
  | RNone | REps => RNone
  | RCls p => if p c then REps else RNone
  | RSeq r1 r2 =>
      if nullable r1 then ralt (rseq (deriv c r1) r2) (deriv c r2)
      else rseq (deriv c r1) r2
  | RAlt r1 r2 => ralt (deriv c r1) (deriv c r2)
  | RStar r1 => rseq (deriv c r1) (RStar r1)
  end.

Fixpoint re_full (r : re) (l : list ascii) : bool :=
  match l with
  | [] => nullable r
  | c :: l' => re_full (deriv c r) l'
  end.

(** Some prefix of [l] is in the language. *)
Fixpoint re_prefix (r : re) (l : list ascii) : bool :=
  nullable r || match l with [] => false | c :: l' => re_prefix (deriv c r) l' end.

(** Some factor of [l] is in the language. *)
Fixpoint re_find (r : re) (l : list ascii) : bool :=
  re_prefix r l || match l with [] => false | _ :: l' => re_find r l' end.

(** Some factor of [l] that starts at a word boundary; [prev_word] says whether
    the character before [l] is a word character. *)
Fixpoint re_find_word_start (prev_word : bool) (r : re) (l : list ascii) : bool :=
  (negb prev_word && re_prefix r l)
  || match l with [] => false | c :: l' => re_find_word_start (is_word c) r l' end.

Definition re_test_full (r : re) (s : string) : bool := re_full r (chars s).
Definition re_test_start (r : re) (s : string) : bool := re_prefix r (chars s).
Definition re_test (r : re) (s : string) : bool := re_find r (chars s).
Definition re_test_word_start (r : re) (s : string) : bool := re_find_word_start false r (chars s).

(** ** Building expressions *)

Definition rchar (c : ascii) : re := RCls (Ascii.eqb c).
(** Case-insensitive letter (flag [i]). *)
Definition rchar_ci (c : ascii) : re := RCls (fun d => Ascii.eqb (lower_char c) (lower_char d)).
Definition rany : re := RCls (fun c => negb ((code c =? 10) || (code c =? 13))%N).
Definition rseqs (rs : list re) : re := foldr RSeq REps rs.
Definition rlit (s : string) : re := rseqs (rchar <$> chars s).
Definition rlit_ci (s : string) : re := rseqs (rchar_ci <$> chars s).
Definition ropt (r : re) : re := RAlt REps r.
Definition rplus (r : re) : re := RSeq r (RStar r).
Definition ralts (rs : list re) : re := foldr RAlt RNone rs.
(** [r{n}] *)
Fixpoint rtimes (n : nat) (r : re) : re :=
  match n with O => REps | S n' => RSeq r (rtimes n' r) end.
(** [r{0,n}] *)
Fixpoint rupto (n : nat) (r : re) : re :=
  match n with O => REps | S n' => RAlt REps (RSeq r (rupto n' r)) end.
(** [r{m,n}] *)
Definition rbetween (m n : nat) (r : re) : re := RSeq (rtimes m r) (rupto (n - m) r).

(** ** The matcher decides the language *)

#[export] Hint Constructors re_lang : falcone.

Lemma lang_none_inv l : re_lang RNone l <-> False.
Proof. split; [inversion 1 | done]. Qed.

Lemma lang_eps_inv l : re_lang REps l <-> l = [].
Proof. split; [by inversion 1 | intros ->; constructor]. Qed.

Lemma lang_cls_inv p l : re_lang (RCls p) l <-> exists c, l = [c] /\ p c = true.
Proof. split; [inversion 1; eauto | intros (c & -> & ?); by constructor]. Qed.

Lemma lang_seq_inv r1 r2 l :
  re_lang (RSeq r1 r2) l <-> exists l1 l2, l = l1 ++ l2 /\ re_lang r1 l1 /\ re_lang r2 l2.
Proof.
  split; [inversion 1; subst; eauto 6 | intros (l1 & l2 & -> & ? & ?); by constructor].
Qed.

Lemma lang_alt_inv r1 r2 l : re_lang (RAlt r1 r2) l <-> re_lang r1 l \/ re_lang r2 l.
Proof. split; [inversion 1; eauto | intros [|]; eauto using re_lang]. Qed.

Lemma lang_seq_none_l r l : re_lang (RSeq RNone r) l <-> re_lang RNone l.
Proof. rewrite lang_seq_inv, lang_none_inv. setoid_rewrite lang_none_inv. naive_solver. Qed.

Lemma lang_seq_none_r r l : re_lang (RSeq r RNone) l <-> re_lang RNone l.
Proof. rewrite lang_seq_inv, lang_none_inv. setoid_rewrite lang_none_inv. naive_solver. Qed.

Lemma lang_seq_eps_l r l : re_lang (RSeq REps r) l <-> re_lang r l.
Proof.
  rewrite lang_seq_inv. setoid_rewrite lang_eps_inv. split.
  - intros (? & l2 & -> & -> & ?). done.
  - intros ?. by exists [], l.
Qed.

Lemma lang_seq_eps_r r l : re_lang (RSeq r REps) l <-> re_lang r l.
Proof.
  rewrite lang_seq_inv. setoid_rewrite lang_eps_inv. split.
  - intros (l1 & ? & -> & ? & ->). by rewrite app_nil_r.
  - intros ?. exists l, []. by rewrite app_nil_r.
Qed.

Lemma rseq_lang r1 r2 l : re_lang (rseq r1 r2) l <-> re_lang (RSeq r1 r2) l.
Proof.
  destruct r1, r2; simpl;
    rewrite ?lang_seq_none_l, ?lang_seq_none_r, ?lang_seq_eps_l, ?lang_seq_eps_r; done.
Qed.

Lemma ralt_lang r1 r2 l : re_lang (ralt r1 r2) l <-> re_lang (RAlt r1 r2) l.
Proof.
  rewrite lang_alt_inv.
  destruct r1, r2; simpl; rewrite ?lang_none_inv, ?lang_alt_inv; tauto.
Qed.

Lemma nullable_lang r : nullable r = true <-> re_lang r [].
Proof.
  induction r as [| |p|r1 IH1 r2 IH2|r1 IH1 r2 IH2|r IH]; simpl.
  - rewrite lang_none_inv. naive_solver.
  - rewrite lang_eps_inv. naive_solver.
  - rewrite lang_cls_inv. naive_solver.
  - rewrite andb_true_iff, IH1, IH2, lang_seq_inv. split; [by exists [], [] |].
    intros (l1 & l2 & Hl & ? & ?). symmetry in Hl. apply app_nil in Hl as [-> ->]. done.
  - rewrite orb_true_iff, IH1, IH2, lang_alt_inv. done.
  - split; [constructor | done].
Qed.

Lemma lang_star_cons r c l :
  re_lang (RStar r) (c :: l) ->
  exists l1 l2, l = l1 ++ l2 /\ re_lang r (c :: l1) /\ re_lang (RStar r) l2.
Proof.
  remember (RStar r) as r' eqn:Hr. remember (c :: l) as cl eqn:Hcl.
  induction 1 as [| | | | | |r0 l1 l2 H1 IH1 H2 IH2]; simplify_eq.
  destruct l1 as [|c' l1]; simplify_eq/=; eauto.
Qed.

Lemma deriv_lang c r l : re_lang (deriv c r) l <-> re_lang r (c :: l).
Proof.
  revert l. induction r as [| |p|r1 IH1 r2 IH2|r1 IH1 r2 IH2|r IH]; intros l; simpl.
  - by rewrite !lang_none_inv.
  - rewrite lang_none_inv, lang_eps_inv. naive_solver.
  - rewrite lang_cls_inv. destruct (p c) eqn:?.
    + rewrite lang_eps_inv. split; [intros ->; eauto | by intros (? & ? & ?); simplify_eq].
    + rewrite lang_none_inv. split; [done | intros (? & ? & ?); simplify_eq; congruence].
  - assert (re_lang (RSeq (deriv c r1) r2) l <->
            exists l1 l2, l = l1 ++ l2 /\ re_lang r1 (c :: l1) /\ re_lang r2 l2) as Hd.
    { rewrite lang_seq_inv. by setoid_rewrite IH1. }
    rewrite lang_seq_inv. destruct (nullable r1) eqn:Hn.
    + rewrite ralt_lang, lang_alt_inv, rseq_lang, Hd, IH2. apply nullable_lang in Hn. split.
      * intros [(l1 & l2 & -> & ? & ?) | ?]; [by exists (c :: l1), l2 | by exists [], (c :: l)].
      * intros ([|c' l1] & l2 & ? & ? & ?); simplify_eq/=; eauto 8.
    + rewrite rseq_lang, Hd. split.
      * intros (l1 & l2 & -> & ? & ?). by exists (c :: l1), l2.
      * intros ([|c' l1] & l2 & ? & Hr & ?); simplify_eq/=; [|eauto].
        apply nullable_lang in Hr. congruence.
  - by rewrite ralt_lang, !lang_alt_inv, IH1, IH2.
  - rewrite rseq_lang, lang_seq_inv. setoid_rewrite IH. split.
    + intros (l1 & l2 & -> & ? & ?). by apply (lang_star_app r (c :: l1) l2).
    + intros H%lang_star_cons. done.
Qed.

Lemma re_full_lang r l : re_full r l = true <-> re_lang r l.
Proof.
  revert r. induction l as [|c l IH]; intros r; simpl; [apply nullable_lang|].
  by rewrite IH, deriv_lang.
Qed.

Lemma re_prefix_lang r l :
  re_prefix r l = true <-> exists l1 l2, l = l1 ++ l2 /\ re_lang r l1.
Proof.
  revert r. induction l as [|c l IH]; intros r; simpl; rewrite orb_true_iff, nullable_lang.
  - split; [intros [?|?]; [by exists [], [] | done]|].
    intros (l1 & l2 & Hl & ?). symmetry in Hl. apply app_nil in Hl as [-> ->]. by left.
  - rewrite IH. setoid_rewrite deriv_lang. split.
    + intros [?|(l1 & l2 & -> & ?)]; [by exists [], (c :: l) | by exists (c :: l1), l2].
    + intros ([|c' l1] & l2 & ? & ?); simplify_eq/=; eauto.
Qed.

Lemma re_find_lang r l :
  re_find r l = true <-> exists l0 l1 l2, l = l0 ++ l1 ++ l2 /\ re_lang r l1.
Proof.
  induction l as [|c l IH]; cbn [re_find]; rewrite orb_true_iff, re_prefix_lang.
  - split; [intros [(l1 & l2 & ? & ?)|?]; [by exists [], l1, l2 | done]|].
    intros (l0 & l1 & l2 & Hl & ?). symmetry in Hl.
    apply app_nil in Hl as [-> Hl]. left. eauto.
  - rewrite IH. split.
    + intros [(l1 & l2 & ? & ?)|(l0 & l1 & l2 & -> & ?)];
        [by exists [], l1, l2 | by exists (c :: l0), l1, l2].
    + intros ([|c' l0] & l1 & l2 & ? & ?); simplify_eq/=; eauto 8.
Qed.

(** The character before position [length l0] of [prev :: l0 ++ ...] is not a word character. *)
Definition starts_word (prev_word : bool) (l0 : list ascii) : bool :=
  negb (match last l0 with Some c => is_word c | None => prev_word end).

Lemma starts_word_cons p c l0 : starts_word p (c :: l0) = starts_word (is_word c) l0.
Proof. unfold starts_word. rewrite last_cons. by destruct (last l0). Qed.

Lemma re_find_word_start_lang prev r l :
  re_find_word_start prev r l = true <->
  exists l0 l1 l2, l = l0 ++ l1 ++ l2 /\ re_lang r l1 /\ starts_word prev l0 = true.
Proof.
  revert prev. induction l as [|c l IH]; intros prev; cbn [re_find_word_start];
    rewrite orb_true_iff, andb_true_iff, re_prefix_lang.
  - split; [intros [[? (l1 & l2 & ? & ?)]|?]; [by exists [], l1, l2 | done]|].
    intros (l0 & l1 & l2 & Hl & ? & ?). symmetry in Hl.
    apply app_nil in Hl as [-> Hl]. left. eauto.
  - rewrite IH. split.
    + intros [[? (l1 & l2 & ? & ?)]|(l0 & l1 & l2 & -> & ? & ?)]; [by exists [], l1, l2 |].
      exists (c :: l0), l1, l2. by rewrite starts_word_cons.
    + intros ([|c' l0] & l1 & l2 & ? & ? & Hs); simplify_eq/=; [left; eauto|].
      rewrite starts_word_cons in Hs. eauto 8.
Qed.

(** A match of a factor is a match of the whole. *)
Lemma re_find_factor r a l b : re_find r l = true -> re_find r (a ++ l ++ b) = true.
Proof.
  rewrite !re_find_lang. intros (l0 & l1 & l2 & -> & ?).
  exists (a ++ l0), l1, (l2 ++ b). split; [by rewrite <- !app_assoc | done].
Qed.

Lemma re_find_word_start_factor r a l b :
  Forall (fun c => is_word c = false) a ->
  re_find_word_start false r l = true -> re_find_word_start false r (a ++ l ++ b) = true.
Proof.
  rewrite !re_find_word_start_lang. intros Ha (l0 & l1 & l2 & -> & ? & Hs).
  exists (a ++ l0), l1, (l2 ++ b). split_and!; [by rewrite <- !app_assoc | done |].
  unfold starts_word in *. rewrite last_app. destruct (last l0); [done|].
  destruct (last a) as [c|] eqn:Hc; [|done]. rewrite Forall_forall in Ha.
  rewrite (Ha c); [done|]. by apply last_Some_elem_of.
Qed.

(** A language all of whose words consist of characters of a class. *)
Lemma rplus_cls_lang p l :
  re_lang (rplus (RCls p)) l <-> l <> [] /\ Forall (fun c => p c = true) l.
Proof.
  assert (Hstar : forall l, re_lang (RStar (RCls p)) l <-> Forall (fun c => p c = true) l).
  { intros k. split.
    - remember (RStar (RCls p)) as r eqn:Hr.
      induction 1 as [| | | | | |r0 l1 l2 H1 _ H2 IH]; simplify_eq; [constructor|].
      apply lang_cls_inv in H1 as (c & -> & ?). constructor; auto.
    - induction 1 as [|c k Hc _ IH]; [constructor|]. apply (lang_star_app _ [c]); auto with falcone. }
  unfold rplus. rewrite lang_seq_inv. setoid_rewrite Hstar. setoid_rewrite lang_cls_inv. split.
  - intros (l1 & l2 & -> & (c & -> & ?) & ?). split; [done|]. by constructor.
  - intros [? Hf]. destruct l as [|c l]; [done|]. inversion Hf; subst. exists [c], l. eauto.
Qed.

(** The language of a literal is its text. *)
Lemma rlit_lang s l : re_lang (rlit s) l <-> l = chars s.
Proof.
  unfold rlit. generalize (chars s) as cs. intros cs. revert l.
  induction cs as [|c cs IH]; intros l; simpl; [apply lang_eps_inv|].
  rewrite lang_seq_inv. unfold rchar at 1. setoid_rewrite lang_cls_inv. setoid_rewrite IH. split.
  - intros (l1 & l2 & -> & (d & -> & Hd%Ascii.eqb_eq) & ->). by subst.
  - intros ->. exists [c], cs. split_and!; [done | | done]. exists c. by rewrite Ascii.eqb_refl.
Qed.
