(* ===== verification/Platform.v ===== *)
(** * What the services take from their platform

    The clock, the UUID generator and the event broker are outside the
    repository: the model takes the sequence of values they give.  [clock n] is
    the [n]-th reading of [Date.now()], [uuid n] the [n]-th [randomUUID()], and
    [broker n] the outcome of the [n]-th publication (the error it throws, if
    any).  A [world] is the database together with how far each sequence has
    been consumed and the events published so far. *)
From S2P Require Import Prelude JsValue.

Class Platform := {
  clock : N -> N;
  uuid : N -> string;
  broker : N -> option js_error
}.

Record world (D Ev : Type) := mk_world {
  w_db : D;
  w_tick : N;
  w_uuids : N;
  w_published : N;
  w_events : list Ev
}.
Arguments mk_world {D Ev} _ _ _ _ _.
Arguments w_db {D Ev} _.
Arguments w_tick {D Ev} _.
Arguments w_uuids {D Ev} _.
Arguments w_published {D Ev} _.
Arguments w_events {D Ev} _.

Section world_ops.
Context {D Ev : Type} `{!Platform}.
Local Notation act := (M (world D Ev) js_error).

Definition set_db (db : D) (w : world D Ev) : world D Ev :=
  mk_world db (w_tick w) (w_uuids w) (w_published w) (w_events w).

(** [Date.now()] *)
Definition now_ms : act N := fun w =>
  (Ok (clock (w_tick w)), mk_world (w_db w) (N.succ (w_tick w)) (w_uuids w) (w_published w) (w_events w)).

(** [randomUUID()] *)
Definition random_uuid : act string := fun w =>
  (Ok (uuid (w_uuids w)), mk_world (w_db w) (w_tick w) (N.succ (w_uuids w)) (w_published w) (w_events w)).

(** [producer.send]: the event is out only when the broker takes it. *)
Definition publish (e : Ev) : act unit := fun w =>
  match broker (w_published w) with
  | Some err => (Err err, mk_world (w_db w) (w_tick w) (w_uuids w) (N.succ (w_published w)) (w_events w))
  | None => (Ok tt, mk_world (w_db w) (w_tick w) (w_uuids w) (N.succ (w_published w)) (w_events w ++ [e]))
  end.

(** A read of the database. *)
Definition query_db {A} (f : D -> A) : act A := fun w => (Ok (f (w_db w)), w).
(** A statement that writes, and its RETURNING value. *)
Definition exec_db {A} (f : D -> A * D) : act A := fun w =>
  let '(a, db') := f (w_db w) in (Ok a, set_db db' w).
(** A statement the database may refuse. *)
Definition exec_db_err {A} (f : D -> result js_error (A * D)) : act A := fun w =>
  match f (w_db w) with
  | Ok (a, db') => (Ok a, set_db db' w)
  | Err e => (Err e, w)
  end.

(** [BEGIN ... COMMIT], or [ROLLBACK] and rethrow: only the database is undone;
    the readings of the clock, the UUIDs and the broker stay consumed. *)
Definition in_transaction {A} (m : act A) : act A := fun w =>
  match m w with
  | (Ok a, w') => (Ok a, w')
  | (Err e, w') => (Err e, set_db (w_db w) w')
  end.

(** ** Lemmas: what keeps a property of the database *)

Definition keeps (P : D -> Prop) {A} (m : act A) : Prop :=
  forall w, P (w_db w) -> P (w_db (snd (m w))).

Lemma keeps_ret P {A} (a : A) : keeps P (mret a).
Proof. by intros w. Qed.

Lemma keeps_throw P {A} e : keeps P (throw e : act A).
Proof. by intros w. Qed.

Lemma keeps_lift P {A} (r : result js_error A) : keeps P (lift r).
Proof. by intros w. Qed.

Lemma keeps_bind P {A B} (m : act A) (f : A -> act B) :
  keeps P m -> (forall a, keeps P (f a)) -> keeps P (m ≫= f).
Proof.
  intros Hm Hf w Hw. unfold mbind, M_bind. specialize (Hm w Hw).
  destruct (m w) as [[a|e] w'] eqn:?; simpl in *; [by apply Hf | done].
Qed.

Lemma keeps_try P {A} (m : act A) (h : js_error -> act A) :
  keeps P m -> (forall e, keeps P (h e)) -> keeps P (try_catch m h).
Proof.
  intros Hm Hh w Hw. unfold try_catch. specialize (Hm w Hw).
  destruct (m w) as [[a|e] w'] eqn:?; simpl in *; [done | by apply Hh].
Qed.

Lemma keeps_now P : keeps P now_ms.
Proof. by intros w. Qed.

Lemma keeps_uuid P : keeps P random_uuid.
Proof. by intros w. Qed.

Lemma keeps_publish P e : keeps P (publish e).
Proof. intros w. unfold publish. by case_match. Qed.

Lemma keeps_query P {A} (f : D -> A) : keeps P (query_db f).
Proof. by intros w. Qed.

Lemma keeps_exec P {A} (f : D -> A * D) :
  (forall db, P db -> P (snd (f db))) -> keeps P (exec_db f).
Proof. intros Hf w Hw. specialize (Hf _ Hw). unfold exec_db. by destruct (f (w_db w)). Qed.

Lemma keeps_exec_err P {A} (f : D -> result js_error (A * D)) :
  (forall db a db', P db -> f db = Ok (a, db') -> P db') -> keeps P (exec_db_err f).
Proof.
  intros Hf w Hw. unfold exec_db_err. destruct (f (w_db w)) as [[a db']|e] eqn:E; simpl; [by eapply Hf | done].
Qed.

Lemma keeps_transaction P {A} (m : act A) : keeps P m -> keeps P (in_transaction m).
Proof.
  intros Hm w Hw. unfold in_transaction. specialize (Hm w Hw).
  by destruct (m w) as [[a|e] w'].
Qed.

Lemma keeps_for_fold P {A B} (f : B -> A -> act B) xs b :
  (forall b x, keeps P (f b x)) -> keeps P (for_fold f b xs).
Proof. intros Hf w Hw. apply (for_fold_inv (fun w => P (w_db w))); [|done]. intros; by apply Hf. Qed.

(** After the bind of a query, the value read and the database agree. *)
Lemma keeps_query_bind P {A B} (f : D -> A) (k : A -> act B) :
  (forall w, P (w_db w) -> P (w_db (snd (k (f (w_db w)) w)))) -> keeps P (query_db f ≫= k).
Proof. intros Hk w Hw. by apply Hk. Qed.

End world_ops.

#[export] Hint Resolve keeps_ret keeps_throw keeps_lift keeps_now keeps_uuid keeps_publish keeps_query
  keeps_transaction : falcone.

(** Decompose a [keeps] goal along the structure of the program. *)
Ltac keeps_step :=
  match goal with
  | |- keeps _ (_ ≫= _) => apply keeps_bind; [|intros ?]
  | |- keeps _ (try_catch _ _) => apply keeps_try; [|intros ?]
  | |- keeps _ (in_transaction _) => apply keeps_transaction
  | |- keeps _ (for_fold _ _ _) => apply keeps_for_fold; intros ? ?
  | |- keeps _ (match ?x with _ => _ end) => destruct x eqn:?
  | |- keeps _ (if ?x then _ else _) => destruct x eqn:?
  | |- keeps _ (let '(_, _) := ?x in _) => destruct x eqn:?
  | |- keeps _ _ => solve [eauto with falcone]
  end.
Ltac keeps_tac := repeat keeps_step.
