(* ===== verification/AsyncOperation.v ===== *)
(** * The asynchronous-operation model

    provisioning-orchestrator's [models/async-operation-states.mjs],
    [async-operation.mjs], [retry-attempt.mjs] and [retry-override.mjs]: the
    status graph of an operation, its construction and validation, and the one
    transition function every repository write goes through.  A fresh UUID and
    the clock are arguments; an ISO timestamp is its epoch milliseconds. *)
From S2P Require Import Prelude JsValue Regex.
From Stdlib Require Import Ascii.
Local Open Scope Z_scope.

(** ** The status graph *)

Definition VALID_TRANSITIONS : list (string * list string) :=
  [("pending", ["running"; "cancelled"]);
   ("running", ["completed"; "failed"; "timed_out"; "cancelling"]);
   ("cancelling", ["cancelled"; "failed"]);
   ("completed", []);
   ("failed", []);
   ("timed_out", []);
   ("cancelled", [])].

Definition TERMINAL_STATES : list string := ["completed"; "failed"; "timed_out"; "cancelled"].
Definition CANCELLABLE_STATES : list string := ["pending"; "running"].

Definition isTerminal (status : string) : bool := str_in status TERMINAL_STATES.
Definition isCancellableState (status : string) : bool := str_in status CANCELLABLE_STATES.

Definition allowed_targets (current : string) : list string :=
  default [] (assoc_lookup current VALID_TRANSITIONS).

Definition validateTransition (current next : string) : result js_error unit :=
  let allowed := allowed_targets current in
  if negb (str_in next allowed)
  then Err (coded "INVALID_TRANSITION"
              ("Invalid transition: " +:+ current +:+ " → " +:+ next +:+ ". Allowed: ["
               +:+ (match allowed with [] => "none" | _ => join ", " allowed end) +:+ "]"))
  else Ok tt.

(** ** The operation record *)

Record error_summary := mk_error_summary {
  es_code : option string;
  es_message : option string;
  es_failedStep : option string
}.

Record operation := mk_operation {
  operation_id : string;
  tenant_id : string;
  actor_id : string;
  actor_type : string;
  workspace_id : option string;
  operation_type : string;
  status : string;
  error_summary_of : option error_summary;
  cancellation_reason : option string;
  cancelled_by : option string;
  timeout_policy_snapshot : jsval;
  policy_applied_at : option Z;
  correlation_id : string;
  idempotency_key : option string;
  saga_id : option string;
  attempt_count : Z;
  max_retries : jsval;
  created_at : Z;
  updated_at : Z;
  failure_category : option string;
  failure_error_code : option string;
  failure_description : option string;
  failure_suggested_actions : list string;
  manual_intervention_required : bool
}.

Record create_input := mk_create_input {
  in_operation_id : option string;
  in_tenant_id : option string;
  in_actor_id : option string;
  in_actor_type : option string;
  in_workspace_id : option string;
  in_operation_type : option string;
  in_status : option string;
  in_error_summary : option error_summary;
  in_cancellation_reason : option string;
  in_cancelled_by : option string;
  in_timeout_policy_snapshot : jsval;
  in_policy_applied_at : option Z;
  in_correlation_id : option string;
  in_idempotency_key : option string;
  in_saga_id : option string;
  in_attempt_count : jsval;
  in_max_retries : jsval;
  in_created_at : option Z;
  in_updated_at : option Z
}.

Definition ACTOR_TYPES : list string := ["workspace_admin"; "tenant_owner"; "superadmin"; "tenant_member"].

Definition CORRELATION_ID_PATTERN : re :=
  rseqs [rplus (RCls is_lower); rchar ":";
         rplus (RCls (fun c => is_upper c || is_lower c || is_digit c || Ascii.eqb c "_" || Ascii.eqb c "-"));
         rchar ":"; rplus (RCls (fun c => is_digit c || is_lower c)); rchar ":";
         rtimes 8 (RCls (fun c => is_digit c || ((97 <=? code c) && (code c <=? 102))%N))].

Definition isValidCorrelationId (value : string) : bool := re_test_full CORRELATION_ID_PATTERN value.

(** The five patterns of [SENSITIVE_MESSAGE_PATTERNS]; the last one starts at a
    word boundary. *)
Definition postgres_url : re := rseqs [rlit_ci "postgres"; ropt (rlit_ci "ql"); rlit "://"].
Definition mongodb_url : re := rseqs [rlit_ci "mongodb"; ropt (rlit_ci "+srv"); rlit "://"].
Definition credential_assignment : re :=
  rseqs [ralts [rseqs [rlit_ci "api"; ropt (RCls (fun c => Ascii.eqb c "_" || Ascii.eqb c "-")); rlit_ci "key"];
                rlit_ci "token"; rlit_ci "secret"; rlit_ci "password"];
         RStar (RCls is_space); RCls (fun c => Ascii.eqb c "=" || Ascii.eqb c ":")].
Definition file_path : re :=
  let seg := RSeq (rchar "/") (rplus (RCls (fun c => negb (is_space c)))) in
  rseqs [seg; seg; RStar seg].
Definition stack_frame : re :=
  rseqs [rlit "at"; rplus (RCls is_space); rplus rany; rchar "("; rplus rany; rchar ")"].

Definition sensitive_message (m : string) : bool :=
  re_test postgres_url m || re_test mongodb_url m || re_test credential_assignment m
  || re_test file_path m || re_test_word_start stack_frame m.

Definition validateErrorSummary (es : option error_summary) : result js_error unit :=
  match es with
  | None => Err (coded_field "VALIDATION_ERROR" "error_summary is required when transitioning to failed" "error_summary")
  | Some es =>
      if negb (truthy_str (es_code es)) || negb (truthy_str (es_message es))
      then Err (coded_field "VALIDATION_ERROR" "error_summary.code and error_summary.message are required" "error_summary")
      else if sensitive_message (default "" (es_message es))
      then Err (coded_field "VALIDATION_ERROR" "error_summary.message contains sensitive content" "error_summary.message")
      else Ok tt
  end.

Definition normalizeErrorSummary (es : error_summary) : error_summary :=
  {| es_code := es_code es; es_message := trim <$> es_message es; es_failedStep := es_failedStep es |}.

(** [op:<tenant>:<milliseconds, base 36>:<first eight hex digits of a UUID>] *)
Definition uuid_prefix (uuid : string) : string :=
  of_chars (take 8 (List.filter (fun c => negb (Ascii.eqb c "-")) (chars uuid))).

Definition generateCorrelationId (now : N) (uuid : string) (tenantId : string) : string :=
  "op:" +:+ tenantId +:+ ":" +:+ to_base36 now +:+ ":" +:+ uuid_prefix uuid.

Definition REQUIRED_CREATE_FIELDS : list (string * (create_input -> option string)) :=
  [("tenant_id", in_tenant_id); ("actor_id", in_actor_id);
   ("actor_type", in_actor_type); ("operation_type", in_operation_type)].

Fixpoint check_required {A} (fields : list (string * (A -> option string))) (input : A) : result js_error unit :=
  match fields with
  | [] => Ok tt
  | (field, get) :: fields' =>
      if negb (truthy_str (get input))
      then Err (coded_field "VALIDATION_ERROR" ("Missing required field: " +:+ field) field)
      else check_required fields' input
  end.

Definition check_max_retries (v : jsval) : result js_error unit :=
  if nullish v then Ok tt
  else let maxRetries := js_number v in
       if negb (num_is_integer maxRetries) || num_ltb maxRetries (NInt 1)
       then Err (coded_field "VALIDATION_ERROR" "max_retries must be an integer greater than or equal to 1" "max_retries")
       else Ok tt.

Definition createOperation (uuid uuid' : string) (now : N) (input : create_input) : result js_error operation :=
  check_required REQUIRED_CREATE_FIELDS input ≫= fun _ =>
  let actor := default "" (in_actor_type input) in
  throw_if (negb (str_in actor ACTOR_TYPES))
    (coded_field "VALIDATION_ERROR" ("Invalid actor_type: " +:+ actor) "actor_type") ≫= fun _ =>
  check_max_retries (in_max_retries input) ≫= fun _ =>
  let tenant := default "" (in_tenant_id input) in
  Ok {| operation_id := default uuid (in_operation_id input);
        tenant_id := tenant;
        actor_id := default "" (in_actor_id input);
        actor_type := actor;
        workspace_id := in_workspace_id input;
        operation_type := default "" (in_operation_type input);
        status := default "pending" (in_status input);
        error_summary_of := in_error_summary input;
        cancellation_reason := in_cancellation_reason input;
        cancelled_by := in_cancelled_by input;
        timeout_policy_snapshot :=
          if truthy (in_timeout_policy_snapshot input) then in_timeout_policy_snapshot input else JNull;
        policy_applied_at := in_policy_applied_at input;
        correlation_id := default (generateCorrelationId now uuid' tenant) (in_correlation_id input);
        idempotency_key := in_idempotency_key input;
        saga_id := in_saga_id input;
        attempt_count := match in_attempt_count input with JNum (NInt z) => z | _ => 0 end;
        max_retries := coalesce (in_max_retries input) JNull;
        created_at := default (Z.of_N now) (in_created_at input);
        updated_at := default (Z.of_N now) (in_updated_at input);
        failure_category := None; failure_error_code := None; failure_description := None;
        failure_suggested_actions := []; manual_intervention_required := false |}.

(** ** The transition function *)

Record transition_input := mk_transition_input {
  ti_new_status : option string;
  ti_error_summary : option error_summary;
  ti_cancellation_reason : option string;
  ti_cancelled_by : option string
}.

Definition with_transition (op : operation) (st : string) (es : option error_summary)
    (reason by_ : option string) (now : Z) : operation :=
  {| operation_id := operation_id op; tenant_id := tenant_id op; actor_id := actor_id op;
     actor_type := actor_type op; workspace_id := workspace_id op; operation_type := operation_type op;
     status := st; error_summary_of := es; cancellation_reason := reason; cancelled_by := by_;
     timeout_policy_snapshot := timeout_policy_snapshot op; policy_applied_at := policy_applied_at op;
     correlation_id := correlation_id op; idempotency_key := idempotency_key op; saga_id := saga_id op;
     attempt_count := attempt_count op; max_retries := max_retries op; created_at := created_at op;
     updated_at := now; failure_category := failure_category op;
     failure_error_code := failure_error_code op; failure_description := failure_description op;
     failure_suggested_actions := failure_suggested_actions op;
     manual_intervention_required := manual_intervention_required op |}.

Definition applyTransition (now : Z) (op : operation) (input : transition_input) : result js_error operation :=
  throw_if (negb (nonempty (status op)))
    (coded_field "VALIDATION_ERROR" "operation.status is required" "status") ≫= fun _ =>
  throw_if (negb (truthy_str (ti_new_status input)))
    (coded_field "VALIDATION_ERROR" "new_status is required" "new_status") ≫= fun _ =>
  let next := default "" (ti_new_status input) in
  validateTransition (status op) next ≫= fun _ =>
  (if String.eqb next "failed" then validateErrorSummary (ti_error_summary input) else Ok tt) ≫= fun _ =>
  Ok (with_transition op next
        (if String.eqb next "failed" then normalizeErrorSummary <$> ti_error_summary input else None)
        (if String.eqb next "timed_out" then Some "timeout exceeded"
         else if String.eqb next "cancelling" then ti_cancellation_reason input
         else cancellation_reason op)
        (if String.eqb next "cancelling" then ti_cancelled_by input else cancelled_by op)
        now).

Definition isCancellable (st : string) : bool := str_in st CANCELLABLE_STATES.

(** ** Retry attempts ([models/retry-attempt.mjs]) *)

Definition ATTEMPT_STATUSES : list string := ["pending"; "running"; "completed"; "failed"].

Record retry_attempt := mk_retry_attempt {
  ra_attempt_id : string;
  ra_operation_id : string;
  ra_tenant_id : string;
  ra_attempt_number : Z;
  ra_correlation_id : string;
  ra_actor_id : string;
  ra_actor_type : string;
  ra_status : string;
  ra_created_at : Z;
  ra_completed_at : option Z;
  ra_metadata : jsval
}.

Record attempt_input := mk_attempt_input {
  ai_attempt_id : option string;
  ai_operation_id : option string;
  ai_tenant_id : option string;
  ai_actor_id : option string;
  ai_actor_type : option string;
  ai_attempt_number : jsval;
  ai_status : option string;
  ai_correlation_id : option string;
  ai_created_at : option Z;
  ai_completed_at : option Z;
  ai_metadata : jsval
}.

Definition validateAttemptNumber (value : jsval) : result js_error Z :=
  match value with
  | JNum (NInt z) => if z <? 1 then Err (coded_field "VALIDATION_ERROR" "attempt_number must be an integer greater than 0" "attempt_number") else Ok z
  | _ => Err (coded_field "VALIDATION_ERROR" "attempt_number must be an integer greater than 0" "attempt_number")
  end.

Definition createRetryAttempt (uuid uuid' : string) (now : N) (input : attempt_input) : result js_error retry_attempt :=
  check_required [("operation_id", ai_operation_id); ("tenant_id", ai_tenant_id);
                  ("actor_id", ai_actor_id); ("actor_type", ai_actor_type)] input ≫= fun _ =>
  let actor := default "" (ai_actor_type input) in
  throw_if (negb (str_in actor ACTOR_TYPES))
    (coded_field "VALIDATION_ERROR" ("Invalid actor_type: " +:+ actor) "actor_type") ≫= fun _ =>
  validateAttemptNumber (ai_attempt_number input) ≫= fun n =>
  let st := default "pending" (ai_status input) in
  throw_if (negb (str_in st ATTEMPT_STATUSES))
    (coded_field "VALIDATION_ERROR" ("Invalid status: " +:+ st) "status") ≫= fun _ =>
  let tenant := default "" (ai_tenant_id input) in
  Ok {| ra_attempt_id := default uuid (ai_attempt_id input);
        ra_operation_id := default "" (ai_operation_id input);
        ra_tenant_id := tenant;
        ra_attempt_number := n;
        ra_correlation_id := default (generateCorrelationId now uuid' tenant) (ai_correlation_id input);
        ra_actor_id := default "" (ai_actor_id input);
        ra_actor_type := actor;
        ra_status := st;
        ra_created_at := default (Z.of_N now) (ai_created_at input);
        ra_completed_at := ai_completed_at input;
        ra_metadata := coalesce (ai_metadata input) JNull |}.

(** ** Lemmas *)

Definition STATUSES : list string := fst <$> VALID_TRANSITIONS.

(** Position of a status on the longest path of the graph. *)
Definition status_rank (st : string) : nat :=
  if String.eqb st "pending" then 0 else if String.eqb st "running" then 1
  else if String.eqb st "cancelling" then 2 else 3.

Lemma allowed_targets_edge cur next :
  next ∈ allowed_targets cur ->
  cur ∈ STATUSES /\ next ∈ STATUSES /\ (status_rank cur < status_rank next)%nat.
Proof.
  unfold allowed_targets, VALID_TRANSITIONS, STATUSES. simpl.
  repeat case_match; simpl;
    repeat match goal with H : String.eqb _ _ = true |- _ => apply String.eqb_eq in H; subst end;
    rewrite ?elem_of_cons, ?elem_of_nil; intros Hn; destruct_or?; subst; try done;
    (split; [set_solver|split; [set_solver|vm_compute; lia]]).
Qed.

Lemma validateTransition_ok cur next u :
  validateTransition cur next = Ok u <-> next ∈ allowed_targets cur.
Proof.
  unfold validateTransition. rewrite <- str_in_elem. destruct u.
  destruct (str_in _ _); simpl; naive_solver.
Qed.

Lemma validateErrorSummary_ok es u :
  validateErrorSummary es = Ok u <->
  exists es0 c m, es = Some es0 /\ es_code es0 = Some c /\ es_message es0 = Some m /\
    c <> "" /\ m <> "" /\ sensitive_message m = false.
Proof.
  unfold validateErrorSummary. destruct u. split.
  - destruct es as [[c m f]|]; [|done]. simpl.
    destruct c as [c|], m as [m|]; simpl; try done; [|by rewrite orb_true_r].
    destruct (String.eqb_spec c ""), (String.eqb_spec m ""), (sensitive_message m) eqn:?; simpl; try done.
    intros _. eexists _, c, m. split_and!; done.
  - intros (es0 & c & m & -> & Hc & Hm & Hc' & Hm' & Hs). rewrite Hc, Hm. simpl.
    apply String.eqb_neq in Hc', Hm'. by rewrite Hc', Hm', Hs.
Qed.

Lemma with_transition_status op st es r b now :
  status (with_transition op st es r b now) = st.
Proof. done. Qed.

(** Inversion of a successful transition. *)
Lemma applyTransition_inv now op input op' :
  applyTransition now op input = Ok op' ->
  exists next, ti_new_status input = Some next /\ next ∈ allowed_targets (status op) /\
    (next = "failed" -> validateErrorSummary (ti_error_summary input) = Ok tt) /\
    status op' = next /\
    error_summary_of op' = (if String.eqb next "failed" then normalizeErrorSummary <$> ti_error_summary input else None) /\
    tenant_id op' = tenant_id op /\ operation_id op' = operation_id op.
Proof.
  unfold applyTransition. rewrite !result_bind_ok. setoid_rewrite result_bind_ok.
  setoid_rewrite result_bind_ok. setoid_rewrite result_bind_ok.
  intros (? & _ & ? & Hn%throw_if_ok & [] & Hv%validateTransition_ok & [] & Hes & ?); simplify_eq.
  destruct (ti_new_status input) as [next|]; [|done]. exists next. simpl in *.
  split_and!; try done. intros ->. done.
Qed.

(** One accepted transition, whatever its input and clock. *)
Definition op_step (op op' : operation) : Prop :=
  exists now input, applyTransition now op input = Ok op'.

Lemma op_step_rank op op' : op_step op op' -> (status_rank (status op) < status_rank (status op'))%nat.
Proof.
  intros (now & input & (next & _ & Ha & _ & <- & _)%applyTransition_inv).
  by apply allowed_targets_edge in Ha as (_ & _ & ?).
Qed.

Lemma op_steps_rank n op op' :
  nsteps op_step n op op' -> (n + status_rank (status op) <= status_rank (status op'))%nat.
Proof. induction 1 as [|? ? ? ? Hs _ IH]; [lia|]. apply op_step_rank in Hs. lia. Qed.

Lemma status_rank_bound st : (status_rank st <= 3)%nat.
Proof. unfold status_rank. repeat case_match; lia. Qed.

Lemma sensitive_message_trim m : sensitive_message (trim m) = true -> sensitive_message m = true.
Proof.
  destruct (trim_chars_split (chars m)) as (a & b & Hm & Ha).
  unfold sensitive_message, re_test, re_test_word_start, trim. rewrite chars_of_chars.
  rewrite !orb_true_iff. intros Hs. rewrite Hm.
  assert (Forall (fun c => is_word c = false) a)
    by (eapply Forall_impl; [exact Ha | exact is_space_not_word]).
  destruct_or!; auto 10 using re_find_factor, re_find_word_start_factor.
Qed.

(** What the store may hold in [error_summary]: only a failed operation carries
    one, and its message matches none of the sensitive patterns. *)
Definition error_summary_safe (op : operation) : Prop :=
  match error_summary_of op with
  | None => status op <> "failed"
  | Some es => status op = "failed" /\
      exists c m, es_code es = Some c /\ es_message es = Some m /\ c <> "" /\ sensitive_message m = false
  end.

Lemma applyTransition_safe now op input op' :
  applyTransition now op input = Ok op' -> error_summary_safe op'.
Proof.
  intros (next & _ & _ & Hes & Hst & Hsum & _)%applyTransition_inv.
  unfold error_summary_safe. rewrite Hsum, Hst. destruct (String.eqb_spec next "failed") as [->|]; [|done].
  specialize (Hes eq_refl). apply validateErrorSummary_ok in Hes as (es & c & m & -> & Hc & Hm & ? & ? & ?).
  simpl. split; [done|]. exists c, (trim m). rewrite Hm. simpl. split_and!; try done.
  destruct (sensitive_message (trim m)) eqn:E; [|done]. apply sensitive_message_trim in E. congruence.
Qed.

#[export] Hint Resolve applyTransition_safe : falcone.

Lemma no_step_of_no_target op : allowed_targets (status op) = [] -> forall op', ~ op_step op op'.
Proof.
  intros Hn op' (now & input & (next & _ & Ha & _)%applyTransition_inv).
  rewrite Hn in Ha. by apply elem_of_nil in Ha.
Qed.

(** An input that moves to [next] with an error summary the validation accepts. *)
Definition plain_input (next : string) : transition_input :=
  mk_transition_input (Some next) (Some (mk_error_summary (Some "E") (Some "failed") None)) None None.

Lemma step_of_target op next :
  status op <> "" -> next <> "" -> next ∈ allowed_targets (status op) -> exists op', op_step op op'.
Proof.
  intros Hs Hn Ha. enough (exists op', applyTransition 0 op (plain_input next) = Ok op') as [op' Ho]
    by (by exists op', 0, (plain_input next)).
  unfold applyTransition. apply nonempty_true in Hs, Hn. rewrite Hs. simpl.
  unfold nonempty in Hn. rewrite Hn. simpl.
  apply (validateTransition_ok _ _ tt) in Ha. rewrite Ha. simpl.
  destruct (String.eqb next "failed"); eexists; reflexivity.
Qed.

Lemma correlation_tenant_lang p l :
  l <> [] -> Forall (fun c => p c = true) l -> re_lang (rplus (RCls p)) l.
Proof. intros. by apply rplus_cls_lang. Qed.

Lemma rtimes_cls_lang p l : Forall (fun c => p c = true) l -> re_lang (rtimes (length l) (RCls p)) l.
Proof.
  induction 1 as [|c l Hc _ IH]; simpl; [constructor|].
  apply (lang_seq _ _ [c] l); auto with falcone.
Qed.

Lemma rseqs_cons_lang r rs l1 l2 : re_lang r l1 -> re_lang (rseqs rs) l2 -> re_lang (rseqs (r :: rs)) (l1 ++ l2).
Proof. intros. by constructor. Qed.

Lemma rchar_lang c : re_lang (rchar c) [c].
Proof. constructor. apply Ascii.eqb_refl. Qed.

#[export] Hint Resolve correlation_tenant_lang rchar_lang : falcone.

Lemma truthy_str_true o : truthy_str o = true <-> exists s, o = Some s /\ s <> "".
Proof.
  destruct o as [s|]; simpl; [|naive_solver].
  rewrite negb_true_iff, String.eqb_neq. naive_solver.
Qed.

Lemma check_required_ok {A} (fields : list (string * (A -> option string))) input u :
  check_required fields input = Ok u <->
  Forall (fun p => exists s, snd p input = Some s /\ s <> "") fields.
Proof.
  destruct u. induction fields as [|[f get] fields IH]; simpl; [by split|].
  rewrite Forall_cons. simpl. rewrite <- IH, <- truthy_str_true.
  destruct (truthy_str (get input)); simpl; naive_solver.
Qed.

(** ** Properties *)

(** The lifecycle of an operation is finite.  Whatever transitions are
    requested, with whatever inputs, at most three of them are ever accepted;
    in particular no status is visited twice. *)
Theorem lifecycle_bounded (n : nat) (op op' : operation) :
  nsteps op_step n op op' -> (n <= 3)%nat /\ (n = 0%nat \/ status op' <> status op).
Proof.
  intros Hs%op_steps_rank. pose proof (status_rank_bound (status op')).
  split; [lia|]. destruct n; [by left|right]. intros Heq. rewrite Heq in Hs. lia.
Qed.

Definition sample_operation (st : string) : operation :=
  mk_operation "op-1" "ten-1" "usr-1" "tenant_owner" None "tenant.create" st None None None JNull None
    "op:ten-1:mjuohs00:0123abcd" None None 0 JNull 0 0 None None None [] false.

Lemma lifecycle_bounded_witness :
  nsteps op_step 3 (sample_operation "pending")
    (with_transition (with_transition (with_transition (sample_operation "pending") "running" None None None 1)
                        "cancelling" None (Some "r") (Some "u") 2)
       "cancelled" None (Some "r") (Some "u") 3) /\ (3 <= 3)%nat.
Proof.
  assert (H : nsteps op_step 3 (sample_operation "pending")
    (with_transition (with_transition (with_transition (sample_operation "pending") "running" None None None 1)
                        "cancelling" None (Some "r") (Some "u") 2)
       "cancelled" None (Some "r") (Some "u") 3)).
  { econstructor; [exists 1, (mk_transition_input (Some "running") None None None); vm_compute; reflexivity|].
    econstructor; [exists 2, (mk_transition_input (Some "cancelling") None (Some "r") (Some "u")); vm_compute; reflexivity|].
    econstructor; [exists 3, (mk_transition_input (Some "cancelled") None None None); vm_compute; reflexivity|].
    constructor. }
  split; [exact H | exact (proj1 (lifecycle_bounded _ _ _ H))].
Defined.

(** The terminal states are exactly the dead ends of the graph: a known
    status is terminal if and only if no transition out of it is accepted. *)
Theorem terminal_iff_dead_end (op : operation) :
  status op ∈ STATUSES ->
  isTerminal (status op) = true <-> forall op', ~ op_step op op'.
Proof.
  intros Hk. split.
  - intros Ht%str_in_elem. apply no_step_of_no_target.
    unfold TERMINAL_STATES in Ht. rewrite !elem_of_cons, elem_of_nil in Ht.
    destruct Ht as [->|[->|[->|[->|[]]]]]; reflexivity.
  - intros Hd. unfold STATUSES in Hk. simpl in Hk. rewrite !elem_of_cons, elem_of_nil in Hk.
    assert (Hstuck : forall st, status op = st -> st <> "" -> List.hd "" (allowed_targets st) <> "" ->
              List.hd "" (allowed_targets st) ∈ allowed_targets st -> False).
    { intros st <- ? ? ?. destruct (step_of_target op (List.hd "" (allowed_targets (status op))))
        as [op' Hs]; try done. by apply (Hd op'). }
    repeat (destruct Hk as [Hk|Hk]); try done; first [by rewrite Hk |
      exfalso; apply (Hstuck _ Hk); try done; vm_compute; constructor].
Qed.

Lemma terminal_iff_dead_end_witness :
  isTerminal (status (sample_operation "timed_out")) = true <->
  forall op', ~ op_step (sample_operation "timed_out") op'.
Proof. apply (terminal_iff_dead_end (sample_operation "timed_out")). vm_compute. set_solver. Defined.

(** An accepted transition never stores sensitive text.  After it, an error
    summary is present exactly when the operation is failed, its code is not
    empty, and its (trimmed) message contains no connection string, credential
    assignment, file path or stack frame. *)
Theorem transition_error_summary_safe (now : Z) (op : operation) (input : transition_input) (op' : operation) :
  applyTransition now op input = Ok op' -> error_summary_safe op'.
Proof. apply applyTransition_safe. Qed.

Lemma transition_error_summary_safe_witness :
  error_summary_safe (with_transition (sample_operation "running") "failed"
    (Some (mk_error_summary (Some "E_DB") (Some "step did not finish") None)) None None 5) /\
  is_ok (applyTransition 5 (sample_operation "running")
    (mk_transition_input (Some "failed") (Some (mk_error_summary (Some "E_DB") (Some "dial postgresql://u:p@h") None)) None None)) = false.
Proof.
  split; [|vm_compute; reflexivity].
  apply (transition_error_summary_safe 5 (sample_operation "running")
    (mk_transition_input (Some "failed") (Some (mk_error_summary (Some "E_DB") (Some " step did not finish ") None)) None None)).
  vm_compute. reflexivity.
Defined.

(** A generated correlation id always has the format the platform checks
    for, as soon as the tenant id uses the identifier alphabet and the UUID
    starts with eight hexadecimal digits. *)
Theorem generateCorrelationId_valid (now : N) (uuid tenant : string) :
  chars tenant <> [] ->
  Forall (fun c => is_upper c || is_lower c || is_digit c || Ascii.eqb c "_" || Ascii.eqb c "-" = true) (chars tenant) ->
  length (chars (uuid_prefix uuid)) = 8%nat ->
  Forall (fun c => is_digit c || ((97 <=? code c) && (code c <=? 102))%N = true) (chars (uuid_prefix uuid)) ->
  isValidCorrelationId (generateCorrelationId now uuid tenant) = true.
Proof.
  intros Ht Htc Hl Hu. unfold isValidCorrelationId, re_test_full, generateCorrelationId.
  rewrite re_full_lang, !chars_app.
  change (chars "op:") with (chars "op" ++ [":"%char]). rewrite <- app_assoc.
  rewrite <- (app_nil_r (chars (uuid_prefix uuid))).
  unfold CORRELATION_ID_PATTERN. repeat apply rseqs_cons_lang; auto using lang_eps with falcone.
  - apply rplus_cls_lang. split; [done|]. by repeat constructor.
  - apply rplus_cls_lang. split; [apply to_base36_nonempty | apply base36_digits_class].
  - rewrite <- Hl at 1. by apply rtimes_cls_lang.
Qed.

Lemma generateCorrelationId_valid_witness :
  isValidCorrelationId (generateCorrelationId 1767225600000 "3f2a9c1b-0d4e-4c5a-9b7e-112233445566" "acme-7") = true.
Proof. apply generateCorrelationId_valid; vm_compute; repeat constructor; discriminate. Defined.

(** The operations that can be created.  A created operation carries a
    non-empty tenant, actor and type, one of the four actor types, starts in the
    requested status ([pending] by default), and its retry limit is absent or
    converts to an integer of at least one. *)
Theorem createOperation_wf (u u' : string) (now : N) (input : create_input) (op : operation) :
  createOperation u u' now input = Ok op ->
  tenant_id op <> "" /\ actor_id op <> "" /\ operation_type op <> "" /\
  actor_type op ∈ ACTOR_TYPES /\
  status op = default "pending" (in_status input) /\
  (max_retries op = JNull \/ exists z, js_number (max_retries op) = NInt z /\ 1 <= z).
Proof.
  unfold createOperation. rewrite result_bind_ok. setoid_rewrite result_bind_ok. setoid_rewrite result_bind_ok.
  intros (? & Hreq & ? & Hat%throw_if_ok & ? & Hmr & ?).
  rewrite negb_false_iff, str_in_elem in Hat. simplify_eq. cbn [tenant_id actor_id operation_type actor_type status max_retries].
  apply check_required_ok in Hreq. unfold REQUIRED_CREATE_FIELDS in Hreq.
  rewrite !Forall_cons in Hreq. simpl in Hreq.
  destruct Hreq as ((t & -> & ?) & (a & -> & ?) & _ & (o & -> & ?) & _).
  split_and!; try done. unfold check_max_retries, coalesce in *.
  destruct (nullish (in_max_retries input)) eqn:?; [by left|right].
  destruct (js_number (in_max_retries input)) as [z| | |] eqn:?; try done.
  exists z. split; [done|]. simpl in Hmr. destruct (1 <=? z)%Z eqn:?; [lia | done].
Qed.

Lemma createOperation_wf_witness :
  actor_type (sample_operation "pending") ∈ ACTOR_TYPES /\
  is_ok (createOperation "op-1" "x" 0 (mk_create_input None (Some "ten-1") (Some "usr-1") (Some "auditor") None
     (Some "tenant.create") None None None None JNull None None None None JUndef JUndef None None)) = false.
Proof.
  split; [|vm_compute; reflexivity].
  apply (createOperation_wf "op-1" "x" 0 (mk_create_input None (Some "ten-1") (Some "usr-1") (Some "tenant_owner") None
     (Some "tenant.create") None None None None JNull None (Some "op:ten-1:mjuohs00:0123abcd") None None JUndef JUndef (Some 0) (Some 0))).
  vm_compute. reflexivity.
Defined.
