(* ===== verification/FailureClassification.v ===== *)
(** * Failure classification, intervention flags and retry overrides

    provisioning-orchestrator's [models/failure-classification.mjs],
    [manual-intervention-flag.mjs] and [retry-override.mjs].  Rows reach these
    functions under snake_case or camelCase names; a row record here holds the
    value either name gives. *)
From S2P Require Import Prelude JsValue.
From stdpp Require Import sorting.
Local Open Scope Z_scope.

Definition FAILURE_CATEGORIES : list string := ["transient"; "permanent"; "requires_intervention"; "unknown"].
Definition TRANSIENT : string := "transient".
Definition PERMANENT : string := "permanent".
Definition REQUIRES_INTERVENTION : string := "requires_intervention".
Definition UNKNOWN : string := "unknown".

(** [null]/[undefined] and blank codes give [null]; others are trimmed. *)
Definition normalizeErrorCode (errorCode : option string) : option string :=
  match errorCode with
  | None => None
  | Some c => let value := trim c in if nonempty value then Some value else None
  end.

Record classification := mk_classification {
  fc_category : string;
  fc_errorCode : option string;
  fc_description : string;
  fc_suggestedActions : list string
}.

Definition FailureClassification (category : string) (errorCode : option string)
    (description : option string) (suggestedActions : list string) : result js_error classification :=
  throw_if (negb (str_in category FAILURE_CATEGORIES))
    (coded "VALIDATION_ERROR" ("Unsupported failure category: " +:+ category)) ≫= fun _ =>
  throw_if (negb (truthy_str description) || negb (nonempty (trim (default "" description))))
    (coded "VALIDATION_ERROR" "description is required") ≫= fun _ =>
  Ok (mk_classification category (normalizeErrorCode errorCode) (trim (default "" description)) suggestedActions).

(** A row of [failure_code_mappings]. *)
Record mapping_row := mk_mapping_row {
  mr_error_code : option string;
  mr_operation_type : option string;
  mr_failure_category : string;
  mr_description : option string;
  mr_suggested_actions : list string;
  mr_priority : jsval
}.

Record mapping_entry := mk_mapping_entry {
  me_errorCode : option string;
  me_operationType : option string;
  me_category : string;
  me_description : option string;
  me_suggestedActions : list string;
  me_priority : Q;
  me_index : Z
}.

(** [Number.isFinite(Number(p)) ? Number(p) : 100], as the rational it is. *)
Definition row_priority (v : jsval) : Q :=
  let n := js_number v in if num_is_finite n then num_Q n else inject_Z 100.

Definition entry_of_row (index : Z) (row : mapping_row) : mapping_entry :=
  {| me_errorCode := normalizeErrorCode (mr_error_code row);
     me_operationType := mr_operation_type row;
     me_category := mr_failure_category row;
     me_description := mr_description row;
     me_suggestedActions := mr_suggested_actions row;
     me_priority := row_priority (mr_priority row);
     me_index := index |}.

(** The comparator of the sort: by priority, then by position in the input. *)
Definition entry_leb (l r : mapping_entry) : bool :=
  negb (Qle_bool (me_priority r) (me_priority l))
  || (Qle_bool (me_priority l) (me_priority r) && (me_index l <=? me_index r)).
Definition entry_le (l r : mapping_entry) : Prop := entry_leb l r = true.
#[export] Instance entry_le_dec : RelDecision entry_le.
Proof. intros l r. unfold entry_le. apply _. Defined.

Definition loadMappingCache (rows : list mapping_row) : list mapping_entry :=
  merge_sort entry_le
    (List.filter (fun e => truthy_str (me_errorCode e))
       (imap (fun i row => entry_of_row (Z.of_nat i) row) rows)).

Definition buildUnknownClassification (errorCode : option string) : result js_error classification :=
  FailureClassification UNKNOWN errorCode (Some "Failure could not be classified automatically.")
    ["Inspect logs and escalate for manual review if the failure persists."].

(** [exact ?? generic]: the first entry of the cache for the code and the
    operation type, else the first one for the code and any type. *)
Definition matching_entry (c : string) (operationType : option string) (mappingCache : list mapping_entry) : option mapping_entry :=
  let entry_for t := List.find (fun e => bool_decide (me_errorCode e = Some c) && bool_decide (me_operationType e = t)) mappingCache in
  match entry_for operationType with Some e => Some e | None => entry_for None end.

Definition classifyByErrorCode (errorCode operationType : option string) (mappingCache : list mapping_entry)
    : result js_error classification :=
  match normalizeErrorCode errorCode with
  | None => buildUnknownClassification None
  | Some c =>
      match matching_entry c operationType mappingCache with
      | None => buildUnknownClassification (Some c)
      | Some m => FailureClassification (me_category m) (Some c) (me_description m) (me_suggestedActions m)
      end
  end.

(** ** Manual-intervention flags *)

Record flag := mk_flag {
  fl_flag_id : string;
  fl_operation_id : string;
  fl_tenant_id : string;
  fl_actor_id : string;
  fl_reason : string;
  fl_attempt_count_at_flag : Z;
  fl_last_error_code : option string;
  fl_last_error_summary : option string;
  fl_status : string;
  fl_last_notification_at : option Z;
  fl_created_at : Z;
  fl_resolved_at : option Z;
  fl_resolved_by : option string;
  fl_resolution_method : option string
}.

(** [createFlag] as [async-operation-transition.mjs] calls it. *)
Definition createFlag (uuid : string) (now : Z) (operationId : option string) (tenantId actorId reason : string)
    (attemptCountAtFlag : Z) (lastErrorCode lastErrorSummary : option string) : result js_error flag :=
  if negb (truthy_str operationId) then Err (coded "VALIDATION_ERROR" "operationId is required")
  else Ok (mk_flag uuid (default "" operationId) tenantId actorId reason attemptCountAtFlag
             lastErrorCode lastErrorSummary "pending" None now None None None).

(** [shouldDebounceNotification], the debounce a number of minutes. *)
Definition shouldDebounceNotification (now : Z) (lastNotificationAt : option Z) (debounceMinutes : Z) : bool :=
  match lastNotificationAt with
  | None => false
  | Some last => if debounceMinutes <=? 0 then false else now - last <? debounceMinutes * 60000
  end.

(** ** Retry overrides *)

Record retry_override := mk_retry_override {
  ov_override_id : string;
  ov_operation_id : string;
  ov_flag_id : string;
  ov_tenant_id : string;
  ov_superadmin_id : string;
  ov_justification : string;
  ov_attempt_number : Z;
  ov_status : string;
  ov_created_at : Z;
  ov_completed_at : option Z
}.

Definition RetryOverride (uuid : string) (now : Z) (operationId flagId tenantId : string)
    (superadminId justification_ : option string) (attemptNumber : Z) : result js_error retry_override :=
  let justification := trim (default "" justification_) in
  throw_if (negb (truthy_str superadminId)) (coded "VALIDATION_ERROR" "superadminId is required") ≫= fun _ =>
  throw_if (Nat.ltb (String.length justification) 10)
    (coded "VALIDATION_ERROR" "justification must be at least 10 characters long") ≫= fun _ =>
  Ok (mk_retry_override uuid operationId flagId tenantId (default "" superadminId) justification
        attemptNumber "pending" now None).

(** ** Lemmas *)

Lemma normalizeErrorCode_some o c : normalizeErrorCode o = Some c -> c <> "".
Proof.
  unfold normalizeErrorCode. destruct o as [s|]; [|done].
  destruct (nonempty (trim s)) eqn:Hn; [|done]. intros [= <-]. by apply nonempty_true.
Qed.

Lemma entry_leb_spec l r :
  entry_le l r <-> (me_priority l < me_priority r)%Q
    \/ ((me_priority l == me_priority r)%Q /\ me_index l <= me_index r).
Proof.
  unfold entry_le, entry_leb. rewrite orb_true_iff, andb_true_iff, negb_true_iff, Z.leb_le, Qle_bool_iff.
  rewrite <- not_true_iff_false, Qle_bool_iff.
  assert (Hlt : (~ (me_priority r <= me_priority l) <-> me_priority l < me_priority r)%Q)
    by (split; [apply Qnot_le_lt | apply Qlt_not_le]).
  rewrite Hlt. clear Hlt. split.
  - intros [?|[Hle ?]]; [by left|]. apply Qle_lteq in Hle as [?|?]; auto.
  - intros [?|[He ?]]; [by left|]. right. split; [rewrite He; apply Qle_refl | done].
Qed.

#[export] Instance entry_le_trans : Transitive entry_le.
Proof.
  intros a b c. rewrite !entry_leb_spec. intros [H1|[H1 ?]] [H2|[H2 ?]].
  - left. by eapply Qlt_trans.
  - left. by rewrite <- H2.
  - left. by rewrite H1.
  - right. split; [by rewrite H1 | lia].
Qed.

#[export] Instance entry_le_total : Total entry_le.
Proof.
  intros a b. rewrite !entry_leb_spec. destruct (Q_dec (me_priority a) (me_priority b)) as [[?|?]|He]; auto.
  destruct (decide (me_index a <= me_index b)); [by left; right|]. right. right. split; [by rewrite He | lia].
Qed.

Lemma loadMappingCache_sorted rows : StronglySorted entry_le (loadMappingCache rows).
Proof. apply (StronglySorted_merge_sort entry_le). Qed.

Lemma find_some_first {A} (p : A -> bool) l x :
  List.find p l = Some x <-> exists l1 l2, l = l1 ++ x :: l2 /\ p x = true /\ Forall (fun y => p y = false) l1.
Proof.
  induction l as [|y l IH]; simpl.
  - split; [done|]. intros (l1 & l2 & ? & _). by destruct l1.
  - destruct (p y) eqn:Hy.
    + split; [intros [= ->]; by exists [], l|]. intros ([|z l1] & l2 & ? & ? & Hf); simplify_eq/=; [done|].
      inversion Hf; congruence.
    + rewrite IH. split.
      * intros (l1 & l2 & -> & ? & ?). exists (y :: l1), l2. by repeat constructor.
      * intros ([|z l1] & l2 & ? & ? & Hf); simplify_eq/=; [congruence|]. inversion Hf; eauto.
Qed.

Lemma find_none_Forall {A} (p : A -> bool) l : List.find p l = None <-> Forall (fun y => p y = false) l.
Proof.
  induction l as [|y l IH]; simpl; [by split|].
  rewrite Forall_cons. destruct (p y); [naive_solver|]. rewrite IH. naive_solver.
Qed.

(** In a sorted list the first element a predicate selects is the least one it selects. *)
Lemma find_sorted_least {A} (R : A -> A -> Prop) `{!Reflexive R} (p : A -> bool) l x :
  StronglySorted R l -> List.find p l = Some x ->
  x ∈ l /\ p x = true /\ forall y, y ∈ l -> p y = true -> R x y.
Proof.
  intros Hs (l1 & l2 & -> & Hx & Hf)%find_some_first. split_and!; [set_solver|done|].
  intros y Hy Hpy. rewrite Forall_forall in Hf.
  apply elem_of_app in Hy as [Hy|[->|Hy]%elem_of_cons]; [|done|].
  - apply Hf in Hy. congruence.
  - apply StronglySorted_app in Hs as (_ & _ & Hs). apply StronglySorted_cons in Hs as [Hs _].
    rewrite Forall_forall in Hs. auto.
Qed.

#[export] Instance entry_le_refl : Reflexive entry_le.
Proof. intros a. apply entry_leb_spec. right. split; [done | lia]. Qed.

(** ** Properties *)

(** How a failure is classified.  Among the mappings of a code, one for the
    very operation type wins over any generic one, however urgent; within the
    same specificity the mapping with the least (priority, position) wins. *)
Theorem matching_entry_most_specific (rows : list mapping_row) (c : string) (t : option string) (e : mapping_entry) :
  matching_entry c t (loadMappingCache rows) = Some e ->
  e ∈ loadMappingCache rows /\ me_errorCode e = Some c /\
  (me_operationType e = t \/
   (me_operationType e = None /\
    forall e', e' ∈ loadMappingCache rows -> me_errorCode e' = Some c -> me_operationType e' <> t)) /\
  (forall e', e' ∈ loadMappingCache rows -> me_errorCode e' = Some c ->
     me_operationType e' = me_operationType e -> entry_le e e').
Proof.
  unfold matching_entry. case_match eqn:Hx; intros Hg; simplify_eq.
  - apply (find_sorted_least entry_le _ _ _ (loadMappingCache_sorted rows)) in Hx as (? & Hp & Hl).
    rewrite andb_true_iff, !bool_decide_eq_true in Hp. destruct Hp as [? ?].
    split_and!; auto. intros e' ? ? ?. apply Hl; [done|].
    rewrite andb_true_iff, !bool_decide_eq_true. split; congruence.
  - apply (find_sorted_least entry_le _ _ _ (loadMappingCache_sorted rows)) in Hg as (? & Hp & Hl).
    rewrite andb_true_iff, !bool_decide_eq_true in Hp. destruct Hp as [? ?]. split_and!; auto.
    + right. split; [done|]. intros e' He' Hc Ht. apply find_none_Forall in Hx. rewrite Forall_forall in Hx.
      specialize (Hx e' He'). rewrite Hc, Ht, !bool_decide_eq_true_2 in Hx; done.
    + intros e' ? ? ?. apply Hl; [done|].
      rewrite andb_true_iff, !bool_decide_eq_true. split; congruence.
Qed.

Definition sample_mappings : list mapping_row :=
  [mk_mapping_row (Some " E1 ") None "transient" (Some "generic") [] (JNum (NInt 1));
   mk_mapping_row (Some "E1") (Some "tenant.create") "permanent" (Some "late") [] JNull;
   mk_mapping_row (Some "E1") (Some "tenant.create") "requires_intervention" (Some "first") [] (JStr "0")].

Lemma matching_entry_most_specific_witness :
  matching_entry "E1" (Some "tenant.create") (loadMappingCache sample_mappings)
    = Some (entry_of_row 1 (mk_mapping_row (Some "E1") (Some "tenant.create") "permanent" (Some "late") [] JNull)) /\
  (forall e', e' ∈ loadMappingCache sample_mappings -> me_errorCode e' = Some "E1" ->
     me_operationType e' = Some "tenant.create" ->
     entry_le (entry_of_row 1 (mk_mapping_row (Some "E1") (Some "tenant.create") "permanent" (Some "late") [] JNull)) e').
Proof.
  assert (H : matching_entry "E1" (Some "tenant.create") (loadMappingCache sample_mappings)
    = Some (entry_of_row 1 (mk_mapping_row (Some "E1") (Some "tenant.create") "permanent" (Some "late") [] JNull)))
    by (vm_compute; reflexivity).
  split; [exact H | exact (proj2 (proj2 (proj2 (matching_entry_most_specific _ _ _ _ H))))].
Defined.
