(* ===== verification/AsyncRepo.v ===== *)
(** * The asynchronous-operation store

    provisioning-orchestrator's [repositories/async-operation-repo.mjs],
    [retry-attempt-repo.mjs], [manual-intervention-flag-repo.mjs] and
    [retry-override-repo.mjs] over the tables of migrations 073 to 078.  Each
    SQL statement of the sources is the function it denotes on the tables;
    [operations] is keyed by its primary key.  Rows with equal sort keys come in
    table order, which PostgreSQL leaves open. *)
From S2P Require Import Prelude JsValue Platform AsyncOperation FailureClassification.
From stdpp Require Import sorting.
Local Open Scope Z_scope.

(** ** Tables *)

Record transition_row := mk_transition_row {
  tr_transition_id : string;
  tr_operation_id : string;
  tr_tenant_id : string;
  tr_actor_id : string;
  tr_previous_status : string;
  tr_new_status : string;
  tr_transitioned_at : Z;
  tr_metadata : jsval
}.

(** A row of [operation_policies]; an absent number is SQL [NULL]. *)
Record policy := mk_policy {
  po_operation_type : string;
  po_timeout_minutes : option Z;
  po_orphan_threshold_minutes : option Z;
  po_cancelling_timeout_minutes : option Z;
  po_recovery_action : option string
}.

(** A row of [retry_semantics_profiles]. *)
Record profile := mk_profile {
  pr_operation_type : string;
  pr_max_retries : option Z;
  pr_is_default : bool
}.

Record async_db := mk_async_db {
  operations : gmap string operation;
  transitions : list transition_row;
  retry_attempts : list retry_attempt;
  flags : list flag;
  retry_overrides : list retry_override;
  policies : list policy;
  profiles : list profile;
  mappings : list mapping_row;
  (** The module variable [cachedMappings] of [async-operation-transition.mjs]:
      memory of the process, kept beside the tables and never written inside a
      transaction. *)
  mapping_cache : option (list mapping_entry)
}.

Inductive async_event :=
| StateChanged (op : operation) (previous_status : string)
| FailureClassified (op : operation) (c : classification) (max_retries : jsval)
| ManualInterventionRequired (f : flag)
| OperationCancelled (op : operation) (previous_status : string) (by_ : string)
| OperationTimedOut (op : operation) (previous_status : string)
| OperationRecovered (op : operation) (previous_status reason : string)
| OperationRetried (op : operation) (a : retry_attempt) (previous_correlation_id : string)
| RetryOverridden (o : retry_override) (new_correlation_id : string).

Notation act := (M (world async_db async_event) js_error).

Definition set_operations (ops : gmap string operation) (db : async_db) : async_db :=
  mk_async_db ops (transitions db) (retry_attempts db) (flags db) (retry_overrides db)
    (policies db) (profiles db) (mappings db) (mapping_cache db).
Definition set_transitions (ts : list transition_row) (db : async_db) : async_db :=
  mk_async_db (operations db) ts (retry_attempts db) (flags db) (retry_overrides db)
    (policies db) (profiles db) (mappings db) (mapping_cache db).
Definition set_attempts (xs : list retry_attempt) (db : async_db) : async_db :=
  mk_async_db (operations db) (transitions db) xs (flags db) (retry_overrides db)
    (policies db) (profiles db) (mappings db) (mapping_cache db).
Definition set_flags (xs : list flag) (db : async_db) : async_db :=
  mk_async_db (operations db) (transitions db) (retry_attempts db) xs (retry_overrides db)
    (policies db) (profiles db) (mappings db) (mapping_cache db).
Definition set_overrides (xs : list retry_override) (db : async_db) : async_db :=
  mk_async_db (operations db) (transitions db) (retry_attempts db) (flags db) xs
    (policies db) (profiles db) (mappings db) (mapping_cache db).

Definition unique_violation : js_error :=
  coded "23505" "duplicate key value violates unique constraint".

(** ** Reads *)

Definition requireTenantId (tenantId : option string) : result js_error unit :=
  throw_if (negb (truthy_str tenantId)) (coded_field "VALIDATION_ERROR" "tenant_id is required" "tenant_id").
Definition requireActorId (actorId : option string) : result js_error unit :=
  throw_if (negb (truthy_str actorId)) (coded_field "VALIDATION_ERROR" "actor_id is required" "actor_id").

(** [SELECT * FROM async_operations WHERE operation_id = $1 AND tenant_id = $2] *)
Definition select_operation (id tenant : string) (db : async_db) : option operation :=
  match operations db !! id with
  | Some op => if String.eqb (tenant_id op) tenant then Some op else None
  | None => None
  end.

Section repo.
Context `{!Platform}.

Definition findById (operation_id : string) (tenant : option string) : act (option operation) :=
  lift (requireTenantId tenant) ≫= fun _ => query_db (select_operation operation_id (default "" tenant)).

Definition findByIdAnyTenant (operation_id : string) : act (option operation) :=
  query_db (fun db => operations db !! operation_id).

Definition findByIdWithTenant (operation_id : string) (tenant : option string) : act (option operation) :=
  findById operation_id tenant.

Definition created_desc (a b : operation) : Prop := created_at b <= created_at a.
Definition updated_asc (a b : operation) : Prop := updated_at a <= updated_at b.
#[local] Instance created_desc_dec : RelDecision created_desc.
Proof. intros a b. unfold created_desc. apply _. Defined.
#[local] Instance updated_asc_dec : RelDecision updated_asc.
Proof. intros a b. unfold updated_asc. apply _. Defined.

Definition rows_where (p : operation -> bool) (db : async_db) : list operation :=
  List.filter p (snd <$> map_to_list (operations db)).

Definition findByIdempotencyKey (tenant : option string) (key : string) : act (option operation) :=
  lift (requireTenantId tenant) ≫= fun _ =>
  query_db (fun db => head (merge_sort created_desc
    (rows_where (fun op => bool_decide (Some (tenant_id op) = tenant) && bool_decide (idempotency_key op = Some key)) db))).

(** The page and the total of the operations a predicate selects. *)
Definition page_of (p : operation -> bool) (limit offset : nat) (db : async_db) : list operation * nat :=
  let rows := rows_where p db in
  (take limit (drop offset (merge_sort created_desc rows)), length rows).

Definition status_filter (st : option string) (op : operation) : bool :=
  if truthy_str st then bool_decide (Some (status op) = st) else true.

Definition findByTenant (tenant st : option string) (limit offset : nat) : act (list operation * nat) :=
  lift (requireTenantId tenant) ≫= fun _ =>
  query_db (page_of (fun op => bool_decide (Some (tenant_id op) = tenant) && status_filter st op) limit offset).

Definition findAll (st : option string) (limit offset : nat) : act (list operation * nat) :=
  query_db (page_of (status_filter st) limit offset).

(** ** Policies *)

Definition policy_for (t : string) (db : async_db) : option policy :=
  List.find (fun p => String.eqb (po_operation_type p) t) (policies db).

(** [COALESCE(sp.column, fp.column)] over the two left joins. *)
Definition policy_minutes (column : policy -> option Z) (op : operation) (db : async_db) : option Z :=
  match policy_for (operation_type op) db ≫= column with
  | Some m => Some m
  | None => policy_for "*" db ≫= column
  end.

Definition findPolicyForType (t : string) : act (option policy) :=
  query_db (fun db => match policy_for t db with Some p => Some p | None => policy_for "*" db end).

(** Candidates in the given statuses, untouched for the policy's minutes. *)
Definition stale (statuses : list string) (column : policy -> option Z) (default_minutes now : Z)
    (db : async_db) (op : operation) : bool :=
  str_in (status op) statuses
  && (updated_at op <=? now - default default_minutes (policy_minutes column op db) * 60000).

Definition stale_rows (statuses : list string) (column : policy -> option Z) (default_minutes now : Z)
    (db : async_db) : list operation :=
  merge_sort updated_asc (rows_where (stale statuses column default_minutes now db) db).

Definition findTimedOutCandidates (now : Z) : act (list operation) :=
  query_db (stale_rows ["running"] po_timeout_minutes 60 now).
Definition findOrphanCandidates (now : Z) : act (list operation) :=
  query_db (stale_rows ["running"; "pending"] po_orphan_threshold_minutes 30 now).
Definition findStaleCancellingCandidates (now : Z) : act (list operation) :=
  query_db (stale_rows ["cancelling"] po_cancelling_timeout_minutes 5 now).

(** ** Writes *)

(** [INSERT INTO async_operations ... RETURNING *] *)
Definition insert_operation (op : operation) (db : async_db) : result js_error (operation * async_db) :=
  match operations db !! operation_id op with
  | Some _ => Err unique_violation
  | None => Ok (op, set_operations (<[operation_id op := op]> (operations db)) db)
  end.

Definition persistOperation (op : operation) : act operation :=
  lift (requireTenantId (Some (tenant_id op))) ≫= fun _ =>
  lift (requireActorId (Some (actor_id op))) ≫= fun _ =>
  exec_db_err (insert_operation op).

(** [UPDATE async_operations SET ... WHERE operation_id = $1 AND tenant_id = $2 AND guard RETURNING *] *)
Definition update_operation (id tenant : string) (guard : operation -> bool) (f : operation -> operation)
    (db : async_db) : option operation * async_db :=
  match select_operation id tenant db with
  | Some op => if guard op then (Some (f op), set_operations (<[id := f op]> (operations db)) db) else (None, db)
  | None => (None, db)
  end.

Definition insertAsyncOperationTransition (t : transition_row) : act transition_row :=
  exec_db (fun db => (t, set_transitions (transitions db ++ [t]) db)).

Definition reset_to_retry (now : Z) (corr : string) (op : operation) : operation :=
  {| operation_id := operation_id op; tenant_id := tenant_id op; actor_id := actor_id op;
     actor_type := actor_type op; workspace_id := workspace_id op; operation_type := operation_type op;
     status := "pending"; error_summary_of := None; cancellation_reason := cancellation_reason op;
     cancelled_by := cancelled_by op; timeout_policy_snapshot := timeout_policy_snapshot op;
     policy_applied_at := policy_applied_at op; correlation_id := corr;
     idempotency_key := idempotency_key op; saga_id := saga_id op; attempt_count := attempt_count op + 1;
     max_retries := max_retries op; created_at := created_at op; updated_at := now;
     failure_category := failure_category op; failure_error_code := failure_error_code op;
     failure_description := failure_description op;
     failure_suggested_actions := failure_suggested_actions op;
     manual_intervention_required := manual_intervention_required op |}.

Definition atomicResetToRetry (id : string) (tenant : option string) (corr : string) : act (option operation) :=
  lift (requireTenantId tenant) ≫= fun _ =>
  now_ms ≫= fun now =>
  exec_db (update_operation id (default "" tenant) (fun op => String.eqb (status op) "failed")
             (reset_to_retry (Z.of_N now) corr)).

Definition es_json (es : error_summary) : jsval :=
  let str o := match o with Some s => JStr s | None => JNull end in
  JObj [("code", str (es_code es)); ("message", str (es_message es)); ("failedStep", str (es_failedStep es))].

Definition opt_field (k : string) (v : option jsval) : list (string * jsval) :=
  match v with Some v => [(k, v)] | None => [] end.

(** A truthy string field of the metadata object. *)
Definition str_field (k : string) (s : option string) : list (string * jsval) :=
  if truthy_str s then [(k, JStr (default "" s))] else [].

Definition transition_metadata (op : operation) : list (string * jsval) :=
  opt_field "error_summary" (es_json <$> error_summary_of op)
  ++ str_field "cancellation_reason" (cancellation_reason op)
  ++ str_field "cancelled_by" (cancelled_by op).

Definition json_or_null (kvs : list (string * jsval)) : jsval :=
  match kvs with [] => JNull | _ => JObj kvs end.

(** [UPDATE ... SET status, error_summary, cancellation_reason, cancelled_by, updated_at] from the transitioned row. *)
Definition write_transition (upd row : operation) : operation :=
  with_transition row (status upd) (error_summary_of upd) (cancellation_reason upd) (cancelled_by upd) (updated_at upd).

Definition transitionOperation (id : string) (tenant : option string) (actor : option string)
    (input : transition_input) : act (operation * transition_row) :=
  lift (requireTenantId tenant) ≫= fun _ =>
  lift (requireActorId actor) ≫= fun _ =>
  let ten := default "" tenant in
  in_transaction (
    query_db (select_operation id ten) ≫= fun locked =>
    match locked with
    | None => throw (coded "NOT_FOUND" "Operation not found")
    | Some existing =>
        now_ms ≫= fun now =>
        lift (applyTransition (Z.of_N now) existing input) ≫= fun updatedOperation =>
        exec_db (update_operation id ten (fun _ => true) (write_transition updatedOperation)) ≫= fun row =>
        random_uuid ≫= fun tid =>
        let transition := mk_transition_row tid id ten (default "" actor) (status existing)
          (status updatedOperation) (updated_at updatedOperation)
          (json_or_null (transition_metadata updatedOperation)) in
        insertAsyncOperationTransition transition ≫= fun _ =>
        mret (default updatedOperation row, transition)
    end).

Definition first_some {A} (a b : option A) : option A := match a with Some x => Some x | None => b end.

Definition atomicTransitionSystem (id : string) (tenant : option string) (new_status reason : string)
    (by_ : option string) : act (operation * transition_row) :=
  lift (requireTenantId tenant) ≫= fun _ =>
  let ten := default "" tenant in
  in_transaction (
    query_db (select_operation id ten) ≫= fun locked =>
    match locked with
    | None => throw (coded "NOT_FOUND" "Operation not found")
    | Some existing =>
        let input := mk_transition_input (Some new_status)
          (if String.eqb new_status "failed"
           then Some (mk_error_summary (Some "ASYNC_OPERATION_RECOVERED") (Some reason) (Some "system-recovery"))
           else None)
          (if String.eqb new_status "cancelling" || String.eqb new_status "timed_out" then Some reason else None)
          (if truthy_str by_ then by_ else None) in
        now_ms ≫= fun now =>
        lift (applyTransition (Z.of_N now) existing input) ≫= fun upd =>
        let reason' := first_some (cancellation_reason upd) (cancellation_reason existing) in
        let by' := first_some (cancelled_by upd) (cancelled_by existing) in
        exec_db (update_operation id ten (fun _ => true) (fun row =>
          with_transition row (status upd) (error_summary_of upd) reason' by' (updated_at upd))) ≫= fun row =>
        random_uuid ≫= fun tid =>
        let metadata := [("reason", JStr reason)]
          ++ opt_field "error_summary" (es_json <$> error_summary_of upd)
          ++ str_field "cancellation_reason" reason'
          ++ str_field "cancelled_by" (first_some by' by_) in
        let transition := mk_transition_row tid id ten "system" (status existing) (status upd)
          (updated_at upd) (JObj metadata) in
        insertAsyncOperationTransition transition ≫= fun _ =>
        mret (default upd row, transition)
    end).

Definition with_failure (c : classification) (now : Z) (op : operation) : operation :=
  {| operation_id := operation_id op; tenant_id := tenant_id op; actor_id := actor_id op;
     actor_type := actor_type op; workspace_id := workspace_id op; operation_type := operation_type op;
     status := status op; error_summary_of := error_summary_of op; cancellation_reason := cancellation_reason op;
     cancelled_by := cancelled_by op; timeout_policy_snapshot := timeout_policy_snapshot op;
     policy_applied_at := policy_applied_at op; correlation_id := correlation_id op;
     idempotency_key := idempotency_key op; saga_id := saga_id op; attempt_count := attempt_count op;
     max_retries := max_retries op; created_at := created_at op; updated_at := now;
     failure_category := Some (fc_category c); failure_error_code := fc_errorCode c;
     failure_description := Some (fc_description c); failure_suggested_actions := fc_suggestedActions c;
     manual_intervention_required := manual_intervention_required op |}.

Definition updateFailureClassification (id : string) (c : classification) (tenant : option string) : act (option operation) :=
  lift (requireTenantId tenant) ≫= fun _ =>
  now_ms ≫= fun now =>
  exec_db (update_operation id (default "" tenant) (fun _ => true) (with_failure c (Z.of_N now))).

Definition with_intervention (required : bool) (now : Z) (op : operation) : operation :=
  {| operation_id := operation_id op; tenant_id := tenant_id op; actor_id := actor_id op;
     actor_type := actor_type op; workspace_id := workspace_id op; operation_type := operation_type op;
     status := status op; error_summary_of := error_summary_of op; cancellation_reason := cancellation_reason op;
     cancelled_by := cancelled_by op; timeout_policy_snapshot := timeout_policy_snapshot op;
     policy_applied_at := policy_applied_at op; correlation_id := correlation_id op;
     idempotency_key := idempotency_key op; saga_id := saga_id op; attempt_count := attempt_count op;
     max_retries := max_retries op; created_at := created_at op; updated_at := now;
     failure_category := failure_category op; failure_error_code := failure_error_code op;
     failure_description := failure_description op; failure_suggested_actions := failure_suggested_actions op;
     manual_intervention_required := required |}.

Definition setManualInterventionRequired (id : string) (required : bool) (tenant : option string) : act (option operation) :=
  lift (requireTenantId tenant) ≫= fun _ =>
  now_ms ≫= fun now =>
  exec_db (update_operation id (default "" tenant) (fun _ => true) (with_intervention required (Z.of_N now))).

(** ** Retry attempts, flags and overrides *)

(** [INSERT INTO retry_attempts]; (operation_id, attempt_number) is unique. *)
Definition createRetryAttemptRow (a : retry_attempt) : act retry_attempt :=
  lift (requireTenantId (Some (ra_tenant_id a))) ≫= fun _ =>
  exec_db_err (fun db =>
    if existsb (fun b => String.eqb (ra_operation_id b) (ra_operation_id a)
                         && (ra_attempt_number b =? ra_attempt_number a)) (retry_attempts db)
    then Err unique_violation
    else Ok (a, set_attempts (retry_attempts db ++ [a]) db)).

(** [INSERT INTO manual_intervention_flags]; operation_id is unique, and the
    repository renames the violation. *)
Definition createManualInterventionFlag (f : flag) : act flag :=
  exec_db_err (fun db =>
    if existsb (fun g => String.eqb (fl_operation_id g) (fl_operation_id f)) (flags db)
    then Err (coded "UNIQUE_VIOLATION" (err_message unique_violation))
    else Ok (f, set_flags (flags db ++ [f]) db)).

(** [ORDER BY created_at DESC LIMIT 1] *)
Definition latest_by {A} (at_ : A -> Z) (xs : list A) : option A :=
  foldr (fun x best => match best with
                       | Some y => if at_ y <=? at_ x then Some x else Some y
                       | None => Some x
                       end) None xs.

Definition findFlagByOperationId (id : string) : act (option flag) :=
  query_db (fun db => latest_by fl_created_at (List.filter (fun f => String.eqb (fl_operation_id f) id) (flags db))).

Definition resolve_flag (by_ method : string) (now : Z) (f : flag) : flag :=
  mk_flag (fl_flag_id f) (fl_operation_id f) (fl_tenant_id f) (fl_actor_id f) (fl_reason f)
    (fl_attempt_count_at_flag f) (fl_last_error_code f) (fl_last_error_summary f) "resolved"
    (fl_last_notification_at f) (fl_created_at f) (Some now) (Some by_) (Some method).

Definition resolveFlag (flagId by_ method : string) : act unit :=
  now_ms ≫= fun now =>
  exec_db (fun db => (tt, set_flags
    ((fun f => if String.eqb (fl_flag_id f) flagId then resolve_flag by_ method (Z.of_N now) f else f) <$> flags db) db)).

Definition pending_override (id : string) (db : async_db) : option retry_override :=
  latest_by ov_created_at
    (List.filter (fun o => String.eqb (ov_operation_id o) id && String.eqb (ov_status o) "pending") (retry_overrides db)).

(** [createIfNotInProgress]: [inl existing] when another override is pending. *)
Definition createIfNotInProgress (o : retry_override) : act (option retry_override + retry_override) :=
  query_db (pending_override (ov_operation_id o)) ≫= fun existing =>
  match existing with
  | Some e => mret (inl (Some e))
  | None =>
      exec_db (fun db =>
        match pending_override (ov_operation_id o) db with
        | Some _ => (inl None, db)
        | None => (inr o, set_overrides (retry_overrides db ++ [o]) db)
        end)
  end.

Definition completeOverride (overrideId st : string) : act unit :=
  now_ms ≫= fun now =>
  exec_db (fun db => (tt, set_overrides
    ((fun o => if String.eqb (ov_override_id o) overrideId
               then mk_retry_override (ov_override_id o) (ov_operation_id o) (ov_flag_id o) (ov_tenant_id o)
                      (ov_superadmin_id o) (ov_justification o) (ov_attempt_number o) st (ov_created_at o)
                      (Some (Z.of_N now))
               else o) <$> retry_overrides db) db)).

End repo.
