(* ===== verification/AsyncActions.v ===== *)
(** * The asynchronous-operation actions

    provisioning-orchestrator's handlers [actions/async-operation-transition.mjs],
    [-cancel], [-retry], [-retry-override], [-timeout-sweep] and [-orphan-sweep]
    over the store of [AsyncRepo].  Logging and metrics are left out; an event
    is the constructor of [async_event] with what its payload is built from. *)
From S2P Require Import Prelude JsValue Platform AsyncOperation FailureClassification AsyncRepo.
Local Open Scope Z_scope.

(** The caller context as the handlers read it. *)
Record caller := mk_caller {
  ca_actor_id : option string;
  ca_actor_type : option string;
  ca_tenant : option string;
  ca_roles : list string;
  ca_tenant_status : option string;
  ca_tenant_active : option bool
}.

Definition is_type (t : string) (c : caller) : bool := bool_decide (ca_actor_type c = Some t).

Section actions.
Context `{!Platform}.

(** ** Transition *)

Definition TRANSITION_STATUS_CODES : list (string * Z) :=
  [("NOT_FOUND", 404); ("INVALID_TRANSITION", 409); ("VALIDATION_ERROR", 400); ("TENANT_ISOLATION_VIOLATION", 403)].

Definition status_for (codes : list (string * Z)) (e : js_error) : Z :=
  default 500 (err_code e ≫= fun c => assoc_lookup c codes).

Definition sanitizeErrorSummary (es : option error_summary) : result js_error (option error_summary) :=
  match es with
  | None => Ok None
  | Some e => validateErrorSummary (Some e) ≫= fun _ => Ok (Some (normalizeErrorSummary e))
  end.

Definition resolveTenantScope (c : caller) (tenant : option string) : result js_error string :=
  if is_type "superadmin" c then
    if truthy_str tenant then Ok (default "" tenant)
    else Err (coded "VALIDATION_ERROR" "tenant_id is required for superadmin transitions")
  else if negb (truthy_str (ca_tenant c)) then Err (coded "VALIDATION_ERROR" "callerContext.tenantId is required")
  else if truthy_str tenant && negb (bool_decide (tenant = ca_tenant c))
  then Err (coded "TENANT_ISOLATION_VIOLATION" "tenant_id must come from callerContext")
  else Ok (default "" (ca_tenant c)).

Definition set_mapping_cache (cache : list mapping_entry) (db : async_db) : async_db :=
  mk_async_db (operations db) (transitions db) (retry_attempts db) (flags db) (retry_overrides db)
    (policies db) (profiles db) (mappings db) (Some cache).

(** The rows are read once per process. *)
Definition loadFailureMappings : act (list mapping_entry) :=
  exec_db (fun db => match mapping_cache db with
                     | Some cache => (cache, db)
                     | None => let cache := loadMappingCache (mappings db) in (cache, set_mapping_cache cache db)
                     end).

Definition classifyFailureForOperation (op : operation) (es : option error_summary) : act classification :=
  loadFailureMappings ≫= fun cache =>
  lift (classifyByErrorCode (es ≫= es_code) (Some (operation_type op)) cache) ≫= fun classification =>
  updateFailureClassification (operation_id op) classification (Some (tenant_id op)) ≫= fun _ =>
  mret classification.

Definition findByOperationType (t : string) : act (option profile) :=
  query_db (fun db => List.find (fun p => String.eqb (pr_operation_type p) t) (profiles db)).

Definition findDefault : act (option profile) :=
  query_db (fun db =>
    first_some (List.find (fun p => String.eqb (pr_operation_type p) "__default__") (profiles db))
               (List.find (fun p => pr_is_default p) (profiles db))).

(** [Number(specific?.max_retries ?? fallback?.max_retries ?? operation.max_retries ?? 5)] *)
Definition effective_max_retries (specific fallback : option profile) (op : operation) : jsnum :=
  match specific ≫= pr_max_retries, fallback ≫= pr_max_retries with
  | Some n, _ => NInt n
  | None, Some n => NInt n
  | None, None => if nullish (max_retries op) then NInt 5 else js_number (max_retries op)
  end.

Definition must_intervene (op : operation) (limit : jsnum) (c : classification) : bool :=
  num_leb limit (NInt (attempt_count op)) || String.eqb (fc_category c) REQUIRES_INTERVENTION.

Definition maybeMarkManualIntervention (op : operation) (c : classification) : act (option (flag * jsnum)) :=
  findByOperationType (operation_type op) ≫= fun specific =>
  findDefault ≫= fun fallback =>
  let maxRetries := effective_max_retries specific fallback op in
  if negb (must_intervene op maxRetries c) then mret None
  else
    setManualInterventionRequired (operation_id op) true (Some (tenant_id op)) ≫= fun _ =>
    random_uuid ≫= fun fid =>
    now_ms ≫= fun now =>
    lift (createFlag fid (Z.of_N now) (Some (operation_id op)) (tenant_id op) (actor_id op)
            (if String.eqb (fc_category c) REQUIRES_INTERVENTION
             then "failure_category_requires_intervention" else "max_retries_exhausted")
            (attempt_count op) (Some (default "UNKNOWN" (fc_errorCode c))) (Some (fc_description c))) ≫= fun f =>
    try_catch (createManualInterventionFlag f ≫= fun _ => mret tt)
      (fun e => if has_code "UNIQUE_VIOLATION" e then mret tt else throw e) ≫= fun _ =>
    mret (Some (f, maxRetries)).

Definition transition_body (op : operation) (previous : string) (c : option classification) (intervened : bool) : jsval :=
  JObj [("operationId", JStr (operation_id op)); ("previousStatus", JStr previous);
        ("newStatus", JStr (status op)); ("updatedAt", jint (updated_at op));
        ("failureCategory", jstr_opt (first_some (fc_category <$> c) (failure_category op)));
        ("failureDescription", jstr_opt (first_some (fc_description <$> c) (failure_description op)));
        ("failureSuggestedActions",
           JArr (JStr <$> (match c with Some c => fc_suggestedActions c | None => failure_suggested_actions op end)));
        ("manualInterventionRequired", JBool (intervened || manual_intervention_required op))].

(** [manualIntervention?.maxRetries ?? updatedOperation.max_retries ?? 5] *)
Definition event_max_retries (m : option (flag * jsnum)) (op : operation) : jsval :=
  match m with
  | Some (_, n) => JNum n
  | None => coalesce (max_retries op) (JNum (NInt 5))
  end.

(** [main] of [async-operation-transition.mjs]. *)
Definition transition_main (c : caller) (operation_id : string) (tenant new_status_ : option string)
    (es : option error_summary) : act response :=
  if negb (truthy_str (ca_actor_id c)) then throw (coded "VALIDATION_ERROR" "callerContext.actor.id is required")
  else
  lift (resolveTenantScope c tenant) ≫= fun tenantId =>
  lift (sanitizeErrorSummary es) ≫= fun errorSummary =>
  try_catch (
    transitionOperation operation_id (Some tenantId) (ca_actor_id c)
      (mk_transition_input new_status_ errorSummary None None) ≫= fun '(op, transition) =>
    (if String.eqb (status op) "failed" then
       classifyFailureForOperation op errorSummary ≫= fun classification =>
       maybeMarkManualIntervention op classification ≫= fun m =>
       mret (Some classification, m)
     else mret (None, None)) ≫= fun '(classification, m) =>
    try_catch (
      publish (StateChanged op (tr_previous_status transition)) ≫= fun _ =>
      (match classification with
       | Some cl => publish (FailureClassified op cl (event_max_retries m op))
       | None => mret tt end) ≫= fun _ =>
      (match m with
       | Some (f, _) => publish (ManualInterventionRequired f)
       | None => mret tt end)) (fun _ => mret tt) ≫= fun _ =>
    mret (mk_response 200 [("X-Correlation-Id", correlation_id op)]
            (transition_body op (tr_previous_status transition) classification
               (match m with Some _ => true | None => false end))))
    (fun e => throw (with_status (status_for TRANSITION_STATUS_CODES e) e)).

(** ** Cancellation *)

Definition error_response (codes : list (string * Z)) (e : js_error) : response :=
  mk_response (status_for codes e) []
    (JObj [("error", JStr (default "INTERNAL_ERROR" (err_code e))); ("message", JStr (err_message e))]).

Definition CANCEL_STATUS_CODES : list (string * Z) :=
  [("NOT_FOUND", 404); ("INVALID_TRANSITION", 409); ("NOT_CANCELLABLE", 409);
   ("TENANT_ISOLATION_VIOLATION", 403); ("VALIDATION_ERROR", 400)].

Definition is_superadmin (c : caller) : bool := str_in "superadmin" (ca_roles c) || is_type "superadmin" c.

(** [main] of [async-operation-cancel.mjs]. *)
Definition cancel_main (c : caller) (operation_id_ tenant reason : option string) : act response :=
  try_catch (
    let isSuperadmin := is_superadmin c in
    let tenant_id_ := if isSuperadmin then first_some tenant (ca_tenant c) else ca_tenant c in
    if negb (truthy_str operation_id_) || negb (truthy_str tenant_id_) || negb (truthy_str (ca_actor_id c))
    then throw (coded "VALIDATION_ERROR" "db, operation_id, tenant_id and callerContext.actor are required")
    else
    let oid := default "" operation_id_ in
    (if isSuperadmin then findByIdAnyTenant oid else findById oid tenant_id_) ≫= fun found =>
    match found with
    | None => throw (coded "NOT_FOUND" "Operation not found")
    | Some op =>
        if negb isSuperadmin && negb (bool_decide (Some (tenant_id op) = tenant_id_))
        then throw (coded "TENANT_ISOLATION_VIOLATION" "Cross-tenant cancellation is forbidden")
        else if negb (isCancellable (status op))
        then throw (coded "NOT_CANCELLABLE" ("Operation in status " +:+ status op +:+ " cannot be cancelled"))
        else
        let targetStatus := if String.eqb (status op) "pending" then "cancelled" else "cancelling" in
        transitionOperation (operation_id op) (Some (tenant_id op)) (ca_actor_id c)
          (mk_transition_input (Some targetStatus) None
             (Some (default "cancellation requested" reason)) (ca_actor_id c)) ≫= fun '(upd, _) =>
        publish (OperationCancelled upd (status op) (default "" (ca_actor_id c))) ≫= fun _ =>
        mret (mk_response 200 [] (JObj [("operationId", JStr (operation_id upd));
          ("previousStatus", JStr (status op)); ("newStatus", JStr (status upd)); ("updatedAt", jint (updated_at upd))]))
    end)
    (fun e => mret (error_response CANCEL_STATUS_CODES e)).

(** ** Sweeps *)

Record sweep_error := mk_sweep_error { se_operation_id : string; se_code : string; se_message : string }.

Definition sweep_error_of (op : operation) (e : js_error) : sweep_error :=
  mk_sweep_error (operation_id op) (default "INTERNAL_ERROR" (err_code e)) (err_message e).

(** One iteration: [m] counts on success, an error is recorded and the loop goes on. *)
Definition sweep_step (m : operation -> act unit) (acc : Z * list sweep_error) (op : operation) : act (Z * list sweep_error) :=
  try_catch (m op ≫= fun _ => mret (fst acc + 1, snd acc))
    (fun e => mret (fst acc, snd acc ++ [sweep_error_of op e])).

(** [main] of [async-operation-timeout-sweep.mjs]. *)
Definition timeout_sweep : act (Z * list sweep_error) :=
  now_ms ≫= fun now =>
  findTimedOutCandidates (Z.of_N now) ≫= fun candidates =>
  for_fold (sweep_step (fun candidate =>
    atomicTransitionSystem (operation_id candidate) (Some (tenant_id candidate)) "timed_out" "timeout exceeded" None ≫= fun '(upd, _) =>
    publish (OperationTimedOut upd (status candidate)))) (0, []) candidates.

Definition orphan_reason (candidate : operation) : string :=
  if String.eqb (status candidate) "pending" then "stale — never started" else "orphaned — no progress detected".

(** One orphan: [pending] and [running] candidates alike are moved to [failed]. *)
Definition recover_orphan (candidate : operation) : act unit :=
  let reason := orphan_reason candidate in
  atomicTransitionSystem (operation_id candidate) (Some (tenant_id candidate)) "failed" reason None ≫= fun '(upd, _) =>
  publish (OperationRecovered upd (status candidate) reason).

Definition force_cancel (candidate : operation) : act unit :=
  atomicTransitionSystem (operation_id candidate) (Some (tenant_id candidate)) "cancelled"
    "cancellation forced — timeout" (Some (default "system" (cancelled_by candidate))) ≫= fun '(upd, _) =>
  publish (OperationCancelled upd (status candidate) (default "system" (cancelled_by upd))).

(** [main] of [async-operation-orphan-sweep.mjs]. *)
Definition orphan_sweep : act (Z * Z * list sweep_error) :=
  now_ms ≫= fun now =>
  findOrphanCandidates (Z.of_N now) ≫= fun orphans =>
  findStaleCancellingCandidates (Z.of_N now) ≫= fun staleCancelling =>
  for_fold (sweep_step recover_orphan) (0, []) orphans ≫= fun '(recovered, errors) =>
  for_fold (sweep_step force_cancel) (0, errors) staleCancelling ≫= fun '(forced, errors') =>
  mret (recovered, forced, errors').

(** ** Retry *)

Definition RETRY_STATUS_CODES : list (string * Z) :=
  [("VALIDATION_ERROR", 400); ("NOT_FOUND", 404); ("FORBIDDEN", 403); ("TENANT_ISOLATION_VIOLATION", 403);
   ("INVALID_OPERATION_STATE", 409); ("MAX_RETRIES_EXCEEDED", 422); ("TENANT_DEACTIVATED", 400);
   ("MANUAL_INTERVENTION_REQUIRED", 422)].

Definition requireCallerIdentity (c : caller) : result js_error unit :=
  throw_if (negb (truthy_str (ca_actor_id c))) (coded "VALIDATION_ERROR" "callerContext.actor.id is required") ≫= fun _ =>
  throw_if (negb (truthy_str (ca_actor_type c))) (coded "VALIDATION_ERROR" "callerContext.actor.type is required") ≫= fun _ =>
  throw_if (negb (is_type "superadmin" c) && negb (truthy_str (ca_tenant c)))
    (coded "VALIDATION_ERROR" "callerContext.tenantId is required").

(** A positive integer prefix of the setting, else 5. *)
Definition resolveDefaultMaxRetries (setting : option string) : Z :=
  match parse_int (default "5" setting) with NInt n => if 0 <? n then n else 5 | _ => 5 end.

Definition resolveMaxRetries (setting : option string) (op : operation) : Z :=
  let value := if nullish (max_retries op) then jint (resolveDefaultMaxRetries setting) else max_retries op in
  match parse_int_of value with
  | NInt n => if 0 <? n then n else resolveDefaultMaxRetries setting
  | _ => resolveDefaultMaxRetries setting
  end.

Definition isTenantActiveByDefault (c : caller) : bool :=
  negb (bool_decide (ca_tenant_status c = Some "deactivated") || bool_decide (ca_tenant_active c = Some false)).

Definition loadOperation (c : caller) (operation_id : string) (tenant : option string) : act (option operation) :=
  if is_type "superadmin" c && truthy_str tenant then findByIdWithTenant operation_id tenant
  else findByIdAnyTenant operation_id.

Definition assertTenantAccess (c : caller) (op : option operation) (tenant : option string) : result js_error operation :=
  match op with
  | None => Err (coded "NOT_FOUND" "Operation not found")
  | Some op =>
      if is_type "superadmin" c then Ok op
      else if truthy_str tenant && negb (bool_decide (tenant = ca_tenant c))
      then Err (coded "TENANT_ISOLATION_VIOLATION" "tenant_id must come from callerContext")
      else if negb (bool_decide (Some (tenant_id op) = ca_tenant c))
      then Err (coded "FORBIDDEN" "Operation belongs to a different tenant")
      else Ok op
  end.

Definition not_retryable : js_error :=
  coded "INVALID_OPERATION_STATE" "Only operations in 'failed' state can be retried".

Definition new_attempt (op : operation) (c : caller) (metadata : jsval) : act retry_attempt :=
  random_uuid ≫= fun u => random_uuid ≫= fun u' => now_ms ≫= fun now =>
  lift (createRetryAttempt u u' now
    (mk_attempt_input None (Some (operation_id op)) (Some (tenant_id op)) (ca_actor_id c) (ca_actor_type c)
       (jint (attempt_count op + 1)) None None None None metadata)).

(** The transaction of a retry: the attempt, the guarded reset, the history row. *)
Definition retry_transaction (op : operation) (c : caller) (a : retry_attempt) : act operation :=
  in_transaction (
    createRetryAttemptRow a ≫= fun _ =>
    atomicResetToRetry (operation_id op) (Some (tenant_id op)) (ra_correlation_id a) ≫= fun updated =>
    match updated with
    | None => throw not_retryable
    | Some upd =>
        random_uuid ≫= fun tid =>
        insertAsyncOperationTransition (mk_transition_row tid (operation_id op) (tenant_id op)
          (default "" (ca_actor_id c)) (status op) (status upd) (updated_at upd)
          (JObj [("retry_attempt_id", JStr (ra_attempt_id a)); ("retry_attempt_number", jint (ra_attempt_number a));
                 ("previous_correlation_id", JStr (correlation_id op)); ("new_correlation_id", JStr (ra_correlation_id a))])) ≫= fun _ =>
        mret upd
    end).

(** [main] of [async-operation-retry.mjs]; [setting] is [OPERATION_DEFAULT_MAX_RETRIES]. *)
Definition retry_main (setting : option string) (c : caller) (operation_id_ : string) (tenant : option string)
    (metadata : jsval) : act response :=
  lift (requireCallerIdentity c) ≫= fun _ =>
  try_catch (
    loadOperation c operation_id_ tenant ≫= fun found =>
    lift (assertTenantAccess c found tenant) ≫= fun op =>
    if negb (isTenantActiveByDefault c) then throw (coded "TENANT_DEACTIVATED" "Tenant is deactivated")
    else if manual_intervention_required op then
      findFlagByOperationId (operation_id op) ≫= fun f =>
      mret (mk_response 422 [] (JObj [("error", JStr "MANUAL_INTERVENTION_REQUIRED");
        ("message", JStr "This operation has exhausted its automatic retry limit and requires manual intervention.");
        ("operationId", JStr (operation_id op)); ("flagId", jstr_opt (fl_flag_id <$> f));
        ("hint", JStr "Contact your administrator or request a retry override.")]))
    else if negb (String.eqb (status op) "failed") then throw not_retryable
    else if resolveMaxRetries setting op <=? attempt_count op
    then throw (coded "MAX_RETRIES_EXCEEDED" "Maximum retry attempts reached for this operation type")
    else
    new_attempt op c (coalesce metadata JNull) ≫= fun a =>
    retry_transaction op c a ≫= fun upd =>
    try_catch (publish (OperationRetried upd a (correlation_id op))) (fun _ => mret tt) ≫= fun _ =>
    mret (mk_response 200 [("X-Correlation-Id", ra_correlation_id a)]
      (JObj [("attemptId", JStr (ra_attempt_id a)); ("operationId", JStr (ra_operation_id a));
             ("attemptNumber", jint (ra_attempt_number a)); ("correlationId", JStr (ra_correlation_id a));
             ("status", JStr (ra_status a)); ("createdAt", jint (ra_created_at a))])))
    (fun e => throw (with_status (default (status_for RETRY_STATUS_CODES e) (err_status e)) e)).

(** ** Retry override *)

Definition refusal (st : Z) (error message : string) (extra : list (string * jsval)) : response :=
  mk_response st [] (JObj ([("error", JStr error); ("message", JStr message)] ++ extra)).

(** [UPDATE async_operations SET status = 'pending', attempt_count = attempt_count + 1,
    manual_intervention_required = FALSE, correlation_id = $3, updated_at = NOW()]:
    no guard on the status, and the error summary stays. *)
Definition override_reset (corr : string) (now : Z) (op : operation) : operation :=
  {| operation_id := operation_id op; tenant_id := tenant_id op; actor_id := actor_id op;
     actor_type := actor_type op; workspace_id := workspace_id op; operation_type := operation_type op;
     status := "pending"; error_summary_of := error_summary_of op; cancellation_reason := cancellation_reason op;
     cancelled_by := cancelled_by op; timeout_policy_snapshot := timeout_policy_snapshot op;
     policy_applied_at := policy_applied_at op; correlation_id := corr;
     idempotency_key := idempotency_key op; saga_id := saga_id op; attempt_count := attempt_count op + 1;
     max_retries := max_retries op; created_at := created_at op; updated_at := now;
     failure_category := failure_category op; failure_error_code := failure_error_code op;
     failure_description := failure_description op; failure_suggested_actions := failure_suggested_actions op;
     manual_intervention_required := false |}.

Definition override_transaction (op : operation) (f : flag) (c : caller) (a : retry_attempt) : act unit :=
  in_transaction (
    createRetryAttemptRow a ≫= fun _ =>
    now_ms ≫= fun now =>
    exec_db (update_operation (operation_id op) (tenant_id op) (fun _ => true)
               (override_reset (ra_correlation_id a) (Z.of_N now))) ≫= fun _ =>
    resolveFlag (fl_flag_id f) (default "" (ca_actor_id c)) "override").

(** [main] of [async-operation-retry-override.mjs]. *)
Definition retry_override_main (c : caller) (operation_id_ : string) (tenant justification : option string) : act response :=
  if negb (is_type "superadmin" c) then mret (refusal 403 "FORBIDDEN" "Retry override requires superadmin role." [])
  else
  findByIdWithTenant operation_id_ tenant ≫= fun found =>
  match found with
  | Some op =>
      if negb (manual_intervention_required op)
      then mret (refusal 404 "NOT_APPLICABLE" "Operation does not have manual_intervention_required flag set." [])
      else
      findFlagByOperationId operation_id_ ≫= fun fl =>
      match fl with
      | Some f =>
          if String.eqb (fl_status f) "resolved"
          then mret (refusal 409 "FLAG_ALREADY_RESOLVED" "Manual intervention flag is already resolved." [])
          else
          random_uuid ≫= fun ou => now_ms ≫= fun now =>
          lift (RetryOverride ou (Z.of_N now) operation_id_ (fl_flag_id f) (default "" tenant)
                  (ca_actor_id c) justification (attempt_count op + 1)) ≫= fun o =>
          createIfNotInProgress o ≫= fun creation =>
          match creation with
          | inl existing =>
              mret (refusal 409 "OVERRIDE_IN_PROGRESS" "A retry override is already in progress for this operation."
                      [("existingOverrideId", jstr_opt (ov_override_id <$> existing))])
          | inr o =>
              new_attempt op c (JObj [("override_id", JStr (ov_override_id o)); ("justification", JStr (ov_justification o))]) ≫= fun a =>
              override_transaction op f c a ≫= fun _ =>
              publish (RetryOverridden o (ra_correlation_id a)) ≫= fun _ =>
              mret (mk_response 200 [] (JObj [("overrideId", JStr (ov_override_id o)); ("attemptId", JStr (ra_attempt_id a));
                ("operationId", JStr (operation_id op)); ("attemptNumber", jint (ov_attempt_number o));
                ("correlationId", JStr (ra_correlation_id a)); ("status", JStr "pending"); ("createdAt", jint (ov_created_at o))]))
          end
      | None => mret (refusal 409 "FLAG_ALREADY_RESOLVED" "Manual intervention flag is already resolved." [])
      end
  | None => mret (refusal 404 "NOT_APPLICABLE" "Operation does not have manual_intervention_required flag set." [])
  end.
End actions.
