(* ===== verification/AsyncSpec.v ===== *)
(** * What the asynchronous-operation store promises

    An abstract machine over the tables of [AsyncRepo]: a step touches an
    operation without changing its place in the lifecycle, moves it along an
    edge while logging the move, or changes only the other tables.  The
    transition, cancel and retry handlers and the two sweeps are shown to perform
    sequences of such steps; the invariants, the tenant isolation and the audit
    trail follow from the machine alone.  [service_step] adds what the retry
    override and the creation do, which are no steps of the lifecycle. *)
From S2P Require Import Prelude JsValue Platform AsyncOperation FailureClassification AsyncRepo AsyncActions.
Local Open Scope Z_scope.

(** ** The abstract machine *)

(** An edge of the status graph, or the retry edge the graph leaves out. *)
Definition lifecycle_edge (a b : string) : Prop :=
  b ∈ allowed_targets a \/ (a = "failed" /\ b = "pending").

(** Same identity, owner and place in the lifecycle. *)
Definition same_lifecycle (a b : operation) : Prop :=
  operation_id b = operation_id a /\ tenant_id b = tenant_id a /\ status b = status a /\
  error_summary_of b = error_summary_of a /\ attempt_count b = attempt_count a.

Definition logs_move (id : string) (op op' : operation) (tr : transition_row) : Prop :=
  tr_operation_id tr = id /\ tr_tenant_id tr = tenant_id op /\
  tr_previous_status tr = status op /\ tr_new_status tr = status op'.

Definition set_row (id : string) (op : operation) (db : async_db) : async_db :=
  set_operations (<[id := op]> (operations db)) db.
Definition add_log (tr : transition_row) (db : async_db) : async_db :=
  set_transitions (transitions db ++ [tr]) db.

(** The tenants a step may write for. *)
Inductive store_step (T : string -> Prop) : async_db -> async_db -> Prop :=
| step_side db db' :
    operations db' = operations db -> transitions db' = transitions db -> store_step T db db'
| step_touch db id op op' :
    operations db !! id = Some op -> T (tenant_id op) -> same_lifecycle op op' ->
    store_step T db (set_row id op' db)
| step_move db id op op' tr :
    operations db !! id = Some op -> T (tenant_id op) ->
    operation_id op' = operation_id op -> tenant_id op' = tenant_id op ->
    lifecycle_edge (status op) (status op') -> error_summary_safe op' ->
    attempt_count op' = attempt_count op + (if String.eqb (status op') "pending" then 1 else 0) ->
    logs_move id op op' tr ->
    store_step T db (add_log tr (set_row id op' db)).

Notation store_steps T := (rtc (store_step T)).

(** ** Consequences of the machine *)

(** The status a sequence of log rows leads to, if each starts where the last ended. *)
Fixpoint replay (st : string) (rows : list transition_row) : option string :=
  match rows with
  | [] => Some st
  | r :: rows' => if String.eqb (tr_previous_status r) st then replay (tr_new_status r) rows' else None
  end.

Definition history (id : string) (db : async_db) : list transition_row :=
  List.filter (fun r => String.eqb (tr_operation_id r) id) (transitions db).

(** The well-formed store: every row under its own id, in a known status, with
    an error summary only when failed, and a log that replays to its status
    along legal edges. *)
Record store_ok (db : async_db) : Prop := {
  ok_rows : forall id op, operations db !! id = Some op ->
    operation_id op = id /\ status op ∈ STATUSES /\ error_summary_safe op /\
    replay "pending" (history id db) = Some (status op);
  ok_log : Forall (fun r => lifecycle_edge (tr_previous_status r) (tr_new_status r)) (transitions db)
}.

Lemma replay_app st rows rows' :
  replay st (rows ++ rows') = replay st rows ≫= fun st' => replay st' rows'.
Proof.
  revert st. induction rows as [|r rows IH]; intros st; [done|].
  simpl. by case_match.
Qed.

Lemma history_add_log id tr db :
  history id (add_log tr db) = history id db ++ (if String.eqb (tr_operation_id tr) id then [tr] else []).
Proof. unfold history. simpl. by rewrite List.filter_app. Qed.

Lemma history_set_row id id' op db : history id (set_row id' op db) = history id db.
Proof. done. Qed.

Lemma lifecycle_edge_known a b : lifecycle_edge a b -> b ∈ STATUSES.
Proof.
  intros [(_ & ? & _)%allowed_targets_edge|[_ ->]]; [done|]. unfold STATUSES. simpl. set_solver.
Qed.

Lemma error_summary_safe_same a b :
  status b = status a -> error_summary_of b = error_summary_of a -> error_summary_safe a -> error_summary_safe b.
Proof. unfold error_summary_safe. by intros -> ->. Qed.

Lemma store_step_ok T db db' : store_step T db db' -> store_ok db -> store_ok db'.
Proof.
  intros Hs [Hr Hl]. destruct Hs as [db db' Ho Ht | db id op op' Hid _ (Hi & _ & Hst & Hes & _)
                                    | db id op op' tr Hid _ Hi _ He Hsafe _ (Ht1 & _ & Ht2 & Ht3)].
  - split; [|by rewrite Ht]. intros id op. unfold history. rewrite Ho, Ht. apply Hr.
  - split; [|done]. intros id' op''. rewrite history_set_row. simpl.
    rewrite lookup_insert_Some. intros [[<- <-]|[_ ?]]; [|by apply Hr].
    destruct (Hr _ _ Hid) as (? & ? & Hsf & ?). rewrite Hi, Hst. split_and!; eauto using error_summary_safe_same.
  - split.
    + intros id' op''. rewrite history_add_log, history_set_row, replay_app. simpl.
      rewrite lookup_insert_Some. intros [[<- <-]|[? Hid']].
      * destruct (Hr _ _ Hid) as (? & _ & _ & ->). simpl. rewrite Ht1, String.eqb_refl. simpl.
        rewrite Ht2, String.eqb_refl, Hi, Ht3. split_and!; eauto using lifecycle_edge_known.
      * destruct (Hr _ _ Hid') as (? & ? & ? & ->). simpl. rewrite Ht1.
        apply String.eqb_neq in H as ->. done.
    + simpl. apply Forall_app. split; [done|]. constructor; [|done]. by rewrite Ht2, Ht3.
Qed.

Lemma store_steps_ok T db db' : store_steps T db db' -> store_ok db -> store_ok db'.
Proof. induction 1; eauto using store_step_ok. Qed.

(** A row of a tenant outside the scope is the same row afterwards. *)
Lemma store_step_frame T db db' id op :
  store_step T db db' -> operations db !! id = Some op -> ~ T (tenant_id op) -> operations db' !! id = Some op.
Proof.
  intros Hs Hid Hn. destruct Hs as [? ? Ho _| ? id' op1 op2 Hid' HT | ? id' op1 op2 tr Hid' HT]; simpl.
  - by rewrite Ho.
  - rewrite lookup_insert_ne; [done|]. intros ->. rewrite Hid in Hid'. by simplify_eq.
  - rewrite lookup_insert_ne; [done|]. intros ->. rewrite Hid in Hid'. by simplify_eq.
Qed.

Lemma store_steps_frame T db db' id op :
  store_steps T db db' -> operations db !! id = Some op -> ~ T (tenant_id op) -> operations db' !! id = Some op.
Proof. induction 1; eauto using store_step_frame. Qed.

(** Steps for fewer tenants are steps for more. *)
Lemma store_step_mono (T T' : string -> Prop) db db' :
  (forall t, T t -> T' t) -> store_step T db db' -> store_step T' db db'.
Proof. intros HT []; [by eapply step_side | eapply step_touch | eapply step_move]; eauto. Qed.

Lemma store_steps_mono (T T' : string -> Prop) db db' :
  (forall t, T t -> T' t) -> store_steps T db db' -> store_steps T' db db'.
Proof. intros HT. induction 1; [done|]. eapply rtc_l; eauto using store_step_mono. Qed.

(** Rows sit under their own id. *)
Definition keyed (db : async_db) : Prop := forall id op, operations db !! id = Some op -> operation_id op = id.

Lemma store_ok_keyed db : store_ok db -> keyed db.
Proof. intros [Hr _] id op Hid. by destruct (Hr _ _ Hid). Qed.

Lemma store_step_keyed T db db' : store_step T db db' -> keyed db -> keyed db'.
Proof.
  intros Hs Hk. destruct Hs as [? ? Ho _ | ? ? ? ? Hid _ (Hi & _) | ? ? ? ? ? Hid _ Hi]; intros id' op''; simpl.
  - rewrite Ho. apply Hk.
  - rewrite lookup_insert_Some. intros [[<- <-]|[_ ?]]; [rewrite Hi|]; auto.
  - rewrite lookup_insert_Some. intros [[<- <-]|[_ ?]]; [rewrite Hi|]; auto.
Qed.

Lemma store_steps_keyed T db db' : store_steps T db db' -> keyed db -> keyed db'.
Proof. induction 1; eauto using store_step_keyed. Qed.

(** ** The machine of the whole service *)

(** The move of a retry override: from any status, and without a log row. *)
Definition overridden (op op' : operation) : Prop :=
  operation_id op' = operation_id op /\ tenant_id op' = tenant_id op /\
  manual_intervention_required op = true /\ manual_intervention_required op' = false /\
  status op' = "pending" /\ attempt_count op' = attempt_count op + 1 /\
  error_summary_of op' = error_summary_of op.

(** An operation as it enters the store. *)
Definition fresh_operation (op : operation) : Prop :=
  status op = "pending" /\ attempt_count op = 0 /\ error_summary_of op = None.

(** Beside the steps of the store: an operation that needs manual intervention
    is reset, or a new one is added under an identifier that is free. *)
Inductive service_step (T : string -> Prop) : async_db -> async_db -> Prop :=
| service_store db db' : store_step T db db' -> service_step T db db'
| service_override db db' id op op' :
    operations db !! id = Some op -> T (tenant_id op) -> overridden op op' ->
    operations db' = <[id := op']> (operations db) -> transitions db' = transitions db -> service_step T db db'
| service_create db op :
    operations db !! operation_id op = None -> T (tenant_id op) -> fresh_operation op ->
    service_step T db (set_row (operation_id op) op db).

Notation service_steps T := (rtc (service_step T)).

Lemma store_steps_service T db db' : store_steps T db db' -> service_steps T db db'.
Proof. induction 1; [done|]. eapply rtc_l; eauto using service_store. Qed.

Lemma service_step_keyed T db db' : service_step T db db' -> keyed db -> keyed db'.
Proof.
  intros Hs Hk. destruct Hs as [? ? Hs | ? ? id op op' Hid _ (Hi & _) Ho _ | ? op _ _ _];
    [by eapply store_step_keyed| |]; intros id' op''; simpl; rewrite ?Ho, lookup_insert_Some;
    (intros [[<- <-]|[_ ?]]; [rewrite ?Hi; auto | by apply Hk]).
Qed.

Lemma service_steps_keyed T db db' : service_steps T db db' -> keyed db -> keyed db'.
Proof. induction 1; eauto using service_step_keyed. Qed.

(** No step takes an operation away or hands it to another tenant. *)
Lemma service_step_row T db db' id op :
  service_step T db db' -> operations db !! id = Some op ->
  exists op', operations db' !! id = Some op' /\ tenant_id op' = tenant_id op.
Proof.
  assert (Hset : forall (m : gmap string operation) id' o', m !! id = Some op ->
    (id' = id -> tenant_id o' = tenant_id op) ->
    exists op', <[id' := o']> m !! id = Some op' /\ tenant_id op' = tenant_id op).
  { intros m id' o' Hm Ht. destruct (decide (id' = id)) as [->|]; [exists o'; rewrite lookup_insert_eq; auto|].
    exists op. by rewrite lookup_insert_ne. }
  intros Hs Hop. destruct Hs as [? ? Hs | ? ? id' o o' Hid _ (_ & Ht & _) -> _ | ? o Hid _ _].
  - destruct Hs as [? ? Ho _ | ? id' o o' Hid _ (_ & Ht & _) | ? id' o o' tr Hid _ _ Ht _ _ _ _]; simpl.
    + rewrite Ho. by exists op.
    + apply Hset; [done|]. intros ->. congruence.
    + apply Hset; [done|]. intros ->. congruence.
  - apply Hset; [done|]. intros ->. congruence.
  - simpl. apply Hset; [done|]. intros <-. congruence.
Qed.

Lemma service_steps_row T db db' id op :
  service_steps T db db' -> operations db !! id = Some op ->
  exists op', operations db' !! id = Some op' /\ tenant_id op' = tenant_id op.
Proof.
  intros Hs. revert op. induction Hs as [|db db2 db' H12 _ IH]; intros op Hop; [by exists op|].
  destruct (service_step_row _ _ _ _ _ H12 Hop) as (op2 & Hop2 & Ht2).
  destruct (IH op2 Hop2) as (op' & ? & ?). exists op'. split; [done|congruence].
Qed.

(** ** Programs that perform steps *)

Section does.
Context `{!Platform}.

Definition does (T : string -> Prop) {A} (m : act A) : Prop :=
  forall w, keyed (w_db w) -> store_steps T (w_db w) (w_db (snd (m w))).

Lemma does_ret T {A} (a : A) : does T (mret a).
Proof. intros w _. reflexivity. Qed.
Lemma does_throw T {A} e : does T (throw e : act A).
Proof. intros w _. reflexivity. Qed.
Lemma does_lift T {A} (r : result js_error A) : does T (lift r).
Proof. intros w _. reflexivity. Qed.
Lemma does_now T : does T now_ms.
Proof. intros w _. reflexivity. Qed.
Lemma does_uuid T : does T random_uuid.
Proof. intros w _. reflexivity. Qed.
Lemma does_query T {A} (f : async_db -> A) : does T (query_db f).
Proof. intros w _. reflexivity. Qed.
Lemma does_publish T e : does T (publish e).
Proof. intros w _. unfold publish. case_match; reflexivity. Qed.

(** What a first program returns may satisfy [Q], whatever it changed. *)
Lemma does_bind_post T {A B} (Q : A -> Prop) (m : act A) (f : A -> act B) :
  does T m -> (forall w a w', keyed (w_db w) -> m w = (Ok a, w') -> Q a) ->
  (forall a, Q a -> does T (f a)) -> does T (m ≫= f).
Proof.
  intros Hm HQ Hf w Hw. pose proof (Hm w Hw) as Hs. unfold mbind, M_bind.
  destruct (m w) as [[a|e] w'] eqn:E; simpl in *; [|done]. etrans; [exact Hs|].
  eapply Hf; eauto using store_steps_keyed.
Qed.

Lemma does_bind T {A B} (m : act A) (f : A -> act B) :
  does T m -> (forall a, does T (f a)) -> does T (m ≫= f).
Proof. intros Hm Hf. by apply (does_bind_post T (fun _ => True)). Qed.

Lemma does_bind_lift T {A B} (r : result js_error A) (f : A -> act B) :
  (forall a, r = Ok a -> does T (f a)) -> does T (lift r ≫= f).
Proof.
  intros Hf. apply (does_bind_post T (fun a => r = Ok a)); [apply does_lift| |done].
  by intros w a w' _ [= -> _].
Qed.

Lemma does_try T {A} (m : act A) (h : js_error -> act A) :
  does T m -> (forall e, does T (h e)) -> does T (try_catch m h).
Proof.
  intros Hm Hh w Hw. pose proof (Hm w Hw) as Hs. unfold try_catch.
  destruct (m w) as [[a|e] w']; simpl in *; [done|]. etrans; [exact Hs|].
  apply Hh. eauto using store_steps_keyed.
Qed.

Lemma does_for_fold T {A B} (f : B -> A -> act B) xs b :
  (forall b x, does T (f b x)) -> does T (for_fold f b xs).
Proof.
  intros Hf w Hw. apply (for_fold_inv (fun w' => store_steps T (w_db w) (w_db w'))); [|done].
  intros b' x w' _ Hs. etrans; [exact Hs|]. apply Hf. eauto using store_steps_keyed.
Qed.

(** A statement on the other tables. *)
Lemma does_exec_side T {A} (f : async_db -> A * async_db) :
  (forall db, operations (snd (f db)) = operations db /\ transitions (snd (f db)) = transitions db) ->
  does T (exec_db f).
Proof.
  intros Hf w _. destruct (Hf (w_db w)). unfold exec_db. destruct (f (w_db w)) as [a db']; simpl in *.
  apply rtc_once. by eapply step_side.
Qed.

Lemma does_exec_err_side T {A} (f : async_db -> result js_error (A * async_db)) :
  (forall db a db', f db = Ok (a, db') -> operations db' = operations db /\ transitions db' = transitions db) ->
  does T (exec_db_err f).
Proof.
  intros Hf w _. unfold exec_db_err. destruct (f (w_db w)) as [[a db']|e] eqn:E; simpl; [|reflexivity].
  destruct (Hf _ _ _ E). apply rtc_once. by eapply step_side.
Qed.

Lemma select_operation_some id ten db op :
  select_operation id ten db = Some op <-> operations db !! id = Some op /\ tenant_id op = ten.
Proof.
  unfold select_operation. destruct (operations db !! id) as [o|]; [|naive_solver].
  destruct (String.eqb_spec (tenant_id o) ten); naive_solver.
Qed.

Lemma update_operation_ok id ten (guard : operation -> bool) f db op :
  operations db !! id = Some op -> tenant_id op = ten -> guard op = true ->
  update_operation id ten guard f db = (Some (f op), set_row id (f op) db).
Proof.
  intros Hid Ht Hg. unfold update_operation.
  assert (select_operation id ten db = Some op) as -> by by apply select_operation_some.
  by rewrite Hg.
Qed.

Lemma update_operation_inv id ten guard f db o db' :
  update_operation id ten guard f db = (o, db') ->
  (o = None /\ db' = db) \/
  exists op, operations db !! id = Some op /\ tenant_id op = ten /\ guard op = true /\
    o = Some (f op) /\ db' = set_row id (f op) db.
Proof.
  unfold update_operation. destruct (select_operation id ten db) as [op|] eqn:Hs; [|naive_solver].
  apply select_operation_some in Hs as [? ?]. destruct (guard op) eqn:?; [|naive_solver].
  intros [= <- <-]. right. exists op. done.
Qed.

Lemma does_touch (T : string -> Prop) id ten (f : operation -> operation) :
  T ten -> (forall op, same_lifecycle op (f op)) ->
  does T (exec_db (update_operation id ten (fun _ => true) f)).
Proof.
  intros HT Hf w _. unfold exec_db. destruct (update_operation _ _ _ _ _) as [o db'] eqn:E. simpl.
  apply update_operation_inv in E as [[_ ->]|(op & Hid & <- & _ & _ & ->)]; [reflexivity|].
  apply rtc_once. by eapply step_touch.
Qed.

(** ** The two logged transitions, as equations *)

Lemma applyTransition_shape now op input upd :
  applyTransition now op input = Ok upd ->
  upd = with_transition op (status upd) (error_summary_of upd) (cancellation_reason upd) (cancelled_by upd) (updated_at upd).
Proof.
  unfold applyTransition. rewrite !result_bind_ok. setoid_rewrite result_bind_ok.
  setoid_rewrite result_bind_ok. setoid_rewrite result_bind_ok.
  intros (? & _ & ? & _ & ? & _ & ? & _ & ?). by simplify_eq.
Qed.

Definition transition_log (w : world async_db async_event) (actor : string) (op upd : operation) (meta : jsval) : transition_row :=
  mk_transition_row (uuid (w_uuids w)) (operation_id op) (tenant_id op) actor (status op) (status upd) (updated_at upd) meta.

(** After a read of the clock. *)
Definition ticked (w : world async_db async_event) : world async_db async_event :=
  mk_world (w_db w) (N.succ (w_tick w)) (w_uuids w) (w_published w) (w_events w).

(** After a logged move: one clock reading and one UUID later. *)
Definition moved (w : world async_db async_event) (upd : operation) (tr : transition_row) : world async_db async_event :=
  mk_world (add_log tr (set_row (operation_id upd) upd (w_db w))) (N.succ (w_tick w)) (N.succ (w_uuids w))
    (w_published w) (w_events w).

Lemma transitionOperation_run id ten actor input w op :
  ten <> "" -> actor <> "" ->
  operations (w_db w) !! id = Some op -> operation_id op = id -> tenant_id op = ten ->
  transitionOperation id (Some ten) (Some actor) input w =
  match applyTransition (Z.of_N (clock (w_tick w))) op input with
  | Err e => (Err e, ticked w)
  | Ok upd =>
      let tr := transition_log w actor op upd (json_or_null (transition_metadata upd)) in
      (Ok (upd, tr), moved w upd tr)
  end.
Proof.
  intros Hten Hact Hid Hkey Htid.
  assert (Hsel : select_operation id ten (w_db w) = Some op) by by apply select_operation_some.
  apply String.eqb_neq in Hten, Hact.
  unfold transitionOperation, requireTenantId, requireActorId, throw_if, truthy_str.
  rewrite Hten, Hact. simpl.
  unfold mbind, M_bind, lift, in_transaction, query_db, now_ms. simpl. rewrite Hsel.
  destruct (applyTransition _ op input) as [upd|e] eqn:Ha; [|by destruct w].
  unfold exec_db. simpl. rewrite (update_operation_ok _ _ _ _ _ op) by done.
  apply applyTransition_inv in Ha as Hi. destruct Hi as (_ & _ & _ & _ & _ & _ & Ht & Hop).
  assert (write_transition upd op = upd) as ->
    by (unfold write_transition; by rewrite <- (applyTransition_shape _ _ _ _ Ha)).
  unfold transition_log, moved, random_uuid, insertAsyncOperationTransition, exec_db, set_db, mret, M_ret. simpl.
  by rewrite Hop, Hkey, Htid.
Qed.

Lemma transitionOperation_none id ten actor input w :
  select_operation id (default "" ten) (w_db w) = None ->
  exists e, transitionOperation id ten actor input w = (Err e, w).
Proof.
  intros Hs. unfold transitionOperation, mbind, M_bind, lift.
  destruct (requireTenantId ten) as [?|e]; [|by eexists].
  destruct (requireActorId actor) as [?|e]; [|by eexists].
  unfold in_transaction, query_db. rewrite Hs. simpl. eexists. by destruct w.
Qed.

(** The input [atomicTransitionSystem] builds. *)
Definition system_input (new_status reason : string) (by_ : option string) : transition_input :=
  mk_transition_input (Some new_status)
    (if String.eqb new_status "failed"
     then Some (mk_error_summary (Some "ASYNC_OPERATION_RECOVERED") (Some reason) (Some "system-recovery"))
     else None)
    (if String.eqb new_status "cancelling" || String.eqb new_status "timed_out" then Some reason else None)
    (if truthy_str by_ then by_ else None).

(** The row it stores: an absent reason or canceller keeps the stored one. *)
Definition system_update (op upd : operation) : operation :=
  with_transition op (status upd) (error_summary_of upd)
    (first_some (cancellation_reason upd) (cancellation_reason op))
    (first_some (cancelled_by upd) (cancelled_by op)) (updated_at upd).

Definition system_metadata (op upd : operation) (reason : string) (by_ : option string) : jsval :=
  JObj ([("reason", JStr reason)]
    ++ opt_field "error_summary" (es_json <$> error_summary_of upd)
    ++ str_field "cancellation_reason" (first_some (cancellation_reason upd) (cancellation_reason op))
    ++ str_field "cancelled_by" (first_some (first_some (cancelled_by upd) (cancelled_by op)) by_)).

Lemma atomicTransitionSystem_run id ten new_status reason by_ w op :
  ten <> "" -> operations (w_db w) !! id = Some op -> operation_id op = id -> tenant_id op = ten ->
  atomicTransitionSystem id (Some ten) new_status reason by_ w =
  match applyTransition (Z.of_N (clock (w_tick w))) op (system_input new_status reason by_) with
  | Err e => (Err e, ticked w)
  | Ok upd =>
      let row := system_update op upd in
      let tr := transition_log w "system" op row (system_metadata op upd reason by_) in
      (Ok (row, tr), moved w row tr)
  end.
Proof.
  intros Hten Hid Hkey Htid.
  assert (Hsel : select_operation id ten (w_db w) = Some op) by by apply select_operation_some.
  apply String.eqb_neq in Hten.
  unfold atomicTransitionSystem, requireTenantId, throw_if, truthy_str.
  rewrite Hten. simpl.
  unfold mbind, M_bind, lift, in_transaction, query_db, now_ms. simpl. rewrite Hsel.
  fold (system_input new_status reason by_).
  destruct (applyTransition _ op _) as [upd|e] eqn:Ha; [|by destruct w].
  unfold exec_db. simpl. rewrite (update_operation_ok _ _ _ _ _ op) by done.
  unfold transition_log, moved, random_uuid, insertAsyncOperationTransition, exec_db, set_db, mret, M_ret. simpl.
  by rewrite Hkey, Htid.
Qed.

Lemma atomicTransitionSystem_none id ten st reason by_ w :
  select_operation id (default "" ten) (w_db w) = None ->
  exists e, atomicTransitionSystem id ten st reason by_ w = (Err e, w).
Proof.
  intros Hs. unfold atomicTransitionSystem, mbind, M_bind, lift.
  destruct (requireTenantId ten) as [?|e]; [|by eexists].
  unfold in_transaction, query_db. rewrite Hs. simpl. eexists. by destruct w.
Qed.

(** ** Every logged transition is one step *)

Lemma with_transition_attempts op st es r b now :
  st ∈ allowed_targets (status op) ->
  attempt_count (with_transition op st es r b now) =
  attempt_count op + (if String.eqb (status (with_transition op st es r b now)) "pending" then 1 else 0).
Proof.
  intros (_ & _ & Hr)%allowed_targets_edge. simpl. destruct (String.eqb_spec st "pending") as [->|]; [|lia].
  unfold status_rank in Hr at 2. simpl in Hr. lia.
Qed.

Lemma moved_step (T : string -> Prop) w id op st es r b now actor meta :
  operations (w_db w) !! id = Some op -> operation_id op = id -> T (tenant_id op) ->
  st ∈ allowed_targets (status op) -> error_summary_safe (with_transition op st es r b now) ->
  let upd := with_transition op st es r b now in
  store_step T (w_db w) (w_db (moved w upd (transition_log w actor op upd meta))).
Proof.
  intros Hid Hkey HT Hst Hsafe upd. unfold moved. simpl. rewrite Hkey.
  eapply (step_move T _ id op upd); try done; [by left | by apply with_transition_attempts].
Qed.

Lemma does_transitionOperation (T : string -> Prop) id ten actor input :
  T (default "" ten) -> does T (transitionOperation id ten actor input).
Proof.
  intros HT w Hk.
  destruct (select_operation id (default "" ten) (w_db w)) as [op|] eqn:Hs.
  2:{ destruct (transitionOperation_none _ _ actor input _ Hs) as [e ->]. reflexivity. }
  apply select_operation_some in Hs as [Hid Ht].
  destruct (requireTenantId ten) as [?|?] eqn:H1; [|unfold transitionOperation; rewrite H1; reflexivity].
  destruct (requireActorId actor) as [?|?] eqn:H2; [|unfold transitionOperation; rewrite H1, H2; reflexivity].
  apply throw_if_ok, negb_false_iff, truthy_str_true in H1 as (ten' & -> & ?), H2 as (who & -> & ?).
  rewrite (transitionOperation_run _ _ _ _ _ op); auto.
  destruct (applyTransition _ _ _) as [upd|e] eqn:Ha; [|reflexivity]. simpl.
  pose proof (applyTransition_safe _ _ _ _ Ha) as Hsafe. pose proof (applyTransition_shape _ _ _ _ Ha) as Hshape.
  apply applyTransition_inv in Ha as (? & _ & He & _ & <- & _). rewrite Hshape in Hsafe |- *.
  apply rtc_once. apply (moved_step T w id); auto. by rewrite Ht.
Qed.

Lemma does_atomicTransitionSystem (T : string -> Prop) id ten st reason by_ :
  T (default "" ten) -> does T (atomicTransitionSystem id ten st reason by_).
Proof.
  intros HT w Hk.
  destruct (select_operation id (default "" ten) (w_db w)) as [op|] eqn:Hs.
  2:{ destruct (atomicTransitionSystem_none _ _ st reason by_ _ Hs) as [e ->]. reflexivity. }
  apply select_operation_some in Hs as [Hid Ht].
  destruct (requireTenantId ten) as [?|?] eqn:H1; [|unfold atomicTransitionSystem; rewrite H1; reflexivity].
  apply throw_if_ok, negb_false_iff, truthy_str_true in H1 as (ten' & -> & ?).
  rewrite (atomicTransitionSystem_run _ _ _ _ _ _ op); auto.
  destruct (applyTransition _ _ _) as [upd|e] eqn:Ha; [|reflexivity]. simpl.
  pose proof (applyTransition_safe _ _ _ _ Ha) as Hsafe.
  apply applyTransition_inv in Ha as (? & _ & He & _ & <- & _).
  apply rtc_once. unfold system_update. apply (moved_step T w id); auto. by rewrite Ht.
Qed.

(** What a transition returns belongs to the tenant it was asked for. *)
Lemma transitionOperation_tenant id ten actor input w op tr w' :
  keyed (w_db w) -> transitionOperation id ten actor input w = (Ok (op, tr), w') ->
  Some (tenant_id op) = ten /\ operation_id op = id.
Proof.
  intros Hk E.
  destruct (select_operation id (default "" ten) (w_db w)) as [cur|] eqn:Hs.
  2:{ destruct (transitionOperation_none _ _ actor input _ Hs) as [e He]. congruence. }
  apply select_operation_some in Hs as [Hid Ht].
  destruct (requireTenantId ten) as [?|?] eqn:H1; [|unfold transitionOperation in E; rewrite H1 in E; done].
  destruct (requireActorId actor) as [?|?] eqn:H2; [|unfold transitionOperation in E; rewrite H1, H2 in E; done].
  apply throw_if_ok, negb_false_iff, truthy_str_true in H1 as (ten' & -> & ?), H2 as (who & -> & ?).
  rewrite (transitionOperation_run _ _ _ _ _ cur) in E by auto.
  destruct (applyTransition _ _ _) as [upd|e] eqn:Ha; [|done].
  apply applyTransition_inv in Ha as (? & _ & _ & _ & _ & _ & Ht' & Hi).
  injection E as <- _ _. rewrite Ht', Hi. split; [by f_equal | auto].
Qed.

End does.

#[export] Hint Resolve does_ret does_throw does_lift does_now does_uuid does_query does_publish : falcone.
