(* ===== verification/AsyncProofs.v ===== *)
(** * The handlers implement the abstract store

    The transition, cancel and retry handlers of [AsyncActions] and its two
    sweeps perform steps of [AsyncSpec]'s machine, in the scope of their caller;
    the theorems on sequences of such requests follow.  The retry override
    performs a step of the wider machine; the creation is in [AsyncCreateProofs]. *)
From S2P Require Import Prelude JsValue Platform AsyncOperation FailureClassification AsyncRepo AsyncActions AsyncSpec.
From stdpp Require Import sorting.
Local Open Scope Z_scope.

(** ** Requests *)

Inductive request :=
| ReqTransition (c : caller) (operation_id : string) (tenant new_status : option string) (es : option error_summary)
| ReqCancel (c : caller) (operation_id tenant reason : option string)
| ReqRetry (setting : option string) (c : caller) (operation_id : string) (tenant : option string) (metadata : jsval)
| ReqTimeoutSweep
| ReqOrphanSweep.

(** The tenants a request may write for. *)
Definition caller_scope (c : caller) (t : string) : Prop := is_superadmin c = true \/ ca_tenant c = Some t.
Definition request_scope (r : request) : string -> Prop :=
  match r with
  | ReqTransition c _ _ _ _ | ReqCancel c _ _ _ | ReqRetry _ c _ _ _ => caller_scope c
  | ReqTimeoutSweep | ReqOrphanSweep => fun _ => True
  end.

Section proofs.
Context `{!Platform}.

Definition discard {A} (m : act A) : act unit := m ≫= fun _ => mret tt.

Definition serve (r : request) : act unit :=
  match r with
  | ReqTransition c oid t st es => discard (transition_main c oid t st es)
  | ReqCancel c oid t why => discard (cancel_main c oid t why)
  | ReqRetry setting c oid t meta => discard (retry_main setting c oid t meta)
  | ReqTimeoutSweep => discard timeout_sweep
  | ReqOrphanSweep => discard orphan_sweep
  end.

(** A run of the service: a failed request does not stop the next one. *)
Fixpoint run_requests (rs : list request) (w : world async_db async_event) : world async_db async_event :=
  match rs with
  | [] => w
  | r :: rs' => run_requests rs' (snd (serve r w))
  end.

(** ** The handlers perform steps *)

Ltac does_step :=
  match goal with
  | |- does _ (lift _ ≫= _) => apply does_bind_lift; intros ? ?
  | |- does _ (_ ≫= _) => apply does_bind; [|intros ?]
  | |- does _ (try_catch _ _) => apply does_try; [|intros ?]
  | |- does _ (for_fold _ _ _) => apply does_for_fold; intros ? ?
  | |- does _ (match ?x with _ => _ end) => destruct x eqn:?
  | |- does _ _ => solve [eauto with falcone]
  end.
Ltac does_tac := repeat does_step.

Lemma is_superadmin_type c : is_type "superadmin" c = true -> is_superadmin c = true.
Proof. unfold is_superadmin. intros ->. apply orb_true_r. Qed.

Lemma resolveTenantScope_scope c ten t : resolveTenantScope c ten = Ok t -> caller_scope c t.
Proof.
  unfold resolveTenantScope, caller_scope. destruct (is_type "superadmin" c) eqn:Hs.
  - intros _. left. by apply is_superadmin_type.
  - destruct (ca_tenant c) as [t'|]; simpl; [|done]. case_match; [done|]. case_match; [done|].
    intros [= ->]. by right.
Qed.

Lemma does_updateFailureClassification (T : string -> Prop) id c ten :
  T (default "" ten) -> does T (updateFailureClassification id c ten).
Proof.
  intros HT. unfold updateFailureClassification. does_tac. apply does_touch; [done|]. by intros.
Qed.

Lemma does_setManualInterventionRequired (T : string -> Prop) id b ten :
  T (default "" ten) -> does T (setManualInterventionRequired id b ten).
Proof.
  intros HT. unfold setManualInterventionRequired. does_tac. apply does_touch; [done|]. by intros.
Qed.

Lemma does_createManualInterventionFlag T f : does T (createManualInterventionFlag f).
Proof.
  apply does_exec_err_side. intros db a db'. case_match; [done|]. by intros [= <- <-].
Qed.

Lemma does_createRetryAttemptRow T a : does T (createRetryAttemptRow a).
Proof.
  unfold createRetryAttemptRow. does_tac. apply does_exec_err_side.
  intros db a' db'. case_match; [done|]. by intros [= <- <-].
Qed.

Lemma does_classify (T : string -> Prop) op es : T (tenant_id op) -> does T (classifyFailureForOperation op es).
Proof.
  intros HT. unfold classifyFailureForOperation. apply does_bind.
  - apply does_exec_side. intros db. by destruct (mapping_cache db).
  - intros. does_tac. by apply does_updateFailureClassification.
Qed.

Lemma does_intervene (T : string -> Prop) op c : T (tenant_id op) -> does T (maybeMarkManualIntervention op c).
Proof.
  intros HT. unfold maybeMarkManualIntervention, findByOperationType, findDefault. does_tac.
  - by apply does_setManualInterventionRequired.
  - apply does_createManualInterventionFlag.
Qed.

Lemma does_transition_main c oid ten st es : does (caller_scope c) (transition_main c oid ten st es).
Proof.
  unfold transition_main. case_match; [eauto with falcone|].
  apply does_bind_lift. intros tid Ht%resolveTenantScope_scope. apply does_bind_lift. intros sum _.
  apply does_try; [|eauto with falcone].
  apply (does_bind_post _ (fun p => caller_scope c (tenant_id (fst p)))).
  - by apply does_transitionOperation.
  - intros w [op tr] w' Hk E. apply transitionOperation_tenant in E as [[= <-] _]; done.
  - intros [op tr] HT. simpl in HT. does_tac; auto using does_classify, does_intervene.
Qed.

Lemma does_findById T id ten : does T (findById id ten).
Proof. unfold findById. does_tac. Qed.

Lemma findById_post id ten w o w' : findById id ten w = (Ok (Some o), w') -> Some (tenant_id o) = ten.
Proof.
  unfold findById, mbind, M_bind, lift, query_db. destruct (requireTenantId ten) as [?|?] eqn:E1; [|done].
  apply throw_if_ok, negb_false_iff, truthy_str_true in E1 as (t & -> & _).
  intros [= [_ ->]%select_operation_some _]. done.
Qed.

Lemma does_cancel_main c oid ten why : does (caller_scope c) (cancel_main c oid ten why).
Proof.
  unfold cancel_main. apply does_try; [|eauto with falcone].
  destruct (_ || negb (truthy_str (ca_actor_id c))); [eauto with falcone|].
  apply does_bind.
  - unfold findByIdAnyTenant. case_match; auto using does_findById with falcone.
  - intros [op|]; [|eauto with falcone]. destruct (negb (is_superadmin c) && _) eqn:Hiso; [eauto with falcone|].
    destruct (isCancellable _); simpl; [|eauto with falcone].
    apply does_bind; [|intros []; does_tac]. apply does_transitionOperation. simpl. unfold caller_scope.
    destruct (is_superadmin c); [by left|right].
    simpl in Hiso. by apply negb_false_iff, bool_decide_eq_true in Hiso.
Qed.

(** The guarded reset of a failed operation, with its log row, is one step. *)
Lemma does_retry_transaction (T : string -> Prop) op c a :
  T (tenant_id op) -> status op = "failed" -> does T (retry_transaction op c a).
Proof.
  intros HT Hst w Hk. unfold retry_transaction, in_transaction.
  unfold mbind, M_bind, lift.
  pose proof (does_createRetryAttemptRow T a w Hk) as Hside.
  destruct (createRetryAttemptRow a w) as [[a'|e] w1] eqn:E1; [|reflexivity]. simpl in Hside.
  pose proof (store_steps_keyed _ _ _ Hside Hk) as Hk1. unfold atomicResetToRetry, mbind, M_bind, lift.
  destruct (requireTenantId _); [|reflexivity].
  unfold now_ms, exec_db. simpl.
  destruct (update_operation _ _ _ _ _) as [o db'] eqn:E2. simpl.
  apply update_operation_inv in E2 as [[-> ->]|(cur & Hid & Hten & Hg & -> & ->)]; [reflexivity|].
  simpl. unfold insertAsyncOperationTransition, exec_db, random_uuid, mret, M_ret. simpl.
  etrans; [exact Hside|]. apply rtc_once. apply String.eqb_eq in Hg.
  eapply (step_move _ _ _ cur); try done; [by rewrite Hten | by right |].
  unfold logs_move. simpl. by rewrite Hten, Hst.
Qed.

Lemma does_retry_main setting c oid ten meta : does (caller_scope c) (retry_main setting c oid ten meta).
Proof.
  unfold retry_main. apply does_bind_lift. intros _ _. apply does_try; [|eauto with falcone].
  apply does_bind.
  { unfold loadOperation, findByIdAnyTenant, findByIdWithTenant. case_match; auto using does_findById with falcone. }
  intros found. apply does_bind_lift. intros op Hop.
  assert (HT : caller_scope c (tenant_id op)).
  { unfold assertTenantAccess in Hop. destruct found as [o|]; [|done]. unfold caller_scope.
    destruct (is_type "superadmin" c) eqn:Hs; [left; by apply is_superadmin_type|right].
    case_match; [done|]. case_match eqn:Ht; [done|].
    apply negb_false_iff, bool_decide_eq_true in Ht. by simplify_eq. }
  unfold findFlagByOperationId, new_attempt. does_tac.
  apply does_retry_transaction; [done|]. by apply String.eqb_eq, negb_false_iff.
Qed.

Lemma does_sweep_step T m acc op : does T (m op) -> does T (sweep_step m acc op).
Proof. intros Hm. unfold sweep_step. does_tac. Qed.

Lemma does_timeout_sweep : does (fun _ => True) timeout_sweep.
Proof.
  unfold timeout_sweep, findTimedOutCandidates. does_tac. apply does_sweep_step. does_tac.
  by apply does_atomicTransitionSystem.
Qed.

Lemma does_orphan_sweep : does (fun _ => True) orphan_sweep.
Proof.
  unfold orphan_sweep, findOrphanCandidates, findStaleCancellingCandidates. does_tac;
    apply does_sweep_step; unfold recover_orphan, force_cancel; does_tac; by apply does_atomicTransitionSystem.
Qed.

Lemma does_serve r : does (request_scope r) (serve r).
Proof.
  destruct r; simpl; unfold discard; apply does_bind; auto with falcone;
    auto using does_transition_main, does_cancel_main, does_retry_main, does_timeout_sweep, does_orphan_sweep.
Qed.

Lemma run_requests_steps rs w :
  keyed (w_db w) ->
  store_steps (fun t => exists r, r ∈ rs /\ request_scope r t) (w_db w) (w_db (run_requests rs w)).
Proof.
  revert w. induction rs as [|r rs IH]; intros w Hk; simpl; [reflexivity|].
  pose proof (does_serve r w Hk) as Hs. etrans.
  - eapply store_steps_mono; [|exact Hs]. intros t Ht. exists r. split; [set_solver | exact Ht].
  - eapply store_steps_mono; [|apply IH; eauto using store_steps_keyed].
    intros t (r' & ? & ?). exists r'. split; [set_solver | done].
Qed.

(** ** The retry override *)

Definition same_rows (db db' : async_db) : Prop :=
  operations db' = operations db /\ transitions db' = transitions db.

(** A program that leaves the operations alone, and what runs after it. *)
Lemma after_quiet {A B} db0 (Q : async_db -> Prop) (m : act A) (f : A -> act B) (w : world async_db async_event) :
  (forall db', same_rows db0 db' -> Q db') -> keeps (same_rows db0) m -> same_rows db0 (w_db w) ->
  (forall a w', m w = (Ok a, w') -> same_rows db0 (w_db w') -> Q (w_db (snd (f a w')))) ->
  Q (w_db (snd ((m ≫= f) w))).
Proof.
  intros Hq Hm H0 Hf. pose proof (Hm w H0) as Hs. unfold mbind, M_bind.
  destruct (m w) as [[a|e] w'] eqn:E; cbn in *; [by apply Hf|by apply Hq].
Qed.

Lemma keeps_rows_attempt db a : keeps (same_rows db) (createRetryAttemptRow a).
Proof.
  unfold createRetryAttemptRow. keeps_tac. apply keeps_exec_err. intros db1 a' db2 Hs. case_match; [done|].
  by intros [= _ <-].
Qed.

Lemma keeps_rows_new_attempt db op c meta : keeps (same_rows db) (new_attempt op c meta).
Proof. unfold new_attempt. keeps_tac. Qed.

Lemma keeps_rows_override db o : keeps (same_rows db) (createIfNotInProgress o).
Proof.
  unfold createIfNotInProgress. keeps_tac. apply keeps_exec. intros db1 Hs. by case_match.
Qed.

Lemma override_transaction_effect db0 op f c a (w : world async_db async_event) id :
  operations db0 !! id = Some op -> operation_id op = id -> manual_intervention_required op = true ->
  same_rows db0 (w_db w) ->
  let db' := w_db (snd (override_transaction op f c a w)) in
  same_rows db0 db' \/
  exists op', overridden op op' /\ operations db' = <[id := op']> (operations db0) /\ transitions db' = transitions db0.
Proof.
  intros Hid Hkey Hman H0. unfold override_transaction, in_transaction, resolveFlag. unfold mbind, M_bind.
  pose proof (keeps_rows_attempt db0 a w H0) as [Ho Ht].
  destruct (createRetryAttemptRow a w) as [[a'|e] w1]; [|by left]. cbn in Ho, Ht. right.
  unfold now_ms, exec_db, set_db. cbn [fst snd w_db].
  rewrite (update_operation_ok _ _ _ _ _ op) by (rewrite ?Ho; congruence). cbn. rewrite Ho, Ht, Hkey.
  eexists. split; [|by split]. by split_and!.
Qed.

(** No part of an override writes a log row. *)
Lemma keeps_log_override L c id ten why : keeps (fun db => transitions db = L) (retry_override_main c id ten why).
Proof.
  unfold retry_override_main, findByIdWithTenant, findById, findFlagByOperationId, createIfNotInProgress, new_attempt,
    override_transaction, createRetryAttemptRow, resolveFlag.
  keeps_tac; first [apply keeps_exec | apply keeps_exec_err].
  - intros db Hs. by case_match.
  - intros db a' db' Hs. case_match; [done|]. by intros [= _ <-].
  - intros db Hs. destruct (update_operation _ _ _ _ db) as [row db2] eqn:E.
    by apply update_operation_inv in E as [[_ ->]|(? & _ & _ & _ & _ & ->)].
  - done.
Qed.

Lemma findByIdWithTenant_post id ten (w : world async_db async_event) o w' :
  findByIdWithTenant id ten w = (Ok (Some o), w') -> operations (w_db w') !! id = Some o /\ Some (tenant_id o) = ten.
Proof.
  unfold findByIdWithTenant, findById, mbind, M_bind, lift, query_db. destruct (requireTenantId ten) eqn:E; [|done].
  apply throw_if_ok, negb_false_iff, truthy_str_true in E as (t & -> & _).
  intros [= [Ho <-]%select_operation_some <-]. done.
Qed.

Lemma override_performs c id ten why (w : world async_db async_event) : keyed (w_db w) ->
  service_steps (fun t => is_type "superadmin" c = true /\ ten = Some t) (w_db w)
    (w_db (snd (retry_override_main c id ten why w))).
Proof.
  intros Hk. set (Q := service_steps _ (w_db w)).
  assert (Hq : forall db', same_rows (w_db w) db' -> Q db').
  { intros db' [Ho Ht]. apply rtc_once, service_store. by apply step_side. }
  unfold retry_override_main. destruct (is_type "superadmin" c) eqn:Hc; [|by apply Hq]. cbn [negb].
  apply (after_quiet (w_db w)); [exact Hq|unfold findByIdWithTenant, findById; keeps_tac|done|].
  intros [op|] w1 Hf H1; [|by apply Hq]. apply findByIdWithTenant_post in Hf as [Hop Hten].
  rewrite (proj1 H1) in Hop.
  destruct (manual_intervention_required op) eqn:Hman; [|by apply Hq]. cbn [negb].
  apply (after_quiet (w_db w)); [exact Hq|unfold findFlagByOperationId; keeps_tac|done|].
  intros [f|] w2 _ H2; [|by apply Hq]. destruct (String.eqb _ _); [by apply Hq|].
  do 3 (apply (after_quiet (w_db w)); [exact Hq|keeps_tac|done|]; intros ? ? _ ?).
  apply (after_quiet (w_db w)); [exact Hq|apply keeps_rows_override|done|].
  intros [existing|o] w3 _ Hw3; [by apply Hq|].
  apply (after_quiet (w_db w)); [exact Hq|apply keeps_rows_new_attempt|done|]. intros a' w4 _ Hw4.
  unfold mbind at 1, M_bind at 1.
  destruct (override_transaction_effect (w_db w) op f c a' w4 id Hop (Hk _ _ Hop) Hman Hw4) as [H5|(op' & H5 & H6 & H7)];
    destruct (override_transaction op f c a' w4) as [[[]|e] w5]; cbn [fst snd] in *; try (by apply Hq).
  - pose proof (keeps_publish (same_rows (w_db w)) (RetryOverridden o (ra_correlation_id a')) w5 H5) as H8.
    unfold mbind, M_bind. destruct (publish _ w5) as [[?|?] ?]; by apply Hq.
  - assert (HQ : forall db', operations db' = operations (w_db w5) -> transitions db' = transitions (w_db w5) -> Q db').
    { intros db' E1 E2. apply rtc_once. apply (service_override _ _ _ id op op'); [done|by split|done|congruence|congruence]. }
    pose proof (keeps_publish (same_rows (w_db w5)) (RetryOverridden o (ra_correlation_id a')) w5 (conj eq_refl eq_refl)) as H8.
    unfold mbind, M_bind. destruct (publish _ w5) as [[?|?] ?]; apply HQ; apply H8.
  - apply rtc_once. by apply (service_override _ _ _ id op op').
Qed.

End proofs.

(** ** A concrete platform and store for the examples *)

Definition sample_platform : Platform :=
  {| clock := fun n => (3600000 + n)%N; uuid := fun n => "uuid-" +:+ show_N n; broker := fun _ => None |}.

Definition sample_db (op : operation) : async_db :=
  mk_async_db {[operation_id op := op]} [] [] [] [] [] [] [] None.

Definition sample_world (op : operation) : world async_db async_event := mk_world (sample_db op) 0 0 0 [].

Definition tenant_caller (tenant : string) : caller :=
  mk_caller (Some "usr-1") (Some "tenant_owner") (Some tenant) [] None None.

Lemma sample_store_ok : store_ok (sample_db (sample_operation "pending")).
Proof.
  split; [|constructor]. intros id op. simpl. rewrite lookup_singleton_Some. intros [<- <-].
  split_and!; [done | vm_compute; set_solver | done | done].
Defined.

(** ** The ledger of attempts *)

Definition retry_rows (rows : list transition_row) : Z :=
  Z.of_nat (length (List.filter (fun r => String.eqb (tr_new_status r) "pending") rows)).

Lemma retry_rows_app a b : retry_rows (a ++ b) = retry_rows a + retry_rows b.
Proof. unfold retry_rows. rewrite List.filter_app, length_app. lia. Qed.

Definition ledger (id : string) (n : Z) (db : async_db) : Prop :=
  exists op, operations db !! id = Some op /\ attempt_count op = n + retry_rows (history id db).

Lemma store_step_ledger T id n db db' : store_step T db db' -> ledger id n db -> ledger id n db'.
Proof.
  intros Hs (op & Hid & Hn). destruct Hs as [? ? Ho Ht | ? id' op1 op2 Hid' _ (_ & _ & _ & _ & Ha)
                                            | ? id' op1 op2 tr Hid' _ _ _ _ _ Ha (Ht1 & _ & _ & Ht3)].
  - exists op. unfold history. by rewrite Ho, Ht.
  - unfold ledger. rewrite history_set_row. simpl. destruct (decide (id' = id)) as [->|].
    + exists op2. rewrite lookup_insert_eq. simplify_eq. split; [done | congruence].
    + exists op. by rewrite lookup_insert_ne.
  - unfold ledger. rewrite history_add_log, history_set_row, retry_rows_app, Ht1. simpl.
    destruct (decide (id' = id)) as [->|Hne].
    + exists op2. rewrite lookup_insert_eq, String.eqb_refl. simplify_eq. split; [done|].
      unfold retry_rows at 2. simpl. rewrite Ht3. destruct (String.eqb _ _); simpl; lia.
    + exists op. rewrite lookup_insert_ne by done. apply String.eqb_neq in Hne as ->.
      split; [done|]. unfold retry_rows at 2. simpl. lia.
Qed.

Lemma store_steps_ledger T id n db db' : store_steps T db db' -> ledger id n db -> ledger id n db'.
Proof. induction 1; eauto using store_step_ledger. Qed.

Lemma store_step_log T db db' : store_step T db db' -> exists rows, transitions db' = transitions db ++ rows.
Proof. intros []; simpl; [exists []|exists []|exists [tr]]; by rewrite ?app_nil_r. Qed.

Lemma store_steps_log T db db' : store_steps T db db' -> exists rows, transitions db' = transitions db ++ rows.
Proof.
  induction 1 as [db|db db1 db2 Hs%store_step_log _ [rows IH]]; [exists []; by rewrite app_nil_r|].
  destruct Hs as [r0 Hr]. exists (r0 ++ rows). by rewrite IH, Hr, app_assoc.
Qed.

(** ** Properties *)

(** C1: the audit trail is complete.  From a well-formed store, after any
    sequence of requests, the log of every operation still replays, from
    [pending] and along legal edges, to the status the operation has, and only
    failed operations carry an error summary, free of sensitive text. *)
Theorem audit_trail_replays `{!Platform} (rs : list request) (w : world async_db async_event) :
  store_ok (w_db w) -> store_ok (w_db (run_requests rs w)).
Proof.
  intros Hok. eapply store_steps_ok; [|exact Hok]. apply run_requests_steps. by apply store_ok_keyed.
Qed.

Definition sample_run : list request :=
  [ReqTransition (tenant_caller "ten-1") "op-1" None (Some "running") None;
   ReqTransition (tenant_caller "ten-1") "op-1" None (Some "failed") (Some (mk_error_summary (Some "E") (Some "no capacity") None));
   ReqRetry None (tenant_caller "ten-1") "op-1" None JUndef;
   ReqTransition (tenant_caller "ten-1") "op-1" None (Some "completed") None].

Lemma audit_trail_replays_witness :
  (fun r => (tr_previous_status r, tr_new_status r)) <$>
    history "op-1" (w_db (@run_requests sample_platform sample_run (sample_world (sample_operation "pending"))))
  = [("pending", "running"); ("running", "failed"); ("failed", "pending")] /\
  store_ok (w_db (@run_requests sample_platform sample_run (sample_world (sample_operation "pending")))).
Proof.
  split; [vm_compute; reflexivity|]. apply (@audit_trail_replays sample_platform). exact sample_store_ok.
Defined.

(** C35: tenants are isolated.  A sequence of requests none of whose callers is
    a superadmin or a member of the operation's tenant, and no sweep, leaves the
    operation exactly as it was. *)
Theorem tenant_isolation `{!Platform} (rs : list request) (w : world async_db async_event) (id : string) (op : operation) :
  keyed (w_db w) -> operations (w_db w) !! id = Some op ->
  (forall r, r ∈ rs -> ~ request_scope r (tenant_id op)) ->
  operations (w_db (run_requests rs w)) !! id = Some op.
Proof.
  intros Hk Hid Hn. eapply store_steps_frame; [by apply run_requests_steps | exact Hid|].
  intros (r & Hr & HT). by apply (Hn r).
Qed.

Lemma tenant_isolation_witness :
  operations (w_db (@run_requests sample_platform
    [ReqCancel (tenant_caller "ten-2") (Some "op-1") (Some "ten-1") None;
     ReqTransition (tenant_caller "ten-2") "op-1" (Some "ten-1") (Some "running") None]
    (sample_world (sample_operation "pending")))) !! "op-1" = Some (sample_operation "pending").
Proof.
  apply (@tenant_isolation sample_platform).
  - exact (store_ok_keyed _ sample_store_ok).
  - vm_compute. reflexivity.
  - intros r [->|[->|[]%elem_of_nil]%elem_of_cons]%elem_of_cons [Hs|[=]]; vm_compute in Hs; discriminate.
Defined.

(** Attempts are accounted for.  The log is append-only, and after any
    sequence of requests an operation has gained exactly as many attempts as
    its log has gained returns to [pending]. *)
Theorem attempts_match_log `{!Platform} (rs : list request) (w : world async_db async_event) (id : string) (op : operation) :
  keyed (w_db w) -> operations (w_db w) !! id = Some op ->
  let w' := run_requests rs w in
  (exists rows, transitions (w_db w') = transitions (w_db w) ++ rows) /\
  exists op', operations (w_db w') !! id = Some op' /\
    attempt_count op' - attempt_count op =
    retry_rows (history id (w_db w')) - retry_rows (history id (w_db w)).
Proof.
  intros Hk Hid w'. pose proof (run_requests_steps rs w Hk) as Hs. split; [by eapply store_steps_log|].
  destruct (store_steps_ledger _ id (attempt_count op - retry_rows (history id (w_db w))) _ _ Hs) as (op' & ? & ?).
  { exists op. split; [done|lia]. }
  exists op'. split; [done|]. unfold w' in *. lia.
Qed.

Lemma attempts_match_log_witness :
  exists op', operations (w_db (@run_requests sample_platform sample_run (sample_world (sample_operation "pending")))) !! "op-1" = Some op' /\
    attempt_count op' - 0 =
    retry_rows (history "op-1" (w_db (@run_requests sample_platform sample_run (sample_world (sample_operation "pending"))))) - 0.
Proof.
  apply (@attempts_match_log sample_platform sample_run (sample_world (sample_operation "pending")) "op-1" (sample_operation "pending")).
  - exact (store_ok_keyed _ sample_store_ok).
  - vm_compute. reflexivity.
Defined.
