(* ===== verification/AsyncBehaviour.v ===== *)
(** * What each asynchronous-operation handler does

    The outcome of the cancel, sweep, retry and retry-override handlers on every
    branch, as equations on the tables, the response and the events. *)
From S2P Require Import Prelude JsValue Platform AsyncOperation FailureClassification AsyncRepo AsyncActions AsyncSpec AsyncProofs.
From stdpp Require Import sorting.
Local Open Scope Z_scope.

Section behaviour.
Context `{!Platform}.

(** ** When the system transition is accepted *)

Lemma allowed_nonempty cur st : st ∈ allowed_targets cur -> cur <> "" /\ st <> "".
Proof.
  intros (Hc & Hs & _)%allowed_targets_edge.
  split; intros ->; revert Hc Hs; unfold STATUSES, VALID_TRANSITIONS; simpl; rewrite !elem_of_cons, !elem_of_nil; intuition discriminate.
Qed.

Lemma applyTransition_accepts now op input st :
  ti_new_status input = Some st -> st ∈ allowed_targets (status op) ->
  (st = "failed" -> validateErrorSummary (ti_error_summary input) = Ok tt) ->
  exists upd, applyTransition now op input = Ok upd.
Proof.
  intros Hst Ha Hes. destruct (allowed_nonempty _ _ Ha) as [Hc Hs].
  unfold applyTransition. apply nonempty_true in Hc, Hs. rewrite Hc, Hst. simpl.
  unfold nonempty in Hs. rewrite Hs. simpl.
  apply (validateTransition_ok _ _ tt) in Ha. rewrite Ha. simpl.
  destruct (String.eqb_spec st "failed"); [rewrite Hes by done|]; eexists; reflexivity.
Qed.

Lemma applyTransition_rejects now op input st :
  ti_new_status input = Some st -> st ∉ allowed_targets (status op) ->
  exists e, applyTransition now op input = Err e.
Proof.
  intros Hst Hn. destruct (applyTransition now op input) as [upd|e] eqn:E; [|by eexists].
  apply applyTransition_inv in E as (next & ? & ? & _). by simplify_eq.
Qed.

(** ** One step of a sweep *)

(** What a sweep towards [st] makes of a candidate: moved, or left alone. *)
Definition sweep_target (st : string) (op : operation) : option string :=
  if str_in st (allowed_targets (status op)) then Some st else None.

Definition sweeps_to (st : string) (m : operation -> act unit) : Prop :=
  forall c w, keyed (w_db w) -> operations (w_db w) !! operation_id c = Some c -> tenant_id c <> "" ->
  match sweep_target st c with
  | Some st => exists op', operations (w_db (snd (m c w))) = <[operation_id c := op']> (operations (w_db w))
                 /\ status op' = st /\ operation_id op' = operation_id c
  | None => operations (w_db (snd (m c w))) = operations (w_db w) /\ exists e, fst (m c w) = Err e
  end.

(** The shape of the three sweeps: the system transition, then its event. *)
Definition sweep_action (st : string) (reason : operation -> string) (by_ : operation -> option string)
    (event : operation -> operation -> async_event) (c : operation) : act unit :=
  atomicTransitionSystem (operation_id c) (Some (tenant_id c)) st (reason c) (by_ c) ≫= fun '(upd, _) =>
  publish (event c upd).

Lemma publish_db (e : async_event) (w : world async_db async_event) : w_db (snd (publish e w)) = w_db w.
Proof. unfold publish. by case_match. Qed.

Lemma sweep_action_sweeps st reason by_ event :
  (st = "failed" -> forall c, reason c <> "" /\ sensitive_message (reason c) = false) ->
  sweeps_to st (sweep_action st reason by_ event).
Proof.
  intros Hr c w Hk Hid Ht. unfold sweep_action, sweep_target, mbind, M_bind.
  rewrite (atomicTransitionSystem_run _ _ _ _ _ _ c) by done.
  destruct (str_in _ _) eqn:Hin.
  - apply str_in_elem in Hin.
    destruct (applyTransition_accepts (Z.of_N (clock (w_tick w))) c (system_input st (reason c) (by_ c)) st) as [upd Hu].
    + done.
    + done.
    + intros ->. destruct (Hr eq_refl c). apply validateErrorSummary_ok. by repeat eexists.
    + rewrite Hu. simpl. rewrite publish_db. simpl. eexists. split; [reflexivity|]. simpl.
      apply applyTransition_inv in Hu as (next & [= <-] & _ & _ & ? & _). done.
  - apply str_in_not_elem in Hin.
    destruct (applyTransition_rejects (Z.of_N (clock (w_tick w))) c (system_input st (reason c) (by_ c)) st) as [e He]; [done|done|].
    rewrite He. split; [done | by eexists].
Qed.

Lemma sweep_step_run m acc c w :
  exists acc', sweep_step m acc c w = (Ok acc', snd (m c w)) /\
    fst acc' + Z.of_nat (length (snd acc')) = fst acc + Z.of_nat (length (snd acc)) + 1 /\
    (forall e, fst (m c w) = Err e -> snd acc' = snd acc ++ [sweep_error_of c e]).
Proof.
  unfold sweep_step, try_catch, mbind, M_bind. destruct (m c w) as [[[]|e] w']; simpl.
  - eexists. split; [reflexivity|]. simpl. split; [lia|done].
  - eexists. split; [reflexivity|]. simpl. rewrite length_app. simpl. split; [lia|]. by intros ? [= ->].
Qed.

(** ** A whole sweep *)

Definition swept (st : string) (cs : list operation) (before after : gmap string operation) : Prop :=
  forall id, match List.find (fun c => String.eqb (operation_id c) id) cs ≫= sweep_target st with
  | Some st => exists op', after !! id = Some op' /\ status op' = st
  | None => after !! id = before !! id
  end.

Definition candidates_of (db : async_db) (cs : list operation) : Prop :=
  NoDup (operation_id <$> cs) /\
  Forall (fun c => operations db !! operation_id c = Some c /\ tenant_id c <> "") cs.

Lemma sweeps_to_keyed st m c w :
  sweeps_to st m -> keyed (w_db w) -> operations (w_db w) !! operation_id c = Some c -> tenant_id c <> "" ->
  keyed (w_db (snd (m c w))).
Proof.
  intros Hm Hk Hid Ht. specialize (Hm c w Hk Hid Ht). destruct (sweep_target st c).
  - destruct Hm as (op' & Ho & _ & Hi). intros id op. rewrite Ho, lookup_insert_Some.
    intros [[<- <-]|[_ ?]]; auto.
  - destruct Hm as [Ho _]. intros id op. rewrite Ho. apply Hk.
Qed.

Lemma sweeps_to_lookup st m c w id :
  sweeps_to st m -> keyed (w_db w) -> operations (w_db w) !! operation_id c = Some c -> tenant_id c <> "" ->
  id <> operation_id c -> operations (w_db (snd (m c w))) !! id = operations (w_db w) !! id.
Proof.
  intros Hm Hk Hid Ht Hne. specialize (Hm c w Hk Hid Ht). destruct (sweep_target st c).
  - destruct Hm as (op' & -> & _). by rewrite lookup_insert_ne.
  - by destruct Hm as [-> _].
Qed.

Lemma find_id_none (cs : list operation) id :
  id ∉ operation_id <$> cs -> List.find (fun c => String.eqb (operation_id c) id) cs = None.
Proof.
  intros Hn. apply find_none_Forall, Forall_forall. intros c Hc. apply String.eqb_neq. intros <-.
  apply Hn. apply list_elem_of_fmap. eauto.
Qed.

Lemma sweep_fold st m : sweeps_to st m -> forall cs acc w,
  keyed (w_db w) -> candidates_of (w_db w) cs ->
  exists acc' w', for_fold (sweep_step m) acc cs w = (Ok acc', w') /\
    fst acc' + Z.of_nat (length (snd acc')) = fst acc + Z.of_nat (length (snd acc)) + Z.of_nat (length cs) /\
    keyed (w_db w') /\ swept st cs (operations (w_db w)) (operations (w_db w')) /\
    (forall e, e ∈ snd acc -> e ∈ snd acc') /\
    (forall c, c ∈ cs -> sweep_target st c = None -> exists e, sweep_error_of c e ∈ snd acc').
Proof.
  intros Hm cs. induction cs as [|c cs IH]; intros acc w Hk [Hnd Hcs].
  { exists acc, w. simpl. split_and!; [done|lia|done|by intros id|done|by intros c Hc%elem_of_nil]. }
  simpl in Hnd. apply NoDup_cons in Hnd as [Hni Hnd]. apply Forall_cons in Hcs as [[Hid Ht] Hcs]. simpl.
  unfold mbind, M_bind. destruct (sweep_step_run m acc c w) as (acc1 & Hrun & Hn1 & Herr1). rewrite Hrun.
  assert (Hother : forall id, id <> operation_id c -> operations (w_db (snd (m c w))) !! id = operations (w_db w) !! id)
    by eauto using sweeps_to_lookup.
  destruct (IH acc1 (snd (m c w))) as (acc' & w' & -> & Hn & Hk' & Hsw & Hmono & Herr).
  { eauto using sweeps_to_keyed. }
  { split; [done|]. rewrite Forall_forall in Hcs |- *. intros c' Hc'. destruct (Hcs c' Hc') as [? ?]. split; [|done].
    rewrite Hother; [done|]. intros Heq. apply Hni. rewrite <- Heq. by apply list_elem_of_fmap_2. }
  exists acc', w'. specialize (Hm c w Hk Hid Ht). split_and!; [done|lia|done| | |].
  - intros id. specialize (Hsw id). simpl. destruct (String.eqb_spec (operation_id c) id) as [<-|Hne].
    + rewrite find_id_none in Hsw by done. simpl in *. destruct (sweep_target st c).
      * destruct Hm as (op' & Ho & Hst & _). rewrite Ho, lookup_insert_eq in Hsw. eauto.
      * destruct Hm as [Ho _]. by rewrite Hsw, Ho.
    + destruct (List.find _ cs ≫= _); [done|]. rewrite Hsw. by apply Hother.
  - intros e He. apply Hmono. unfold sweep_step, try_catch, mbind, M_bind in Hrun.
    destruct (m c w) as [[[]|e'] w1]; injection Hrun as <-; simpl; [done | apply elem_of_app; by left].
  - intros c' [->|Hc']%elem_of_cons Htgt; [|eauto]. rewrite Htgt in Hm. destruct Hm as [_ [e He]].
    exists e. apply Hmono. rewrite (Herr1 e He). apply elem_of_app. right. by apply list_elem_of_singleton.
Qed.

(** ** The candidates a sweep selects *)

Lemma rows_where_elem p db op :
  keyed db -> op ∈ rows_where p db <-> operations db !! operation_id op = Some op /\ p op = true.
Proof.
  intros Hk. unfold rows_where. rewrite list_elem_of_In, filter_In, <- list_elem_of_In, list_elem_of_fmap. split.
  - intros [([id op'] & -> & Hin%elem_of_map_to_list) ?]. simpl. by rewrite (Hk _ _ Hin).
  - intros [Hin ?]. split; [|done]. exists (operation_id op, op). split; [done|]. by apply elem_of_map_to_list.
Qed.

Lemma rows_where_ids p db : keyed db -> NoDup (operation_id <$> rows_where p db).
Proof.
  intros Hk. unfold rows_where.
  assert (Hfst : operation_id <$> (snd <$> map_to_list (operations db)) = fst <$> map_to_list (operations db)).
  { rewrite <- list_fmap_compose. apply list_fmap_ext. intros i [id op] Hl. simpl.
    apply Hk. apply elem_of_map_to_list. by eapply list_elem_of_lookup_2. }
  pose proof (NoDup_fst_map_to_list (operations db)) as Hnd. rewrite <- Hfst in Hnd. revert Hnd. clear Hfst.
  induction (snd <$> map_to_list (operations db)) as [|op ops IH]; simpl; [done|].
  intros [Hni Hnd]%NoDup_cons. destruct (p op); simpl; [|by apply IH].
  apply NoDup_cons. split; [|by apply IH]. intros (o & Ho & Hin)%list_elem_of_fmap. apply Hni.
  rewrite Ho. apply list_elem_of_fmap_2. rewrite list_elem_of_In, filter_In, <- list_elem_of_In in Hin. by destruct Hin.
Qed.

Lemma stale_rows_elem sts col d now db op :
  keyed db -> op ∈ stale_rows sts col d now db <->
  operations db !! operation_id op = Some op /\ stale sts col d now db op = true.
Proof. intros Hk. unfold stale_rows. rewrite merge_sort_Permutation. by apply rows_where_elem. Qed.

(** No operation is without a tenant. *)
Definition owned (db : async_db) : Prop := forall id op, operations db !! id = Some op -> tenant_id op <> "".

Lemma stale_rows_candidates sts col d now db :
  keyed db -> owned db -> candidates_of db (stale_rows sts col d now db).
Proof.
  intros Hk Ho. split.
  - unfold stale_rows. rewrite merge_sort_Permutation. by apply rows_where_ids.
  - apply Forall_forall. intros c [? _]%stale_rows_elem; eauto.
Qed.

Lemma stale_status sts col d now db op : stale sts col d now db op = true -> status op ∈ sts.
Proof. unfold stale. rewrite andb_true_iff. intros [Hs _]. by apply str_in_elem. Qed.

(** The sweep finds an operation in its candidates exactly when it is stale. *)
Lemma find_stale sts col d now db id op :
  keyed db -> operations db !! id = Some op ->
  List.find (fun c => String.eqb (operation_id c) id) (stale_rows sts col d now db)
  = (if stale sts col d now db op then Some op else None).
Proof.
  intros Hk Hid. assert (Hkey : operation_id op = id) by auto.
  destruct (List.find _ _) as [c|] eqn:E.
  - apply find_some in E as [Hin%list_elem_of_In Heq%String.eqb_eq].
    apply stale_rows_elem in Hin as [Hc Hs]; [|done]. rewrite Heq, Hid in Hc. simplify_eq. by rewrite Hs.
  - apply find_none_Forall in E. destruct (stale _ _ _ _ _ _) eqn:Hs; [|done].
    rewrite Forall_forall in E. specialize (E op).
    exfalso. apply String.eqb_eq in Hkey. rewrite E in Hkey; [done|].
    apply stale_rows_elem; [done|]. apply String.eqb_eq in Hkey. by rewrite Hkey.
Qed.

(** ** The three sweeps as instances *)

Lemma timed_out_sweeps :
  sweeps_to "timed_out" (fun c =>
    atomicTransitionSystem (operation_id c) (Some (tenant_id c)) "timed_out" "timeout exceeded" None ≫= fun '(upd, _) =>
    publish (OperationTimedOut upd (status c))).
Proof. by apply (sweep_action_sweeps "timed_out" (fun _ => "timeout exceeded") (fun _ => None) (fun c upd => OperationTimedOut upd (status c))). Qed.

Lemma recover_sweeps : sweeps_to "failed" recover_orphan.
Proof.
  apply (sweep_action_sweeps "failed" orphan_reason (fun _ => None) (fun c upd => OperationRecovered upd (status c) (orphan_reason c))).
  intros _ c. unfold orphan_reason. case_match; (split; [discriminate | vm_compute; reflexivity]).
Qed.

Lemma force_cancel_sweeps : sweeps_to "cancelled" force_cancel.
Proof.
  by apply (sweep_action_sweeps "cancelled" (fun _ => "cancellation forced — timeout")
    (fun c => Some (default "system" (cancelled_by c)))
    (fun c upd => OperationCancelled upd (status c) (default "system" (cancelled_by upd)))).
Qed.

(** ** Refusals of the retry handlers *)

(** Who may retry an operation: a superadmin, or an identified member of its
    tenant who asks for no other tenant. *)
Definition may_retry (c : caller) (op : operation) (tenant : option string) : Prop :=
  is_ok (requireCallerIdentity c) = true /\ is_type "superadmin" c = false /\
  ca_tenant c = Some (tenant_id op) /\ (tenant = None \/ tenant = Some (tenant_id op)) /\
  isTenantActiveByDefault c = true.

(** The retry handler up to its checks, for such a caller. *)
Lemma retry_main_run setting c id op tenant meta w :
  may_retry c op tenant -> operations (w_db w) !! id = Some op ->
  retry_main setting c id tenant meta w =
  try_catch (
    if manual_intervention_required op then
      findFlagByOperationId (operation_id op) ≫= fun f =>
      mret (mk_response 422 [] (JObj [("error", JStr "MANUAL_INTERVENTION_REQUIRED");
        ("message", JStr "This operation has exhausted its automatic retry limit and requires manual intervention.");
        ("operationId", JStr (operation_id op)); ("flagId", jstr_opt (fl_flag_id <$> f));
        ("hint", JStr "Contact your administrator or request a retry override.")]))
    else if negb (String.eqb (status op) "failed") then throw not_retryable
    else if resolveMaxRetries setting op <=? attempt_count op
    then throw (coded "MAX_RETRIES_EXCEEDED" "Maximum retry attempts reached for this operation type")
    else
    new_attempt op c (coalesce meta JNull) ≫= fun a =>
    retry_transaction op c a ≫= fun upd =>
    try_catch (publish (OperationRetried upd a (correlation_id op))) (fun _ => mret tt) ≫= fun _ =>
    mret (mk_response 200 [("X-Correlation-Id", ra_correlation_id a)]
      (JObj [("attemptId", JStr (ra_attempt_id a)); ("operationId", JStr (ra_operation_id a));
             ("attemptNumber", jint (ra_attempt_number a)); ("correlationId", JStr (ra_correlation_id a));
             ("status", JStr (ra_status a)); ("createdAt", jint (ra_created_at a))])))
    (fun e => throw (with_status (default (status_for RETRY_STATUS_CODES e) (err_status e)) e)) w.
Proof.
  intros (Hi & Hs & Ht & Htn & Hact) Hid. unfold retry_main, loadOperation, assertTenantAccess.
  destruct (requireCallerIdentity c) as [[]|]; [|done]. rewrite Hs, Hact, Ht. simpl.
  unfold findByIdAnyTenant, query_db, lift, mbind at 1, M_bind at 1. unfold try_catch, mbind at 1, M_bind at 1.
  rewrite Hid. unfold mbind at 1, M_bind at 1.
  assert (truthy_str tenant && negb (bool_decide (tenant = Some (tenant_id op))) = false) as ->.
  { destruct Htn as [->| ->]; [done|]. rewrite bool_decide_eq_true_2 by done. apply andb_false_r. }
  rewrite bool_decide_eq_true_2 by done. done.
Qed.

(** ** The transaction of a retry *)

Definition attempt_taken (op : operation) (db : async_db) : bool :=
  existsb (fun b => String.eqb (ra_operation_id b) (operation_id op) && (ra_attempt_number b =? attempt_count op + 1))
    (retry_attempts db).

(** The attempt a caller's retry builds: the next number, a fresh correlation id. *)
Definition attempt_of (w : world async_db async_event) (op : operation) (c : caller) (meta : jsval) : retry_attempt :=
  let now := clock (w_tick w) in
  mk_retry_attempt (uuid (w_uuids w)) (operation_id op) (tenant_id op) (attempt_count op + 1)
    (generateCorrelationId now (uuid (N.succ (w_uuids w))) (tenant_id op))
    (default "" (ca_actor_id c)) (default "" (ca_actor_type c)) "pending" (Z.of_N now) None (coalesce meta JNull).

Lemma new_attempt_run op c meta w :
  operation_id op <> "" -> tenant_id op <> "" -> truthy_str (ca_actor_id c) = true ->
  default "" (ca_actor_type c) ∈ ACTOR_TYPES -> truthy_str (ca_actor_type c) = true -> 0 <= attempt_count op ->
  new_attempt op c meta w =
  (Ok (attempt_of w op c meta),
   mk_world (w_db w) (N.succ (w_tick w)) (N.succ (N.succ (w_uuids w))) (w_published w) (w_events w)).
Proof.
  intros Ho Ht Ha Hty Hty' Hn. unfold new_attempt, random_uuid, now_ms, mbind, M_bind, lift. simpl.
  unfold createRetryAttempt. apply String.eqb_neq in Ho, Ht. apply str_in_elem in Hty.
  destruct (ca_actor_type c) as [ty|] eqn:Ety; [|done].
  simpl. rewrite Ho, Ht, Ha. simpl in Hty', Hty. rewrite Hty'. simpl. rewrite Hty. simpl.
  assert (attempt_count op + 1 <? 1 = false) as -> by lia. unfold attempt_of. by rewrite Ety.
Qed.

(** The caller of a retry, its identity checked. *)
Definition identified (c : caller) : Prop :=
  truthy_str (ca_actor_id c) = true /\ truthy_str (ca_actor_type c) = true /\ default "" (ca_actor_type c) ∈ ACTOR_TYPES.

Lemma retry_transaction_run op c a w :
  operations (w_db w) !! operation_id op = Some op -> status op = "failed" -> tenant_id op <> "" ->
  ra_operation_id a = operation_id op -> ra_tenant_id a = tenant_id op -> ra_attempt_number a = attempt_count op + 1 ->
  if attempt_taken op (w_db w)
  then exists e, retry_transaction op c a w = (Err e, w)
  else exists op' w', retry_transaction op c a w = (Ok op', w') /\
    operations (w_db w') = <[operation_id op := op']> (operations (w_db w)) /\
    retry_attempts (w_db w') = retry_attempts (w_db w) ++ [a] /\
    op' = reset_to_retry (Z.of_N (clock (w_tick w))) (ra_correlation_id a) op.
Proof.
  intros Hid Hst Ht Ho Hten Hn. unfold retry_transaction, in_transaction, createRetryAttemptRow, requireTenantId, throw_if.
  unfold mbind, M_bind, lift, exec_db_err. rewrite Hten, Ho, Hn. fold (attempt_taken op (w_db w)). simpl.
  pose proof Ht as Ht'. apply String.eqb_neq in Ht'. rewrite Ht'. simpl.
  destruct (attempt_taken op (w_db w)); [eexists; by destruct w|].
  unfold atomicResetToRetry, requireTenantId, throw_if, mbind, M_bind, lift, now_ms, exec_db. simpl. rewrite Ht'. simpl.
  rewrite (update_operation_ok _ _ _ _ _ op) by (simpl; auto; by apply String.eqb_eq).
  unfold random_uuid, insertAsyncOperationTransition, exec_db, mret, M_ret. simpl.
  eexists _, _. by split_and!.
Qed.

(** ** Pending overrides *)

Lemma latest_by_none {A} (at_ : A -> Z) xs : latest_by at_ xs = None <-> xs = [].
Proof.
  destruct xs as [|x xs]; simpl; [done|]. split; [|done]. destruct (latest_by at_ xs); [|done]. by case_match.
Qed.

Lemma pending_override_app id db o rows :
  retry_overrides db = rows ++ [o] -> ov_operation_id o = id -> ov_status o = "pending" -> pending_override id db <> None.
Proof.
  intros Hr Ho Hs. unfold pending_override. rewrite latest_by_none, Hr, List.filter_app. simpl.
  rewrite Ho, Hs, String.eqb_refl. simpl. by destruct (List.filter _ rows).
Qed.

Definition has_pending (id : string) (db : async_db) : Prop := pending_override id db <> None.

Lemma keeps_pending_update id x ten guard f : keeps (has_pending id) (exec_db (update_operation x ten guard f) : act (option operation)).
Proof.
  apply keeps_exec. intros db Hp. destruct (update_operation x ten guard f db) as [o db'] eqn:E.
  apply update_operation_inv in E as [[_ ->]|(? & _ & _ & _ & _ & ->)]; done.
Qed.

Lemma keeps_pending_attempt id a : keeps (has_pending id) (createRetryAttemptRow a).
Proof.
  unfold createRetryAttemptRow. keeps_step; [by apply keeps_lift|]. apply keeps_exec_err.
  intros db a' db' Hp. case_match; [done|]. by intros [= _ <-].
Qed.

Lemma keeps_pending_grant id op f c a : keeps (has_pending id) (override_transaction op f c a).
Proof.
  unfold override_transaction, resolveFlag. keeps_tac; auto using keeps_pending_attempt, keeps_pending_update.
  by apply keeps_exec.
Qed.

(** A program whose every successful response with status 200 leaves [P]. *)
Definition grants (P : async_db -> Prop) (m : act response) : Prop :=
  forall w r w', m w = (Ok r, w') -> res_status r = 200 -> P (w_db w').

Lemma grants_bind P {A} (m : act A) (f : A -> act response) : (forall a, grants P (f a)) -> grants P (m ≫= f).
Proof.
  intros Hf w r w'. unfold mbind, M_bind. destruct (m w) as [[a|e] w1]; [|done]. apply Hf.
Qed.

Lemma grants_refusal P st e m x : st <> 200 -> grants P (mret (refusal st e m x)).
Proof. intros Hst w r w' [= <- _]. done. Qed.

Lemma grants_create id o (k : option retry_override + retry_override -> act response) :
  ov_operation_id o = id -> ov_status o = "pending" ->
  (forall e, grants (has_pending id) (k (inl e))) -> keeps (has_pending id) (k (inr o)) ->
  grants (has_pending id) (createIfNotInProgress o ≫= k).
Proof.
  intros Ho Hs Hl Hr w r w'. unfold createIfNotInProgress, query_db, exec_db, mbind, M_bind, mret, M_ret. simpl.
  destruct (pending_override (ov_operation_id o) (w_db w)) as [e|] eqn:E; simpl; [apply Hl|].
  rewrite E. simpl. intros Hk H200.
  specialize (Hr (set_db (set_overrides (retry_overrides (w_db w) ++ [o]) (w_db w)) w)). rewrite Hk in Hr.
  apply Hr. by eapply pending_override_app.
Qed.

Lemma RetryOverride_pending u now id fid ten who why n o :
  RetryOverride u now id fid ten who why n = Ok o -> ov_operation_id o = id /\ ov_status o = "pending".
Proof.
  unfold RetryOverride. rewrite result_bind_ok. setoid_rewrite result_bind_ok.
  intros (? & _ & ? & _ & ?). by simplify_eq.
Qed.

Lemma granted_override_pending c id tenant why : grants (has_pending id) (retry_override_main c id tenant why).
Proof.
  unfold retry_override_main. destruct (is_type _ c); simpl; [|by apply grants_refusal].
  apply grants_bind. intros [op|]; [|by apply grants_refusal].
  destruct (manual_intervention_required op); simpl; [|by apply grants_refusal].
  apply grants_bind. intros [f|]; [|by apply grants_refusal].
  destruct (String.eqb _ _); [by apply grants_refusal|].
  apply grants_bind. intros ou. apply grants_bind. intros now.
  intros w r w'. unfold mbind at 1, M_bind at 1, lift. destruct (RetryOverride _ _ _ _ _ _ _ _) as [o|e] eqn:Ho; [|done].
  apply RetryOverride_pending in Ho as [Ho Hs]. revert w r w'. apply grants_create; [done|done| |].
  - intros e. by apply grants_refusal.
  - unfold new_attempt. keeps_tac. apply keeps_pending_grant.
Qed.

Lemma override_refused_when_pending c id tenant why w :
  has_pending id (w_db w) ->
  w_db (snd (retry_override_main c id tenant why w)) = w_db w /\
  forall r, fst (retry_override_main c id tenant why w) = Ok r -> res_status r <> 200.
Proof.
  intros Hp. unfold retry_override_main. destruct (is_type _ c); simpl; [|split; [done | by intros r [= <-]]].
  unfold findByIdWithTenant, findById, mbind, M_bind, lift.
  destruct (requireTenantId tenant); [|done]. unfold query_db, mret, M_ret.
  destruct (select_operation _ _ _) as [op|]; simpl; [|split; [done | by intros r [= <-]]].
  destruct (manual_intervention_required op); simpl; [|split; [done | by intros r [= <-]]].
  destruct (latest_by _ _) as [f|]; simpl; [|split; [done | by intros r [= <-]]].
  destruct (String.eqb _ _); simpl; [split; [done | by intros r [= <-]]|].
  destruct (RetryOverride _ _ _ _ _ _ _ _) as [o|e] eqn:Ho; simpl; [|done].
  apply RetryOverride_pending in Ho as [Ho _]. unfold createIfNotInProgress, query_db, mbind, M_bind. simpl.
  rewrite Ho. unfold has_pending in Hp. destruct (pending_override id (w_db w)) as [x|]; [|done]. simpl.
  split; [done | by intros r [= <-]].
Qed.

End behaviour.

(** ** Properties *)

(** A tenant's cancellation.  A pending operation becomes [cancelled], a
    running one [cancelling], and when the broker takes the event the caller gets
    200 and exactly that event is out; any other operation is left alone and the
    caller gets 409. *)
Theorem cancel_outcome `{!Platform} (c : caller) (actor ten id : string) (tenant reason : option string)
    (op : operation) (w : world async_db async_event) :
  is_superadmin c = false -> ca_tenant c = Some ten -> ca_actor_id c = Some actor ->
  ten <> "" -> actor <> "" -> id <> "" ->
  operations (w_db w) !! id = Some op -> operation_id op = id -> tenant_id op = ten ->
  let w' := snd (cancel_main c (Some id) tenant reason w) in
  if isCancellable (status op) then
    exists op', operations (w_db w') !! id = Some op' /\
      status op' = (if String.eqb (status op) "pending" then "cancelled" else "cancelling") /\
      (broker (w_published w) = None ->
       (exists r, fst (cancel_main c (Some id) tenant reason w) = Ok r /\ res_status r = 200) /\
       w_events w' = w_events w ++ [OperationCancelled op' (status op) actor])
  else
    w_db w' = w_db w /\ exists r, fst (cancel_main c (Some id) tenant reason w) = Ok r /\ res_status r = 409.
Proof.
  intros Hsa Hten Hact Ht Ha Hi Hid Hkey Htid. unfold cancel_main. rewrite Hsa, Hten, Hact.
  pose proof Ht as Ht'. pose proof Ha as Ha'. pose proof Hi as Hi'. apply String.eqb_neq in Ht', Ha', Hi'.
  unfold truthy_str. rewrite Hi', Ht', Ha'. simpl.
  assert (Hsel : select_operation id ten (w_db w) = Some op) by by apply select_operation_some.
  unfold findById, requireTenantId, truthy_str. rewrite Ht'.
  unfold try_catch, mbind, M_bind, lift, throw_if, query_db. simpl. rewrite Hsel.
  rewrite Htid, bool_decide_eq_true_2 by done. simpl.
  destruct (isCancellable (status op)) eqn:Hc; simpl; [|split; [done|by eexists]].
  rewrite (transitionOperation_run _ _ _ _ _ op) by (rewrite ?Hkey; done).
  set (st := if String.eqb (status op) "pending" then "cancelled" else "cancelling").
  destruct (applyTransition_accepts (Z.of_N (clock (w_tick w))) op
    (mk_transition_input (Some st) None (Some (default "cancellation requested" reason)) (Some actor)) st) as [upd Hu].
  { done. }
  { unfold isCancellable in Hc. apply str_in_elem in Hc. unfold CANCELLABLE_STATES in Hc.
    rewrite !elem_of_cons, elem_of_nil in Hc. unfold st. destruct Hc as [->|[->|[]]]; vm_compute; set_solver. }
  { unfold st. case_match; intros Hf; discriminate Hf. }
  rewrite Hu. apply applyTransition_inv in Hu as (next & Hn & _ & _ & Hst & _ & _ & Hop). simpl in Hn. simplify_eq.
  unfold publish. simpl. destruct (broker (w_published w)) as [e|] eqn:Hb; simpl;
    exists upd; rewrite Hop, lookup_insert_eq; split_and!; try done. intros _. split; [by eexists|done].
Qed.

Lemma cancel_outcome_witness :
  exists op', operations (w_db (snd (@cancel_main sample_platform (tenant_caller "ten-1") (Some "op-1") None None
      (sample_world (sample_operation "running"))))) !! "op-1" = Some op' /\ status op' = "cancelling".
Proof.
  destruct (@cancel_outcome sample_platform (tenant_caller "ten-1") "usr-1" "ten-1" "op-1" None None
    (sample_operation "running") (sample_world (sample_operation "running"))) as (op' & Ho & Hs & _);
    try reflexivity; try discriminate. exists op'. split; [exact Ho | exact Hs].
Defined.

(** The timeout sweep.  It always returns; every candidate is either
    counted or reported; each stale running operation ends [timed_out], whatever
    the broker does, and every other operation is untouched. *)
Theorem timeout_sweep_outcome `{!Platform} (w : world async_db async_event) :
  keyed (w_db w) -> owned (w_db w) ->
  let now := Z.of_N (clock (w_tick w)) in
  let is_stale := stale ["running"] po_timeout_minutes 60 now (w_db w) in
  exists n errs w', timeout_sweep w = (Ok (n, errs), w') /\
    n + Z.of_nat (length errs) = Z.of_nat (length (stale_rows ["running"] po_timeout_minutes 60 now (w_db w))) /\
    forall id op, operations (w_db w) !! id = Some op ->
      if is_stale op then exists op', operations (w_db w') !! id = Some op' /\ status op' = "timed_out"
      else operations (w_db w') !! id = Some op.
Proof.
  intros Hk Ho now is_stale. unfold timeout_sweep, findTimedOutCandidates, query_db, mbind, M_bind. simpl. fold now.
  destruct (sweep_fold _ _ timed_out_sweeps (stale_rows ["running"] po_timeout_minutes 60 now (w_db w)) (0, []) (ticked w))
    as ([n errs] & w' & Hrun & Hn & _ & Hsw & _); [done | by apply stale_rows_candidates |].
  exists n, errs, w'. split_and!; [exact Hrun | simpl in Hn; lia |].
  intros id op Hid. specialize (Hsw id). rewrite (find_stale _ _ _ _ _ id op) in Hsw by done.
  fold is_stale in Hsw. simpl in Hsw. destruct (is_stale op) eqn:Hs; simpl in Hsw; [|congruence].
  apply stale_status, list_elem_of_singleton in Hs. unfold sweep_target in Hsw. by rewrite Hs in Hsw.
Qed.

Lemma timeout_sweep_outcome_witness :
  exists op', operations (w_db (snd (@timeout_sweep sample_platform (sample_world (sample_operation "running"))))) !! "op-1" = Some op' /\
    status op' = "timed_out".
Proof.
  assert (Hk : keyed (sample_db (sample_operation "running")) /\ owned (sample_db (sample_operation "running"))).
  { split; intros id op; simpl; rewrite lookup_singleton_Some; intros [<- <-]; [reflexivity | discriminate]. }
  destruct (@timeout_sweep_outcome sample_platform (sample_world (sample_operation "running")) (proj1 Hk) (proj2 Hk))
    as (n & errs & w' & Hrun & _ & Hops).
  rewrite Hrun. exact (Hops "op-1" (sample_operation "running") eq_refl).
Defined.

(** The orphan sweep.  It always returns; each stale running operation ends
    [failed] and each stale cancelling one [cancelled]; everything else keeps its
    row.  A stale pending operation is selected too, but the status graph has no
    edge from [pending] to [failed]: it is never recovered, and every sweep
    reports it as an error again. *)
Theorem orphan_sweep_outcome `{!Platform} (w : world async_db async_event) :
  keyed (w_db w) -> owned (w_db w) ->
  let now := Z.of_N (clock (w_tick w)) in
  let orphan := stale ["running"; "pending"] po_orphan_threshold_minutes 30 now (w_db w) in
  let stuck := stale ["cancelling"] po_cancelling_timeout_minutes 5 now (w_db w) in
  exists n m errs w', orphan_sweep w = (Ok (n, m, errs), w') /\
    forall id op, operations (w_db w) !! id = Some op ->
      if orphan op && String.eqb (status op) "running"
      then exists op', operations (w_db w') !! id = Some op' /\ status op' = "failed"
      else if stuck op then exists op', operations (w_db w') !! id = Some op' /\ status op' = "cancelled"
      else operations (w_db w') !! id = Some op /\ (orphan op = true -> exists e, sweep_error_of op e ∈ errs).
Proof.
  intros Hk Ho now orphan stuck.
  unfold orphan_sweep, findOrphanCandidates, findStaleCancellingCandidates, query_db, mbind, M_bind. simpl. fold now.
  destruct (sweep_fold _ _ recover_sweeps (stale_rows ["running"; "pending"] po_orphan_threshold_minutes 30 now (w_db w)) (0, []) (ticked w))
    as ([n errs] & w1 & Hrun1 & _ & Hk1 & Hsw1 & _ & Herr1); [done | by apply stale_rows_candidates |].
  simpl in Hsw1. unfold ticked in Hrun1. rewrite Hrun1.
  set (cs := stale_rows ["cancelling"] po_cancelling_timeout_minutes 5 now (w_db w)).
  assert (Hsame : forall id op, operations (w_db w) !! id = Some op -> orphan op = false \/ status op <> "running" ->
            operations (w_db w1) !! id = Some op).
  { intros id op Hid Hor. specialize (Hsw1 id). rewrite (find_stale _ _ _ _ _ id op) in Hsw1 by done.
    fold orphan in Hsw1. destruct (orphan op) eqn:Horph; simpl in Hsw1; [|congruence].
    destruct Hor as [|Hnr]; [done|]. apply stale_status in Horph.
    rewrite !elem_of_cons, elem_of_nil in Horph. destruct Horph as [?|[Hp|[]]]; [done|].
    unfold sweep_target in Hsw1. rewrite Hp in Hsw1. simpl in Hsw1. congruence. }
  destruct (sweep_fold _ _ force_cancel_sweeps cs (0, errs) w1)
    as ([m errs'] & w' & Hrun2 & _ & _ & Hsw2 & Hmono & _); [done | |].
  { destruct (stale_rows_candidates ["cancelling"] po_cancelling_timeout_minutes 5 now (w_db w) Hk Ho) as [Hnd Hc].
    split; [exact Hnd|]. fold cs in Hc |- *. rewrite Forall_forall in Hc |- *. intros c Hin.
    destruct (Hc c Hin) as [Hcid ?]. split; [|done]. apply Hsame; [done|right]. intros Hr.
    apply stale_rows_elem in Hin as [_ Hst%stale_status]; [|done].
    apply list_elem_of_singleton in Hst. congruence. }
  rewrite Hrun2. exists n, m, errs', w'. split; [reflexivity|]. intros id op Hid.
  specialize (Hsw1 id). rewrite (find_stale _ _ _ _ _ id op) in Hsw1 by done. fold orphan in Hsw1.
  specialize (Hsw2 id). unfold cs in Hsw2. rewrite (find_stale _ _ _ _ _ id op) in Hsw2 by done. fold stuck in Hsw2.
  destruct (orphan op && String.eqb (status op) "running") eqn:Hcase.
  - apply andb_true_iff in Hcase as [Hor Hr%String.eqb_eq]. rewrite Hor in Hsw1. simpl in Hsw1.
    unfold sweep_target in Hsw1. rewrite Hr in Hsw1. simpl in Hsw1. destruct Hsw1 as (op' & ? & ?).
    destruct (stuck op) eqn:Hs; simpl in Hsw2.
    + apply stale_status, list_elem_of_singleton in Hs. congruence.
    + exists op'. by rewrite Hsw2.
  - assert (Hkept : operations (w_db w1) !! id = Some op).
    { apply Hsame; [done|]. apply andb_false_iff in Hcase as [?|?%String.eqb_neq]; auto. }
    destruct (stuck op) eqn:Hs; simpl in Hsw2.
    + apply stale_status, list_elem_of_singleton in Hs. unfold sweep_target in Hsw2. by rewrite Hs in Hsw2.
    + split; [congruence|]. intros Hor. rewrite Hor in Hcase. simpl in Hcase. apply String.eqb_neq in Hcase.
      destruct (Herr1 op) as [e He].
      { apply stale_rows_elem; [done|]. by rewrite (Hk _ _ Hid). }
      { pose proof Hor as Hor'. apply stale_status in Hor'. rewrite !elem_of_cons, elem_of_nil in Hor'.
        destruct Hor' as [?|[Hp|[]]]; [done|]. unfold sweep_target. by rewrite Hp. }
      exists e. by apply Hmono.
Qed.

Lemma orphan_sweep_outcome_witness :
  operations (w_db (snd (@orphan_sweep sample_platform (sample_world (sample_operation "pending"))))) !! "op-1"
  = Some (sample_operation "pending").
Proof.
  assert (Hk : keyed (sample_db (sample_operation "pending")) /\ owned (sample_db (sample_operation "pending"))).
  { split; intros id op; simpl; rewrite lookup_singleton_Some; intros [<- <-]; [reflexivity | discriminate]. }
  destruct (@orphan_sweep_outcome sample_platform (sample_world (sample_operation "pending")) (proj1 Hk) (proj2 Hk))
    as (n & m & errs & w' & Hrun & Hops).
  rewrite Hrun. exact (proj1 (Hops "op-1" (sample_operation "pending") eq_refl)).
Defined.

(** An operation is retried only within its limit.  For a member of its
    tenant: an operation waiting for an intervention answers 422; one that is not
    failed is refused with 409; one whose attempts reached the limit with 422;
    each time the tables are unchanged.  Otherwise, when the attempt number is
    free, the caller gets 200, the operation is pending again without its error,
    under a new correlation id and with one attempt more, recorded under that
    number; when it is taken, nothing changes. *)
Theorem retry_outcome `{!Platform} (setting : option string) (c : caller) (tenant : option string) (meta : jsval)
    (op : operation) (w : world async_db async_event) :
  may_retry c op tenant -> identified c -> operations (w_db w) !! operation_id op = Some op ->
  operation_id op <> "" -> tenant_id op <> "" -> 0 <= attempt_count op ->
  let r := fst (retry_main setting c (operation_id op) tenant meta w) in
  let db' := w_db (snd (retry_main setting c (operation_id op) tenant meta w)) in
  if manual_intervention_required op
  then db' = w_db w /\ exists x, r = Ok x /\ res_status x = 422
  else if negb (String.eqb (status op) "failed")
  then db' = w_db w /\ exists e, r = Err e /\ err_status e = Some 409
  else if resolveMaxRetries setting op <=? attempt_count op
  then db' = w_db w /\ exists e, r = Err e /\ err_status e = Some 422
  else if attempt_taken op (w_db w)
  then db' = w_db w /\ exists e, r = Err e
  else (exists x, r = Ok x /\ res_status x = 200) /\
    exists op' a, operations db' = <[operation_id op := op']> (operations (w_db w)) /\
      retry_attempts db' = retry_attempts (w_db w) ++ [a] /\
      status op' = "pending" /\ error_summary_of op' = None /\ attempt_count op' = attempt_count op + 1 /\
      ra_attempt_number a = attempt_count op' /\ correlation_id op' = ra_correlation_id a.
Proof.
  intros Hm (Hc1 & Hc2 & Hc3) Hid Ho Ht Hn. cbv zeta. rewrite !(retry_main_run _ _ _ op) by done.
  destruct (manual_intervention_required op); [split; [done|by eexists]|].
  destruct (String.eqb_spec (status op) "failed") as [Hst|]; simpl; [|split; [done|by eexists]].
  destruct (resolveMaxRetries setting op <=? attempt_count op); [split; [done|by eexists]|].
  unfold try_catch, mbind, M_bind. rewrite new_attempt_run by done.
  pose proof (retry_transaction_run op c (attempt_of w op c (coalesce meta JNull))
    (mk_world (w_db w) (N.succ (w_tick w)) (N.succ (N.succ (w_uuids w))) (w_published w) (w_events w))
    Hid Hst Ht eq_refl eq_refl eq_refl) as Hrun. simpl w_db in Hrun.
  destruct (attempt_taken op (w_db w)).
  - destruct Hrun as [e ->]. split; [done|by eexists].
  - destruct Hrun as (op' & w' & -> & Hops & Hatt & Hop'). unfold publish.
    destruct (broker (w_published w')); simpl; (split; [by eexists|]);
      exists op', (attempt_of w op c (coalesce meta JNull)); rewrite Hop' in *; by split_and!.
Qed.

Definition failed_operation : operation :=
  with_transition (sample_operation "running") "failed" (Some (mk_error_summary (Some "E") (Some "no capacity") None)) None None 5.

Lemma retry_outcome_witness :
  exists op' a, operations (w_db (snd (@retry_main sample_platform None (tenant_caller "ten-1") "op-1" None JUndef (sample_world failed_operation))))
      = <["op-1" := op']> {["op-1" := failed_operation]} /\
    ra_attempt_number a = attempt_count op' /\ attempt_count op' = 1.
Proof.
  destruct (@retry_outcome sample_platform None (tenant_caller "ten-1") None JUndef failed_operation (sample_world failed_operation))
    as (_ & op' & a & Ho & _ & _ & _ & Hn & Ha & _).
  - split_and!; try reflexivity. left. reflexivity.
  - split_and!; try reflexivity. vm_compute. set_solver.
  - reflexivity.
  - discriminate.
  - discriminate.
  - vm_compute. discriminate.
  - exists op', a. split; [exact Ho|]. split; [exact Ha|exact Hn].
Defined.

(** An intervention can be overridden at most once.  Once a superadmin's
    override was granted its row stays [pending] - no code completes it - so
    whoever asks again for that operation, at any later time, is not granted a
    second one and the tables do not change. *)
Theorem override_at_most_once `{!Platform} (c c' : caller) (id : string) (tenant tenant' why why' : option string)
    (w w2 : world async_db async_event) (r : response) :
  fst (retry_override_main c id tenant why w) = Ok r -> res_status r = 200 ->
  retry_overrides (w_db w2) = retry_overrides (w_db (snd (retry_override_main c id tenant why w))) ->
  w_db (snd (retry_override_main c' id tenant' why' w2)) = w_db w2 /\
  forall r', fst (retry_override_main c' id tenant' why' w2) = Ok r' -> res_status r' <> 200.
Proof.
  intros Hr H200 Hw2.
  destruct (retry_override_main c id tenant why w) as [r0 w'] eqn:E. simpl in *. subst r0.
  pose proof (granted_override_pending c id tenant why w r w' E H200) as Hp.
  apply override_refused_when_pending. unfold has_pending, pending_override in *. by rewrite Hw2.
Qed.

Definition sample_flag (st : string) : flag :=
  mk_flag "flag-1" "op-1" "ten-1" "usr-1" "max_retries_exhausted" 3 None None st None 0 None None None.

(** A failed operation that waits for an intervention, its flag in the given status. *)
Definition flagged_world (st : string) : world async_db async_event :=
  let op := with_intervention true 6 failed_operation in
  mk_world (set_flags [sample_flag st] (sample_db op)) 0 0 0 [].

Definition superadmin : caller := mk_caller (Some "root") (Some "superadmin") None [] None None.

Lemma override_at_most_once_witness :
  res_status <$> (match fst (@retry_override_main sample_platform superadmin "op-1" (Some "ten-1") (Some "capacity was restored") (flagged_world "pending"))
                  with Ok r => Some r | Err _ => None end) = Some 200 /\
  let w2 := snd (@retry_override_main sample_platform superadmin "op-1" (Some "ten-1") (Some "capacity was restored") (flagged_world "pending")) in
  w_db (snd (@retry_override_main sample_platform superadmin "op-1" (Some "ten-1") (Some "capacity was restored") w2)) = w_db w2.
Proof.
  split; [vm_compute; reflexivity|]. intros w2.
  eapply (@override_at_most_once sample_platform superadmin superadmin "op-1" (Some "ten-1") (Some "ten-1")
    (Some "capacity was restored") (Some "capacity was restored") (flagged_world "pending") w2).
  - vm_compute. reflexivity.
  - reflexivity.
  - reflexivity.
Defined.

(** A second exhaustion is a dead end.  A failed operation that needs an
    intervention and whose flag was already resolved - one override leaves
    exactly that - cannot move any more: retries answer 422, overrides are not
    granted, transitions are refused, and the tables stay as they are. *)
Theorem resolved_flag_dead_end `{!Platform} (op : operation) (f : flag) (w : world async_db async_event) :
  operations (w_db w) !! operation_id op = Some op ->
  status op = "failed" -> manual_intervention_required op = true ->
  latest_by fl_created_at (List.filter (fun f => String.eqb (fl_operation_id f) (operation_id op)) (flags (w_db w))) = Some f ->
  fl_status f = "resolved" ->
  (forall setting c tenant meta, may_retry c op tenant ->
     w_db (snd (retry_main setting c (operation_id op) tenant meta w)) = w_db w) /\
  (forall c tenant why, w_db (snd (retry_override_main c (operation_id op) tenant why w)) = w_db w /\
     forall r, fst (retry_override_main c (operation_id op) tenant why w) = Ok r -> res_status r <> 200) /\
  (forall now input, is_ok (applyTransition now op input) = false).
Proof.
  intros Hid Hst Hm Hf Hres. split_and!.
  - intros setting c tenant meta Hc. rewrite (retry_main_run _ _ _ op) by done. by rewrite Hm.
  - intros c tenant why. unfold retry_override_main.
    destruct (is_type _ c); simpl; [|split; [done | by intros r [= <-]]].
    unfold findByIdWithTenant, findById, mbind, M_bind, lift.
    destruct (requireTenantId tenant); [|done]. unfold query_db, mret, M_ret.
    destruct (select_operation _ _ _) as [op'|] eqn:Hs; simpl; [|split; [done | by intros r [= <-]]].
    apply select_operation_some in Hs as [Hs _]. rewrite Hid in Hs. simplify_eq. rewrite Hm. simpl.
    rewrite Hf, Hres. simpl. split; [done | by intros r [= <-]].
  - intros now input. destruct (applyTransition now op input) eqn:E; [|done].
    apply applyTransition_inv in E as (? & _ & Ha & _). rewrite Hst in Ha. by apply elem_of_nil in Ha.
Qed.

Lemma resolved_flag_dead_end_witness :
  w_db (snd (@retry_override_main sample_platform superadmin "op-1" (Some "ten-1") (Some "capacity was restored") (flagged_world "resolved")))
  = w_db (flagged_world "resolved").
Proof.
  apply (@resolved_flag_dead_end sample_platform (with_intervention true 6 failed_operation) (sample_flag "resolved") (flagged_world "resolved"));
    reflexivity.
Defined.
