(* ===== verification/AsyncCreate.v ===== *)
(** * Idempotent creation of operations

    provisioning-orchestrator's [actions/async-operation-create.mjs] with
    [actions/caller-context.mjs], [models/idempotency-key-record.mjs] and
    [repositories/idempotency-key-repo.mjs] over migration 075, on top of the
    operation store of [AsyncRepo].  Request fields that are not an idempotency
    key or part of the hashed payload are strings or absent.  SHA-256 is
    [node:crypto]'s, and the decimal digits of a non-integer number are left to
    [fraction_text]: both are parameters. *)
From S2P Require Import Prelude JsValue Json Platform AsyncOperation FailureClassification AsyncRepo AsyncActions.
From stdpp Require Import sorting.
From Stdlib Require Import Ascii QArith.
Local Open Scope Z_scope.

Class CreateEnv := {
  create_numbers :: NumberText;
  sha256 : string -> string;
  IDEMPOTENCY_KEY_MAX_LENGTH : option string;
  IDEMPOTENCY_KEY_TTL_HOURS : option string
}.

(** ** State *)

(** A row of [idempotency_key_records]. *)
Record key_record := mk_key_record {
  kr_record_id : string;
  kr_tenant_id : string;
  kr_idempotency_key : string;
  kr_operation_id : string;
  kr_operation_type : string;
  kr_params_hash : string;
  kr_created_at : Z;
  kr_expires_at : Z
}.

Record create_db := mk_create_db { cd_store : async_db; cd_keys : list key_record }.

Inductive create_event :=
| StoreEvent (e : async_event)
| Deduplicated (op : operation) (actor key : string) (params_mismatch : bool) (correlation : string).

Notation cact := (M (world create_db create_event) js_error).

(** A program of the operation store, run on its part of the state. *)
Definition in_store {A} (m : act A) : cact A := fun w =>
  let '(r, w') := m (mk_world (cd_store (w_db w)) (w_tick w) (w_uuids w) (w_published w) []) in
  (r, mk_world (mk_create_db (w_db w') (cd_keys (w_db w))) (w_tick w') (w_uuids w') (w_published w')
        (w_events w ++ (StoreEvent <$> w_events w'))).

(** [BEGIN], then [COMMIT] on [inl], [ROLLBACK] on [inr] and on an error. *)
Definition commit_or_rollback {A B} (m : cact (A + B)) : cact (A + B) := fun w =>
  match m w with
  | (Ok (inl a), w') => (Ok (inl a), w')
  | (Ok (inr b), w') => (Ok (inr b), set_db (w_db w) w')
  | (Err e, w') => (Err e, set_db (w_db w) w')
  end.

(** ** Canonical parameters *)

(** An array index as a property key: these come first, in numeric order, among
    the own properties of an object. *)
Definition index_value (k : string) : option N :=
  match chars k with
  | [] => None
  | "0"%char :: _ :: _ => None
  | l => if forallb is_digit l then let n := dec_val l in if (n <? 4294967295)%N then Some n else None else None
  end.
Definition is_index (k : string) : bool := match index_value k with Some _ => true | None => false end.

Definition index_le (a b : string * jsval) : Prop :=
  (default 0 (index_value a.1) <= default 0 (index_value b.1))%N.
#[export] Instance index_le_dec : RelDecision index_le.
Proof. intros a b. unfold index_le. apply _. Defined.

(** The order in which an object gives back the fields assigned to it. *)
Definition own_order (kvs : list (string * jsval)) : list (string * jsval) :=
  merge_sort index_le (List.filter (fun kv => is_index kv.1) kvs)
  ++ List.filter (fun kv => negb (is_index kv.1)) kvs.

(** The fields [acc[key] = ...] keeps: those that are defined; assigning
    [__proto__] creates no field. *)
Definition kept_field (kv : string * jsval) : bool :=
  negb (is_undef kv.2) && negb (String.eqb kv.1 "__proto__").

Fixpoint normalizeParams (v : jsval) : jsval :=
  match v with
  | JArr xs => JArr (List.map normalizeParams xs)
  | JObj kvs =>
      JObj (own_order (merge_sort key_le
        (List.flat_map (fun kv => if kept_field kv then [(kv.1, normalizeParams kv.2)] else []) kvs)))
  | JUndef => JNull
  | _ => v
  end.

Section create.
Context `{!Platform, !CreateEnv}.

Definition hashParams (params : jsval) : string := sha256 (json_text (normalizeParams params)).

(** ** Key records *)

Definition positive_setting (value : option string) (fallback : Z) : Z :=
  match value with
  | None => fallback
  | Some s => match parse_int s with NInt n => if 0 <? n then n else fallback | _ => fallback end
  end.
Definition resolveMaxLength : Z := positive_setting IDEMPOTENCY_KEY_MAX_LENGTH 128.
Definition resolveTtlHours : Z := positive_setting IDEMPOTENCY_KEY_TTL_HOURS 48.

(** [/^[a-zA-Z0-9_-]+$/] *)
Definition key_char (c : ascii) : bool := is_word c || Ascii.eqb c "-".

Definition validateKeyFormat (key : jsval) : result js_error string :=
  match key with
  | JStr s =>
      let l := chars s in
      if (Z.of_nat (length l) <? 1) || (resolveMaxLength <? Z.of_nat (length l)) || negb (forallb key_char l)
      then Err (coded_field "VALIDATION_ERROR" "Idempotency key exceeds maximum length or contains invalid characters" "idempotency_key")
      else Ok s
  | _ => Err (coded_field "VALIDATION_ERROR" "Idempotency key exceeds maximum length or contains invalid characters" "idempotency_key")
  end.

Definition key_record_fields (op : operation) (key : string) : list (string * string) :=
  [("tenant_id", tenant_id op); ("idempotency_key", key); ("operation_id", operation_id op); ("operation_type", operation_type op)].

Fixpoint require_fields (fields : list (string * string)) : result js_error unit :=
  match fields with
  | [] => Ok tt
  | (f, v) :: fields' =>
      if nonempty v then require_fields fields'
      else Err (coded_field "VALIDATION_ERROR" ("Missing required field: " +:+ f) f)
  end.

(** [createIdempotencyKeyRecord] as the action calls it. *)
Definition createIdempotencyKeyRecord (op : operation) (key hash : string) : cact key_record :=
  lift (require_fields (key_record_fields op key)) ≫= fun _ =>
  lift (validateKeyFormat (JStr key)) ≫= fun _ =>
  now_ms ≫= fun now =>
  random_uuid ≫= fun rid =>
  let createdAt := Z.of_N now in
  mret (mk_key_record rid (tenant_id op) key (operation_id op) (operation_type op) hash createdAt
          (createdAt + resolveTtlHours * 3600000)).

Definition same_key (tenant key : string) (r : key_record) : bool :=
  String.eqb (kr_tenant_id r) tenant && String.eqb (kr_idempotency_key r) key.

Definition requireIdempotencyKey (key : string) : result js_error unit :=
  throw_if (negb (nonempty key)) (coded_field "VALIDATION_ERROR" "idempotency_key is required" "idempotency_key").

(** [WHERE tenant_id = $1 AND idempotency_key = $2 AND expires_at > NOW()] *)
Definition active_record (now : Z) (tenant key : string) (db : create_db) : option key_record :=
  List.find (fun r => same_key tenant key r && (now <? kr_expires_at r)) (cd_keys db).

(** [findActive], with the [NOW()] of its transaction. *)
Definition findActive (now : Z) (tenant key : string) : cact (option key_record) :=
  lift (requireTenantId (Some tenant)) ≫= fun _ =>
  lift (requireIdempotencyKey key) ≫= fun _ =>
  query_db (active_record now tenant key).

(** [INSERT ... ON CONFLICT (tenant_id, idempotency_key) DO UPDATE ... WHERE
    expires_at <= NOW() RETURNING *]: the row stored, if any. *)
Definition upsert_key (now : Z) (r : key_record) (db : create_db) : result js_error (option key_record * create_db) :=
  match List.find (same_key (kr_tenant_id r) (kr_idempotency_key r)) (cd_keys db) with
  | Some old =>
      if kr_expires_at old <=? now then
        if existsb (fun o => String.eqb (kr_record_id o) (kr_record_id r)
                             && negb (same_key (kr_tenant_id r) (kr_idempotency_key r) o)) (cd_keys db)
        then Err unique_violation
        else Ok (Some r, mk_create_db (cd_store db)
               ((fun o => if same_key (kr_tenant_id r) (kr_idempotency_key r) o then r else o) <$> cd_keys db))
      else Ok (None, db)
  | None =>
      if existsb (fun o => String.eqb (kr_record_id o) (kr_record_id r)) (cd_keys db)
      then Err unique_violation
      else Ok (Some r, mk_create_db (cd_store db) (cd_keys db ++ [r]))
  end.

Definition insertOrFind (now : Z) (r : key_record) : cact (option key_record * bool) :=
  lift (requireTenantId (Some (kr_tenant_id r))) ≫= fun _ =>
  lift (requireIdempotencyKey (kr_idempotency_key r)) ≫= fun _ =>
  exec_db_err (upsert_key now r) ≫= fun stored =>
  match stored with
  | Some s => mret (Some s, String.eqb (kr_operation_id s) (kr_operation_id r))
  | None =>
      findActive now (kr_tenant_id r) (kr_idempotency_key r) ≫= fun existing =>
      mret (existing, match existing with
                      | Some e => String.eqb (kr_operation_id e) (kr_operation_id r)
                      | None => false end)
  end.

(** ** The caller *)

Definition js_str (v : jsval) : option string := match v with JStr s => Some s | _ => None end.

Record create_caller := mk_create_caller {
  cc_actor_id : string;
  cc_actor_type : string;
  cc_tenant : option string;
  cc_correlation : option string
}.

Definition ow_header (params : jsval) (name : string) : jsval :=
  js_get (coalesce (js_get params "__ow_headers") (JObj [])) name.

(** [buildCallerContext]: the identity comes from the gateway's headers only. *)
Definition buildCallerContext (params : jsval) : option create_caller :=
  let subject := ow_header params "x-auth-subject" in
  let tenantId := ow_header params "x-tenant-id" in
  let actorType := ow_header params "x-actor-type" in
  if negb (truthy subject) || negb (truthy tenantId) && negb (truthy actorType) then None
  else Some (mk_create_caller (default "" (js_str subject)) (default "" (js_str actorType)) (js_str tenantId)
    (first_some (js_str (ow_header params "x-correlation-id")) (js_str (js_get params "correlation_id")))).

Definition bad_identity (what : string) : js_error :=
  with_status 400 (coded "VALIDATION_ERROR" ("callerContext." +:+ what +:+ " is required")).

Definition requireCallerIdentity (c : create_caller) : result js_error unit :=
  throw_if (negb (truthy_str (cc_tenant c))) (bad_identity "tenantId") ≫= fun _ =>
  throw_if (negb (nonempty (cc_actor_id c))) (bad_identity "actor.id") ≫= fun _ =>
  throw_if (negb (nonempty (cc_actor_type c))) (bad_identity "actor.type").

(** ** The action *)

Definition CREATE_STATUS_CODES : list (string * Z) := [("IDEMPOTENCY_KEY_CONFLICT", 409); ("VALIDATION_ERROR", 400)].

(** All of [params] but three fields: [__ow_headers] stays. *)
Definition buildRequestPayload (params : jsval) : jsval :=
  match params with
  | JObj kvs => JObj (List.filter (fun kv => negb (str_in kv.1 ["callerContext"; "correlation_id"; "idempotency_key"])) kvs)
  | v => v
  end.

Definition formatCreateResponse (op : operation) (body : list (string * jsval)) (headers : list (string * string)) : response :=
  mk_response 200 (("X-Correlation-Id", correlation_id op) :: headers)
    (JObj ([("operationId", JStr (operation_id op)); ("status", JStr (status op));
            ("correlationId", JStr (correlation_id op)); ("createdAt", jint (created_at op))] ++ body)).

Definition replay_response (op : operation) (mismatch : bool) : response :=
  formatCreateResponse op [("idempotent", JBool true); ("paramsMismatch", JBool mismatch)]
    (("X-Idempotent-Replayed", "true") :: if mismatch then [("X-Idempotent-Params-Mismatch", "true")] else []).

(** A failed publication is only logged. *)
Definition publishCreateEvent (stored : operation) : cact unit :=
  try_catch (publish (StoreEvent (StateChanged stored "pending"))) (fun _ => mret tt).

Definition publishDedupEvent (op : operation) (actor key : string) (mismatch : bool) (corr : option string) : cact unit :=
  try_catch (publish (Deduplicated op actor key mismatch (default (correlation_id op) corr))) (fun _ => mret tt).

Definition resolveExistingOperation (tenant : string) (record : key_record) (operationType : option string) : cact operation :=
  if nonempty (kr_operation_type record) && negb (bool_decide (Some (kr_operation_type record) = operationType))
  then throw (with_status 409 (coded "IDEMPOTENCY_KEY_CONFLICT" "Idempotency key already associated with a different operation type"))
  else
    in_store (findById (kr_operation_id record) (Some tenant)) ≫= fun found =>
    match found with
    | None => throw (with_status 404 (coded "NOT_FOUND" "Operation not found for active idempotency key"))
    | Some op => mret op
    end.

(** What a request brings besides the identity of its caller. *)
Record create_request := mk_create_request {
  rq_tenant : string;
  rq_actor_id : string;
  rq_actor_type : string;
  rq_correlation : option string;
  rq_type : option string;
  rq_workspace : option string;
  rq_saga : option string;
  rq_max_retries : jsval
}.

Definition request_of (c : create_caller) (params : jsval) : create_request :=
  mk_create_request (default "" (cc_tenant c)) (cc_actor_id c) (cc_actor_type c)
    (first_some (js_str (js_get params "correlation_id")) (cc_correlation c))
    (js_str (js_get params "operation_type")) (js_str (js_get params "workspace_id"))
    (js_str (js_get params "saga_id")) (coalesce (js_get params "max_retries") JNull).

(** The dedup response for an operation that already has the key. *)
Definition answer_replay (rq : create_request) (key hash : string) (record : key_record) : cact response :=
  resolveExistingOperation (rq_tenant rq) record (rq_type rq) ≫= fun existing =>
  let mismatch := negb (String.eqb (kr_params_hash record) hash) in
  publishDedupEvent existing (rq_actor_id rq) key mismatch (rq_correlation rq) ≫= fun _ =>
  mret (replay_response existing mismatch).

(** The argument of [createOperationModel]. *)
Definition operation_input (rq : create_request) (key : option string) : create_input := {|
  in_operation_id := None; in_tenant_id := Some (rq_tenant rq); in_actor_id := Some (rq_actor_id rq);
  in_actor_type := Some (rq_actor_type rq); in_workspace_id := rq_workspace rq;
  in_operation_type := rq_type rq; in_status := None; in_error_summary := None;
  in_cancellation_reason := None; in_cancelled_by := None; in_timeout_policy_snapshot := JUndef;
  in_policy_applied_at := None; in_correlation_id := rq_correlation rq; in_idempotency_key := key;
  in_saga_id := rq_saga rq; in_attempt_count := JUndef; in_max_retries := rq_max_retries rq;
  in_created_at := None; in_updated_at := None |}.

Definition new_operation (rq : create_request) (key : option string) : cact operation :=
  now_ms ≫= fun now =>
  random_uuid ≫= fun id =>
  (if rq_correlation rq then mret "" else random_uuid) ≫= fun id' =>
  lift (createOperation id id' now (operation_input rq key)).

(** The transaction: the operation and its key record, or what already holds the key. *)
Definition store_with_key (op : operation) (key hash : string) : cact (operation + option key_record) :=
  now_ms ≫= fun now =>
  commit_or_rollback (
    in_store (persistOperation op) ≫= fun stored =>
    createIdempotencyKeyRecord stored key hash ≫= fun keyRecord =>
    insertOrFind (Z.of_N now) keyRecord ≫= fun '(record, created) =>
    if negb created || negb (bool_decide (kr_operation_id <$> record = Some (operation_id stored)))
    then mret (inr record) else mret (inl stored)).

Definition create_with_key (rq : create_request) (op : operation) (key hash : string) : cact response :=
  store_with_key op key hash ≫= fun outcome =>
  match outcome with
  | inl stored =>
      publishCreateEvent stored ≫= fun _ =>
      mret (formatCreateResponse stored [("idempotent", JBool false); ("paramsMismatch", JBool false)] [])
  | inr (Some record) => answer_replay rq key hash record
  | inr None => throw (plain_error "Cannot read properties of null")
  end.

Definition create_without_key (op : operation) : cact response :=
  in_store (persistOperation op) ≫= fun stored =>
  publishCreateEvent stored ≫= fun _ =>
  mret (formatCreateResponse stored [] []).

(** The look-up of an active record before anything is created. *)
Definition find_replay (rq : create_request) (key : jsval) : cact (option (string * key_record)) :=
  lift (validateKeyFormat key) ≫= fun k =>
  now_ms ≫= fun now =>
  findActive (Z.of_N now) (rq_tenant rq) k ≫= fun found =>
  mret (match found with Some r => Some (k, r) | None => None end).

(** The whole [try] block, for the request of an identified caller. *)
Definition create_for (rq : create_request) (key : jsval) (hash : string) : cact response :=
  if truthy key then
    find_replay rq key ≫= fun replayed =>
    match replayed with
    | Some (k, record) => answer_replay rq k hash record
    | None =>
        new_operation rq (js_str key) ≫= fun op =>
        create_with_key rq op (default "" (js_str key)) hash
    end
  else new_operation rq (js_str key) ≫= fun op => create_without_key op.

(** [main] of [async-operation-create.mjs]. *)
Definition create_main (params : jsval) : cact response :=
  match buildCallerContext params with
  | None => mret (mk_response 401 [] (JObj [("code", JStr "UNAUTHORIZED");
              ("message", JStr "Missing or untrusted caller identity headers")]))
  | Some caller =>
      lift (requireCallerIdentity caller) ≫= fun _ =>
      let key := coalesce (js_get params "idempotency_key") JNull in
      let hash := if truthy key then hashParams (buildRequestPayload params) else "" in
      try_catch (create_for (request_of caller params) key hash)
        (fun e => throw (with_status (default (status_for CREATE_STATUS_CODES e) (err_status e)) e))
  end.

End create.
