(* ===== verification/AsyncCreateProofs.v ===== *)
(** * Properties of the idempotent creation of operations

    What a request leaves in the store on every branch, that a key names one
    operation for as long as its record lives, whatever else the service is
    asked meanwhile, and what the hash of the parameters depends on. *)
From S2P Require Import Prelude JsValue Json Platform AsyncOperation FailureClassification AsyncRepo AsyncActions.
From S2P Require Import AsyncSpec AsyncProofs AsyncCreate.
From stdpp Require Import sorting.
Local Open Scope Z_scope.

Notation cworld := (world create_db create_event).

(** The row a request stores beside its operation: other keys keep their rows,
    and the key's row is the new one. *)
Definition keys_after (rec : key_record) (keys keys' : list key_record) : Prop :=
  rec ∈ keys' /\
  forall r, same_key (kr_tenant_id rec) (kr_idempotency_key rec) r = false -> r ∈ keys' <-> r ∈ keys.

(** (tenant, key) is unique among the records. *)
Definition keys_unique (keys : list key_record) : Prop :=
  NoDup ((fun r => (kr_tenant_id r, kr_idempotency_key r)) <$> keys).

(** What the constraints of the table promise: unique keys, and every record
    refers to an operation. *)
Record keys_wf (db : create_db) : Prop := {
  kw_unique : keys_unique (cd_keys db);
  kw_refers : forall r, r ∈ cd_keys db -> is_Some (operations (cd_store db) !! kr_operation_id r)
}.

Definition add_operation (op : operation) (s : async_db) : async_db :=
  set_operations (<[operation_id op := op]> (operations s)) s.

(** ** Runs of the parts *)

Lemma same_key_spec t k r : same_key t k r = true <-> kr_tenant_id r = t /\ kr_idempotency_key r = k.
Proof. unfold same_key. rewrite andb_true_iff, !String.eqb_eq. done. Qed.

Lemma find_elem {A} (p : A -> bool) l x : List.find p l = Some x -> x ∈ l /\ p x = true.
Proof. intros [Hin Hp]%find_some. by rewrite list_elem_of_In. Qed.

Lemma keys_unique_same keys r r' :
  keys_unique keys -> r ∈ keys -> r' ∈ keys ->
  kr_tenant_id r = kr_tenant_id r' -> kr_idempotency_key r = kr_idempotency_key r' -> r = r'.
Proof.
  unfold keys_unique. intros Hn Hr Hr' Ht Hk. induction keys as [|a keys IH]; [by apply not_elem_of_nil in Hr|].
  rewrite fmap_cons in Hn. apply NoDup_cons in Hn as [Hna Hn].
  assert (Hno : forall b, b ∈ keys -> kr_tenant_id b = kr_tenant_id a -> kr_idempotency_key b = kr_idempotency_key a -> False).
  { intros b Hb H1 H2. apply Hna. apply list_elem_of_fmap. exists b. by rewrite H1, H2. }
  apply elem_of_cons in Hr as [->|Hr]; apply elem_of_cons in Hr' as [->|Hr']; [done| | |by apply IH].
  - by destruct (Hno r').
  - by destruct (Hno r).
Qed.

(** With unique keys, the live record of a key is the one found. *)
Lemma active_record_unique now s keys r :
  keys_unique keys -> r ∈ keys -> now < kr_expires_at r ->
  active_record now (kr_tenant_id r) (kr_idempotency_key r) (mk_create_db s keys) = Some r.
Proof.
  intros Hn Hr Hnow. unfold active_record. simpl.
  destruct (List.find _ _) as [r'|] eqn:E.
  - apply find_elem in E as [Hin [(Ht & Hk)%same_key_spec _]%andb_true_iff].
    f_equal. by apply (keys_unique_same keys).
  - exfalso. pose proof (find_none _ _ E r) as Hno. rewrite <- list_elem_of_In in Hno. specialize (Hno Hr).
    simpl in Hno. apply andb_false_iff in Hno as [Hno|Hno].
    + apply not_true_iff_false in Hno. apply Hno. by apply same_key_spec.
    + lia.
Qed.

Lemma upsert_key_inv now rec db o db' :
  upsert_key now rec db = Ok (o, db') ->
  (o = None /\ db' = db /\ exists old, old ∈ cd_keys db /\
     same_key (kr_tenant_id rec) (kr_idempotency_key rec) old = true /\ now < kr_expires_at old) \/
  (o = Some rec /\ cd_store db' = cd_store db /\ keys_after rec (cd_keys db) (cd_keys db') /\
   (keys_unique (cd_keys db) -> keys_unique (cd_keys db')) /\
   forall old, old ∈ cd_keys db -> same_key (kr_tenant_id rec) (kr_idempotency_key rec) old = true ->
     keys_unique (cd_keys db) -> kr_expires_at old <= now).
Proof.
  unfold upsert_key. destruct (List.find _ _) as [old|] eqn:E.
  - apply find_elem in E as [Hin Hsame]. destruct (Z.leb_spec (kr_expires_at old) now) as [Hle|Hlt].
    + case_match; [done|]. intros [= <- <-]. right. split; [done|]. split; [done|]. simpl. split; [|split].
      * split; [apply list_elem_of_fmap; exists old; by rewrite Hsame|].
        intros r Hr. rewrite list_elem_of_fmap. split.
        -- intros (o & Ho & Hin'). destruct (same_key _ _ o) eqn:Hk in Ho; [|by subst].
           exfalso. rewrite <- not_true_iff_false in Hr. apply Hr. rewrite Ho. by apply same_key_spec.
        -- intros Hin'. exists r. by rewrite Hr.
      * unfold keys_unique. intros Hn.
        replace (_ <$> (_ <$> cd_keys db)) with ((fun r => (kr_tenant_id r, kr_idempotency_key r)) <$> cd_keys db); [done|].
        rewrite <- list_fmap_compose. apply list_fmap_ext. intros i r _. simpl.
        destruct (same_key _ _ r) eqn:Hk; [|done]. by apply same_key_spec in Hk as [-> ->].
      * intros old' Hin' Hs' Hn. apply same_key_spec in Hsame as [H1 H2]. apply same_key_spec in Hs' as [H3 H4].
        assert (old' = old) as -> by (apply (keys_unique_same (cd_keys db)); congruence). done.
    + intros [= <- <-]. left. eauto 10.
  - case_match; [done|]. intros [= <- <-]. right.
    assert (Hno : forall r, r ∈ cd_keys db -> same_key (kr_tenant_id rec) (kr_idempotency_key rec) r = false).
    { intros r Hr. apply (find_none _ _ E). by apply list_elem_of_In. }
    split; [done|]. split; [done|]. simpl. split; [|split].
    + split; [apply elem_of_app; right; by apply list_elem_of_singleton|].
      intros r Hr. rewrite elem_of_app, list_elem_of_singleton. split; [intros [Hin'|Heq]; [done|subst]|by left].
      exfalso. rewrite <- not_true_iff_false in Hr. apply Hr. by apply same_key_spec.
    + unfold keys_unique. intros Hn. rewrite fmap_app. apply NoDup_app. split; [done|]. split; [|apply NoDup_singleton].
      intros p (r & -> & Hr)%list_elem_of_fmap. intros [= H1 H2]%list_elem_of_singleton.
      specialize (Hno r Hr). rewrite <- not_true_iff_false in Hno. apply Hno. by apply same_key_spec.
    + intros old Hin Hs. by rewrite Hno in Hs.
Qed.

Section runs.
Context `{!Platform, !CreateEnv}.
Implicit Types w : cworld.

(** The answer to a request whose key [record] holds. *)
Definition replay_result (rq : create_request) (hash : string) (record : key_record) (s : async_db) : result js_error response :=
  if nonempty (kr_operation_type record) && negb (bool_decide (Some (kr_operation_type record) = rq_type rq))
  then Err (with_status 409 (coded "IDEMPOTENCY_KEY_CONFLICT" "Idempotency key already associated with a different operation type"))
  else match select_operation (kr_operation_id record) (rq_tenant rq) s with
       | None => Err (with_status 404 (coded "NOT_FOUND" "Operation not found for active idempotency key"))
       | Some op => Ok (replay_response op (negb (String.eqb (kr_params_hash record) hash)))
       end.

Lemma in_store_findById id t w : nonempty t = true ->
  in_store (findById id (Some t)) w = (Ok (select_operation id t (cd_store (w_db w))), w).
Proof.
  intros Ht. unfold in_store, findById, requireTenantId. change (truthy_str (Some t)) with (nonempty t). rewrite Ht. cbn.
  destruct w as [[s ks] ti u p ev]. cbn. unfold set_db. cbn. f_equal. f_equal. apply app_nil_r.
Qed.

Lemma quiet_publish e w :
  exists w', try_catch (publish e) (fun _ => mret tt) w = (Ok tt, w') /\ w_db w' = w_db w.
Proof. unfold try_catch, publish. destruct (broker _); eexists; done. Qed.

Lemma answer_replay_run rq key hash record w : nonempty (rq_tenant rq) = true ->
  exists w', answer_replay rq key hash record w = (replay_result rq hash record (cd_store (w_db w)), w') /\ w_db w' = w_db w.
Proof.
  intros Ht. unfold answer_replay, resolveExistingOperation, replay_result.
  destruct (_ && _); [by eexists|].
  destruct (select_operation _ _ _) as [op|] eqn:Hs.
  - edestruct (quiet_publish (Deduplicated op (rq_actor_id rq) key (negb (String.eqb (kr_params_hash record) hash))
      (default (correlation_id op) (rq_correlation rq))) w) as (w' & Hw & Hdb).
    exists w'. split; [|done].
    erewrite M_bind_run; [|erewrite M_bind_run by (by apply in_store_findById); by rewrite Hs].
    unfold publishDedupEvent. by erewrite M_bind_run by exact Hw.
  - exists w. split; [|done].
    by erewrite M_bind_run_err; [|erewrite M_bind_run by (by apply in_store_findById); by rewrite Hs].
Qed.

(** What a new operation looks like. *)
Definition new_for (rq : create_request) (key : option string) (op : operation) : Prop :=
  status op = "pending" /\ tenant_id op = rq_tenant rq /\ actor_id op = rq_actor_id rq /\
  Some (operation_type op) = rq_type rq /\ nonempty (operation_type op) = true /\
  idempotency_key op = key /\ attempt_count op = 0 /\ error_summary_of op = None /\
  exists n, operation_id op = uuid n.

Lemma createOperation_new (rq : create_request) key n id' now op :
  createOperation (uuid n) id' now (operation_input rq key) = Ok op -> new_for rq key op.
Proof.
  unfold createOperation. rewrite result_bind_ok. setoid_rewrite result_bind_ok. setoid_rewrite result_bind_ok.
  intros (? & Hreq & ? & _ & ? & _ & Hop). simplify_eq.
  apply check_required_ok in Hreq. unfold REQUIRED_CREATE_FIELDS, operation_input in Hreq.
  rewrite !Forall_cons in Hreq. cbn in Hreq. destruct Hreq as (_ & _ & _ & (o & Ho & Hne) & _).
  unfold new_for. cbn. rewrite Ho. split_and!; try done; [cbn; by apply nonempty_true | by exists n].
Qed.

Lemma new_operation_run rq key w :
  exists r w', new_operation rq key w = (r, w') /\ w_db w' = w_db w /\
  match r with
  | Ok op => new_for rq key op
  | Err e => exists id id' now, createOperation id id' now (operation_input rq key) = Err e
  end.
Proof.
  unfold new_operation, now_ms, random_uuid. unfold_monad.
  destruct (rq_correlation rq) eqn:Hc; cbn [fst snd];
    (eexists _, _; split; [reflexivity|]; split; [reflexivity|]); destruct (createOperation _ _ _ _) eqn:E;
    eauto using createOperation_new.
Qed.

Lemma in_store_persist op w : nonempty (tenant_id op) = true -> nonempty (actor_id op) = true ->
  in_store (persistOperation op) w = (Err unique_violation, w) \/
  (in_store (persistOperation op) w =
     (Ok op, set_db (mk_create_db (add_operation op (cd_store (w_db w))) (cd_keys (w_db w))) w) /\
   operations (cd_store (w_db w)) !! operation_id op = None).
Proof.
  intros Ht Ha. destruct w as [[s ks] ti u p ev]. unfold in_store, persistOperation, requireTenantId, requireActorId, set_db.
  change (truthy_str (Some (tenant_id op))) with (nonempty (tenant_id op)).
  change (truthy_str (Some (actor_id op))) with (nonempty (actor_id op)). rewrite Ht, Ha.
  unfold_monad. unfold exec_db_err, insert_operation. cbn.
  destruct (operations s !! operation_id op) eqn:E; cbn.
  - left. do 2 f_equal. apply app_nil_r.
  - right. split; [|done]. do 2 f_equal. apply app_nil_r.
Qed.

Lemma key_record_run op key hash w :
  nonempty (tenant_id op) = true -> nonempty (operation_type op) = true -> validateKeyFormat (JStr key) = Ok key ->
  exists r w', createIdempotencyKeyRecord op key hash w = (r, w') /\ w_db w' = w_db w /\
  match r with
  | Ok rec =>
      nonempty key = true /\
      kr_tenant_id rec = tenant_id op /\ kr_idempotency_key rec = key /\
      kr_operation_id rec = operation_id op /\ kr_operation_type rec = operation_type op /\ kr_params_hash rec = hash /\
      exists n, kr_expires_at rec = Z.of_N (clock n) + resolveTtlHours * 3600000
  | Err _ => operation_id op = ""
  end.
Proof.
  intros Ht Hty Hk. unfold createIdempotencyKeyRecord, key_record_fields, now_ms, random_uuid. unfold_monad.
  cbn [require_fields]. rewrite Ht, Hty, Hk.
  assert (nonempty key = true) as ->.
  { apply nonempty_true. intros ->. discriminate. }
  destruct (nonempty (operation_id op)) eqn:Hid.
  - eexists _, _. split; [reflexivity|]. cbn. split_and!; eauto.
  - eexists _, _. split; [reflexivity|]. split; [done|].
    by apply negb_false_iff, String.eqb_eq in Hid.
Qed.

Lemma insertOrFind_run now rec w : nonempty (kr_tenant_id rec) = true -> nonempty (kr_idempotency_key rec) = true ->
  insertOrFind now rec w = (Err unique_violation, w) \/
  (insertOrFind now rec w = (let found := active_record now (kr_tenant_id rec) (kr_idempotency_key rec) (w_db w) in
     (Ok (found, match found with Some e => String.eqb (kr_operation_id e) (kr_operation_id rec) | None => false end), w)) /\
   is_Some (active_record now (kr_tenant_id rec) (kr_idempotency_key rec) (w_db w))) \/
  (exists db', insertOrFind now rec w = (Ok (Some rec, true), set_db db' w) /\ upsert_key now rec (w_db w) = Ok (Some rec, db')).
Proof.
  intros Ht Hk. destruct w as [db ti u p ev]. unfold insertOrFind, requireTenantId, requireIdempotencyKey.
  change (truthy_str (Some (kr_tenant_id rec))) with (nonempty (kr_tenant_id rec)). rewrite Ht, Hk.
  unfold_monad. unfold exec_db_err. cbn.
  destruct (upsert_key now rec db) as [[o db']|e] eqn:E.
  2: { left. unfold upsert_key in E. repeat case_match; by simplify_eq. }
  right. pose proof (upsert_key_inv _ _ _ _ _ E) as [(-> & -> & old & Hin & Hs & Hlt)|(-> & _)].
  - left. split.
    2: { unfold active_record. destruct (List.find _ _) eqn:Hf; [by eexists|]. exfalso.
         pose proof (find_none _ _ Hf old (proj1 (list_elem_of_In _ _) Hin)) as Hno. cbn in Hno. rewrite Hs in Hno.
         apply Z.ltb_lt in Hlt. cbn in Hno. congruence. }
    unfold findActive, requireTenantId, requireIdempotencyKey.
    change (truthy_str (Some (kr_tenant_id rec))) with (nonempty (kr_tenant_id rec)). rewrite Ht, Hk. reflexivity.
  - right. exists db'. split; [|done]. cbn. by rewrite String.eqb_refl.
Qed.

(** The operation is added, with a record of its key. *)
Definition stored_with (op : operation) (key hash : string) (db db' : create_db) : Prop :=
  operations (cd_store db) !! operation_id op = None /\
  cd_store db' = add_operation op (cd_store db) /\
  exists rec m n db1, cd_keys db1 = cd_keys db /\ upsert_key (Z.of_N (clock m)) rec db1 = Ok (Some rec, db') /\
    kr_tenant_id rec = tenant_id op /\ kr_idempotency_key rec = key /\
    kr_operation_id rec = operation_id op /\ kr_operation_type rec = operation_type op /\
    kr_params_hash rec = hash /\ kr_expires_at rec = Z.of_N (clock n) + resolveTtlHours * 3600000.

(** The transaction: rolled back with what holds the key, or committed. *)
Lemma store_with_key_run op key hash w :
  nonempty (tenant_id op) = true -> nonempty (actor_id op) = true -> nonempty (operation_type op) = true ->
  validateKeyFormat (JStr key) = Ok key -> keys_wf (w_db w) ->
  exists r w', store_with_key op key hash w = (r, w') /\
  match r with
  | Ok (inl stored) => stored = op /\ stored_with op key hash (w_db w) (w_db w')
  | Ok (inr record) =>
      w_db w' = w_db w /\
      exists n rec, record = Some rec /\ active_record (Z.of_N (clock n)) (tenant_id op) key (w_db w) = Some rec
  | Err e => w_db w' = w_db w /\ (e = unique_violation \/ operation_id op = "")
  end.
Proof.
  intros Ht Hac Hty Hkey Hwf. unfold store_with_key. set (w1 := snd (now_ms w)).
  erewrite M_bind_run by reflexivity. fold w1. unfold commit_or_rollback.
  destruct (in_store_persist op w1 Ht Hac) as [He|[He Hnew]].
  { erewrite M_bind_run_err by exact He. eexists _, _. split; [reflexivity|]. split; [done|by left]. }
  change (w_db w1) with (w_db w) in Hnew.
  erewrite M_bind_run by exact He. set (w2 := set_db _ w1).
  destruct (key_record_run op key hash w2 Ht Hty Hkey) as (r & w3 & Hr & Hdb3 & Hrec).
  destruct r as [rec|e]; [|erewrite M_bind_run_err by exact Hr; eexists _, _; split; [reflexivity|]; split; [done|by right]].
  erewrite M_bind_run by exact Hr.
  destruct Hrec as (Hk & Hrt & Hrk & Hri & Hrty & Hrh & n & Hexp).
  set (now := Z.of_N (clock (w_tick w))).
  assert (Hact : active_record now (kr_tenant_id rec) (kr_idempotency_key rec) (w_db w3)
            = active_record now (tenant_id op) key (w_db w)) by by rewrite Hdb3, Hrt, Hrk.
  destruct (insertOrFind_run now rec w3) as [Hi|[[Hi Hlive]|(db' & Hi & Hu)]];
    [by rewrite Hrt | by rewrite Hrk | | |].
  - erewrite M_bind_run_err by exact Hi. eexists _, _. split; [reflexivity|]. split; [done|by left].
  - cbv zeta in Hi. erewrite M_bind_run by exact Hi. rewrite Hact in Hlive |- *.
    destruct Hlive as [r Ha]. rewrite Ha. destruct (_ || _) eqn:Hb.
    { eexists _, _. split; [reflexivity|]. split; [done|]. eauto. }
    exfalso. apply orb_false_iff in Hb as [_ Hb]. rewrite negb_false_iff, bool_decide_eq_true in Hb.
    apply find_elem in Ha as [Hin _]. destruct (kw_refers _ Hwf r Hin) as [o Ho].
    cbn in Hb. simplify_eq. congruence.
  - erewrite M_bind_run by exact Hi. cbn [negb orb].
    rewrite bool_decide_eq_true_2 by (cbn; congruence). cbn [negb]. eexists _, _. split; [reflexivity|].
    split; [done|]. split; [done|].
    pose proof (upsert_key_inv _ _ _ _ _ Hu) as [(? & _)|(_ & Hst & _)]; [done|]. cbn [set_db w_db].
    split; [by rewrite Hst, Hdb3|]. exists rec, (w_tick w), n, (w_db w3).
    split; [by rewrite Hdb3|]. by split_and!.
Qed.

(** ** The contract of a creation *)

(** Why a creation may be refused when its key is free. *)
Inductive refusal (rq : create_request) (key : jsval) : js_error -> Prop :=
| bad_input e id id' now : createOperation id id' now (operation_input rq (js_str key)) = Err e -> refusal rq key e
| id_taken : refusal rq key unique_violation
| empty_uuid e n : uuid n = "" -> refusal rq key e.

(** The answers to a request, and the state they leave: [now] is the first
    reading of the clock. *)
Inductive answers (rq : create_request) (key : jsval) (hash : string) (now : Z) (db : create_db) :
    result js_error response -> create_db -> Prop :=
| ans_bad_key e :
    truthy key = true -> validateKeyFormat key = Err e -> answers rq key hash now db (Err e) db
| ans_replayed k record now' :
    key = JStr k -> active_record now' (rq_tenant rq) k db = Some record ->
    answers rq key hash now db (replay_result rq hash record (cd_store db)) db
| ans_refused e :
    (forall k, key = JStr k -> truthy key = true -> active_record now (rq_tenant rq) k db = None) ->
    refusal rq key e -> answers rq key hash now db (Err e) db
| ans_plain op :
    truthy key = false -> new_for rq (js_str key) op -> operations (cd_store db) !! operation_id op = None ->
    answers rq key hash now db (Ok (formatCreateResponse op [] []))
      (mk_create_db (add_operation op (cd_store db)) (cd_keys db))
| ans_created k op db' :
    key = JStr k -> active_record now (rq_tenant rq) k db = None -> new_for rq (Some k) op ->
    stored_with op k hash db db' ->
    answers rq key hash now db
      (Ok (formatCreateResponse op [("idempotent", JBool false); ("paramsMismatch", JBool false)] [])) db'.

Lemma validateKeyFormat_inv key k : validateKeyFormat key = Ok k -> key = JStr k /\ nonempty k = true.
Proof.
  unfold validateKeyFormat. destruct key; try done. case_match eqn:E; [done|]. intros [= ->]. split; [done|].
  apply nonempty_true. intros ->. done.
Qed.

Lemma create_without_key_run op w : nonempty (tenant_id op) = true -> nonempty (actor_id op) = true ->
  exists r w', create_without_key op w = (r, w') /\
  match r with
  | Ok resp => resp = formatCreateResponse op [] [] /\ operations (cd_store (w_db w)) !! operation_id op = None /\
      w_db w' = mk_create_db (add_operation op (cd_store (w_db w))) (cd_keys (w_db w))
  | Err e => e = unique_violation /\ w_db w' = w_db w
  end.
Proof.
  intros Ht Ha. unfold create_without_key, publishCreateEvent.
  destruct (in_store_persist op w Ht Ha) as [He|[He Hnew]].
  { erewrite M_bind_run_err by exact He. by eexists _, _. }
  erewrite M_bind_run by exact He.
  edestruct quiet_publish as (w' & Hp & Hdb). erewrite M_bind_run by exact Hp.
  eexists _, _. split; [reflexivity|]. by rewrite Hdb.
Qed.

Lemma find_replay_run rq key w : nonempty (rq_tenant rq) = true ->
  exists w', find_replay rq key w =
    (match validateKeyFormat key with
     | Err e => Err e
     | Ok k => Ok (match active_record (Z.of_N (clock (w_tick w))) (rq_tenant rq) k (w_db w) with
                   | Some r => Some (k, r) | None => None end)
     end, w') /\ w_db w' = w_db w.
Proof.
  intros Ht. unfold find_replay. destruct (validateKeyFormat key) as [k|e] eqn:Hk; [|by eexists].
  apply validateKeyFormat_inv in Hk as [_ Hk]. unfold findActive, requireTenantId, requireIdempotencyKey.
  erewrite M_bind_run by reflexivity. erewrite M_bind_run by reflexivity.
  change (truthy_str (Some (rq_tenant rq))) with (nonempty (rq_tenant rq)). rewrite Ht, Hk.
  eexists. by split; [cbn; reflexivity|].
Qed.

Lemma create_for_run rq key hash w :
  nonempty (rq_tenant rq) = true -> nonempty (rq_actor_id rq) = true -> keys_wf (w_db w) ->
  exists r w', create_for rq key hash w = (r, w') /\
    answers rq key hash (Z.of_N (clock (w_tick w))) (w_db w) r (w_db w').
Proof.
  intros Ht Ha Hwf. unfold create_for. destruct (truthy key) eqn:Hkey.
  - destruct (find_replay_run rq key w Ht) as (w1 & Hf & Hdb1).
    destruct (validateKeyFormat key) as [k|e] eqn:Hv.
    2: { erewrite M_bind_run_err by exact Hf. eexists _, _. split; [done|]. rewrite Hdb1. by apply ans_bad_key. }
    erewrite M_bind_run by exact Hf. pose proof (validateKeyFormat_inv _ _ Hv) as [-> Hk].
    destruct (active_record _ _ k _) as [record|] eqn:Hact.
    { destruct (answer_replay_run rq k hash record w1 Ht) as (w2 & Hr & Hdb2).
      eexists _, _. split; [exact Hr|]. rewrite Hdb2, Hdb1. by eapply ans_replayed. }
    assert (Hfree : forall k0, JStr k = JStr k0 -> truthy (JStr k) = true ->
        active_record (Z.of_N (clock (w_tick w))) (rq_tenant rq) k0 (w_db w) = None) by by intros k0 [= <-].
    destruct (new_operation_run rq (js_str (JStr k)) w1) as (r & w2 & Hn & Hdb2 & Hr).
    destruct r as [op|e].
    2: { erewrite M_bind_run_err by exact Hn. eexists _, _. split; [done|]. rewrite Hdb2, Hdb1.
         destruct Hr as (id & id' & now & Hr). apply ans_refused; [done|]. by eapply bad_input. }
    erewrite M_bind_run by exact Hn. cbn [js_str default] in *. unfold create_with_key.
    pose proof Hr as (_ & Hten & Hac & _ & Hty & _ & _ & _ & n & Hid).
    edestruct (store_with_key_run op k hash w2) as (r & w3 & Hs & Hout);
      [by rewrite Hten | by rewrite Hac | done | done | by rewrite Hdb2, Hdb1|].
    rewrite Hdb2, Hdb1, Hten in Hout. destruct r as [[stored|record]|e].
    + destruct Hout as [-> Hst]. erewrite M_bind_run by exact Hs. unfold publishCreateEvent.
      edestruct quiet_publish as (w4 & Hp & Hdb4). erewrite M_bind_run by exact Hp.
      eexists _, _. split; [reflexivity|]. rewrite Hdb4. by eapply ans_created.
    + destruct Hout as (Hdb3 & now & rec & -> & Hlive). erewrite M_bind_run by exact Hs.
      destruct (answer_replay_run rq k hash rec w3 Ht) as (w4 & Hr4 & Hdb4).
      eexists _, _. split; [exact Hr4|]. rewrite Hdb4, Hdb3. by eapply ans_replayed.
    + destruct Hout as [Hdb3 He]. erewrite M_bind_run_err by exact Hs. eexists _, _. split; [reflexivity|].
      rewrite Hdb3. apply ans_refused; [done|]. destruct He as [->|He]; [apply id_taken|].
      eapply (empty_uuid _ _ _ n). congruence.
  - destruct (new_operation_run rq (js_str key) w) as (r & w2 & Hn & Hdb2 & Hr). destruct r as [op|e].
    2: { erewrite M_bind_run_err by exact Hn. eexists _, _. split; [done|]. rewrite Hdb2.
         destruct Hr as (id & id' & now & Hr). apply ans_refused; [by intros; congruence|]. by eapply bad_input. }
    erewrite M_bind_run by exact Hn. pose proof Hr as (_ & Hten & Hac & _).
    edestruct (create_without_key_run op w2) as (r & w3 & Hs & Hout); [by rewrite Hten | by rewrite Hac|].
    rewrite Hs. eexists _, _. split; [reflexivity|]. rewrite Hdb2 in Hout. destruct r as [resp|e].
    + destruct Hout as (-> & Hnew & ->). by apply ans_plain.
    + destruct Hout as (-> & ->). apply ans_refused; [by intros; congruence|]. apply id_taken.
Qed.

Lemma create_main_run params w : keys_wf (w_db w) ->
  match buildCallerContext params with
  | None => w_db (snd (create_main params w)) = w_db w
  | Some c =>
      (exists e, requireCallerIdentity c = Err e /\ w_db (snd (create_main params w)) = w_db w) \/
      requireCallerIdentity c = Ok tt /\
      let key := coalesce (js_get params "idempotency_key") JNull in
      let hash := if truthy key then hashParams (buildRequestPayload params) else "" in
      exists r, answers (request_of c params) key hash (Z.of_N (clock (w_tick w))) (w_db w) r (w_db (snd (create_main params w))) /\
        fst (create_main params w) =
          match r with
          | Ok resp => Ok resp
          | Err e => Err (with_status (default (status_for CREATE_STATUS_CODES e) (err_status e)) e)
          end
  end.
Proof.
  intros Hwf. unfold create_main. destruct (buildCallerContext params) as [c|]; [|done].
  destruct (requireCallerIdentity c) as [[]|e] eqn:Hid; [right; split; [done|]|left; by exists e].
  assert (Ht : nonempty (rq_tenant (request_of c params)) = true /\ nonempty (rq_actor_id (request_of c params)) = true).
  { unfold requireCallerIdentity in Hid. rewrite !result_bind_ok in Hid. destruct Hid as ([] & H1%throw_if_ok & Hid).
    rewrite result_bind_ok in Hid. destruct Hid as ([] & H2%throw_if_ok & _).
    cbn. destruct (cc_tenant c); [|done]. cbn in H1. by rewrite negb_false_iff in H1, H2. }
  destruct Ht as [Ht Ha]. set (key := coalesce _ _). set (hash := if truthy key then _ else _). cbv zeta.
  erewrite M_bind_run by reflexivity.
  destruct (create_for_run _ key hash w Ht Ha Hwf) as (r & w' & Hr & Hans).
  exists r. unfold try_catch. rewrite Hr. destruct r; cbn; done.
Qed.

(** ** The key is held *)

(** A record that outlives every reading of the clock gives the key of the
    tenant to an operation of the tenant. *)
Definition holds (T K ty id : string) (db : create_db) : Prop :=
  exists r op, r ∈ cd_keys db /\ kr_tenant_id r = T /\ kr_idempotency_key r = K /\ kr_operation_id r = id /\
    kr_operation_type r = ty /\ (forall n, Z.of_N (clock n) < kr_expires_at r) /\
    operations (cd_store db) !! id = Some op /\ tenant_id op = T.

(** Every record carries the type of its operation. *)
Definition typed_keys (db : create_db) : Prop :=
  forall r, r ∈ cd_keys db -> nonempty (kr_operation_type r) = true.

Definition db_wf (db : create_db) : Prop := keys_wf db /\ keyed (cd_store db) /\ typed_keys db.

Lemma keyed_add_operation op s : keyed s -> keyed (add_operation op s).
Proof. intros Hk id o. cbn. rewrite lookup_insert_Some. intros [[<- <-]|[_ ?]]; [done|by apply Hk]. Qed.

Lemma stored_with_wf op key hash db db' :
  stored_with op key hash db db' -> nonempty (operation_type op) = true -> db_wf db -> db_wf db'.
Proof.
  intros (Hnew & Hst & rec & m & n & db1 & Hk1 & Hu & Ht & Hk & Hid & Hrty & _) Hty ([Hun Href] & Hkeyed & Htk).
  pose proof (upsert_key_inv _ _ _ _ _ Hu) as [(? & _)|(_ & _ & (Hin & Hafter) & Hun' & _)]; [done|].
  rewrite Hk1 in *. specialize (Hun' Hun).
  assert (Hrec : forall r, r ∈ cd_keys db' -> r = rec \/ r ∈ cd_keys db).
  { intros r Hr. destruct (same_key (kr_tenant_id rec) (kr_idempotency_key rec) r) eqn:Hs; [left|right; by apply Hafter].
    apply same_key_spec in Hs as [H1 H2]. by apply (keys_unique_same (cd_keys db')). }
  split; [split; [done|]|split; [rewrite Hst; by apply keyed_add_operation|]].
  - intros r [->|Hr]%Hrec; rewrite Hst; cbn; apply lookup_insert_is_Some'; [by left|right; by apply Href].
  - intros r [->|Hr]%Hrec; [by rewrite Hrty|by apply Htk].
Qed.

Lemma stored_with_holds op key hash db db' T K ty id :
  stored_with op key hash db db' -> db_wf db -> holds T K ty id db -> holds T K ty id db'.
Proof.
  intros (Hnew & Hst & rec & m & n & db1 & Hk1 & Hu & Ht & Hk & Hid & _) [[Hun Href] Hkeyed]
    (r & o & Hr & HT & HK & Hrid & Hty & Hlive & Ho & Hot).
  pose proof (upsert_key_inv _ _ _ _ _ Hu) as [(? & _)|(_ & _ & (Hin & Hafter) & _ & Hexp)]; [done|].
  rewrite Hk1 in *. exists r, o.
  assert (Hs : same_key (kr_tenant_id rec) (kr_idempotency_key rec) r = false).
  { apply not_true_iff_false. intros Hs. specialize (Hexp r Hr Hs Hun). specialize (Hlive m). lia. }
  split_and!; try done; [by apply Hafter|]. rewrite Hst. cbn. rewrite lookup_insert_ne; [done|]. intros ?; congruence.
Qed.

Lemma answers_wf rq key hash now db r db' : answers rq key hash now db r db' -> db_wf db -> db_wf db'.
Proof.
  intros [ | | | op _ _ _ | k op db'' _ _ (_ & _ & _ & _ & Hty & _) Hst] Hwf; try done; [|by eapply stored_with_wf].
  destruct Hwf as ([Hun Href] & Hk & Htk). split; [split; [done|]|split; [by apply keyed_add_operation|done]].
  intros r' Hr'. cbn. apply lookup_insert_is_Some'. right. by apply Href.
Qed.

Lemma answers_holds rq key hash now db r db' T K ty id :
  answers rq key hash now db r db' -> db_wf db -> holds T K ty id db -> holds T K ty id db'.
Proof.
  intros [ | | | op _ _ Hnew | k op db'' _ _ _ Hst] Hwf Hh; try done; [|by eapply stored_with_holds].
  destruct Hh as (r' & o & ? & ? & ? & Hrid & ? & ? & Ho & ?). exists r', o. split_and!; try done.
  cbn. rewrite lookup_insert_ne; [done|]. intros ?; congruence.
Qed.

(** ** The service under any mix of requests *)

Inductive service_request :=
| CreateRequest (params : jsval)
| OverrideRequest (c : caller) (operation_id : string) (tenant justification : option string)
| StoreRequest (r : request).

(** The tenants a request may write for: an override is a superadmin's and names
    the tenant, a creation is for the tenant of the gateway's header. *)
Definition service_scope (r : service_request) : string -> Prop :=
  match r with
  | CreateRequest params => fun t => exists c, buildCallerContext params = Some c /\ cc_tenant c = Some t
  | OverrideRequest c _ tenant _ => fun t => is_type "superadmin" c = true /\ tenant = Some t
  | StoreRequest r => request_scope r
  end.

Definition serve_any (r : service_request) (w : cworld) : cworld :=
  match r with
  | CreateRequest params => snd (create_main params w)
  | OverrideRequest c oid tenant why => snd (in_store (retry_override_main c oid tenant why) w)
  | StoreRequest r => snd (in_store (serve r) w)
  end.

Fixpoint run_service (rs : list service_request) (w : cworld) : cworld :=
  match rs with
  | [] => w
  | r :: rs' => run_service rs' (serve_any r w)
  end.

Lemma create_main_cases params w : keys_wf (w_db w) ->
  w_db (snd (create_main params w)) = w_db w \/
  exists rq key hash now r, answers rq key hash now (w_db w) r (w_db (snd (create_main params w))).
Proof.
  intros Hwf. pose proof (create_main_run params w Hwf) as Hrun.
  destruct (buildCallerContext params); [|by left].
  destruct Hrun as [(e & _ & Hrun)|(_ & r & Hrun & _)]; [by left|]. right. eauto 10.
Qed.

(** *** The creation *)

Lemma add_operation_performs rq key op db db' T :
  new_for rq key op -> T (rq_tenant rq) -> operations db !! operation_id op = None -> db' = add_operation op db ->
  service_steps T db db'.
Proof.
  intros (Hst & Hten & _ & _ & _ & _ & Hatt & Hes & _) HT Hnew ->. apply rtc_once.
  apply service_create; [done|by rewrite Hten|by split_and!].
Qed.

Lemma identity_tenant c : requireCallerIdentity c = Ok tt -> cc_tenant c = Some (rq_tenant (request_of c JUndef)).
Proof.
  unfold requireCallerIdentity. rewrite result_bind_ok. intros ([] & H1%throw_if_ok & _). cbn.
  by destruct (cc_tenant c).
Qed.

Lemma create_performs params w : keys_wf (w_db w) ->
  service_steps (service_scope (CreateRequest params)) (cd_store (w_db w)) (cd_store (w_db (snd (create_main params w)))).
Proof.
  intros Hwf. pose proof (create_main_run params w Hwf) as Hrun. cbn [service_scope].
  destruct (buildCallerContext params) as [c|] eqn:Hc; [|by rewrite Hrun].
  destruct Hrun as [(e & _ & ->)|(Hi & r & Hans & _)]; [done|].
  assert (HT : exists c', Some c = Some c' /\ cc_tenant c' = Some (rq_tenant (request_of c params)))
    by (exists c; split; [done|by apply identity_tenant]).
  revert Hans. generalize (w_db (snd (create_main params w))) as db'. intros db' Hans.
  destruct Hans as [ | | | op _ Hnew Hfree | k op db' _ _ Hnew (Hfree & Hst & _)]; try done.
  - by eapply add_operation_performs.
  - by eapply add_operation_performs.
Qed.

(** *** Any request *)

(** Steps that leave the key records alone. *)
Lemma steps_wf T db db' :
  db_wf db -> service_steps T (cd_store db) (cd_store db') -> cd_keys db' = cd_keys db -> db_wf db'.
Proof.
  intros ([Hun Href] & Hk & Htk) Hs Hks. split; [split|split]; rewrite ?Hks; [done| |by eapply service_steps_keyed|].
  - intros r Hr. destruct (Href r Hr) as [o Ho].
    destruct (service_steps_row _ _ _ _ _ Hs Ho) as (o' & Ho' & _). by exists o'.
  - intros r Hr. rewrite Hks in Hr. by apply Htk.
Qed.

Lemma steps_hold T' db db' T K ty id :
  holds T K ty id db -> service_steps T' (cd_store db) (cd_store db') -> cd_keys db' = cd_keys db -> holds T K ty id db'.
Proof.
  intros (r & o & ? & ? & ? & ? & ? & ? & Ho & ?) Hs Hks.
  destruct (service_steps_row _ _ _ _ _ Hs Ho) as (o' & Ho' & Ht). exists r, o'. rewrite Hks.
  split_and!; try done. congruence.
Qed.

Lemma in_store_performs {A} (m : act A) T w :
  keyed (cd_store (w_db w)) ->
  (forall w0 : world async_db async_event, keyed (w_db w0) -> service_steps T (w_db w0) (w_db (snd (m w0)))) ->
  cd_keys (w_db (snd (in_store m w))) = cd_keys (w_db w) /\
  service_steps T (cd_store (w_db w)) (cd_store (w_db (snd (in_store m w)))).
Proof.
  intros Hk Hm. unfold in_store.
  specialize (Hm (mk_world (cd_store (w_db w)) (w_tick w) (w_uuids w) (w_published w) []) Hk).
  by destruct (m _) as [res w'].
Qed.

(** A request on the store alone leaves the key records as they are. *)
Lemma serve_any_keys r w : keyed (cd_store (w_db w)) ->
  match r with
  | CreateRequest _ => True
  | _ => cd_keys (w_db (serve_any r w)) = cd_keys (w_db w) /\
      service_steps (service_scope r) (cd_store (w_db w)) (cd_store (w_db (serve_any r w)))
  end.
Proof.
  intros Hk. destruct r as [params|c oid ten why|r]; [done| |]; cbn [serve_any service_scope]; apply in_store_performs; try done.
  - intros w0 Hk0. by apply override_performs.
  - intros w0 Hk0. by apply store_steps_service, does_serve.
Qed.

Lemma in_store_serve r w : keyed (cd_store (w_db w)) ->
  store_steps (request_scope r) (cd_store (w_db w)) (cd_store (w_db (snd (in_store (serve r) w)))).
Proof.
  intros Hk. unfold in_store.
  pose proof (does_serve r (mk_world (cd_store (w_db w)) (w_tick w) (w_uuids w) (w_published w) []) Hk) as Hs.
  by destruct (serve r _) as [res w'].
Qed.

Lemma in_store_keeps {A B} (m : act A) (f : async_db -> B) w :
  keeps (fun db => f db = f (cd_store (w_db w))) m -> f (cd_store (w_db (snd (in_store m w)))) = f (cd_store (w_db w)).
Proof.
  intros Hm. unfold in_store.
  pose proof (Hm (mk_world (cd_store (w_db w)) (w_tick w) (w_uuids w) (w_published w) []) eq_refl) as Hs.
  by destruct (m _) as [res w'].
Qed.

Lemma serve_any_steps r w : db_wf (w_db w) ->
  service_steps (service_scope r) (cd_store (w_db w)) (cd_store (w_db (serve_any r w))).
Proof.
  intros (Hwf & Hk & _). pose proof (serve_any_keys r w Hk) as Hs.
  destruct r as [params|c oid ten why|r]; [by apply create_performs|apply Hs|apply Hs].
Qed.

(** What a creation does to the log and to the operations there are. *)
Lemma create_adds params w : keys_wf (w_db w) ->
  let s' := cd_store (w_db (snd (create_main params w))) in
  transitions s' = transitions (cd_store (w_db w)) /\ operations (cd_store (w_db w)) ⊆ operations s'.
Proof.
  intros Hwf. destruct (create_main_cases params w Hwf) as [->|(? & ? & ? & ? & ? & Hans)]; [done|]. cbn zeta.
  revert Hans. generalize (w_db (snd (create_main params w))) as db'. intros db' Hans.
  destruct Hans as [ | | | op _ Hnew Hfree | k op db' _ _ Hnew (Hfree & -> & _)]; try done.
  - split; [done|]. by apply insert_subseteq.
  - split; [done|]. by apply insert_subseteq.
Qed.

Lemma serve_any_wf r w : db_wf (w_db w) -> db_wf (w_db (serve_any r w)).
Proof.
  intros Hwf. pose proof (serve_any_steps r w Hwf) as Hs. pose proof (serve_any_keys r w (proj1 (proj2 Hwf))) as Hks.
  destruct r as [params|c oid ten why|r].
  - cbn [serve_any] in *. destruct (create_main_cases params w (proj1 Hwf)) as [->|(? & ? & ? & ? & ? & Hans)]; [done|].
    by eapply answers_wf.
  - by eapply steps_wf; [| |apply Hks].
  - by eapply steps_wf; [| |apply Hks].
Qed.

Lemma serve_any_holds r w T K ty id :
  db_wf (w_db w) -> holds T K ty id (w_db w) -> holds T K ty id (w_db (serve_any r w)).
Proof.
  intros Hwf Hh. pose proof (serve_any_steps r w Hwf) as Hs. pose proof (serve_any_keys r w (proj1 (proj2 Hwf))) as Hks.
  destruct r as [params|c oid ten why|r].
  - cbn [serve_any] in *. destruct (create_main_cases params w (proj1 Hwf)) as [->|(? & ? & ? & ? & ? & Hans)]; [done|].
    by eapply answers_holds.
  - by eapply steps_hold; [| |apply Hks].
  - by eapply steps_hold; [| |apply Hks].
Qed.

Lemma run_service_holds rs w T K ty id :
  db_wf (w_db w) -> holds T K ty id (w_db w) ->
  db_wf (w_db (run_service rs w)) /\ holds T K ty id (w_db (run_service rs w)).
Proof.
  revert w. induction rs as [|r rs IH]; intros w Hwf Hh; [done|]. cbn.
  apply IH; [by apply serve_any_wf | by apply serve_any_holds].
Qed.

(** A request of an identified caller of tenant [T] under key [K]. *)
Definition under_key (T K : string) (params : jsval) : Prop :=
  exists c, buildCallerContext params = Some c /\ requireCallerIdentity c = Ok tt /\ cc_tenant c = Some T /\
    js_get params "idempotency_key" = JStr K /\ validateKeyFormat (JStr K) = Ok K.

Definition asked_type (params : jsval) : option string := js_str (js_get params "operation_type").

Definition answered_id (resp : response) : jsval := js_get (res_body resp) "operationId".

Definition key_conflict : js_error :=
  with_status 409 (coded "IDEMPOTENCY_KEY_CONFLICT" "Idempotency key already associated with a different operation type").

(** The key held, a request under it stores nothing: it is answered with the
    operation if it asks for its type, and refused if it asks for another. *)
Lemma held_answers T K ty id params w :
  db_wf (w_db w) -> holds T K ty id (w_db w) -> under_key T K params ->
  w_db (snd (create_main params w)) = w_db w /\
  if decide (asked_type params = Some ty)
  then exists resp, fst (create_main params w) = Ok resp /\ answered_id resp = JStr id /\
    js_get (res_body resp) "idempotent" = JBool true
  else fst (create_main params w) = Err key_conflict.
Proof.
  intros (Hwf & Hk & Htk) (r & op & Hr & HT & HK & Hid & Hty & Hlive & Hop & Hot) (c & Hc & Hi & Hct & Hkey & Hv).
  pose proof (create_main_run params w Hwf) as Hrun. rewrite Hc in Hrun.
  destruct Hrun as [(e & He & _)|(_ & res & Hans & Hres)]; [congruence|].
  assert (Hact : forall n, active_record (Z.of_N (clock n)) T K (w_db w) = Some r).
  { intros n. rewrite <- HT, <- HK. destruct (w_db w) as [s keys].
    apply active_record_unique; [by destruct Hwf|done|apply Hlive]. }
  assert (Htr : truthy (JStr K) = true) by (cbn; by apply validateKeyFormat_inv in Hv as [_ ?]).
  rewrite Hres. clear Hres. revert Hans. rewrite Hkey. cbn [coalesce nullish]. cbn zeta.
  assert (Hrt : rq_tenant (request_of c params) = T) by (cbn; by rewrite Hct).
  generalize (w_db (snd (create_main params w))) as db'.
  intros db' Hans. destruct Hans as [ | k record now' Hk' Hrec | e Hfree | | k op' db' Hk' Hfree].
  - congruence.
  - split; [done|]. injection Hk' as <-. unfold replay_result.
    assert (record = r) as ->.
    { rewrite Hrt in Hrec. apply find_elem in Hrec as [Hin [[H1 H2]%same_key_spec _]%andb_true_iff].
      apply (keys_unique_same (cd_keys (w_db w))); [by destruct Hwf|done|done|congruence|congruence]. }
    rewrite (Htk r Hr), Hty, Hrt. change (rq_type (request_of c params)) with (asked_type params).
    assert (Hsel : select_operation (kr_operation_id r) T (cd_store (w_db w)) = Some op)
      by (apply select_operation_some; by rewrite Hid).
    rewrite Hsel. destruct (decide (asked_type params = Some ty)) as [->|Hne].
    + rewrite bool_decide_eq_true_2 by done. cbn [negb andb]. eexists. split; [reflexivity|]. split; [|done].
      cbn. by rewrite (Hk _ _ Hop).
    + by rewrite bool_decide_eq_false_2 by congruence.
  - rewrite Hrt in Hfree. specialize (Hfree K eq_refl Htr). by rewrite Hact in Hfree.
  - congruence.
  - injection Hk' as <-. rewrite Hrt in Hfree. by rewrite Hact in Hfree.
Qed.

(** The records of the key outlive every reading of the clock. *)
Definition unexpired (T K : string) (db : create_db) : Prop :=
  forall r n, r ∈ cd_keys db -> same_key T K r = true -> Z.of_N (clock n) < kr_expires_at r.

(** A request that was answered holds its key for the operation of the answer. *)
Lemma answered_holds T K ty params w resp :
  db_wf (w_db w) -> under_key T K params -> asked_type params = Some ty -> fst (create_main params w) = Ok resp ->
  unexpired T K (w_db (snd (create_main params w))) ->
  exists id, answered_id resp = JStr id /\ holds T K ty id (w_db (snd (create_main params w))).
Proof.
  intros (Hwf & Hk & Htk) (c & Hc & Hi & Hct & Hkey & Hv) Hpt Hresp.
  pose proof (create_main_run params w Hwf) as Hrun. rewrite Hc in Hrun.
  destruct Hrun as [(e & He & _)|(_ & res & Hans & Hres)]; [congruence|].
  rewrite Hresp in Hres. clear Hresp. destruct res as [resp'|e]; [injection Hres as <-|done].
  assert (Htr : truthy (JStr K) = true) by (cbn; by apply validateKeyFormat_inv in Hv as [_ ?]).
  assert (Hrt : rq_tenant (request_of c params) = T) by (cbn; by rewrite Hct).
  revert Hans. rewrite Hkey. cbn [coalesce nullish]. cbn zeta.
  generalize (w_db (snd (create_main params w))) as db'. intros db' Hans Hun.
  remember (Ok resp) as res eqn:Hres.
  destruct Hans as [ | k record now' Hk' Hrec | | op Hf | k op db' Hk' Hfree Hnew Hst]; try done.
  - injection Hk' as <-. unfold replay_result in Hres. rewrite Hrt in *.
    apply find_elem in Hrec as [Hin [Hs _]%andb_true_iff]. pose proof Hs as [H1 H2]%same_key_spec.
    destruct (_ && _) eqn:Hcomp; [done|]. destruct (select_operation _ _ _) as [op|] eqn:Hsel; [|done].
    injection Hres as <-. apply select_operation_some in Hsel as [Hop Hot].
    exists (operation_id op). split; [done|]. exists record, op.
    split_and!; try done; [symmetry; by apply Hk| |by intros n; apply Hun|by rewrite (Hk _ _ Hop)].
    rewrite (Htk _ Hin), andb_true_l, negb_false_iff, bool_decide_eq_true in Hcomp.
    change (Some (kr_operation_type record) = asked_type params) in Hcomp. congruence.
  - congruence.
  - injection Hk' as <-. injection Hres as <-. exists (operation_id op). split; [done|].
    destruct Hnew as (_ & Hten & _ & Hty & _).
    destruct Hst as (Hnone & Hstore & rec & m & n & db1 & Hk1 & Hu & Ht & Hkk & Hid & Hrty & _).
    pose proof (upsert_key_inv _ _ _ _ _ Hu) as [(? & _)|(_ & _ & (Hin & _) & _)]; [done|].
    exists rec, op. split_and!; try done; [congruence| | |by rewrite Hstore; cbn; rewrite lookup_insert_eq|congruence].
    + change (Some (operation_type op) = asked_type params) in Hty. congruence.
    + intros n'. apply Hun; [done|]. apply same_key_spec. split; congruence.
Qed.

End runs.

(** ** The hash of the parameters *)

(** The normalised fields, before they are sorted. *)
Definition normal_fields (kvs : list (string * jsval)) : list (string * jsval) :=
  List.flat_map (fun kv => if kept_field kv then [(kv.1, normalizeParams kv.2)] else []) kvs.

Lemma normal_fields_keys kvs k : k ∈ (normal_fields kvs).*1 -> k ∈ kvs.*1.
Proof.
  unfold normal_fields. induction kvs as [|[k' x] kvs IH]; [done|]. cbn. rewrite fmap_app, elem_of_app, elem_of_cons.
  intros [H|H]; [|right; by apply IH]. left. destruct (kept_field _); [|by apply not_elem_of_nil in H].
  by apply list_elem_of_singleton in H.
Qed.

Lemma normal_fields_nodup kvs : NoDup kvs.*1 -> NoDup (normal_fields kvs).*1.
Proof.
  induction kvs as [|[k x] kvs IH]; [done|]. rewrite fmap_cons, NoDup_cons. intros [Hk Hn].
  unfold normal_fields. cbn [List.flat_map]. fold (normal_fields kvs).
  destruct (kept_field _); [|by apply IH]. cbn. apply NoDup_cons. split; [|by apply IH].
  intros H. apply Hk. by apply normal_fields_keys.
Qed.

Lemma normal_fields_perm kvs kvs' : kvs ≡ₚ kvs' -> normal_fields kvs ≡ₚ normal_fields kvs'.
Proof. intros H. unfold normal_fields. by rewrite H. Qed.

Lemma normalizeParams_same v v' : same_json v v' -> normalizeParams v = normalizeParams v'.
Proof.
  apply (same_json_mut (fun v v' => normalizeParams v = normalizeParams v')
    (fun xs ys => List.map normalizeParams xs = List.map normalizeParams ys)
    (fun kvs kvs' => normal_fields kvs = normal_fields kvs' /\ kvs.*1 = kvs'.*1)).
  - done.
  - intros xs ys _ IH. cbn. by rewrite IH.
  - intros kvs kvs' kvs'' Hn _ [IH Hk] Hp. cbn. f_equal. f_equal. fold (normal_fields kvs) (normal_fields kvs'').
    rewrite IH. apply sort_fields_unique; [|by apply normal_fields_perm].
    apply normal_fields_nodup. by rewrite <- Hk.
  - done.
  - intros x y xs ys _ Hx _ Hxs. cbn. by rewrite Hx, Hxs.
  - done.
  - intros k x y kvs kvs' Hs Hx _ [Hf Hk]. split; [|cbn; by rewrite Hk].
    unfold normal_fields in *. cbn [List.flat_map]. rewrite Hf. f_equal. unfold kept_field. cbn [fst snd].
    by rewrite (same_json_undef _ _ Hs), Hx.
Qed.

(** ** Samples *)

(** A platform whose clock stays within a second, and an environment whose
    digest is the text itself. *)
Definition steady_platform : Platform :=
  {| clock := fun n => (3600000 + N.min n 1000)%N; uuid := fun n => "uuid-" +:+ show_N n; broker := fun _ => None |}.

Definition plain_env : CreateEnv :=
  {| create_numbers := {| fraction_text := fun _ => "0.5" |}; sha256 := fun s => s;
     IDEMPOTENCY_KEY_MAX_LENGTH := None; IDEMPOTENCY_KEY_TTL_HOURS := None |}.

Definition create_params (tenant corr key : string) : jsval :=
  JObj [("__ow_headers", JObj [("x-auth-subject", JStr "usr-1"); ("x-tenant-id", JStr tenant);
                               ("x-actor-type", JStr "tenant_owner"); ("x-correlation-id", JStr corr)]);
        ("idempotency_key", JStr key); ("operation_type", JStr "tenant.create")].

Definition empty_db : create_db := mk_create_db (mk_async_db ∅ [] [] [] [] [] [] [] None) [].
Definition empty_world : cworld := mk_world empty_db 0 0 0 [].

Lemma empty_db_wf : db_wf empty_db.
Proof.
  split; [split|split].
  - apply NoDup_nil_2.
  - intros r H. by apply not_elem_of_nil in H.
  - intros id op H. cbn [cd_store empty_db operations] in H. by rewrite lookup_empty in H.
  - intros r H. by apply not_elem_of_nil in H.
Defined.

(** ** Properties *)

(** Every request of an identified caller gets one of five answers: its key
    is malformed; its key is live, and the request is answered from its record
    and changes nothing; it is refused because of its fields or an identifier
    that is taken, and changes nothing; or exactly one pending operation of the
    caller is added, with a record of its key if it has one. *)
Theorem create_contract `{!Platform, !CreateEnv} (params : jsval) (c : create_caller) (w : cworld) :
  keys_wf (w_db w) -> buildCallerContext params = Some c -> requireCallerIdentity c = Ok tt ->
  let key := coalesce (js_get params "idempotency_key") JNull in
  let hash := if truthy key then hashParams (buildRequestPayload params) else "" in
  exists r,
    answers (request_of c params) key hash (Z.of_N (clock (w_tick w))) (w_db w) r (w_db (snd (create_main params w))) /\
    fst (create_main params w) =
      match r with
      | Ok resp => Ok resp
      | Err e => Err (with_status (default (status_for CREATE_STATUS_CODES e) (err_status e)) e)
      end.
Proof.
  intros Hwf Hc Hi. pose proof (create_main_run params w Hwf) as Hrun. rewrite Hc in Hrun.
  destruct Hrun as [(e & He & _)|[_ Hrun]]; [congruence|exact Hrun].
Qed.

Lemma create_contract_witness :
  exists r, @answers steady_platform plain_env
      (request_of (mk_create_caller "usr-1" "tenant_owner" (Some "ten-1") (Some "corr-1")) (create_params "ten-1" "corr-1" "key-1"))
      (JStr "key-1") (@hashParams plain_env (buildRequestPayload (create_params "ten-1" "corr-1" "key-1"))) 3600000
      empty_db r (w_db (snd (@create_main steady_platform plain_env (create_params "ten-1" "corr-1" "key-1") empty_world))) /\
    is_ok r = true /\
    length (cd_keys (w_db (snd (@create_main steady_platform plain_env (create_params "ten-1" "corr-1" "key-1") empty_world)))) = 1%nat.
Proof.
  destruct (@create_contract steady_platform plain_env (create_params "ten-1" "corr-1" "key-1")
    (mk_create_caller "usr-1" "tenant_owner" (Some "ten-1") (Some "corr-1")) empty_world
    (proj1 empty_db_wf) eq_refl eq_refl) as (r & Hans & Hres).
  exists r. split; [exact Hans|]. split; [|vm_compute; reflexivity].
  assert (Hok : is_ok (fst (@create_main steady_platform plain_env (create_params "ten-1" "corr-1" "key-1") empty_world)) = true)
    by (vm_compute; reflexivity).
  rewrite Hres in Hok. by destruct r.
Defined.


(** An operation that waits for an intervention, its flag, and no key yet. *)
Definition flagged_db : create_db :=
  mk_create_db (set_flags [mk_flag "flag-1" "op-1" "ten-1" "usr-1" "max_retries_exhausted" 3 None None "pending" None 0 None None None]
    (sample_db (with_intervention true 6 (sample_operation "failed")))) [].


(** C4: an idempotency key names one operation.  After a request of an identified
    caller of a tenant under a valid key was answered, and whatever requests the
    service handles next (creations, overrides, transitions, cancellations,
    retries, sweeps of any tenant), a later request of an identified caller of
    the tenant under that key stores nothing: if it asks for the same operation
    type it is answered with the same operation, marked idempotent, and if it asks
    for another type, or for none, it is refused with 409
    IDEMPOTENCY_KEY_CONFLICT.  This holds as long as no reading of the clock
    reaches the expiry of the key's record. *)
Theorem create_idempotent `{!Platform, !CreateEnv} (T K ty : string) (params params' : jsval)
    (rs : list service_request) (w : cworld) (resp : response) :
  db_wf (w_db w) -> under_key T K params -> asked_type params = Some ty -> under_key T K params' ->
  let w1 := snd (create_main params w) in
  let w2 := run_service rs w1 in
  fst (create_main params w) = Ok resp -> unexpired T K (w_db w1) ->
  w_db (snd (create_main params' w2)) = w_db w2 /\
  if decide (asked_type params' = Some ty)
  then exists resp', fst (create_main params' w2) = Ok resp' /\ answered_id resp' = answered_id resp /\
    js_get (res_body resp') "idempotent" = JBool true
  else fst (create_main params' w2) = Err key_conflict.
Proof.
  intros Hwf Ha Hty Ha' w1 w2 Hresp Hun.
  destruct (answered_holds T K ty params w resp Hwf Ha Hty Hresp Hun) as (id & Hid & Hh).
  destruct (run_service_holds rs w1 T K ty id) as [Hwf2 Hh2]; [exact (serve_any_wf (CreateRequest params) w Hwf)|done|].
  rewrite Hid. by apply (held_answers T K).
Qed.

(** The same request for another type of operation. *)
Definition other_type_params : jsval :=
  match create_params "ten-1" "corr-4" "key-1" with
  | JObj kvs => JObj (List.map (fun kv => if String.eqb kv.1 "operation_type" then (kv.1, JStr "tenant.delete") else kv) kvs)
  | v => v
  end.

Lemma create_idempotent_witness :
  let env := plain_env in
  let w2 := @run_service steady_platform env
        [CreateRequest (create_params "ten-2" "corr-3" "key-1");
         OverrideRequest (tenant_caller "ten-1") "uuid-0" (Some "ten-1") None;
         StoreRequest (ReqCancel (tenant_caller "ten-1") (Some "uuid-0") None None)]
        (snd (@create_main steady_platform env (create_params "ten-1" "corr-1" "key-1") empty_world)) in
  (exists resp', fst (@create_main steady_platform env (create_params "ten-1" "corr-2" "key-1") w2) = Ok resp' /\
    answered_id resp' = JStr "uuid-0") /\
  fst (@create_main steady_platform env other_type_params w2) = Err key_conflict.
Proof.
  intros env w2.
  assert (Hasks : forall corr, @under_key env "ten-1" "key-1" (create_params "ten-1" corr "key-1")).
  { intros corr. exists (mk_create_caller "usr-1" "tenant_owner" (Some "ten-1") (Some corr)). repeat split. }
  assert (Hother : @under_key env "ten-1" "key-1" other_type_params).
  { exists (mk_create_caller "usr-1" "tenant_owner" (Some "ten-1") (Some "corr-4")). repeat split. }
  assert (Hun : @unexpired steady_platform "ten-1" "key-1"
    (w_db (snd (@create_main steady_platform env (create_params "ten-1" "corr-1" "key-1") empty_world)))).
  { assert (Hall : forallb (fun r => 3601000 <? kr_expires_at r)%Z (cd_keys (w_db (snd (@create_main steady_platform env
        (create_params "ten-1" "corr-1" "key-1") empty_world)))) = true) by (vm_compute; reflexivity).
    intros r n Hin _. rewrite forallb_forall in Hall. apply list_elem_of_In, Hall, Z.ltb_lt in Hin. cbn. lia. }
  pose proof (fun params' H => @create_idempotent steady_platform env "ten-1" "key-1" "tenant.create"
    (create_params "ten-1" "corr-1" "key-1") params'
    [CreateRequest (create_params "ten-2" "corr-3" "key-1");
     OverrideRequest (tenant_caller "ten-1") "uuid-0" (Some "ten-1") None;
     StoreRequest (ReqCancel (tenant_caller "ten-1") (Some "uuid-0") None None)]
    empty_world
    (match fst (@create_main steady_platform env (create_params "ten-1" "corr-1" "key-1") empty_world) with
     | Ok r => r | Err _ => mk_response 0 [] JNull end) empty_db_wf (Hasks "corr-1") eq_refl H eq_refl Hun) as Hthm.
  split.
  - destruct (Hthm _ (Hasks "corr-2")) as [_ Hr]. rewrite decide_True in Hr by done.
    destruct Hr as (resp' & Hr & Hid & _). exists resp'. split; [exact Hr|]. rewrite Hid. vm_compute. reflexivity.
  - destruct (Hthm _ Hother) as [_ Hr]. by rewrite decide_False in Hr by (vm_compute; discriminate).
Defined.

(** The hash of the parameters does not depend on the order in which an
    object lists its fields, at any depth. *)
Theorem hashParams_order `{!CreateEnv} (params params' : jsval) :
  same_json params params' -> hashParams params = hashParams params'.
Proof. intros Hs. unfold hashParams. by rewrite (normalizeParams_same _ _ Hs). Qed.

Lemma hashParams_order_witness :
  @hashParams plain_env (JObj [("b", JNum (NInt 1)); ("a", JStr "x")])
  = @hashParams plain_env (JObj [("a", JStr "x"); ("b", JNum (NInt 1))]).
Proof.
  apply (@hashParams_order plain_env). eapply same_obj.
  - cbn. apply NoDup_cons. split; [by intros H%list_elem_of_singleton|apply NoDup_singleton].
  - repeat constructor; done.
  - apply perm_swap.
Defined.

(** The headers of the gateway are part of the hashed parameters, so the
    same request sent again under its key with a fresh correlation id is
    answered with its operation but reported as a parameter mismatch, whenever
    the digest tells the two texts apart. *)
Theorem replay_reports_header_mismatch (digest : string -> string) :
  let env := {| create_numbers := {| fraction_text := fun _ => "" |}; sha256 := digest; IDEMPOTENCY_KEY_MAX_LENGTH := None;
                IDEMPOTENCY_KEY_TTL_HOURS := None |} in
  let first := create_params "ten-1" "corr-1" "key-1" in
  let again := create_params "ten-1" "corr-2" "key-1" in
  let text p := @json_text (@create_numbers env) (normalizeParams (buildRequestPayload p)) in
  digest (text first) <> digest (text again) ->
  exists resp, fst (@create_main steady_platform env again (snd (@create_main steady_platform env first empty_world))) = Ok resp /\
    answered_id resp = JStr "uuid-0" /\
    js_get (res_body resp) "paramsMismatch" = JBool true.
Proof.
  intros env first again text Hne. apply String.eqb_neq in Hne. revert Hne.
  subst env first again text. vm_compute. intros Hne. rewrite Hne. by eexists.
Qed.

Lemma replay_reports_header_mismatch_witness :
  exists resp, fst (@create_main steady_platform plain_env (create_params "ten-1" "corr-2" "key-1")
      (snd (@create_main steady_platform plain_env (create_params "ten-1" "corr-1" "key-1") empty_world))) = Ok resp /\
    js_get (res_body resp) "paramsMismatch" = JBool true.
Proof.
  destruct (replay_reports_header_mismatch (fun s => s)) as (resp & Hr & _ & Hm).
  - vm_compute. discriminate.
  - exists resp. split; [exact Hr | exact Hm].
Defined.
