(* ===== verification/AsyncQuery.v ===== *)
(** * Queries on operations

    provisioning-orchestrator's [actions/async-operation-query.mjs] and
    [repositories/async-operation-query-repo.mjs]: lists, details, progress logs
    and results, for the tenant of the caller or, for a superadmin, for any.
    [COLUMNS] are the columns the migrations give [async_operations]; the
    database refuses a statement that names another one.  The duration that is
    only logged is left out, and the producer is taken to be present. *)
From S2P Require Import Prelude JsValue Platform AsyncOperation FailureClassification AsyncRepo AsyncActions AsyncCreate.
From stdpp Require Import sorting.
Local Open Scope Z_scope.

(** ** State *)

(** A row of [async_operation_log_entries]. *)
Record log_entry := mk_log_entry {
  le_log_entry_id : string;
  le_operation_id : string;
  le_level : string;
  le_message : string;
  le_occurred_at : Z
}.

(** The columns of migrations 073, 075, 076 and 078. *)
Definition COLUMNS : list string :=
  ["operation_id"; "tenant_id"; "actor_id"; "actor_type"; "workspace_id"; "operation_type"; "status";
   "error_summary"; "correlation_id"; "idempotency_key"; "saga_id"; "created_at"; "updated_at";
   "attempt_count"; "max_retries"; "cancelled_by"; "cancellation_reason"; "timeout_policy_snapshot";
   "policy_applied_at"; "failure_category"; "failure_error_code"; "failure_description";
   "failure_suggested_actions"; "manual_intervention_required"].

(** The tables a query reads.  [qd_columns] is the schema of
    [async_operations]; [qd_results] holds the columns [result] and
    [completed_at] of a schema that has them. *)
Record query_state := mk_query_state {
  qd_store : async_db;
  qd_columns : list string;
  qd_results : gmap string (jsval * option Z);
  qd_logs : list log_entry
}.

Record audit_event := mk_audit_event {
  ae_actor_id : string;
  ae_tenant_id : option string;
  ae_operation_id : option string;
  ae_query_type : string;
  ae_timestamp : Z
}.

Notation qact := (M (world query_state audit_event) js_error).

(** ** The repository *)

Definition DEFAULT_LIMIT : Z := 20.
Definition MAX_LIMIT : Z := 100.

Definition assertTenantIsolation (tenant : option string) (isSuperadmin : bool) : result js_error unit :=
  throw_if (negb (bool_decide (is_Some tenant)) && negb isSuperadmin)
    (coded "TENANT_ISOLATION_VIOLATION" "tenant_id is required").

(** [Number.isFinite(v) ? Math.trunc(v) : fallback] *)
Definition truncated (v : jsval) (fallback : Z) : Z :=
  match v with JNum n => match num_trunc n with NInt z => z | _ => fallback end | _ => fallback end.

Definition normalizeLimit (limit : jsval) : Z :=
  let parsed := truncated limit DEFAULT_LIMIT in
  if parsed <=? 0 then DEFAULT_LIMIT else Z.min parsed MAX_LIMIT.

Definition normalizeOffset (offset : jsval) : Z :=
  let parsed := truncated offset 0 in if parsed <? 0 then 0 else parsed.

(** The predicate [tenant_id = $n], or none for a superadmin without a tenant. *)
Definition tenant_matches (tenant : option string) (op : operation) : bool :=
  match tenant with None => true | Some t => String.eqb (tenant_id op) t end.

(** A filter the request sets to a non-empty string. *)
Definition filter_matches (wanted : option string) (value : option string) : bool :=
  if truthy_str wanted then bool_decide (value = wanted) else true.

Record list_params := mk_list_params {
  lp_status : option string;
  lp_operationType : option string;
  lp_workspaceId : option string;
  lp_limit : jsval;
  lp_offset : jsval
}.

(** The WHERE clause of a list. *)
Definition listed (tenant : option string) (p : list_params) (op : operation) : bool :=
  tenant_matches tenant op && filter_matches (lp_status p) (Some (status op))
  && filter_matches (lp_operationType p) (Some (operation_type op)) && filter_matches (lp_workspaceId p) (workspace_id op).

Record page (A : Type) := mk_page { pg_items : list A; pg_total : nat; pg_limit : Z; pg_offset : Z }.
Arguments mk_page {A} _ _ _ _.
Arguments pg_items {A} _.
Arguments pg_total {A} _.
Arguments pg_limit {A} _.
Arguments pg_offset {A} _.

(** [LIMIT l OFFSET o] of an ordered result. *)
Definition slice {A} (l o : Z) (xs : list A) : list A := take (Z.to_nat l) (drop (Z.to_nat o) xs).

Definition occurred_asc (a b : log_entry) : Prop := le_occurred_at a <= le_occurred_at b.
#[export] Instance occurred_asc_dec : RelDecision occurred_asc.
Proof. intros a b. unfold occurred_asc. apply _. Defined.
#[export] Instance created_desc_decision : RelDecision created_desc.
Proof. intros a b. unfold created_desc. apply _. Defined.

(** The operations a list ranges over, newest first. *)
Definition listing (tenant : option string) (p : list_params) (db : query_state) : list operation :=
  merge_sort created_desc (rows_where (listed tenant p) (qd_store db)).

(** [err_code] of PostgreSQL's undefined_column. *)
Definition undefined_column : js_error := coded "42703" "column does not exist".

Section query.
Context `{!Platform}.

(** A statement that names these columns of [async_operations]. *)
Definition select_columns {A} (columns : list string) (f : query_state -> A) : qact A :=
  query_db (fun db => forallb (fun c => str_in c (qd_columns db)) columns) ≫= fun known : bool =>
  if known then query_db f else throw undefined_column.

Definition listOperations (tenant : option string) (isSuperadmin : bool) (p : list_params) : qact (page operation) :=
  lift (assertTenantIsolation tenant isSuperadmin) ≫= fun _ =>
  let limit := normalizeLimit (lp_limit p) in
  let offset := normalizeOffset (lp_offset p) in
  query_db (fun db => length (rows_where (listed tenant p) (qd_store db))) ≫= fun total =>
  query_db (fun db => slice limit offset (listing tenant p db)) ≫= fun items =>
  mret (mk_page items total limit offset).

Definition getOperationById (id : string) (tenant : option string) (isSuperadmin : bool) : qact (option operation) :=
  lift (assertTenantIsolation tenant isSuperadmin) ≫= fun _ =>
  query_db (fun db => match operations (qd_store db) !! id with
                      | Some op => if tenant_matches tenant op then Some op else None
                      | None => None
                      end).

(** The entries of an operation, joined with it to check its tenant. *)
Definition entries_of (id tenant : string) (db : query_state) : list log_entry :=
  match operations (qd_store db) !! id with
  | Some op => if String.eqb (tenant_id op) tenant
               then List.filter (fun e => String.eqb (le_operation_id e) id) (qd_logs db) else []
  | None => []
  end.

Definition getOperationLogs (id tenant : string) (limit offset : jsval) : qact (page log_entry) :=
  let limit := normalizeLimit limit in
  let offset := normalizeOffset offset in
  query_db (fun db => length (entries_of id tenant db)) ≫= fun total =>
  query_db (fun db => slice limit offset (merge_sort occurred_asc (entries_of id tenant db))) ≫= fun entries =>
  mret (mk_page entries total limit offset).

Record result_projection := mk_result_projection {
  rp_operation_id : string;
  rp_status : string;
  rp_resultType : string;
  rp_summary : jsval;
  rp_failureReason : jsval;
  rp_completedAt : option Z
}.

Definition result_type (st : string) : string :=
  if String.eqb st "completed" then "success" else if String.eqb st "failed" then "failure" else "pending".

Definition success_summary (result : jsval) : jsval :=
  match result with
  | JStr s => JStr s
  | JObj _ | JArr _ => coalesce (coalesce (js_get result "summary") (js_get result "message")) JNull
  | _ => JNull
  end.

(** The row of the result statement: the operation with the two columns. *)
Definition project_result (op : operation) (extra : jsval * option Z) : result_projection :=
  let resultType := result_type (status op) in
  mk_result_projection (operation_id op) (status op) resultType
    (if String.eqb resultType "success" then success_summary extra.1 else JNull)
    (match error_summary_of op with Some es => jstr_opt (es_message es) | None => JNull end)
    (match extra.2 with
     | Some t => Some t
     | None => if String.eqb resultType "pending" then None else Some (updated_at op)
     end).

Definition RESULT_COLUMNS : list string :=
  ["operation_id"; "status"; "result"; "error_summary"; "updated_at"; "completed_at"].

Definition getOperationResult (id tenant : string) : qact (option result_projection) :=
  select_columns RESULT_COLUMNS (fun db =>
    (fun op => project_result op (default (JNull, None) (qd_results db !! id))) <$> select_operation id tenant (qd_store db)).

(** ** The action *)

Definition VALID_QUERY_TYPES : list string := ["list"; "detail"; "logs"; "result"].

Definition QUERY_STATUS_CODES : list (string * Z) :=
  [("VALIDATION_ERROR", 400); ("NOT_FOUND", 404); ("FORBIDDEN", 403); ("TENANT_ISOLATION_VIOLATION", 403)].

Definition bad_request (message : string) : js_error := with_status 400 (coded "VALIDATION_ERROR" message).

Definition requireQueryType (queryType : string) : result js_error unit :=
  throw_if (negb (str_in queryType VALID_QUERY_TYPES)) (bad_request "queryType must be one of list, detail, logs or result").

Definition requireOperationId (queryType : string) (operationId : option string) : result js_error unit :=
  if negb (str_in queryType ["detail"; "logs"; "result"]) then Ok tt
  else throw_if (negb (truthy_str operationId)) (bad_request "operationId is required for detail, logs and result queries").

(** The caller of [buildCallerContext]: the tenant is required but for a superadmin. *)
Definition requireQueryCaller (c : create_caller) : result js_error unit :=
  throw_if (negb (nonempty (cc_actor_id c))) (bad_request "callerContext.actor.id is required") ≫= fun _ =>
  throw_if (negb (nonempty (cc_actor_type c))) (bad_request "callerContext.actor.type is required") ≫= fun _ =>
  throw_if (negb (String.eqb (cc_actor_type c) "superadmin") && negb (truthy_str (cc_tenant c)))
    (bad_request "callerContext.tenantId is required").

Definition resolveQueryScope (c : create_caller) (wanted : option string) : result js_error (option string) :=
  if String.eqb (cc_actor_type c) "superadmin" then Ok wanted
  else if truthy_str wanted && negb (bool_decide (wanted = cc_tenant c))
  then Err (with_status 403 (coded "TENANT_ISOLATION_VIOLATION" "tenantId must come from callerContext"))
  else Ok (cc_tenant c).

Definition formatOperationSummary (op : operation) : jsval :=
  JObj [("operationId", JStr (operation_id op)); ("status", JStr (status op)); ("operationType", JStr (operation_type op));
        ("tenantId", JStr (tenant_id op)); ("workspaceId", jstr_opt (workspace_id op)); ("actorId", JStr (actor_id op));
        ("actorType", JStr (actor_type op)); ("createdAt", jint (created_at op)); ("updatedAt", jint (updated_at op));
        ("correlationId", JStr (correlation_id op))].

Definition formatOperationDetail (op : operation) : jsval :=
  JObj [("queryType", JStr "detail"); ("operationId", JStr (operation_id op)); ("status", JStr (status op));
        ("operationType", JStr (operation_type op)); ("tenantId", JStr (tenant_id op));
        ("workspaceId", jstr_opt (workspace_id op)); ("actorId", JStr (actor_id op)); ("actorType", JStr (actor_type op));
        ("correlationId", JStr (correlation_id op)); ("idempotencyKey", jstr_opt (idempotency_key op));
        ("sagaId", jstr_opt (saga_id op)); ("createdAt", jint (created_at op)); ("updatedAt", jint (updated_at op));
        ("errorSummary", match error_summary_of op with Some es => es_json es | None => JNull end)].

Definition pagination_json {A} (p : page A) : jsval := JObj [("limit", jint (pg_limit p)); ("offset", jint (pg_offset p))].

Definition formatList (p : page operation) : jsval :=
  JObj [("queryType", JStr "list"); ("items", JArr (formatOperationSummary <$> pg_items p));
        ("total", jint (Z.of_nat (pg_total p))); ("pagination", pagination_json p)].

Definition formatLogsResponse (id : string) (p : page log_entry) : jsval :=
  JObj [("queryType", JStr "logs"); ("operationId", JStr id);
        ("entries", JArr ((fun e => JObj [("logEntryId", JStr (le_log_entry_id e)); ("level", JStr (le_level e));
            ("message", JStr (le_message e)); ("occurredAt", jint (le_occurred_at e))]) <$> pg_items p));
        ("total", jint (Z.of_nat (pg_total p))); ("pagination", pagination_json p)].

Definition formatResultResponse (r : result_projection) : jsval :=
  JObj [("queryType", JStr "result"); ("operationId", JStr (rp_operation_id r)); ("status", JStr (rp_status r));
        ("resultType", JStr (rp_resultType r)); ("summary", rp_summary r); ("failureReason", rp_failureReason r);
        ("retryable", JNull); ("completedAt", match rp_completedAt r with Some t => jint t | None => JNull end)].

Record query_params := mk_query_params {
  qp_type : string;
  qp_operationId : option string;
  qp_tenant : option string;
  qp_list : list_params
}.

Definition query_not_found : js_error := with_status 404 (coded "NOT_FOUND" "Operation not found").

(** The body of a detail, logs or result query, and the operation it is about. *)
Definition query_one (p : query_params) (tenant : option string) (isSuperadmin : bool) : qact (jsval * operation) :=
  let id := default "" (qp_operationId p) in
  getOperationById id tenant isSuperadmin ≫= fun found =>
  match found with
  | None => throw query_not_found
  | Some op =>
      (if String.eqb (qp_type p) "detail" then mret (formatOperationDetail op)
       else if String.eqb (qp_type p) "logs" then
         getOperationLogs id (tenant_id op) (lp_limit (qp_list p)) (lp_offset (qp_list p)) ≫= fun logs =>
         mret (formatLogsResponse (operation_id op) logs)
       else
         getOperationResult id (tenant_id op) ≫= fun r =>
         match r with
         | None => throw query_not_found
         | Some r => mret (formatResultResponse r)
         end) ≫= fun body =>
      mret (body, op)
  end.

Definition query_body (p : query_params) (tenant : option string) (isSuperadmin : bool) : qact (jsval * option operation) :=
  if String.eqb (qp_type p) "list" then
    listOperations tenant isSuperadmin (qp_list p) ≫= fun response => mret (formatList response, None)
  else query_one p tenant isSuperadmin ≫= fun '(body, op) => mret (body, Some op).

(** [main] of [async-operation-query.mjs], for the caller [buildCallerContext] gives. *)
Definition query_main (caller : option create_caller) (p : query_params) : qact response :=
  match caller with
  | None => mret (mk_response 401 [] (JObj [("code", JStr "UNAUTHORIZED");
              ("message", JStr "Missing or untrusted caller identity headers")]))
  | Some c =>
      lift (requireQueryCaller c) ≫= fun _ =>
      lift (requireQueryType (qp_type p)) ≫= fun _ =>
      lift (requireOperationId (qp_type p) (qp_operationId p)) ≫= fun _ =>
      lift (resolveQueryScope c (qp_tenant p)) ≫= fun tenant =>
      try_catch (
        query_body p tenant (String.eqb (cc_actor_type c) "superadmin") ≫= fun '(body, op) =>
        now_ms ≫= fun now =>
        try_catch (publish (mk_audit_event (cc_actor_id c)
            (first_some (tenant_id <$> op) tenant) (first_some (operation_id <$> op) (qp_operationId p))
            (qp_type p) (Z.of_N now))) (fun _ => mret tt) ≫= fun _ =>
        let correlationId := first_some (correlation_id <$> op) (cc_correlation c) in
        mret (mk_response 200 (if truthy_str correlationId then [("X-Correlation-Id", default "" correlationId)] else []) body))
        (fun e => throw (with_status (default (status_for QUERY_STATUS_CODES e) (err_status e)) e))
  end.

End query.

(** ** Lemmas *)

Section query_lemmas.
Context `{!Platform}.
Implicit Types w : world query_state audit_event.

Lemma normalizeLimit_bounds v : 1 <= normalizeLimit v <= MAX_LIMIT.
Proof. unfold normalizeLimit, MAX_LIMIT, DEFAULT_LIMIT. destruct (Z.leb_spec (truncated v 20) 0); lia. Qed.

Lemma normalizeLimit_id n : 1 <= n <= MAX_LIMIT -> normalizeLimit (jint n) = n.
Proof.
  unfold normalizeLimit, MAX_LIMIT, truncated. intros ?. cbn [jint num_trunc].
  destruct (Z.leb_spec n 0); lia.
Qed.

Lemma normalizeOffset_id n : 0 <= n -> normalizeOffset (jint n) = n.
Proof. unfold normalizeOffset, truncated. intros ?. cbn [jint num_trunc]. destruct (Z.ltb_spec n 0); lia. Qed.

(** Consecutive slices make up the whole. *)
Lemma concat_slices {A} (xs : list A) (l : Z) (n : nat) : 1 <= l ->
  mjoin ((fun k => slice l (Z.of_nat k * l) xs) <$> seq 0 n) = take (n * Z.to_nat l) xs.
Proof.
  intros Hl. induction n as [|n IH]; [done|].
  rewrite seq_S, fmap_app, join_app, IH. cbn. rewrite app_nil_r. unfold slice.
  replace (Z.to_nat (Z.of_nat n * l)) with (n * Z.to_nat l)%nat by lia.
  rewrite take_take_drop. f_equal. lia.
Qed.

Lemma slice_elem {A} l o (xs : list A) x : x ∈ slice l o xs -> x ∈ xs.
Proof. unfold slice. intros Hx. rewrite <- (take_drop (Z.to_nat o) xs). apply elem_of_app. right.
  rewrite <- (take_drop (Z.to_nat l) (drop _ xs)). apply elem_of_app. by left. Qed.

Lemma listing_elem tenant p db op : op ∈ listing tenant p db ->
  (exists id, operations (qd_store db) !! id = Some op) /\ listed tenant p op = true.
Proof.
  unfold listing. rewrite merge_sort_Permutation. unfold rows_where.
  rewrite list_elem_of_In, filter_In, <- list_elem_of_In, list_elem_of_fmap.
  intros [([id o] & -> & Hin) Hl]. apply elem_of_map_to_list in Hin. eauto.
Qed.

Lemma listOperations_run tenant sup p w : tenant <> None \/ sup = true ->
  listOperations tenant sup p w =
    (Ok (mk_page (slice (normalizeLimit (lp_limit p)) (normalizeOffset (lp_offset p)) (listing tenant p (w_db w)))
          (length (listing tenant p (w_db w))) (normalizeLimit (lp_limit p)) (normalizeOffset (lp_offset p))), w).
Proof.
  intros Ht. unfold listOperations, assertTenantIsolation.
  assert (negb (bool_decide (is_Some tenant)) && negb sup = false) as ->.
  { destruct Ht as [Ht|Ht]; [|rewrite Ht; apply andb_false_r]. destruct tenant; [|done].
    by rewrite bool_decide_eq_true_2 by by eexists. }
  assert (length (listing tenant p (w_db w)) = length (rows_where (listed tenant p) (qd_store (w_db w)))) as ->
    by apply Permutation_length, merge_sort_Permutation. reflexivity.
Qed.

Lemma getOperationById_run id tenant sup w : tenant <> None \/ sup = true ->
  getOperationById id tenant sup w =
    (Ok (match operations (qd_store (w_db w)) !! id with
         | Some op => if tenant_matches tenant op then Some op else None
         | None => None end), w).
Proof.
  intros Ht. unfold getOperationById, assertTenantIsolation.
  assert (negb (bool_decide (is_Some tenant)) && negb sup = false) as ->; [|done].
  destruct Ht as [Ht|Ht]; [|rewrite Ht; apply andb_false_r]. destruct tenant; [|done].
  by rewrite bool_decide_eq_true_2 by by eexists.
Qed.

(** What a successful query shows: the page of a list, or one operation with
    its own log entries or its own result. *)
Inductive shows (p : query_params) (tenant : option string) (db : query_state) : jsval -> option operation -> Prop :=
| shows_list items total l o :
    qp_type p = "list" ->
    items = slice l o (listing tenant (qp_list p) db) -> total = length (listing tenant (qp_list p) db) ->
    1 <= l <= MAX_LIMIT -> shows p tenant db (formatList (mk_page items total l o)) None
| shows_detail id op :
    qp_type p = "detail" -> qp_operationId p = Some id -> operations (qd_store db) !! id = Some op ->
    tenant_matches tenant op = true -> shows p tenant db (formatOperationDetail op) (Some op)
| shows_logs id op pg :
    qp_type p = "logs" -> qp_operationId p = Some id -> operations (qd_store db) !! id = Some op ->
    tenant_matches tenant op = true -> Forall (fun e => le_operation_id e = id) (pg_items pg) ->
    shows p tenant db (formatLogsResponse (operation_id op) pg) (Some op)
| shows_result id op extra :
    qp_type p = "result" -> qp_operationId p = Some id -> operations (qd_store db) !! id = Some op ->
    tenant_matches tenant op = true -> forallb (fun c => str_in c (qd_columns db)) RESULT_COLUMNS = true ->
    shows p tenant db (formatResultResponse (project_result op extra)) (Some op).

Lemma getOperationLogs_run id tenant l o w :
  exists pg, getOperationLogs id tenant l o w = (Ok pg, w) /\ Forall (fun e => le_operation_id e = id) (pg_items pg).
Proof.
  eexists. split; [reflexivity|]. cbn [pg_items]. apply Forall_forall. intros e He%slice_elem.
  rewrite merge_sort_Permutation in He. unfold entries_of in He.
  destruct (operations _ !! id); [|by apply not_elem_of_nil in He].
  destruct (String.eqb _ _); [|by apply not_elem_of_nil in He].
  rewrite list_elem_of_In, filter_In in He. by destruct He as [_ ?%String.eqb_eq].
Qed.

Lemma getOperationResult_run id tenant w :
  getOperationResult id tenant w =
    (if forallb (fun c => str_in c (qd_columns (w_db w))) RESULT_COLUMNS
     then Ok ((fun op => project_result op (default (JNull, None) (qd_results (w_db w) !! id)))
                <$> select_operation id tenant (qd_store (w_db w)))
     else Err undefined_column, w).
Proof.
  unfold getOperationResult, select_columns. erewrite M_bind_run by reflexivity. by destruct (forallb _ _).
Qed.

(** A query shows what it may, or fails; either way it changes no table. *)
Lemma query_body_run p tenant sup w :
  tenant <> None \/ sup = true -> qp_type p ∈ VALID_QUERY_TYPES ->
  (qp_type p <> "list" -> is_Some (qp_operationId p)) ->
  exists r, query_body p tenant sup w = (r, w) /\
    match r with Ok (body, op) => shows p tenant (w_db w) body op | Err _ => True end.
Proof.
  intros Ht Hq Hid. unfold query_body. destruct (String.eqb_spec (qp_type p) "list") as [Hl|Hl].
  { erewrite M_bind_run by by apply listOperations_run. eexists. split; [reflexivity|].
    by apply shows_list, normalizeLimit_bounds. }
  destruct (Hid Hl) as [id Hpid]. unfold query_one. rewrite Hpid. change (default "" (Some id)) with id.
  set (k := fun found : option operation => _). pose proof (getOperationById_run id tenant sup w Ht) as Hget.
  destruct (operations (qd_store (w_db w)) !! id) as [op|] eqn:Hop.
  2: { erewrite M_bind_run_err by (erewrite M_bind_run by exact Hget; reflexivity). by eexists. }
  destruct (tenant_matches tenant op) eqn:Hm.
  2: { erewrite M_bind_run_err by (erewrite M_bind_run by exact Hget; reflexivity). by eexists. }
  destruct (String.eqb_spec (qp_type p) "detail") as [Hd|Hd].
  { erewrite M_bind_run by (erewrite M_bind_run by exact Hget; reflexivity).
    eexists. split; [reflexivity|]. by eapply shows_detail. }
  destruct (String.eqb_spec (qp_type p) "logs") as [Hg|Hg].
  { destruct (getOperationLogs_run id (tenant_id op) (lp_limit (qp_list p)) (lp_offset (qp_list p)) w) as (pg & Hpg & Hall).
    erewrite M_bind_run.
    2: { erewrite M_bind_run by exact Hget. unfold k.
         erewrite M_bind_run; [reflexivity|]. erewrite M_bind_run by exact Hpg. reflexivity. }
    eexists. split; [reflexivity|]. by eapply shows_logs. }
  assert (Hr : qp_type p = "result").
  { unfold VALID_QUERY_TYPES in Hq. rewrite !elem_of_cons, elem_of_nil in Hq. by destruct Hq as [?|[?|[?|[?|[]]]]]. }
  pose proof (getOperationResult_run id (tenant_id op) w) as Hres.
  destruct (forallb _ _) eqn:Hcols.
  2: { erewrite M_bind_run_err; [by eexists|]. erewrite M_bind_run by exact Hget. unfold k.
       erewrite M_bind_run_err; [reflexivity|]. by erewrite M_bind_run_err by exact Hres. }
  assert (Hsel : select_operation id (tenant_id op) (qd_store (w_db w)) = Some op)
    by (unfold select_operation; by rewrite Hop, String.eqb_refl).
  rewrite Hsel in Hres. erewrite M_bind_run.
  2: { erewrite M_bind_run by exact Hget. unfold k. erewrite M_bind_run; [reflexivity|].
       erewrite M_bind_run by exact Hres. reflexivity. }
  eexists. split; [reflexivity|]. by eapply shows_result.
Qed.

End query_lemmas.

Section query_main_lemmas.
Context `{!Platform}.
Implicit Types w : world query_state audit_event.

Lemma query_main_run c p w tenant :
  requireQueryCaller c = Ok tt -> requireQueryType (qp_type p) = Ok tt ->
  requireOperationId (qp_type p) (qp_operationId p) = Ok tt -> resolveQueryScope c (qp_tenant p) = Ok tenant ->
  w_db (snd (query_main (Some c) p w)) = w_db w /\
  match fst (query_body p tenant (String.eqb (cc_actor_type c) "superadmin") w) with
  | Ok (body, op) => exists resp, fst (query_main (Some c) p w) = Ok resp /\ res_body resp = body /\ res_status resp = 200 /\
      shows p tenant (w_db w) body op
  | Err e => fst (query_main (Some c) p w) = Err (with_status (default (status_for QUERY_STATUS_CODES e) (err_status e)) e)
  end.
Proof.
  intros Hc Ht Hi Hs. unfold query_main. rewrite Hc, Ht, Hi, Hs.
  assert (Hsc : tenant <> None \/ String.eqb (cc_actor_type c) "superadmin" = true).
  { unfold requireQueryCaller in Hc. rewrite !result_bind_ok in Hc. destruct Hc as (_ & _ & Hc).
    rewrite result_bind_ok in Hc. destruct Hc as (_ & _ & Hc%throw_if_ok). unfold resolveQueryScope in Hs.
    destruct (String.eqb _ _) eqn:?; [by right|left]. cbn [negb andb] in Hc. case_match; [done|].
    injection Hs as <-. by destruct (cc_tenant c). }
  destruct (query_body_run p tenant (String.eqb (cc_actor_type c) "superadmin") w Hsc) as (r & Hr & Hshow).
  { by apply throw_if_ok, negb_false_iff, str_in_elem in Ht. }
  { intros Hl. unfold requireOperationId in Hi. apply throw_if_ok in Ht. rewrite negb_false_iff, str_in_elem in Ht.
    unfold VALID_QUERY_TYPES in Ht. rewrite !elem_of_cons, elem_of_nil in Ht.
    assert (Hin : str_in (qp_type p) ["detail"; "logs"; "result"] = true).
    { apply str_in_elem. rewrite !elem_of_cons. naive_solver. }
    rewrite Hin in Hi. apply throw_if_ok in Hi. by destruct (qp_operationId p). }
  rewrite Hr. cbn [fst]. do 4 (erewrite M_bind_run by reflexivity).
  destruct r as [[body op]|e].
  - unfold try_catch. rewrite (M_bind_run _ _ _ _ _ Hr). erewrite M_bind_run by reflexivity.
    unfold publish. unfold mbind, M_bind. destruct (broker _); cbn; (split; [done|]); by eexists.
  - unfold try_catch. rewrite (M_bind_run_err _ _ _ _ _ Hr). by split.
Qed.

(** A response to an identified caller comes from a query in the caller's scope. *)
Lemma query_main_ok c p w resp :
  fst (query_main (Some c) p w) = Ok resp ->
  exists tenant body op, requireQueryCaller c = Ok tt /\ resolveQueryScope c (qp_tenant p) = Ok tenant /\
    res_body resp = body /\ shows p tenant (w_db w) body op /\ w_db (snd (query_main (Some c) p w)) = w_db w.
Proof.
  intros Hresp.
  destruct (requireQueryCaller c) as [[]|e] eqn:Hc; [|by unfold query_main in Hresp; rewrite Hc in Hresp].
  destruct (requireQueryType (qp_type p)) as [[]|e] eqn:Ht;
    [|by unfold query_main in Hresp; rewrite Hc, Ht in Hresp].
  destruct (requireOperationId (qp_type p) (qp_operationId p)) as [[]|e] eqn:Hi;
    [|by unfold query_main in Hresp; rewrite Hc, Ht, Hi in Hresp].
  destruct (resolveQueryScope c (qp_tenant p)) as [tenant|e] eqn:Hs;
    [|by unfold query_main in Hresp; rewrite Hc, Ht, Hi, Hs in Hresp].
  destruct (query_main_run c p w tenant Hc Ht Hi Hs) as [Hdb Hr].
  destruct (fst (query_body _ _ _ w)) as [[body op]|e].
  - destruct Hr as (resp' & Hr & Hb & _ & Hshow). rewrite Hresp in Hr. injection Hr as <-. eauto 10.
  - congruence.
Qed.

End query_main_lemmas.

(** ** Properties *)

(** What a query shows belongs to the tenant of its caller.  The answer to
    a caller that is not a superadmin is a page of at most a hundred operations
    of its tenant, or is about one operation of its tenant and that operation's
    own log entries or result; and no query changes the tables. *)
Theorem query_isolated `{!Platform} (c : create_caller) (p : query_params) (w : world query_state audit_event) (resp : response) :
  fst (query_main (Some c) p w) = Ok resp -> cc_actor_type c <> "superadmin" ->
  w_db (snd (query_main (Some c) p w)) = w_db w /\
  exists T, cc_tenant c = Some T /\
    ((exists ops total l o, res_body resp = formatList (mk_page ops total l o) /\ (length ops <= 100)%nat /\
        Forall (fun op => tenant_id op = T /\ exists id, operations (qd_store (w_db w)) !! id = Some op) ops) \/
     (exists id op, qp_operationId p = Some id /\ operations (qd_store (w_db w)) !! id = Some op /\ tenant_id op = T /\
        (res_body resp = formatOperationDetail op \/
         (exists pg, res_body resp = formatLogsResponse (operation_id op) pg /\ Forall (fun e => le_operation_id e = id) (pg_items pg)) \/
         exists extra, res_body resp = formatResultResponse (project_result op extra)))).
Proof.
  intros Hresp Hns. destruct (query_main_ok c p w resp Hresp) as (tenant & body & op & Hc & Hs & Hb & Hshow & Hdb).
  split; [done|]. apply String.eqb_neq in Hns. unfold resolveQueryScope in Hs. rewrite Hns in Hs.
  destruct (truthy_str (qp_tenant p) && _); [done|]. injection Hs as <-.
  assert (exists T, cc_tenant c = Some T) as [T HT].
  { unfold requireQueryCaller in Hc. rewrite !result_bind_ok in Hc. destruct Hc as (_ & _ & Hc).
    rewrite result_bind_ok in Hc. destruct Hc as (_ & _ & Hc%throw_if_ok). rewrite Hns in Hc. cbn in Hc.
    destruct (cc_tenant c); [by eexists|done]. }
  exists T. split; [done|]. rewrite HT in Hshow. rewrite Hb.
  destruct Hshow as [items total l o _ -> _ Hl | id op _ Hid Hop Hm | id op pg _ Hid Hop Hm Hall | id op extra _ Hid Hop Hm _].
  - left. do 4 eexists. split; [reflexivity|]. split; [unfold slice; rewrite length_take; unfold MAX_LIMIT in Hl; lia|].
    apply Forall_forall. intros op [Hin Hl']%slice_elem%listing_elem. split; [|done].
    unfold listed in Hl'. rewrite !andb_true_iff in Hl'. destruct Hl' as (((Hm & _) & _) & _).
    by apply String.eqb_eq.
  - right. apply String.eqb_eq in Hm. eauto 10.
  - right. apply String.eqb_eq in Hm. eauto 10.
  - right. apply String.eqb_eq in Hm. exists id, op. split_and!; eauto.
Qed.

Definition query_world (op : operation) : world query_state audit_event :=
  mk_world (mk_query_state (mk_async_db {[operation_id op := op]} [] [] [] [] [] [] [] None) COLUMNS ∅ []) 0 0 0 [].
Definition query_caller : create_caller := mk_create_caller "usr-1" "tenant_owner" (Some "ten-1") None.
Definition list_all (limit offset : Z) : list_params := mk_list_params None None None (jint limit) (jint offset).
Definition query_platform : Platform :=
  {| clock := fun n => n; uuid := fun n => "uuid-" +:+ show_N n; broker := fun _ => None |}.

Definition query_answer (p : query_params) (op : operation) : response :=
  match fst (@query_main query_platform (Some query_caller) p (query_world op)) with
  | Ok r => r
  | Err _ => mk_response 0 [] JNull
  end.

Lemma query_isolated_witness :
  js_get (res_body (query_answer (mk_query_params "detail" (Some "op-1") None (list_all 20 0)) (sample_operation "running"))) "tenantId"
    = JStr "ten-1" /\
  exists id op, operations (qd_store (w_db (query_world (sample_operation "running")))) !! id = Some op /\ Some (tenant_id op) = Some "ten-1".
Proof.
  split; [vm_compute; reflexivity|].
  destruct (@query_isolated query_platform query_caller (mk_query_params "detail" (Some "op-1") None (list_all 20 0))
    (query_world (sample_operation "running"))
    (query_answer (mk_query_params "detail" (Some "op-1") None (list_all 20 0)) (sample_operation "running")))
    as (_ & T & HT & [(ops & ? & ? & ? & Hb & _)|(id & op & _ & Hop & Ht & _)]).
  - vm_compute. reflexivity.
  - done.
  - discriminate Hb.
  - exists id, op. split; [exact Hop|]. rewrite Ht. symmetry. exact HT.
Defined.

(** Paging loses and repeats nothing.  The pages of a list at consecutive
    offsets make up, in order, the listing of the matching operations, newest
    first; every page reports their number. *)
Theorem list_pages_complete `{!Platform} (tenant : option string) (isSuperadmin : bool) (p : list_params) (limit : Z) (n : nat)
    (w : world query_state audit_event) :
  tenant <> None \/ isSuperadmin = true -> 1 <= limit <= MAX_LIMIT ->
  Z.of_nat (length (listing tenant p (w_db w))) <= Z.of_nat n * limit ->
  let page_at k := listOperations tenant isSuperadmin
    (mk_list_params (lp_status p) (lp_operationType p) (lp_workspaceId p) (jint limit) (jint (Z.of_nat k * limit))) w in
  exists pages, Forall2 (fun k pg => page_at k = (Ok pg, w) /\ pg_total pg = length (listing tenant p (w_db w))) (seq 0 n) pages /\
    mjoin (pg_items <$> pages) = listing tenant p (w_db w) /\
    Sorted created_desc (listing tenant p (w_db w)) /\
    listing tenant p (w_db w) ≡ₚ rows_where (listed tenant p) (qd_store (w_db w)).
Proof.
  intros Ht Hl Hn page_at.
  exists ((fun k => mk_page (slice limit (Z.of_nat k * limit) (listing tenant p (w_db w)))
                     (length (listing tenant p (w_db w))) limit (Z.of_nat k * limit)) <$> seq 0 n).
  split_and!.
  - apply Forall2_fmap_r, Forall_Forall2_diag, Forall_forall. intros k _. split; [|done].
    unfold page_at. rewrite listOperations_run by done. cbn [lp_limit lp_offset].
    rewrite normalizeLimit_id, normalizeOffset_id by lia. reflexivity.
  - rewrite <- list_fmap_compose. unfold compose. cbn [pg_items]. rewrite concat_slices by lia.
    apply take_ge. nia.
  - apply Sorted_merge_sort. intros a b. unfold created_desc. lia.
  - apply merge_sort_Permutation.
Qed.

Lemma list_pages_complete_witness :
  exists pages, mjoin (pg_items <$> pages) =
    listing (Some "ten-1") (list_all 20 0) (w_db (query_world (sample_operation "running"))) /\ length pages = 2%nat.
Proof.
  destruct (@list_pages_complete query_platform (Some "ten-1") false (list_all 20 0) 1 2 (query_world (sample_operation "running")))
    as (pages & Hp & Hj & _).
  - by left.
  - unfold MAX_LIMIT. lia.
  - vm_compute. discriminate.
  - exists pages. split; [exact Hj|]. by apply Forall2_length in Hp.
Defined.

(** The result of an operation is out of reach.  Over the columns the
    migrations create, every [result] query for an operation of the caller's
    tenant fails with status 500: the statement names columns that do not exist. *)
Theorem result_query_fails `{!Platform} (c : create_caller) (T id : string) (filter : option string) (l : list_params) (op : operation)
    (w : world query_state audit_event) :
  qd_columns (w_db w) = COLUMNS -> requireQueryCaller c = Ok tt -> cc_tenant c = Some T -> id <> "" ->
  resolveQueryScope c filter = Ok (Some T) ->
  operations (qd_store (w_db w)) !! id = Some op -> tenant_id op = T ->
  fst (query_main (Some c) (mk_query_params "result" (Some id) filter l) w) = Err (with_status 500 undefined_column).
Proof.
  intros Hcols Hc HT Hne Hs Hop Hten.
  assert (Hi : requireOperationId "result" (Some id) = Ok tt) by (unfold requireOperationId; cbn; by apply String.eqb_neq in Hne as ->).
  destruct (query_main_run c (mk_query_params "result" (Some id) filter l) w (Some T) Hc eq_refl Hi Hs) as [_ Hr].
  assert (Hq : fst (query_body (mk_query_params "result" (Some id) filter l) (Some T) (String.eqb (cc_actor_type c) "superadmin") w)
               = Err undefined_column).
  { pose proof (getOperationById_run id (Some T) (String.eqb (cc_actor_type c) "superadmin") w) as Hget.
    rewrite Hop in Hget. cbn [tenant_matches] in Hget. rewrite Hten, String.eqb_refl in Hget.
    change (fst ((query_one (mk_query_params "result" (Some id) filter l) (Some T) (String.eqb (cc_actor_type c) "superadmin")
      ≫= fun '(body, op) => mret (body, Some op)) w) = Err undefined_column).
    erewrite M_bind_run_err; [reflexivity|]. unfold query_one. erewrite M_bind_run by (apply Hget; by left).
    cbv beta iota. cbn [qp_type]. change (String.eqb "result" "detail") with false. change (String.eqb "result" "logs") with false.
    cbv iota. erewrite M_bind_run_err; [reflexivity|]. erewrite M_bind_run_err; [reflexivity|].
    change (default "" (qp_operationId _)) with id. rewrite getOperationResult_run, Hcols. reflexivity. }
  rewrite Hq in Hr. exact Hr.
Qed.

Lemma result_query_fails_witness :
  fst (@query_main query_platform (Some query_caller) (mk_query_params "result" (Some "op-1") None (list_all 20 0))
    (query_world (sample_operation "completed"))) = Err (with_status 500 undefined_column).
Proof.
  apply (@result_query_fails query_platform query_caller "ten-1" "op-1" None (list_all 20 0) (sample_operation "completed")
    (query_world (sample_operation "completed"))); try reflexivity. discriminate.
Defined.
