(* ===== verification/Saga.v ===== *)
(** * Sagas

    control-plane-executor's [src/saga/*.mjs]: the saga definitions, the state
    store over migration 070's tables, the compensation loop with its retries,
    the engine ([executeSaga], [recoverInFlightSagas]), the idempotency check and
    the status read model.

    The workflow steps themselves (Keycloak, Kafka, APISIX, S3 calls) are
    outside the model: the [n]-th effect of the run either gives a value or
    throws, as the [Workflows] class says.  [adapter_exports_query] tells whether
    the PostgreSQL adapter module exports a query function; without one
    [adapterQuery] returns no rows and writes nothing.  UUIDs are fresh, so the
    primary keys are not checked; the unique [idempotency_key] and the NOT NULL
    [tenant_id] are. *)
From S2P Require Import Prelude JsValue Platform.
From stdpp Require Import sorting.
From Stdlib Require Import Ascii.
Local Open Scope Z_scope.

(** ** Configuration ([saga-config.mjs]) *)

Definition intFromEnv (value : option string) (fallback : Z) : Z :=
  match value with
  | None => fallback
  | Some v => match parse_int v with NInt n => n | _ => fallback end
  end.

Record saga_config := mk_saga_config {
  maxRetries : Z;
  baseDelayMs : Z;
  maxDelayMs : Z;
  staleness_threshold_ms : Z
}.

Definition SAGA_CONFIG (env : string -> option string) : saga_config :=
  {| maxRetries := intFromEnv (env "SAGA_COMPENSATION_MAX_RETRIES") 3;
     baseDelayMs := intFromEnv (env "SAGA_COMPENSATION_BASE_DELAY_MS") 500;
     maxDelayMs := intFromEnv (env "SAGA_COMPENSATION_MAX_DELAY_MS") 10000;
     staleness_threshold_ms := intFromEnv (env "SAGA_RECOVERY_STALENESS_MS") 60000 |}.

(** [Math.min(base * Math.pow(2, attempt), max)]; attempts count from one. *)
Definition backoffDelay (attempt : nat) (cfg : saga_config) : Z :=
  Z.min (baseDelayMs cfg * 2 ^ Z.of_nat attempt) (maxDelayMs cfg).

(** ** Definitions ([saga-definitions.mjs]) *)

Record step_def := mk_step_def {
  sd_ordinal : Z;
  sd_key : string;
  sd_auditMilestone : bool;
  sd_forward : string;
  sd_compensate : string
}.

Record saga_definition := mk_saga_definition {
  sd_workflowId : string;
  sd_provisional : bool;
  sd_recoveryPolicy : string;
  sd_steps : list step_def
}.

Definition sagaDefinitions : list (string * saga_definition) :=
  [("WF-CON-001", mk_saga_definition "WF-CON-001" false "compensate"
     [mk_step_def 1 "assign-keycloak-role" true "assignKeycloakRole" "revokeKeycloakRole";
      mk_step_def 2 "update-membership-record" true "updateMembershipRecord" "revertMembershipRecord"]);
   ("WF-CON-002", mk_saga_definition "WF-CON-002" false "compensate"
     [mk_step_def 1 "create-keycloak-realm" true "createKeycloakRealm" "deleteKeycloakRealm";
      mk_step_def 2 "create-postgresql-boundary" true "createPostgresqlBoundary" "deletePostgresqlBoundary";
      mk_step_def 3 "create-kafka-namespace" true "createKafkaNamespace" "deleteKafkaNamespace";
      mk_step_def 4 "configure-apisix-routes" true "configureApisixRoutes" "removeApisixRoutes"]);
   ("WF-CON-003", mk_saga_definition "WF-CON-003" false "compensate"
     [mk_step_def 1 "create-keycloak-client" true "createKeycloakClient" "deleteKeycloakClient";
      mk_step_def 2 "create-postgresql-workspace" true "createPostgresqlWorkspace" "deletePostgresqlWorkspace";
      mk_step_def 3 "reserve-s3-storage" true "reserveS3Storage" "releaseS3Storage"]);
   ("WF-CON-004", mk_saga_definition "WF-CON-004" false "compensate"
     [mk_step_def 1 "create-keycloak-credential" true "createKeycloakCredential" "revertKeycloakCredential";
      mk_step_def 2 "sync-apisix-consumer" true "syncApisixConsumer" "removeApisixConsumer";
      mk_step_def 3 "record-credential-metadata" true "recordCredentialMetadata" "deleteCredentialMetadata"]);
   ("WF-CON-005", mk_saga_definition "WF-CON-005" true "compensate" []);
   ("WF-CON-006", mk_saga_definition "WF-CON-006" false "compensate"
     [mk_step_def 1 "create-service-account" true "createServiceAccount" "deleteServiceAccount"])].

(** ** Tables and events *)

Record saga := mk_saga {
  sg_saga_id : string;
  sg_workflow_id : string;
  sg_idempotency_key : option string;
  sg_correlation_id : string;
  sg_tenant_id : option string;
  sg_workspace_id : option string;
  sg_actor_type : string;
  sg_actor_id : string;
  sg_status : string;
  sg_recovery_policy : string;
  sg_input_snapshot : jsval;
  sg_output_snapshot : jsval;
  sg_error_summary : jsval;
  sg_created_at : Z;
  sg_updated_at : Z
}.

Record saga_step := mk_saga_step {
  st_step_id : string;
  st_saga_id : string;
  st_step_ordinal : Z;
  st_step_key : string;
  st_status : string;
  st_input_snapshot : jsval;
  st_output_snapshot : jsval;
  st_error_detail : jsval;
  st_compensation_attempts : Z;
  st_created_at : Z;
  st_updated_at : Z
}.

Record compensation_log := mk_compensation_log {
  cl_saga_id : string;
  cl_step_id : string;
  cl_attempt : Z;
  cl_outcome : string;
  cl_error_detail : jsval
}.

Record saga_db := mk_saga_db {
  saga_instances : list saga;
  saga_steps : list saga_step;
  saga_compensation_log : list compensation_log
}.

(** The effects of a run in order: calls of the workflow functions, pauses, and
    what was emitted. *)
Inductive saga_event :=
| Forwarded (key : string) (succeeded : bool)
| Compensated (key : string) (input output : jsval) (succeeded : bool)
| Slept (ms : Z)
| WorkflowStarted (saga_id : string)
| StepMilestone (key status : string)
| WorkflowTerminal (saga_id status : string)
| CompensationFailedAlert (saga_id : string) (failedSteps : list string).

Notation sact := (M (world saga_db saga_event) js_error).

Class Workflows := {
  forward_result : nat -> result js_error jsval;
  compensate_result : nat -> option js_error;
  math_random36 : N -> string;
  adapter_exports_query : bool;
  alert_emitter : bool;
  saga_env : string -> option string
}.

(** The caller context of a request. *)
Record saga_caller := mk_saga_caller {
  sc_tenantId : option string;
  sc_workspaceId : option string;
  sc_actorType : option string;
  sc_actorId : option string;
  sc_actor : option string;
  sc_correlationId : option string;
  sc_recoveryPolicy : option string;
  sc_role : option string
}.

Record saga_ctx := mk_saga_ctx {
  sx_sagaId : string;
  sx_workflowId : string;
  sx_correlationId : string;
  sx_tenantId : option string;
  sx_workspaceId : option string;
  sx_actorType : string;
  sx_actorId : string
}.

Definition first_of (a b : option string) : option string := match a with Some x => Some x | None => b end.

Section saga.
Context `{!Platform, !Workflows}.

Definition cfg : saga_config := SAGA_CONFIG saga_env.

(** ** Effects *)

Definition record_event (e : saga_event) (w : world saga_db saga_event) : world saga_db saga_event :=
  mk_world (w_db w) (w_tick w) (w_uuids w) (w_published w) (w_events w ++ [e]).

Definition call_forward (sd : step_def) : sact jsval := fun w =>
  let r := forward_result (length (w_events w)) in
  (r, record_event (Forwarded (sd_key sd) (is_ok r)) w).

Definition call_compensate (sd : step_def) (input output : jsval) : sact unit := fun w =>
  match compensate_result (length (w_events w)) with
  | None => (Ok tt, record_event (Compensated (sd_key sd) input output true) w)
  | Some e => (Err e, record_event (Compensated (sd_key sd) input output false) w)
  end.

Definition sleep (ms : Z) : sact unit := fun w => (Ok tt, record_event (Slept ms) w).

(** [Math.random().toString(36).slice(2, 10).padEnd(8, '0').slice(0, 8)] *)
Definition random8 : sact string := fun w =>
  let digits := take 8 (drop 2 (chars (math_random36 (w_uuids w)))) in
  (Ok (of_chars (digits ++ replicate (8 - length digits) "0"%char)),
   mk_world (w_db w) (w_tick w) (N.succ (w_uuids w)) (w_published w) (w_events w)).

(** ** The state store *)

Definition adapterRows {A} (f : saga_db -> list A) : sact (list A) :=
  if adapter_exports_query then query_db f else mret [].
Definition adapterWrite (f : saga_db -> saga_db) : sact unit :=
  if adapter_exports_query then exec_db (fun db => (tt, f db)) else mret tt.

Definition nowIso : sact Z := now_ms ≫= fun now => mret (Z.of_N now).

Definition insert_saga (row : saga) (db : saga_db) : result js_error (unit * saga_db) :=
  if negb (bool_decide (is_Some (sg_tenant_id row)))
  then Err (coded "23502" "null value in column tenant_id violates not-null constraint")
  else if existsb (fun s => bool_decide (is_Some (sg_idempotency_key row) /\ sg_idempotency_key s = sg_idempotency_key row)) (saga_instances db)
  then Err (coded "23505" "duplicate key value violates unique constraint")
  else Ok (tt, mk_saga_db (saga_instances db ++ [row]) (saga_steps db) (saga_compensation_log db)).

Definition createSagaInstance (workflowId : string) (params : jsval) (c : saga_caller)
    (correlationId : string) (idempotencyKey : option string) : sact saga :=
  random_uuid ≫= fun id => nowIso ≫= fun created => nowIso ≫= fun updated =>
  let row := mk_saga id workflowId idempotencyKey correlationId (sc_tenantId c) (sc_workspaceId c)
    (default "unknown" (sc_actorType c)) (default "unknown" (first_of (sc_actorId c) (sc_actor c)))
    "executing" (default "compensate" (sc_recoveryPolicy c)) params JNull JNull created updated in
  (if adapter_exports_query then exec_db_err (insert_saga row) else mret tt) ≫= fun _ =>
  mret row.

(** [outputOrError ?? null] *)
Definition or_null (v : jsval) : jsval := coalesce v JNull.

Definition with_saga_status (st : string) (v : jsval) (now : Z) (s : saga) : saga :=
  let isError := String.eqb st "compensation-failed" in
  mk_saga (sg_saga_id s) (sg_workflow_id s) (sg_idempotency_key s) (sg_correlation_id s) (sg_tenant_id s)
    (sg_workspace_id s) (sg_actor_type s) (sg_actor_id s) st (sg_recovery_policy s) (sg_input_snapshot s)
    (if isError then JNull else or_null v) (if isError then or_null v else JNull) (sg_created_at s) now.

Definition updateSagaStatus (sagaId st : string) (v : jsval) : sact unit :=
  nowIso ≫= fun now =>
  adapterWrite (fun db => mk_saga_db
    ((fun s => if String.eqb (sg_saga_id s) sagaId then with_saga_status st v now s else s) <$> saga_instances db)
    (saga_steps db) (saga_compensation_log db)).

Definition createSagaStep (sagaId : string) (ordinal : Z) (key : string) (input : jsval) : sact saga_step :=
  random_uuid ≫= fun id => nowIso ≫= fun created => nowIso ≫= fun updated =>
  let row := mk_saga_step id sagaId ordinal key "pending" input JNull JNull 0 created updated in
  adapterWrite (fun db => mk_saga_db (saga_instances db) (saga_steps db ++ [row]) (saga_compensation_log db)) ≫= fun _ =>
  mret row.

Definition on_step (stepId : string) (f : saga_step -> saga_step) (db : saga_db) : saga_db :=
  mk_saga_db (saga_instances db)
    ((fun s => if String.eqb (st_step_id s) stepId then f s else s) <$> saga_steps db) (saga_compensation_log db).

Definition with_step_status (st : string) (v : jsval) (now : Z) (s : saga_step) : saga_step :=
  let isError := String.eqb st "failed" || String.eqb st "compensation-failed" in
  mk_saga_step (st_step_id s) (st_saga_id s) (st_step_ordinal s) (st_step_key s) st (st_input_snapshot s)
    (if isError then JNull else or_null v) (if isError then or_null v else JNull)
    (st_compensation_attempts s) (st_created_at s) now.

Definition updateStepStatus (stepId st : string) (v : jsval) : sact unit :=
  nowIso ≫= fun now => adapterWrite (on_step stepId (with_step_status st v now)).

Definition with_attempts (n now : Z) (s : saga_step) : saga_step :=
  mk_saga_step (st_step_id s) (st_saga_id s) (st_step_ordinal s) (st_step_key s) (st_status s) (st_input_snapshot s)
    (st_output_snapshot s) (st_error_detail s) n (st_created_at s) now.

Definition updateStepCompensationAttempts (stepId : string) (attempts : Z) : sact unit :=
  nowIso ≫= fun now => adapterWrite (on_step stepId (with_attempts attempts now)).

Definition getInFlightSagas (stalenessMs : Z) : sact (list saga) :=
  now_ms ≫= fun now =>
  adapterRows (fun db => List.filter (fun s => str_in (sg_status s) ["executing"; "compensating"]
                                               && (sg_updated_at s <? Z.of_N now - stalenessMs)) (saga_instances db)).

(** Reads take an explicit database, or go through the adapter. *)
Definition rows_via (with_db : bool) {A} (f : saga_db -> list A) : sact (list A) :=
  if with_db then query_db f else adapterRows f.

Definition getSagaById (with_db : bool) (sagaId : string) : sact (option saga) :=
  rows_via with_db (fun db => List.filter (fun s => String.eqb (sg_saga_id s) sagaId) (saga_instances db)) ≫= fun rows =>
  mret (head rows).

Definition ordinal_asc (a b : saga_step) : Prop := st_step_ordinal a <= st_step_ordinal b.
Definition ordinal_desc (a b : saga_step) : Prop := st_step_ordinal b <= st_step_ordinal a.
#[export] Instance ordinal_asc_dec : RelDecision ordinal_asc.
Proof. intros a b. unfold ordinal_asc. apply _. Defined.
#[export] Instance ordinal_desc_dec : RelDecision ordinal_desc.
Proof. intros a b. unfold ordinal_desc. apply _. Defined.

Definition listStepsForSaga (with_db : bool) (sagaId : string) : sact (list saga_step) :=
  rows_via with_db (fun db =>
    merge_sort ordinal_asc (List.filter (fun s => String.eqb (st_saga_id s) sagaId) (saga_steps db))).

Definition appendCompensationLog (sagaId stepId : string) (attempt : Z) (outcome : string) (detail : jsval) : sact unit :=
  random_uuid ≫= fun _ => nowIso ≫= fun _ =>
  adapterWrite (fun db => mk_saga_db (saga_instances db) (saga_steps db)
    (saga_compensation_log db ++ [mk_compensation_log sagaId stepId attempt outcome detail])).

Definition findSagaByIdempotencyKey (key : string) (tenant : option string) : sact (option saga) :=
  adapterRows (fun db => List.filter (fun s => bool_decide (sg_idempotency_key s = Some key)
                                               && bool_decide (is_Some tenant /\ sg_tenant_id s = tenant)) (saga_instances db)) ≫= fun rows =>
  mret (head rows).

Record saga_filters := mk_saga_filters {
  sf_workflowId : option string;
  sf_status : option string;
  sf_limit : option nat;
  sf_offset : option nat
}.

(** An absent or empty filter selects everything. *)
Definition filter_by (f : option string) (get : saga -> string) (items : list saga) : list saga :=
  if truthy_str f then List.filter (fun s => bool_decide (Some (get s) = f)) items else items.

Definition listSagasForTenantRecordset (tenant : string) (f : saga_filters) : sact (list saga * nat * nat * nat) :=
  adapterRows (fun db => List.filter (fun s => bool_decide (sg_tenant_id s = Some tenant)) (saga_instances db)) ≫= fun rows =>
  let items := filter_by (sf_status f) sg_status (filter_by (sf_workflowId f) sg_workflow_id rows) in
  let offset := default 0%nat (sf_offset f) in
  let limit := default 20%nat (sf_limit f) in
  mret (take limit (drop offset items), length items, limit, offset).

(** ** Compensation ([saga-compensation.mjs]) *)

Definition error_object (e : js_error) : jsval := JObj [("message", JStr (err_message e))].

(** The attempts [attempt, attempt + 1, ..., maxRetries], [n] of them: whether one succeeded. *)
Fixpoint compensate_attempts (n : nat) (attempt : nat) (sagaId : string) (step : saga_step) (sd : step_def) : sact bool :=
  match n with
  | O => mret false
  | S n' =>
      try_catch (
        updateStepCompensationAttempts (st_step_id step) (Z.of_nat attempt) ≫= fun _ =>
        call_compensate sd (st_input_snapshot step) (st_output_snapshot step) ≫= fun _ =>
        updateStepStatus (st_step_id step) "compensated" JUndef ≫= fun _ =>
        appendCompensationLog sagaId (st_step_id step) (Z.of_nat attempt) "succeeded" JNull ≫= fun _ =>
        mret true)
      (fun e =>
        appendCompensationLog sagaId (st_step_id step) (Z.of_nat attempt) "failed" (error_object e) ≫= fun _ =>
        (if Z.of_nat attempt <? maxRetries cfg then sleep (backoffDelay attempt cfg) else mret tt) ≫= fun _ =>
        mret false) ≫= fun compensated : bool =>
      if compensated then mret true else compensate_attempts n' (S attempt) sagaId step sd
  end.

(** One iteration over the ordered steps; the accumulator is [failedSteps]. *)
Definition compensate_step (sagaId : string) (d : saga_definition) (failed : list string) (step : saga_step) : sact (list string) :=
  match List.find (fun sd => sd_ordinal sd =? st_step_ordinal step) (sd_steps d) with
  | None => mret (failed ++ [st_step_key step])
  | Some sd =>
      if String.eqb (st_status step) "compensated" then
        appendCompensationLog sagaId (st_step_id step) 0 "skipped-idempotent" JNull ≫= fun _ => mret failed
      else
        updateStepStatus (st_step_id step) "compensating" JUndef ≫= fun _ =>
        compensate_attempts (Z.to_nat (maxRetries cfg)) 1 sagaId step sd ≫= fun compensated : bool =>
        if compensated then mret failed
        else
          updateStepStatus (st_step_id step) "compensation-failed" (JObj [("stepKey", JStr (st_step_key step))]) ≫= fun _ =>
          mret (failed ++ [st_step_key step])
  end.

(** [{ allCompensated, failedSteps }]: all compensated when the list is empty. *)
Definition compensateSaga (sagaId : string) (succeeded : list saga_step) (d : saga_definition) : sact (list string) :=
  for_fold (compensate_step sagaId d) [] (merge_sort ordinal_desc succeeded).

Definition allCompensated (failed : list string) : bool := match failed with [] => true | _ => false end.

(** ** The engine ([saga-engine.mjs]) *)

(** [safelyEmitAudit]: the emission asserts a correlation id and a tenant, and any
    failure is only logged. *)
Definition safelyEmitAudit (ctx : saga_ctx) (e : saga_event) : sact unit :=
  try_catch
    (if nonempty (sx_correlationId ctx) && truthy_str (sx_tenantId ctx) then publish e
     else throw (coded "AUDIT_MISSING_CONTEXT" "") : sact unit)
    (fun _ => (mret tt : sact unit)).

Definition emitCompensationFailedAlert (sagaId : string) (failed : list string) : sact unit :=
  if alert_emitter then publish (CompensationFailedAlert sagaId failed) else mret tt.

(** [`saga:${workflowId}:${tenantId}:${now}:${random8}`], or the caller's id with a suffix. *)
Definition buildCorrelationId (workflowId : string) (tenant : option string) : sact string :=
  now_ms ≫= fun now => random8 ≫= fun r =>
  mret ("saga:" +:+ workflowId +:+ ":" +:+ default "unknown" tenant +:+ ":" +:+ to_base36 now +:+ ":" +:+ r).

Definition enrichContextWithCorrelation (workflowId : string) (tenant existing : option string) : sact string :=
  if truthy_str existing then
    random8 ≫= fun r => mret (default "" existing +:+ "::saga:" +:+ workflowId +:+ ":" +:+ r)
  else buildCorrelationId workflowId tenant.

(** [checkIdempotencyKey]: the saga a key names, if any. *)
Definition checkIdempotencyKey (key tenant : option string) : sact (option saga) :=
  if negb (truthy_str key) then mret None
  else findSagaByIdempotencyKey (default "" key) tenant.

Definition recordIdempotencyResult (sagaId : string) (result : jsval) : sact unit :=
  updateSagaStatus sagaId "completed" result.

Definition as_succeeded (output : jsval) (s : saga_step) : saga_step :=
  mk_saga_step (st_step_id s) (st_saga_id s) (st_step_ordinal s) (st_step_key s) "succeeded" (st_input_snapshot s)
    output (st_error_detail s) (st_compensation_attempts s) (st_created_at s) (st_updated_at s).

Definition failure_detail (sd : step_def) (e : js_error) (failed : list string) : jsval :=
  JObj [("failedStep", JStr (sd_key sd)); ("reason", JStr (err_message e));
        ("uncompensatedSteps", JArr (JStr <$> failed))].

(** What the [catch] of a failed step does before it rethrows. *)
Definition on_step_failure (s : saga) (ctx : saga_ctx) (d : saga_definition) (succeeded : list saga_step)
    (sd : step_def) (step : saga_step) (e : js_error) : sact unit :=
  updateStepStatus (st_step_id step) "failed" (error_object e) ≫= fun _ =>
  (if sd_auditMilestone sd then safelyEmitAudit ctx (StepMilestone (sd_key sd) "failed") else mret tt) ≫= fun _ =>
  compensateSaga (sg_saga_id s) succeeded d ≫= fun failed =>
  let st := if allCompensated failed then "compensated" else "compensation-failed" in
  updateSagaStatus (sg_saga_id s) st (failure_detail sd e failed) ≫= fun _ =>
  safelyEmitAudit ctx (WorkflowTerminal (sg_saga_id s) st) ≫= fun _ =>
  (if allCompensated failed then mret tt else emitCompensationFailedAlert (sg_saga_id s) failed).

(** The loop over the remaining step definitions. *)
Fixpoint run_steps (s : saga) (ctx : saga_ctx) (d : saga_definition) (params : jsval)
    (todo : list step_def) (succeeded : list saga_step) (lastStepOutput : jsval) : sact jsval :=
  match todo with
  | [] => mret lastStepOutput
  | sd :: todo' =>
      createSagaStep (sg_saga_id s) (sd_ordinal sd) (sd_key sd) params ≫= fun step =>
      updateStepStatus (st_step_id step) "executing" JUndef ≫= fun _ =>
      try_catch (
        call_forward sd ≫= fun output =>
        updateStepStatus (st_step_id step) "succeeded" output ≫= fun _ =>
        (if sd_auditMilestone sd then safelyEmitAudit ctx (StepMilestone (sd_key sd) "succeeded") else mret tt) ≫= fun _ =>
        mret output)
      (fun e => on_step_failure s ctx d succeeded sd step e ≫= fun _ => throw e) ≫= fun output =>
      run_steps s ctx d params todo' (succeeded ++ [as_succeeded output step]) output
  end.

Definition saga_result (sagaId : string) (output : jsval) : jsval :=
  JObj [("sagaId", JStr sagaId); ("status", JStr "completed"); ("output", output)].

Definition executeSaga (workflowId : string) (params : jsval) (idempotencyKey : option string) (c : saga_caller) : sact jsval :=
  match assoc_lookup workflowId sagaDefinitions with
  | None => throw (coded "WORKFLOW_NOT_FOUND" ("Workflow " +:+ workflowId +:+ " not found"))
  | Some d =>
      if sd_provisional d then mret (JObj [("status", JStr "not-implemented"); ("workflowId", JStr workflowId)])
      else
      checkIdempotencyKey idempotencyKey (sc_tenantId c) ≫= fun existing =>
      let fresh_run :=
        enrichContextWithCorrelation workflowId (sc_tenantId c) (sc_correlationId c) ≫= fun corr =>
        createSagaInstance workflowId params c corr idempotencyKey ≫= fun s =>
        let ctx := mk_saga_ctx (sg_saga_id s) workflowId corr (sc_tenantId c) (sc_workspaceId c)
          (default "unknown" (sc_actorType c)) (default "unknown" (first_of (sc_actorId c) (sc_actor c))) in
        safelyEmitAudit ctx (WorkflowStarted (sg_saga_id s)) ≫= fun _ =>
        run_steps s ctx d params (sd_steps d) [] JNull ≫= fun output =>
        let result := saga_result (sg_saga_id s) output in
        updateSagaStatus (sg_saga_id s) "completed" result ≫= fun _ =>
        safelyEmitAudit ctx (WorkflowTerminal (sg_saga_id s) "completed") ≫= fun _ =>
        (if truthy_str idempotencyKey then recordIdempotencyResult (sg_saga_id s) result else mret tt) ≫= fun _ =>
        mret result in
      match existing with
      | Some s =>
          if String.eqb (sg_status s) "completed" then mret (sg_output_snapshot s)
          else if String.eqb (sg_status s) "executing"
          then mret (JObj [("status", JStr "in-progress"); ("sagaId", JStr (sg_saga_id s))])
          else fresh_run
      | None => fresh_run
      end
  end.

Definition RECOVERABLE : list string := ["succeeded"; "compensating"; "compensation-failed"].

(** One stale saga of [recoverInFlightSagas]: whether it counts as recovered. *)
Definition recover_saga (s : saga) : sact bool :=
  match assoc_lookup (sg_workflow_id s) sagaDefinitions with
  | None => mret false
  | Some d =>
      if sd_provisional d then mret false
      else
      listStepsForSaga false (sg_saga_id s) ≫= fun steps =>
      let eligible := List.filter (fun st => str_in (st_status st) RECOVERABLE) steps in
      let ctx := mk_saga_ctx (sg_saga_id s) (sg_workflow_id s) (sg_correlation_id s) (sg_tenant_id s)
        (sg_workspace_id s) (sg_actor_type s) (sg_actor_id s) in
      compensateSaga (sg_saga_id s) eligible d ≫= fun failed =>
      let st := if allCompensated failed then "compensated" else "compensation-failed" in
      updateSagaStatus (sg_saga_id s) st
        (JObj [("allCompensated", JBool (allCompensated failed)); ("failedSteps", JArr (JStr <$> failed))]) ≫= fun _ =>
      safelyEmitAudit ctx (WorkflowTerminal (sg_saga_id s) st) ≫= fun _ =>
      mret true
  end.

Definition recoverInFlightSagas (stalenessThresholdMs : Z) : sact (Z * list string) :=
  getInFlightSagas stalenessThresholdMs ≫= fun stale =>
  for_fold (fun acc s =>
    try_catch (recover_saga s ≫= fun b : bool => mret (if b then fst acc + 1 else fst acc, snd acc))
      (fun _ => mret (fst acc, snd acc ++ [sg_saga_id s]))) (0, []) stale.

(** ** Status ([saga-status.mjs]) *)

Definition step_json (s : saga_step) : jsval :=
  JObj [("ordinal", jint (st_step_ordinal s)); ("key", JStr (st_step_key s)); ("status", JStr (st_status s));
        ("updatedAt", jint (st_updated_at s))].

Definition toStatusResponse (s : saga) (steps : list saga_step) : jsval :=
  let field k d := coalesce (js_get (sg_error_summary s) k) d in
  JObj [("sagaId", JStr (sg_saga_id s)); ("workflowId", JStr (sg_workflow_id s));
        ("correlationId", JStr (sg_correlation_id s)); ("status", JStr (sg_status s));
        ("currentStep", match List.find (fun x => str_in (st_status x) ["executing"; "compensating"]) steps with
                        | Some x => JObj [("ordinal", jint (st_step_ordinal x)); ("key", JStr (st_step_key x)); ("status", JStr (st_status x))]
                        | None => JNull end);
        ("steps", JArr (step_json <$> steps));
        ("startedAt", jint (sg_created_at s)); ("updatedAt", jint (sg_updated_at s));
        ("errorSummary", if String.eqb (sg_status s) "compensation-failed"
           then JObj [("failedStep", field "failedStep" (JStr "unknown")); ("reason", field "reason" (JStr "compensation failed"));
                      ("uncompensatedSteps", field "uncompensatedSteps" (JArr []))]
           else JNull)].

Definition saga_forbidden : js_error := coded "FORBIDDEN" "Cross-tenant saga access denied".

Definition is_role (r : string) (c : saga_caller) : bool := bool_decide (sc_role c = Some r).

Definition getSagaStatus (with_db : bool) (sagaId : string) (c : saga_caller) : sact (option jsval) :=
  getSagaById with_db sagaId ≫= fun found =>
  match found with
  | None => mret None
  | Some s =>
      if negb (is_role "superadmin" c)
         && (negb (bool_decide (sg_tenant_id s = sc_tenantId c))
             || (truthy_str (sc_workspaceId c) && negb (bool_decide (sg_workspace_id s = sc_workspaceId c))))
      then throw saga_forbidden
      else listStepsForSaga with_db sagaId ≫= fun steps => mret (Some (toStatusResponse s steps))
  end.

(** The loop of reads behind [Promise.all]. *)
Fixpoint status_items (sagas : list saga) : sact (list jsval) :=
  match sagas with
  | [] => mret []
  | s :: sagas' =>
      listStepsForSaga false (sg_saga_id s) ≫= fun steps =>
      status_items sagas' ≫= fun items => mret (toStatusResponse s steps :: items)
  end.

Definition listSagasForTenant (tenant : string) (f : saga_filters) (c : saga_caller) : sact (list jsval * nat * nat * nat) :=
  if negb (is_role "superadmin" c) && negb (bool_decide (Some tenant = sc_tenantId c)) then throw saga_forbidden
  else
    listSagasForTenantRecordset tenant f ≫= fun '(rows, total, limit, offset) =>
    status_items rows ≫= fun items => mret (items, total, limit, offset).

End saga.
