(* ===== verification/SagaProofs.v ===== *)
(** * What a saga does to the outside world

    The trace of effects of a saga: forward calls in the order of its
    definition, then, when one fails, the compensations of the steps before it in
    reverse order, each tried at most [maxRetries] times with the output of its
    own forward call.  Further: backoff bounds, idempotency, recovery and the
    status read model. *)
From S2P Require Import Prelude JsValue Platform Saga.
From stdpp Require Import sorting.
Local Open Scope Z_scope.

(** ** The effects of a program *)

Definition is_effect (e : saga_event) : bool :=
  match e with Forwarded _ _ | Compensated _ _ _ _ => true | _ => false end.
Definition effects (evs : list saga_event) : list saga_event := List.filter is_effect evs.

Lemma effects_app a b : effects (a ++ b) = effects a ++ effects b.
Proof. apply List.filter_app. Qed.

Section emits.
Context `{!Platform, !Workflows}.

(** [m] always returns, having appended events whose effects, with its result, satisfy [Q]. *)
Definition emits {A} (m : sact A) (Q : result js_error A -> list saga_event -> Prop) : Prop :=
  forall w, exists new, w_events (snd (m w)) = w_events w ++ new /\ Q (fst (m w)) (effects new).

(** [m] succeeds without effects. *)
Definition quiet {A} (m : sact A) (P : A -> Prop) : Prop :=
  emits m (fun r evs => evs = [] /\ exists a, r = Ok a /\ P a).

Lemma emits_weaken {A} (m : sact A) (Q Q' : result js_error A -> list saga_event -> Prop) :
  emits m Q -> (forall r evs, Q r evs -> Q' r evs) -> emits m Q'.
Proof. intros Hm HQ w. destruct (Hm w) as (new & ? & ?). eauto. Qed.

Lemma emits_bind {A B} (m : sact A) (f : A -> sact B) Q1 Q :
  emits m Q1 ->
  (forall a evs1, Q1 (Ok a) evs1 -> emits (f a) (fun r evs2 => Q r (evs1 ++ evs2))) ->
  (forall e evs, Q1 (Err e) evs -> Q (Err e) evs) ->
  emits (m ≫= f) Q.
Proof.
  intros Hm Hf He w. destruct (Hm w) as (new & Hev & HQ1). unfold mbind, M_bind.
  destruct (m w) as [[a|e] w']; simpl in *; [|eauto].
  destruct (Hf a _ HQ1 w') as (new' & Hev' & HQ). exists (new ++ new').
  rewrite Hev', Hev, app_assoc, effects_app. auto.
Qed.

Lemma emits_bind_quiet {A B} (m : sact A) (f : A -> sact B) P Q :
  quiet m P -> (forall a, P a -> emits (f a) Q) -> emits (m ≫= f) Q.
Proof.
  intros Hm Hf. eapply emits_bind; [exact Hm| |].
  - intros a evs1 (-> & ? & [= <-] & HP). simpl. by apply Hf.
  - intros e evs (_ & ? & ? & _). done.
Qed.

Lemma emits_try {A} (m : sact A) (h : js_error -> sact A) Q1 Q :
  emits m Q1 ->
  (forall a evs, Q1 (Ok a) evs -> Q (Ok a) evs) ->
  (forall e evs1, Q1 (Err e) evs1 -> emits (h e) (fun r evs2 => Q r (evs1 ++ evs2))) ->
  emits (try_catch m h) Q.
Proof.
  intros Hm Ha Hh w. destruct (Hm w) as (new & Hev & HQ1). unfold try_catch.
  destruct (m w) as [[a|e] w']; simpl in *; [eauto|].
  destruct (Hh e _ HQ1 w') as (new' & Hev' & HQ). exists (new ++ new').
  rewrite Hev', Hev, app_assoc, effects_app. auto.
Qed.

Lemma emits_ret {A} (a : A) (Q : result js_error A -> list saga_event -> Prop) : Q (Ok a) [] -> emits (mret a) Q.
Proof. intros HQ w. exists []. by rewrite app_nil_r. Qed.

Lemma emits_throw {A} e (Q : result js_error A -> list saga_event -> Prop) : Q (Err e) [] -> emits (throw e) Q.
Proof. intros HQ w. exists []. by rewrite app_nil_r. Qed.

Lemma quiet_bind {A B} (m : sact A) (f : A -> sact B) P Q :
  quiet m P -> (forall a, P a -> quiet (f a) Q) -> quiet (m ≫= f) Q.
Proof. intros Hm Hf. by eapply emits_bind_quiet. Qed.

Lemma quiet_ret {A} (a : A) (P : A -> Prop) : P a -> quiet (mret a) P.
Proof. intros HP. apply emits_ret. eauto. Qed.

Lemma quiet_true {A} (m : sact A) P : quiet m P -> quiet m (fun _ => True).
Proof. intros Hm. eapply emits_weaken; [exact Hm|]. intros r evs (-> & a & -> & _). eauto. Qed.

(** The primitives that neither fail nor call a workflow function. *)
Lemma quiet_prim {A} (m : sact A) :
  (forall w, exists a, fst (m w) = Ok a /\ w_events (snd (m w)) = w_events w) -> quiet m (fun _ => True).
Proof. intros Hm w. destruct (Hm w) as (a & Hf & Hs). exists []. rewrite app_nil_r. eauto. Qed.

Lemma quiet_now : quiet nowIso (fun _ => True).
Proof. apply quiet_prim. intros w. by eexists. Qed.
Lemma quiet_uuid : quiet (random_uuid : sact string) (fun _ => True).
Proof. apply quiet_prim. intros w. by eexists. Qed.
Lemma quiet_random8 : quiet random8 (fun _ => True).
Proof. apply quiet_prim. intros w. by eexists. Qed.
Lemma quiet_now_ms : quiet (now_ms : sact N) (fun _ => True).
Proof. apply quiet_prim. intros w. by eexists. Qed.
Lemma quiet_write f : quiet (adapterWrite f) (fun _ => True).
Proof. apply quiet_prim. intros w. unfold adapterWrite. case_match; by eexists. Qed.
Lemma quiet_rows b {A} (f : saga_db -> list A) : quiet (rows_via b f) (fun _ => True).
Proof. apply quiet_prim. intros w. unfold rows_via, adapterRows. repeat case_match; by eexists. Qed.
Lemma quiet_adapter_rows {A} (f : saga_db -> list A) : quiet (adapterRows f) (fun _ => True).
Proof. apply (quiet_rows false). Qed.
Lemma quiet_sleep ms : quiet (sleep ms) (fun _ => True).
Proof. intros w. exists [Slept ms]. split; [done|]. split; [done|by eexists]. Qed.

Lemma quiet_audit ctx e : is_effect e = false -> quiet (safelyEmitAudit ctx e) (fun _ => True).
Proof.
  intros He w. unfold safelyEmitAudit, try_catch, publish, throw.
  destruct (_ && _); [destruct (broker _)|]; simpl.
  - exists []. rewrite app_nil_r. eauto.
  - exists [e]. simpl. rewrite He. eauto.
  - exists []. rewrite app_nil_r. eauto.
Qed.

End emits.

Ltac quiet_step :=
  match goal with
  | |- quiet (_ ≫= _) _ => eapply quiet_bind; [|intros ? _]
  | |- quiet (mret _) _ => by apply quiet_ret
  | |- quiet (if ?b then _ else _) _ => destruct b
  | |- quiet _ _ => solve [eauto using quiet_now, quiet_uuid, quiet_random8, quiet_now_ms, quiet_write, quiet_rows,
                             quiet_adapter_rows, quiet_sleep, quiet_audit]
  end.
Ltac quiet_tac := repeat quiet_step.

Section saga_proofs.
Context `{!Platform, !Workflows}.

Lemma quiet_step_status id st v : quiet (updateStepStatus id st v) (fun _ => True).
Proof. unfold updateStepStatus. quiet_tac. Qed.
Lemma quiet_saga_status id st v : quiet (updateSagaStatus id st v) (fun _ => True).
Proof. unfold updateSagaStatus. quiet_tac. Qed.
Lemma quiet_attempts id n : quiet (updateStepCompensationAttempts id n) (fun _ => True).
Proof. unfold updateStepCompensationAttempts. quiet_tac. Qed.
Lemma quiet_log s t n o v : quiet (appendCompensationLog s t n o v) (fun _ => True).
Proof. unfold appendCompensationLog. quiet_tac. Qed.

Lemma quiet_createSagaStep sid ord key input :
  quiet (createSagaStep sid ord key input)
    (fun r => st_step_ordinal r = ord /\ st_step_key r = key /\ st_input_snapshot r = input /\ st_status r = "pending").
Proof. unfold createSagaStep. quiet_tac. Qed.

Lemma emits_forward sd :
  emits (call_forward sd) (fun r evs => evs = [Forwarded (sd_key sd) (is_ok r)]).
Proof. intros w. exists [Forwarded (sd_key sd) (is_ok (forward_result (length (w_events w))))]. done. Qed.

Lemma emits_compensate sd i o :
  emits (call_compensate sd i o) (fun r evs => evs = [Compensated (sd_key sd) i o (is_ok r)]).
Proof.
  intros w. unfold call_compensate. destruct (compensate_result _); simpl; eexists; (split; [reflexivity|done]).
Qed.

Lemma last_nonempty {A} (x : A) xs d d' : List.last (x :: xs) d = List.last (x :: xs) d'.
Proof. revert x. induction xs as [|y xs IH]; intros x; [done|]. simpl in *. apply IH. Qed.

(** ** Compensation *)

(** [n] attempts: some failures, then either a success or no attempt left. *)
Definition attempts_trace (n : nat) (key : string) (i o : jsval) (r : result js_error bool) (evs : list saga_event) : Prop :=
  (exists j, (j < n)%nat /\ r = Ok true /\
     evs = replicate j (Compensated key i o false) ++ [Compensated key i o true]) \/
  (r = Ok false /\ evs = replicate n (Compensated key i o false)).

Lemma emits_attempts sid step sd n attempt :
  emits (compensate_attempts n attempt sid step sd)
    (attempts_trace n (sd_key sd) (st_input_snapshot step) (st_output_snapshot step)).
Proof.
  revert attempt. induction n as [|n IH]; intros attempt; simpl; [apply emits_ret; by right|].
  set (i := st_input_snapshot step). set (o := st_output_snapshot step).
  eapply (emits_bind _ _ (fun r evs => exists b, r = Ok b /\ evs = [Compensated (sd_key sd) i o b])).
  - eapply (emits_try _ _ (fun r evs => evs = [Compensated (sd_key sd) i o (is_ok r)] /\ (forall b, r = Ok b -> b = true))).
    + eapply emits_bind_quiet; [apply quiet_attempts|]. intros _ _.
      eapply emits_bind; [apply emits_compensate| |].
      * intros [] evs1 ->. eapply emits_bind_quiet; [apply quiet_step_status|]. intros _ _.
        eapply emits_bind_quiet; [apply quiet_log|]. intros _ _. apply emits_ret. split; [done|]. by intros b [= <-].
      * intros e evs ->. done.
    + intros b evs [-> Hb]. exists b. by rewrite (Hb b eq_refl).
    + intros e evs1 [-> _]. eapply emits_bind_quiet; [apply quiet_log|]. intros _ _.
      eapply emits_bind_quiet; [quiet_tac|]. intros _ _. apply emits_ret. by exists false.
  - intros b evs1 (? & [= <-] & ->). destruct b.
    + apply emits_ret. left. exists 0%nat. simpl. split; [lia|done].
    + eapply emits_weaken; [apply IH|]. intros r evs [(j & Hj & -> & ->)|[-> ->]]; [left|right; done].
      exists (S j). simpl. split; [lia|done].
  - intros e evs (? & ? & _). done.
Qed.

(** The steps done so far, most recent first, each with its output; the undoing
    of all of them and the keys of those that could not be undone. *)
Inductive undone (params : jsval) : list (step_def * jsval) -> list saga_event -> list string -> Prop :=
| undone_nil : undone params [] [] []
| undone_ok sd o sds j evs failed :
    (j < Z.to_nat (maxRetries cfg))%nat -> undone params sds evs failed ->
    undone params ((sd, o) :: sds)
      ((replicate j (Compensated (sd_key sd) params o false) ++ [Compensated (sd_key sd) params o true]) ++ evs) failed
| undone_failed sd o sds evs failed :
    undone params sds evs failed ->
    undone params ((sd, o) :: sds)
      (replicate (Z.to_nat (maxRetries cfg)) (Compensated (sd_key sd) params o false) ++ evs) (sd_key sd :: failed).

(** A stored step that stands for a succeeded step definition. *)
Definition stands_for (params : jsval) (d : saga_definition) (step : saga_step) (p : step_def * jsval) : Prop :=
  List.find (fun sd => sd_ordinal sd =? st_step_ordinal step) (sd_steps d) = Some (fst p) /\
  st_step_ordinal step = sd_ordinal (fst p) /\
  st_step_key step = sd_key (fst p) /\ st_input_snapshot step = params /\ st_output_snapshot step = snd p /\
  st_status step <> "compensated".

Lemma emits_compensate_fold sid d params steps ps failed0 :
  Forall2 (stands_for params d) steps ps ->
  emits (for_fold (compensate_step sid d) failed0 steps)
    (fun r evs => exists failed, r = Ok (failed0 ++ failed) /\ undone params ps evs failed).
Proof.
  intros Hst. revert failed0. induction Hst as [|step [sd o] steps ps Hp _ IH]; intros failed0.
  { apply emits_ret. exists []. rewrite app_nil_r. split; [done|constructor]. }
  destruct Hp as (Hf & _ & Hk & Hi & Ho & Hs). simpl in *.
  eapply (emits_bind _ _ (fun r evs =>
    (exists j, (j < Z.to_nat (maxRetries cfg))%nat /\ r = Ok failed0 /\
      evs = replicate j (Compensated (sd_key sd) params o false) ++ [Compensated (sd_key sd) params o true]) \/
    (r = Ok (failed0 ++ [sd_key sd]) /\ evs = replicate (Z.to_nat (maxRetries cfg)) (Compensated (sd_key sd) params o false)))).
  - unfold compensate_step. rewrite Hf. apply String.eqb_neq in Hs. rewrite Hs.
    eapply emits_bind_quiet; [apply quiet_step_status|]. intros _ _.
    eapply emits_bind; [apply emits_attempts| |].
    + rewrite Hi, Ho. intros b evs1 [(j & Hj & [= ->] & ->)|[[= ->] ->]].
      * apply emits_ret. left. exists j. by rewrite app_nil_r.
      * eapply emits_bind_quiet; [apply quiet_step_status|]. intros _ _. apply emits_ret.
        right. by rewrite app_nil_r, Hk.
    + by intros e evs [(? & _ & ? & _)|[? _]].
  - intros f evs1 [(j & Hj & [= ->] & ->)|[[= ->] ->]].
    + eapply emits_weaken; [apply IH|]. intros r evs (failed & -> & Hu). exists failed. split; [done|by constructor].
    + eapply emits_weaken; [apply IH|]. intros r evs (failed & -> & Hu). exists (sd_key sd :: failed).
      split; [by rewrite <- app_assoc | by constructor].
  - by intros e evs [(? & _ & ? & _)|[? _]].
Qed.

(** ** Forward execution *)

(** What the engine relies on in a definition: strictly increasing ordinals. *)
Definition definition_ok (d : saga_definition) : Prop := StronglySorted Z.lt (sd_ordinal <$> sd_steps d).

Lemma sagaDefinitions_ok wf d : assoc_lookup wf sagaDefinitions = Some d -> definition_ok d.
Proof.
  unfold sagaDefinitions. simpl. unfold definition_ok.
  repeat case_match; intros [= <-]; simpl; repeat constructor.
Qed.

Lemma find_ordinal (sds : list step_def) sd :
  StronglySorted Z.lt (sd_ordinal <$> sds) -> sd ∈ sds ->
  List.find (fun x => sd_ordinal x =? sd_ordinal sd) sds = Some sd.
Proof.
  induction sds as [|x sds IH]; simpl; [by intros _ ?%elem_of_nil|].
  rewrite StronglySorted_cons, Forall_fmap, Forall_forall. intros [Hlt Hs] [->|Hin]%elem_of_cons.
  - by rewrite Z.eqb_refl.
  - specialize (Hlt sd Hin). simpl in Hlt. assert (sd_ordinal x =? sd_ordinal sd = false) as -> by lia. auto.
Qed.

#[local] Instance ordinal_desc_total : Total ordinal_desc.
Proof. intros a b. unfold ordinal_desc. lia. Qed.
#[local] Instance ordinal_desc_trans : Transitive ordinal_desc.
Proof. intros a b c. unfold ordinal_desc. lia. Qed.

Lemma reverse_descending (steps : list saga_step) :
  StronglySorted Z.lt (st_step_ordinal <$> steps) -> StronglySorted ordinal_desc (reverse steps).
Proof.
  induction steps as [|x steps IH]; [constructor|]. rewrite fmap_cons, StronglySorted_cons, Forall_fmap, Forall_forall.
  intros [Hlt Hs]. rewrite reverse_cons. apply StronglySorted_app. split_and!; [|by apply IH|repeat constructor].
  intros y z Hy ->%list_elem_of_singleton. rewrite elem_of_reverse in Hy. specialize (Hlt y Hy). unfold ordinal_desc. simpl in Hlt. lia.
Qed.

Lemma ordinals_inj (steps : list saga_step) a b :
  StronglySorted Z.lt (st_step_ordinal <$> steps) -> a ∈ steps -> b ∈ steps ->
  st_step_ordinal a = st_step_ordinal b -> a = b.
Proof.
  induction steps as [|x steps IH]; [by intros _ ?%elem_of_nil|].
  rewrite fmap_cons, StronglySorted_cons, Forall_fmap, Forall_forall. simpl. intros [Hlt Hs].
  rewrite !elem_of_cons. intros [->|Ha] [->|Hb] He; auto.
  - specialize (Hlt b Hb). simpl in Hlt. lia.
  - specialize (Hlt a Ha). simpl in Hlt. lia.
Qed.

(** The sort of the compensation: of steps in ascending order, the reverse. *)
Lemma compensation_order (steps : list saga_step) :
  StronglySorted Z.lt (st_step_ordinal <$> steps) -> merge_sort ordinal_desc steps = reverse steps.
Proof.
  intros Hs. apply (StronglySorted_unique_strong ordinal_desc).
  - intros a b Ha Hb ? ?. rewrite merge_sort_Permutation in Ha. rewrite elem_of_reverse in Hb.
    apply (ordinals_inj steps); auto. unfold ordinal_desc in *. lia.
  - apply (StronglySorted_merge_sort ordinal_desc).
  - by apply reverse_descending.
  - by rewrite merge_sort_Permutation, reverse_Permutation.
Qed.

Definition fwd_ok (sd : step_def) : saga_event := Forwarded (sd_key sd) true.

(** The trace of a run from the steps already done. *)
Definition run_trace (params : jsval) (done_ : list (step_def * jsval)) (todo : list step_def) (last : jsval)
    (r : result js_error jsval) (evs : list saga_event) : Prop :=
  (exists outs, r = Ok (List.last outs last) /\ length outs = length todo /\ evs = fwd_ok <$> todo) \/
  (exists before sd after outs undo failed e,
     todo = before ++ sd :: after /\ length outs = length before /\ r = Err e /\
     evs = (fwd_ok <$> before) ++ Forwarded (sd_key sd) false :: undo /\
     undone params (reverse (done_ ++ zip before outs)) undo failed).

Lemma stands_for_ordinals params d steps ps :
  Forall2 (stands_for params d) steps ps -> st_step_ordinal <$> steps = sd_ordinal <$> (fst <$> ps).
Proof. induction 1 as [|step p steps ps (_ & Ho & _) _ IH]; [done|]. by rewrite !fmap_cons, Ho, IH. Qed.

Lemma emits_on_step_failure s ctx d params succeeded done_ sd step e :
  Forall2 (stands_for params d) succeeded done_ ->
  StronglySorted Z.lt (sd_ordinal <$> (fst <$> done_)) ->
  emits (on_step_failure s ctx d succeeded sd step e)
    (fun _ evs => exists failed, undone params (reverse done_) evs failed).
Proof.
  intros Hst Hord. unfold on_step_failure.
  eapply emits_bind_quiet; [apply quiet_step_status|]. intros _ _.
  eapply emits_bind_quiet; [quiet_tac|]. intros _ _.
  eapply emits_bind.
  - unfold compensateSaga. rewrite compensation_order by (by erewrite stands_for_ordinals).
    apply (emits_compensate_fold _ d params). by apply Forall2_reverse.
  - intros failed evs1 (failed' & _ & Hu).
    eapply emits_bind_quiet; [apply quiet_saga_status|]. intros _ _.
    eapply emits_bind_quiet; [by apply quiet_audit|]. intros _ _.
    intros w. destruct (allCompensated failed).
    + exists []. rewrite !app_nil_r. eauto.
    + unfold emitCompensationFailedAlert, publish. destruct alert_emitter; [destruct (broker _)|]; simpl.
      * exists []. rewrite !app_nil_r. eauto.
      * eexists. split; [reflexivity|]. simpl. rewrite app_nil_r. eauto.
      * exists []. rewrite !app_nil_r. eauto.
  - intros e' evs (failed' & _ & Hu). eauto.
Qed.

Lemma emits_run_steps s ctx d params todo : forall succeeded done_ last,
  definition_ok d -> sd_steps d = (fst <$> done_) ++ todo -> Forall2 (stands_for params d) succeeded done_ ->
  emits (run_steps s ctx d params todo succeeded last) (run_trace params done_ todo last).
Proof.
  induction todo as [|sd todo IH]; intros succeeded done_ last Hd Hsteps Hst; simpl.
  { apply emits_ret. left. by exists []. }
  assert (Hin : sd ∈ sd_steps d) by (rewrite Hsteps; set_solver).
  assert (Hord : StronglySorted Z.lt (sd_ordinal <$> (fst <$> done_))).
  { unfold definition_ok in Hd. rewrite Hsteps, fmap_app in Hd. by apply StronglySorted_app in Hd as (_ & ? & _). }
  eapply emits_bind_quiet; [apply quiet_createSagaStep|]. intros step (Ho & Hk & Hi & Hs).
  eapply emits_bind_quiet; [apply quiet_step_status|]. intros _ _.
  eapply (emits_bind _ _ (fun r evs =>
    (exists out, r = Ok out /\ evs = [fwd_ok sd]) \/
    (exists e undo failed, r = Err e /\ evs = Forwarded (sd_key sd) false :: undo /\ undone params (reverse done_) undo failed))).
  - eapply (emits_try _ _ (fun r evs => evs = [Forwarded (sd_key sd) (is_ok r)])).
    + eapply emits_bind; [apply emits_forward| |by intros e evs ->].
      intros out evs1 ->. eapply emits_bind_quiet; [apply quiet_step_status|]. intros _ _.
      eapply emits_bind_quiet; [quiet_tac|]. intros _ _. by apply emits_ret.
    + intros out evs ->. left. by exists out.
    + intros e evs1 ->. eapply emits_bind; [by eapply emits_on_step_failure| |].
      * intros _ evs2 (failed & Hu). apply emits_throw. right. exists e, evs2, failed.
        rewrite app_nil_r. by split_and!.
      * intros e' evs2 (failed & Hu). right. by exists e', evs2, failed.
  - intros out evs1 [(out' & [= <-] & ->)|(? & ? & ? & ? & _)]; [|done].
    eapply emits_weaken; [apply (IH _ (done_ ++ [(sd, out)]) out); [done| |]|].
    + rewrite fmap_app, <- app_assoc. exact Hsteps.
    + apply Forall2_app; [done|]. repeat constructor; simpl; try done; try congruence.
      rewrite Ho. by apply find_ordinal.
    + intros r evs [(outs & -> & Hl & ->)|(before & sd' & after & outs & undo & failed & e & -> & Hl & -> & -> & Hu)].
      * left. exists (out :: outs). simpl. split_and!; [|congruence|done].
        f_equal. destruct outs; [done|]. simpl. by apply last_nonempty.
      * right. exists (sd :: before), sd', after, (out :: outs), undo, failed, e. simpl. split_and!; try done; [congruence|].
        by rewrite <- app_assoc in Hu.
  - intros e evs [(? & ? & _)|(e' & undo & failed & [= <-] & -> & Hu)]; [done|]. right.
    exists [], sd, todo, [], undo, failed, e. rewrite app_nil_r. by split_and!.
Qed.

(** ** The whole engine *)

(** What one execution does outside: nothing; the whole definition; or a prefix,
    one failure, and the undoing of the prefix. *)
Definition saga_trace (d : saga_definition) (params : jsval) (r : result js_error jsval) (evs : list saga_event) : Prop :=
  evs = [] \/
  (is_ok r = true /\ evs = fwd_ok <$> sd_steps d) \/
  (is_ok r = false /\ exists before sd after outs undo failed,
     sd_steps d = before ++ sd :: after /\ length outs = length before /\
     evs = (fwd_ok <$> before) ++ Forwarded (sd_key sd) false :: undo /\
     undone params (reverse (zip before outs)) undo failed).

Lemma emits_create_instance wf params c corr key :
  emits (createSagaInstance wf params c corr key) (fun _ evs => evs = []).
Proof.
  unfold createSagaInstance. eapply emits_bind_quiet; [apply quiet_uuid|]. intros id _.
  eapply emits_bind_quiet; [apply quiet_now|]. intros c0 _. eapply emits_bind_quiet; [apply quiet_now|]. intros u0 _.
  eapply (emits_bind _ _ (fun _ evs => evs = [])); [|by intros [] evs ->; apply emits_ret|done].
  intros w. exists []. rewrite app_nil_r. destruct adapter_exports_query; [|done].
  unfold exec_db_err. by destruct (insert_saga _ _) as [[[] ?]|].
Qed.

Lemma quiet_enrich wf t e : quiet (enrichContextWithCorrelation wf t e) (fun _ => True).
Proof. unfold enrichContextWithCorrelation, buildCorrelationId. quiet_tac. Qed.

Lemma quiet_check key t : quiet (checkIdempotencyKey key t) (fun _ => True).
Proof. unfold checkIdempotencyKey, findSagaByIdempotencyKey. quiet_tac. Qed.

Lemma emits_executeSaga wf d params key c :
  assoc_lookup wf sagaDefinitions = Some d -> sd_provisional d = false ->
  emits (executeSaga wf params key c) (saga_trace d params).
Proof.
  intros Hd Hp. pose proof (sagaDefinitions_ok _ _ Hd) as Hok.
  unfold executeSaga. rewrite Hd, Hp.
  eapply emits_bind_quiet; [apply quiet_check|]. intros existing _. cbv zeta.
  match goal with |- emits (match existing with Some _ => _ | None => ?fresh end) _ => set (run := fresh) end.
  assert (Hrun : emits run (saga_trace d params)).
  { unfold run. eapply emits_bind_quiet; [apply quiet_enrich|]. intros corr _.
    eapply emits_bind; [apply emits_create_instance| |by left].
    intros s evs1 ->. eapply emits_bind_quiet; [by apply quiet_audit|]. intros _ _. simpl.
    eapply emits_bind.
    - apply (emits_run_steps _ _ d params (sd_steps d) [] []); [done|done|constructor].
    - intros out evs1 [(outs & _ & Hl & ->)|(? & ? & ? & ? & ? & ? & ? & _ & _ & ? & _)]; [|done].
      eapply emits_bind_quiet; [apply quiet_saga_status|]. intros _ _.
      eapply emits_bind_quiet; [by apply quiet_audit|]. intros _ _.
      eapply emits_bind_quiet; [unfold recordIdempotencyResult; destruct (truthy_str key); [apply quiet_saga_status | by apply quiet_ret]|].
      intros _ _. apply emits_ret. right. left. by rewrite app_nil_r.
    - intros e evs [(? & ? & _)|(before & sd & after & outs & undo & failed & e' & Hs & Hl & _ & -> & Hu)]; [done|].
      right. right. split; [done|]. by exists before, sd, after, outs, undo, failed. }
  destruct existing as [s|]; [|exact Hrun].
  destruct (String.eqb _ _); [apply emits_ret; by left|].
  destruct (String.eqb _ _); [apply emits_ret; by left|exact Hrun].
Qed.

(** ** Idempotency *)

(** A successful run of [m] does not touch the instances. *)
Definition keeps_instances {A} (m : sact A) : Prop :=
  forall w a w', m w = (Ok a, w') -> saga_instances (w_db w') = saga_instances (w_db w).

Lemma ki_bind {A B} (m : sact A) (f : A -> sact B) :
  keeps_instances m -> (forall a, keeps_instances (f a)) -> keeps_instances (m ≫= f).
Proof.
  intros Hm Hf w b w'. unfold mbind, M_bind. destruct (m w) as [[a|e] w1] eqn:E; [|done].
  intros Hr. rewrite (Hf a w1 b w' Hr). by apply (Hm w a w1).
Qed.

Lemma ki_ret {A} (a : A) : keeps_instances (mret a).
Proof. by intros w b w' [= _ <-]. Qed.

Lemma ki_try_throw {A} (m : sact A) (h : js_error -> sact unit) :
  keeps_instances m -> keeps_instances (try_catch m (fun e => h e ≫= fun _ => throw e)).
Proof.
  intros Hm w a w'. unfold try_catch, mbind, M_bind, throw. destruct (m w) as [[b|e] w1] eqn:E.
  - intros [= <- <-]. by apply (Hm w b w1).
  - by destruct (h e w1) as [[]].
Qed.

Lemma ki_random : keeps_instances (random_uuid : sact string).
Proof. by intros w a w' [= _ <-]. Qed.
Lemma ki_now : keeps_instances nowIso.
Proof. by intros w a w' [= _ <-]. Qed.
Lemma ki_audit ctx e : keeps_instances (safelyEmitAudit ctx e).
Proof.
  intros w a w'. unfold safelyEmitAudit, try_catch, publish, throw.
  destruct (_ && _); [destruct (broker _)|]; by intros [= _ <-].
Qed.
Lemma ki_forward sd : keeps_instances (call_forward sd).
Proof. by intros w a w' [= _ <-]. Qed.
Lemma ki_on_step id f : keeps_instances (adapterWrite (on_step id f)).
Proof. intros w a w'. unfold adapterWrite. destruct adapter_exports_query; by intros [= _ <-]. Qed.

Lemma ki_create_step sid ord key input : keeps_instances (createSagaStep sid ord key input).
Proof.
  unfold createSagaStep. do 3 (apply ki_bind; [auto using ki_random, ki_now|intros ?]).
  apply ki_bind; [|intros; apply ki_ret]. intros w b w'. unfold adapterWrite.
  destruct adapter_exports_query; by intros [= _ <-].
Qed.

Lemma ki_step_status id st v : keeps_instances (updateStepStatus id st v).
Proof. apply ki_bind; auto using ki_now, ki_on_step. Qed.

Lemma ki_run_steps s ctx d params todo : forall succeeded last,
  keeps_instances (run_steps s ctx d params todo succeeded last).
Proof.
  induction todo as [|sd todo IH]; intros succeeded last; simpl; [apply ki_ret|].
  apply ki_bind; [apply ki_create_step|]. intros step. apply ki_bind; [apply ki_step_status|]. intros _.
  apply ki_bind; [|intros; apply IH]. apply ki_try_throw.
  apply ki_bind; [apply ki_forward|]. intros out. apply ki_bind; [apply ki_step_status|]. intros _.
  apply ki_bind; [destruct (sd_auditMilestone sd); [apply ki_audit | apply ki_ret]|]. intros _. apply ki_ret.
Qed.

(** ** The row of a saga *)

Definition set_status (id st : string) (v : jsval) (now : Z) (rows : list saga) : list saga :=
  (fun s => if String.eqb (sg_saga_id s) id then with_saga_status st v now s else s) <$> rows.

Lemma updateSagaStatus_run id st v w :
  adapter_exports_query = true ->
  exists now w', updateSagaStatus id st v w = (Ok tt, w') /\
    saga_instances (w_db w') = set_status id st v now (saga_instances (w_db w)).
Proof.
  intros Ha. unfold updateSagaStatus, nowIso, now_ms, adapterWrite, mbind, M_bind, exec_db. rewrite Ha. simpl.
  eexists _, _. split; reflexivity.
Qed.

Definition named (key : string) (tenant : option string) (s : saga) : bool :=
  bool_decide (sg_idempotency_key s = Some key) && bool_decide (is_Some tenant /\ sg_tenant_id s = tenant).

Lemma named_set_status key t id st v now rows :
  List.filter (named key t) (set_status id st v now rows) = set_status id st v now (List.filter (named key t) rows).
Proof.
  unfold set_status. induction rows as [|s rows IH]; [done|]. rewrite !fmap_cons. simpl.
  assert (named key t (if String.eqb (sg_saga_id s) id then with_saga_status st v now s else s) = named key t s) as ->
    by by destruct (String.eqb _ _).
  destruct (named key t s); [|done]. by rewrite fmap_cons, IH.
Qed.

Lemma checkIdempotencyKey_run key t w :
  adapter_exports_query = true -> key <> "" ->
  checkIdempotencyKey (Some key) t w = (Ok (head (List.filter (named key t) (saga_instances (w_db w)))), w).
Proof.
  intros Ha Hk. unfold checkIdempotencyKey, findSagaByIdempotencyKey, adapterRows. apply String.eqb_neq in Hk.
  simpl. by rewrite Hk, Ha.
Qed.

Lemma ki_enrich wf t e : keeps_instances (enrichContextWithCorrelation wf t e).
Proof.
  unfold enrichContextWithCorrelation, buildCorrelationId. destruct (truthy_str e).
  - by intros w a w' [= _ <-].
  - by intros w a w' [= _ <-].
Qed.

Lemma existsb_key key rows :
  existsb (fun s => bool_decide (is_Some (Some key) /\ sg_idempotency_key s = Some key)) rows = false <->
  Forall (fun s => sg_idempotency_key s <> Some key) rows.
Proof.
  induction rows as [|s rows IH]; simpl; [done|]. rewrite orb_false_iff, Forall_cons, IH, bool_decide_eq_false. naive_solver.
Qed.

(** The insertion of an instance under a fresh key appends its row. *)
Lemma createSagaInstance_run wf params c corr key w s w' :
  adapter_exports_query = true -> createSagaInstance wf params c corr (Some key) w = (Ok s, w') ->
  saga_instances (w_db w') = saga_instances (w_db w) ++ [s] /\ sg_idempotency_key s = Some key /\
  sg_tenant_id s = sc_tenantId c /\ is_Some (sc_tenantId c).
Proof.
  intros Ha. unfold createSagaInstance. rewrite Ha. unfold random_uuid, nowIso, now_ms, mbind, M_bind, exec_db_err, insert_saga.
  simpl. destruct (bool_decide (is_Some (sc_tenantId c))) eqn:Ht; simpl; [|done].
  apply bool_decide_eq_true in Ht. destruct (existsb _ _); [done|]. by intros [= <- <-].
Qed.

(** A stored key makes the insertion of another instance fail. *)
Lemma createSagaInstance_conflict wf params c corr key w :
  adapter_exports_query = true -> is_Some (sc_tenantId c) ->
  Exists (fun s => sg_idempotency_key s = Some key) (saga_instances (w_db w)) ->
  exists e, fst (createSagaInstance wf params c corr (Some key) w) = Err e /\ err_code e = Some "23505" /\
    w_db (snd (createSagaInstance wf params c corr (Some key) w)) = w_db w.
Proof.
  intros Ha Ht Hex. unfold createSagaInstance. rewrite Ha.
  unfold random_uuid, nowIso, now_ms, mbind, M_bind, exec_db_err, insert_saga. simpl.
  rewrite (bool_decide_eq_true_2 _ Ht). simpl.
  destruct (existsb _ _) eqn:He; [by eexists|]. apply existsb_key in He. exfalso.
  apply Exists_exists in Hex as (s & Hin & Hk). rewrite Forall_forall in He. by apply (He s Hin).
Qed.

Lemma getSagaById_run b id w :
  exists found, getSagaById b id w = (Ok found, w) /\
    (forall s, found = Some s -> s ∈ saga_instances (w_db w) /\ sg_saga_id s = id).
Proof.
  assert (Hhead : forall s, head (List.filter (fun s => String.eqb (sg_saga_id s) id) (saga_instances (w_db w))) = Some s ->
            s ∈ saga_instances (w_db w) /\ sg_saga_id s = id).
  { intros s Hs. apply head_Some_elem_of in Hs.
    rewrite list_elem_of_In, filter_In, <- list_elem_of_In in Hs. by destruct Hs as [? ?%String.eqb_eq]. }
  unfold getSagaById, rows_via, adapterRows.
  destruct b; [by eexists|]. destruct adapter_exports_query; [by eexists|]. by exists None.
Qed.

(** ** Without an adapter *)

Lemma keeps_adapter (P : saga_db -> Prop) f : adapter_exports_query = false -> keeps P (adapterWrite f).
Proof. intros Ha w. unfold adapterWrite. by rewrite Ha. Qed.

Lemma keeps_effect (P : saga_db -> Prop) {A} (m : sact A) : (forall w, w_db (snd (m w)) = w_db w) -> keeps P m.
Proof. intros Hm w. by rewrite Hm. Qed.

Lemma keeps_forward P sd : keeps P (call_forward sd).
Proof. by apply keeps_effect. Qed.
Lemma keeps_compensate P sd i o : keeps P (call_compensate sd i o).
Proof. apply keeps_effect. intros w. unfold call_compensate. by case_match. Qed.
Lemma keeps_sleep P ms : keeps P (sleep ms).
Proof. by apply keeps_effect. Qed.
Lemma keeps_random8 P : keeps P random8.
Proof. by apply keeps_effect. Qed.
Lemma keeps_rows P {A} (f : saga_db -> list A) : keeps P (adapterRows f).
Proof. apply keeps_effect. intros w. unfold adapterRows. by case_match. Qed.

#[local] Hint Resolve keeps_forward keeps_compensate keeps_sleep keeps_random8 keeps_rows keeps_adapter : falcone.

Section no_adapter.
Hypothesis no_adapter : adapter_exports_query = false.
Variable P : saga_db -> Prop.

Lemma na_step_status id st v : keeps P (updateStepStatus id st v).
Proof. unfold updateStepStatus, nowIso. keeps_tac. Qed.
Lemma na_saga_status id st v : keeps P (updateSagaStatus id st v).
Proof. unfold updateSagaStatus, nowIso. keeps_tac. Qed.
Lemma na_attempts id n : keeps P (updateStepCompensationAttempts id n).
Proof. unfold updateStepCompensationAttempts, nowIso. keeps_tac. Qed.
Lemma na_log s t n o v : keeps P (appendCompensationLog s t n o v).
Proof. unfold appendCompensationLog, nowIso. keeps_tac. Qed.
Lemma na_audit ctx e : keeps P (safelyEmitAudit ctx e).
Proof. unfold safelyEmitAudit. keeps_tac. Qed.
#[local] Hint Resolve na_step_status na_saga_status na_attempts na_log na_audit : falcone.

Lemma na_compensate_attempts n attempt sid step sd : keeps P (compensate_attempts n attempt sid step sd).
Proof. revert attempt. induction n as [|n IH]; intros attempt; simpl; keeps_tac. Qed.
#[local] Hint Resolve na_compensate_attempts : falcone.

Lemma na_failure s ctx d succ sd step e : keeps P (on_step_failure s ctx d succ sd step e).
Proof. unfold on_step_failure, compensateSaga, compensate_step, emitCompensationFailedAlert. keeps_tac. Qed.
#[local] Hint Resolve na_failure : falcone.

Lemma na_run_steps s ctx d params todo : forall succ last, keeps P (run_steps s ctx d params todo succ last).
Proof.
  induction todo as [|sd todo IH]; intros; simpl; [keeps_tac|].
  unfold createSagaStep, nowIso. keeps_tac.
Qed.
#[local] Hint Resolve na_run_steps : falcone.

Lemma na_executeSaga wf params key c : keeps P (executeSaga wf params key c).
Proof.
  unfold executeSaga, checkIdempotencyKey, findSagaByIdempotencyKey, enrichContextWithCorrelation, buildCorrelationId,
    createSagaInstance, recordIdempotencyResult, nowIso. rewrite no_adapter. keeps_tac.
Qed.
End no_adapter.

End saga_proofs.

(** ** Properties *)

(** C3: what a saga does.  Whatever the workflow functions, the clock and the
    broker do, one execution of a defined workflow either calls nothing (a replay,
    or a refused insertion), or calls every forward function in order and
    succeeds, or calls a prefix, meets one failure, compensates exactly the steps
    of the prefix in reverse order - each at most [maxRetries] times, with the
    output of its own forward call - and fails. *)
Theorem executeSaga_trace `{!Platform, !Workflows} (wf : string) (d : saga_definition) (params : jsval)
    (key : option string) (c : saga_caller) (w : world saga_db saga_event) :
  assoc_lookup wf sagaDefinitions = Some d -> sd_provisional d = false ->
  exists new, w_events (snd (executeSaga wf params key c w)) = w_events w ++ new /\
    saga_trace d params (fst (executeSaga wf params key c w)) (effects new).
Proof. intros Hd Hp. by apply emits_executeSaga. Qed.

Definition saga_platform : Platform :=
  {| clock := fun n => (3600000 + n)%N; uuid := fun n => "uuid-" +:+ show_N n; broker := fun _ => None |}.

(** Workflow functions of which the effects listed fail. *)
Definition failing_at (bad : list nat) (exported : bool) : Workflows :=
  {| forward_result := fun n => if bool_decide (n ∈ bad) then Err (plain_error "unreachable") else Ok (jint (Z.of_nat n));
     compensate_result := fun n => if bool_decide (n ∈ bad) then Some (plain_error "unreachable") else None;
     math_random36 := fun _ => "0.abcdefghij"; adapter_exports_query := exported; alert_emitter := true;
     saga_env := fun _ => None |}.

Definition empty_saga_world : world saga_db saga_event := mk_world (mk_saga_db [] [] []) 0 0 0 [].
Definition saga_user (tenant : string) : saga_caller :=
  mk_saga_caller (Some tenant) None (Some "tenant_owner") (Some "usr-1") None None None None.

Lemma executeSaga_trace_witness :
  let run := @executeSaga saga_platform (failing_at [5; 7]%nat true) "WF-CON-003" (JObj []) None (saga_user "ten-1") empty_saga_world in
  effects (w_events (snd run))
  = [Forwarded "create-keycloak-client" true; Forwarded "create-postgresql-workspace" true;
     Forwarded "reserve-s3-storage" false;
     Compensated "create-postgresql-workspace" (JObj []) (jint 3) false;
     Compensated "create-postgresql-workspace" (JObj []) (jint 3) true;
     Compensated "create-keycloak-client" (JObj []) (jint 1) true] /\
  exists new, w_events (snd run) = [] ++ new /\
    @saga_trace (failing_at [5; 7]%nat true)
      (default (mk_saga_definition "" true "" []) (assoc_lookup "WF-CON-003" sagaDefinitions)) (JObj []) (fst run) (effects new).
Proof.
  intros run. split; [vm_compute; reflexivity|].
  apply (@executeSaga_trace saga_platform (failing_at [5; 7]%nat true)); reflexivity.
Defined.

(** A completed saga is replayed.  After an execution under a fresh key
    succeeded, every later execution of the workflow by the same tenant under
    that key, with whatever parameters, returns the same result, calls nothing
    and changes nothing. *)
Theorem executeSaga_idempotent `{!Platform, !Workflows} (wf : string) (d : saga_definition) (params params' : jsval)
    (key : string) (c c' : saga_caller) (w w2 : world saga_db saga_event) (r : jsval) :
  adapter_exports_query = true -> assoc_lookup wf sagaDefinitions = Some d -> sd_provisional d = false -> key <> "" ->
  Forall (fun s => sg_idempotency_key s <> Some key) (saga_instances (w_db w)) ->
  fst (executeSaga wf params (Some key) c w) = Ok r ->
  sc_tenantId c' = sc_tenantId c ->
  saga_instances (w_db w2) = saga_instances (w_db (snd (executeSaga wf params (Some key) c w))) ->
  executeSaga wf params' (Some key) c' w2 = (Ok r, w2).
Proof.
  intros Ha Hd Hp Hk Hfresh Hr Ht Hw2. destruct (executeSaga wf params (Some key) c w) as [r0 w'] eqn:E.
  simpl in Hr, Hw2. subst r0. unfold executeSaga in E |- *. rewrite Hd, Hp in *. cbv zeta in E |- *.
  unfold mbind at 1, M_bind at 1. rewrite checkIdempotencyKey_run by done.
  unfold mbind at 1, M_bind at 1 in E. rewrite checkIdempotencyKey_run in E by done.
  assert (Hnone : List.filter (named key (sc_tenantId c)) (saga_instances (w_db w)) = []).
  { clear -Hfresh. induction Hfresh as [|s rows Hs _ IH]; [done|]. simpl.
    unfold named at 1. by rewrite bool_decide_eq_false_2. }
  rewrite Hnone in E. simpl in E.
  apply M_bind_ok in E as (corr & w1 & E1 & E). apply ki_enrich in E1.
  apply M_bind_ok in E as (s & w3 & E3 & E). apply createSagaInstance_run in E3 as (E3 & Hkey & Hten & Hsome); [|done].
  apply M_bind_ok in E as ([] & w4 & E4 & E). apply ki_audit in E4.
  apply M_bind_ok in E as (out & w5 & E5 & E). apply ki_run_steps in E5.
  destruct (updateSagaStatus_run (sg_saga_id s) "completed" (saga_result (sg_saga_id s) out) w5 Ha) as (n6 & w6 & R6 & E6).
  apply M_bind_ok in E as ([] & w6' & E6' & E). rewrite R6 in E6'. injection E6' as <-.
  apply M_bind_ok in E as ([] & w7 & E7 & E). apply ki_audit in E7.
  apply String.eqb_neq in Hk. simpl in E. rewrite Hk in E. simpl in E. unfold recordIdempotencyResult in E.
  destruct (updateSagaStatus_run (sg_saga_id s) "completed" (saga_result (sg_saga_id s) out) w7 Ha) as (n8 & w8 & R8 & E8).
  apply M_bind_ok in E as ([] & w8' & E8' & E). rewrite R8 in E8'. injection E8' as <-. injection E as <- <-.
  rewrite Ht, Hw2, E8, E7, E6, E5, E4, E3, E1, !named_set_status, List.filter_app, Hnone. simpl.
  assert (named key (sc_tenantId c) s = true) as ->.
  { unfold named. rewrite Hkey, Hten. by rewrite !bool_decide_eq_true_2. }
  simpl. rewrite String.eqb_refl. simpl. rewrite String.eqb_refl. reflexivity.
Qed.

Definition service_account_saga : saga_definition :=
  mk_saga_definition "WF-CON-006" false "compensate" [mk_step_def 1 "create-service-account" true "createServiceAccount" "deleteServiceAccount"].

Lemma executeSaga_idempotent_witness :
  let W := failing_at [] true in
  let first := @executeSaga saga_platform W "WF-CON-006" (JObj []) (Some "k-1") (saga_user "ten-1") empty_saga_world in
  @executeSaga saga_platform W "WF-CON-006" JNull (Some "k-1") (saga_user "ten-1") (snd first)
  = (Ok (saga_result "uuid-1" (jint 1)), snd first).
Proof.
  intros W first.
  assert (Hlookup : assoc_lookup "WF-CON-006" sagaDefinitions = Some service_account_saga) by reflexivity.
  assert (Hrun : fst first = Ok (saga_result "uuid-1" (jint 1))) by (vm_compute; reflexivity).
  exact (@executeSaga_idempotent saga_platform W "WF-CON-006" service_account_saga (JObj []) JNull "k-1"
    (saga_user "ten-1") (saga_user "ten-1") empty_saga_world (snd first) _ eq_refl Hlookup eq_refl ltac:(discriminate)
    (List.Forall_nil _) Hrun eq_refl eq_refl).
Defined.

(** A key is good for one saga only.  If the key is stored and none of the
    caller's sagas under it is completed or running - the saga failed and was
    compensated, or it is another tenant's - the execution is refused by the
    unique constraint (23505) before any step, and the tables do not change: a
    failed saga cannot be run again under its key. *)
Theorem executeSaga_key_conflict `{!Platform, !Workflows} (wf : string) (d : saga_definition) (params : jsval)
    (key : string) (c : saga_caller) (w : world saga_db saga_event) :
  adapter_exports_query = true -> assoc_lookup wf sagaDefinitions = Some d -> sd_provisional d = false -> key <> "" ->
  is_Some (sc_tenantId c) ->
  Exists (fun s => sg_idempotency_key s = Some key) (saga_instances (w_db w)) ->
  Forall (fun s => named key (sc_tenantId c) s = true -> sg_status s <> "completed" /\ sg_status s <> "executing") (saga_instances (w_db w)) ->
  exists e, fst (executeSaga wf params (Some key) c w) = Err e /\ err_code e = Some "23505" /\
    saga_instances (w_db (snd (executeSaga wf params (Some key) c w))) = saga_instances (w_db w).
Proof.
  intros Ha Hd Hp Hk Ht Hex Hst. unfold executeSaga. rewrite Hd, Hp. cbv zeta.
  rewrite !(M_bind_run _ _ _ _ _ (checkIdempotencyKey_run _ _ _ Ha Hk)).
  match goal with |- context [match _ with Some _ => _ | None => ?f end] => set (fresh := f) end.
  assert (Hfresh : exists e, fst (fresh w) = Err e /\ err_code e = Some "23505" /\ saga_instances (w_db (snd (fresh w))) = saga_instances (w_db w)).
  { destruct (enrichContextWithCorrelation wf (sc_tenantId c) (sc_correlationId c) w) as [[corr|e] w1] eqn:E1.
    2:{ destruct (quiet_enrich wf (sc_tenantId c) (sc_correlationId c) w) as (? & _ & _ & ? & Hok & _). by rewrite E1 in Hok. }
    pose proof (ki_enrich _ _ _ _ _ _ E1) as Hki. rewrite <- Hki in Hex.
    destruct (createSagaInstance_conflict wf params c corr key w1 Ha Ht Hex) as (e & He & Hcode & Hdb).
    destruct (createSagaInstance wf params c corr (Some key) w1) as [r2 w2] eqn:E2. simpl in He, Hdb. subst r2.
    assert (Hrun : fresh w = (Err e, w2)) by (unfold fresh; by rewrite (M_bind_run _ _ _ _ _ E1), (M_bind_run_err _ _ _ _ _ E2)).
    rewrite Hrun. exists e. simpl. by rewrite Hdb. }
  destruct (head _) as [s|] eqn:Eh; [|exact Hfresh].
  assert (Hin : s ∈ List.filter (named key (sc_tenantId c)) (saga_instances (w_db w))) by (destruct (List.filter _ _); simplify_eq/=; set_solver).
  rewrite list_elem_of_In, filter_In, <- list_elem_of_In in Hin. destruct Hin as [Hin Hn].
  rewrite Forall_forall in Hst. destruct (Hst s Hin Hn) as [H1 H2]. apply String.eqb_neq in H1, H2.
  rewrite H1, H2. exact Hfresh.
Qed.

Lemma executeSaga_key_conflict_witness :
  let W := failing_at [1]%nat true in
  let first := @executeSaga saga_platform W "WF-CON-006" (JObj []) (Some "k-1") (saga_user "ten-1") empty_saga_world in
  sg_status <$> saga_instances (w_db (snd first)) = ["compensated"] /\
  exists e, fst (@executeSaga saga_platform W "WF-CON-006" (JObj []) (Some "k-1") (saga_user "ten-1") (snd first)) = Err e /\
    err_code e = Some "23505".
Proof.
  intros W first. split; [vm_compute; reflexivity|].
  assert (Hlookup : assoc_lookup "WF-CON-006" sagaDefinitions = Some service_account_saga) by reflexivity.
  assert (Hex : Exists (fun s => sg_idempotency_key s = Some "k-1") (saga_instances (w_db (snd first))))
    by (vm_compute; constructor; reflexivity).
  assert (Hst : Forall (fun s => named "k-1" (Some "ten-1") s = true -> sg_status s <> "completed" /\ sg_status s <> "executing")
                  (saga_instances (w_db (snd first)))) by (vm_compute; repeat constructor; discriminate).
  destruct (@executeSaga_key_conflict saga_platform W "WF-CON-006" service_account_saga (JObj []) "k-1" (saga_user "ten-1")
    (snd first) eq_refl Hlookup eq_refl ltac:(discriminate) ltac:(by eexists) Hex Hst) as (e & He & Hc & _).
  exists e. split; [exact He | exact Hc].
Defined.

(** Recovery undoes what was done.  For a stale saga whose eligible stored
    steps (succeeded, compensating or compensation-failed) stand for the pairs
    [ps] of a definition and an output, recovery succeeds and its effects are the
    undoing of [ps] in reverse order, with the stored outputs.  But a step whose
    compensation had begun has lost its output: moving it to [compensating]
    stores null, and null is what a recovery would pass on. *)
Theorem recovery_undoes `{!Platform, !Workflows} (s : saga) (d : saga_definition) (params : jsval)
    (ps : list (step_def * jsval)) (w : world saga_db saga_event) :
  adapter_exports_query = true -> assoc_lookup (sg_workflow_id s) sagaDefinitions = Some d -> sd_provisional d = false ->
  let eligible := List.filter (fun x => str_in (st_status x) RECOVERABLE)
    (merge_sort ordinal_asc (List.filter (fun x => String.eqb (st_saga_id x) (sg_saga_id s)) (saga_steps (w_db w)))) in
  Forall2 (stands_for params d) eligible ps -> StronglySorted Z.lt (sd_ordinal <$> (fst <$> ps)) ->
  (fst (recover_saga s w) = Ok true /\
   exists new failed, w_events (snd (recover_saga s w)) = w_events w ++ new /\
     undone params (reverse ps) (effects new) failed) /\
  (forall stepId x, x ∈ saga_steps (w_db (snd (updateStepStatus stepId "compensating" JUndef w))) ->
     st_step_id x = stepId -> st_status x = "compensating" /\ st_output_snapshot x = JNull).
Proof.
  intros Ha Hd Hp eligible Hst Hord. split.
  - assert (Hem : emits (compensateSaga (sg_saga_id s) eligible d ≫= fun failed =>
              let st := if allCompensated failed then "compensated" else "compensation-failed" in
              updateSagaStatus (sg_saga_id s) st
                (JObj [("allCompensated", JBool (allCompensated failed)); ("failedSteps", JArr (JStr <$> failed))]) ≫= fun _ =>
              safelyEmitAudit (mk_saga_ctx (sg_saga_id s) (sg_workflow_id s) (sg_correlation_id s) (sg_tenant_id s)
                (sg_workspace_id s) (sg_actor_type s) (sg_actor_id s)) (WorkflowTerminal (sg_saga_id s) st) ≫= fun _ => mret true)
            (fun r evs => r = Ok true /\ exists failed, undone params (reverse ps) evs failed)).
    { eapply emits_bind.
      - unfold compensateSaga. rewrite compensation_order by (erewrite stands_for_ordinals; eauto).
        apply (emits_compensate_fold _ d params). apply Forall2_reverse. exact Hst.
      - intros failed evs1 (failed' & _ & Hu). simpl. eapply emits_bind_quiet; [apply quiet_saga_status|]. intros _ _.
        eapply emits_bind_quiet; [by apply quiet_audit|]. intros _ _. apply emits_ret. rewrite app_nil_r. eauto.
      - by intros e evs (? & ? & _). }
    unfold recover_saga. rewrite Hd, Hp.
    assert (Hls : listStepsForSaga false (sg_saga_id s) w = (Ok (merge_sort ordinal_asc
              (List.filter (fun x => String.eqb (st_saga_id x) (sg_saga_id s)) (saga_steps (w_db w)))), w))
      by (unfold listStepsForSaga, rows_via, adapterRows; by rewrite Ha).
    rewrite !(M_bind_run _ _ _ _ _ Hls). destruct (Hem w) as (new & Hev & Hr & failed & Hu).
    split; [exact Hr|]. by exists new, failed.
  - intros stepId x. unfold updateStepStatus, nowIso, now_ms, adapterWrite, mbind, M_bind, exec_db. rewrite Ha. simpl.
    intros (y & -> & _)%list_elem_of_fmap. destruct (String.eqb_spec (st_step_id y) stepId); [done|].
    by intros.
Qed.

Definition stored_step (ord : Z) (key st : string) (out : jsval) : saga_step :=
  mk_saga_step ("step-" +:+ key) "saga-1" ord key st (JObj []) out JNull 0 0 0.

Definition crashed_saga : saga :=
  mk_saga "saga-1" "WF-CON-001" None "corr" (Some "ten-1") None "a" "b" "executing" "compensate" (JObj []) JNull JNull 0 0.

Definition crashed_world : world saga_db saga_event :=
  mk_world (mk_saga_db [crashed_saga]
    [stored_step 1 "assign-keycloak-role" "succeeded" (jint 7); stored_step 2 "update-membership-record" "executing" JNull] []) 0 0 0 [].

Lemma recovery_undoes_witness :
  exists new failed, w_events (snd (@recover_saga saga_platform (failing_at [] true) crashed_saga crashed_world)) = [] ++ new /\
    @undone (failing_at [] true) (JObj [])
      [(mk_step_def 1 "assign-keycloak-role" true "assignKeycloakRole" "revokeKeycloakRole", jint 7)] (effects new) failed.
Proof.
  set (sd := mk_step_def 1 "assign-keycloak-role" true "assignKeycloakRole" "revokeKeycloakRole").
  apply (@recovery_undoes saga_platform (failing_at [] true) crashed_saga
    (default (mk_saga_definition "" true "" []) (assoc_lookup "WF-CON-001" sagaDefinitions)) (JObj []) [(sd, jint 7)] crashed_world).
  - reflexivity.
  - reflexivity.
  - reflexivity.
  - vm_compute. repeat constructor. discriminate.
  - vm_compute. repeat constructor.
Defined.

(** The status of a saga stays in its tenant.  A caller that is not a
    superadmin is shown a status only for a stored saga of its own tenant and,
    when it names a workspace, of that workspace. *)
Theorem getSagaStatus_isolated `{!Workflows} (with_db : bool) (id : string) (c : saga_caller)
    (w w' : world saga_db saga_event) (j : jsval) :
  is_role "superadmin" c = false -> getSagaStatus with_db id c w = (Ok (Some j), w') ->
  exists s, s ∈ saga_instances (w_db w) /\ sg_saga_id s = id /\ sg_tenant_id s = sc_tenantId c /\
    (truthy_str (sc_workspaceId c) = true -> sg_workspace_id s = sc_workspaceId c).
Proof.
  intros Hr. unfold getSagaStatus. destruct (getSagaById_run with_db id w) as (found & E & Hfound).
  rewrite (M_bind_run _ _ _ _ _ E). destruct found as [s|]; [|done].
  destruct (Hfound s eq_refl) as [Hin Hid]. rewrite Hr. simpl.
  destruct (bool_decide (sg_tenant_id s = sc_tenantId c)) eqn:Ht; simpl; [|done]. apply bool_decide_eq_true in Ht.
  destruct (truthy_str (sc_workspaceId c)) eqn:Hw; simpl.
  - destruct (bool_decide (sg_workspace_id s = sc_workspaceId c)) eqn:Hws; simpl; [|done].
    apply bool_decide_eq_true in Hws. intros _. by exists s.
  - intros _. by exists s.
Qed.

Lemma getSagaStatus_isolated_witness :
  is_ok (fst (@getSagaStatus (failing_at [] true) true "saga-1" (saga_user "ten-2") crashed_world)) = false /\
  exists s, s ∈ saga_instances (w_db crashed_world) /\ sg_saga_id s = "saga-1" /\ sg_tenant_id s = Some "ten-1".
Proof.
  split; [vm_compute; reflexivity|].
  destruct (@getSagaStatus_isolated (failing_at [] true) true "saga-1" (saga_user "ten-1") crashed_world crashed_world
    (toStatusResponse crashed_saga (saga_steps (w_db crashed_world))) eq_refl) as (s & Hin & Hid & Ht & _).
  - vm_compute. reflexivity.
  - exists s. split; [exact Hin|]. split; [exact Hid | exact Ht].
Defined.

(** Without a query function nothing is stored.  When the adapter module
    exports none - the one in the repository does not - an execution leaves the
    tables as they are, a second execution under the key of a first one is a fresh
    run again, and recovery finds nothing to recover. *)
Theorem no_adapter_no_state `{!Platform, !Workflows} (wf : string) (params : jsval) (key tenant : option string)
    (c : saga_caller) (w : world saga_db saga_event) (ms : Z) :
  adapter_exports_query = false ->
  w_db (snd (executeSaga wf params key c w)) = w_db w /\
  fst (checkIdempotencyKey key tenant (snd (executeSaga wf params key c w))) = Ok None /\
  fst (recoverInFlightSagas ms (snd (executeSaga wf params key c w))) = Ok (0, []).
Proof.
  intros Ha. split_and!.
  - by apply (na_executeSaga Ha (fun db => db = w_db w)).
  - unfold checkIdempotencyKey, findSagaByIdempotencyKey, adapterRows. rewrite Ha. by destruct (truthy_str key).
  - unfold recoverInFlightSagas, getInFlightSagas, adapterRows. by rewrite Ha.
Qed.

Lemma no_adapter_no_state_witness :
  let first := @executeSaga saga_platform (failing_at [] false) "WF-CON-006" (JObj []) (Some "k-1") (saga_user "ten-1") empty_saga_world in
  effects (w_events (snd first)) = [Forwarded "create-service-account" true] /\
  fst (@checkIdempotencyKey (failing_at [] false) (Some "k-1") (Some "ten-1") (snd first)) = Ok None.
Proof.
  intros first. split; [vm_compute; reflexivity|].
  exact (proj1 (proj2 (@no_adapter_no_state saga_platform (failing_at [] false) "WF-CON-006" (JObj []) (Some "k-1") (Some "ten-1")
    (saga_user "ten-1") empty_saga_world 0 eq_refl))).
Defined.
