(* ===== verification/Cron.v ===== *)
(** * Cron expressions

    scheduling-engine's [src/cron-validator.mjs].  A JavaScript [Date] is its
    epoch milliseconds; the UTC getters are the proleptic Gregorian calendar,
    computed from the day number by the era method. *)
From S2P Require Import Prelude JsValue.
From stdpp Require Import sorting.
From Stdlib Require Import Ascii.
Local Open Scope Z_scope.

(** ** UTC getters *)

(** Year, month and day of the days since 1970-01-01. *)
Definition civil_of_days (days : Z) : Z * Z * Z :=
  let z := days + 719468 in
  let era := z / 146097 in
  let doe := z mod 146097 in
  let yoe := (doe - doe / 1460 + doe / 36524 - doe / 146096) / 365 in
  let doy := doe - (365 * yoe + yoe / 4 - yoe / 100) in
  let mp := (5 * doy + 2) / 153 in
  let m := if mp <? 10 then mp + 3 else mp - 9 in
  (yoe + era * 400 + (if m <=? 2 then 1 else 0), m, doy - (153 * mp + 2) / 5 + 1).

Definition getUTCMinutes (ms : Z) : Z := (ms / 60000) mod 60.
Definition getUTCHours (ms : Z) : Z := (ms / 3600000) mod 24.
Definition getUTCDate (ms : Z) : Z := let '(_, _, d) := civil_of_days (ms / 86400000) in d.
(** [date.getUTCMonth() + 1] *)
Definition getUTCMonth1 (ms : Z) : Z := let '(_, m, _) := civil_of_days (ms / 86400000) in m.
Definition getUTCDay (ms : Z) : Z := (ms / 86400000 + 4) mod 7.

(** ** Parsing *)

Definition FIELD_RANGES : list (Z * Z) := [(0, 59); (0, 23); (1, 31); (1, 12); (0, 7)].

(** [for (let current = start; current <= end; current += step) values.add(current)];
    the step is positive, so [end - start + 1] rounds are enough. *)
Fixpoint count_up (fuel : nat) (current last step : Z) (values : list Z) : list Z :=
  match fuel with
  | O => values
  | S fuel' =>
      if current <=? last then
        count_up fuel' (current + step) last step (if existsb (Z.eqb current) values then values else values ++ [current])
      else values
  end.

Definition quoted (s : string) : string := let q := String (ascii_of_N 34) EmptyString in q +:+ s +:+ q.
Definition invalid_range (part : string) : js_error := plain_error ("Invalid range in cron field " +:+ quoted part).
Definition invalid_step (part : string) : js_error := plain_error ("Invalid step value in cron field " +:+ quoted part).

Definition token_step (part : string) (stepRaw : option string) : result js_error Z :=
  match (if truthy_str stepRaw then to_number (default "" stepRaw) else NInt 1) with
  | NInt s => if s <=? 0 then Err (invalid_step part) else Ok s
  | _ => Err (invalid_step part)
  end.

Definition token_range (base : string) (lo hi : Z) : jsnum * jsnum :=
  if nonempty base && negb (String.eqb base "*") then
    if includes "-" base then
      match split_on "-" base with
      | a :: b :: _ => (to_number a, to_number b)
      | _ => (NNaN, NNaN)
      end
    else (to_number base, to_number base)
  else (NInt lo, NInt hi).

(** One token of a part, added to the values so far. *)
Definition expand_token (part : string) (lo hi : Z) (values : list Z) (token : string) : result js_error (list Z) :=
  let pieces := split_on "/" token in
  token_step part (nth_error pieces 1) ≫= fun step =>
  match token_range (default "" (head pieces)) lo hi with
  | (NInt s, NInt e) =>
      if (s <? lo) || (hi <? e) || (e <? s) then Err (invalid_range part)
      else Ok (count_up (Z.to_nat (e - s + 1)) s e step values)
  | _ => Err (invalid_range part)
  end.

Fixpoint expand_tokens (part : string) (lo hi : Z) (values : list Z) (tokens : list string) : result js_error (list Z) :=
  match tokens with
  | [] => Ok values
  | t :: ts => expand_token part lo hi values t ≫= fun values' => expand_tokens part lo hi values' ts
  end.

Definition expandPart (part : string) (lo hi : Z) : result js_error (list Z) :=
  if String.eqb part "*" then Ok (seqZ lo (hi - lo + 1))
  else expand_tokens part lo hi [] (split_on "," part) ≫= fun values => Ok (merge_sort Z.le values).

Fixpoint expand_fields (fields : list string) (ranges : list (Z * Z)) : result js_error (list (list Z)) :=
  match fields, ranges with
  | f :: fs, (lo, hi) :: rs =>
      expandPart f lo hi ≫= fun v => expand_fields fs rs ≫= fun vs => Ok (v :: vs)
  | _, _ => Ok []
  end.

Definition parse (expr : string) : result js_error (list (list Z)) :=
  let fields := split_ws (trim expr) in
  if (length fields =? 6)%nat
  then Err (plain_error "Cron expression must use exactly 5 fields; seconds precision is not supported.")
  else if negb (length fields =? 5)%nat then Err (plain_error "Cron expression must use exactly 5 fields.")
  else expand_fields fields FIELD_RANGES.

Definition z_in (x : Z) (xs : list Z) : bool := existsb (Z.eqb x) xs.

Definition matches (date : Z) (parsed : list (list Z)) : bool :=
  match parsed with
  | [minutes; hours; days; months; weekdays] =>
      z_in (getUTCMinutes date) minutes && z_in (getUTCHours date) hours && z_in (getUTCDate date) days
      && z_in (getUTCMonth1 date) months && z_in (getUTCDay date) weekdays
  | _ => false
  end.

Definition validateCronExpression (expr : string) : bool * option string :=
  match parse expr with
  | Ok _ => (true, None)
  | Err e => (false, Some (err_message e))
  end.

(** ** The next run *)

Definition MINUTE : Z := 60000.
Definition floor_minute (ms : Z) : Z := ms / MINUTE * MINUTE.
(** [60 * 24 * 366] minutes are probed. *)
Definition PROBES : nat := Z.to_nat (60 * 24 * 366).

Fixpoint probe_from (fuel : nat) (probe : Z) (parsed : list (list Z)) : option Z :=
  match fuel with
  | O => None
  | S fuel' => if matches probe parsed then Some probe else probe_from fuel' (probe + MINUTE) parsed
  end.

Definition nextRunAt (expr : string) (fromDate : Z) : result js_error Z :=
  parse expr ≫= fun parsed =>
  match probe_from PROBES (floor_minute fromDate + MINUTE) parsed with
  | Some t => Ok t
  | None => Err (plain_error "Unable to resolve next cron execution within one year.")
  end.

(** 2026-01-01T00:00:00.000Z *)
Definition REFERENCE_DATE : Z := 1767225600000.

Definition minimumIntervalSeconds (expr : string) : result js_error Z :=
  nextRunAt expr REFERENCE_DATE ≫= fun first =>
  nextRunAt expr first ≫= fun second =>
  nextRunAt expr second ≫= fun third =>
  Ok (Z.min ((second - first) / 1000) ((third - second) / 1000)).

Definition assertAboveFloor (expr : string) (floorSeconds : jsnum) : result js_error bool :=
  minimumIntervalSeconds expr ≫= fun minimum =>
  if num_ltb (NInt minimum) floorSeconds
  then Err (plain_error ("Cron expression resolves every " +:+ show_Z minimum +:+ " seconds, below floor " +:+ show_num floorSeconds +:+ "."))
  else Ok true.

Example next_run_examples :
  (fun expr => nextRunAt expr REFERENCE_DATE) <$> ["*/15 * * * *"; "0 9 * * 1-5"; "0 0 * *"]
  = [Ok 1767226500000; Ok 1767258000000; Err (plain_error "Cron expression must use exactly 5 fields.")].
Proof. vm_compute. reflexivity. Qed.

Example civil_examples :
  civil_of_days <$> [0; -1; 59; 11016; 19782; 20453; 20454; 47540]
  = [(1970, 1, 1); (1969, 12, 31); (1970, 3, 1); (2000, 2, 29); (2024, 2, 29); (2025, 12, 31); (2026, 1, 1); (2100, 2, 28)].
Proof. vm_compute. reflexivity. Qed.

(** ** Lemmas on parsing *)

Lemma count_up_elem fuel : forall current last step values x,
  x ∈ count_up fuel current last step values -> 0 < step -> x ∈ values \/ current <= x <= last.
Proof.
  induction fuel as [|fuel IH]; intros current last step values x Hx Hs; simpl in Hx; [by left|].
  destruct (current <=? last) eqn:Hle; [|by left]. apply IH in Hx as [Hx|?]; [|right; lia|done].
  destruct (existsb _ _); [by left|]. apply elem_of_app in Hx as [?| ->%list_elem_of_singleton]; [by left|right; lia].
Qed.

Lemma count_up_nodup fuel : forall current last step values,
  NoDup values -> NoDup (count_up fuel current last step values).
Proof.
  induction fuel as [|fuel IH]; intros current last step values Hn; simpl; [done|].
  destruct (current <=? last); [|done]. apply IH. destruct (existsb _ _) eqn:He; [done|].
  apply NoDup_app. split_and!; [done| |apply NoDup_singleton].
  intros x Hx ->%list_elem_of_singleton. apply not_true_iff_false in He. apply He.
  apply existsb_exists. exists current. split; [by apply list_elem_of_In | apply Z.eqb_refl].
Qed.

(** The loop runs to its end: it adds exactly the values from [current] by [step]
    up to [last]. *)
Lemma count_up_values fuel : forall current last step values x,
  0 < step -> last - current < Z.of_nat fuel ->
  x ∈ count_up fuel current last step values <->
  x ∈ values \/ (current <= x <= last /\ (x - current) mod step = 0).
Proof.
  induction fuel as [|fuel IH]; intros current last step values x Hs Hf; cbn [count_up].
  { split; [by left|]. intros [?|[? _]]; [done|lia]. }
  destruct (Z.leb_spec current last) as [Hle|Hgt]; [|split; [by left|intros [?|[? _]]; [done|lia]]].
  rewrite IH by lia.
  assert (Hv : x ∈ (if existsb (Z.eqb current) values then values else values ++ [current]) <-> x ∈ values \/ x = current).
  { destruct (existsb _ _) eqn:He; [|by rewrite elem_of_app, list_elem_of_singleton].
    split; [by left|]. intros [?| ->]; [done|]. apply existsb_exists in He as (y & Hy & <-%Z.eqb_eq). by apply list_elem_of_In. }
  rewrite Hv.
  replace (x - (current + step)) with (x - current + (-1) * step) by lia. rewrite Z_mod_plus_full. split.
  - intros [[?| ->]|[? ?]]; [by left| |right; split; [lia|done]].
    right. split; [lia|]. by rewrite Z.sub_diag.
  - intros [?|[? Hm]]; [by left; left|]. destruct (decide (x = current)) as [->|Hne]; [by left; right|].
    right. split; [|done]. apply Z.mod_divide in Hm as [k Hk]; [|lia].
    assert (0 < k) by nia. nia.
Qed.

Lemma token_step_pos part s step : token_step part s = Ok step -> 0 < step.
Proof. unfold token_step. destruct (if truthy_str s then _ else _); try done. case_match; [done|]. intros [= <-]. lia. Qed.

(** ** What an expression selects *)

(** [token] of a part selects the values of its range, from the start by its step. *)
Definition token_selects (part : string) (lo hi : Z) (token : string) (x : Z) : Prop :=
  exists start last step,
    token_range (default "" (head (split_on "/" token))) lo hi = (NInt start, NInt last) /\
    token_step part (nth_error (split_on "/" token) 1) = Ok step /\
    start <= x <= last /\ (x - start) mod step = 0.

Definition part_selects (part : string) (lo hi x : Z) : Prop :=
  if String.eqb part "*" then lo <= x <= hi
  else exists token, token ∈ split_on "," part /\ token_selects part lo hi token x.

(** A field as it is parsed: sorted, without duplicates, in its range, and with
    exactly the values its part selects. *)
Definition field_of (v : list Z) (field : string * (Z * Z)) : Prop :=
  let '(part, (lo, hi)) := field in
  Sorted Z.le v /\ NoDup v /\ Forall (fun x => lo <= x <= hi) v /\ forall x, x ∈ v <-> part_selects part lo hi x.

Lemma expand_token_values part lo hi values token values' :
  expand_token part lo hi values token = Ok values' ->
  (NoDup values -> NoDup values') /\
  (forall x, x ∈ values' <-> x ∈ values \/ token_selects part lo hi token x) /\
  (forall x, token_selects part lo hi token x -> lo <= x <= hi).
Proof.
  unfold expand_token, token_selects. rewrite result_bind_ok. intros (step & Hstep & Hr).
  pose proof (token_step_pos _ _ _ Hstep). destruct (token_range _ _ _) as [[s| | |] [e| | |]]; try done.
  destruct ((s <? lo) || (hi <? e) || (e <? s)) eqn:Hb; [done|]. injection Hr as <-.
  split_and!; [apply count_up_nodup| |].
  - intros x. rewrite count_up_values by lia. split; (intros [?|Hx]; [by left|right]).
    + by exists s, e, step.
    + destruct Hx as (? & ? & ? & [= <- <-] & Hs & ? & ?). rewrite Hstep in Hs. by injection Hs as <-.
  - intros x (? & ? & ? & [= <- <-] & _ & ? & _). lia.
Qed.

Lemma expand_tokens_values part lo hi tokens : forall values values',
  expand_tokens part lo hi values tokens = Ok values' ->
  (NoDup values -> NoDup values') /\
  (forall x, x ∈ values' <-> x ∈ values \/ exists token, token ∈ tokens /\ token_selects part lo hi token x) /\
  (forall token x, token ∈ tokens -> token_selects part lo hi token x -> lo <= x <= hi).
Proof.
  induction tokens as [|t ts IH]; intros values values'; cbn [expand_tokens].
  { intros [= <-]. split_and!; [done| |by intros ? ? ?%elem_of_nil].
    intros x. split; [by left|]. intros [?|(? & ?%elem_of_nil & _)]; done. }
  rewrite result_bind_ok. intros (v & (Hn & Hv & Hb)%expand_token_values & (Hn' & Hv' & Hb')%IH).
  split_and!; [auto| |].
  - intros x. rewrite Hv', Hv. setoid_rewrite elem_of_cons. naive_solver.
  - intros token x [->|Ht]%elem_of_cons; eauto.
Qed.

Lemma seqZ_sorted lo n : Sorted Z.le (seqZ lo n).
Proof.
  apply StronglySorted_Sorted. unfold seqZ. induction (Z.to_nat _) as [|m IH] in lo |- *; simpl; [constructor|].
  constructor; [|]. 2:{ apply Forall_forall. intros x Hx. apply list_elem_of_fmap in Hx as (k & -> & _). lia. }
  rewrite <- (fmap_S_seq 0 m), <- list_fmap_compose.
  rewrite (list_fmap_ext _ (fun i => Z.of_nat i + (lo + 1))); [apply IH|]. intros; simpl; lia.
Qed.

Lemma expandPart_field part lo hi values :
  expandPart part lo hi = Ok values -> field_of values (part, (lo, hi)).
Proof.
  unfold expandPart, field_of, part_selects. destruct (String.eqb part "*").
  - intros [= <-]. split_and!; [apply seqZ_sorted | apply NoDup_seqZ | |].
    + apply Forall_forall. intros x Hx%elem_of_seqZ. lia.
    + intros x. rewrite elem_of_seqZ. lia.
  - rewrite result_bind_ok. intros (v & (Hn & Hv & Hb)%expand_tokens_values & [= <-]).
    assert (Hsel : forall x, x ∈ v <-> exists token, token ∈ split_on "," part /\ token_selects part lo hi token x).
    { intros x. rewrite Hv. split; [|by right]. intros [?%elem_of_nil|?]; done. }
    split_and!.
    + apply (Sorted_merge_sort Z.le).
    + rewrite merge_sort_Permutation. apply Hn, NoDup_nil_2.
    + rewrite merge_sort_Permutation. apply Forall_forall. intros x (t & Ht & Hx)%Hsel. eauto.
    + intros x. by rewrite merge_sort_Permutation.
Qed.

Lemma expand_fields_fields fields : forall ranges vs,
  length fields = length ranges -> expand_fields fields ranges = Ok vs -> Forall2 field_of vs (zip fields ranges).
Proof.
  induction fields as [|f fs IH]; intros [|[lo hi] rs] vs Hl; cbn [expand_fields zip zip_with]; try done; [by intros [= <-]|].
  rewrite result_bind_ok. setoid_rewrite result_bind_ok. intros (v & Hv & vs' & Hvs & [= <-]).
  constructor; [by apply expandPart_field|]. apply IH; [by injection Hl|done].
Qed.

(** ** Lemmas on the probe *)

Lemma probe_from_some fuel : forall probe parsed t,
  probe_from fuel probe parsed = Some t <->
  exists k, (k < fuel)%nat /\ t = probe + Z.of_nat k * MINUTE /\ matches t parsed = true /\
    forall j, (j < k)%nat -> matches (probe + Z.of_nat j * MINUTE) parsed = false.
Proof.
  induction fuel as [|fuel IH]; intros probe parsed t; simpl.
  { split; [done|]. intros (k & ? & _). lia. }
  destruct (matches probe parsed) eqn:Hm.
  - split.
    + intros [= <-]. exists 0%nat. split_and!; [lia|lia|done|]. intros j. lia.
    + intros ([|k] & _ & -> & _ & Hj); [f_equal; lia|]. specialize (Hj 0%nat ltac:(lia)).
      rewrite Z.add_0_r in Hj. congruence.
  - rewrite IH. split.
    + intros (k & ? & -> & ? & Hj). exists (S k). split_and!; [lia|lia|done|].
      intros [|j] ?; [by rewrite Z.add_0_r|]. rewrite <- (Hj j) by lia. f_equal. lia.
    + intros ([|k] & ? & -> & Ht & Hj); [rewrite Z.add_0_r in Ht; congruence|].
      exists k. split_and!; [lia|lia|done|]. intros j ?. rewrite <- (Hj (S j)) by lia. f_equal. lia.
Qed.

Lemma floor_minute_bounds ms : floor_minute ms <= ms < floor_minute ms + MINUTE.
Proof. unfold floor_minute, MINUTE. pose proof (Z.div_mod ms 60000). pose proof (Z.mod_pos_bound ms 60000). lia. Qed.

(** The minutes probed are exactly the whole minutes of the year after the start. *)
Lemma probe_index from t :
  t mod MINUTE = 0 -> from < t -> exists k, t = floor_minute from + MINUTE + Z.of_nat k * MINUTE.
Proof.
  intros Hm Hlt. pose proof (floor_minute_bounds from) as Hf. unfold floor_minute, MINUTE in *.
  exists (Z.to_nat (t / 60000 - from / 60000 - 1)). pose proof (Z.div_mod t 60000). lia.
Qed.

Lemma nextRunAt_ok expr from t :
  nextRunAt expr from = Ok t <->
  exists parsed, parse expr = Ok parsed /\ probe_from PROBES (floor_minute from + MINUTE) parsed = Some t.
Proof.
  unfold nextRunAt. rewrite result_bind_ok. split; intros (p & Hp & Hr); exists p; (split; [done|]).
  - case_match; [congruence | done].
  - by rewrite Hr.
Qed.

(** A next run is a whole minute strictly after the start. *)
Lemma nextRunAt_after expr from t : nextRunAt expr from = Ok t -> from < t /\ t mod MINUTE = 0.
Proof.
  intros (p & _ & (k & _ & -> & _)%probe_from_some)%nextRunAt_ok. pose proof (floor_minute_bounds from).
  unfold floor_minute, MINUTE in *. split; [lia|].
  replace (from / 60000 * 60000 + 60000 + Z.of_nat k * 60000) with ((from / 60000 + 1 + Z.of_nat k) * 60000) by lia.
  apply Z.mod_mul. lia.
Qed.

(** ** Properties *)

(** C39: the next run is the first matching minute.  For a valid expression,
    [nextRunAt] gives [t] exactly when [t] is a whole minute after the start,
    within the 366 days probed, that matches, and no whole minute between the
    start and [t] does. *)
Theorem nextRunAt_first_match (expr : string) (from t : Z) (parsed : list (list Z)) :
  parse expr = Ok parsed ->
  nextRunAt expr from = Ok t <->
  from < t /\ t mod MINUTE = 0 /\ t <= floor_minute from + Z.of_nat PROBES * MINUTE /\ matches t parsed = true /\
  forall t', from < t' < t -> t' mod MINUTE = 0 -> matches t' parsed = false.
Proof.
  intros Hp. split.
  - intros Hn. destruct (nextRunAt_after _ _ _ Hn) as [Hlt Hmod]. apply nextRunAt_ok in Hn as (p & Hp' & Hpr).
    rewrite Hp in Hp'. injection Hp' as <-. apply probe_from_some in Hpr as (k & Hk & Ht & Hm & Hj).
    split_and!; [done|done|unfold MINUTE in *; lia|done|]. intros t' [Hl Hu] Hmod'.
    destruct (probe_index from t' Hmod' Hl) as [j Hjt]. rewrite Hjt. apply Hj. unfold MINUTE in *. lia.
  - intros (Hlt & Hmod & Hmax & Hm & Hno). apply nextRunAt_ok. exists parsed. split; [done|].
    destruct (probe_index from t Hmod Hlt) as [k Hk]. apply probe_from_some. exists k. split_and!; [|done|done|].
    + unfold MINUTE in *. lia.
    + intros j Hj. apply Hno.
      * pose proof (floor_minute_bounds from). unfold MINUTE in *. lia.
      * unfold floor_minute, MINUTE.
        replace (from / 60000 * 60000 + 60000 + Z.of_nat j * 60000) with ((from / 60000 + 1 + Z.of_nat j) * 60000) by lia.
        apply Z.mod_mul. lia.
Qed.

Lemma nextRunAt_first_match_witness :
  nextRunAt "*/15 * * * *" REFERENCE_DATE = Ok 1767226500000 /\
  forall t', REFERENCE_DATE < t' < 1767226500000 -> t' mod MINUTE = 0 ->
    matches t' (match parse "*/15 * * * *" with Ok p => p | Err _ => [] end) = false.
Proof.
  assert (H : nextRunAt "*/15 * * * *" REFERENCE_DATE = Ok 1767226500000) by (vm_compute; reflexivity).
  assert (Hp : parse "*/15 * * * *" = Ok (match parse "*/15 * * * *" with Ok p => p | Err _ => [] end)) by (vm_compute; reflexivity).
  split; [exact H|].
  exact (proj2 (proj2 (proj2 (proj2 (proj1 (nextRunAt_first_match _ _ _ _ Hp) H))))).
Defined.

(** What an accepted expression means.  It has five fields; each is parsed
    into the sorted list, without duplicates, of exactly the values its part
    selects - those of every token's range, from its start by its step - and all
    of them lie in the range of the field. *)
Theorem parse_meaning (expr : string) (parsed : list (list Z)) :
  parse expr = Ok parsed -> Forall2 field_of parsed (zip (split_ws (trim expr)) FIELD_RANGES).
Proof.
  unfold parse. destruct (length _ =? 6)%nat; [done|]. destruct (length _ =? 5)%nat eqn:Hl; cbn [negb]; [|done].
  apply expand_fields_fields. by apply Nat.eqb_eq in Hl.
Qed.

Lemma parse_meaning_witness :
  Forall2 field_of [[0; 15; 30; 45]; [9]; seqZ 1 31; [1; 2; 3; 6]; [1; 2; 3; 4; 5]]
    (zip ["*/15"; "9"; "*"; "1-3,6"; "1-5"] FIELD_RANGES).
Proof. apply (parse_meaning " */15  9 * 1-3,6 1-5 "). vm_compute. reflexivity. Defined.

(** Sunday written as 7 never comes.  The weekday range admits 7, so an
    expression whose only weekday is 7 is reported valid, but the weekday of a
    date is 0 to 6: it has no next run, from any date. *)
Theorem weekday_7_never_runs (expr : string) (minutes hours days months : list Z) :
  parse expr = Ok [minutes; hours; days; months; [7]] ->
  validateCronExpression expr = (true, None) /\ forall from, exists e, nextRunAt expr from = Err e.
Proof.
  intros Hp. unfold validateCronExpression. split; [by rewrite Hp|]. intros from.
  destruct (nextRunAt expr from) as [t|e] eqn:Hn; [exfalso|by eexists].
  apply nextRunAt_ok in Hn as (p & Hp' & (k & _ & _ & Hm & _)%probe_from_some).
  rewrite Hp in Hp'. injection Hp' as <-. unfold matches in Hm. rewrite !andb_true_iff in Hm.
  destruct Hm as [_ Hm]. simpl in Hm. unfold getUTCDay in Hm.
  pose proof (Z.mod_pos_bound (t / 86400000 + 4) 7). lia.
Qed.

Lemma weekday_7_never_runs_witness :
  validateCronExpression "0 0 * * 7" = (true, None) /\ exists e, nextRunAt "0 0 * * 7" 0 = Err e.
Proof.
  assert (Hp : parse "0 0 * * 7" = Ok [[0]; [0]; seqZ 1 31; seqZ 1 12; [7]]) by (vm_compute; reflexivity).
  exact (conj (proj1 (weekday_7_never_runs _ _ _ _ _ Hp)) (proj2 (weekday_7_never_runs _ _ _ _ _ Hp) 0)).
Defined.

(** The floor is not a lower bound.  Only the first two intervals after the
    reference date are measured: an expression passes a floor of two hours while
    two of its runs are one hour apart. *)
Theorem floor_not_lower_bound :
  exists expr floorSeconds from t,
    assertAboveFloor expr (NInt floorSeconds) = Ok true /\
    nextRunAt expr REFERENCE_DATE = Ok 1767243600000 /\
    nextRunAt expr from = Ok t /\ nextRunAt expr (from - MINUTE) = Ok from /\
    t - from < floorSeconds * 1000.
Proof.
  exists "0 0,5,10,15,16 * * *", 7200, (REFERENCE_DATE + 15 * 3600000), (REFERENCE_DATE + 16 * 3600000).
  split_and!; vm_compute; reflexivity.
Qed.
