(* ===== verification/Scheduling.v ===== *)
(** * The scheduling engine

    scheduling-engine's job, execution, configuration and quota models
    ([src/job-model.mjs], [execution-model.mjs], [config-model.mjs], [quota.mjs],
    [audit.mjs]) and its three actions ([actions/scheduling-management.mjs],
    [-job-runner], [-trigger]) over the tables of its migration 001.

    Instants are epoch milliseconds; NOW() of the database reads the same clock.
    The [Scheduler] class holds what the deployment supplies: the environment,
    whether an audit sink, a runner and a target validator are configured, the
    result of the [n]-th action invocation, and whether the PostgreSQL driver
    gives timestamps as strings or as [Date] objects. *)
From S2P Require Import Prelude JsValue Platform Cron.
From stdpp Require Import sorting.
From Stdlib Require Import Ascii.
Local Open Scope Z_scope.

(** ** Tables *)

Record job := mk_job {
  jb_id : string;
  jb_tenant : string;
  jb_workspace : string;
  jb_name : string;
  jb_cron : string;
  jb_target : string;
  jb_payload : jsval;
  jb_status : string;
  jb_failures : Z;
  jb_max_failures : Z;
  jb_next_run_at : option Z;
  jb_last_triggered_at : option Z;
  jb_created_by : string;
  jb_created_at : Z;
  jb_updated_at : Z;
  jb_deleted_at : option Z
}.

Record execution := mk_execution {
  ex_id : string;
  ex_job_id : string;
  ex_tenant : string;
  ex_workspace : string;
  ex_status : string;
  ex_scheduled_at : Z;
  ex_started_at : option Z;
  ex_finished_at : option Z;
  ex_duration_ms : option Z;
  ex_error_summary : option string;
  ex_correlation_id : option string
}.

Record sched_config := mk_sched_config {
  cf_tenant : string;
  cf_workspace : option string;
  cf_enabled : bool;
  cf_max_active : jsnum;
  cf_min_interval : jsnum;
  cf_max_failures : jsnum
}.

Record sched_db := mk_sched_db {
  configs : list sched_config;
  jobs : gmap string job;
  executions : list execution
}.

Inductive sched_event :=
| Audit (action tenant workspace actor resource : string)
| RunnerInvoked (job_id execution_id : string) (scheduled_at : option Z)
| ActionInvoked (target : string).

(** What an action invocation reports. *)
Record invocation := mk_invocation {
  iv_timeout : bool;
  iv_timeoutMs : option Z;
  iv_ok : option bool;
  iv_error : option string
}.

Class Scheduler := {
  sched_env : string -> option string;
  audit_configured : bool;
  runner_configured : bool;
  target_validator : option (option string -> string -> bool);
  invoke_result : nat -> result js_error invocation;
  timestamps_as_strings : bool
}.

Notation xact := (M (world sched_db sched_event) js_error).

Definition set_jobs (js : gmap string job) (db : sched_db) : sched_db := mk_sched_db (configs db) js (executions db).
Definition set_executions (xs : list execution) (db : sched_db) : sched_db := mk_sched_db (configs db) (jobs db) xs.

(** ** The job model ([job-model.mjs]) *)

Definition VALID_TRANSITIONS : list (string * list string) :=
  [("active", ["paused"; "errored"; "deleted"]); ("paused", ["active"; "deleted"]);
   ("errored", ["deleted"]); ("deleted", [])].

Definition canTransition (currentStatus targetStatus : string) : bool :=
  match assoc_lookup currentStatus VALID_TRANSITIONS with
  | Some targets => str_in targetStatus targets
  | None => false
  end.

Definition with_status_of (j : job) (st : string) (deleted : option Z) (now : Z) : job :=
  mk_job (jb_id j) (jb_tenant j) (jb_workspace j) (jb_name j) (jb_cron j) (jb_target j) (jb_payload j) st
    (jb_failures j) (jb_max_failures j) (jb_next_run_at j) (jb_last_triggered_at j) (jb_created_by j)
    (jb_created_at j) now deleted.

Definition applyTransition (now : Z) (j : job) (targetStatus : string) : result js_error job :=
  if negb (canTransition (jb_status j) targetStatus)
  then Err (plain_error ("Invalid job status transition from " +:+ jb_status j +:+ " to " +:+ targetStatus +:+ "."))
  else Ok (with_status_of j targetStatus (if String.eqb targetStatus "deleted" then Some now else jb_deleted_at j) now).

Definition with_failures (j : job) (n : Z) (st : string) (now : Z) : job :=
  mk_job (jb_id j) (jb_tenant j) (jb_workspace j) (jb_name j) (jb_cron j) (jb_target j) (jb_payload j) st
    n (jb_max_failures j) (jb_next_run_at j) (jb_last_triggered_at j) (jb_created_by j)
    (jb_created_at j) now (jb_deleted_at j).

Definition incrementFailureCount (now : Z) (j : job) : job :=
  let n := jb_failures j + 1 in
  with_failures j n (if jb_max_failures j <=? n then "errored" else jb_status j) now.

Definition resetFailureCount (now : Z) (j : job) : job := with_failures j 0 (jb_status j) now.

Definition applyNextRunAt (now fromDate : Z) (j : job) (expr : string) : result js_error job :=
  nextRunAt expr fromDate ≫= fun next =>
  Ok (mk_job (jb_id j) (jb_tenant j) (jb_workspace j) (jb_name j) expr (jb_target j) (jb_payload j) (jb_status j)
        (jb_failures j) (jb_max_failures j) (Some next) (jb_last_triggered_at j) (jb_created_by j)
        (jb_created_at j) now (jb_deleted_at j)).

(** The body of a request: absent and null members are [None]. *)
Record job_body := mk_job_body {
  bd_id : option string;
  bd_name : option string;
  bd_cron : option string;
  bd_target : option string;
  bd_payload : jsval;
  bd_status : option string;
  bd_failures : option Z;
  bd_max_failures : option Z;
  bd_next_run_at : option Z;
  bd_created_at : option Z;
  bd_updated_at : option Z;
  bd_schedulingEnabled : option bool;
  bd_maxActiveJobs : option jsnum;
  bd_minIntervalSeconds : option jsnum;
  bd_maxConsecutiveFailures : option jsnum
}.

Record identity := mk_identity {
  id_tenant : string;
  id_workspace : string;
  id_actor : string;
  id_roles : list string
}.

(** [cronExpression] is a string here: the callers have validated it. *)
Definition buildJobRecord (uuid : string) (now : Z) (b : job_body) (cron : string) (i : identity) : result js_error job :=
  (match bd_next_run_at b with Some t => Ok t | None => nextRunAt cron now end) ≫= fun next =>
  Ok (mk_job (default uuid (bd_id b)) (id_tenant i) (id_workspace i) (default "" (bd_name b)) cron
        (default "" (bd_target b)) (coalesce (bd_payload b) (JObj [])) (default "active" (bd_status b))
        (default 0 (bd_failures b)) (default 5 (bd_max_failures b)) (Some next) None (id_actor i)
        (default now (bd_created_at b)) (default now (bd_updated_at b)) None).

(** ** The execution model ([execution-model.mjs]) *)

Definition buildMissedExecutionRecord (uuid correlation : string) (j : job) (scheduledAt : Z) : execution :=
  mk_execution uuid (jb_id j) (jb_tenant j) (jb_workspace j) "missed" scheduledAt None None None None (Some correlation).

Definition resolveOutcome (startedAt finishedAt : Z) (r : invocation) : string :=
  if iv_timeout r || (match iv_timeoutMs r with Some ms => ms <? finishedAt - startedAt | None => false end) then "timed_out"
  else if bool_decide (iv_ok r = Some false) || truthy_str (iv_error r) then "failed"
  else "succeeded".

Definition finalizeExecution (finishedAt : Z) (x : execution) (outcome : string) (errorSummary : option string) : execution :=
  let startedAt := default finishedAt (ex_started_at x) in
  mk_execution (ex_id x) (ex_job_id x) (ex_tenant x) (ex_workspace x) outcome (ex_scheduled_at x) (ex_started_at x)
    (Some finishedAt) (Some (Z.max 0 (finishedAt - startedAt))) errorSummary (ex_correlation_id x).

(** ** Quotas ([quota.mjs]) *)

Definition quota_message (limit : jsnum) : string :=
  "Workspace has reached the maximum number of active scheduled jobs (" +:+ show_num limit +:+ ").".

(** [None] when another job may become active, else the reason. *)
Definition checkJobCreationQuota (currentActiveCount : Z) (maxActiveJobs : jsnum) : option string :=
  if num_ltb (NInt currentActiveCount) maxActiveJobs then None else Some (quota_message maxActiveJobs).
Definition checkResumeQuota (currentActiveCount : Z) (maxActiveJobs : jsnum) : option string :=
  checkJobCreationQuota currentActiveCount maxActiveJobs.
Definition assertCronFloor (expr : string) (minIntervalSeconds : jsnum) : result js_error bool :=
  assertAboveFloor expr minIntervalSeconds.

Definition in_workspace (tenant workspace : string) (j : job) : bool :=
  String.eqb (jb_tenant j) tenant && String.eqb (jb_workspace j) workspace.
Definition is_live (j : job) : bool := match jb_deleted_at j with None => true | Some _ => false end.
Definition is_active_in (tenant workspace : string) (j : job) : bool :=
  in_workspace tenant workspace j && String.eqb (jb_status j) "active" && is_live j.

Definition all_jobs (db : sched_db) : list job := snd <$> map_to_list (jobs db).
Definition active_count (tenant workspace : string) (db : sched_db) : Z :=
  Z.of_nat (length (List.filter (is_active_in tenant workspace) (all_jobs db))).

Section scheduling.
Context `{!Platform, !Scheduler}.

Definition env_number (name : string) (fallback : Z) : jsnum :=
  match sched_env name with Some v => to_number v | None => NInt fallback end.

(** [readDefaultLimits] *)
Definition default_config (tenant workspace : string) : sched_config :=
  mk_sched_config tenant (Some workspace)
    (String.eqb (default "false" (sched_env "SCHEDULING_ENABLED_BY_DEFAULT")) "true")
    (env_number "SCHEDULING_DEFAULT_MAX_ACTIVE_JOBS" 10)
    (env_number "SCHEDULING_DEFAULT_MIN_INTERVAL_SECONDS" 60)
    (env_number "SCHEDULING_DEFAULT_MAX_CONSECUTIVE_FAILURES" 5).

(** ** Configuration ([config-model.mjs]) *)

Definition config_row (tenant : string) (workspace : option string) (db : sched_db) : option sched_config :=
  List.find (fun c => String.eqb (cf_tenant c) tenant && bool_decide (cf_workspace c = workspace)) (configs db).

(** The workspace's row, else the tenant's, else the defaults. *)
Definition effective_config (tenant workspace : string) (db : sched_db) : sched_config :=
  match config_row tenant (Some workspace) db with
  | Some c => c
  | None => match config_row tenant None db with
            | Some c => c
            | None => default_config tenant workspace
            end
  end.

Definition getConfig (tenant workspace : string) : xact sched_config := query_db (effective_config tenant workspace).

Definition isSchedulingEnabled (c : sched_config) : bool := cf_enabled c.

Definition upsert_row (c : sched_config) (db : sched_db) : result js_error (sched_config * sched_db) :=
  if num_is_integer (cf_max_active c) && num_is_integer (cf_min_interval c) && num_is_integer (cf_max_failures c) then
    let same r := String.eqb (cf_tenant r) (cf_tenant c) && bool_decide (cf_workspace r = cf_workspace c) in
    Ok (c, mk_sched_db (if existsb same (configs db) then (fun r => if same r then c else r) <$> configs db
                        else configs db ++ [c]) (jobs db) (executions db))
  else Err (coded "22P02" "invalid input syntax for type integer").

Definition upsertConfig (tenant workspace : string) (b : job_body) : xact sched_config :=
  getConfig tenant workspace ≫= fun current =>
  exec_db_err (upsert_row (mk_sched_config tenant (Some workspace)
    (default (cf_enabled current) (bd_schedulingEnabled b))
    (default (cf_max_active current) (bd_maxActiveJobs b))
    (default (cf_min_interval current) (bd_minIntervalSeconds b))
    (default (cf_max_failures current) (bd_maxConsecutiveFailures b)))).

Definition getActiveJobCount (tenant workspace : string) : xact Z := query_db (active_count tenant workspace).

Definition getActiveJobsToSuspend (tenant workspace : string) : xact (list string) :=
  query_db (fun db => jb_id <$> List.filter (is_active_in tenant workspace) (all_jobs db)).

Definition clock_now : xact Z := now_ms ≫= fun n => mret (Z.of_N n).

Definition publish_audit (e : sched_event) : xact unit := if audit_configured then publish e else mret tt.

(** ** Management ([actions/scheduling-management.mjs]) *)

Record sched_request := mk_sched_request {
  rq_tenant : option string;
  rq_workspace : option string;
  rq_subject : option string;
  rq_roles : option string;
  rq_method : option string;
  rq_path : option string;
  rq_body : option job_body;
  rq_status : option string;
  rq_limit : option string
}.

Definition ok_response (st : Z) (body : jsval) : response := mk_response st [] body.
Definition errorResponse (st : Z) (code message : string) : response :=
  ok_response st (JObj [("code", JStr code); ("message", JStr message); ("details", JObj [])]).

(** The comma-separated form of the roles header. *)
Definition parseRoles (v : option string) : list string :=
  match v with
  | Some s => List.filter nonempty (trim <$> split_on "," s)
  | None => []
  end.

Definition parseIdentity (r : sched_request) : option identity :=
  if negb (truthy_str (rq_tenant r)) || negb (truthy_str (rq_workspace r)) then None
  else Some (mk_identity (default "" (rq_tenant r)) (default "" (rq_workspace r))
               (default "system" (rq_subject r)) (parseRoles (rq_roles r))).

Definition instant (t : option Z) : jsval := match t with Some t => jint t | None => JNull end.

Definition mapJob (j : job) : jsval :=
  JObj [("jobId", JStr (jb_id j)); ("name", JStr (jb_name j)); ("cronExpression", JStr (jb_cron j));
        ("targetAction", JStr (jb_target j)); ("payload", jb_payload j); ("status", JStr (jb_status j));
        ("nextRunAt", instant (jb_next_run_at j)); ("lastTriggeredAt", instant (jb_last_triggered_at j));
        ("consecutiveFailureCount", jint (jb_failures j)); ("createdAt", jint (jb_created_at j));
        ("updatedAt", jint (jb_updated_at j))].

Definition mapConfig (c : sched_config) : jsval :=
  JObj [("schedulingEnabled", JBool (cf_enabled c)); ("maxActiveJobs", JNum (cf_max_active c));
        ("minIntervalSeconds", JNum (cf_min_interval c)); ("maxConsecutiveFailures", JNum (cf_max_failures c))].

(** [path.replace(/^\/v1\/scheduling/, '').split('/').filter(Boolean)] *)
Definition path_segments (path : string) : list string :=
  let p := if starts_with "/v1/scheduling" path then of_chars (drop 14 (chars path)) else path in
  List.filter nonempty (split_on "/" p).

Definition requireTargetAction (target : option string) (workspace : string) : result js_error unit :=
  match target_validator with
  | Some valid => throw_if (negb (valid target workspace))
                    (mk_error (Some "INVALID_TARGET_ACTION") "Target action is invalid." None (Some 400))
  | None => Ok tt
  end.

(** [SELECT * FROM scheduled_jobs WHERE id, tenant_id, workspace_id AND deleted_at IS NULL] *)
Definition live_job (id : string) (i : identity) (db : sched_db) : option job :=
  match jobs db !! id with
  | Some j => if in_workspace (id_tenant i) (id_workspace i) j && is_live j then Some j else None
  | None => None
  end.

(** [UPDATE scheduled_jobs SET ... WHERE id = $1 RETURNING *] *)
Definition update_job (id : string) (f : job -> job) (db : sched_db) : option job * sched_db :=
  match jobs db !! id with
  | Some j => (Some (f j), set_jobs (<[id := f j]> (jobs db)) db)
  | None => (None, db)
  end.

Definition not_found_job : response := errorResponse 404 "NOT_FOUND" "Job not found.".
Definition row_missing : js_error := plain_error "Cannot read properties of undefined".
(** [mapJob(rows[0])]: an absent row makes the mapping throw. *)
Definition map_row (row : option job) : result js_error jsval :=
  match row with Some j => Ok (mapJob j) | None => Err row_missing end.

Definition config_get (i : identity) : xact response :=
  getConfig (id_tenant i) (id_workspace i) ≫= fun c => mret (ok_response 200 (mapConfig c)).

Definition suspend (ids : list string) (now : Z) (db : sched_db) : sched_db :=
  set_jobs ((fun j => if str_in (jb_id j) ids then with_status_of j "paused" (jb_deleted_at j) now else j) <$> jobs db) db.

Definition config_patch (i : identity) (b : option job_body) : xact response :=
  let empty := mk_job_body None None None None JUndef None None None None None None None None None None in
  let b := default empty b in
  upsertConfig (id_tenant i) (id_workspace i) b ≫= fun c =>
  (if bool_decide (bd_schedulingEnabled b = Some false) then
     getActiveJobsToSuspend (id_tenant i) (id_workspace i) ≫= fun ids =>
     match ids with
     | [] => mret tt
     | _ => clock_now ≫= fun now => exec_db (fun db => (tt, suspend ids now db))
     end
   else mret tt) ≫= fun _ =>
  publish_audit (Audit "capability.toggled" (id_tenant i) (id_workspace i) (id_actor i)
    (id_tenant i +:+ ":" +:+ id_workspace i)) ≫= fun _ =>
  mret (ok_response 200 (mapConfig c)).

Definition count_status (st : string) (i : identity) (db : sched_db) : Z :=
  Z.of_nat (length (List.filter (fun j => in_workspace (id_tenant i) (id_workspace i) j && String.eqb (jb_status j) st) (all_jobs db))).

Definition summary (i : identity) : xact response :=
  query_db (fun db => (count_status "active" i db, count_status "paused" i db, count_status "errored" i db, count_status "deleted" i db)) ≫= fun '(a, p, e, d) =>
  getConfig (id_tenant i) (id_workspace i) ≫= fun c =>
  mret (ok_response 200 (JObj [("activeJobs", jint a); ("pausedJobs", jint p); ("erroredJobs", jint e); ("deletedJobs", jint d);
    ("quotaLimit", JNum (cf_max_active c)); ("quotaUsed", jint a); ("schedulingEnabled", JBool (cf_enabled c))])).

(** [validateCronExpression(body.cronExpression)]: reading [trim] of undefined throws inside it. *)
Definition validate_cron (expr : option string) : bool * option string :=
  match expr with
  | Some e => validateCronExpression e
  | None => (false, Some "Cannot read properties of undefined (reading 'trim')")
  end.

Definition insert_job (b : job_body) (j : job) (db : sched_db) : result js_error (job * sched_db) :=
  match bd_name b, bd_target b, jobs db !! jb_id j with
  | None, _, _ | _, None, _ => Err (coded "23502" "null value violates not-null constraint")
  | _, _, Some _ => Err (coded "23505" "duplicate key value violates unique constraint")
  | _, _, None => Ok (j, set_jobs (<[jb_id j := j]> (jobs db)) db)
  end.

(** [randomUUID()] only when the body gives no id. *)
Definition id_or_fresh (b : job_body) : xact string :=
  match bd_id b with Some id => mret id | None => random_uuid end.

Definition create_job (i : identity) (body : option job_body) : xact response :=
  getConfig (id_tenant i) (id_workspace i) ≫= fun c =>
  if negb (isSchedulingEnabled c)
  then mret (errorResponse 403 "SCHEDULING_DISABLED" "Scheduling capability is disabled for this workspace.")
  else
  match body with
  | None => throw (plain_error "Cannot read properties of undefined (reading 'cronExpression')")
  | Some b =>
      let '(valid, message) := validate_cron (bd_cron b) in
      let cron := default "" (bd_cron b) in
      if negb valid then mret (errorResponse 400 "INVALID_CRON_EXPRESSION" (default "" message))
      else
      match assertCronFloor cron (cf_min_interval c) with
      | Err e => mret (errorResponse 422 "CRON_BELOW_FLOOR" (err_message e))
      | Ok _ =>
          lift (requireTargetAction (bd_target b) (id_workspace i)) ≫= fun _ =>
          getActiveJobCount (id_tenant i) (id_workspace i) ≫= fun activeCount =>
          match checkJobCreationQuota activeCount (cf_max_active c) with
          | Some reason =>
              publish_audit (Audit "quota.exceeded" (id_tenant i) (id_workspace i) (id_actor i) (id_workspace i)) ≫= fun _ =>
              mret (errorResponse 409 "QUOTA_EXCEEDED" reason)
          | None =>
              clock_now ≫= fun now =>
              id_or_fresh b ≫= fun id =>
              lift (buildJobRecord id now b cron i) ≫= fun record =>
              exec_db_err (insert_job b record) ≫= fun inserted =>
              publish_audit (Audit "job.created" (id_tenant i) (id_workspace i) (id_actor i) (jb_id record)) ≫= fun _ =>
              mret (ok_response 201 (mapJob inserted))
          end
      end
  end.

(** [LIMIT $n] for [Math.min(Number(limit ?? 100), 100)]. *)
Definition sql_limit (limit : option string) : result js_error nat :=
  match num_min (match limit with Some l => to_number l | None => NInt 100 end) (NInt 100) with
  | NInt n => if n <? 0 then Err (coded "2201W" "LIMIT must not be negative") else Ok (Z.to_nat n)
  | _ => Err (coded "22P02" "invalid input syntax for type bigint")
  end.

Definition id_asc (a b : job) : Prop := String.leb (jb_id a) (jb_id b) = true.
Definition scheduled_desc (a b : execution) : Prop := ex_scheduled_at b <= ex_scheduled_at a.
#[export] Instance id_asc_dec : RelDecision id_asc.
Proof. intros a b. unfold id_asc. apply _. Defined.
#[export] Instance scheduled_desc_dec : RelDecision scheduled_desc.
Proof. intros a b. unfold scheduled_desc. apply _. Defined.

Definition listed (items : list jsval) : response := ok_response 200 (JObj [("items", JArr items); ("nextCursor", JNull)]).

Definition list_jobs (i : identity) (statusFilter limit : option string) : xact response :=
  if truthy_str statusFilter && negb (str_in (default "" statusFilter) (fst <$> VALID_TRANSITIONS))
  then mret (errorResponse 400 "INVALID_STATUS" ("Invalid status value. Allowed values: " +:+ JsValue.join ", " (fst <$> VALID_TRANSITIONS) +:+ "."))
  else
    lift (sql_limit limit) ≫= fun n =>
    query_db (fun db => take n (merge_sort id_asc (List.filter (fun j =>
      in_workspace (id_tenant i) (id_workspace i) j && is_live j
      && (if truthy_str statusFilter then bool_decide (Some (jb_status j) = statusFilter) else true)) (all_jobs db)))) ≫= fun rows : list job =>
    mret (listed (mapJob <$> rows)).

Definition pause_job (i : identity) (id : string) : xact response :=
  query_db (live_job id i) ≫= fun found =>
  match found with
  | None => mret not_found_job
  | Some current =>
      if negb (String.eqb (jb_status current) "active") then mret (errorResponse 409 "JOB_NOT_ACTIVE" "Job is not active.")
      else
      clock_now ≫= fun now =>
      lift (applyTransition now current "paused") ≫= fun next =>
      exec_db (update_job (jb_id current) (fun j => with_status_of j (jb_status next) (jb_deleted_at j) (jb_updated_at next))) ≫= fun row =>
      publish_audit (Audit "job.paused" (id_tenant i) (id_workspace i) (id_actor i) (jb_id current)) ≫= fun _ =>
      lift (map_row row) ≫= fun body => mret (ok_response 200 body)
  end.

(** [UPDATE ... SET status, next_run_at, updated_at] *)
Definition resumed (next j : job) : job :=
  mk_job (jb_id j) (jb_tenant j) (jb_workspace j) (jb_name j) (jb_cron j) (jb_target j) (jb_payload j) (jb_status next)
    (jb_failures j) (jb_max_failures j) (jb_next_run_at next) (jb_last_triggered_at j) (jb_created_by j)
    (jb_created_at j) (jb_updated_at next) (jb_deleted_at j).

Definition resume_job (i : identity) (id : string) : xact response :=
  query_db (live_job id i) ≫= fun found =>
  match found with
  | None => mret not_found_job
  | Some current =>
      if negb (String.eqb (jb_status current) "paused") then mret (errorResponse 409 "JOB_NOT_PAUSED" "Job is not paused.")
      else
      getConfig (id_tenant i) (id_workspace i) ≫= fun c =>
      if negb (isSchedulingEnabled c)
      then mret (errorResponse 403 "SCHEDULING_DISABLED" "Scheduling capability is disabled for this workspace.")
      else
      getActiveJobCount (id_tenant i) (id_workspace i) ≫= fun activeCount =>
      match checkResumeQuota activeCount (cf_max_active c) with
      | Some reason => mret (errorResponse 409 "QUOTA_EXCEEDED" reason)
      | None =>
          clock_now ≫= fun now =>
          lift (applyTransition now current "active") ≫= fun active =>
          clock_now ≫= fun from => clock_now ≫= fun now' =>
          lift (applyNextRunAt now' from active (jb_cron active)) ≫= fun next =>
          exec_db (update_job (jb_id current) (resumed next)) ≫= fun row =>
          publish_audit (Audit "job.resumed" (id_tenant i) (id_workspace i) (id_actor i) (jb_id current)) ≫= fun _ =>
          lift (map_row row) ≫= fun body => mret (ok_response 200 body)
      end
  end.

Definition get_job (i : identity) (id : string) : xact response :=
  query_db (live_job id i) ≫= fun found =>
  match found with None => mret not_found_job | Some j => mret (ok_response 200 (mapJob j)) end.

Definition mapExecution (x : execution) : jsval :=
  JObj [("executionId", JStr (ex_id x)); ("status", JStr (ex_status x)); ("scheduledAt", jint (ex_scheduled_at x));
        ("startedAt", instant (ex_started_at x)); ("finishedAt", instant (ex_finished_at x));
        ("durationMs", instant (ex_duration_ms x)); ("errorSummary", jstr_opt (ex_error_summary x));
        ("correlationId", jstr_opt (ex_correlation_id x))].

Definition list_executions (i : identity) (id : string) (limit : option string) : xact response :=
  lift (sql_limit limit) ≫= fun n =>
  query_db (fun db => take n (merge_sort scheduled_desc (List.filter (fun x =>
    String.eqb (ex_job_id x) id && String.eqb (ex_tenant x) (id_tenant i) && String.eqb (ex_workspace x) (id_workspace i)) (executions db)))) ≫= fun rows : list execution =>
  mret (listed (mapExecution <$> rows)).

Definition patched (b : job_body) (next_run : option Z) (now : Z) (j : job) (current : job) : job :=
  mk_job (jb_id j) (jb_tenant j) (jb_workspace j) (default (jb_name current) (bd_name b)) (default (jb_cron current) (bd_cron b))
    (default (jb_target current) (bd_target b)) (coalesce (bd_payload b) (jb_payload current)) (jb_status j)
    (jb_failures j) (jb_max_failures j) next_run (jb_last_triggered_at j) (jb_created_by j)
    (jb_created_at j) now (jb_deleted_at j).

(** The checks of a changed cron expression: a refusal, or nothing. *)
Definition check_new_cron (i : identity) (b : job_body) : xact (option response) :=
  if truthy_str (bd_cron b) then
    let '(valid, message) := validate_cron (bd_cron b) in
    if negb valid then mret (Some (errorResponse 400 "INVALID_CRON_EXPRESSION" (default "" message)))
    else
      getConfig (id_tenant i) (id_workspace i) ≫= fun c =>
      match assertCronFloor (default "" (bd_cron b)) (cf_min_interval c) with
      | Err e => mret (Some (errorResponse 422 "CRON_BELOW_FLOOR" (err_message e)))
      | Ok _ => mret None
      end
  else mret None.

Definition patch_job (i : identity) (id : string) (body : option job_body) : xact response :=
  query_db (live_job id i) ≫= fun found =>
  match found, body with
  | None, _ => mret not_found_job
  | Some _, None => throw (plain_error "Cannot read properties of undefined (reading 'cronExpression')")
  | Some current, Some b =>
      check_new_cron i b ≫= fun refused =>
      match refused with
      | Some r => mret r
      | None =>
          (if truthy_str (bd_target b) then lift (requireTargetAction (bd_target b) (id_workspace i)) else mret tt) ≫= fun _ =>
          (if truthy_str (bd_cron b) then
             clock_now ≫= fun from => clock_now ≫= fun now => lift (applyNextRunAt now from current (default "" (bd_cron b)))
           else mret current) ≫= fun next =>
          clock_now ≫= fun now =>
          exec_db (update_job (jb_id current) (fun j => patched b (jb_next_run_at next) now j current)) ≫= fun row =>
          publish_audit (Audit "job.updated" (id_tenant i) (id_workspace i) (id_actor i) (jb_id current)) ≫= fun _ =>
          lift (map_row row) ≫= fun body => mret (ok_response 200 body)
      end
  end.

(** The statement names the workspace but not [deleted_at]. *)
Definition delete_row (id : string) (i : identity) (now : Z) (db : sched_db) : option job * sched_db :=
  match jobs db !! id with
  | Some j => if in_workspace (id_tenant i) (id_workspace i) j
              then update_job id (fun j => with_status_of j "deleted" (Some now) now) db else (None, db)
  | None => (None, db)
  end.

Definition delete_job (i : identity) (id : string) : xact response :=
  clock_now ≫= fun now =>
  exec_db (delete_row id i now) ≫= fun row =>
  match row with
  | None => mret not_found_job
  | Some _ =>
      publish_audit (Audit "job.deleted" (id_tenant i) (id_workspace i) (id_actor i) id) ≫= fun _ =>
      mret (ok_response 204 JNull)
  end.

(** The routes, in the order the handler tries them. *)
Definition route (i : identity) (method : string) (segments : list string) (r : sched_request) : xact response :=
  let method_is m := String.eqb method m in
  let fallback := mret (errorResponse 404 "NOT_FOUND" "Route not found.") in
  match segments with
  | "config" :: _ => if method_is "GET" then config_get i else if method_is "PATCH" then config_patch i (rq_body r) else fallback
  | "summary" :: _ => if method_is "GET" then summary i else fallback
  | ["jobs"] => if method_is "POST" then create_job i (rq_body r)
                else if method_is "GET" then list_jobs i (rq_status r) (rq_limit r) else fallback
  | ["jobs"; id] => if method_is "GET" then get_job i id
                    else if method_is "PATCH" then patch_job i id (rq_body r)
                    else if method_is "DELETE" then delete_job i id else fallback
  | "jobs" :: id :: "pause" :: _ => if method_is "POST" then pause_job i id else fallback
  | "jobs" :: id :: "resume" :: _ => if method_is "POST" then resume_job i id else fallback
  | "jobs" :: id :: "executions" :: _ => if method_is "GET" then list_executions i id (rq_limit r) else fallback
  | _ => fallback
  end.

Definition management_main (r : sched_request) : xact response :=
  match parseIdentity r with
  | None => mret (errorResponse 401 "UNAUTHENTICATED" "Valid gateway-derived identity headers (X-Tenant-Id, X-Workspace-Id) are required.")
  | Some i =>
      try_catch (route i (default "GET" (rq_method r)) (path_segments (default "/v1/scheduling/jobs" (rq_path r))) r)
        (fun e => mret (errorResponse (default 500 (err_status e)) (default "INTERNAL_ERROR" (err_code e)) (err_message e)))
  end.

(** ** The runner ([actions/scheduling-job-runner.mjs]) *)

Definition call_action (target : string) : xact invocation := fun w =>
  (invoke_result (length (w_events w)),
   mk_world (w_db w) (w_tick w) (w_uuids w) (w_published w) (w_events w ++ [ActionInvoked target])).

Definition with_started (now : Z) (x : execution) : execution :=
  mk_execution (ex_id x) (ex_job_id x) (ex_tenant x) (ex_workspace x) (ex_status x) (ex_scheduled_at x) (Some now)
    (ex_finished_at x) (ex_duration_ms x) (ex_error_summary x) (ex_correlation_id x).

(** [UPDATE scheduled_executions SET started_at WHERE id AND started_at IS NULL RETURNING *] *)
Definition claim_execution (id : string) (now : Z) (db : sched_db) : option execution * sched_db :=
  let open_ x := String.eqb (ex_id x) id && negb (bool_decide (is_Some (ex_started_at x))) in
  (with_started now <$> List.find open_ (executions db),
   set_executions ((fun x => if open_ x then with_started now x else x) <$> executions db) db).

Definition write_final (final : execution) (x : execution) : execution :=
  mk_execution (ex_id x) (ex_job_id x) (ex_tenant x) (ex_workspace x) (ex_status final) (ex_scheduled_at x) (ex_started_at x)
    (ex_finished_at final) (ex_duration_ms final) (ex_error_summary final) (ex_correlation_id x).

Definition outcome_body (outcome : string) : response := ok_response 200 (JObj [("outcome", JStr outcome)]).

(** The bookkeeping of the job after an outcome: [j] is the row read at the start. *)
Definition settle_job (j : job) (executionId outcome : string) : xact response :=
  let audit action resource := publish_audit (Audit action (jb_tenant j) (jb_workspace j) "system" resource) in
  clock_now ≫= fun now =>
  if String.eqb outcome "succeeded" then
    exec_db (update_job (jb_id j) (fun row => with_failures row 0 (jb_status row) now)) ≫= fun _ =>
    audit "execution.succeeded" executionId ≫= fun _ => mret (outcome_body outcome)
  else
    let nextJob := incrementFailureCount now j in
    exec_db (update_job (jb_id j) (fun row => with_failures row (jb_failures nextJob) (jb_status nextJob) now)) ≫= fun _ =>
    audit (if String.eqb outcome "timed_out" then "execution.timed_out" else "execution.failed") executionId ≫= fun _ =>
    (if String.eqb (jb_status nextJob) "errored" then audit "job.errored" (jb_id j) else mret tt) ≫= fun _ =>
    mret (outcome_body outcome).

Definition runner_main (jobId executionId : string) : xact response :=
  query_db (fun db => jobs db !! jobId) ≫= fun found =>
  match found with
  | Some j =>
      if negb (String.eqb (jb_status j) "active") || negb (is_live j)
      then mret (ok_response 200 (JObj [("skipped", JBool true)]))
      else
      clock_now ≫= fun startedAt =>
      exec_db (claim_execution executionId startedAt) ≫= fun claimed =>
      match claimed with
      | None => mret (ok_response 200 (JObj [("skipped", JBool true); ("reason", JStr "already_claimed")]))
      | Some started =>
          try_catch (call_action (jb_target j) ≫= fun r => mret (r, None : option string))
            (fun e => mret (mk_invocation false None (Some false) (Some (err_message e)), Some (err_message e))) ≫= fun '(r, thrown) =>
          clock_now ≫= fun finished =>
          let outcome := resolveOutcome startedAt finished r in
          clock_now ≫= fun finishedAt =>
          let final := finalizeExecution finishedAt started outcome (match thrown with Some e => Some e | None => iv_error r end) in
          exec_db (fun db => (tt, set_executions
            ((fun x => if String.eqb (ex_id x) executionId then write_final final x else x) <$> executions db) db)) ≫= fun _ =>
          settle_job j executionId outcome
      end
  | None => mret (ok_response 200 (JObj [("skipped", JBool true)]))
  end.

(** ** The trigger ([actions/scheduling-trigger.mjs]) *)

Definition is_due (now : Z) (j : job) : bool :=
  String.eqb (jb_status j) "active" && is_live j && match jb_next_run_at j with Some t => t <=? now | None => false end.

Definition next_asc (a b : job) : Prop := default 0 (jb_next_run_at a) <= default 0 (jb_next_run_at b).
#[export] Instance next_asc_dec : RelDecision next_asc.
Proof. intros a b. unfold next_asc. apply _. Defined.

(** [candidate === job.next_run_at]: never true when the driver gives [Date] objects. *)
Definition same_instant (candidate : Z) (t : option Z) : bool :=
  timestamps_as_strings && bool_decide (t = Some candidate).

(** The windows missed since the last trigger, at most [cap] of them.  Each round
    moves the probe to a later whole minute before [now], so the number of minutes
    between them bounds the rounds. *)
Fixpoint missed_windows (fuel : nat) (j : job) (cap : jsnum) (now probe : Z) (missed : list Z) : result js_error (list Z) :=
  match fuel with
  | O => Ok missed
  | S fuel' =>
      if num_ltb (NInt (Z.of_nat (length missed))) cap then
        nextRunAt (jb_cron j) probe ≫= fun candidate =>
        if (now <=? candidate) || same_instant candidate (jb_next_run_at j) then Ok missed
        else missed_windows fuel' j cap now candidate (missed ++ [candidate])
      else Ok missed
  end.

(** Each round but the last moves the probe by at least a minute towards [now]. *)
Definition missed_fuel (now last : Z) : nat := S (S (Z.to_nat ((now - last) / MINUTE))).

Definition duplicate_key : js_error := coded "23505" "duplicate key value violates unique constraint".

(** [INSERT ... ON CONFLICT (job_id, scheduled_at) DO NOTHING]: whether the row went
    in; the primary key is not among what the clause forgives. *)
Definition insert_execution (x : execution) (db : sched_db) : result js_error (bool * sched_db) :=
  if existsb (fun y => String.eqb (ex_job_id y) (ex_job_id x) && (ex_scheduled_at y =? ex_scheduled_at x)) (executions db)
  then Ok (false, db)
  else if existsb (fun y => String.eqb (ex_id y) (ex_id x)) (executions db) then Err duplicate_key
  else Ok (true, set_executions (executions db ++ [x]) db).

Definition record_missed (j : job) (scheduledAt : Z) : xact unit :=
  random_uuid ≫= fun correlation => random_uuid ≫= fun id => clock_now ≫= fun _ =>
  exec_db_err (insert_execution (buildMissedExecutionRecord id correlation j scheduledAt)) ≫= fun _ =>
  publish_audit (Audit "execution.missed" (jb_tenant j) (jb_workspace j) "system" (jb_id j)).

Definition after_trigger (j : job) (next now : Z) (row : job) : job :=
  mk_job (jb_id row) (jb_tenant row) (jb_workspace row) (jb_name row) (jb_cron row) (jb_target row) (jb_payload row)
    (jb_status row) (jb_failures row) (jb_max_failures row) (Some next) (jb_next_run_at j) (jb_created_by row)
    (jb_created_at row) now (jb_deleted_at row).

(** One due job; the result is the number triggered so far. *)
Definition trigger_job (cap : jsnum) (now : Z) (correlation : option string) (triggered : Z) (j : job) : xact Z :=
  (match jb_last_triggered_at j with
   | Some last => lift (missed_windows (missed_fuel now last) j cap now last []) ≫= fun missed => for_each (record_missed j) missed
   | None => mret tt
   end) ≫= fun _ =>
  let due := default 0 (jb_next_run_at j) in
  random_uuid ≫= fun id =>
  exec_db_err (insert_execution (mk_execution id (jb_id j) (jb_tenant j) (jb_workspace j) "running" due None None None None correlation)) ≫= fun inserted : bool =>
  if negb inserted then mret triggered
  else
    (if runner_configured then publish (RunnerInvoked (jb_id j) id (jb_next_run_at j)) else mret tt) ≫= fun _ =>
    lift (nextRunAt (jb_cron j) due) ≫= fun next =>
    clock_now ≫= fun db_now =>
    exec_db (update_job (jb_id j) (after_trigger j next db_now)) ≫= fun _ =>
    mret (triggered + 1).

Definition trigger_main (now_param : option Z) (correlation : option string) : xact response :=
  if String.eqb (default "true" (sched_env "SCHEDULING_ENGINE_ENABLED")) "false"
  then mret (ok_response 200 (JObj [("triggered", jint 0); ("skipped", JStr "disabled")]))
  else
    (match now_param with Some t => mret t | None => clock_now end) ≫= fun now =>
    query_db (fun db => merge_sort next_asc (List.filter (is_due now) (all_jobs db))) ≫= fun dueJobs =>
    for_fold (trigger_job (env_number "SCHEDULING_MISSED_WINDOW_CAP" 10) now correlation) 0 dueJobs ≫= fun triggered =>
    mret (ok_response 200 (JObj [("triggered", jint triggered)])).
End scheduling.
