(* ===== verification/SchedulingProofs.v ===== *)
(** * What the scheduling engine guarantees

    Workspace isolation and the quota of the management handler, the claim of an
    execution by the runner, the failure breaker of a job, and the trigger: when
    a due job is run and when it never is. *)
From S2P Require Import Prelude JsValue Platform Cron Scheduling.
From stdpp Require Import sorting.
Local Open Scope Z_scope.

Definition jobs_keyed (db : sched_db) : Prop := forall id j, jobs db !! id = Some j -> jb_id j = id.

(** ** The active jobs of a workspace *)

Section count.
Variable p : job -> bool.

Definition count_jobs (js : gmap string job) : Z := Z.of_nat (length (List.filter p (snd <$> map_to_list js))).

Definition one_if (b : bool) : Z := if b then 1 else 0.

Lemma filter_length_perm (l l' : list job) : l ≡ₚ l' -> length (List.filter p l) = length (List.filter p l').
Proof.
  induction 1 as [|x l l' _ IH|x y l|l l' l'' _ IH1 _ IH2]; simpl; [done| | |congruence].
  - destruct (p x); simpl; congruence.
  - by destruct (p x), (p y).
Qed.

Lemma count_insert_fresh js id j : js !! id = None -> count_jobs (<[id := j]> js) = count_jobs js + one_if (p j).
Proof.
  intros Hn. unfold count_jobs. pose proof (map_to_list_insert js id j Hn) as Hp.
  apply (fmap_Permutation snd) in Hp. simpl in Hp.
  rewrite (filter_length_perm _ (j :: (snd <$> map_to_list js)) Hp). cbn [List.filter]. unfold one_if.
  destruct (p j); cbn [length]; lia.
Qed.

Lemma count_delete js id j : js !! id = Some j -> count_jobs js = count_jobs (delete id js) + one_if (p j).
Proof.
  intros Hj. rewrite <- (insert_delete_id js id j Hj) at 1. apply count_insert_fresh. apply lookup_delete_eq.
Qed.

Lemma count_insert js id j j' :
  js !! id = Some j -> count_jobs (<[id := j']> js) = count_jobs js - one_if (p j) + one_if (p j').
Proof.
  intros Hj. rewrite <- insert_delete_eq, count_insert_fresh by apply lookup_delete_eq.
  rewrite (count_delete js id j Hj). lia.
Qed.

(** A pointwise change that activates nothing activates nothing in total. *)
Lemma count_fmap f js : (forall j, p (f j) = true -> p j = true) -> count_jobs (f <$> js) <= count_jobs js.
Proof.
  intros Hf. induction js as [|id j js Hn IH] using map_ind; [done|].
  rewrite fmap_insert, !count_insert_fresh by (rewrite ?lookup_fmap, ?Hn; done).
  specialize (Hf j). unfold one_if. destruct (p (f j)) eqn:E; [rewrite Hf by done; simpl; lia|]. destruct (p j); simpl; lia.
Qed.
End count.

(** ** What a management request may do to the tables *)

(** How a request in a workspace may change a job: not across workspaces, along
    the status graph or to [deleted]; and its active jobs grow by a creation or
    a resumption only, each below the limit. *)
Record job_changes `{!Scheduler} (i : identity) (db db' : sched_db) : Prop := {
  jc_keyed : jobs_keyed db';
  jc_frame : forall id j, jobs db !! id = Some j ->
    in_workspace (id_tenant i) (id_workspace i) j = false -> jobs db' !! id = Some j;
  jc_legal : forall id j, jobs db !! id = Some j -> exists j', jobs db' !! id = Some j' /\
    (jb_status j' = jb_status j \/ canTransition (jb_status j) (jb_status j') = true \/ jb_status j' = "deleted");
  jc_count : forall n, cf_max_active (effective_config (id_tenant i) (id_workspace i) db) = NInt n ->
    active_count (id_tenant i) (id_workspace i) db' <= Z.max (active_count (id_tenant i) (id_workspace i) db) n;
  jc_executions : executions db' = executions db
}.

Section proofs.
Context `{!Platform, !Scheduler}.

Definition changes_from (i : identity) (w : world sched_db sched_event) (m : xact response) : Prop :=
  jobs_keyed (w_db w) -> job_changes i (w_db w) (w_db (snd (m w))).

Lemma job_changes_refl i db : jobs_keyed db -> job_changes i db db.
Proof. intros Hk. split; [done|done| |lia|done]. intros id j Hj. exists j. split; [done|by left]. Qed.

(** The jobs are untouched; the configuration may change. *)
Lemma job_changes_same i db db' :
  jobs_keyed db -> jobs db' = jobs db -> executions db' = executions db -> job_changes i db db'.
Proof.
  intros Hk Hj He. split; unfold jobs_keyed, active_count, all_jobs; rewrite ?Hj; [done|done| |lia|done].
  intros id j Hid. exists j. split; [done|by left].
Qed.

Definition reads {A} (m : xact A) : Prop := forall w, w_db (snd (m w)) = w_db w.

Lemma reads_bind {A B} (m : xact A) (f : A -> xact B) : reads m -> (forall a, reads (f a)) -> reads (m ≫= f).
Proof.
  intros Hm Hf w. specialize (Hm w). unfold mbind, M_bind. destruct (m w) as [[a|e] w']; simpl in *; [|done].
  by rewrite Hf.
Qed.
Lemma reads_ret {A} (a : A) : reads (mret a).
Proof. done. Qed.
Lemma reads_throw {A} e : reads (throw e : xact A).
Proof. done. Qed.
Lemma reads_lift {A} (r : result js_error A) : reads (lift r).
Proof. done. Qed.
Lemma reads_query {A} (f : sched_db -> A) : reads (query_db f).
Proof. done. Qed.
Lemma reads_clock : reads clock_now.
Proof. done. Qed.
Lemma reads_uuid : reads (random_uuid : xact string).
Proof. done. Qed.
Lemma reads_audit e : reads (publish_audit e).
Proof. intros w. unfold publish_audit, publish. repeat case_match; done. Qed.
Lemma reads_config t ws : reads (getConfig t ws).
Proof. done. Qed.
Lemma reads_id b : reads (id_or_fresh b).
Proof. unfold id_or_fresh. by destruct (bd_id b). Qed.

Lemma from_reads i w m : reads m -> changes_from i w m.
Proof. intros Hm Hk. rewrite Hm. by apply job_changes_refl. Qed.

Lemma from_bind_reads i w {A} (m : xact A) (f : A -> xact response) :
  reads m -> (forall a w', m w = (Ok a, w') -> w_db w' = w_db w -> changes_from i w' (f a)) -> changes_from i w (m ≫= f).
Proof.
  intros Hm Hf. specialize (Hm w). unfold changes_from, mbind, M_bind in *.
  destruct (m w) as [[a|e] w'] eqn:E; simpl in *.
  - rewrite <- Hm. by eapply Hf.
  - rewrite Hm. apply job_changes_refl.
Qed.

(** The change happens first; what follows only reads. *)
Lemma from_exec i w {A} (f : sched_db -> A * sched_db) (k : A -> xact response) :
  (jobs_keyed (w_db w) -> job_changes i (w_db w) (snd (f (w_db w)))) -> (forall a, reads (k a)) ->
  changes_from i w (exec_db f ≫= k).
Proof.
  intros Hf Hk Hkey. specialize (Hf Hkey). unfold mbind, M_bind, exec_db. destruct (f (w_db w)) as [a db']; simpl in *.
  by rewrite Hk.
Qed.

Lemma from_exec_err i w {A} (f : sched_db -> result js_error (A * sched_db)) (k : A -> xact response) :
  (jobs_keyed (w_db w) -> forall a db', f (w_db w) = Ok (a, db') -> job_changes i (w_db w) db') -> (forall a, reads (k a)) ->
  changes_from i w (exec_db_err f ≫= k).
Proof.
  intros Hf Hk Hkey. specialize (Hf Hkey). unfold mbind, M_bind, exec_db_err.
  destruct (f (w_db w)) as [[a db']|e]; simpl in *; [|by apply job_changes_refl]. rewrite Hk. by eapply Hf.
Qed.

Lemma live_job_some id i db j :
  live_job id i db = Some j -> jobs db !! id = Some j /\ in_workspace (id_tenant i) (id_workspace i) j = true /\ is_live j = true.
Proof.
  unfold live_job. destruct (jobs db !! id) as [x|]; [|done]. destruct (_ && _) eqn:E; [|done].
  apply andb_true_iff in E. by intros [= ->].
Qed.

(** A read of the row, then a program that goes on from it. *)
Lemma from_live i w id (k : option job -> xact response) :
  reads (k None) ->
  (forall j, jobs (w_db w) !! id = Some j -> jb_id j = id ->
     in_workspace (id_tenant i) (id_workspace i) j = true -> is_live j = true -> changes_from i w (k (Some j))) ->
  changes_from i w (query_db (live_job id i) ≫= k).
Proof.
  intros Hn Hk Hkey. unfold query_db, mbind, M_bind.
  destruct (live_job id i (w_db w)) as [j|] eqn:Hl; [|by apply from_reads].
  apply live_job_some in Hl as (Hj & Hw & Hlive). apply Hk; auto.
Qed.

(** *** The single writes *)


Lemma active_count_jobs t ws db : active_count t ws db = count_jobs (is_active_in t ws) (jobs db).
Proof. done. Qed.

(** A row of the workspace is rewritten: same identity, legal status, and active
    afterwards only if it was before or the limit leaves room. *)
Lemma job_changes_update i id f db j :
  jobs_keyed db -> jobs db !! id = Some j -> in_workspace (id_tenant i) (id_workspace i) j = true ->
  jb_id (f j) = jb_id j ->
  (jb_status (f j) = jb_status j \/ canTransition (jb_status j) (jb_status (f j)) = true \/ jb_status (f j) = "deleted") ->
  (is_active_in (id_tenant i) (id_workspace i) (f j) = true -> is_active_in (id_tenant i) (id_workspace i) j = true \/
     num_ltb (NInt (active_count (id_tenant i) (id_workspace i) db))
       (cf_max_active (effective_config (id_tenant i) (id_workspace i) db)) = true) ->
  job_changes i db (snd (update_job id f db)).
Proof.
  intros Hk Hj Hw Hid Hst Hact. unfold update_job. rewrite Hj. simpl. split; simpl.
  - intros id' j'. simpl. rewrite lookup_insert_Some. intros [[<- <-]|[_ ?]]; [rewrite Hid|]; auto.
  - intros id' j' Hj' Hnw. rewrite lookup_insert_ne; [done|]. intros ->. congruence.
  - intros id' j' Hj'. destruct (decide (id = id')) as [->|].
    + rewrite lookup_insert_eq. exists (f j). simplify_eq. done.
    + rewrite lookup_insert_ne by done. exists j'. split; [done|by left].
  - intros n Hn. rewrite !active_count_jobs in *. simpl. rewrite (count_insert _ _ _ j) by done.
    destruct (is_active_in _ _ (f j)) eqn:Ha; unfold one_if.
    + destruct (Hact eq_refl) as [->|Hlt]; [lia|]. rewrite Hn in Hlt. unfold num_ltb, num_leb in Hlt.
      destruct (is_active_in _ _ j); lia.
    + destruct (is_active_in _ _ j); lia.
  - done.
Qed.

Lemma is_active_status t ws j : is_active_in t ws j = true -> jb_status j = "active" /\ is_live j = true.
Proof. unfold is_active_in. rewrite !andb_true_iff, String.eqb_eq. tauto. Qed.

Lemma job_applyTransition_shape now j st j' :
  applyTransition now j st = Ok j' -> canTransition (jb_status j) st = true /\ jb_status j' = st.
Proof. unfold applyTransition. destruct (canTransition _ _) eqn:E; simpl; [|done]. by intros [= <-]. Qed.

End proofs.

Ltac reads_step :=
  match goal with
  | |- reads (_ ≫= _) => apply reads_bind; [|intros ?]
  | |- reads (match ?x with _ => _ end) => destruct x eqn:?
  | |- reads (if ?x then _ else _) => destruct x eqn:?
  | |- reads _ => solve [eauto using reads_ret, reads_throw, reads_lift, reads_query, reads_clock, reads_uuid, reads_audit,
                           reads_config, reads_id]
  end.
Ltac reads_tac := repeat reads_step.

Section handlers.
Context `{!Platform, !Scheduler}.

Lemma from_pause i w id : changes_from i w (pause_job i id).
Proof.
  unfold pause_job. apply from_live; [reads_tac|]. intros j Hj Hid Hw Hlive.
  destruct (negb _) eqn:Hst; [apply from_reads; reads_tac|]. apply negb_false_iff, String.eqb_eq in Hst.
  apply from_bind_reads; [reads_tac|]. intros now w1 _ H1. apply from_bind_reads; [reads_tac|].
  intros next w2 [= Hn <-] _. apply job_applyTransition_shape in Hn as [Hc Hs].
  apply from_exec; [|intros; reads_tac]. rewrite H1, Hid. intros Hk. apply (job_changes_update _ _ _ _ j); try done.
  - right. left. simpl. by rewrite Hs.
  - intros Ha. apply is_active_status in Ha as [Ha _]. simpl in Ha. congruence.
Qed.

Lemma from_resume i w id : changes_from i w (resume_job i id).
Proof.
  unfold resume_job. apply from_live; [reads_tac|]. intros j Hj Hid Hw Hlive.
  destruct (negb _) eqn:Hst; [apply from_reads; reads_tac|].
  apply from_bind_reads; [reads_tac|]. intros c w1 Hc H1. injection Hc as Hc _.
  destruct (negb (isSchedulingEnabled c)); [apply from_reads; reads_tac|].
  apply from_bind_reads; [reads_tac|]. intros n w2 Hn H2. injection Hn as Hn _.
  destruct (checkResumeQuota n (cf_max_active c)) eqn:Hq; [apply from_reads; reads_tac|].
  apply from_bind_reads; [reads_tac|]. intros now w3 _ H3. apply from_bind_reads; [reads_tac|].
  intros active w4 [= Ht <-] _. apply job_applyTransition_shape in Ht as [Htr Hs].
  apply from_bind_reads; [reads_tac|]. intros from w5 _ H5. apply from_bind_reads; [reads_tac|]. intros now' w6 _ H6.
  apply from_bind_reads; [reads_tac|]. intros next w7 [= Hnx <-] _.
  assert (Hns : jb_status next = "active").
  { unfold applyNextRunAt in Hnx. apply result_bind_ok in Hnx as (t & _ & [= <-]). exact Hs. }
  apply from_exec; [|intros; reads_tac]. rewrite H6, H5, H3, H2, H1, Hid. intros Hk.
  apply (job_changes_update _ _ _ _ j); try done.
  - right. left. simpl. by rewrite Hns.
  - intros _. right. unfold checkResumeQuota, checkJobCreationQuota in Hq. destruct (num_ltb _ _) eqn:Hlt; [|done].
    by rewrite H1 in Hn; subst n c.
Qed.

Lemma from_delete i w id : changes_from i w (delete_job i id).
Proof.
  unfold delete_job. apply from_bind_reads; [reads_tac|]. intros now w1 _ H1. apply from_exec; [|intros; reads_tac].
  rewrite H1. intros Hk. unfold delete_row. destruct (jobs (w_db w) !! id) as [j|] eqn:Hj; [|by apply job_changes_refl].
  destruct (in_workspace _ _ j) eqn:Hw; [|by apply job_changes_refl].
  apply (job_changes_update _ _ _ _ j); try done; [by right; right|].
  intros Ha. apply is_active_status in Ha as [Ha _]. done.
Qed.

Lemma from_patch i w id b : changes_from i w (patch_job i id b).
Proof.
  unfold patch_job. apply from_live; [reads_tac|]. intros j Hj Hid Hw Hlive.
  destruct b as [b|]; [|apply from_reads; reads_tac].
  assert (Hcron : reads (check_new_cron i b)) by (unfold check_new_cron; reads_tac).
  apply from_bind_reads; [done|]. intros refused w1 _ H1. destruct refused as [r|]; [apply from_reads; reads_tac|].
  apply from_bind_reads; [reads_tac|]. intros [] w2 _ H2. apply from_bind_reads; [reads_tac|].
  intros next w3 _ H3. apply from_bind_reads; [reads_tac|]. intros now w4 _ H4.
  apply from_exec; [|intros; reads_tac]. rewrite H4, H3, H2, H1, Hid. intros Hk.
  apply (job_changes_update _ _ _ _ j); try done; [by left|]. intros Ha. left. exact Ha.
Qed.

Lemma job_changes_insert i db j :
  jobs_keyed db -> jobs db !! jb_id j = None ->
  num_ltb (NInt (active_count (id_tenant i) (id_workspace i) db))
    (cf_max_active (effective_config (id_tenant i) (id_workspace i) db)) = true ->
  job_changes i db (set_jobs (<[jb_id j := j]> (jobs db)) db).
Proof.
  intros Hk Hn Hlt. split; simpl; [| | | |done].
  - intros id' j'. simpl. rewrite lookup_insert_Some. intros [[<- <-]|[_ ?]]; auto.
  - intros id' j' Hj' _. rewrite lookup_insert_ne; [done|]. intros <-. congruence.
  - intros id' j' Hj'. rewrite lookup_insert_ne by (intros <-; congruence). exists j'. split; [done|by left].
  - intros n Hmax. rewrite Hmax in Hlt. unfold num_ltb, num_leb in Hlt. rewrite !active_count_jobs in *. simpl.
    rewrite count_insert_fresh by done. unfold one_if. destruct (is_active_in _ _ j); lia.
Qed.

Lemma from_create i w b : changes_from i w (create_job i b).
Proof.
  unfold create_job. apply from_bind_reads; [reads_tac|]. intros c w1 Hc H1. injection Hc as Hc _.
  destruct (negb _); [apply from_reads; reads_tac|]. destruct b as [b|]; [|apply from_reads; reads_tac].
  destruct (validate_cron (bd_cron b)) as [valid message]. destruct (negb valid); [apply from_reads; reads_tac|].
  destruct (assertCronFloor _ _); [|apply from_reads; reads_tac].
  apply from_bind_reads; [reads_tac|]. intros [] w2 _ H2. apply from_bind_reads; [reads_tac|].
  intros n w3 Hn H3. injection Hn as Hn _.
  destruct (checkJobCreationQuota n (cf_max_active c)) eqn:Hq; [apply from_reads; reads_tac|].
  apply from_bind_reads; [reads_tac|]. intros now w4 _ H4. apply from_bind_reads; [reads_tac|].
  intros id w5 _ H5. apply from_bind_reads; [reads_tac|]. intros record w6 _ H6.
  apply from_exec_err; [|intros; reads_tac]. rewrite H6, H5, H4, H3, H2, H1. intros Hk j db'. unfold insert_job.
  destruct (bd_name b), (bd_target b); try done. destruct (jobs (w_db w) !! jb_id record) eqn:Hfree; [done|].
  intros [= <- <-]. apply job_changes_insert; [done|done|].
  unfold checkJobCreationQuota in Hq. destruct (num_ltb _ _) eqn:Hlt; [|done]. by rewrite H2, H1 in Hn; subst n c.
Qed.

Lemma job_changes_suspend i db now :
  jobs_keyed db ->
  job_changes i db (suspend (jb_id <$> List.filter (is_active_in (id_tenant i) (id_workspace i)) (all_jobs db)) now db).
Proof.
  intros Hk. set (ids := jb_id <$> _).
  assert (Hids : forall id j, jobs db !! id = Some j -> str_in (jb_id j) ids = true ->
            is_active_in (id_tenant i) (id_workspace i) j = true).
  { intros id j Hj (x & Hx & Hin)%str_in_elem%list_elem_of_fmap.
    rewrite list_elem_of_In, filter_In, <- list_elem_of_In in Hin. destruct Hin as [Hin Ha].
    apply list_elem_of_fmap in Hin as ([id' x'] & -> & Hin%elem_of_map_to_list). simpl in *.
    rewrite <- (Hk _ _ Hj), Hx, (Hk _ _ Hin) in Hj. by simplify_eq. }
  unfold suspend. split; simpl; [| | | |done].
  - intros id j. simpl. rewrite lookup_fmap_Some. intros (x & <- & Hx). destruct (str_in _ _); exact (Hk _ _ Hx).
  - intros id j Hj Hnw. rewrite lookup_fmap, Hj. simpl. destruct (str_in _ _) eqn:Hin; [|done].
    apply (Hids _ _ Hj) in Hin. unfold is_active_in in Hin. by rewrite Hnw in Hin.
  - intros id j Hj. rewrite lookup_fmap, Hj. simpl. eexists. split; [done|].
    destruct (str_in _ _) eqn:Hin; [|by left]. apply (Hids _ _ Hj), is_active_status in Hin as [Hst _].
    right. left. simpl. by rewrite Hst.
  - intros n _. rewrite !active_count_jobs. simpl.
    pose proof (count_fmap (is_active_in (id_tenant i) (id_workspace i))
      (fun j => if str_in (jb_id j) ids then with_status_of j "paused" (jb_deleted_at j) now else j) (jobs db)) as Hc.
    enough (forall j, is_active_in (id_tenant i) (id_workspace i) (if str_in (jb_id j) ids then with_status_of j "paused" (jb_deleted_at j) now else j) = true ->
      is_active_in (id_tenant i) (id_workspace i) j = true) as Hmono by (specialize (Hc Hmono); lia).
    intros j. destruct (str_in _ _); [|done]. intros Ha. apply is_active_status in Ha as [Ha _]. done.
Qed.

(** Only the two tables of the record matter. *)
Lemma job_changes_tables i db dba dbb :
  job_changes i db dba -> jobs dbb = jobs dba -> executions dbb = executions dba -> job_changes i db dbb.
Proof.
  intros [H1 H2 H3 H4 H5] Hj He. split; unfold jobs_keyed, active_count, all_jobs in *; rewrite ?Hj, ?He; auto.
Qed.

Lemma upsertConfig_tables t ws b w :
  jobs (w_db (snd (upsertConfig t ws b w))) = jobs (w_db w) /\
  executions (w_db (snd (upsertConfig t ws b w))) = executions (w_db w).
Proof.
  unfold upsertConfig, getConfig, query_db, mbind, M_bind, exec_db_err, upsert_row.
  by destruct (num_is_integer _ && _ && _).
Qed.

Lemma from_config_patch i w b : changes_from i w (config_patch i b).
Proof.
  intros Hk. unfold config_patch. set (b' := default _ b).
  destruct (upsertConfig_tables (id_tenant i) (id_workspace i) b' w) as [Hj He].
  destruct (upsertConfig (id_tenant i) (id_workspace i) b' w) as [[c|e] w1] eqn:E; simpl in Hj, He.
  2:{ rewrite (M_bind_run_err _ _ _ _ _ E). by apply job_changes_same. }
  rewrite (M_bind_run _ _ _ _ _ E).
  assert (Hk1 : jobs_keyed (w_db w1)) by (unfold jobs_keyed in *; by rewrite Hj).
  assert (Hwrite : forall m : xact unit,
    job_changes i (w_db w) (w_db (snd (m w1))) ->
    job_changes i (w_db w) (w_db (snd ((m ≫= fun _ =>
      publish_audit (Audit "capability.toggled" (id_tenant i) (id_workspace i) (id_actor i) (id_tenant i +:+ ":" +:+ id_workspace i)) ≫= fun _ =>
      mret (ok_response 200 (mapConfig c))) w1)))).
  { intros m Hm. unfold mbind at 1, M_bind at 1. destruct (m w1) as [[[]|e] w2]; simpl in *; [|done].
    assert (Hr : reads (publish_audit (Audit "capability.toggled" (id_tenant i) (id_workspace i) (id_actor i) (id_tenant i +:+ ":" +:+ id_workspace i)) ≫= fun _ =>
      mret (ok_response 200 (mapConfig c)))) by reads_tac. by rewrite Hr. }
  apply Hwrite. destruct (bool_decide _); [|by apply job_changes_same].
  unfold getActiveJobsToSuspend, query_db, mbind, M_bind. destruct (jb_id <$> _) as [|id ids] eqn:Hids; [by apply job_changes_same|].
  unfold clock_now, now_ms, exec_db, mbind, M_bind. simpl. rewrite <- Hids. unfold all_jobs. rewrite Hj. fold (all_jobs (w_db w)).
  eapply job_changes_tables; [by apply (job_changes_suspend i (w_db w))| |]; simpl; [by rewrite Hj | done].
Qed.

(** Every request changes the tables of its identity's workspace only. *)
Lemma from_management i w r : parseIdentity r = Some i -> changes_from i w (management_main r).
Proof.
  intros Hi Hk. unfold management_main. rewrite Hi.
  assert (Hroute : changes_from i w (route i (default "GET" (rq_method r)) (path_segments (default "/v1/scheduling/jobs" (rq_path r))) r)).
  { unfold route, config_get, summary, list_jobs, get_job, list_executions.
    repeat match goal with
    | |- changes_from _ _ (match ?x with _ => _ end) => destruct x
    | |- changes_from _ _ (if ?x then _ else _) => destruct x
    end; eauto using from_config_patch, from_create, from_patch, from_delete, from_pause, from_resume;
    apply from_reads; reads_tac. }
  specialize (Hroute Hk). unfold try_catch. by destruct (route _ _ _ _ w) as [[x|e] w'].
Qed.
(** ** The runner *)

Definition execution_claimed (id : string) (db : sched_db) : Prop :=
  Forall (fun x => ex_id x = id -> is_Some (ex_started_at x)) (executions db).

Lemma claim_none id now db : execution_claimed id db -> claim_execution id now db = (None, db).
Proof.
  intros Hc. unfold execution_claimed in Hc. rewrite Forall_forall in Hc. unfold claim_execution.
  assert (Hopen : forall x, x ∈ executions db -> String.eqb (ex_id x) id && negb (bool_decide (is_Some (ex_started_at x))) = false).
  { intros x Hx. destruct (String.eqb_spec (ex_id x) id) as [He|]; [|done]. simpl. by rewrite bool_decide_eq_true_2 by auto. }
  destruct (List.find _ _) as [x|] eqn:Hf.
  - apply find_some in Hf as [Hx%list_elem_of_In Ho]. by rewrite Hopen in Ho.
  - simpl. f_equal. destruct db as [cs js xs]. unfold set_executions. simpl in *. f_equal.
    clear Hf Hc. induction xs as [|x xs IH]; [done|]. rewrite fmap_cons, (Hopen x) by set_solver. f_equal.
    apply IH. intros y Hy. apply Hopen. set_solver.
Qed.

Lemma claim_claims id now db o db' : claim_execution id now db = (o, db') -> execution_claimed id db'.
Proof.
  unfold claim_execution, execution_claimed. intros [= _ <-]. simpl. rewrite Forall_fmap. apply Forall_forall.
  intros x _ . simpl. destruct (String.eqb_spec (ex_id x) id); simpl.
  - destruct (bool_decide _) eqn:Hb; simpl; [|by eexists]. intros _. by apply bool_decide_eq_true in Hb.
  - done.
Qed.

Lemma claim_ids id now db o db' : claim_execution id now db = (o, db') ->
  ex_id <$> executions db' = ex_id <$> executions db /\ forall x, o = Some x -> id ∈ ex_id <$> executions db.
Proof.
  unfold claim_execution. intros [= Ho <-]. simpl. split.
  - rewrite <- list_fmap_compose. apply list_fmap_ext. intros i x _. simpl. by destruct (_ && _).
  - intros x ->. destruct (List.find _ _) as [y|] eqn:Hf; [|done]. apply find_some in Hf as [Hy%list_elem_of_In [He%String.eqb_eq _]%andb_true_iff].
    apply list_elem_of_fmap. by exists y.
Qed.

Lemma finalize_ids id final (xs : list execution) :
  ex_id <$> ((fun x => if String.eqb (ex_id x) id then write_final final x else x) <$> xs) = ex_id <$> xs.
Proof. rewrite <- list_fmap_compose. apply list_fmap_ext. intros i x _. simpl. by destruct (String.eqb _ _). Qed.

Lemma finalize_keeps_claim id db final :
  execution_claimed id db ->
  execution_claimed id (set_executions ((fun x => if String.eqb (ex_id x) id then write_final final x else x) <$> executions db) db).
Proof.
  unfold execution_claimed. simpl. rewrite Forall_fmap. intros Hc. eapply Forall_impl; [exact Hc|]. intros x Hx. simpl. by destruct (String.eqb _ _).
Qed.

Lemma exec_then_reads {A} (f : sched_db -> A * sched_db) (k : A -> xact response) w :
  (forall a, reads (k a)) -> w_db (snd ((exec_db f ≫= k) w)) = snd (f (w_db w)).
Proof. intros Hk. unfold mbind, M_bind, exec_db. destruct (f (w_db w)) as [a db']. simpl. by rewrite Hk. Qed.

Lemma clock_now_run w :
  clock_now w = (Ok (Z.of_N (clock (w_tick w))), mk_world (w_db w) (N.succ (w_tick w)) (w_uuids w) (w_published w) (w_events w)).
Proof. done. Qed.

Lemma settle_executions j x o w : executions (w_db (snd (settle_job j x o w))) = executions (w_db w).
Proof.
  assert (Hu : forall id f db, executions (snd (update_job id f db)) = executions db)
    by (intros; unfold update_job; by destruct (jobs db !! id)).
  unfold settle_job. rewrite (M_bind_run _ _ w (Z.of_N (clock (w_tick w))) (mk_world (w_db w) (N.succ (w_tick w)) (w_uuids w) (w_published w) (w_events w))) by done.
  destruct (String.eqb o "succeeded"); rewrite exec_then_reads by (intros; reads_tac); apply Hu.
Qed.

(** The row of the execution is there, and started. *)
Definition started_row (id : string) (db : sched_db) : Prop :=
  execution_claimed id db /\ id ∈ ex_id <$> executions db.

(** After the claim, whatever happens next in the run, the execution stays claimed. *)
Lemma runner_after_claim jid xid w :
  w_events (snd (runner_main jid xid w)) <> w_events w -> started_row xid (w_db (snd (runner_main jid xid w))).
Proof.
  unfold runner_main, query_db, clock_now, now_ms, exec_db, try_catch, call_action, mbind, M_bind, mret, M_ret.
  destruct (jobs (w_db w) !! jid) as [j|]; [|intros []; reflexivity]. destruct (_ || _); [intros []; reflexivity|]. cbn [w_db w_tick w_events w_uuids w_published].
  destruct (claim_execution xid (Z.of_N (clock (w_tick w))) (w_db w)) as [o db1] eqn:Hc. pose proof (claim_ids _ _ _ _ _ Hc) as [Hids Hsome].
  apply claim_claims in Hc. destruct o as [started|]; [|intros []; reflexivity]. simpl. intros _. specialize (Hsome _ eq_refl).
  destruct (invoke_result _) as [r|e]; simpl; unfold started_row, execution_claimed; rewrite settle_executions;
    (split; [by apply finalize_keeps_claim|]); match goal with |- _ ∈ ex_id <$> ?ys => replace (ex_id <$> ys) with (ex_id <$> executions db1) by (symmetry; apply finalize_ids) end;
    by rewrite Hids.
Qed.

Lemma runner_skips jid xid w :
  execution_claimed xid (w_db w) ->
  w_events (snd (runner_main jid xid w)) = w_events w /\ w_db (snd (runner_main jid xid w)) = w_db w.
Proof.
  intros Hc. unfold runner_main, query_db, clock_now, now_ms, exec_db, mbind, M_bind, mret, M_ret.
  destruct (jobs (w_db w) !! jid) as [j|]; [|done]. destruct (_ || _); [done|]. cbn [w_db w_tick w_events w_uuids w_published].
  destruct (claim_execution xid (Z.of_N (clock (w_tick w))) (w_db w)) as [o db1] eqn:E. rewrite claim_none in E by done.
  by injection E as <- <-.
Qed.

(** ** The trigger *)

Definition has_execution (id : string) (t : Z) (db : sched_db) : bool :=
  existsb (fun y => String.eqb (ex_job_id y) id && (ex_scheduled_at y =? t)) (executions db).

(** The row went in, or one for its job and time was there already. *)
Lemma insert_execution_ok x db b db' : insert_execution x db = Ok (b, db') ->
  has_execution (ex_job_id x) (ex_scheduled_at x) db' = true /\ jobs db' = jobs db /\
  (forall id t, has_execution id t db = true -> has_execution id t db' = true).
Proof.
  unfold insert_execution. fold (has_execution (ex_job_id x) (ex_scheduled_at x) db).
  destruct (has_execution (ex_job_id x) (ex_scheduled_at x) db) eqn:E; [by intros [= _ <-]|].
  destruct (existsb _ _); [done|]. intros [= _ <-]. unfold has_execution in *. simpl. split_and!; [|done|].
  - rewrite existsb_app. simpl. by rewrite String.eqb_refl, Z.eqb_refl, orb_true_r.
  - intros id t Hh. by rewrite existsb_app, Hh.
Qed.

(** Recording missed windows: the jobs stay, executions only grow, nothing is run. *)
Definition only_audits (w w' : world sched_db sched_event) : Prop :=
  jobs (w_db w') = jobs (w_db w) /\
  (forall id t, has_execution id t (w_db w) = true -> has_execution id t (w_db w') = true) /\
  exists new, w_events w' = w_events w ++ new /\ Forall (fun e => match e with RunnerInvoked _ _ _ => False | _ => True end) new.

Lemma only_audits_refl w : only_audits w w.
Proof. split_and!; [done|done|]. exists []. by rewrite app_nil_r. Qed.

Lemma only_audits_trans w1 w2 w3 : only_audits w1 w2 -> only_audits w2 w3 -> only_audits w1 w3.
Proof.
  intros (Hj & He & n1 & Hn1 & Hf1) (Hj' & He' & n2 & Hn2 & Hf2). split_and!; [congruence|auto|].
  exists (n1 ++ n2). rewrite Hn2, Hn1, app_assoc. split; [done|by apply Forall_app].
Qed.

Lemma record_missed_run j t w :
  only_audits w (snd (record_missed j t w)) /\
  forall u, fst (record_missed j t w) = Ok u -> has_execution (jb_id j) t (w_db (snd (record_missed j t w))) = true.
Proof.
  unfold record_missed, random_uuid, clock_now, now_ms, exec_db_err, publish_audit, publish, mbind, M_bind. simpl.
  set (x := buildMissedExecutionRecord _ _ _ _).
  destruct (insert_execution x (w_db w)) as [[b db']|e] eqn:Hi; [|split; [split_and!; [done..|]; exists []; by rewrite app_nil_r|done]].
  apply insert_execution_ok in Hi as (Hh & Hj & Hm). unfold set_db. simpl in *.
  destruct audit_configured; [destruct (broker _)|]; simpl; (split; [|by intros]); split_and!; try done.
  - exists []. by rewrite app_nil_r.
  - eexists. split; [done|]. by repeat constructor.
  - exists []. by rewrite app_nil_r.
Qed.

Lemma record_all_run j missed : forall w,
  only_audits w (snd (for_each (record_missed j) missed w)) /\
  (forall u, fst (for_each (record_missed j) missed w) = Ok u ->
     forall t, t ∈ missed -> has_execution (jb_id j) t (w_db (snd (for_each (record_missed j) missed w))) = true).
Proof.
  induction missed as [|t ts IH]; intros w; simpl; [split; [apply only_audits_refl|]; by intros u _ t ?%elem_of_nil|].
  destruct (record_missed_run j t w) as [Ha Hh]. unfold mbind, M_bind.
  destruct (record_missed j t w) as [[[]|e] w1]; simpl in *; [|split; [done|done]].
  specialize (Hh tt eq_refl). destruct (IH w1) as [Ha' Hr]. split; [by eapply only_audits_trans|].
  intros u Hu t' [->|Ht']%elem_of_cons; [|by eapply Hr]. destruct Ha' as (_ & Hm & _). by apply Hm.
Qed.

Lemma missed_windows_prefix fuel j cap now : forall probe missed r,
  missed_windows fuel j cap now probe missed = Ok r -> exists more, r = missed ++ more.
Proof.
  induction fuel as [|fuel IH]; intros probe missed r; cbn [missed_windows].
  { intros [= <-]. exists []. by rewrite app_nil_r. }
  destruct (num_ltb _ cap); [|intros [= <-]; exists []; by rewrite app_nil_r].
  rewrite result_bind_ok. intros (c & _ & Hr). destruct ((now <=? c) || _).
  - injection Hr as <-. exists []. by rewrite app_nil_r.
  - apply IH in Hr as [more ->]. exists (c :: more). by rewrite <- app_assoc.
Qed.

(** From a whole minute, a round per minute up to [now] is enough. *)
Lemma missed_windows_fuel j cap now fuel : forall probe missed extra,
  probe mod MINUTE = 0 -> (S (Z.to_nat ((now - probe) / MINUTE)) <= fuel)%nat ->
  missed_windows (fuel + extra) j cap now probe missed = missed_windows fuel j cap now probe missed.
Proof.
  induction fuel as [|fuel IH]; intros probe missed extra Hm Hf; [lia|]. cbn [Nat.add missed_windows].
  destruct (num_ltb _ cap); [|done]. destruct (nextRunAt (jb_cron j) probe) as [c|e] eqn:Hn; [|done].
  change (Ok c ≫= ?f) with (f c). cbv beta. destruct ((now <=? c) || _) eqn:Hstop; [done|].
  apply nextRunAt_after in Hn as [Hc Hcm]. apply IH; [done|]. apply orb_false_iff in Hstop as [Hlt%Z.leb_gt _].
  assert (probe + MINUTE <= c).
  { unfold MINUTE in *. apply Z.mod_divide in Hm as [a ->]; [|done]. apply Z.mod_divide in Hcm as [b ->]; [|done]. nia. }
  assert ((now - c) / MINUTE <= (now - probe) / MINUTE - 1).
  { unfold MINUTE in *. replace ((now - probe) / 60000 - 1) with ((now - probe + (-1) * 60000) / 60000)
      by (rewrite Z.div_add by done; lia). apply Z.div_le_mono; lia. }
  assert (0 <= (now - c) / MINUTE) by (unfold MINUTE; apply Z.div_pos; lia). lia.
Qed.

(** ** Whatever the engine does, a started execution stays started *)

(** Every started execution is one still; executions are only added. *)
Lemma started_row_ext id db db' : executions db' = executions db -> started_row id db -> started_row id db'.
Proof. unfold started_row, execution_claimed. by intros ->. Qed.

Lemma started_row_update id i f db : started_row id db -> started_row id (snd (update_job i f db)).
Proof. apply started_row_ext. unfold update_job. by destruct (jobs db !! i). Qed.

Lemma started_row_insert id x db b db' : insert_execution x db = Ok (b, db') -> started_row id db -> started_row id db'.
Proof.
  unfold insert_execution. destruct (existsb _ _); [by intros [= _ <-]|]. destruct (existsb _ _) eqn:Hkey; [done|].
  intros [= _ <-] [Hc Hin]. unfold started_row, execution_claimed in *. simpl. split.
  - apply Forall_app. split; [done|]. constructor; [|done]. intros Hid. exfalso. apply not_true_iff_false in Hkey. apply Hkey.
    apply existsb_exists. apply list_elem_of_fmap in Hin as (y & Hy & Hyin). exists y. split; [by apply list_elem_of_In|].
    apply String.eqb_eq. congruence.
  - rewrite fmap_app. apply elem_of_app. by left.
Qed.

Lemma started_row_claim id i now db : started_row id db -> started_row id (snd (claim_execution i now db)).
Proof.
  intros [Hc Hin]. destruct (claim_execution i now db) as [o db'] eqn:E. pose proof (claim_ids _ _ _ _ _ E) as [Hids _].
  cbn [snd]. split; [|by rewrite Hids]. unfold claim_execution in E. injection E as _ <-. unfold execution_claimed in *. simpl.
  apply Forall_fmap. eapply Forall_impl; [exact Hc|]. intros x Hx. simpl. destruct (_ && _); [|exact Hx]. intros _. by eexists.
Qed.

Lemma started_row_final id i final db : started_row id db ->
  started_row id (set_executions ((fun x => if String.eqb (ex_id x) i then write_final final x else x) <$> executions db) db).
Proof.
  intros [Hc Hin]. split; [|match goal with |- _ ∈ ex_id <$> ?ys => replace (ex_id <$> ys) with (ex_id <$> executions db) by (symmetry; apply finalize_ids) end; exact Hin]. unfold execution_claimed in *. simpl.
  apply Forall_fmap. eapply Forall_impl; [exact Hc|]. intros x Hx. simpl. by destruct (String.eqb _ _).
Qed.

Lemma keeps_for_each (P : sched_db -> Prop) {A} (f : A -> xact unit) xs : (forall x, keeps P (f x)) -> keeps P (for_each f xs).
Proof. intros Hf w Hw. apply (for_each_inv (fun w => P (w_db w))); [|done]. intros; by apply Hf. Qed.

Lemma keeps_started_audit id e : keeps (started_row id) (publish_audit e).
Proof. unfold publish_audit. keeps_tac. Qed.
Lemma keeps_started_clock id : keeps (started_row id) clock_now.
Proof. unfold clock_now. keeps_tac. Qed.
Lemma keeps_started_job id i f : keeps (started_row id) (exec_db (update_job i f) : xact _).
Proof. apply keeps_exec. intros db. apply started_row_update. Qed.
Lemma keeps_started_config id t ws : keeps (started_row id) (getConfig t ws).
Proof. unfold getConfig. keeps_tac. Qed.
Lemma keeps_started_upsert id c : keeps (started_row id) (exec_db_err (upsert_row c) : xact _).
Proof.
  apply keeps_exec_err. intros db x db' Hs. unfold upsert_row. destruct (_ && _); [|done]. by intros [= _ <-].
Qed.
Lemma keeps_started_new_job id b j : keeps (started_row id) (exec_db_err (insert_job b j) : xact _).
Proof. apply keeps_exec_err. intros db x db' Hs. unfold insert_job. repeat case_match; try done. by intros [= _ <-]. Qed.
Lemma keeps_started_suspend id ids now : keeps (started_row id) (exec_db (fun db => (tt, suspend ids now db)) : xact _).
Proof. by apply keeps_exec. Qed.
Lemma keeps_started_delete id jid i now : keeps (started_row id) (exec_db (delete_row jid i now) : xact _).
Proof. apply keeps_exec. intros db Hs. unfold delete_row. repeat case_match; try done. by apply started_row_update. Qed.
#[local] Hint Resolve keeps_started_audit keeps_started_clock keeps_started_job keeps_started_config keeps_started_upsert
  keeps_started_new_job keeps_started_suspend keeps_started_delete : falcone.

Lemma keeps_started_management id r : keeps (started_row id) (management_main r).
Proof.
  unfold management_main. destruct (parseIdentity r) as [i|]; [|keeps_tac]. apply keeps_try; [|intros; keeps_tac].
  unfold route, config_get, config_patch, upsertConfig, getActiveJobsToSuspend, summary, create_job, list_jobs, get_job, patch_job,
    check_new_cron, delete_job, pause_job, resume_job, list_executions, getActiveJobCount, id_or_fresh.
  keeps_tac.
Qed.

Lemma keeps_started_insert id x : keeps (started_row id) (exec_db_err (insert_execution x) : xact _).
Proof. apply keeps_exec_err. intros db b db' Hs Hi. by eapply started_row_insert. Qed.
#[local] Hint Resolve keeps_started_insert : falcone.

Lemma keeps_started_trigger id now corr : keeps (started_row id) (trigger_main now corr).
Proof.
  unfold trigger_main. keeps_tac. unfold trigger_job. keeps_tac. apply keeps_for_each. intros t. unfold record_missed. keeps_tac.
Qed.

Lemma keeps_started_runner id jid xid : keeps (started_row id) (runner_main jid xid).
Proof.
  unfold runner_main, call_action, settle_job. keeps_tac; apply keeps_exec; intros db Hs;
    [by apply started_row_claim | by apply started_row_final].
Qed.

(** What the engine may do between two runs: answer a request, run the trigger, or
    run an execution. *)
Inductive sched_action :=
| Manage (r : sched_request)
| Trigger (now : option Z) (correlation : option string)
| RunExecution (jobId executionId : string).

Definition engine_act (a : sched_action) (w : world sched_db sched_event) : world sched_db sched_event :=
  match a with
  | Manage r => snd (management_main r w)
  | Trigger now correlation => snd (trigger_main now correlation w)
  | RunExecution jobId executionId => snd (runner_main jobId executionId w)
  end.

Fixpoint run_engine (actions : list sched_action) (w : world sched_db sched_event) : world sched_db sched_event :=
  match actions with
  | [] => w
  | a :: actions' => run_engine actions' (engine_act a w)
  end.

Lemma run_engine_started id actions : forall w, started_row id (w_db w) -> started_row id (w_db (run_engine actions w)).
Proof.
  induction actions as [|a actions IH]; intros w Hs; [done|]. apply IH. destruct a; cbn [engine_act];
    [by apply keeps_started_management | by apply keeps_started_trigger | by apply keeps_started_runner].
Qed.

End handlers.

(** ** Properties *)

(** A management request stays in its workspace.  Whatever it asks, it
    leaves every job of another workspace as it is, removes no row, and changes
    the status of a job only along the status graph or to [deleted]; a request
    without the gateway's identity headers changes nothing at all. *)
Theorem management_stays_in_workspace `{!Platform, !Scheduler} (r : sched_request) (w : world sched_db sched_event)
    (id : string) (j : job) :
  jobs_keyed (w_db w) -> jobs (w_db w) !! id = Some j ->
  let db' := w_db (snd (management_main r w)) in
  match parseIdentity r with
  | None => db' = w_db w
  | Some i =>
      (in_workspace (id_tenant i) (id_workspace i) j = false -> jobs db' !! id = Some j) /\
      exists j', jobs db' !! id = Some j' /\
        (jb_status j' = jb_status j \/ canTransition (jb_status j) (jb_status j') = true \/ jb_status j' = "deleted")
  end.
Proof.
  intros Hk Hj. simpl. destruct (parseIdentity r) as [i|] eqn:Hi.
  - destruct (from_management i w r Hi Hk) as [_ Hf Hl _ _]. split; [by apply Hf | by apply Hl].
  - unfold management_main. by rewrite Hi.
Qed.

Definition sched_platform : Platform :=
  {| clock := fun n => (1767225600000 + n)%N; uuid := fun n => "uuid-" +:+ show_N n; broker := fun _ => None |}.

Definition sample_scheduler (strings : bool) : Scheduler :=
  {| sched_env := fun k => if String.eqb k "SCHEDULING_ENABLED_BY_DEFAULT" then Some "true" else None;
     audit_configured := true; runner_configured := true; target_validator := None;
     invoke_result := fun _ => Err (plain_error "target unreachable"); timestamps_as_strings := strings |}.

Definition sample_job (st : string) (last : option Z) : job :=
  mk_job "job-1" "ten-1" "ws-1" "n" "0 * * * *" "act" (JObj []) st 0 5 (Some 1767229200000) last "usr-1" 0 0 None.

Definition sched_world (j : job) : world sched_db sched_event := mk_world (mk_sched_db [] {[jb_id j := j]} []) 0 0 0 [].

Definition delete_request (tenant : string) : sched_request :=
  mk_sched_request (Some tenant) (Some "ws-1") None None (Some "DELETE") (Some "/v1/scheduling/jobs/job-1") None None None.

Lemma sched_world_keyed j : jobs_keyed (w_db (sched_world j)).
Proof. intros id j'. simpl. rewrite lookup_singleton_Some. by intros [<- <-]. Defined.

Lemma management_stays_in_workspace_witness :
  jb_status <$> (jobs (w_db (snd (@management_main sched_platform (sample_scheduler true) (delete_request "ten-1") (sched_world (sample_job "active" None))))) !! "job-1")
    = Some "deleted" /\
  jobs (w_db (snd (@management_main sched_platform (sample_scheduler true) (delete_request "ten-2") (sched_world (sample_job "active" None))))) !! "job-1"
    = Some (sample_job "active" None).
Proof.
  split; [vm_compute; reflexivity|].
  exact (proj1 (@management_stays_in_workspace sched_platform (sample_scheduler true) (delete_request "ten-2")
    (sched_world (sample_job "active" None)) "job-1" (sample_job "active" None) (sched_world_keyed _) eq_refl) eq_refl).
Defined.

(** The quota of active jobs holds.  Whatever a workspace's request does -
    create, resume, patch, reconfigure - the number of its active jobs afterwards
    is at most what it was or the limit in force when the request came in. *)
Theorem active_jobs_within_quota `{!Platform, !Scheduler} (r : sched_request) (i : identity) (limit : Z)
    (w : world sched_db sched_event) :
  jobs_keyed (w_db w) -> parseIdentity r = Some i ->
  cf_max_active (effective_config (id_tenant i) (id_workspace i) (w_db w)) = NInt limit ->
  active_count (id_tenant i) (id_workspace i) (w_db (snd (management_main r w)))
  <= Z.max (active_count (id_tenant i) (id_workspace i) (w_db w)) limit.
Proof. intros Hk Hi Hl. destruct (from_management i w r Hi Hk) as [_ _ _ Hc _]. by apply Hc. Qed.

Lemma active_jobs_within_quota_witness :
  active_count "ten-1" "ws-1" (w_db (snd (@management_main sched_platform (sample_scheduler true)
    (delete_request "ten-1") (sched_world (sample_job "active" None))))) <= Z.max 1 10.
Proof.
  exact (@active_jobs_within_quota sched_platform (sample_scheduler true) (delete_request "ten-1")
    (mk_identity "ten-1" "ws-1" "system" []) 10 (sched_world (sample_job "active" None)) (sched_world_keyed _) eq_refl eq_refl).
Defined.

(** C40: an execution is run at most once.  If a run of the runner for an
    execution did anything - invoked the action, published - then no later run for
    the same execution does, under whatever job it is asked for and whatever the
    engine did in between (management requests, triggers with the executions they
    insert, runs of this and other executions, all failing or not): no event, no
    change of the tables. *)
Theorem runner_runs_once `{!Platform, !Scheduler} (jobId jobId' executionId : string) (actions : list sched_action)
    (w : world sched_db sched_event) :
  w_events (snd (runner_main jobId executionId w)) <> w_events w ->
  let w2 := run_engine actions (snd (runner_main jobId executionId w)) in
  w_events (snd (runner_main jobId' executionId w2)) = w_events w2 /\
  w_db (snd (runner_main jobId' executionId w2)) = w_db w2.
Proof. intros Hev w2. apply runner_skips, run_engine_started, runner_after_claim, Hev. Qed.

Definition running_world : world sched_db sched_event :=
  mk_world (mk_sched_db [] {["job-1" := sample_job "active" None]}
    [mk_execution "ex-1" "job-1" "ten-1" "ws-1" "running" 1767225600000 None None None None None]) 0 0 0 [].

Lemma runner_runs_once_witness :
  let w1 := snd (@runner_main sched_platform (sample_scheduler true) "job-1" "ex-1" running_world) in
  let w2 := @run_engine sched_platform (sample_scheduler true)
    [Trigger (Some 1767229260000) None; RunExecution "job-1" "uuid-0"; Manage (delete_request "ten-2"); RunExecution "job-1" "ex-1"] w1 in
  w_events w1 = [ActionInvoked "act"; Audit "execution.failed" "ten-1" "ws-1" "system" "ex-1"] /\
  length (executions (w_db w2)) = 2%nat /\
  w_events (snd (@runner_main sched_platform (sample_scheduler true) "job-1" "ex-1" w2)) = w_events w2.
Proof.
  intros w1 w2. split; [vm_compute; reflexivity|]. split; [vm_compute; reflexivity|].
  assert (Hev : w_events w1 <> w_events running_world) by (vm_compute; discriminate).
  exact (proj1 (@runner_runs_once sched_platform (sample_scheduler true) "job-1" "job-1" "ex-1"
    [Trigger (Some 1767229260000) None; RunExecution "job-1" "uuid-0"; Manage (delete_request "ten-2"); RunExecution "job-1" "ex-1"]
    running_world Hev)).
Defined.

(** The failure bookkeeping, and what it overwrites.  After a failed
    outcome the job's row gets the failure count and the status computed from
    [j], the row read before the action ran: one failure more, and [errored] as
    soon as the count reaches the job's maximum.  Whatever the row was changed to
    meanwhile is lost: a job paused while its action ran is active again. *)
Theorem failed_run_settles `{!Platform, !Scheduler} (j row : job) (executionId outcome : string) (w : world sched_db sched_event) :
  outcome <> "succeeded" -> jobs (w_db w) !! jb_id j = Some row ->
  exists row', jobs (w_db (snd (settle_job j executionId outcome w))) = <[jb_id j := row']> (jobs (w_db w)) /\
    jb_failures row' = jb_failures j + 1 /\
    jb_status row' = (if jb_max_failures j <=? jb_failures j + 1 then "errored" else jb_status j).
Proof.
  intros Ho Hrow. unfold settle_job. apply String.eqb_neq in Ho. rewrite Ho.
  rewrite (M_bind_run _ _ _ _ _ (clock_now_run w)), exec_then_reads by (intros; reads_tac).
  unfold update_job. simpl. rewrite Hrow. simpl. eexists. split; [done|]. by split.
Qed.

Lemma failed_run_settles_witness :
  let w := sched_world (sample_job "paused" None) in
  exists row', jobs (w_db (snd (@settle_job sched_platform (sample_scheduler true) (sample_job "active" None) "ex-1" "failed" w)))
    = <["job-1" := row']> (jobs (w_db w)) /\ jb_status row' = "active".
Proof.
  intros w. destruct (@failed_run_settles sched_platform (sample_scheduler true) (sample_job "active" None) (sample_job "paused" None)
    "ex-1" "failed" w ltac:(discriminate) eq_refl) as (row' & Hj & _ & Hs).
  exists row'. split; [exact Hj | exact Hs].
Defined.

(** A due job is triggered.  When the driver gives timestamps as strings,
    the due time is the first run after the last trigger, and no execution exists
    for it: no missed window is recorded, the execution is inserted, the runner
    is invoked exactly once (if one is configured and it takes the call), and the
    job moves on to the next run after the due time. *)
Theorem trigger_runs_due_job `{!Platform, !Scheduler} (cap : jsnum) (now last due next : Z) (corr : option string) (n : Z)
    (j : job) (w : world sched_db sched_event) :
  timestamps_as_strings = true -> jb_last_triggered_at j = Some last -> jb_next_run_at j = Some due ->
  nextRunAt (jb_cron j) last = Ok due -> nextRunAt (jb_cron j) due = Ok next ->
  jobs (w_db w) !! jb_id j = Some j -> has_execution (jb_id j) due (w_db w) = false ->
  (forall x n, x ∈ executions (w_db w) -> ex_id x <> uuid n) ->
  (runner_configured = true -> broker (w_published w) = None) ->
  exists id w', trigger_job cap now corr n j w = (Ok (n + 1), w') /\
    w_events w' = w_events w ++ (if runner_configured then [RunnerInvoked (jb_id j) id (Some due)] else []) /\
    (exists x, executions (w_db w') = executions (w_db w) ++ [x] /\ ex_id x = id /\ ex_job_id x = jb_id j /\ ex_scheduled_at x = due) /\
    (exists j', jobs (w_db w') = <[jb_id j := j']> (jobs (w_db w)) /\ jb_next_run_at j' = Some next /\ jb_last_triggered_at j' = Some due).
Proof.
  intros Hs Hl Hd Hn1 Hn2 Hj Hno Hfresh Hb. unfold trigger_job. rewrite Hl, Hd.
  assert (Hmissed : missed_windows (missed_fuel now last) j cap now last [] = Ok []).
  { unfold missed_fuel. cbn [missed_windows]. destruct (num_ltb _ cap); [|done]. rewrite Hn1. simpl.
    unfold same_instant. rewrite Hs, Hd, bool_decide_eq_true_2 by done. by rewrite orb_true_r. }
  assert (Hkey : existsb (fun y => String.eqb (ex_id y) (uuid (w_uuids w))) (executions (w_db w)) = false).
  { apply not_true_is_false. intros (x & Hx & He%String.eqb_eq)%existsb_exists. by apply (Hfresh x (w_uuids w)); [apply list_elem_of_In|]. }
  rewrite Hmissed. unfold lift, mbind, M_bind, random_uuid, exec_db_err, exec_db, insert_execution. simpl.
  unfold has_execution in Hno. rewrite Hno, Hkey. simpl. unfold publish. simpl.
  destruct runner_configured; simpl; [rewrite Hb by done; simpl|]; rewrite Hn2; simpl; unfold update_job; simpl; rewrite Hj; simpl;
    (eexists _, _; split; [reflexivity|]; simpl; split_and!;
     [done || by rewrite app_nil_r | by eexists | eexists; split; [done|]; split; [done|exact Hd]]).
Qed.

Lemma trigger_runs_due_job_witness :
  exists id w', @trigger_job sched_platform (sample_scheduler true) (NInt 10) 1767229260000 None 0 (sample_job "active" (Some 1767225600000))
    (sched_world (sample_job "active" (Some 1767225600000))) = (Ok 1, w') /\
    w_events w' = [RunnerInvoked "job-1" id (Some 1767229200000)].
Proof.
  destruct (@trigger_runs_due_job sched_platform (sample_scheduler true) (NInt 10) 1767229260000 1767225600000 1767229200000 1767232800000
    None 0 (sample_job "active" (Some 1767225600000)) (sched_world (sample_job "active" (Some 1767225600000))))
    as (id & w' & Hrun & Hev & _); try (vm_compute; reflexivity).
  { intros x n Hx. by apply not_elem_of_nil in Hx. }
  exists id, w'. split; [exact Hrun | exact Hev].
Defined.

(** A due job that is never run.  When the driver gives timestamps as
    [Date] objects - the default of the PostgreSQL driver - the comparison with the
    due time never holds, so a due time that has passed is itself recorded as a
    missed window; the execution can then not be inserted, nothing is run, and the
    job keeps its due time: the same happens at every later trigger. *)
Theorem trigger_starves_with_dates `{!Platform, !Scheduler} (cap : jsnum) (now last due : Z) (corr : option string) (n : Z)
    (j : job) (w : world sched_db sched_event) :
  timestamps_as_strings = false -> jb_last_triggered_at j = Some last -> jb_next_run_at j = Some due ->
  nextRunAt (jb_cron j) last = Ok due -> due < now -> last < now -> num_ltb (NInt 0) cap = true ->
  let w' := snd (trigger_job cap now corr n j w) in
  jobs (w_db w') = jobs (w_db w) /\
  (forall r, fst (trigger_job cap now corr n j w) = Ok r -> r = n) /\
  exists new, w_events w' = w_events w ++ new /\ Forall (fun e => match e with RunnerInvoked _ _ _ => False | _ => True end) new.
Proof.
  intros Hs Hl Hd Hn1 Hdue Hlast Hcap w'. unfold w', trigger_job. rewrite Hl, Hd.
  destruct (missed_windows (missed_fuel now last) j cap now last []) as [missed|e] eqn:Hmw.
  2:{ simpl. split_and!; [done|done|]. exists []. by rewrite app_nil_r. }
  assert (Hin : due ∈ missed).
  { unfold missed_fuel in Hmw. generalize dependent (S (Z.to_nat ((now - last) / MINUTE))). intros fuel Hmw.
    cbn [missed_windows length] in Hmw. change (Z.of_nat 0) with 0 in Hmw. rewrite Hcap, Hn1 in Hmw. simpl in Hmw.
    unfold same_instant in Hmw. rewrite Hs in Hmw. simpl in Hmw.
    assert (now <=? due = false) as Hlt by lia. rewrite Hlt in Hmw. simpl in Hmw.
    apply missed_windows_prefix in Hmw as [more ->]. set_solver. }
  destruct (record_all_run j missed w) as [(Hj & Hm & new & Hnew & Hf) Hall].
  unfold lift, mbind, M_bind. destruct (for_each (record_missed j) missed w) as [[[]|e] w1]; simpl in *.
  2:{ split_and!; [done|done|by exists new]. }
  unfold random_uuid, exec_db_err, insert_execution. simpl.
  specialize (Hall tt eq_refl due Hin). unfold has_execution in Hall. rewrite Hall. simpl.
  split_and!; [done|by intros r [= <-]|by exists new].
Qed.

Lemma trigger_starves_with_dates_witness :
  jobs (w_db (snd (@trigger_job sched_platform (sample_scheduler false) (NInt 10) 1767229260000 None 0 (sample_job "active" (Some 1767225600000))
    (sched_world (sample_job "active" (Some 1767225600000)))))) = {["job-1" := sample_job "active" (Some 1767225600000)]}.
Proof.
  assert (Hn : nextRunAt "0 * * * *" 1767225600000 = Ok 1767229200000) by (vm_compute; reflexivity).
  exact (proj1 (@trigger_starves_with_dates sched_platform (sample_scheduler false) (NInt 10) 1767229260000 1767225600000 1767229200000
    None 0 (sample_job "active" (Some 1767225600000)) (sched_world (sample_job "active" (Some 1767225600000)))
    eq_refl eq_refl eq_refl Hn eq_refl eq_refl eq_refl)).
Defined.

(** The search for missed windows ends.  The loop has no bound of its own
    when the cap on missed windows is infinite, but each round moves the
    probe at least a minute closer to the present: with the rounds the model
    gives it the loop has run to its end, and more rounds change nothing. *)
Theorem missed_windows_terminates `{!Platform, !Scheduler} (j : job) (cap : jsnum) (now last : Z) (extra : nat) :
  missed_windows (missed_fuel now last + extra) j cap now last [] = missed_windows (missed_fuel now last) j cap now last [].
Proof.
  unfold missed_fuel. set (k := S (Z.to_nat _)). cbn [Nat.add missed_windows].
  destruct (num_ltb _ cap); [|done]. destruct (nextRunAt (jb_cron j) last) as [c|e] eqn:Hn; [|done].
  change (Ok c ≫= ?f) with (f c). cbv beta. destruct ((now <=? c) || _) eqn:Hstop; [done|].
  apply nextRunAt_after in Hn as [Hc Hcm]. apply missed_windows_fuel; [done|]. unfold k.
  assert ((now - c) / MINUTE <= (now - last) / MINUTE) by (apply Z.div_le_mono; unfold MINUTE; lia). lia.
Qed.
