(* ===== verification/HttpIdempotency.v ===== *)
(** * Idempotency keys of HTTP requests

    internal-contracts' [http-idempotency.mjs] over migration 124, composed as the
    request handler of apps/control-plane [server.mjs] composes it: a keyed mutation
    reserves its key, is handled, and records its response or releases the key.  A
    request is a process that performs one statement per step, so that a list of
    steps is an interleaving of replicas.

    [new URL] with its parameters sorted, SHA-256, the handlers, the fate of a
    statement and the order in which the clean-up scans the table are the class
    [HttpRuntime]. *)
From S2P Require Import Prelude JsValue Json Regex Platform.
From Stdlib Require Import Ascii.
Local Open Scope Z_scope.

(** ** Requests *)

Record http_identity := mk_http_identity {
  hi_tenantId : option string;
  hi_sub : option string;
  hi_actorId : option string;
  hi_keyId : option string
}.

(** The flags of a route that are read here. *)
Record http_route := mk_http_route {
  hr_proxy : bool;
  hr_stream : bool;
  hr_sse : bool;
  hr_noAuth : bool;
  hr_public : bool;
  hr_webhook : bool;
  hr_noReplay : bool
}.

Record keyed_request := mk_keyed_request {
  kq_method : string;
  kq_key : option string;
  kq_url : string;
  kq_body : string;
  kq_identity : option http_identity;
  kq_tenantId : option string;
  kq_principalId : option string;
  kq_route : http_route;
  kq_maxResponseBytes : jsval
}.

(** A response a handler gives, and what a client is answered. *)
Record reply := mk_reply { rp_status : Z; rp_body : jsval; rp_headers : list (string * string) }.
Record answer := mk_answer { an_status : Z; an_body : jsval; an_headers : gmap string string }.

(** Tenant, principal and key. *)
Definition scope_key : Type := (string * string) * string.

(** What becomes of a statement: it is performed, it fails, or it is performed but
    its answer is lost. *)
Inductive fate := Performed | Failed | Unreported.

Class HttpRuntime := {
  url_target : string -> option (string * string);
  sha256_hex : string -> string;
  statement_fate : N -> fate;
  scan_order : N -> list scope_key;
  handle : N -> keyed_request -> result js_error reply
}.

(** ** Pure parts *)

Definition MUTATIONS : list string := ["POST"; "PUT"; "PATCH"; "DELETE"].
Definition isMutationMethod (method : string) : bool := str_in method MUTATIONS.

Definition idem_key_char (c : ascii) : bool :=
  is_digit c || is_lower c || is_upper c || Ascii.eqb c "." || Ascii.eqb c "_" || Ascii.eqb c ":" || Ascii.eqb c "-".
(** [/^[A-Za-z0-9._:-]{8,128}$/] *)
Definition KEY_PATTERN (key : string) : bool :=
  let n := length (chars key) in forallb idem_key_char (chars key) && (8 <=? n)%nat && (n <=? 128)%nat.
Definition SAFE_HEADERS : list string := ["content-range"; "accept-ranges"; "etag"; "location"; "retry-after"; "x-correlation-id"].
Definition DEFAULT_RESPONSE_CAP : Z := 256 * 1024.
Definition LIFETIME : Z := 24 * 60 * 60 * 1000.

Definition newline : string := String (ascii_of_N 10) "".
Definition to_upper_case (s : string) : string :=
  of_chars ((fun c => if is_lower c then ascii_of_N (code c - 32) else c) <$> chars s).

(** One trailing slash less; the root stays. *)
Definition trimmed_path (p : string) : string :=
  let s := match reverse (chars p) with "/"%char :: r => of_chars (reverse r) | _ => p end in
  if nonempty s then s else "/".

Section pure.
Context `{!HttpRuntime}.

Definition requestFingerprint (method url rawBody : string) : result js_error string :=
  match url_target url with
  | Some (pathname, search) =>
      Ok (sha256_hex (to_upper_case method +:+ newline +:+ trimmed_path pathname +:+ search +:+ newline +:+ rawBody))
  | None => Err (plain_error "Invalid URL")
  end.

End pure.

(** [x(?:\/|$)] anywhere in the path. *)
Definition any_char : re := RCls (fun _ => true).
Definition path_has (r : re) (path : string) : bool :=
  re_test_full (rseqs [RStar any_char; rchar "/"; r; ropt (RSeq (rchar "/") (RStar any_char))]) path.
Definition segment : re := rplus (RCls (fun c => negb (Ascii.eqb c "/"))).
Definition segment_rest : re := RStar (RCls (fun c => negb (Ascii.eqb c "/"))).

Definition credential_segments : re :=
  ralts [rlit_ci "api-keys"; rlit_ci "credentials"; RSeq (rlit_ci "credential-") segment; rlit_ci "secrets"; rlit_ci "service-accounts";
         rlit_ci "clients"; rlit_ci "federation"; rlit_ci "invitations"].
Definition opaque_segments : re :=
  ralts [rlit_ci "rotate-secret"; rlit_ci "credential-resets"; rlit_ci "credential-rotations"; RSeq (rlit_ci "token") segment_rest;
         rlit_ci "invocations"; rlit_ci "invoke"; rlit_ci "rpc"; rseqs [rlit_ci "tools/"; segment; rlit_ci "/calls"]].

Definition replayUnavailableRoute (path : string) (route : http_route) : bool :=
  hr_noReplay route || path_has credential_segments path || path_has opaque_segments path
  || re_test_start (rlit "/v1/storage/") path
  || path_has (rseqs [rlit "workspaces/"; segment; rlit "/database"]) path
  || re_test_full (rseqs [rlit "/v1/functions/actions/"; segment; rlit "/activations/"; segment; rlit "/rerun"]) path
  || re_test_start (rlit "/v1/auth/") path.

(** The names of fields that hold a credential. *)
Definition credential_name (name : string) : bool :=
  re_test (ralts [rlit_ci "secret"; rlit_ci "password"; rlit_ci "credential"; rseqs [rlit_ci "private"; ropt rany; rlit_ci "key"];
                  rlit_ci "token"; rlit_ci "authorization"; rlit_ci "cookie"; rseqs [rlit_ci "api"; ropt rany; rlit_ci "key"]]) name
  || str_in (to_lower_case name) ["key"; "dsn"; "connection"].

(** The names of the elements of an array are numbers. *)
Fixpoint containsCredential (body : jsval) : bool :=
  match body with
  | JArr xs => existsb containsCredential xs
  | JObj kvs => existsb (fun kv => credential_name kv.1 || containsCredential kv.2) kvs
  | _ => false
  end.

Definition code_body (c : string) : jsval := JObj [("code", JStr c); ("message", JStr c)].
Definition coded_answer (status : Z) (c : string) : answer := mk_answer status (code_body c) ∅.
Definition in_progress_answer : answer :=
  mk_answer 409 (code_body "IDEMPOTENCY_KEY_IN_PROGRESS") {[ "Retry-After" := "1" ]}.

Definition invalidIdempotencyKeyResponse (method : string) (key : option string) : option answer :=
  match key with
  | Some k => if isMutationMethod method && negb (KEY_PATTERN k) then Some (coded_answer 400 "INVALID_IDEMPOTENCY_KEY") else None
  | None => None
  end.

Definition principal_of (r : keyed_request) : option string :=
  match kq_principalId r with
  | Some p => Some p
  | None =>
      i ← kq_identity r;
      match hi_keyId i with
      | Some k => if nonempty k then Some ("apikey:" +:+ k) else None
      | None => None
      end ∪ (s ← match hi_sub i with Some s => Some s | None => hi_actorId i end; if nonempty s then Some ("subject:" +:+ s) else None)
  end.

Definition tenant_of (r : keyed_request) : string :=
  default "" (match kq_tenantId r with Some t => Some t | None => kq_identity r ≫= hi_tenantId end).

Definition unkeyed_route (r : http_route) : bool := hr_stream r || hr_sse r || hr_noAuth r || hr_public r || hr_webhook r.

(** How a request begins: it needs no reservation, it is refused at once, or it reserves. *)
Inductive start := Unguarded | Refused (a : answer) | Reserve (scope : scope_key) (fingerprint : string).

Section start.
Context `{!HttpRuntime}.

(** [reserveHttpRequest] up to its first statement. *)
Definition reserve_start (r : keyed_request) : result js_error start :=
  let route := kq_route r in
  if hr_proxy route then Ok Unguarded
  else match invalidIdempotencyKeyResponse (kq_method r) (kq_key r) with
  | Some a => Ok (Refused a)
  | None =>
      match kq_key r with
      | Some key =>
          if negb (isMutationMethod (kq_method r)) || unkeyed_route route then Ok Unguarded
          else match principal_of r with
          | Some principal =>
              if nonempty principal
              then requestFingerprint (kq_method r) (kq_url r) (kq_body r) ≫= fun fp => Ok (Reserve (tenant_of r, principal, key) fp)
              else Ok (Refused (coded_answer 503 "IDEMPOTENCY_UNAVAILABLE"))
          | None => Ok (Refused (coded_answer 503 "IDEMPOTENCY_UNAVAILABLE"))
          end
      | None => Ok Unguarded
      end
  end.

End start.

(** ** The table *)

Record idem_row := mk_idem_row {
  ir_reservation : string;
  ir_fingerprint : string;
  ir_completed : bool;
  ir_expires : Z;
  ir_status : option Z;
  ir_body : option string;
  ir_headers : gmap string string;
  ir_replay : bool
}.
Notation idem_table := (gmap scope_key idem_row).

Definition reserved_row (token fp : string) (now : Z) : idem_row := mk_idem_row token fp false (now + LIFETIME) None None ∅ false.

(** [INSERT ... ON CONFLICT DO UPDATE ... WHERE expires_at <= clock_timestamp()]:
    whether a row is returned, and the table. *)
Definition reserve_row (scope : scope_key) (token fp : string) (now : Z) (t : idem_table) : bool * idem_table :=
  let won := match t !! scope with Some row => ir_expires row <=? now | None => true end in
  (won, if won then <[scope := reserved_row token fp now]> t else t).

Definition live_row (scope : scope_key) (now : Z) (t : idem_table) : option idem_row :=
  row ← t !! scope; if now <? ir_expires row then Some row else None.

(** At most a hundred expired rows, as the scan meets them. *)
Definition expired_rows (scan : list scope_key) (now : Z) (t : idem_table) : list scope_key :=
  take 100 (List.filter (fun s => match t !! s with Some row => ir_expires row <=? now | None => false end) scan).
Definition purge_rows (scan : list scope_key) (now : Z) (t : idem_table) : idem_table :=
  foldr (fun s acc => delete s acc) t (expired_rows scan now t).

Definition holds_row (scope : scope_key) (token : string) (t : idem_table) : bool :=
  match t !! scope with Some row => String.eqb (ir_reservation row) token | None => false end.

Definition release_row (scope : scope_key) (token : string) (t : idem_table) : idem_table :=
  if holds_row scope token t then delete scope t else t.

Definition completed_row (status : Z) (payload : option string) (headers : gmap string string) (row : idem_row) : idem_row :=
  mk_idem_row (ir_reservation row) (ir_fingerprint row) true (ir_expires row) (Some status) payload headers
    (match payload with Some _ => true | None => false end).
Definition complete_row (scope : scope_key) (token : string) (status : Z) (payload : option string) (headers : gmap string string) (t : idem_table) : idem_table :=
  if holds_row scope token t then alter (completed_row status payload headers) scope t else t.

(** ** What is recorded of a response *)

Definition safe_headers (headers : list (string * string)) : gmap string string :=
  foldl (fun m kv => if str_in (to_lower_case kv.1) SAFE_HEADERS then <[to_lower_case kv.1 := kv.2]> m else m) ∅ headers.
Definition headers_map (headers : list (string * string)) : gmap string string := foldl (fun m kv => <[kv.1 := kv.2]> m) ∅ headers.

Definition response_cap (max : jsval) : Z :=
  match js_number max with NInt n => if (0 <? n) && (n <=? 2 ^ 53 - 1) then n else DEFAULT_RESPONSE_CAP | _ => DEFAULT_RESPONSE_CAP end.

Section record.
Context `{!NumberText, !HttpRuntime}.

Definition response_payload (status : Z) (body : jsval) : string := if (status =? 204) || nullish body then "" else json_text body.

(** The payload, when it may be replayed. *)
Definition stored_payload (r : keyed_request) (p : reply) : option string :=
  let payload := response_payload (rp_status p) (rp_body p) in
  let unavailable := match url_target (kq_url r) with Some (path, _) => replayUnavailableRoute path (kq_route r) | None => true end in
  if negb unavailable && negb (containsCredential (rp_body p)) && (byte_length payload <=? response_cap (kq_maxResponseBytes r))
  then Some payload else None.

(** What a request that lost its key is answered. *)
Definition answer_of_row (fp : string) (row : idem_row) : result js_error answer :=
  if negb (String.eqb (ir_fingerprint row) fp) then Ok (coded_answer 422 "IDEMPOTENCY_KEY_MISMATCH")
  else if negb (ir_completed row) then Ok in_progress_answer
  else if negb (ir_replay row) then Ok (coded_answer 409 "IDEMPOTENCY_REPLAY_UNAVAILABLE")
  else
    (match ir_body row with
     | Some b => if nonempty b then match json_parse b with Some v => Ok v | None => Err (plain_error "Unexpected token in JSON") end else Ok JNull
     | None => Ok JNull
     end) ≫= fun body =>
    Ok (mk_answer (default 0 (ir_status row)) body (<["X-Idempotency-Replayed" := "true"]> (ir_headers row))).

End record.

Definition internal_error : answer :=
  mk_answer 500 (JObj [("code", JStr "CONTROL_PLANE_ERROR"); ("message", JStr "Internal server error")]) ∅.

(** The envelope of an exception. *)
Definition error_status (e : js_error) : Z :=
  match err_status e with Some n => n | None => if has_code "FORBIDDEN" e then 403 else 500 end.
Definition error_reply (e : js_error) : reply :=
  let status := error_status e in
  let c := if 500 <=? status then "CONTROL_PLANE_ERROR" else default "CONTROL_PLANE_ERROR" (err_code e) in
  mk_reply status (JObj [("code", JStr c); ("message", JStr (if 500 <=? status then "Internal server error" else c))]) [].
Definition sent (p : reply) : answer := mk_answer (rp_status p) (rp_body p) (headers_map (rp_headers p)).

(** ** Processes *)

Inductive phase :=
| Free
| Inserting (attempt : nat)
| Selecting (attempt : nat)
| Purging
| Running
| Releasing (a : answer)
| Answered (a : answer).

Record process := mk_process { pc_request : keyed_request; pc_scope : scope_key; pc_fingerprint : string; pc_phase : phase }.
Definition with_phase (ph : phase) (p : process) : process := mk_process (pc_request p) (pc_scope p) (pc_fingerprint p) ph.

(** What happened, in order: a reservation was stored at a time, a handler was
    dispatched, a response was recorded, a reservation was removed by its owner. *)
Inductive idem_event :=
| Won (pid : N) (scope : scope_key) (at_ : Z)
| Dispatched (pid : N) (scope : scope_key)
| Recorded (pid : N) (scope : scope_key) (p : reply)
| Released (pid : N) (scope : scope_key).

Record iworld := mk_iworld {
  iw_table : idem_table;
  iw_procs : gmap N process;
  iw_next : N;
  iw_tick : N;
  iw_log : list idem_event
}.
Definition empty_iworld : iworld := mk_iworld ∅ ∅ 0 0 [].

Inductive iaction := Arrive (r : keyed_request) | Advance (pid : N).

Section steps.
Context `{!Platform, !NumberText, !HttpRuntime}.

(** The reading of the database clock at a step. *)
Definition idem_now (w : iworld) : Z := Z.of_N (clock (iw_tick w)).

Definition initial_phase (r : keyed_request) : scope_key * string * phase :=
  match reserve_start r with
  | Ok Unguarded => ("", "", "", "", Free)
  | Ok (Refused a) => ("", "", "", "", Answered a)
  | Ok (Reserve scope fp) => (scope, fp, Inserting 0)
  | Err e => ("", "", "", "", Answered (sent (error_reply e)))
  end.

Definition arrive (r : keyed_request) (w : iworld) : iworld :=
  let '(scope, fp, ph) := initial_phase r in
  mk_iworld (iw_table w) (<[iw_next w := mk_process r scope fp ph]> (iw_procs w)) (N.succ (iw_next w)) (iw_tick w) (iw_log w).

(** A step of process [pid]: the table afterwards, its new phase, what happened. *)
Definition settle (pid : N) (p : process) (t : idem_table) (ph : phase) (evs : list idem_event) (w : iworld) : iworld :=
  mk_iworld t (<[pid := with_phase ph p]> (iw_procs w)) (iw_next w) (N.succ (iw_tick w)) (iw_log w ++ evs).

(** A statement: its effect unless it failed, and the phase for a reported and an
    unreported end. *)
Definition statement (pid : N) (p : process) (t : idem_table) (evs : list idem_event) (ok ko : phase) (w : iworld) : iworld :=
  match statement_fate (iw_tick w) with
  | Performed => settle pid p t ok evs w
  | Unreported => settle pid p t ko evs w
  | Failed => settle pid p (iw_table w) ko [] w
  end.

Definition release_step (pid : N) (p : process) (ok ko : phase) (w : iworld) : iworld :=
  let held := holds_row (pc_scope p) (uuid pid) (iw_table w) in
  statement pid p (release_row (pc_scope p) (uuid pid) (iw_table w)) (if held then [Released pid (pc_scope p)] else []) ok ko w.

Definition complete_step (pid : N) (p : process) (r : reply) (ok ko : phase) (w : iworld) : iworld :=
  let held := holds_row (pc_scope p) (uuid pid) (iw_table w) in
  statement pid p
    (complete_row (pc_scope p) (uuid pid) (rp_status r) (stored_payload (pc_request p) r) (safe_headers (rp_headers r)) (iw_table w))
    (if held then [Recorded pid (pc_scope p) r] else []) ok ko w.

(** The handler has ended: [reply], or the [catch] of the server. *)
Definition finish_step (pid : N) (p : process) (w : iworld) : iworld :=
  match handle pid (pc_request p) with
  | Ok r =>
      if 500 <=? rp_status r then release_step pid p (Answered (sent r)) (Releasing internal_error) w
      else complete_step pid p r (Answered (sent r)) (Answered internal_error) w
  | Err e =>
      let r := error_reply e in
      if 500 <=? rp_status r then release_step pid p (Answered (sent r)) (Answered (sent r)) w
      else complete_step pid p r (Answered (sent r)) (Answered (sent r)) w
  end.

Definition insert_step (pid : N) (p : process) (attempt : nat) (w : iworld) : iworld :=
  let now := idem_now w in
  let '(won, t) := reserve_row (pc_scope p) (uuid pid) (pc_fingerprint p) now (iw_table w) in
  statement pid p t (if won : bool then [Won pid (pc_scope p) now] else []) (if won : bool then Purging else Selecting attempt)
    (Answered internal_error) w.

Definition select_step (pid : N) (p : process) (attempt : nat) (w : iworld) : iworld :=
  let found := match live_row (pc_scope p) (idem_now w) (iw_table w) with
               | Some row => match answer_of_row (pc_fingerprint p) row with Ok a => Answered a | Err _ => Answered internal_error end
               | None => if (attempt =? 2)%nat then Answered in_progress_answer else Inserting (S attempt)
               end in
  statement pid p (iw_table w) [] found (Answered internal_error) w.

Definition purge_step (pid : N) (p : process) (w : iworld) : iworld :=
  let t := match statement_fate (iw_tick w) with
           | Failed => iw_table w
           | _ => purge_rows (scan_order (iw_tick w)) (idem_now w) (iw_table w)
           end in
  settle pid p t Running [Dispatched pid (pc_scope p)] w.

Definition advance (pid : N) (w : iworld) : iworld :=
  match iw_procs w !! pid with
  | None => w
  | Some p =>
      match pc_phase p with
      | Free => settle pid p (iw_table w)
                  (Answered (sent (match handle pid (pc_request p) with Ok r => r | Err e => error_reply e end))) [] w
      | Inserting attempt => insert_step pid p attempt w
      | Selecting attempt => select_step pid p attempt w
      | Purging => purge_step pid p w
      | Running => finish_step pid p w
      | Releasing a => release_step pid p (Answered a) (Answered a) w
      | Answered _ => w
      end
  end.

Definition act_on (a : iaction) (w : iworld) : iworld :=
  match a with Arrive r => arrive r w | Advance pid => advance pid w end.
Definition run_requests (actions : list iaction) (w : iworld) : iworld := foldl (fun w a => act_on a w) w actions.

End steps.
