(* ===== verification/HttpIdempotencyProofs.v ===== *)
(** * What an idempotency key guarantees

    For every interleaving of the requests: a key is dispatched at most once in its
    lifetime unless its owner released it, a replay is the recorded response of a
    request with the same fingerprint, and a request is answered after at most nine
    of its own steps. *)
From S2P Require Import Prelude JsValue Json Regex Platform HttpIdempotency.
From Stdlib Require Import Ascii.
Local Open Scope Z_scope.

(** ** Tables *)

Section tables.
Context `{!HttpRuntime}.

Lemma reserve_row_lookup scope token fp now t s :
  let '(won, t') := reserve_row scope token fp now t in
  (won = true /\ s = scope /\ t' !! s = Some (reserved_row token fp now)) \/ ((won = true -> s <> scope) /\ t' !! s = t !! s).
Proof.
  unfold reserve_row. set (won := match t !! scope with Some row => _ | None => true end). destruct won; [|by right].
  destruct (decide (s = scope)) as [->|]; [left; by rewrite lookup_insert_eq | right; by rewrite lookup_insert_ne].
Qed.

Lemma purge_lookup scan now t s :
  purge_rows scan now t !! s = t !! s \/ purge_rows scan now t !! s = None /\ exists row, t !! s = Some row /\ ir_expires row <= now.
Proof.
  unfold purge_rows. assert (Hall : Forall (fun x => exists row, t !! x = Some row /\ ir_expires row <= now) (expired_rows scan now t)).
  { unfold expired_rows. apply Forall_take, Forall_forall. intros x Hx. apply list_elem_of_In, List.filter_In in Hx as [_ Hx].
    destruct (t !! x) as [row|]; [|done]. exists row. split; [done | by apply Z.leb_le]. }
  revert Hall. generalize (expired_rows scan now t) as l. induction l as [|x l IH]; intros Hall; [by left|]. simpl.
  apply Forall_cons in Hall as [Hx Hl]. destruct (decide (s = x)) as [->|Hne].
  - right. split; [by rewrite lookup_delete_eq | done].
  - rewrite lookup_delete_ne by done. by apply IH.
Qed.

Lemma release_lookup scope token t s :
  release_row scope token t !! s = t !! s \/
  (s = scope /\ release_row scope token t !! s = None /\ holds_row scope token t = true).
Proof.
  unfold release_row. destruct (holds_row scope token t) eqn:Hh; [|by left].
  destruct (decide (s = scope)) as [->|]; [right; by rewrite lookup_delete_eq | left; by rewrite lookup_delete_ne].
Qed.

Lemma complete_lookup scope token status payload headers t s :
  complete_row scope token status payload headers t !! s = t !! s \/
  (s = scope /\ exists row, t !! s = Some row /\ ir_reservation row = token /\
     complete_row scope token status payload headers t !! s = Some (completed_row status payload headers row)).
Proof.
  unfold complete_row, holds_row. destruct (t !! scope) as [row|] eqn:Hrow; [|by left].
  destruct (String.eqb_spec (ir_reservation row) token) as [Heq|]; [|by left].
  destruct (decide (s = scope)) as [->|]; [right | left; by rewrite lookup_alter_ne].
  split; [done|]. exists row. by rewrite lookup_alter_eq, Hrow.
Qed.

Lemma holds_spec scope token t : holds_row scope token t = true <-> exists row, t !! scope = Some row /\ ir_reservation row = token.
Proof.
  unfold holds_row. destruct (t !! scope) as [row|]; [rewrite String.eqb_eq; naive_solver | naive_solver].
Qed.

End tables.

(** ** The steps of one process *)

Definition event_pid (e : idem_event) : N :=
  match e with Won p _ _ | Dispatched p _ | Recorded p _ _ | Released p _ => p end.

Section steps.
Context `{!Platform, !NumberText, !HttpRuntime}.

(** What a step of [pid] may do: one transition of the automaton of a process, the
    event it logs and its effect on the table. *)
Inductive move (pid : N) (p : process) (w : iworld) : phase -> list idem_event -> idem_table -> Prop :=
| move_insert_won n ph : pc_phase p = Inserting n -> (ph = Purging \/ exists a, ph = Answered a) ->
    fst (reserve_row (pc_scope p) (uuid pid) (pc_fingerprint p) (idem_now w) (iw_table w)) = true ->
    move pid p w ph [Won pid (pc_scope p) (idem_now w)]
      (snd (reserve_row (pc_scope p) (uuid pid) (pc_fingerprint p) (idem_now w) (iw_table w)))
| move_insert_lost n ph : pc_phase p = Inserting n -> (ph = Selecting n \/ exists a, ph = Answered a) -> move pid p w ph [] (iw_table w)
| move_select n ph : pc_phase p = Selecting n -> (n <> 2%nat /\ ph = Inserting (S n) \/ exists a, ph = Answered a) ->
    move pid p w ph [] (iw_table w)
| move_purge t : pc_phase p = Purging -> (t = iw_table w \/ exists scan, t = purge_rows scan (idem_now w) (iw_table w)) ->
    move pid p w Running [Dispatched pid (pc_scope p)] t
| move_release ph evs t : (pc_phase p = Running /\ (exists a, ph = Releasing a \/ ph = Answered a) \/ exists a, pc_phase p = Releasing a /\ ph = Answered a) ->
    (evs = [] /\ t = iw_table w \/ evs = [Released pid (pc_scope p)] /\ holds_row (pc_scope p) (uuid pid) (iw_table w) = true /\
       t = release_row (pc_scope p) (uuid pid) (iw_table w)) ->
    move pid p w ph evs t
| move_complete r ph evs t : pc_phase p = Running -> (exists a, ph = Answered a) -> rp_status r < 500 ->
    (handle pid (pc_request p) = Ok r \/ exists e, handle pid (pc_request p) = Err e /\ r = error_reply e) ->
    (evs = [] /\ t = iw_table w \/ evs = [Recorded pid (pc_scope p) r] /\ holds_row (pc_scope p) (uuid pid) (iw_table w) = true /\
       t = complete_row (pc_scope p) (uuid pid) (rp_status r) (stored_payload (pc_request p) r) (safe_headers (rp_headers r)) (iw_table w)) ->
    move pid p w ph evs t
| move_free ph : pc_phase p = Free -> (exists a, ph = Answered a) -> move pid p w ph [] (iw_table w).

Lemma release_row_lost scope token t : holds_row scope token t = false -> release_row scope token t = t.
Proof. unfold release_row. by intros ->. Qed.
Lemma complete_row_lost scope token st pl hd t : holds_row scope token t = false -> complete_row scope token st pl hd t = t.
Proof. unfold complete_row. by intros ->. Qed.
Lemma reserve_row_lost scope token fp now t : fst (reserve_row scope token fp now t) = false -> snd (reserve_row scope token fp now t) = t.
Proof. unfold reserve_row. cbn. by intros ->. Qed.

(** A statement ends in one of two phases, with its effect and events or without. *)
Lemma statement_cases pid p t evs ok ko w :
  exists ph t' evs', statement pid p t evs ok ko w = settle pid p t' ph evs' w /\ (ph = ok \/ ph = ko) /\
    (t' = t /\ evs' = evs \/ t' = iw_table w /\ evs' = [] /\ ph = ko).
Proof. unfold statement. destruct (statement_fate _); do 3 eexists; (split; [reflexivity|]); naive_solver. Qed.

Lemma release_move pid p ok ko w : (pc_phase p = Running \/ exists a, pc_phase p = Releasing a) ->
  (forall ph, ph = ok \/ ph = ko -> pc_phase p = Running /\ (exists a, ph = Releasing a \/ ph = Answered a) \/ exists a, pc_phase p = Releasing a /\ ph = Answered a) ->
  exists ph evs t, release_step pid p ok ko w = settle pid p t ph evs w /\ move pid p w ph evs t.
Proof.
  intros _ Hph. unfold release_step. destruct (statement_cases pid p (release_row (pc_scope p) (uuid pid) (iw_table w))
    (if holds_row (pc_scope p) (uuid pid) (iw_table w) then [Released pid (pc_scope p)] else []) ok ko w) as (ph & t & evs & Heq & Hok & Heff).
  exists ph, evs, t. split; [done|]. apply move_release; [by apply Hph|].
  destruct (holds_row (pc_scope p) (uuid pid) (iw_table w)) eqn:Hh; destruct Heff as [[-> ->] | (-> & -> & _)]; [by right | by left | left | by left].
  by rewrite release_row_lost.
Qed.

Lemma complete_move pid p r ok ko w : pc_phase p = Running -> (forall ph, ph = ok \/ ph = ko -> exists a, ph = Answered a) -> rp_status r < 500 ->
  (handle pid (pc_request p) = Ok r \/ exists e, handle pid (pc_request p) = Err e /\ r = error_reply e) ->
  exists ph evs t, complete_step pid p r ok ko w = settle pid p t ph evs w /\ move pid p w ph evs t.
Proof.
  intros Hrun Hph Hst Hr. unfold complete_step. edestruct (statement_cases pid p) as (ph & t & evs & Heq & Hok & Heff).
  exists ph, evs, t. split; [exact Heq|]. apply (move_complete _ _ _ r); [done | by apply Hph | done..|].
  destruct (holds_row (pc_scope p) (uuid pid) (iw_table w)) eqn:Hh; destruct Heff as [[-> ->] | (-> & -> & _)]; [by right | by left | left | by left].
  by rewrite complete_row_lost.
Qed.

(** Every step of a process that is not answered is a move. *)
Lemma advance_move pid p w : iw_procs w !! pid = Some p -> (forall a, pc_phase p <> Answered a) ->
  exists ph evs t, advance pid w = settle pid p t ph evs w /\ move pid p w ph evs t.
Proof.
  intros Hp Hna. unfold advance. rewrite Hp. destruct (pc_phase p) as [|n|n| | |a|a] eqn:Hph.
  - do 3 eexists. split; [reflexivity|]. apply move_free; eauto.
  - unfold insert_step. destruct (reserve_row _ _ _ _ _) as [won t0] eqn:Hres.
    destruct (statement_cases pid p t0 (if won then [Won pid (pc_scope p) (idem_now w)] else []) (if won then Purging else Selecting n) (Answered internal_error) w)
      as (ph & t & evs & Heq & Hok & Heff). exists ph, evs, t. split; [exact Heq|].
    destruct won.
    + destruct Heff as [[-> ->] | (-> & -> & ->)]; [|eapply move_insert_lost; eauto].
      pose proof (move_insert_won pid p w n ph Hph) as Hm. rewrite Hres in Hm. apply Hm; [destruct Hok; eauto | done].
    + assert (t = iw_table w /\ evs = []) as [-> ->].
      { pose proof (reserve_row_lost (pc_scope p) (uuid pid) (pc_fingerprint p) (idem_now w) (iw_table w)) as Hl. rewrite Hres in Hl.
        specialize (Hl eq_refl). simpl in Hl. naive_solver. }
      eapply move_insert_lost; [done|]. destruct Hok; eauto.
  - unfold select_step. edestruct (statement_cases pid p) as (ph & t & evs & Heq & Hok & Heff). exists ph, evs, t. split; [exact Heq|].
    assert (t = iw_table w /\ evs = []) as [-> ->] by naive_solver. eapply move_select; [done|].
    destruct Hok as [-> | ->]; [|eauto]. destruct (live_row _ _ _) as [row|]; [destruct (answer_of_row _ _); eauto|].
    destruct (Nat.eqb_spec n 2); eauto.
  - unfold purge_step. do 3 eexists. split; [reflexivity|]. apply move_purge; [done|]. destruct (statement_fate _); eauto.
  - unfold finish_step. destruct (handle pid (pc_request p)) as [r|e] eqn:Hh; destruct (500 <=? _) eqn:Hst.
    + apply release_move; [by left|]. intros ph [-> | ->]; left; eauto.
    + apply complete_move; [done | intros ph [-> | ->]; eauto | lia | by left].
    + apply release_move; [by left|]. intros ph [-> | ->]; left; eauto.
    + apply complete_move; [done | intros ph [-> | ->]; eauto | lia | right; eauto].
  - apply release_move; [right; eauto|]. intros ph [-> | ->]; right; eauto.
  - by destruct (Hna a).
Qed.

Lemma advance_answered pid p w a : iw_procs w !! pid = Some p -> pc_phase p = Answered a -> advance pid w = w.
Proof. unfold advance. by intros -> ->. Qed.


(** An invariant of all interleavings. *)
Lemma run_invariant (P : iworld -> Prop) :
  P empty_iworld -> (forall r w, P w -> P (arrive r w)) ->
  (forall pid p w ph evs t, P w -> iw_procs w !! pid = Some p -> move pid p w ph evs t -> P (settle pid p t ph evs w)) ->
  forall actions, P (run_requests actions empty_iworld).
Proof.
  intros Hempty Harr Hmove actions. unfold run_requests. generalize empty_iworld Hempty.
  induction actions as [|a actions IH]; intros w Hw; [done|]. simpl. apply IH. destruct a as [r|pid]; simpl; [by apply Harr|].
  destruct (iw_procs w !! pid) as [p|] eqn:Hp; [|unfold advance; by rewrite Hp].
  destruct (pc_phase p) eqn:Hph;
    try (destruct (advance_move pid p w Hp) as (ph & evs & t & -> & Hm); [by rewrite Hph | by eapply Hmove]).
  by rewrite (advance_answered pid p w _ Hp Hph).
Qed.

(** ** The events of a process *)

(** What a process in a phase has logged: it won, was dispatched, and recorded a
    response or released the key, in this order.  (The release is tried again when its
    first answer was lost.) *)
Definition trace_of (pid : N) (log : list idem_event) : list idem_event := List.filter (fun e => N.eqb (event_pid e) pid) log.

Inductive traced (pid : N) (s : scope_key) : phase -> list idem_event -> Prop :=
| traced_none ph : match ph with Purging | Running | Releasing _ => False | _ => True end -> traced pid s ph []
| traced_won ph t : match ph with Purging | Answered _ => True | _ => False end -> traced pid s ph [Won pid s t]
| traced_dispatched ph t : ph = Running -> traced pid s ph [Won pid s t; Dispatched pid s]
| traced_recorded ph t r : (exists a, ph = Answered a) -> traced pid s ph [Won pid s t; Dispatched pid s; Recorded pid s r]
| traced_released ph t n : match ph with Releasing _ | Answered _ => True | _ => False end ->
    traced pid s ph (Won pid s t :: Dispatched pid s :: replicate n (Released pid s)).

Definition processes_traced (w : iworld) : Prop :=
  (forall pid p, iw_procs w !! pid = Some p -> (pid < iw_next w)%N /\ traced pid (pc_scope p) (pc_phase p) (trace_of pid (iw_log w))) /\
  (forall e, e ∈ iw_log w -> is_Some (iw_procs w !! event_pid e)).

Lemma trace_of_app pid l1 l2 : trace_of pid (l1 ++ l2) = trace_of pid l1 ++ trace_of pid l2.
Proof. apply List.filter_app. Qed.

Lemma move_pid pid p w ph evs t e : move pid p w ph evs t -> e ∈ evs -> event_pid e = pid.
Proof.
  intros Hm He. inversion Hm; subst; try (by apply list_elem_of_singleton in He as ->); try (by apply elem_of_nil in He).
  all: destruct_or!; destruct_and?; subst; (apply elem_of_nil in He || apply list_elem_of_singleton in He); by subst.
Qed.

Lemma trace_all pid evs : (forall e, e ∈ evs -> event_pid e = pid) -> trace_of pid evs = evs.
Proof.
  intros Hall. induction evs as [|e evs IH]; [done|]. unfold trace_of in *. simpl. rewrite (Hall e) by left. rewrite N.eqb_refl. f_equal.
  apply IH. intros x Hx. apply Hall. by right.
Qed.
Lemma trace_none pid evs : (forall e, e ∈ evs -> event_pid e <> pid) -> trace_of pid evs = [].
Proof.
  intros Hall. induction evs as [|e evs IH]; [done|]. unfold trace_of in *. simpl. destruct (N.eqb_spec (event_pid e) pid); [by destruct (Hall e); [left|]|].
  apply IH. intros x Hx. apply Hall. by right.
Qed.

Lemma traced_released_snoc pid s ph t n : match ph with Releasing _ | Answered _ => True | _ => False end ->
  traced pid s ph ((Won pid s t :: Dispatched pid s :: replicate n (Released pid s)) ++ [Released pid s]).
Proof. intros Hph. simpl. rewrite <- replicate_S_end. by apply (traced_released pid s ph t (S n)). Qed.

Lemma move_traced pid p w ph evs t tr : move pid p w ph evs t -> traced pid (pc_scope p) (pc_phase p) tr -> traced pid (pc_scope p) ph (tr ++ evs).
Proof.
  intros Hm Htr. inversion Hm; subst; inversion Htr; subst; try rewrite ?app_nil_r in *;
    repeat (match goal with
    | [ E : pc_phase p = _, T : context [pc_phase p] |- _ ] => rewrite E in T; simpl in T
    | [ E : exists _, _ |- _ ] => destruct E
    | [ E : _ \/ _ |- _ ] => destruct E
    | [ E : _ /\ _ |- _ ] => destruct E
    end; subst; try done); rewrite ?app_nil_r;
    first [ by apply traced_released_snoc | by apply (traced_released_snoc _ _ _ _ 0) | by apply (traced_released _ _ _ _ 0) | simpl; eauto using traced].
Qed.

Lemma settle_lookup pid p t ph evs w q :
  iw_procs (settle pid p t ph evs w) !! q = if N.eqb q pid then Some (with_phase ph p) else iw_procs w !! q.
Proof. cbn. destruct (N.eqb_spec q pid) as [->|]; [by rewrite lookup_insert_eq | by rewrite lookup_insert_ne]. Qed.

Lemma run_traced actions : processes_traced (run_requests actions empty_iworld).
Proof.
  apply run_invariant.
  - split; [intros pid p Hp; cbn in Hp; by rewrite lookup_empty in Hp | intros e He; cbn in He; by apply elem_of_nil in He].
  - intros r w [Hp He]. unfold arrive. destruct (initial_phase r) as [[scope fp] ph] eqn:Hi. split; cbn [iw_procs iw_next iw_log iw_table].
    + intros pid p. rewrite lookup_insert_Some. intros [[<- <-] | [_ Hlook]]; [|destruct (Hp _ _ Hlook); split; [lia | done]]. cbn [pc_scope pc_phase].
      split; [lia|]. rewrite trace_none.
      * constructor. unfold initial_phase in Hi. destruct (reserve_start r) as [[]|]; by inversion Hi.
      * intros e Hin Heq. destruct (He e Hin) as [p Hlook]. rewrite Heq in Hlook. destruct (Hp _ _ Hlook). lia.
    + intros e Hin. destruct (decide (event_pid e = iw_next w)) as [-> | Hne]; [rewrite lookup_insert_eq; eauto|].
      rewrite lookup_insert_ne by done. by apply He.
  - intros pid p w ph evs t [Hp He] Hlook Hm. split.
    + intros q pq. rewrite settle_lookup. cbn [settle iw_log iw_next]. rewrite trace_of_app. destruct (N.eqb_spec q pid) as [->|Hne].
      * intros [= <-]. destruct (Hp _ _ Hlook) as [Hlt Htr]. split; [done|]. rewrite (trace_all pid evs) by (intros e He'; exact (move_pid _ _ _ _ _ _ _ Hm He')).
        exact (move_traced _ _ _ _ _ _ _ Hm Htr).
      * intros Hq. destruct (Hp _ _ Hq) as [Hlt Htr]. split; [done|]. rewrite (trace_none q evs), app_nil_r; [done|].
        intros e Hin Heq. apply Hne. rewrite <- Heq. exact (move_pid _ _ _ _ _ _ _ Hm Hin).
    + intros e. cbn [settle iw_log iw_procs]. rewrite elem_of_app. intros [Hin | Hin].
      * destruct (decide (event_pid e = pid)) as [-> | Hne]; [rewrite lookup_insert_eq; eauto|]. rewrite lookup_insert_ne by done. by apply He.
      * rewrite (move_pid _ _ _ _ _ _ _ Hm Hin), lookup_insert_eq. eauto.
Qed.

(** ** Who holds a row *)

Definition started (p : process) : Prop :=
  match pc_phase p with Free | Answered _ => True | _ => reserve_start (pc_request p) = Ok (Reserve (pc_scope p) (pc_fingerprint p)) end.

(** A row belongs to a process that reserved its scope; a completed one holds what
    was recorded for it. *)
Definition owned (w : iworld) (s : scope_key) (row : idem_row) : Prop :=
  exists pid p, iw_procs w !! pid = Some p /\ pc_scope p = s /\ ir_reservation row = uuid pid /\ ir_fingerprint row = pc_fingerprint p /\
    reserve_start (pc_request p) = Ok (Reserve s (pc_fingerprint p)) /\
    (ir_completed row = true -> exists r, Recorded pid s r ∈ iw_log w /\ ir_status row = Some (rp_status r) /\
       (handle pid (pc_request p) = Ok r \/ exists e, handle pid (pc_request p) = Err e /\ r = error_reply e) /\
       ir_body row = stored_payload (pc_request p) r /\ ir_headers row = safe_headers (rp_headers r) /\
       (ir_replay row = true -> is_Some (ir_body row))).
Definition rows_owned (w : iworld) : Prop :=
  (forall pid p, iw_procs w !! pid = Some p -> (pid < iw_next w)%N /\ started p) /\ forall s row, iw_table w !! s = Some row -> owned w s row.

Lemma owned_settle pid p t ph evs w s row : iw_procs w !! pid = Some p -> owned w s row -> owned (settle pid p t ph evs w) s row.
Proof.
  intros Hp (q & pq & Hq & Hs & Hres & Hfp & Hst & Hc). exists q, (if N.eqb q pid then with_phase ph p else pq).
  rewrite settle_lookup. split; [by destruct (N.eqb_spec q pid)|].
  assert (Hsame : forall A (f : process -> A), (forall x, f (with_phase ph x) = f x) -> f (if N.eqb q pid then with_phase ph p else pq) = f pq).
  { intros A f Hf. destruct (N.eqb_spec q pid) as [->|]; [|done]. rewrite Hf. congruence. }
  rewrite (Hsame _ pc_scope), (Hsame _ pc_fingerprint), (Hsame _ pc_request) by done. split_and!; [done..|].
  intros Hcomp. destruct (Hc Hcomp) as (r & Hin & Hrest). exists r. cbn. rewrite elem_of_app. auto.
Qed.

Lemma move_started pid p w ph evs t : move pid p w ph evs t -> started p -> started (with_phase ph p).
Proof.
  intros Hm Hst. unfold started in *. inversion Hm; subst; simpl;
    repeat (match goal with
    | [ E : pc_phase p = _ |- _ ] => rewrite E in Hst; clear E
    | [ E : exists _, _ |- _ ] => destruct E
    | [ E : _ \/ _ |- _ ] => destruct E
    | [ E : _ /\ _ |- _ ] => destruct E
    end; subst; try done).
Qed.

Hypothesis uuid_inj : forall n m, uuid n = uuid m -> n = m.

Lemma run_owned actions : rows_owned (run_requests actions empty_iworld).
Proof.
  apply run_invariant.
  - split; [intros ? ? E; cbn in E; by rewrite lookup_empty in E | intros ? ? E; cbn in E; by rewrite lookup_empty in E].
  - intros r w [Hp Hrow]. unfold arrive. destruct (initial_phase r) as [[scope fp] ph] eqn:Hi. split; cbn [iw_procs iw_next iw_log iw_table].
    + intros pid p. rewrite lookup_insert_Some. intros [[<- <-] | [_ Hlook]]; [|destruct (Hp _ _ Hlook); split; [lia | done]]. cbn [pc_scope pc_phase].
      split; [lia|]. unfold started. cbn. unfold initial_phase in Hi. destruct (reserve_start r) as [[]|]; by simplify_eq.
    + intros s row Hs. destruct (Hrow s row Hs) as (pid & p & Hlook & Hrest). exists pid, p. split; [|exact Hrest]. cbn.
      destruct (Hp _ _ Hlook). rewrite lookup_insert_ne; [done | lia].
  - intros pid p w ph evs t [Hp Hrow] Hlook Hm. pose proof (Hp _ _ Hlook) as [Hlt Hst]. split.
    + intros q pq. rewrite settle_lookup. cbn [settle iw_next]. destruct (N.eqb_spec q pid) as [->|Hne]; [|apply Hp]. intros [= <-].
      split; [done|]. by eapply move_started.
    + intros s row. cbn [iw_table settle]. intros Hs.
      assert (Hold : iw_table w !! s = Some row -> owned (settle pid p t ph evs w) s row) by (intros E; by apply owned_settle, Hrow).
      inversion Hm; subst; try (by apply Hold).
      * pose proof (reserve_row_lookup (pc_scope p) (uuid pid) (pc_fingerprint p) (idem_now w) (iw_table w) s) as Hl.
        destruct (reserve_row _ _ _ _ _) as [won t']. simpl in Hs. destruct Hl as [(_ & -> & Hr) | [_ Hr]]; rewrite Hr in Hs; [|by apply Hold].
        injection Hs as <-. exists pid, (with_phase ph p). rewrite settle_lookup, N.eqb_refl. unfold started in Hst. rewrite H2 in Hst. done.
      * destruct H3 as [-> | [scan ->]]; [by apply Hold|].
        destruct (purge_lookup scan (idem_now w) (iw_table w) s) as [Hr | [Hr _]]; rewrite Hr in Hs; [by apply Hold | done].
      * destruct H3 as [[-> ->] | (-> & Hh & ->)]; [by apply Hold|].
        destruct (release_lookup (pc_scope p) (uuid pid) (iw_table w) s) as [Hr | (_ & Hr & _)]; rewrite Hr in Hs; [by apply Hold | done].
      * destruct H6 as [[-> ->] | (-> & Hh & ->)]; [by apply Hold|].
        destruct (complete_lookup (pc_scope p) (uuid pid) (rp_status r) (stored_payload (pc_request p) r) (safe_headers (rp_headers r)) (iw_table w) s)
          as [Hr | (-> & old & Hr & Htok & Hnew)]; [rewrite Hr in Hs; by apply Hold|]. rewrite Hnew in Hs. injection Hs as <-. clear Hold.
        destruct (Hrow _ _ Hr) as (q & pq & Hq & Hsc & Hres & Hfp & Hstart & _). rewrite Hres in Htok. apply uuid_inj in Htok as ->.
        rewrite Hlook in Hq. injection Hq as <-. exists pid, (with_phase ph p). rewrite settle_lookup, N.eqb_refl. split_and!; [done..|].
        intros _. exists r. cbn. rewrite elem_of_app. split_and!; [right; by left | done..|]. by destruct (stored_payload _ _).
Qed.

(** ** Reservations of a key do not overlap *)

Hypothesis clock_mono : forall n m : N, (n <= m)%N -> (clock n <= clock m)%N.

Definition released_after (log : list idem_event) (i : nat) (pid : N) (s : scope_key) : Prop :=
  exists j, (i < j)%nat /\ log !! j = Some (Released pid s).

(** A reservation was released, or its lifetime is over, or its row stands. *)
Definition reservations_held (w : iworld) : Prop :=
  forall i pid s t, iw_log w !! i = Some (Won pid s t) ->
    released_after (iw_log w) i pid s \/ t + LIFETIME <= idem_now w \/
    exists row, iw_table w !! s = Some row /\ ir_reservation row = uuid pid /\ ir_expires row = t + LIFETIME.

Definition wins_separated (log : list idem_event) : Prop :=
  forall i j p q s t t', log !! i = Some (Won p s t) -> log !! j = Some (Won q s t') -> (i < j)%nat ->
    (exists k, (i < k < j)%nat /\ log !! k = Some (Released p s)) \/ t + LIFETIME <= t'.

Lemma released_after_app log evs i pid s : released_after log i pid s -> released_after (log ++ evs) i pid s.
Proof. intros (j & Hj & Hl). exists j. split; [done|]. by apply lookup_app_l_Some. Qed.

Lemma now_settle pid p t ph evs w : idem_now w <= idem_now (settle pid p t ph evs w).
Proof. unfold idem_now. cbn. pose proof (clock_mono (iw_tick w) (N.succ (iw_tick w)) ltac:(lia)). lia. Qed.

(** The reservations held survive a step that keeps their rows. *)
Lemma held_keep pid p t ph evs w i q s t0 :
  released_after (iw_log w) i q s \/ t0 + LIFETIME <= idem_now w \/
    (exists row, iw_table w !! s = Some row /\ ir_reservation row = uuid q /\ ir_expires row = t0 + LIFETIME) ->
  (forall row, iw_table w !! s = Some row -> ir_reservation row = uuid q -> ir_expires row = t0 + LIFETIME ->
     (exists row', t !! s = Some row' /\ ir_reservation row' = uuid q /\ ir_expires row' = t0 + LIFETIME) \/
     t0 + LIFETIME <= idem_now w \/ Released q s ∈ evs) ->
  (i < length (iw_log w))%nat ->
  released_after (iw_log (settle pid p t ph evs w)) i q s \/ t0 + LIFETIME <= idem_now (settle pid p t ph evs w) \/
    exists row, t !! s = Some row /\ ir_reservation row = uuid q /\ ir_expires row = t0 + LIFETIME.
Proof.
  intros Hheld Hrow Hi. pose proof (now_settle pid p t ph evs w) as Hnow. destruct Hheld as [Hrel | [Hexp | (row & Hl & Hr & He)]].
  - left. by apply released_after_app.
  - right; left. lia.
  - destruct (Hrow row Hl Hr He) as [Hk | [Hexp | Hev]]; [by right; right | right; left; lia | left].
    apply list_elem_of_lookup in Hev as [k Hk]. exists (length (iw_log w) + k)%nat. split; [lia|]. cbn.
    rewrite lookup_app_r by lia. by replace (length (iw_log w) + k - length (iw_log w))%nat with k by lia.
Qed.

Lemma move_row pid p w ph evs t s row q t0 :
  move pid p w ph evs t -> iw_table w !! s = Some row -> ir_reservation row = uuid q -> ir_expires row = t0 + LIFETIME ->
  (exists row', t !! s = Some row' /\ ir_reservation row' = uuid q /\ ir_expires row' = t0 + LIFETIME) \/
  t0 + LIFETIME <= idem_now w \/ Released q s ∈ evs.
Proof.
  intros Hm Hl Hr He. inversion Hm; subst; eauto.
  - unfold reserve_row in *. cbn in *. destruct (decide (s = pc_scope p)) as [->|Hne].
    + rewrite Hl in *. right; left. rewrite <- He. apply Z.leb_le. done.
    + left. exists row. destruct (match iw_table w !! pc_scope p with Some _ => _ | None => true end); by rewrite ?lookup_insert_ne.
  - destruct_or!; destruct_and?; subst; eauto. destruct H3 as [scan ->].
    destruct (purge_lookup scan (idem_now w) (iw_table w) s) as [Hk | (_ & row' & Hl' & Hexp)]; [left; rewrite Hk; eauto|].
    right; left. rewrite <- He. congruence.
  - destruct H3 as [[-> ->] | (-> & Hh & ->)]; [eauto|].
    destruct (release_lookup (pc_scope p) (uuid pid) (iw_table w) s) as [Hk | (-> & Hk & _)]; [left; rewrite Hk; eauto|].
    apply holds_spec in Hh as (row' & Hl' & Hres). right; right. assert (uuid q = uuid pid) as ->%uuid_inj by congruence. by left.
  - destruct H6 as [[-> ->] | (-> & Hh & ->)]; [eauto|].
    destruct (complete_lookup (pc_scope p) (uuid pid) (rp_status r) (stored_payload (pc_request p) r) (safe_headers (rp_headers r)) (iw_table w) s)
      as [Hk | (-> & old & Hk & Htok & Hnew)]; [left; rewrite Hk; eauto|]. left. rewrite Hnew. eexists. split; [done|]. cbn.
    split; congruence.
Qed.

Lemma move_events pid p w ph evs t : move pid p w ph evs t -> (length evs <= 1)%nat.
Proof. intros Hm. inversion Hm; subst; simpl; try lia; destruct_or!; destruct_and?; subst; simpl; lia. Qed.

Lemma move_won pid p w ph evs t q s t0 : move pid p w ph evs t -> Won q s t0 ∈ evs ->
  q = pid /\ s = pc_scope p /\ t0 = idem_now w /\ t !! s = Some (reserved_row (uuid pid) (pc_fingerprint p) t0) /\
  match iw_table w !! s with Some row => ir_expires row <= t0 | None => True end.
Proof.
  intros Hm He. inversion Hm; subst; try (by apply elem_of_nil in He); try (apply list_elem_of_singleton in He; simplify_eq).
  - split_and!; [done..| |].
    + unfold reserve_row in *. cbn in *. match goal with E : ?b = true |- context [if ?b then _ else _] => rewrite E end. by rewrite lookup_insert_eq.
    + unfold reserve_row in *. cbn in *. destruct (iw_table w !! pc_scope p); [by apply Z.leb_le | done].
  - destruct_or!; destruct_and?; subst; first [by apply elem_of_nil in He | by apply list_elem_of_singleton in He].
  - destruct_or!; destruct_and?; subst; first [by apply elem_of_nil in He | by apply list_elem_of_singleton in He].
Qed.

Lemma run_separated actions : let w := run_requests actions empty_iworld in reservations_held w /\ wins_separated (iw_log w).
Proof.
  apply (run_invariant (fun w => reservations_held w /\ wins_separated (iw_log w))).
  - split; [intros i pid s t E | intros i j p q s t t' E]; cbn in E; by rewrite lookup_nil in E.
  - intros r w Hw. unfold arrive. by destruct (initial_phase r) as [[? ?] ?].
  - intros pid p w ph evs t [Hheld Hsep] Hlook Hm. pose proof (move_events _ _ _ _ _ _ Hm) as Hlen. split.
    + intros i q s t0 Hi. cbn [iw_log settle] in Hi. apply lookup_app_Some in Hi as [Hi | [Hge Hi]].
      * apply held_keep; [by apply Hheld | intros row Hl Hr He; by eapply move_row | by eapply lookup_lt_Some].
      * right; right. apply list_elem_of_lookup_2 in Hi. destruct (move_won _ _ _ _ _ _ _ _ _ Hm Hi) as (-> & -> & -> & Hrow & _).
        cbn. eexists. split; [exact Hrow | done].
    + intros i j q q' s t0 t1 Hi Hj Hij. cbn [iw_log settle] in *. apply lookup_app_Some in Hj as [Hj | [Hge Hj]].
      * assert (Hi' : iw_log w !! i = Some (Won q s t0)).
        { rewrite lookup_app_l in Hi; [done|]. apply lookup_lt_Some in Hj. lia. }
        destruct (Hsep _ _ _ _ _ _ _ Hi' Hj Hij) as [(k & Hk & Hl) | Hle]; [left | by right]. exists k. split; [done|]. by apply lookup_app_l_Some.
      * pose proof (lookup_lt_Some _ _ _ Hj) as Hlt. assert (Hi' : iw_log w !! i = Some (Won q s t0)) by (rewrite lookup_app_l in Hi; [done | lia]).
        apply list_elem_of_lookup_2 in Hj. destruct (move_won _ _ _ _ _ _ _ _ _ Hm Hj) as (-> & -> & -> & _ & Hexp).
        destruct (Hheld _ _ _ _ Hi') as [(k & Hk & Hl) | [Hle | (row & Hl & _ & He)]].
        -- left. exists k. split; [split; [done|]; apply lookup_lt_Some in Hl; lia|]. by apply lookup_app_l_Some.
        -- by right.
        -- right. rewrite Hl in Hexp. lia.
Qed.

(** ** The order of the events of a process *)

Lemma trace_split log i e : log !! i = Some e ->
  trace_of (event_pid e) log = trace_of (event_pid e) (take i log) ++ e :: trace_of (event_pid e) (drop (S i) log).
Proof.
  intros Hi. rewrite <- (take_drop_middle log i e Hi) at 1. rewrite trace_of_app. f_equal.
  unfold trace_of at 1. simpl. by rewrite N.eqb_refl.
Qed.

Lemma trace_before pid log i e : e ∈ trace_of pid (take i log) -> exists k, (k < i)%nat /\ log !! k = Some e.
Proof.
  intros He. apply list_elem_of_In, List.filter_In in He as [He _]. apply list_elem_of_In, list_elem_of_lookup in He as [k Hk].
  pose proof (lookup_lt_Some _ _ _ Hk). rewrite lookup_take_Some in Hk. exists k. naive_solver lia.
Qed.

Lemma trace_member pid log i e : log !! i = Some e -> event_pid e = pid -> forall j, (i < j)%nat -> e ∈ trace_of pid (take j log).
Proof.
  intros Hi He j Hj. apply list_elem_of_In, List.filter_In. split; [|by apply N.eqb_eq].
  apply list_elem_of_In, (list_elem_of_lookup_2 _ i). by rewrite lookup_take_lt.
Qed.

Lemma dispatch_prefix w i pid s : processes_traced w -> iw_log w !! i = Some (Dispatched pid s) ->
  exists t, trace_of pid (take i (iw_log w)) = [Won pid s t].
Proof.
  intros [Hp He] Hi. destruct (He _ (list_elem_of_lookup_2 _ _ _ Hi)) as [p Hlook]. destruct (Hp _ _ Hlook) as [_ Htr].
  pose proof (trace_split _ _ _ Hi) as Hsp. cbn [event_pid] in *. rewrite Hsp in Htr.
  destruct (trace_of pid (take i (iw_log w))) as [|a [|b l]]; [inversion Htr; subst; done | inversion Htr; subst; eauto |].
  exfalso. inversion Htr; subst; try (by destruct l as [|? []]).
  match goal with E : replicate _ _ = _ |- _ => assert (Hin : Dispatched pid s ∈ replicate n (Released pid (pc_scope p))) by (rewrite E; apply elem_of_app; right; by left) end.
  by apply elem_of_replicate_inv in Hin.
Qed.

Lemma release_prefix w i pid s : processes_traced w -> iw_log w !! i = Some (Released pid s) ->
  exists k, (k < i)%nat /\ iw_log w !! k = Some (Dispatched pid s).
Proof.
  intros [Hp He] Hi. destruct (He _ (list_elem_of_lookup_2 _ _ _ Hi)) as [p Hlook]. destruct (Hp _ _ Hlook) as [_ Htr].
  pose proof (trace_split _ _ _ Hi) as Hsp. cbn [event_pid] in *. rewrite Hsp in Htr. apply (trace_before pid).
  destruct (trace_of pid (take i (iw_log w))) as [|a [|b l]]; [inversion Htr; subst; done | inversion Htr; subst; done |].
  inversion Htr; subst; [by destruct l as [|? []]..|].
  match goal with E : replicate _ _ = _ |- _ => assert (Hin : Released pid s ∈ replicate n (Released pid (pc_scope p))) by (rewrite E; apply elem_of_app; right; by left) end.
  apply elem_of_replicate_inv in Hin as [= ->]. right. by left.
Qed.

End steps.

(** C31: a key is dispatched at most once.  Whatever requests arrive and however their
    statements interleave, fail or lose their answers: when handlers were dispatched
    under the same tenant, principal and key twice, by [pid] and then by [pid'], these
    are two requests, each had stored a reservation of its own before, and either the
    owner of the first removed it before the second was stored - its handler had
    failed -, or the reservations were stored at least 24 hours apart. *)
Theorem dispatched_once `{!Platform, !NumberText, !HttpRuntime} (actions : list iaction) (i j : nat) (pid pid' : N) (s : scope_key) :
  (forall n m, uuid n = uuid m -> n = m) -> (forall n m : N, (n <= m)%N -> (clock n <= clock m)%N) ->
  let log := iw_log (run_requests actions empty_iworld) in
  log !! i = Some (Dispatched pid s) -> log !! j = Some (Dispatched pid' s) -> (i < j)%nat ->
  pid <> pid' /\ exists k k' t t', log !! k = Some (Won pid s t) /\ (k < i)%nat /\ log !! k' = Some (Won pid' s t') /\ (k' < j)%nat /\
    ((exists r, (i < r < k')%nat /\ log !! r = Some (Released pid s)) \/ LIFETIME <= Z.abs (t' - t)).
Proof.
  intros Huuid Hclock log Hi Hj Hij. pose proof (run_traced actions) as Htr. fold log in Htr.
  destruct (run_separated Huuid Hclock actions) as [_ Hsep]. fold log in Hsep.
  destruct (dispatch_prefix _ _ _ _ Htr Hi) as [t Hpi]. destruct (dispatch_prefix _ _ _ _ Htr Hj) as [t' Hpj].
  fold log in Hpi, Hpj. assert (Hne : pid <> pid').
  { intros <-. pose proof (trace_member pid log i _ Hi eq_refl j Hij) as Hin. rewrite Hpj in Hin. by apply list_elem_of_singleton in Hin. }
  split; [done|]. destruct (trace_before pid log i (Won pid s t)) as (k & Hk & Hwk); [rewrite Hpi; by left|].
  destruct (trace_before pid' log j (Won pid' s t')) as (k' & Hk' & Hwk'); [rewrite Hpj; by left|].
  exists k, k', t, t'. split_and!; [done..|]. destruct (Nat.lt_total k k') as [Hlt | [-> | Hlt]].
  - destruct (Hsep _ _ _ _ _ _ _ Hwk Hwk' Hlt) as [(r & Hr & Hrel) | Hle]; [|right; unfold LIFETIME in *; lia].
    left. exists r. split; [|done]. destruct (release_prefix _ _ _ _ Htr Hrel) as (m & Hm & Hd). fold log in Hd.
    split; [|lia]. destruct (Nat.lt_total i m) as [Him | [-> | Him]]; [lia | lia |].
    destruct (Nat.lt_total m i); [|lia]. exfalso. pose proof (trace_member pid log m _ Hd eq_refl i Him) as Hin.
    rewrite Hpi in Hin. by apply list_elem_of_singleton in Hin.
  - rewrite Hwk in Hwk'. congruence.
  - destruct (Hsep _ _ _ _ _ _ _ Hwk' Hwk Hlt) as [(r & Hr & Hrel) | Hle]; [|right; unfold LIFETIME in *; lia].
    exfalso. destruct (release_prefix _ _ _ _ Htr Hrel) as (m & Hm & Hd). fold log in Hd.
    assert (Hmj : (m < j)%nat) by lia. pose proof (trace_member pid' log m _ Hd eq_refl j Hmj) as Hin.
    rewrite Hpj in Hin. by apply list_elem_of_singleton in Hin.
Qed.

(** ** Replays *)

Definition replay_header : string := "X-Idempotency-Replayed".
Definition is_replay (a : answer) : Prop := an_headers a !! replay_header = Some "true".

Lemma stored_payload_some `{!NumberText, !HttpRuntime} r p b :
  stored_payload r p = Some b -> b = response_payload (rp_status p) (rp_body p) /\ containsCredential (rp_body p) = false.
Proof.
  unfold stored_payload. destruct (_ && _ && _) eqn:Hc; [|done]. intros [= <-]. split; [done|].
  apply andb_true_iff in Hc as [[_ Hc]%andb_true_iff _]. by apply negb_true_iff.
Qed.

Lemma response_payload_read `{!NumberText} status body : plain body \/ nullish body = true ->
  let b := response_payload status body in
  (if nonempty b then match json_parse b with Some v => Ok v | None => Err (plain_error "Unexpected token in JSON") end else Ok JNull)
  = Ok (if (status =? 204) || nullish body then JNull else body).
Proof.
  intros Hplain. unfold response_payload. destruct ((status =? 204) || nullish body) eqn:Hn; [done|].
  apply orb_false_iff in Hn as [_ Hn]. destruct Hplain as [Hplain|]; [|congruence]. cbn zeta.
  destruct (text_start body Hplain) as (c & cs & Hcs & _). rewrite json_parse_text by done.
  destruct (json_text body); [done|]. done.
Qed.

Lemma error_reply_plain e : plain (rp_body (error_reply e)).
Proof. unfold error_reply. cbn. repeat constructor; set_solver. Qed.

Lemma answer_of_row_replay `{!NumberText, !HttpRuntime} fp row a :
  answer_of_row fp row = Ok a -> is_replay a ->
  ir_fingerprint row = fp /\ ir_completed row = true /\ ir_replay row = true /\
  an_status a = default 0 (ir_status row) /\ an_headers a = <[replay_header := "true"]> (ir_headers row) /\
  match ir_body row with
  | Some b => (if nonempty b then match json_parse b with Some v => Ok v | None => Err (plain_error "Unexpected token in JSON") end else Ok JNull) = Ok (an_body a)
  | None => an_body a = JNull
  end.
Proof.
  unfold answer_of_row. destruct (String.eqb_spec (ir_fingerprint row) fp); simpl; [|intros [= <-]; done].
  destruct (ir_completed row); simpl; [|intros [= <-] E; unfold is_replay in E; cbn in E; by rewrite lookup_singleton_ne in E].
  destruct (ir_replay row); simpl; [|intros [= <-]; done]. intros (body & Hb & [= <-])%result_bind_ok _. cbn. split_and!; [done..|].
  destruct (ir_body row); [done | by injection Hb].
Qed.

(** C32: a replay is the response of the same request.  A request that is answered with
    a replay has the tenant, principal, key and fingerprint of a request whose
    response was recorded: it is given its status, its body, its safe headers and the
    mark, and that body holds no credential field. *)
Theorem replay_recorded `{!Platform, !NumberText, !HttpRuntime} (actions : list iaction) (pid' : N) (p' q : process) (attempt : nat) (a : answer) :
  (forall n m, uuid n = uuid m -> n = m) -> (forall n r p, handle n r = Ok p -> plain (rp_body p) \/ nullish (rp_body p) = true) ->
  let w := run_requests actions empty_iworld in
  iw_procs w !! pid' = Some p' -> pc_phase p' = Selecting attempt ->
  iw_procs (advance pid' w) !! pid' = Some q -> pc_phase q = Answered a -> is_replay a ->
  exists pid p r, iw_procs w !! pid = Some p /\ Recorded pid (pc_scope p') r ∈ iw_log w /\
    reserve_start (pc_request p) = reserve_start (pc_request p') /\
    (handle pid (pc_request p) = Ok r \/ exists e, handle pid (pc_request p) = Err e /\ r = error_reply e) /\
    a = mk_answer (rp_status r) (if (rp_status r =? 204) || nullish (rp_body r) then JNull else rp_body r)
          (<[replay_header := "true"]> (safe_headers (rp_headers r))) /\
    containsCredential (rp_body r) = false.
Proof.
  intros Huuid Hplain w Hp' Hsel Hq Hans Hrep. destruct (run_owned Huuid actions) as [Hst Hrows]. fold w in Hst, Hrows.
  unfold advance in Hq. rewrite Hp', Hsel in Hq. unfold select_step in Hq.
  destruct (statement_cases pid' p' (iw_table w) []
    (match live_row (pc_scope p') (idem_now w) (iw_table w) with
     | Some row => match answer_of_row (pc_fingerprint p') row with Ok a => Answered a | Err _ => Answered internal_error end
     | None => if (attempt =? 2)%nat then Answered in_progress_answer else Inserting (S attempt)
     end) (Answered internal_error) w) as (ph & t & evs & Heq & Hph & _).
  rewrite Heq, settle_lookup, N.eqb_refl in Hq. injection Hq as <-. cbn in Hans. subst ph.
  assert (Hnot : forall b, Answered a = Answered b -> b = internal_error \/ b = in_progress_answer -> False).
  { intros b [= ->] [-> | ->]; unfold is_replay in Hrep; cbn in Hrep; [by rewrite lookup_empty in Hrep | by rewrite lookup_singleton_ne in Hrep]. }
  destruct Hph as [Hph | Hph]; [|exfalso; eapply Hnot; eauto].
  destruct (live_row _ _ _) as [row|] eqn:Hlive; [|destruct (attempt =? 2)%nat; [exfalso; eapply Hnot; eauto | done]].
  destruct (answer_of_row _ row) as [b|] eqn:Hrow; [injection Hph as <- | exfalso; eapply Hnot; eauto].
  unfold live_row in Hlive. destruct (iw_table w !! pc_scope p') as [row'|] eqn:Hl; [|done]. cbn in Hlive.
  destruct (idem_now w <? ir_expires row'); [injection Hlive as -> | done].
  apply answer_of_row_replay in Hrow as (Hfp & Hcomp & Hav & Hstatus & Hhead & Hbody); [|done].
  destruct (Hrows _ _ Hl) as (pid & p & Hlook & Hsc & _ & Hfp2 & Hstart & Hrec).
  destruct (Hrec Hcomp) as (r & Hin & Hs & Hh & Hb & Hhd & Hsome). exists pid, p, r.
  destruct (Hsome Hav) as [payload Hpay]. rewrite Hpay in Hb, Hbody. symmetry in Hb. apply stored_payload_some in Hb as [-> Hcred].
  destruct (Hst _ _ Hp') as [_ Hstp]. unfold started in Hstp. rewrite Hsel in Hstp. rewrite Hstart, Hstp.
  assert (Hpl : plain (rp_body r) \/ nullish (rp_body r) = true).
  { destruct Hh as [Hh | (e & _ & ->)]; [by eapply Hplain | left; apply error_reply_plain]. }
  rewrite (response_payload_read (rp_status r) (rp_body r) Hpl) in Hbody. injection Hbody as Hbody.
  split_and!; [done | done | congruence | done | | done].
  destruct a as [st bd hd]. cbn in *. rewrite Hhead, Hhd, Hstatus, Hs, Hbody. done.
Qed.

(** ** Every request is answered *)

Definition steps_left (ph : phase) : nat :=
  match ph with
  | Inserting n => 2 * (2 - n) + 5
  | Selecting n => 2 * (2 - n) + 4
  | Purging => 3
  | Running => 2
  | Releasing _ | Free => 1
  | Answered _ => 0
  end.

(** The attempt of a process is one of three. *)
Definition attempt_ok (ph : phase) : Prop := match ph with Inserting n | Selecting n => (n <= 2)%nat | _ => True end.

#[export] Instance iaction_advance_dec (a : iaction) (pid : N) : Decision (a = Advance pid).
Proof. destruct a as [|q]; [by right|]. destruct (decide (q = pid)) as [->|]; [by left | right; congruence]. Defined.

Section progress.
Context `{!Platform, !NumberText, !HttpRuntime}.

Lemma move_progress pid p w ph evs t : move pid p w ph evs t -> attempt_ok (pc_phase p) ->
  attempt_ok ph /\ (steps_left ph < steps_left (pc_phase p))%nat.
Proof.
  intros Hm Hok. inversion Hm; subst;
    repeat (match goal with
    | [ E : pc_phase p = _ |- _ ] => rewrite E in *; clear E
    | [ E : exists _, _ |- _ ] => destruct E
    | [ E : _ \/ _ |- _ ] => destruct E
    | [ E : _ /\ _ |- _ ] => destruct E
    end; subst); cbn [steps_left attempt_ok] in *; (split; [done || lia | lia]).
Qed.

(** A step of another process, or an arrival, leaves a process alone. *)
Lemma act_on_other pid p a w : processes_traced w -> iw_procs w !! pid = Some p -> a <> Advance pid -> iw_procs (act_on a w) !! pid = Some p.
Proof.
  intros [Hp _] Hlook Hne. destruct a as [r|q]; simpl.
  - unfold arrive. destruct (initial_phase r) as [[? ?] ?]. cbn. destruct (Hp _ _ Hlook) as [Hlt _]. rewrite lookup_insert_ne; [done | lia].
  - destruct (iw_procs w !! q) as [pq|] eqn:Hq; [|unfold advance; by rewrite Hq].
    destruct (pc_phase pq) eqn:Hph;
      try (destruct (advance_move q pq w Hq) as (ph & evs & t & -> & Hm); [by rewrite Hph | rewrite settle_lookup; by destruct (N.eqb_spec pid q) as [->|]]).
    by rewrite (advance_answered q pq w _ Hq Hph).
Qed.

Definition own_steps (pid : N) (actions : list iaction) : nat :=
  length (List.filter (fun a => match a with Advance q => N.eqb q pid | _ => false end) actions).

(** The steps of a process bring its end nearer. *)
Lemma run_progress pid actions before p :
  let w := run_requests before empty_iworld in
  iw_procs w !! pid = Some p -> attempt_ok (pc_phase p) ->
  exists q, iw_procs (run_requests actions w) !! pid = Some q /\ (steps_left (pc_phase q) <= steps_left (pc_phase p) - own_steps pid actions)%nat.
Proof.
  revert before p. induction actions as [|a actions IH]; intros before p w Hp Hok; [exists p; split; [exact Hp | unfold own_steps; cbn [List.filter length]; lia]|].
  assert (Hnext : forall p', iw_procs (act_on a w) !! pid = Some p' -> attempt_ok (pc_phase p') ->
    exists q, iw_procs (run_requests (a :: actions) w) !! pid = Some q /\ (steps_left (pc_phase q) <= steps_left (pc_phase p') - own_steps pid actions)%nat).
  { intros p' Hp' Hok'. specialize (IH (before ++ [a]) p'). unfold run_requests in IH at 1 2. rewrite foldl_app in IH. by apply IH. }
  destruct (decide (a = Advance pid)) as [-> | Hne].
  - assert (Hsteps : own_steps pid (Advance pid :: actions) = S (own_steps pid actions)) by (unfold own_steps; cbn; by rewrite N.eqb_refl).
    destruct (pc_phase p) eqn:Hph;
      try (destruct (advance_move pid p w Hp) as (ph & evs & t & Hadv & Hm); [by rewrite Hph|];
           destruct (move_progress _ _ _ _ _ _ Hm ltac:(by rewrite Hph)) as [Hok' Hlt]; rewrite Hph in Hlt;
           destruct (Hnext (with_phase ph p)) as (q & Hq & Hle); [simpl; rewrite Hadv, settle_lookup; by rewrite N.eqb_refl | exact Hok' |];
           exists q; split; [exact Hq|]; cbn [with_phase pc_phase] in Hle; rewrite Hsteps; lia).
    destruct (Hnext p) as (q & Hq & Hle); [simpl; by rewrite (advance_answered pid p w _ Hp Hph) | by rewrite Hph|].
    exists q. split; [exact Hq|]. rewrite Hph in Hle. cbn [steps_left] in *. lia.
  - destruct (Hnext p) as (q & Hq & Hle); [by apply act_on_other; [apply run_traced|..] | done|]. exists q. split; [exact Hq|].
    assert (own_steps pid (a :: actions) = own_steps pid actions) as ->; [|done]. unfold own_steps. cbn. destruct a as [|q']; [done|].
    destruct (N.eqb_spec q' pid) as [->|]; [done | done].
Qed.

End progress.

(** C33: every request is answered.  A request that has arrived has its answer after
    nine steps of its own, whatever other requests do in between, whichever
    statements fail and however often its key is taken and released again. *)
Theorem request_answered `{!Platform, !NumberText, !HttpRuntime} (before after : list iaction) (r : keyed_request) :
  let w := run_requests before empty_iworld in
  (9 <= own_steps (iw_next w) after)%nat ->
  exists p a, iw_procs (run_requests (before ++ Arrive r :: after) empty_iworld) !! iw_next w = Some p /\ pc_phase p = Answered a.
Proof.
  intros w Hsteps. destruct (initial_phase r) as [[scope fp] ph] eqn:Hi.
  assert (Hph : attempt_ok ph /\ (steps_left ph <= 9)%nat).
  { unfold initial_phase in Hi. destruct (reserve_start r) as [[]|]; simplify_eq; simpl; lia. }
  pose proof (run_progress (iw_next w) after (before ++ [Arrive r]) (mk_process r scope fp ph)) as Hrun.
  assert (Harr : run_requests (before ++ [Arrive r]) empty_iworld = arrive r w) by (unfold run_requests; by rewrite foldl_app).
  rewrite Harr in Hrun. destruct Hrun as (q & Hq & Hle); [unfold arrive; rewrite Hi; cbn; by rewrite lookup_insert_eq | tauto |].
  exists q. replace (run_requests (before ++ Arrive r :: after) empty_iworld) with (run_requests after (arrive r w)).
  - cbn [pc_phase] in Hle. destruct (pc_phase q) as [| | | | | |a]; cbn [steps_left] in Hle; try lia. by exists a.
  - unfold run_requests. by rewrite foldl_app.
Qed.

(** ** Examples *)

#[local] Instance sample_idem_platform : Platform := {| clock := fun n => (1000 * n)%N; uuid := show_N; broker := fun _ => None |}.
#[local] Instance sample_idem_numbers : NumberText := {| fraction_text := fun _ => "" |}.
(** The first request fails, the others succeed. *)
#[local] Instance sample_idem_runtime : HttpRuntime := {|
  url_target := fun url => Some (url, "");
  sha256_hex := fun text => text;
  statement_fate := fun _ => Performed;
  scan_order := fun _ => [];
  handle := fun pid r => Ok (if N.eqb pid 0 then mk_reply 500 JNull [] else mk_reply 201 (JObj [("id", jint (Z.of_N pid))]) [("ETag", "v1")])
|}.
Definition sample_keyed : keyed_request :=
  mk_keyed_request "POST" (Some "order-0001") "/v1/tenants" "{}" (Some (mk_http_identity (Some "acme") (Some "user-1") None None)) None None
    (mk_http_route false false false false false false false) JUndef.
Definition sample_scope : scope_key := ("acme", "subject:user-1", "order-0001").
Definition sample_idem_run : list iaction :=
  [Arrive sample_keyed; Advance 0; Advance 0; Advance 0; Arrive sample_keyed; Advance 1; Advance 1; Arrive sample_keyed; Advance 1; Advance 2].

Example sample_idem_log : iw_log (run_requests sample_idem_run empty_iworld) =
  [Won 0 sample_scope 0; Dispatched 0 sample_scope; Released 0 sample_scope; Won 1 sample_scope 3000; Dispatched 1 sample_scope;
   Recorded 1 sample_scope (mk_reply 201 (JObj [("id", jint 1)]) [("ETag", "v1")])].
Proof. vm_compute. reflexivity. Qed.

Lemma sample_uuid_inj : forall n m : N, uuid n = uuid m -> n = m.
Proof. intros n m. apply pretty.pretty_N_inj. Qed.

Lemma dispatched_once_witness :
  (0 <> 1)%N /\ exists k k' t t', iw_log (run_requests sample_idem_run empty_iworld) !! k = Some (Won 0 sample_scope t) /\ (k < 1)%nat /\
    iw_log (run_requests sample_idem_run empty_iworld) !! k' = Some (Won 1 sample_scope t') /\ (k' < 4)%nat /\
    ((exists r, (1 < r < k')%nat /\ iw_log (run_requests sample_idem_run empty_iworld) !! r = Some (Released 0 sample_scope)) \/ LIFETIME <= Z.abs (t' - t)).
Proof.
  apply (dispatched_once sample_idem_run 1 4 0 1 sample_scope sample_uuid_inj).
  - intros n m Hnm. simpl. lia.
  - rewrite sample_idem_log. reflexivity.
  - rewrite sample_idem_log. reflexivity.
  - lia.
Defined.

Definition sample_replay : answer := mk_answer 201 (JObj [("id", jint 1)]) (<[replay_header := "true"]> {[ "etag" := "v1" ]}).

Lemma replay_recorded_witness :
  exists pid p r, iw_procs (run_requests sample_idem_run empty_iworld) !! pid = Some p /\
    Recorded pid sample_scope r ∈ iw_log (run_requests sample_idem_run empty_iworld) /\
    reserve_start (pc_request p) = reserve_start sample_keyed /\
    (handle pid (pc_request p) = Ok r \/ exists e, handle pid (pc_request p) = Err e /\ r = error_reply e) /\
    sample_replay = mk_answer (rp_status r) (if (rp_status r =? 204) || nullish (rp_body r) then JNull else rp_body r)
      (<[replay_header := "true"]> (safe_headers (rp_headers r))) /\
    containsCredential (rp_body r) = false.
Proof.
  pose (p' := mk_process sample_keyed sample_scope ("POST" +:+ newline +:+ "/v1/tenants" +:+ newline +:+ "{}")).
  apply (replay_recorded sample_idem_run 2 (p' (Selecting 0)) (p' (Answered sample_replay)) 0 sample_replay sample_uuid_inj).
  - intros n r p [= <-]. left. destruct (N.eqb n 0); simpl; [done|]. split; [|done]. constructor; [set_solver | constructor].
  - vm_compute. reflexivity.
  - reflexivity.
  - vm_compute. reflexivity.
  - reflexivity.
  - vm_compute. reflexivity.
Defined.

Lemma request_answered_witness :
  exists p a, iw_procs (run_requests ([] ++ Arrive sample_keyed :: replicate 9 (Advance 0)) empty_iworld) !! 0%N = Some p /\ pc_phase p = Answered a.
Proof. apply (request_answered [] (replicate 9 (Advance 0)) sample_keyed). vm_compute. lia. Defined.
