(* ===== verification/SaRevocation.v ===== *)
(** * Revoked service-account tokens

    apps/control-plane [sa-revocation.mjs] and the statements of [tenant-store.mjs]
    on [service_accounts]: the check that rejects a token of a revoked or rotated
    credential, with its cache per realm and client.  A revocation takes effect for
    every later check within the lifetime of a cache entry. *)
From S2P Require Import Prelude JsValue Platform.
From stdpp Require Import sorting.
From Stdlib Require Import Ascii.
Local Open Scope Z_scope.

(** What the verifier says about the issuer of a token. *)
Inductive trust := LegacyTrust | PlatformTrust | TenantTrust (realm : string).
#[export] Instance trust_eq_dec : EqDecision trust.
Proof. solve_decision. Defined.

(** ** Rows *)

Record sa_row := mk_sa_row {
  sa_id : string;
  sa_iam_realm : string;
  sa_kc_client_id : string;
  sa_status : string;
  sa_created_at : Z;
  sa_credentials_invalidated_at : option Z
}.

(** What the auth path reads of a row. *)
Definition auth_state : Type := string * option Z.
Definition auth_state_of (r : sa_row) : auth_state := (sa_status r, sa_credentials_invalidated_at r).

Definition newest (a b : sa_row) : Prop := sa_created_at b <= sa_created_at a.
#[local] Instance newest_dec : RelDecision newest.
Proof. intros a b. unfold newest. apply _. Defined.

Definition same_account (realm client : string) (r : sa_row) : bool :=
  String.eqb (sa_kc_client_id r) client && String.eqb (sa_iam_realm r) realm.

(** [getServiceAccountAuthStateByClientId] *)
Definition getServiceAccountAuthStateByClientId (client realm : string) (rows : list sa_row) : option auth_state :=
  auth_state_of <$> head (merge_sort newest (List.filter (same_account realm client) rows)).

Definition on_account (id : string) (f : sa_row -> sa_row) (rows : list sa_row) : list sa_row :=
  (fun r => if String.eqb (sa_id r) id then f r else r) <$> rows.

Definition with_sa_status (status : string) (r : sa_row) : sa_row :=
  mk_sa_row (sa_id r) (sa_iam_realm r) (sa_kc_client_id r) status (sa_created_at r) (sa_credentials_invalidated_at r).
Definition with_cutoff (cutoff : Z) (r : sa_row) : sa_row :=
  mk_sa_row (sa_id r) (sa_iam_realm r) (sa_kc_client_id r) (sa_status r) (sa_created_at r) (Some cutoff).

Definition setServiceAccountStatus (id status : string) : list sa_row -> list sa_row := on_account id (with_sa_status status).

(** [GREATEST(COALESCE(credentials_invalidated_at, NOW()), NOW())] *)
Definition markServiceAccountCredentialsInvalidated (id : string) (now : Z) : list sa_row -> list sa_row :=
  on_account id (fun r => with_cutoff (Z.max (default now (sa_credentials_invalidated_at r)) now) r).
(** [GREATEST(COALESCE(credentials_invalidated_at, NOW()), NOW(), cutoff)] *)
Definition markServiceAccountCredentialsInvalidatedUntil (id : string) (now cutoff : Z) : list sa_row -> list sa_row :=
  on_account id (fun r => with_cutoff (Z.max (Z.max (default now (sa_credentials_invalidated_at r)) now) cutoff) r).
(** [GREATEST(COALESCE(credentials_invalidated_at, NOW()), clock_timestamp() + leadSec)];
    [live] is what [clock_timestamp()] gives. *)
Definition markServiceAccountCredentialsInvalidatedAhead (id : string) (now live leadSec : Z) : list sa_row -> list sa_row :=
  on_account id (fun r => with_cutoff (Z.max (default now (sa_credentials_invalidated_at r)) (live + leadSec * 1000)) r).

(** [insertServiceAccount]: the primary key and the unique index on realm and client. *)
Definition insertServiceAccount (r : sa_row) (rows : list sa_row) : list sa_row :=
  if existsb (fun x => String.eqb (sa_id x) (sa_id r) || same_account (sa_iam_realm r) (sa_kc_client_id r) x) rows then rows
  else rows ++ [mk_sa_row (sa_id r) (sa_iam_realm r) (sa_kc_client_id r) "active" (sa_created_at r) None].

Definition deleteServiceAccount (id : string) : list sa_row -> list sa_row := List.filter (fun r => negb (String.eqb (sa_id r) id)).

(** ** The decision *)

(** [clientIdFromClaims]; the claims are an object. *)
Definition clientIdFromClaims (claims : jsval) : option string :=
  match coalesce (coalesce (js_get claims "azp") (js_get claims "clientId")) (js_get claims "client_id") with
  | JStr c => if nonempty c then Some c else None
  | _ => None
  end.

Definition isServiceAccountClientId (clientId : option string) : bool :=
  match clientId with Some c => starts_with "sa-" c | None => false end.

(** [realmFromIssuer] *)
Definition realmFromIssuer (iss : jsval) (realmsBase platformRealm : option string) : option string :=
  match iss, realmsBase with
  | JStr i, Some base =>
      if nonempty base && starts_with base i then
        let realm := of_chars (drop (length (chars base)) (chars i)) in
        if negb (nonempty realm) || includes "/" realm || bool_decide (Some realm = platformRealm) then None else Some realm
      else None
  | _, _ => None
  end.

(** [isTokenRevokedForRow] *)
Definition isTokenRevokedForRow (row : option auth_state) (iatSec : option jsnum) (skewSec : Z) : bool :=
  match row with
  | None => false
  | Some (status, cutoff) =>
      if String.eqb status "revoked" then true
      else match cutoff with
           | None => false
           | Some cutoffMs =>
               match iatSec with
               | Some iat => if num_is_finite iat then num_ltb iat (NInt (cutoffMs / 1000 - skewSec)) else true
               | None => true
               end
           end
  end.

(** ** The check *)

Record sa_config := mk_sa_config {
  sc_cacheMs : Z;
  sc_skewSec : Z;
  sc_realmsBase : option string;
  sc_platformRealm : option string
}.

(** Whether the [n]-th query of the check fails. *)
Class SaStore := { query_fails : N -> bool }.

Record sa_state := mk_sa_state {
  ss_rows : list sa_row;
  ss_cache : gmap string (Z * option auth_state);
  ss_queries : N
}.

(** [`${realm}\n${clientId}`] *)
Definition cache_key (realm client : string) : string := realm +:+ String (ascii_of_N 10) client.

Section check.
Context `{!Platform, !SaStore} (cfg : sa_config).
Local Notation act := (M (world sa_state unit) js_error).

Definition sa_now : act Z := now_ms ≫= fun n : N => mret (Z.of_N n).

(** The entry that may answer; the clock is read only for an entry that exists. *)
Definition cached (key : string) : act (option (option auth_state)) :=
  query_db (fun s => ss_cache s !! key) ≫= fun hit =>
  match hit with
  | Some (at_, row) => if 0 <? sc_cacheMs cfg then sa_now ≫= fun now => mret (if now - at_ <? sc_cacheMs cfg then Some row else None) else mret None
  | None => mret None
  end.

Definition query_account (realm client : string) : act (option auth_state) :=
  exec_db (fun s => (ss_queries s, mk_sa_state (ss_rows s) (ss_cache s) (N.succ (ss_queries s)))) ≫= fun n =>
  if query_fails n then throw (plain_error "query failed")
  else query_db (fun s => getServiceAccountAuthStateByClientId client realm (ss_rows s)).

Definition lookup_account (realm client : string) : act (option auth_state) :=
  let key := cache_key realm client in
  cached key ≫= fun hit =>
  match hit with
  | Some row => mret row
  | None =>
      query_account realm client ≫= fun row =>
      (if 0 <? sc_cacheMs cfg
       then sa_now ≫= fun now => exec_db (fun s => (tt, mk_sa_state (ss_rows s) (<[key := (now, row)]> (ss_cache s)) (ss_queries s)))
       else mret tt) ≫= fun _ =>
      mret row
  end.

(** The realm the token is looked up in. *)
Definition token_realm (claims : jsval) (verifiedTrust : option trust) : option string :=
  match verifiedTrust with
  | Some (TenantTrust realm) => if nonempty realm then Some realm else None
  | Some _ => None
  | None => realmFromIssuer (js_get claims "iss") (sc_realmsBase cfg) (sc_platformRealm cfg)
  end.

Definition iat_of (claims : jsval) : option jsnum := match js_get claims "iat" with JNum n => Some n | _ => None end.

Definition revocationCheck (claims : jsval) (verifiedTrust : option trust) : act bool :=
  match clientIdFromClaims claims with
  | Some client =>
      if starts_with "sa-" client then
        match token_realm claims verifiedTrust with
        | None => mret true
        | Some realm =>
            try_catch (lookup_account realm client ≫= fun row => mret (isTokenRevokedForRow row (iat_of claims) (sc_skewSec cfg)))
              (fun _ => mret true)
        end
      else mret false
  | None => mret false
  end.

(** ** Requests that touch the accounts *)

Inductive sa_request :=
| CheckToken (claims : jsval) (verifiedTrust : option trust)
| InsertAccount (r : sa_row)
| RevokeAccount (id : string)
| InvalidateAccount (id : string) (now : Z)
| InvalidateUntil (id : string) (now cutoff : Z)
| InvalidateAhead (id : string) (now live leadSec : Z)
| DeleteAccount (id : string).

Definition on_rows (f : list sa_row -> list sa_row) : act bool :=
  exec_db (fun s => (false, mk_sa_state (f (ss_rows s)) (ss_cache s) (ss_queries s))).

(** Only [revoked] is ever written as a status after the insertion. *)
Definition serve_sa (r : sa_request) : act bool :=
  match r with
  | CheckToken claims t => revocationCheck claims t
  | InsertAccount row => on_rows (insertServiceAccount row)
  | RevokeAccount id => on_rows (setServiceAccountStatus id "revoked")
  | InvalidateAccount id now => on_rows (markServiceAccountCredentialsInvalidated id now)
  | InvalidateUntil id now cutoff => on_rows (markServiceAccountCredentialsInvalidatedUntil id now cutoff)
  | InvalidateAhead id now live lead => on_rows (markServiceAccountCredentialsInvalidatedAhead id now live lead)
  | DeleteAccount id => on_rows (deleteServiceAccount id)
  end.

Fixpoint run_sa (rs : list sa_request) (w : world sa_state unit) : world sa_state unit :=
  match rs with
  | [] => w
  | r :: rs' => run_sa rs' (snd (serve_sa r w))
  end.

End check.

(** ** Rows of an account *)

Lemma filter_fmap_same {A} (p : A -> bool) (g : A -> A) l :
  (forall x, p (g x) = p x) -> List.filter p (g <$> l) = g <$> List.filter p l.
Proof. intros Hp. induction l as [|x l IH]; [done|]. cbn. rewrite Hp. destruct (p x); cbn; by rewrite <- IH. Qed.

Lemma select_single client realm rows r :
  List.filter (same_account realm client) rows = [r] -> getServiceAccountAuthStateByClientId client realm rows = Some (auth_state_of r).
Proof. unfold getServiceAccountAuthStateByClientId. by intros ->. Qed.

Definition accounts_unique (rows : list sa_row) : Prop :=
  forall realm client, (length (List.filter (same_account realm client) rows) <= 1)%nat.

(** An update that leaves the identity of a row alone. *)
Definition same_identity (f : sa_row -> sa_row) : Prop :=
  forall r, sa_id (f r) = sa_id r /\ sa_kc_client_id (f r) = sa_kc_client_id r /\ sa_iam_realm (f r) = sa_iam_realm r.

Lemma on_account_filter id f realm client rows :
  same_identity f -> List.filter (same_account realm client) (on_account id f rows)
    = on_account id f (List.filter (same_account realm client) rows).
Proof.
  intros Hf. unfold on_account. apply filter_fmap_same. intros r. destruct (String.eqb (sa_id r) id); [|done].
  destruct (Hf r) as (_ & Hc & Hr). unfold same_account. by rewrite Hc, Hr.
Qed.

Lemma on_account_unique id f rows : same_identity f -> accounts_unique rows -> accounts_unique (on_account id f rows).
Proof. intros Hf Hu realm client. rewrite on_account_filter by done. unfold on_account. rewrite length_fmap. apply Hu. Qed.

Lemma insert_unique r rows : accounts_unique rows -> accounts_unique (insertServiceAccount r rows).
Proof.
  intros Hu realm client. unfold insertServiceAccount. destruct (existsb _ rows) eqn:He; [apply Hu|].
  rewrite List.filter_app, length_app. cbn. specialize (Hu realm client).
  destruct (same_account realm client _) eqn:Hs; [|simpl; lia].
  enough (List.filter (same_account realm client) rows = []) as -> by (simpl; lia).
  rewrite <- not_true_iff_false, existsb_exists in He. clear Hu.
  unfold same_account in Hs. cbn in Hs. apply andb_true_iff in Hs as [<-%String.eqb_eq <-%String.eqb_eq].
  induction rows as [|x rows IH]; [done|]. cbn. destruct (same_account _ _ x) eqn:Hx.
  - exfalso. apply He. exists x. split; [by left|]. by rewrite Hx, orb_true_r.
  - apply IH. intros (y & Hy & Hp). apply He. exists y. split; [by right | done].
Qed.

Lemma insert_filter r rows realm client x :
  List.filter (same_account realm client) rows = [x] -> List.filter (same_account realm client) (insertServiceAccount r rows) = [x].
Proof.
  intros Hx. unfold insertServiceAccount. destruct (existsb _ rows) eqn:He; [done|].
  rewrite List.filter_app, Hx. cbn. destruct (same_account realm client _) eqn:Hs; [|done].
  rewrite <- not_true_iff_false, existsb_exists in He. exfalso. apply He. exists x.
  assert (Hin : In x (List.filter (same_account realm client) rows)) by (rewrite Hx; by left). apply List.filter_In in Hin as [Hin Hsx].
  split; [done|]. unfold same_account in Hs. cbn in Hs. apply andb_true_iff in Hs as [<-%String.eqb_eq <-%String.eqb_eq].
  by rewrite Hsx, orb_true_r.
Qed.

Lemma delete_filter id rows realm client :
  List.filter (same_account realm client) (deleteServiceAccount id rows) = deleteServiceAccount id (List.filter (same_account realm client) rows).
Proof.
  unfold deleteServiceAccount. induction rows as [|x rows IH]; [done|]. cbn. destruct (negb _) eqn:Hd, (same_account realm client x) eqn:Hs; cbn; rewrite ?Hs, ?Hd; by rewrite IH.
Qed.

Lemma filter_length_le {A} (p : A -> bool) l : (length (List.filter p l) <= length l)%nat.
Proof. induction l as [|x l IH]; [done|]. cbn. destruct (p x); cbn; lia. Qed.

Lemma delete_unique id rows : accounts_unique rows -> accounts_unique (deleteServiceAccount id rows).
Proof. intros Hu realm client. rewrite delete_filter. etrans; [apply filter_length_le | apply Hu]. Qed.

Lemma num_ltb_mono n a b : a <= b -> num_ltb n (NInt a) = true -> num_ltb n (NInt b) = true.
Proof.
  intros Hab. unfold num_ltb. destruct n as [z|p| |[]]; cbn; try done.
  - rewrite !negb_true_iff, !Z.leb_gt. lia.
  - rewrite !negb_true_iff. intros Hn. apply not_true_iff_false. intros Ht. apply not_true_iff_false in Hn. apply Hn.
    apply Qle_bool_iff. apply Qle_bool_iff in Ht. eapply Qle_trans; [|exact Ht]. rewrite <- Zle_Qle. lia.
Qed.

(** An update that never lifts a revocation. *)
Definition keeps_revoked (f : sa_row -> sa_row) : Prop :=
  forall r iat skew, isTokenRevokedForRow (Some (auth_state_of r)) iat skew = true -> isTokenRevokedForRow (Some (auth_state_of (f r))) iat skew = true.

Lemma revoke_keeps : keeps_revoked (with_sa_status "revoked").
Proof. intros r iat skew _. done. Qed.

Lemma cutoff_keeps (cut : sa_row -> Z) :
  (forall r c, sa_credentials_invalidated_at r = Some c -> c <= cut r) -> keeps_revoked (fun r => with_cutoff (cut r) r).
Proof.
  intros Hcut r iat skew. unfold isTokenRevokedForRow, auth_state_of. cbn.
  destruct (String.eqb (sa_status r) "revoked"); [done|].
  destruct (sa_credentials_invalidated_at r) as [c|] eqn:Hc; [|done]. specialize (Hcut r c Hc).
  destruct iat as [iat|]; [|done]. destruct (num_is_finite iat); [|done]. apply num_ltb_mono.
  pose proof (Z.div_le_mono c (cut r) 1000 ltac:(lia) Hcut). lia.
Qed.

(** ** A revocation takes effect *)

Definition no_newline (s : string) : Prop := ascii_of_N 10 ∉ chars s.

Lemma cache_key_inj r c r' c' : no_newline r -> no_newline r' -> cache_key r c = cache_key r' c' -> r = r' /\ c = c'.
Proof.
  intros Hr Hr' Heq. apply (f_equal chars) in Heq. unfold cache_key in Heq. rewrite !chars_app in Heq.
  assert (Hsplit : forall (a a' : list ascii) (b b' : list ascii) x, x ∉ a -> x ∉ a' -> a ++ x :: b = a' ++ x :: b' -> a = a' /\ b = b').
  { clear. induction a as [|y a IH]; intros [|y' a'] b b' x Ha Ha' E; simplify_eq/=; try done; try (exfalso; set_solver).
    destruct (IH a' b b' x) as [-> ->]; set_solver. }
  destruct (Hsplit (chars r) (chars r') (chars c) (chars c') (ascii_of_N 10) Hr Hr' Heq) as [E1 E2].
  split; [rewrite <- (of_chars_chars r), <- (of_chars_chars r') | rewrite <- (of_chars_chars c), <- (of_chars_chars c')]; congruence.
Qed.

Section propagation.
Context `{!Platform, !SaStore} (cfg : sa_config).
Context (clock_monotone : forall n m : N, (n <= m)%N -> (clock n <= clock m)%N).

Definition empty_accounts : world sa_state unit := mk_world (mk_sa_state [] ∅ 0) 0 0 0 [].

(** Checks look accounts up in realms without a line break: the verifier gives no other. *)
Definition clean_request (r : sa_request) : Prop :=
  match r with CheckToken claims t => match token_realm cfg claims t with Some realm => no_newline realm | None => True end | _ => True end.

Definition reading (k : N) : Z := Z.of_N (clock k).

(** Entries are not from the future, and each account has one row. *)
Definition sound_cache (w : world sa_state unit) : Prop :=
  accounts_unique (ss_rows (w_db w)) /\
  forall key at_ row, ss_cache (w_db w) !! key = Some (at_, row) -> at_ <= reading (w_tick w).

(** What a check may do: read the clock, count a query, and cache what it read. *)
Definition checked (realm client : string) (w w' : world sa_state unit) : Prop :=
  (w_tick w <= w_tick w')%N /\ ss_rows (w_db w') = ss_rows (w_db w) /\
  (ss_cache (w_db w') = ss_cache (w_db w) \/
   exists k, (k < w_tick w')%N /\ ss_cache (w_db w')
     = <[cache_key realm client := (reading k, getServiceAccountAuthStateByClientId client realm (ss_rows (w_db w)))]> (ss_cache (w_db w))).

Lemma lookup_checked realm client w :
  let '(r, w') := lookup_account cfg realm client w in checked realm client w w' /\
  (forall row, r = Ok row ->
     row = getServiceAccountAuthStateByClientId client realm (ss_rows (w_db w)) \/
     exists at_, ss_cache (w_db w) !! cache_key realm client = Some (at_, row) /\ reading (w_tick w) - at_ < sc_cacheMs cfg).
Proof.
  unfold lookup_account, cached, query_account, sa_now, now_ms, query_db, exec_db, set_db. unfold_monad. cbn.
  destruct (ss_cache (w_db w) !! cache_key realm client) as [[at_ row]|] eqn:Hc; cbn;
    destruct (0 <? sc_cacheMs cfg) eqn:Hpos; cbn;
    repeat match goal with
    | |- context [if ?b then Some _ else None] => destruct b eqn:?; cbn
    | |- context [query_fails ?n] => destruct (query_fails n); cbn
    end.
  all: split; [split_and!; cbn; [lia | done | first [by left | right; eexists; split; [|done]; cbn; lia]] |].
  all: intros row' [= <-]; first [by left | right; eexists; split; [done | unfold reading; lia]].
Qed.

Lemma check_checked claims t w :
  let '(r, w') := revocationCheck cfg claims t w in
  (w' = w \/ exists realm client, token_realm cfg claims t = Some realm /\ clientIdFromClaims claims = Some client /\ checked realm client w w').
Proof.
  unfold revocationCheck. destruct (clientIdFromClaims claims) as [client|]; [|by left]. destruct (starts_with "sa-" client); [|by left].
  destruct (token_realm cfg claims t) as [realm|]; [|by left]. unfold try_catch, mbind, M_bind.
  pose proof (lookup_checked realm client w) as Hl. destruct (lookup_account cfg realm client w) as [[row|e] w']; cbn; right; exists realm, client; by destruct Hl.
Qed.

Lemma reading_mono k k' : (k <= k')%N -> reading k <= reading k'.
Proof. intros Hk. apply clock_monotone in Hk. unfold reading. lia. Qed.

(** What a request does to the rows. *)
Definition row_effect (r : sa_request) : list sa_row -> list sa_row :=
  match r with
  | CheckToken _ _ => id
  | InsertAccount row => insertServiceAccount row
  | RevokeAccount id => setServiceAccountStatus id "revoked"
  | InvalidateAccount id now => markServiceAccountCredentialsInvalidated id now
  | InvalidateUntil id now cutoff => markServiceAccountCredentialsInvalidatedUntil id now cutoff
  | InvalidateAhead id now live lead => markServiceAccountCredentialsInvalidatedAhead id now live lead
  | DeleteAccount id => deleteServiceAccount id
  end.

Definition served (w w' : world sa_state unit) (f : list sa_row -> list sa_row) : Prop :=
  ss_rows (w_db w') = f (ss_rows (w_db w)) /\ ss_cache (w_db w') = ss_cache (w_db w) /\ w_tick w' = w_tick w.

Lemma serve_cases r w :
  (exists claims t, r = CheckToken claims t) \/ served w (snd (serve_sa cfg r w)) (row_effect r).
Proof. destruct r; [left; by eexists _, _ | right; done..]. Qed.

Lemma identity_status s : same_identity (with_sa_status s). Proof. done. Qed.
Lemma identity_cutoff cut : same_identity (fun r => with_cutoff (cut r) r). Proof. done. Qed.

Lemma row_effect_unique r rows : accounts_unique rows -> accounts_unique (row_effect r rows).
Proof.
  destruct r; simpl; intros Hu;
    first [done | by apply insert_unique | by apply delete_unique | by apply on_account_unique, identity_status
          | by apply on_account_unique, (identity_cutoff (fun _ => _))| by apply on_account_unique].
Qed.

Lemma serve_sound r w : sound_cache w -> sound_cache (snd (serve_sa cfg r w)) /\ (w_tick w <= w_tick (snd (serve_sa cfg r w)))%N.
Proof.
  intros [Hu Hc]. destruct (serve_cases r w) as [(claims & t & ->) | (Hr & He & Ht)].
  - simpl. pose proof (check_checked claims t w) as Hk. destruct (revocationCheck cfg claims t w) as [b w']; cbn.
    destruct Hk as [-> | (realm & client & _ & _ & Ht & Hr & Hcache)]; [by split|]. split; [|done]. split; [by rewrite Hr|].
    intros key at_ row. destruct Hcache as [-> | (k & Hk & ->)].
    + intros Hkey. etrans; [by eapply Hc | by apply reading_mono].
    + rewrite lookup_insert_Some. intros [[_ [= <- _]] | [_ Hkey]]; [apply reading_mono; lia|].
      etrans; [by eapply Hc | by apply reading_mono].
  - rewrite Ht. split; [|lia]. split; [rewrite Hr; by apply row_effect_unique|]. intros key at_ row. rewrite He, Ht. apply Hc.
Qed.

Lemma run_sound rs w : sound_cache w -> sound_cache (run_sa cfg rs w) /\ (w_tick w <= w_tick (run_sa cfg rs w))%N.
Proof.
  revert w. induction rs as [|r rs IH]; intros w Hw; cbn; [by split|]. destruct (serve_sound r w Hw) as [Hs Ht].
  destruct (IH _ Hs) as [Hs' Ht']. split; [done | lia].
Qed.

(** The one row of the account is revoked for the token. *)
Definition account_revoked (realm client id : string) (iat : option jsnum) (rows : list sa_row) : Prop :=
  exists r, List.filter (same_account realm client) rows = [r] /\ sa_id r = id /\
    isTokenRevokedForRow (Some (auth_state_of r)) iat (sc_skewSec cfg) = true.

Lemma on_account_revoked id0 f realm client id iat rows :
  same_identity f -> keeps_revoked f -> account_revoked realm client id iat rows -> account_revoked realm client id iat (on_account id0 f rows).
Proof.
  intros Hf Hk (r & Hr & <- & Hrev). unfold account_revoked. rewrite on_account_filter, Hr by done. unfold on_account. cbn.
  destruct (String.eqb (sa_id r) id0); eexists; split_and!; [done | by destruct (Hf r) | by apply Hk | done | done | done].
Qed.

Lemma row_effect_revoked r realm client id iat rows :
  r <> DeleteAccount id -> account_revoked realm client id iat rows -> account_revoked realm client id iat (row_effect r rows).
Proof.
  intros Hd Hrev. destruct r as [|row|id0|id0 now|id0 now cut|id0 now live lead|id0]; cbn [row_effect]; [done| | | | | |].
  - destruct Hrev as (x & Hx & Hid & Hrv). exists x. split; [by apply insert_filter | done].
  - apply on_account_revoked; [apply identity_status | apply revoke_keeps | done].
  - apply on_account_revoked; [done | | done]. apply (cutoff_keeps (fun r => Z.max (default now (sa_credentials_invalidated_at r)) now)).
    intros r c Hc. rewrite Hc. simpl. lia.
  - apply on_account_revoked; [done | | done].
    apply (cutoff_keeps (fun r => Z.max (Z.max (default now (sa_credentials_invalidated_at r)) now) cut)). intros r c Hc. rewrite Hc. simpl. lia.
  - apply on_account_revoked; [done | | done].
    apply (cutoff_keeps (fun r => Z.max (default now (sa_credentials_invalidated_at r)) (live + lead * 1000))). intros r c Hc. rewrite Hc. simpl. lia.
  - destruct Hrev as (x & Hx & Hid & Hrv). exists x. rewrite delete_filter, Hx. split; [|done]. unfold deleteServiceAccount. cbn.
    destruct (String.eqb_spec (sa_id x) id0); [congruence | done].
Qed.

(** Cache entries of the account are from before [T] or say that it is revoked. *)
Definition propagating (realm client id : string) (iat : option jsnum) (T : Z) (w : world sa_state unit) : Prop :=
  account_revoked realm client id iat (ss_rows (w_db w)) /\
  forall at_ row, ss_cache (w_db w) !! cache_key realm client = Some (at_, row) ->
    at_ <= T \/ isTokenRevokedForRow row iat (sc_skewSec cfg) = true.

Lemma revoked_selected realm client id iat rows :
  account_revoked realm client id iat rows ->
  isTokenRevokedForRow (getServiceAccountAuthStateByClientId client realm rows) iat (sc_skewSec cfg) = true.
Proof. intros (r & Hr & _ & Hrev). by rewrite (select_single _ _ _ r Hr). Qed.

Lemma serve_propagating realm client id iat T r w :
  no_newline realm -> clean_request r -> r <> DeleteAccount id ->
  propagating realm client id iat T w -> propagating realm client id iat T (snd (serve_sa cfg r w)).
Proof.
  intros Hn Hclean Hd [Hrev Hc]. destruct (serve_cases r w) as [(claims & t & ->) | (Hr & He & Ht)].
  - simpl. pose proof (check_checked claims t w) as Hk. destruct (revocationCheck cfg claims t w) as [b w']; cbn.
    destruct Hk as [-> | (realm' & client' & Hrealm & _ & _ & Hr & Hcache)]; [by split|]. split; [by rewrite Hr|].
    cbn in Hclean. rewrite Hrealm in Hclean. destruct Hcache as [-> | (k & Hk & ->)]; [done|].
    intros at_ row. rewrite lookup_insert_Some. intros [[Hkey [= _ <-]] | [_ Hkey]]; [|by apply Hc].
    apply cache_key_inj in Hkey as [-> ->]; [|done..]. right. by eapply revoked_selected.
  - split; [rewrite Hr; by apply row_effect_revoked|]. rewrite He. done.
Qed.

Lemma check_rejects claims t realm client id w T :
  clientIdFromClaims claims = Some client -> starts_with "sa-" client = true -> token_realm cfg claims t = Some realm ->
  propagating realm client id (iat_of claims) T w -> T + sc_cacheMs cfg <= reading (w_tick w) ->
  fst (revocationCheck cfg claims t w) = Ok true.
Proof.
  intros Hclient Hsa Hrealm [Hrev Hc] HT. unfold revocationCheck. rewrite Hclient, Hsa, Hrealm. unfold try_catch, mbind, M_bind.
  pose proof (lookup_checked realm client w) as Hl. destruct (lookup_account cfg realm client w) as [[row|e] w']; [|done]. cbn.
  destruct Hl as [_ Hrow]. f_equal. destruct (Hrow row eq_refl) as [-> | (at_ & Hkey & Hage)]; [by eapply revoked_selected|].
  destruct (Hc _ _ Hkey) as [Hle|]; [lia | done].
Qed.

End propagation.

(** C34: a revocation takes effect within the lifetime of a cache entry.  After any
    requests from an empty table, let the state of an account revoke a token, by its
    status or by a cutoff after the token was issued.  Whatever requests follow, as
    long as the row is not deleted, a check of the token at a time at least
    [cacheMs] later rejects it, whether its query succeeds or not. *)
Theorem revocation_propagates `{!Platform, !SaStore} (cfg : sa_config) (before later : list sa_request)
    (claims : jsval) (t : option trust) (realm client id : string) :
  (forall n m : N, (n <= m)%N -> (clock n <= clock m)%N) ->
  Forall (clean_request cfg) (before ++ later) -> no_newline realm ->
  clientIdFromClaims claims = Some client -> starts_with "sa-" client = true -> token_realm cfg claims t = Some realm ->
  let w := run_sa cfg before empty_accounts in
  (exists r, r ∈ ss_rows (w_db w) /\ same_account realm client r = true /\ sa_id r = id /\
     isTokenRevokedForRow (Some (auth_state_of r)) (iat_of claims) (sc_skewSec cfg) = true) ->
  DeleteAccount id ∉ later ->
  let w' := run_sa cfg later w in
  reading (w_tick w) + sc_cacheMs cfg <= reading (w_tick w') ->
  fst (revocationCheck cfg claims t w') = Ok true.
Proof.
  intros Hmono Hclean Hn Hclient Hsa Hrealm w (r & Hr & Hsame & Hid & Hrev) Hdel w' HT. apply Forall_app in Hclean as [_ Hclean].
  assert (Hw : sound_cache w).
  { apply (run_sound cfg Hmono). split; [intros ? ?; simpl; lia | done]. }
  destruct Hw as [Hu Hc].
  assert (Hp : propagating cfg realm client id (iat_of claims) (reading (w_tick w)) w).
  { split; [|intros at_ row Hk; left; by eapply Hc]. exists r. split_and!; [|done..].
    assert (Hin : In r (List.filter (same_account realm client) (ss_rows (w_db w)))) by (apply List.filter_In; by rewrite <- list_elem_of_In).
    specialize (Hu realm client). destruct (List.filter (same_account realm client) (ss_rows (w_db w))) as [|x [|]]; simpl in *; [done | | lia].
    by destruct Hin as [-> | []]. }
  eapply check_rejects; [done..| |exact HT]. unfold w'. clear w' HT Hc Hu Hr. revert Hp. generalize (reading (w_tick w)) as T. intros T. generalize w. clear w.
  induction later as [|q later IH]; intros w Hp; [done|]. simpl. apply Forall_cons in Hclean as [Hq Hlater].
  rewrite not_elem_of_cons in Hdel. destruct Hdel as [Hd Hdel]. apply IH; [done..|]. by apply serve_propagating.
Qed.

Definition sample_sa_platform : Platform := {| clock := fun n => (1000 * n)%N; uuid := fun _ => "uuid"; broker := fun _ => None |}.
Definition sample_sa_store : SaStore := {| query_fails := fun _ => false |}.
Definition sample_sa_config : sa_config := mk_sa_config 3000 1 None None.
Definition sample_sa_claims : jsval := JObj [("azp", JStr "sa-acme-ci"); ("iat", jint 100)].
Definition sample_check : sa_request := CheckToken sample_sa_claims (Some (TenantTrust "acme")).

Example revocation_run :
  let w := @run_sa sample_sa_platform sample_sa_store sample_sa_config
    [InsertAccount (mk_sa_row "1" "acme" "sa-acme-ci" "active" 0 None); sample_check; RevokeAccount "1"] empty_accounts in
  (fst (@revocationCheck sample_sa_platform sample_sa_store sample_sa_config sample_sa_claims (Some (TenantTrust "acme")) w),
   fst (@revocationCheck sample_sa_platform sample_sa_store sample_sa_config sample_sa_claims (Some (TenantTrust "acme"))
     (@run_sa sample_sa_platform sample_sa_store sample_sa_config [sample_check; sample_check; sample_check] w)))
  = (Ok false, Ok true).
Proof. vm_compute. reflexivity. Qed.

Lemma revocation_propagates_witness :
  let w := @run_sa sample_sa_platform sample_sa_store sample_sa_config
    [InsertAccount (mk_sa_row "1" "acme" "sa-acme-ci" "active" 0 None); sample_check; RevokeAccount "1"] empty_accounts in
  fst (@revocationCheck sample_sa_platform sample_sa_store sample_sa_config sample_sa_claims (Some (TenantTrust "acme"))
    (@run_sa sample_sa_platform sample_sa_store sample_sa_config [sample_check; sample_check; sample_check] w)) = Ok true.
Proof.
  assert (Hn : no_newline "acme") by (unfold no_newline; simpl; set_solver).
  apply (@revocation_propagates sample_sa_platform sample_sa_store sample_sa_config
    [InsertAccount (mk_sa_row "1" "acme" "sa-acme-ci" "active" 0 None); sample_check; RevokeAccount "1"] [sample_check; sample_check; sample_check]
    sample_sa_claims (Some (TenantTrust "acme")) "acme" "sa-acme-ci" "1").
  - intros n m Hnm. simpl. lia.
  - repeat (constructor; [exact Hn || exact I|]). constructor.
  - exact Hn.
  - reflexivity.
  - reflexivity.
  - reflexivity.
  - eexists. split; [left|]. split_and!; reflexivity.
  - set_solver.
  - vm_compute. discriminate.
Defined.

(** The row of a deleted account is gone, and a token of an account without a row
    is not rejected: the deletion does not end the tokens already issued. *)
Lemma deleted_account_passes `{!Platform, !SaStore} (cfg : sa_config) (id realm client : string) (rows : list sa_row) iat skew :
  accounts_unique rows -> (exists r, r ∈ rows /\ same_account realm client r = true /\ sa_id r = id) ->
  isTokenRevokedForRow (getServiceAccountAuthStateByClientId client realm (deleteServiceAccount id rows)) iat skew = false.
Proof.
  intros Hu (r & Hr & Hs & <-). unfold getServiceAccountAuthStateByClientId. rewrite delete_filter.
  assert (Hin : In r (List.filter (same_account realm client) rows)) by (apply List.filter_In; by rewrite <- list_elem_of_In).
  specialize (Hu realm client). destruct (List.filter (same_account realm client) rows) as [|x [|]]; simpl in *; [done | | lia].
  destruct Hin as [-> | []]. unfold deleteServiceAccount. cbn. by rewrite String.eqb_refl.
Qed.
