(* ===== verification/Net.v ===== *)
(** * Bits, radixes and addresses

    The operators on 32-bit integers, [parseInt] with a radix, [toString(16)],
    [split] with a string separator and [net.isIP] of JavaScript and its run
    time, for the code that reads network addresses. *)
From S2P Require Import Prelude JsValue Regex.
From Stdlib Require Import Ascii.
Local Open Scope Z_scope.

(** ** 32-bit integers *)

(** The conversions ToInt32 and ToUint32 of an integer. *)
Definition to_uint32 (n : Z) : Z := n mod 2 ^ 32.
Definition to_int32 (n : Z) : Z := (n + 2 ^ 31) mod 2 ^ 32 - 2 ^ 31.

(** [a << k], [a | b], [a & b], [a >> k] and [a >>> k]. *)
Definition js_shl (a k : Z) : Z := to_int32 (Z.shiftl (to_int32 a) k).
Definition js_or (a b : Z) : Z := to_int32 (Z.lor (to_int32 a) (to_int32 b)).
Definition js_and (a b : Z) : Z := to_int32 (Z.land (to_int32 a) (to_int32 b)).
Definition js_shr (a k : Z) : Z := Z.shiftr (to_int32 a) k.
Definition js_ushr (a k : Z) : Z := Z.shiftr (to_uint32 a) k.

(** ** Strings *)

(** The longest prefix of digits of the base. *)
Fixpoint span_base (base : N) (l : list ascii) : list ascii :=
  match l with
  | c :: l' => if (digit_val c <? base)%N then c :: span_base base l' else []
  | [] => []
  end.

(** [parseInt(s, radix)] for the radixes 8, 10 and 16; 16 takes a [0x] prefix. *)
Definition parse_int_radix (radix : N) (s : string) : jsnum :=
  let '(neg, l) := match drop_while is_space (chars s) with
                   | "-"%char :: r => (true, r)
                   | "+"%char :: r => (false, r)
                   | r => (false, r)
                   end in
  let l := match l with
           | "0"%char :: x :: r =>
               if (radix =? 16)%N && (Ascii.eqb x "x" || Ascii.eqb x "X") then r else l
           | _ => l
           end in
  match digits_of radix (span_base radix l) with
  | Some n => NInt (if neg : bool then - Z.of_N n else Z.of_N n)
  | None => NNaN
  end.

(** [n.toString(16)] of a natural number. *)
Fixpoint hex_digits (fuel : nat) (n : N) (acc : list ascii) : list ascii :=
  match fuel with
  | O => acc
  | S fuel' =>
      let acc' := digit36 (n mod 16) :: acc in
      if (n <? 16)%N then acc' else hex_digits fuel' (n / 16)%N acc'
  end.
(** A round per bit is more than enough. *)
Definition to_hex (n : N) : string := of_chars (hex_digits (S (N.to_nat (N.log2 n))) n []).

(** [s.split('::')]: the separators are found from the left and do not overlap. *)
Fixpoint split_double (sep : ascii) (l : list ascii) : list (list ascii) :=
  match l with
  | [] => [[]]
  | c :: l' =>
      match l' with
      | d :: l'' =>
          if Ascii.eqb c sep && Ascii.eqb d sep then [] :: split_double sep l''
          else match split_double sep l' with
               | [] => [[c]]
               | w :: ws => (c :: w) :: ws
               end
      | [] => [[c]]
      end
  end.
Definition split_on_double (sep : ascii) (s : string) : list string :=
  of_chars <$> split_double sep (chars s).

(** The text before the last [c], and after it; [None] without one. *)
Fixpoint split_last (c : ascii) (l : list ascii) : option (list ascii * list ascii) :=
  match l with
  | [] => None
  | d :: l' =>
      match split_last c l' with
      | Some (a, b) => Some (d :: a, b)
      | None => if Ascii.eqb d c then Some ([], l') else None
      end
  end.

Example string_examples :
  parse_int_radix 16 "0xFf" = NInt 255 /\ parse_int_radix 8 "089" = NInt 0 /\ parse_int_radix 10 "12x" = NInt 12 /\
  to_hex 65152 = "fe80" /\ split_on_double ":" "a::b:c" = ["a"; "b:c"] /\ split_on_double ":" "::" = [""; ""].
Proof. vm_compute. tauto. Qed.

(** ** [net.isIP] *)

Definition rdigit : re := RCls is_digit.
Definition rrange (a b : ascii) : re := RCls (fun c => ((code a <=? code c) && (code c <=? code b))%N).

(** [25[0-5]|2[0-4]\d|1\d\d|[1-9]\d|\d] *)
Definition v4Seg : re :=
  ralts [rseqs [rlit "25"; rrange "0" "5"]; rseqs [rlit "2"; rrange "0" "4"; rdigit];
         rseqs [rlit "1"; rdigit; rdigit]; RSeq (rrange "1" "9") rdigit; rdigit].
Definition v4Str : re := RSeq (rtimes 3 (RSeq v4Seg (rchar "."))) v4Seg.

Definition is_hex (c : ascii) : bool := (digit_val c <? 16)%N.
(** [[0-9a-fA-F]{1,4}] *)
Definition v6Seg : re := rbetween 1 4 (RCls is_hex).
Definition colon_seg : re := RSeq (rchar ":") v6Seg.
Definition seg_colon : re := RSeq v6Seg (rchar ":").
(** [(?:seg:){n}(?:(?::seg){0,m}:v4|(?::seg){1,k}|:)] *)
Definition v6_branch (n m k : nat) : re :=
  RSeq (rtimes n seg_colon)
       (ralts [RSeq (rupto m colon_seg) (RSeq (rchar ":") v4Str); rbetween 1 k colon_seg; rchar ":"]).
Definition zone_char (c : ascii) : bool :=
  is_digit c || is_lower c || is_upper c || Ascii.eqb c "-" || Ascii.eqb c "." || Ascii.eqb c ":".
Definition v6Str : re :=
  RSeq (ralts [RSeq (rtimes 7 seg_colon) (RAlt v6Seg (rchar ":"));
               RSeq (rtimes 6 seg_colon) (ralts [v4Str; colon_seg; rchar ":"]);
               v6_branch 5 0 2; v6_branch 4 1 3; v6_branch 3 2 4; v6_branch 2 3 5; v6_branch 1 4 6;
               RSeq (rchar ":") (ralts [RSeq (rupto 5 colon_seg) (RSeq (rchar ":") v4Str); rbetween 1 7 colon_seg; rchar ":"])])
       (ropt (RSeq (rchar "%") (rplus (RCls zone_char)))).

(** [net.isIP]: 4, 6 or 0. *)
Definition net_isIP (s : string) : Z :=
  if re_test_full v4Str s then 4 else if re_test_full v6Str s then 6 else 0.

Example net_isIP_examples :
  net_isIP <$> ["10.0.0.1"; "256.0.0.1"; "010.0.0.1"; "::1"; "::ffff:10.0.0.1"; "64:ff9b::a00:1"; "fe80::1%eth0"; "1:2:3:4:5:6:7:8"; "1::2::3"; "host"]
  = [4; 0; 0; 6; 6; 6; 6; 6; 0; 0].
Proof. vm_compute. reflexivity. Qed.
