(* ===== verification/JwtTrust.v ===== *)
(** * Verification of access tokens

    internal-contracts' [jwt-trust-policy.mjs]: which issuers are trusted, where the
    keys of each come from, and when a token is accepted; with the revocation check
    of the control plane as its hook.  The key sets are cached per URL; the logging
    of a rejection is not modelled.

    Decoding a segment ([Buffer.from(s, 'base64url')] and [JSON.parse]), fetching a
    key set, importing a key and checking an RSA signature are the class
    [JwtRuntime]; [new URL] on a realm base is the class [RealmUrls]. *)
From S2P Require Import Prelude JsValue Json Regex Platform Net SaRevocation.
From Stdlib Require Import Ascii.
Local Open Scope Z_scope.

(** ** What the runtime gives *)

Record url_parts := mk_url_parts {
  up_protocol : string; up_hostname : string; up_username : string; up_password : string;
  up_search : string; up_hash : string; up_pathname : string; up_href : string
}.
Class RealmUrls := realm_url : string -> option url_parts.

Class JwtRuntime := {
  segment_json : string -> option jsval;
  fetch_jwks : N -> string -> result js_error jsval;
  rs_import : jsval -> bool;
  rs_verify : string -> string -> jsval -> string -> bool
}.

(** [a === b]; two objects read from different texts are never the same. *)
Definition strict_eq (a b : jsval) : bool :=
  match a, b with
  | JArr _, _ | _, JArr _ | JObj _, _ | _, JObj _ => false
  | JNum x, JNum y => num_eqb x y
  | _, _ => jsval_eqb a b
  end.

(** ** Issuers *)

(** [/^(.*\/realms\/)([^/]+)$/]: the text up to the last slash and the rest. *)
Definition realm_split (s : string) : option (string * string) :=
  match split_last "/" (chars s) with
  | Some (before, realm) =>
      let base := before ++ ["/"%char] in
      let n := length (chars "/realms/") in
      if bool_decide (realm <> []) && bool_decide (drop (length base - n) base = chars "/realms/")
         && forallb (fun c => negb ((code c =? 10) || (code c =? 13))%N) (take (length base - n) base)
      then Some (of_chars base, of_chars realm) else None
  | None => None
  end.

(** [s.endsWith(p)], and what stands before it. *)
Definition strip_suffix (p s : string) : option string :=
  let n := (length (chars s) - length (chars p))%nat in
  if bool_decide (drop n (chars s) = chars p) then Some (of_chars (take n (chars s))) else None.

Definition certs_suffix : string := "/protocol/openid-connect/certs".

(** [deriveRealmTopology]: the realms base and the platform realm. *)
Definition deriveRealmTopology (issuer jwksUrl : option string) : option (string * string) :=
  match issuer ≫= realm_split with
  | Some r => Some r
  | None => u ← jwksUrl;
            match strip_suffix certs_suffix (default u (strip_suffix "/" u)) with Some s => realm_split s | None => None end
  end.

(** ** The verifier *)

Record jwt_options := mk_jwt_options {
  jo_jwksUrl : option string;
  jo_issuer : option string;
  jo_audience : option string;
  jo_trustedRealmBases : jsval;
  jo_platformAudiences : jsval;
  jo_platformRealm : option string;
  jo_tenantAudience : option string;
  jo_enforceTenantAudience : bool;
  jo_allowTenantRealms : bool
}.

Record verifier := mk_verifier {
  vf_jwksUrl : option string;
  vf_issuer : option string;
  vf_realmsBase : option string;
  vf_platformRealm : option string;
  vf_explicitBases : bool;
  vf_bases : list string;
  vf_audiences : list string;
  vf_tenantAudience : option string;
  vf_enforceTenantAudience : bool;
  vf_allowTenantRealms : bool;
  vf_clockToleranceSec : Z;
  vf_cacheMs : Z;
  vf_revocation : option sa_config
}.

(** [x || undefined] on a string. *)
Definition truthy_opt (s : option string) : option string := match s with Some t => if nonempty t then Some t else None | None => None end.

Definition validateStringList (value : jsval) (name : string) : result js_error (list string) :=
  match value with
  | JArr items =>
      throw_if (bool_decide (items = []) || existsb (fun i => match i with JStr s => negb (nonempty (trim s)) | _ => true end) items)
        (plain_error (name +:+ " must be a non-empty array of strings")) ≫= fun _ =>
      Ok (string_set items)
  | _ => Err (plain_error (name +:+ " must be a non-empty array of strings"))
  end.

Section verifier.
Context `{!RealmUrls}.

(** The test of [validateRealmBases] on one base. *)
Definition valid_base (base : string) : bool :=
  match realm_url base with
  | Some u => str_in (up_protocol u) ["http:"; "https:"] && negb (includes "*" (up_hostname u)) && negb (nonempty (up_username u))
      && negb (nonempty (up_password u)) && negb (nonempty (up_search u)) && negb (nonempty (up_hash u))
      && match strip_suffix "/realms/" (up_pathname u) with Some _ => true | None => false end && String.eqb (up_href u) base
  | None => false
  end.

Definition validateRealmBases (value : jsval) : result js_error (list string) :=
  validateStringList value "trustedRealmBases" ≫= fun bases =>
  throw_if (negb (forallb valid_base bases))
    (plain_error "trustedRealmBases must contain exact HTTP(S) realm bases ending in /realms/") ≫= fun _ => Ok bases.

(** [createRealmTokenVerifier]: the checks of its options. *)
Definition createRealmTokenVerifier (o : jwt_options) (revocation : option sa_config) : result js_error verifier :=
  let enforce := jo_enforceTenantAudience o in
  throw_if (enforce && negb (match jo_tenantAudience o with Some a => nonempty (trim a) | None => false end))
    (plain_error "tenant audience is required when enforcement is enabled") ≫= fun _ =>
  throw_if (enforce && negb (truthy_str (jo_jwksUrl o))) (plain_error "JWKS URL is required when tenant audience enforcement is enabled") ≫= fun _ =>
  let topology := deriveRealmTopology (jo_issuer o) (jo_jwksUrl o) in
  let realmsBase := fst <$> topology in
  let derived := snd <$> topology in
  let platformRealm := match jo_platformRealm o with Some r => Some r | None => derived end in
  throw_if (enforce && bool_decide (realmsBase = None))
    (plain_error "Keycloak realm topology is required when tenant audience enforcement is enabled") ≫= fun _ =>
  let explicitBases := negb (match jo_trustedRealmBases o with JUndef => true | _ => false end) in
  (if explicitBases then validateRealmBases (jo_trustedRealmBases o) else Ok (match realmsBase with Some b => [b] | None => [] end)) ≫= fun bases =>
  (if explicitBases || bool_decide (jo_platformRealm o <> None) then
     let jwksRealm := snd <$> deriveRealmTopology None (jo_jwksUrl o) in
     let differs r := match r with Some x => bool_decide (Some x <> platformRealm) | None => false end in
     throw_if (negb (truthy_str platformRealm) || differs derived || differs jwksRealm)
       (plain_error "platform realm must match issuer and JWKS realm") ≫= fun _ =>
     throw_if (explicitBases && match truthy_opt (jo_issuer o) with
                                | Some i => negb (existsb (fun b => String.eqb i (b +:+ default "" platformRealm)) bases)
                                | None => false
                                end) (plain_error "platform issuer must use an allowlisted realm base")
   else Ok tt) ≫= fun _ =>
  match jo_platformAudiences o with
  | JUndef => Ok (match truthy_opt (jo_audience o) with Some a => [a] | None => [] end)
  | v => validateStringList v "platformAudiences"
  end ≫= fun audiences =>
  Ok (mk_verifier (jo_jwksUrl o) (truthy_opt (jo_issuer o)) realmsBase platformRealm explicitBases bases audiences
        (jo_tenantAudience o) enforce (jo_allowTenantRealms o) 60 300000 revocation).

End verifier.

(** [/^[A-Za-z0-9_-][A-Za-z0-9._-]*$/] *)
Definition realm_char (c : ascii) : bool := is_word c || Ascii.eqb c "-".
Definition realm_re : re := RSeq (RCls realm_char) (RStar (RCls (fun c => realm_char c || Ascii.eqb c "."))).

Definition platformIssuer (v : verifier) : option string :=
  match vf_issuer v with
  | Some i => Some i
  | None => (fun b => b +:+ default "" (vf_platformRealm v)) <$> vf_realmsBase v
  end.

(** The trust a base gives to an issuer, when it gives one. *)
Definition base_trust (v : verifier) (iss base : string) : option trust :=
  if starts_with base iss then
    let realm := of_chars (drop (length (chars base)) (chars iss)) in
    if negb (re_test_full realm_re realm) then None
    else if bool_decide (Some realm = vf_platformRealm v) then Some PlatformTrust
    else if vf_allowTenantRealms v then Some (TenantTrust realm) else None
  else None.

Fixpoint first_trust (v : verifier) (iss : string) (bases : list string) : option trust :=
  match bases with
  | [] => None
  | b :: bases' => match base_trust v iss b with Some t => Some t | None => first_trust v iss bases' end
  end.

Definition classifyIssuer (v : verifier) (iss : jsval) : option trust :=
  if negb (vf_explicitBases v) && bool_decide (vf_issuer v = None) && bool_decide (vf_realmsBase v = None) then Some LegacyTrust
  else if negb (vf_explicitBases v) && match platformIssuer v with Some p => strict_eq iss (JStr p) | None => false end then Some PlatformTrust
  else match iss with JStr i => first_trust v i (vf_bases v) | _ => None end.

Definition jwksUrlForIssuer (v : verifier) (iss : jsval) (t : trust) : string :=
  match t with
  | TenantTrust _ => js_to_string iss +:+ certs_suffix
  | _ => default "undefined" (vf_jwksUrl v)
  end.

(** ** Keys *)

Record jwt_state := mk_jwt_state {
  jw_caches : gmap string (list jsval * Z);
  jw_fetches : N;
  jw_accounts : sa_state
}.

(** A key of the set that may have signed: [null] in a set throws. *)
Definition key_matches (kid : jsval) (alg : jsval) (k : jsval) : bool :=
  strict_eq (js_get k "kty") (JStr "RSA") && (negb (truthy kid) || strict_eq (js_get k "kid") kid)
  && (negb (truthy (js_get k "alg")) || strict_eq (js_get k "alg") alg).

Fixpoint find_key (kid alg : jsval) (keys : list jsval) : result js_error (option jsval) :=
  match keys with
  | [] => Ok None
  | k :: keys' => throw_if (nullish k) (plain_error "Cannot read properties of null") ≫= fun _ =>
                  if key_matches kid alg k then Ok (Some k) else find_key kid alg keys'
  end.

(** [Array.isArray(body.keys) ? body.keys : []] *)
Definition keys_of (body : jsval) : result js_error (list jsval) :=
  throw_if (nullish body) (plain_error "Cannot read properties of null (reading 'keys')") ≫= fun _ =>
  Ok (match js_get body "keys" with JArr keys => keys | _ => [] end).

(** [ALG_DIGEST] *)
Definition ALG_DIGEST : list (string * string) := [("RS256", "sha256"); ("RS384", "sha384"); ("RS512", "sha512")].

Section verify.
Context `{!Platform, !SaStore, !JwtRuntime} (v : verifier).
Local Notation act := (M (world jwt_state unit) js_error).

Definition jwt_now : act Z := now_ms ≫= fun n : N => mret (Z.of_N n).

(** The keys of a fresh entry; the clock is read only for one that has keys. *)
Definition cached_keys (url : string) : act (option (list jsval)) :=
  query_db (fun s => jw_caches s !! url) ≫= fun c =>
  match c with
  | Some (keys, at_) => if bool_decide (keys = []) then mret None
                        else jwt_now ≫= fun now => mret (if now - at_ <? vf_cacheMs v then Some keys else None)
  | None => mret None
  end.

Definition fetch_keys (url : string) : act (list jsval) :=
  exec_db (fun s => (jw_fetches s, mk_jwt_state (jw_caches s) (N.succ (jw_fetches s)) (jw_accounts s))) ≫= fun n =>
  lift (fetch_jwks n url) ≫= fun body =>
  lift (keys_of body) ≫= fun keys =>
  jwt_now ≫= fun now =>
  exec_db (fun s => (tt, mk_jwt_state (<[url := (keys, now)]> (jw_caches s)) (jw_fetches s) (jw_accounts s))) ≫= fun _ =>
  mret keys.

(** [jwks] *)
Definition jwks (url : string) (force : bool) : act (list jsval) :=
  (if force then mret None else cached_keys url) ≫= fun c =>
  match c with Some keys => mret keys | None => fetch_keys url end.

(** [publicKeyFor]: after a miss the set is fetched once more. *)
Definition publicKeyFor (url : string) (kid alg : jsval) : act jsval :=
  jwks url false ≫= fun keys =>
  lift (find_key kid alg keys) ≫= fun found =>
  match found with
  | Some k => mret (Some k)
  | None => jwks url true ≫= fun keys => lift (find_key kid alg keys)
  end ≫= fun found =>
  match found with
  | Some k => lift (throw_if (negb (rs_import k)) (plain_error "Invalid JWK")) ≫= fun _ => mret k
  | None => throw (plain_error "no matching JWKS key")
  end.

(** ** Acceptance *)

Definition category_message (category : string) (t : option trust) : string :=
  if String.eqb category "malformed" then "malformed JWT" else if String.eqb category "alg" then "unsupported alg"
  else if String.eqb category "issuer" then "issuer not trusted" else if String.eqb category "key_lookup" then "no matching JWKS key or JWKS fetch failed"
  else if String.eqb category "signature" then "bad signature" else if String.eqb category "expiry" then "token expired"
  else if String.eqb category "nbf" then "token not yet valid"
  else if String.eqb category "audience" then (match t with Some (TenantTrust _) => "tenant audience mismatch" | _ => "audience mismatch" end)
  else "credential revoked".

(** The error a rejection throws; its category is kept as its code. *)
Definition rejection (category : string) (t : option trust) : js_error := coded category (category_message category t).

Definition reject_if (b : bool) (category : string) (t : option trust) : act unit := lift (throw_if b (rejection category t)).
Definition at_category {A} (category : string) (t : option trust) (m : act A) : act A := try_catch m (fun _ => throw (rejection category t)).

(** The claims and the header must be objects. *)
Definition object_segment (s : string) : option jsval :=
  match segment_json s with Some (JObj kvs) => Some (JObj kvs) | _ => None end.

(** [Object.hasOwn(ALG_DIGEST, header.alg)], and the digest. *)
Definition digest_of (header : jsval) : option string := assoc_lookup (js_to_string (js_get header "alg")) ALG_DIGEST.

Definition expired (claims : jsval) (t : Z) : bool :=
  match js_get claims "exp" with JNum exp => num_ltb (num_add exp (NInt (vf_clockToleranceSec v))) (NInt t) | _ => false end.
Definition not_yet (claims : jsval) (t : Z) : bool :=
  match js_get claims "nbf" with JNum nbf => num_ltb (NInt (t + vf_clockToleranceSec v)) nbf | _ => false end.

Definition audience_list (claims : jsval) : list jsval := match js_get claims "aud" with JArr l => l | a => [a] end.
Definition has_audience (claims : jsval) (a : string) : bool := existsb (fun x => strict_eq x (JStr a)) (audience_list claims).

Definition audience_ok (claims : jsval) (t : trust) : bool :=
  match t with
  | PlatformTrust => bool_decide (vf_audiences v = []) || existsb (has_audience claims) (vf_audiences v)
  | TenantTrust _ => negb (vf_enforceTenantAudience v) || match vf_tenantAudience v with Some a => has_audience claims a | None => false end
  | LegacyTrust => true
  end.

(** The check runs on the accounts. *)
Definition check_revoked (claims : jsval) (t : trust) : act bool := fun w =>
  match vf_revocation v with
  | None => (Ok false, w)
  | Some cfg =>
      let '(r, w') := revocationCheck cfg claims (Some t) (mk_world (jw_accounts (w_db w)) (w_tick w) (w_uuids w) (w_published w) []) in
      (r, mk_world (mk_jwt_state (jw_caches (w_db w)) (jw_fetches (w_db w)) (w_db w')) (w_tick w') (w_uuids w') (w_published w') (w_events w))
  end.

(** [verify]; [token] is the text of the token. *)
Definition verify (token : string) : act (jsval * trust) :=
  match split_on "." token with
  | [h; p; s] =>
      match object_segment h, object_segment p with
      | Some header, Some claims =>
          match digest_of header with
          | None => throw (rejection "alg" None)
          | Some digest =>
              match classifyIssuer v (js_get claims "iss") with
              | None => throw (rejection "issuer" None)
              | Some t =>
                  at_category "key_lookup" (Some t)
                    (publicKeyFor (jwksUrlForIssuer v (js_get claims "iss") t) (js_get header "kid") (js_get header "alg")) ≫= fun key =>
                  reject_if (negb (rs_verify digest (h +:+ "." +:+ p) key s)) "signature" (Some t) ≫= fun _ =>
                  jwt_now ≫= fun now =>
                  let seconds := now / 1000 in
                  reject_if (expired claims seconds) "expiry" (Some t) ≫= fun _ =>
                  reject_if (not_yet claims seconds) "nbf" (Some t) ≫= fun _ =>
                  reject_if (negb (audience_ok claims t)) "audience" (Some t) ≫= fun _ =>
                  at_category "revoked" (Some t) (check_revoked claims t) ≫= fun revoked =>
                  reject_if revoked "revoked" (Some t) ≫= fun _ =>
                  mret (claims, t)
              end
          end
      | _, _ => throw (rejection "malformed" None)
      end
  | _ => throw (rejection "malformed" None)
  end.

End verify.
