(* ===== verification/JwtProofs.v ===== *)
(** * Which tokens are accepted

    A tenant issuer is a configured base followed by the realm; an accepted token is
    signed by a key its own issuer served, recently or just now, and is in time,
    meant for this audience and not revoked. *)
From S2P Require Import Prelude JsValue Json Regex Platform Net SaRevocation JwtTrust.
From Stdlib Require Import Ascii.
Local Open Scope Z_scope.

(** ** Issuers *)

Definition ends_with_slash (s : string) : Prop := exists l, chars s = l ++ ["/"%char].
Definition no_slash (s : string) : Prop := "/"%char ∉ chars s.

Lemma rstar_cls_lang p l : re_lang (RStar (RCls p)) l -> Forall (fun c => p c = true) l.
Proof.
  intros Hl. remember (RStar (RCls p)) as r eqn:Hr. induction Hl; simplify_eq; [constructor|].
  apply Forall_app. split; [|by apply IHHl2]. apply lang_cls_inv in Hl1 as (c & -> & Hc). by repeat constructor.
Qed.

(** A realm of the accepted form is one segment of visible characters. *)
Lemma realm_segment realm : re_test_full realm_re realm = true ->
  no_slash realm /\ no_newline realm /\ realm <> "".
Proof.
  unfold re_test_full. rewrite re_full_lang. unfold realm_re. intros (a & b & Hl & Ha & Hb)%lang_seq_inv.
  apply lang_cls_inv in Ha as (c & -> & Hc). apply rstar_cls_lang in Hb.
  assert (Hall : Forall (fun c => realm_char c || Ascii.eqb c "." = true) (chars realm)).
  { rewrite Hl. constructor; [by rewrite Hc | done]. }
  rewrite Forall_forall in Hall. split_and!.
  - intros Hin%Hall. done.
  - intros Hin%Hall. done.
  - intros ->. done.
Qed.

Lemma starts_with_app b s : starts_with b s = true -> chars s = chars b ++ drop (length (chars b)) (chars s).
Proof.
  unfold starts_with. generalize (chars b) as p. generalize (chars s) as l. intros l p. revert l.
  induction p as [|c p IH]; intros [|d l]; simpl; try done. rewrite andb_true_iff. intros [->%Ascii.eqb_eq Hp]. f_equal. by apply IH.
Qed.

Lemma starts_with_prefix b r : starts_with b (b +:+ r) = true /\ of_chars (drop (length (chars b)) (chars (b +:+ r))) = r.
Proof.
  rewrite chars_app, drop_app_length, of_chars_chars. split; [|done]. unfold starts_with. rewrite chars_app.
  induction (chars b) as [|c p IH]; [done|]. simpl. by rewrite Ascii.eqb_refl.
Qed.

(** The text after the last slash is determined. *)
Lemma last_segment b r b' r' : ends_with_slash b -> ends_with_slash b' -> no_slash r -> no_slash r' ->
  b +:+ r = b' +:+ r' -> b = b' /\ r = r'.
Proof.
  intros [l Hl] [l' Hl'] Hr Hr' Heq. apply (f_equal (fun s => reverse (chars s))) in Heq.
  rewrite !chars_app, Hl, Hl', !reverse_app in Heq. simpl in Heq.
  assert (Hsplit : forall (x x' y y' : list ascii) c, c ∉ x -> c ∉ x' -> x ++ c :: y = x' ++ c :: y' -> x = x' /\ y = y').
  { clear. induction x as [|z x IH]; intros [|z' x'] y y' c Hx Hx' E; simplify_eq/=; try done; try (exfalso; set_solver).
    destruct (IH x' y y' c) as [-> ->]; set_solver. }
  destruct (Hsplit (reverse (chars r)) (reverse (chars r')) (reverse l) (reverse l') "/"%char) as [E1 E2];
    [by rewrite elem_of_reverse.. | done|]. 
  apply (f_equal reverse) in E1, E2. rewrite !reverse_involutive in E1, E2.
  split; [rewrite <- (of_chars_chars b), <- (of_chars_chars b'), Hl, Hl'; by rewrite E2 | rewrite <- (of_chars_chars r), <- (of_chars_chars r'); by rewrite E1].
Qed.

Lemma base_trust_tenant v iss base realm :
  base_trust v iss base = Some (TenantTrust realm) <->
  iss = base +:+ realm /\ re_test_full realm_re realm = true /\ Some realm <> vf_platformRealm v /\ vf_allowTenantRealms v = true.
Proof.
  unfold base_trust. split.
  - destruct (starts_with base iss) eqn:Hs; [|done]. apply starts_with_app in Hs.
    set (r := of_chars _). destruct (re_test_full realm_re r) eqn:Hre; [|done]. cbn.
    case_bool_decide as Hp; [done|]. destruct (vf_allowTenantRealms v); [|done]. intros [= <-]. split_and!; [|done..].
    rewrite <- (of_chars_chars iss), Hs. unfold r. rewrite <- (of_chars_chars (base +:+ _)). by rewrite chars_app, chars_of_chars.
  - intros (-> & Hre & Hp & Ha). destruct (starts_with_prefix base realm) as [-> ->]. rewrite Hre. cbn.
    rewrite bool_decide_eq_false_2 by done. by rewrite Ha.
Qed.

Lemma base_trust_realm v iss base t :
  base_trust v iss base = Some t -> exists realm, iss = base +:+ realm /\ re_test_full realm_re realm = true /\
    (t = PlatformTrust /\ Some realm = vf_platformRealm v \/ t = TenantTrust realm /\ Some realm <> vf_platformRealm v).
Proof.
  unfold base_trust. destruct (starts_with base iss) eqn:Hs; [|done]. apply starts_with_app in Hs.
  set (r := of_chars _). intros Ht. exists r. destruct (re_test_full realm_re r) eqn:Hre; [|done]. cbn in Ht. split_and!; [|done|].
  - rewrite <- (of_chars_chars iss), Hs. unfold r. rewrite <- (of_chars_chars (base +:+ _)). by rewrite chars_app, chars_of_chars.
  - case_bool_decide; [left; by simplify_eq|]. right. destruct (vf_allowTenantRealms v); by simplify_eq.
Qed.

Lemma first_trust_some v iss bases t : first_trust v iss bases = Some t -> exists b, b ∈ bases /\ base_trust v iss b = Some t.
Proof.
  induction bases as [|b bases IH]; [done|]. simpl. destruct (base_trust v iss b) eqn:Hb.
  - intros [= ->]. exists b. split; [constructor | done].
  - intros (b' & Hin & Ht)%IH. exists b'. split; [by constructor | done].
Qed.

(** The realm after a base is the only one any base gives. *)
Lemma first_trust_tenant v bases base realm :
  Forall ends_with_slash bases -> base ∈ bases -> re_test_full realm_re realm = true -> Some realm <> vf_platformRealm v ->
  vf_allowTenantRealms v = true -> first_trust v (base +:+ realm) bases = Some (TenantTrust realm).
Proof.
  intros Hb Hin Hre Hp Ha. destruct (realm_segment realm Hre) as (Hs & _ & _). induction Hb as [|b bases Hb Hbs IH]; [set_solver|]. simpl.
  destruct (base_trust v (base +:+ realm) b) as [t|] eqn:Ht.
  - apply base_trust_realm in Ht as (realm' & Heq & Hre' & Hcase). destruct (realm_segment realm' Hre') as (Hs' & _ & _).
    assert (Hslash : ends_with_slash base).
    { apply elem_of_cons in Hin as [-> | Hin]; [done|]. rewrite Forall_forall in Hbs. by apply Hbs. }
    destruct (last_segment _ _ _ _ Hslash Hb Hs Hs' Heq) as [-> ->]. destruct Hcase as [[-> Hc] | [-> _]]; congruence.
  - apply elem_of_cons in Hin as [-> | Hin]; [|by apply IH]. rewrite (proj2 (base_trust_tenant v _ _ realm)) in Ht; [done | by split_and!].
Qed.

(** The serialisation of a URL without query and fragment ends with its path. *)
Class RealmUrlLaws `{!RealmUrls} :=
  href_ends_with_path : forall s u, realm_url s = Some u -> up_search u = "" -> up_hash u = "" ->
    exists origin, up_href u = origin +:+ up_pathname u.

Lemma strip_suffix_some p s t : strip_suffix p s = Some t -> s = t +:+ p.
Proof.
  unfold strip_suffix. case_bool_decide as Hd; [|done]. intros [= <-]. set (n := (_ - _)%nat) in *.
  rewrite <- (of_chars_chars (of_chars _ +:+ p)), chars_app, chars_of_chars, <- Hd, take_drop. by rewrite of_chars_chars.
Qed.

Lemma nonempty_false s : negb (nonempty s) = true -> s = "".
Proof. unfold nonempty. rewrite negb_involutive. apply String.eqb_eq. Qed.

Lemma ends_slash_app a b : ends_with_slash b -> ends_with_slash (a +:+ b).
Proof. intros [l Hl]. exists (chars a ++ l). by rewrite chars_app, Hl, app_assoc. Qed.

Lemma valid_base_slash `{!RealmUrls, !RealmUrlLaws} base : valid_base base = true -> ends_with_slash base.
Proof.
  unfold valid_base. destruct (realm_url base) as [u|] eqn:Hu; [|done]. rewrite !andb_true_iff.
  intros (((((((_ & _) & _) & _) & Hs) & Hh) & Hp) & <-%String.eqb_eq). apply nonempty_false in Hs, Hh.
  destruct (href_ends_with_path _ _ Hu Hs Hh) as [origin ->]. destruct (strip_suffix "/realms/" (up_pathname u)) as [t|] eqn:Ht; [|done].
  apply strip_suffix_some in Ht as ->. apply ends_slash_app, ends_slash_app. by exists (chars "/realms").
Qed.

Lemma realm_split_slash s b r : realm_split s = Some (b, r) -> ends_with_slash b.
Proof.
  unfold realm_split. destruct (split_last "/" (chars s)) as [[before realm]|]; [|done].
  destruct (_ && _); [|done]. intros [= <- _]. exists before. by rewrite chars_of_chars.
Qed.

Lemma topology_slash issuer url b r : deriveRealmTopology issuer url = Some (b, r) -> ends_with_slash b.
Proof.
  unfold deriveRealmTopology. destruct (issuer ≫= realm_split) as [[b' r']|] eqn:Hi.
  - intros [= -> ->]. destruct issuer; [|done]. by eapply realm_split_slash.
  - destruct url as [u|]; [|done]. cbn. destruct (strip_suffix certs_suffix _); [|done]. apply realm_split_slash.
Qed.

(** What the construction establishes. *)
Definition well_configured (v : verifier) : Prop :=
  Forall ends_with_slash (vf_bases v) /\ (vf_explicitBases v = false -> vf_bases v = (match vf_realmsBase v with Some b => [b] | None => [] end)).

Lemma created_verifier `{!RealmUrls, !RealmUrlLaws} o rev v : createRealmTokenVerifier o rev = Ok v -> well_configured v.
Proof.
  unfold createRealmTokenVerifier. intros (? & _ & Hv)%result_bind_ok. apply result_bind_ok in Hv as (? & _ & Hv).
  apply result_bind_ok in Hv as (? & _ & Hv). apply result_bind_ok in Hv as (bases & Hb & Hv).
  apply result_bind_ok in Hv as (? & _ & Hv). apply result_bind_ok in Hv as (audiences & _ & [= <-]). unfold well_configured. cbn.
  destruct (negb _) eqn:Hexp; [|injection Hb as <-; split; [|done]].
  - split; [|done]. unfold validateRealmBases in Hb. apply result_bind_ok in Hb as (l & _ & Hb). apply result_bind_ok in Hb as (? & Hall & [= <-]).
    apply throw_if_ok, negb_false_iff in Hall. rewrite forallb_forall in Hall. apply Forall_forall. intros b Hin.
    apply valid_base_slash, Hall. by apply list_elem_of_In.
  - destruct (deriveRealmTopology _ _) as [[b r]|] eqn:Ht; [|constructor]. cbn. repeat constructor. by eapply topology_slash.
Qed.

(** The tenant issuers of a verifier are exactly a configured base followed by
    one realm segment other than the platform realm, when tenant realms are allowed
    and the issuer is not the platform's; the realm a token is trusted for is that
    segment. *)
Theorem tenant_issuers `{!RealmUrls, !RealmUrlLaws} (o : jwt_options) (rev : option sa_config) (v : verifier) (iss : jsval) (realm : string) :
  createRealmTokenVerifier o rev = Ok v ->
  classifyIssuer v iss = Some (TenantTrust realm) <->
  vf_allowTenantRealms v = true /\ re_test_full realm_re realm = true /\ Some realm <> vf_platformRealm v /\
  exists base, base ∈ vf_bases v /\ iss = JStr (base +:+ realm) /\
    (vf_explicitBases v = false -> platformIssuer v <> Some (base +:+ realm)).
Proof.
  intros [Hslash Hbases]%created_verifier. unfold classifyIssuer.
  destruct (negb (vf_explicitBases v) && bool_decide (vf_issuer v = None) && bool_decide (vf_realmsBase v = None)) eqn:Hleg.
  - apply andb_true_iff in Hleg as [[Hexp _]%andb_true_iff Hbase]. apply negb_true_iff in Hexp. apply bool_decide_eq_true in Hbase.
    split; [done|]. intros (_ & _ & _ & base & Hin & _). rewrite Hbases, Hbase in Hin by done. by apply elem_of_nil in Hin.
  - clear Hleg. destruct (negb (vf_explicitBases v) && _) eqn:Hplat.
    + apply andb_true_iff in Hplat as [Hexp Hp]. apply negb_true_iff in Hexp. split; [done|].
      intros (_ & _ & _ & base & _ & -> & Hne). specialize (Hne Hexp). revert Hp Hne. destruct (platformIssuer v) as [p|]; [|done]. cbn. intros Hp Hne.
      apply String.eqb_eq in Hp. congruence.
    + split.
      * destruct iss as [| | | |i| |]; try done. intros (base & Hin & Ht)%first_trust_some. apply base_trust_tenant in Ht as (-> & Hre & Hp & Ha).
        split_and!; [done..|]. exists base. split_and!; [done..|]. intros Hexp Heq. rewrite Hexp, Heq in Hplat. cbn in Hplat.
        by rewrite String.eqb_refl in Hplat.
      * intros (Ha & Hre & Hp & base & Hin & -> & _). apply first_trust_tenant; [exact Hslash | exact Hin | exact Hre | exact Hp | exact Ha].
Qed.

#[local] Instance sample_realm_urls : RealmUrls := fun s =>
  if String.eqb s "https://kc.example/realms/"
  then Some (mk_url_parts "https:" "kc.example" "" "" "" "" "/realms/" "https://kc.example/realms/") else None.
#[local] Instance sample_realm_urls_laws : RealmUrlLaws.
Proof. intros s u. unfold realm_url, sample_realm_urls. destruct (String.eqb _ _); [|done]. intros [= <-] _ _. by exists "https://kc.example". Qed.

Definition sample_jwt_options : jwt_options :=
  mk_jwt_options (Some "https://kc.example/realms/platform/protocol/openid-connect/certs") (Some "https://kc.example/realms/platform") None
    (JArr [JStr "https://kc.example/realms/"]) (JArr [JStr "falcone"]) (Some "platform") (Some "falcone-api") true true.
Definition sample_verifier : verifier :=
  mk_verifier (jo_jwksUrl sample_jwt_options) (jo_issuer sample_jwt_options) (Some "https://kc.example/realms/") (Some "platform") true
    ["https://kc.example/realms/"] ["falcone"] (Some "falcone-api") true true 60 300000 None.

Lemma tenant_issuers_witness :
  createRealmTokenVerifier sample_jwt_options None = Ok sample_verifier /\
  classifyIssuer sample_verifier (JStr "https://kc.example/realms/acme") = Some (TenantTrust "acme").
Proof.
  split; [vm_compute; reflexivity|]. apply (tenant_issuers sample_jwt_options None); [vm_compute; reflexivity|].
  split_and!; [reflexivity | vm_compute; reflexivity | discriminate|]. exists "https://kc.example/realms/".
  split_and!; [left | reflexivity | discriminate].
Defined.

(** ** Keys *)

Section keys.
Context `{!Platform, !SaStore, !JwtRuntime} (v : verifier).
Local Notation jworld := (world jwt_state unit).

(** The [n]-th fetch gave this set for the URL. *)
Definition served_keys (n : N) (url : string) (keys : list jsval) : Prop :=
  exists body, fetch_jwks n url = Ok body /\ keys_of body = Ok keys.

(** Every cached set was served for its URL. *)
Definition jwks_sound (w : jworld) : Prop :=
  forall url keys at_, jw_caches (w_db w) !! url = Some (keys, at_) -> exists n, (n < jw_fetches (w_db w))%N /\ served_keys n url keys.

(** How a set was obtained by a call that began in [w]: from a fresh entry, or by a fetch of its own. *)
Definition obtained (w : jworld) (url : string) (keys : list jsval) : Prop :=
  (exists at_, jw_caches (w_db w) !! url = Some (keys, at_) /\ reading (w_tick w) - at_ < vf_cacheMs v) \/
  (exists n, (jw_fetches (w_db w) <= n)%N /\ served_keys n url keys).

(** Sound caches stay sound and fetches are counted. *)
Definition goes (w w' : jworld) : Prop :=
  (jw_fetches (w_db w) <= jw_fetches (w_db w'))%N /\ (w_tick w <= w_tick w')%N /\ (jwks_sound w -> jwks_sound w').

Lemma goes_refl w : goes w w. Proof. split_and!; [lia | lia | done]. Qed.
Lemma goes_trans w w' w'' : goes w w' -> goes w' w'' -> goes w w''.
Proof. intros (E1 & E2 & E3) (E4 & E5 & E6). split_and!; [lia | lia | auto]. Qed.

Lemma cached_keys_run url w :
  let '(r, w') := cached_keys v url w in w_db w' = w_db w /\ (w_tick w <= w_tick w')%N /\
  exists c, r = Ok c /\ forall keys, c = Some keys -> exists at_, jw_caches (w_db w) !! url = Some (keys, at_) /\ reading (w_tick w) - at_ < vf_cacheMs v.
Proof.
  unfold cached_keys, jwt_now, now_ms, query_db, reading. unfold_monad. cbn.
  destruct (jw_caches (w_db w) !! url) as [[keys at_]|] eqn:Hc; [|split_and!; [done | lia | by exists None]].
  case_bool_decide; [split_and!; [done | lia | by exists None]|]. cbn. split_and!; [done | lia|].
  eexists. split; [done|]. intros keys' Hk. destruct (Z.ltb_spec (Z.of_N (clock (w_tick w)) - at_) (vf_cacheMs v)); [|done].
  injection Hk as <-. by exists at_.
Qed.

Lemma fetch_keys_run url w :
  let '(r, w') := fetch_keys url w in goes w w' /\ forall keys, r = Ok keys -> served_keys (jw_fetches (w_db w)) url keys.
Proof.
  unfold fetch_keys, exec_db, jwt_now, now_ms, set_db. unfold_monad. cbn.
  assert (Hg : forall w', jw_fetches (w_db w') = N.succ (jw_fetches (w_db w)) -> jw_caches (w_db w') = jw_caches (w_db w) -> w_tick w' = w_tick w -> goes w w').
  { intros w' Hf Hc Ht. split_and!; [lia | lia|]. intros Hs u ks a. rewrite Hc, Hf. intros (n & Hn & Hsv)%Hs. exists n. split; [lia | done]. }
  destruct (fetch_jwks (jw_fetches (w_db w)) url) as [body|e] eqn:Hf; cbn; [|split; [by apply Hg | done]].
  destruct (keys_of body) as [keys|e] eqn:Hk; cbn; [|split; [by apply Hg | done]].
  assert (Hsv : served_keys (jw_fetches (w_db w)) url keys) by (exists body; done).
  split; [|by intros ? [= <-]]. split_and!; cbn; [lia | lia|]. intros Hs u ks a. cbn. rewrite lookup_insert_Some.
  intros [[<- [= <- <-]] | [_ (n & Hn & Hsv')%Hs]]; [exists (jw_fetches (w_db w)) | exists n]; (split; [lia | done]).
Qed.

Lemma jwks_run url force w :
  let '(r, w') := jwks v url force w in goes w w' /\
  forall keys, r = Ok keys -> obtained w url keys /\ (force = true -> exists n, (jw_fetches (w_db w) <= n)%N /\ served_keys n url keys).
Proof.
  unfold jwks.
  assert (Hfetch : forall w1, w_db w1 = w_db w -> (w_tick w <= w_tick w1)%N -> let '(r, w') := fetch_keys url w1 in
    goes w w' /\ forall keys, r = Ok keys -> obtained w url keys /\ (force = true -> exists n, (jw_fetches (w_db w) <= n)%N /\ served_keys n url keys)).
  { intros w1 Hdb Ht. pose proof (fetch_keys_run url w1) as Hf. destruct (fetch_keys url w1) as [r w']. destruct Hf as [(Hle & Ht' & Hs) Hk].
    rewrite Hdb in *. split.
    - split_and!; [done | lia|]. intros Hsound. apply Hs. intros u ks a. rewrite Hdb. apply Hsound.
    - intros keys Hr. specialize (Hk keys Hr). assert (Hex : exists n, (jw_fetches (w_db w) <= n)%N /\ served_keys n url keys) by (eexists; split; [|done]; lia).
      split; [by right | done]. }
  destruct force; [unfold_monad; by apply Hfetch|]. pose proof (cached_keys_run url w) as Hc. unfold mbind, M_bind.
  destruct (cached_keys v url w) as [r w1]. destruct Hc as (Hdb & Ht & [keys|] & -> & Hk); [|by apply Hfetch].
  unfold mret, M_ret. split; [|intros ks [= <-]; split; [left; by apply Hk | done]].
  split_and!; [by rewrite Hdb | done|]. intros Hs u ks a. rewrite Hdb. apply Hs.
Qed.

Lemma find_key_some kid alg keys k : find_key kid alg keys = Ok (Some k) -> k ∈ keys /\ key_matches kid alg k = true.
Proof.
  induction keys as [|k' keys IH]; [done|]. cbn [find_key]. intros (u & _ & Hk)%result_bind_ok.
  destruct (key_matches kid alg k') eqn:Hm; [injection Hk as <-; split; [constructor | done]|].
  destruct (IH Hk). split; [by constructor | done].
Qed.

Lemma publicKeyFor_run url kid alg w :
  let '(r, w') := publicKeyFor v url kid alg w in goes w w' /\
  forall k, r = Ok k -> exists keys, obtained w url keys /\ k ∈ keys /\ key_matches kid alg k = true /\ rs_import k = true.
Proof.
  unfold publicKeyFor. unfold mbind at 1, M_bind at 1. pose proof (jwks_run url false w) as Hj.
  destruct (jwks v url false w) as [[keys|e] w1]; [|by destruct Hj]. destruct Hj as [Hg Hkeys]. specialize (Hkeys keys eq_refl).
  unfold mbind at 1, M_bind at 1, lift at 1. destruct (find_key kid alg keys) as [[k|]|e] eqn:Hf; [| |done].
  - apply find_key_some in Hf as [Hin Hm]. unfold_monad. cbn. destruct (rs_import k) eqn:Hi; cbn; (split; [done|]); [|done].
    intros k' [= <-]. exists keys. split_and!; [apply Hkeys | done..].
  - unfold mbind at 1, M_bind at 1. unfold mbind at 1, M_bind at 1. pose proof (jwks_run url true w1) as Hj.
    destruct (jwks v url true w1) as [[keys'|e] w2]; destruct Hj as [Hg' Hkeys']; [|split; [by eapply goes_trans | done]].
    unfold lift at 1. destruct (find_key kid alg keys') as [[k|]|e] eqn:Hf'; cbn; try (split; [by eapply goes_trans | done]).
    apply find_key_some in Hf' as [Hin Hm]. unfold_monad. cbn. destruct (rs_import k) eqn:Hi; cbn; (split; [by eapply goes_trans|]); [|done].
    intros k' [= <-]. destruct (Hkeys' keys' eq_refl) as [_ Hfresh]. destruct (Hfresh eq_refl) as (n & Hn & Hs).
    exists keys'. split_and!; [|done..]. right. exists n. split; [|done]. destruct Hg. lia.
Qed.

(** Looking a key up does not touch the accounts. *)
Lemma publicKeyFor_accounts a url kid alg : keeps (fun s => jw_accounts s = a) (publicKeyFor v url kid alg).
Proof.
  assert (Hf : keeps (fun s => jw_accounts s = a) (fetch_keys url)).
  { unfold fetch_keys, jwt_now. keeps_tac; by apply keeps_exec. }
  assert (Hj : forall force, keeps (fun s => jw_accounts s = a) (jwks v url force)).
  { intros force. unfold jwks, cached_keys, jwt_now. keeps_tac. }
  unfold publicKeyFor. keeps_tac; apply Hj.
Qed.

Lemma check_revoked_run claims t w :
  let '(r, w') := check_revoked v claims t w in goes w w' /\
  forall cfg, vf_revocation v = Some cfg ->
    r = fst (revocationCheck cfg claims (Some t) (mk_world (jw_accounts (w_db w)) (w_tick w) (w_uuids w) (w_published w) [])).
Proof.
  unfold check_revoked. destruct (vf_revocation v) as [cfg|]; [|by split; [apply goes_refl|]].
  set (wa := mk_world _ _ _ _ _). pose proof (check_checked cfg claims (Some t) wa) as Hk.
  destruct (revocationCheck cfg claims (Some t) wa) as [r w'] eqn:Hc.
  split; [|intros cfg' [= <-]; by rewrite Hc]. split_and!; cbn; [lia | | done].
  destruct Hk as [-> | (realm & client & _ & _ & Ht & _)]; [done | exact Ht].
Qed.
End keys.

(** ** Accepted tokens *)

Section accepted.
Context `{!Platform, !SaStore, !JwtRuntime} (v : verifier).
Local Notation jworld := (world jwt_state unit).

Definition empty_jwt (rows : list sa_row) : jworld := mk_world (mk_jwt_state ∅ 0 (mk_sa_state rows ∅ 0)) 0 0 0 [].

(** The verifications of a sequence of tokens, one after the other. *)
Fixpoint verify_all (tokens : list string) (w : jworld) : jworld :=
  match tokens with [] => w | t :: ts => verify_all ts (snd (verify v t w)) end.

(** The signature of a token: its parts, the key and the set it came from. *)
Record signed_by (w : jworld) (token : string) (claims : jsval) (t : trust) (keys : list jsval) (key : jsval) : Prop := {
  sb_parts : exists h p s header digest, split_on "." token = [h; p; s] /\ object_segment h = Some header /\
    object_segment p = Some claims /\ digest_of header = Some digest /\
    key_matches (js_get header "kid") (js_get header "alg") key = true /\ rs_verify digest (h +:+ "." +:+ p) key s = true;
  sb_issuer : classifyIssuer v (js_get claims "iss") = Some t;
  sb_member : key ∈ keys;
  sb_keys : obtained v w (jwksUrlForIssuer v (js_get claims "iss") t) keys
}.

Lemma reject_ok b c t (w : jworld) : fst (reject_if b c t w) = Ok tt -> b = false.
Proof. unfold reject_if, lift, throw_if. by destruct b. Qed.

Lemma verify_run token w :
  let '(r, w') := verify v token w in goes w w' /\
  forall claims t, r = Ok (claims, t) ->
    (exists keys key, signed_by w token claims t keys key) /\
    (exists k, (w_tick w <= k < w_tick w')%N /\ expired v claims (reading k / 1000) = false /\ not_yet v claims (reading k / 1000) = false) /\
    audience_ok v claims t = true /\
    (forall cfg, vf_revocation v = Some cfg -> exists wa, w_db wa = jw_accounts (w_db w) /\ (w_tick w <= w_tick wa)%N /\
       fst (revocationCheck cfg claims (Some t) wa) = Ok false).
Proof.
  unfold verify. destruct (split_on "." token) as [|h [|p [|s [|]]]] eqn:Hsplit; try (by split; [apply goes_refl|]).
  destruct (object_segment h) as [header|] eqn:Hh; [|by split; [apply goes_refl|]].
  destruct (object_segment p) as [claims|] eqn:Hp; [|by split; [apply goes_refl|]].
  destruct (digest_of header) as [digest|] eqn:Hd; [|by split; [apply goes_refl|]].
  destruct (classifyIssuer v (js_get claims "iss")) as [t|] eqn:Ht; [|by split; [apply goes_refl|]].
  set (url := jwksUrlForIssuer v (js_get claims "iss") t). unfold mbind at 1, M_bind at 1, at_category at 1, try_catch at 1.
  pose proof (publicKeyFor_accounts v (jw_accounts (w_db w)) url (js_get header "kid") (js_get header "alg") w eq_refl) as Hacc.
  pose proof (publicKeyFor_run v url (js_get header "kid") (js_get header "alg") w) as Hk.
  destruct (publicKeyFor v url (js_get header "kid") (js_get header "alg") w) as [[key|e] w1]; [|by destruct Hk].
  destruct Hk as [Hg Hk]. destruct (Hk key eq_refl) as (keys & Hobt & Hin & Hm & _).
  destruct (rs_verify digest (h +:+ "." +:+ p) key s) eqn:Hrs; [|by split].
  unfold reject_if, jwt_now, now_ms, at_category. unfold_monad. cbn.
  assert (Hg1 : forall w2, w_db w2 = w_db w1 -> (w_tick w1 <= w_tick w2)%N -> goes w w2).
  { intros w2 Hdb Htick. destruct Hg as (Hf & Htk & Hs). split_and!; [by rewrite Hdb | lia|]. intros H2 u ks a. rewrite Hdb. by apply Hs. }
  set (w2 := mk_world (w_db w1) (N.succ (w_tick w1)) _ _ _).
  destruct (expired v claims _) eqn:He; cbn; [split; [apply Hg1; cbn; lia || done | done]|].
  destruct (not_yet v claims _) eqn:Hny; cbn; [split; [apply Hg1; cbn; lia || done | done]|].
  destruct (audience_ok v claims t) eqn:Ha; cbn; [|split; [apply Hg1; cbn; lia || done | done]].
  pose proof (check_revoked_run v claims t w2) as Hc. destruct (check_revoked v claims t w2) as [[[]|e] w3]; cbn;
    destruct Hc as [Hg3 Hrev]; (assert (Hg' : goes w w3) by (eapply goes_trans; [|exact Hg3]; apply Hg1; cbn; lia || done)); [by split | | by split].
  split; [done|]. intros claims' t' [= <- <-]. split_and!; [| |done|].
  - exists keys, key. constructor; [by eexists _, _, _, _, _ | done..].
  - exists (w_tick w1). destruct Hg as (_ & Htk & _), Hg3 as (_ & Htk3 & _). cbn in Htk3. unfold reading. split; [lia | done].
  - intros cfg Hcfg. specialize (Hrev cfg Hcfg). eexists. split; [|split; [|by rewrite <- Hrev]].
    + cbn. exact Hacc.
    + cbn. destruct Hg as (_ & Htk & _). lia.
Qed.

Lemma verify_all_sound tokens w : jwks_sound w -> jwks_sound (verify_all tokens w).
Proof.
  revert w. induction tokens as [|t ts IH]; intros w Hw; [done|]. simpl. apply IH. pose proof (verify_run t w) as Hv.
  destruct (verify v t w) as [r w']. by apply Hv.
Qed.

End accepted.

(** C5: a token is accepted only on grounds.  Whatever tokens were verified before,
    an accepted one is signed, with RS256, RS384 or RS512, by a key of a set its own
    issuer served - in a fetch of this call, or in an earlier one cached for less than
    [cacheMs] -, its issuer has the trust reported, at a reading of the clock during
    the call it is neither expired nor early, it is meant for this audience, and the
    revocation check, run on the accounts as they are, did not reject it. *)
Theorem accepted_token `{!Platform, !SaStore, !JwtRuntime} (v : verifier) (rows : list sa_row) (tokens : list string)
    (token : string) (claims : jsval) (t : trust) :
  let w := verify_all v tokens (empty_jwt rows) in
  let '(r, w') := verify v token w in
  r = Ok (claims, t) ->
  (exists n keys key, served_keys n (jwksUrlForIssuer v (js_get claims "iss") t) keys /\ signed_by v w token claims t keys key) /\
  (exists k, (w_tick w <= k < w_tick w')%N /\ expired v claims (reading k / 1000) = false /\ not_yet v claims (reading k / 1000) = false) /\
  audience_ok v claims t = true /\
  (forall cfg, vf_revocation v = Some cfg -> exists wa, w_db wa = jw_accounts (w_db w) /\ (w_tick w <= w_tick wa)%N /\
     fst (revocationCheck cfg claims (Some t) wa) = Ok false).
Proof.
  intros w. pose proof (verify_run v token w) as Hv. destruct (verify v token w) as [r w']. intros Hr.
  destruct Hv as [_ Hv]. destruct (Hv claims t Hr) as ((keys & key & Hs) & Hrest). split; [|exact Hrest].
  destruct (sb_keys _ _ _ _ _ _ _ Hs) as [(at_ & Hc & _) | (n & _ & Hn)]; [|by exists n, keys, key].
  assert (Hw : jwks_sound w) by (apply verify_all_sound; intros ? ? ? E; done).
  destruct (Hw _ _ _ Hc) as (n & _ & Hn). by exists n, keys, key.
Qed.

#[local] Instance sample_jwt_platform : Platform := {| clock := fun n => (1000 * n)%N; uuid := fun _ => "uuid"; broker := fun _ => None |}.
#[local] Instance sample_jwt_store : SaStore := {| query_fails := fun _ => false |}.
Definition sample_jwk : jsval := JObj [("kty", JStr "RSA"); ("kid", JStr "k1"); ("n", JStr "AQAB")].
#[local] Instance sample_jwt_runtime : JwtRuntime := {|
  segment_json := fun s =>
    if String.eqb s "head" then Some (JObj [("alg", JStr "RS256"); ("kid", JStr "k1")])
    else if String.eqb s "body" then Some (JObj [("iss", JStr "https://kc.example/realms/acme"); ("aud", JStr "falcone-api"); ("exp", jint 900)])
    else None;
  fetch_jwks := fun _ _ => Ok (JObj [("keys", JArr [sample_jwk])]);
  rs_import := fun _ => true;
  rs_verify := fun digest text key sig => String.eqb digest "sha256" && String.eqb text "head.body" && jsval_eqb key sample_jwk && String.eqb sig "sig"
|}.

Lemma accepted_token_witness :
  let w := verify_all sample_verifier ["head.body.sig"; "head.body.forged"] (empty_jwt []) in
  exists claims w', verify sample_verifier "head.body.sig" w = (Ok (claims, TenantTrust "acme"), w') /\
    audience_ok sample_verifier claims (TenantTrust "acme") = true.
Proof.
  pose proof (accepted_token sample_verifier [] ["head.body.sig"; "head.body.forged"] "head.body.sig"
    (JObj [("iss", JStr "https://kc.example/realms/acme"); ("aud", JStr "falcone-api"); ("exp", jint 900)]) (TenantTrust "acme")) as Ht.
  cbv zeta in Ht |- *. destruct (verify _ _ _) as [r w'] eqn:Hv.
  assert (Hr : r = Ok (JObj [("iss", JStr "https://kc.example/realms/acme"); ("aud", JStr "falcone-api"); ("exp", jint 900)], TenantTrust "acme")).
  { apply (f_equal fst) in Hv. simpl fst in Hv at 2. rewrite <- Hv. vm_compute. reflexivity. }
  destruct (Ht Hr) as (_ & _ & Ha & _). rewrite Hr. by eexists _, w'.
Defined.
