(* ===== verification/Authz.v ===== *)
(** * Authorization in the control plane

    apps/control-plane [server.mjs] (the identity of a verified token and the gate of a
    route), [model-authz.mjs] over the permission matrix of internal-contracts'
    [authorization-model.json], [tenant-scope.mjs], [workspace-authz.mjs], the observer
    test of [knative-runtime-handlers.mjs], [authFrom] of [route-invoke.mjs] and
    internal-contracts' [workspace-binding.mjs]. *)
From S2P Require Import Prelude JsValue Regex Platform SaRevocation JwtTrust.
From Stdlib Require Import Ascii.
Local Open Scope Z_scope.

(** ** The binding of a token to workspaces *)

(** [/^[^\s,]+$/] *)
Definition workspace_token (s : string) : bool := nonempty s && forallb (fun c => negb (is_space c || Ascii.eqb c ",")) (chars s).
Definition isWorkspaceToken (v : jsval) : bool := match v with JStr s => workspace_token s | _ => false end.

Record binding := mk_binding { bd_valid : bool; bd_singular : option string; bd_plural : option (list string) }.
Definition invalid_binding : binding := mk_binding false None None.

(** [s.split(/[ ,]+/).filter(Boolean)] *)
Definition split_tokens (s : string) : list string :=
  List.filter nonempty (concat (split_on " " <$> split_on "," s)).

Definition plural_tokens (plural : jsval) : option (list jsval) :=
  match plural with
  | JArr xs => Some xs
  | JStr s => Some (JStr <$> split_tokens (trim s))
  | _ => None
  end.

Definition normalizeWorkspaceBinding (singular plural : jsval) : binding :=
  if negb (nullish singular) && negb (isWorkspaceToken singular) then invalid_binding
  else
    let one := match singular with JStr s => Some s | _ => None end in
    if nullish plural then mk_binding true one None
    else match plural_tokens plural with
    | Some tokens =>
        if forallb isWorkspaceToken tokens then
          let many := string_set tokens in
          match one with
          | Some s => if bool_decide (many = [s]) then mk_binding true one (Some many) else invalid_binding
          | None => mk_binding true one (Some many)
          end
        else invalid_binding
    | None => invalid_binding
    end.

(** ** Identities *)

Record identity := mk_identity {
  id_sub : jsval;
  id_tenantId : jsval;
  id_workspaceId : option string;
  id_invalidBinding : bool;
  id_workspaceIds : list string;
  id_actorType : jsval;
  id_privilegeDomains : jsval;
  id_isServiceAccount : bool;
  id_trust : trust;
  id_roles : list jsval;
  id_scopes : list jsval
}.

Definition KNOWN_ROLE_TO_ACTORTYPE : list (string * string) :=
  [("superadmin", "superadmin"); ("platform_admin", "superadmin"); ("platform_operator", "internal");
   ("tenant_owner", "tenant_owner"); ("tenant_admin", "tenant_owner"); ("workspace_admin", "workspace_admin"); ("workspace_owner", "workspace_admin")].

Definition has_role (roles : list jsval) (r : string) : bool := existsb (fun x => strict_eq x (JStr r)) roles.

(** [claims?.realm_access?.roles ?? []]; a value that is neither an array nor absent
    has no [includes] or no [join]. *)
Definition realm_roles (claims : jsval) : result js_error (list jsval) :=
  match coalesce (js_get (js_get claims "realm_access") "roles") (JArr []) with
  | JArr roles => Ok roles
  | _ => Err (plain_error "roles.join is not a function")
  end.

Fixpoint first_known (roles : list jsval) (known : list (string * string)) : string :=
  match known with
  | [] => "tenant_member"
  | (role, type) :: known' => if has_role roles role then type else first_known roles known'
  end.

Definition deriveActorType (claims : jsval) (roles : list jsval) : jsval :=
  if truthy (js_get claims "actor_type") then js_get claims "actor_type" else JStr (first_known roles KNOWN_ROLE_TO_ACTORTYPE).

Definition scopes_of (claims : jsval) : list jsval :=
  match js_get claims "scope" with
  | JStr s => JStr <$> List.filter nonempty (split_on " " s)
  | _ => match js_get claims "scopes" with JArr xs => xs | _ => [] end
  end.

(** The identity [authenticate] builds from what the verifier returns. *)
Definition identity_of (claims : jsval) (t : trust) : result js_error identity :=
  realm_roles claims ≫= fun roles =>
  let tenantId := match t with TenantTrust realm => JStr realm | _ => coalesce (js_get claims "tenant_id") JNull end in
  let b := normalizeWorkspaceBinding (js_get claims "workspace_id") (js_get claims "workspace_ids") in
  Ok (mk_identity (js_get claims "sub") tenantId (bd_singular b) (negb (bd_valid b))
        (match bd_plural b with Some ws => ws | None => match bd_singular b with Some w => [w] | None => [] end end)
        (deriveActorType claims roles)
        (coalesce (coalesce (js_get claims "privilegeDomains") (js_get claims "privilege_domains")) (JObj []))
        (isServiceAccountClientId (clientIdFromClaims claims)) t roles (scopes_of claims)).

(** [/^bearer\s+/i] and what follows. *)
Definition bearer_token (auth : string) : option string :=
  let l := chars auth in
  if re_test_start (RSeq (rlit_ci "bearer") (rplus (RCls is_space))) auth
  then Some (of_chars (drop_while is_space (drop 6 l))) else None.

(** ** The permission matrix *)

Inductive matrix_scope := PlatformScope | TenantScope | WorkspaceScope.
Record matrix_entry := mk_matrix_entry { me_role : string; me_scope : matrix_scope; me_allowed : list string; me_denied : list string }.

Definition permission_matrix : list matrix_entry := [
  mk_matrix_entry "platform_admin" PlatformScope
    ["tenant.read"; "tenant.update"; "tenant.members.manage"; "tenant.workspaces.create"; "tenant.audit.read"; "tenant.audit.correlate";
      "tenant.usage.read"; "tenant.suspend"; "workspace.read"; "workspace.audit.read"; "workspace.usage.read"; "workspace.audit.correlate";
      "workspace.update"; "workspace.members.manage"; "workspace.delete"; "app.admin"; "app.credentials.rotate"; "service_account.admin";
      "service_account.rotate"; "function.audit.read"; "function.audit.coverage.read"; "tenant.audit.export"; "workspace.audit.export";
      "tenant.quota.read"; "tenant.overview.read"; "workspace.quota.read"; "workspace.overview.read"]
    [];
  mk_matrix_entry "platform_operator" PlatformScope
    ["tenant.read"; "tenant.usage.read"; "workspace.read"; "workspace.audit.read"; "workspace.usage.read"; "app.read"; "service_account.read";
      "tenant.quota.read"; "tenant.overview.read"; "workspace.quota.read"; "workspace.overview.read"]
    ["tenant.members.manage"; "tenant.suspend"; "workspace.delete"];
  mk_matrix_entry "platform_auditor" PlatformScope
    ["tenant.audit.read"; "tenant.audit.correlate"; "tenant.read"; "workspace.read"; "workspace.audit.read"; "workspace.usage.read";
      "workspace.audit.correlate"; "app.read"; "service_account.read"; "function.audit.read"; "function.audit.coverage.read"; "tenant.audit.export";
      "workspace.audit.export"; "workspace.quota.read"; "workspace.overview.read"]
    ["tenant.update"; "tenant.suspend"; "workspace.update"];
  mk_matrix_entry "tenant_owner" TenantScope
    ["tenant.read"; "tenant.update"; "tenant.members.manage"; "tenant.workspaces.create"; "tenant.audit.read"; "tenant.audit.correlate";
      "tenant.usage.read"; "workspace.usage.read"; "tenant.invitations.manage"; "tenant.role_mappings.manage"; "tenant.ownership.transfer";
      "tenant.ownership_transfers.read"; "tenant.effective_permissions.read"; "tenant.effective_permissions.recalculate"; "workspace.read";
      "workspace.update"; "workspace.members.manage"; "workspace.invitations.manage"; "workspace.role_mappings.manage"; "workspace.policy.manage";
      "workspace.effective_permissions.read"; "workspace.effective_permissions.recalculate"; "tenant.audit.export"; "tenant.quota.read";
      "tenant.overview.read"; "workspace.quota.read"; "workspace.overview.read"; "database.admin"; "bucket.admin"; "topic.admin"]
    ["function.admin"; "function.deploy"; "function.invoke"; "app.admin"; "app.deploy"; "app.credentials.rotate"; "app.federation.manage";
      "app.attribute_mappers.manage"; "app.logout.manage"; "service_account.admin"; "service_account.rotate"; "service_account.credentials.issue";
      "service_account.credentials.revoke"];
  mk_matrix_entry "tenant_admin" TenantScope
    ["tenant.read"; "tenant.update"; "tenant.members.manage"; "tenant.workspaces.create"; "tenant.audit.read"; "tenant.audit.correlate";
      "tenant.usage.read"; "workspace.usage.read"; "tenant.invitations.manage"; "tenant.role_mappings.manage"; "tenant.ownership_transfers.read";
      "tenant.effective_permissions.read"; "tenant.effective_permissions.recalculate"; "workspace.read"; "workspace.update";
      "workspace.members.manage"; "workspace.invitations.manage"; "workspace.role_mappings.manage"; "workspace.policy.manage";
      "workspace.effective_permissions.read"; "workspace.effective_permissions.recalculate"; "tenant.audit.export"; "tenant.quota.read";
      "tenant.overview.read"; "workspace.quota.read"; "workspace.overview.read"; "database.admin"; "bucket.admin"; "topic.admin"]
    ["tenant.suspend"; "tenant.ownership.transfer"; "function.admin"; "function.deploy"; "function.invoke"; "app.admin"; "app.deploy";
      "app.credentials.rotate"; "app.federation.manage"; "app.attribute_mappers.manage"; "app.logout.manage"; "service_account.admin";
      "service_account.rotate"; "service_account.credentials.issue"; "service_account.credentials.revoke"; "database.rpc.execute";
      "database.admin_sql.execute"];
  mk_matrix_entry "tenant_developer" TenantScope
    ["tenant.read"; "tenant.usage.read"; "workspace.usage.read"; "tenant.effective_permissions.read"; "tenant.ownership_transfers.read";
      "workspace.read"; "app.templates.read"; "tenant.quota.read"; "tenant.overview.read"; "workspace.quota.read"; "workspace.overview.read"]
    ["tenant.update"; "tenant.members.manage"; "tenant.workspaces.create"; "tenant.invitations.manage"; "tenant.role_mappings.manage";
      "tenant.ownership.transfer"; "tenant.effective_permissions.recalculate"; "workspace.update"; "workspace.members.manage";
      "workspace.invitations.manage"; "workspace.role_mappings.manage"; "workspace.policy.manage"; "workspace.effective_permissions.recalculate";
      "database.admin"; "database.write"; "bucket.admin"; "bucket.write"; "topic.admin"; "topic.publish"; "topic.consume"; "function.admin";
      "function.deploy"; "function.invoke"; "app.admin"; "app.deploy"; "app.credentials.rotate"; "app.federation.manage";
      "app.attribute_mappers.manage"; "app.logout.manage"; "service_account.admin"; "service_account.rotate"; "service_account.credentials.issue";
      "service_account.credentials.revoke"];
  mk_matrix_entry "tenant_viewer" TenantScope
    ["tenant.read"; "tenant.audit.read"; "tenant.usage.read"; "workspace.usage.read"; "tenant.effective_permissions.read";
      "tenant.ownership_transfers.read"; "workspace.read"; "app.templates.read"; "tenant.quota.read"; "tenant.overview.read"; "workspace.quota.read";
      "workspace.overview.read"]
    ["tenant.update"; "tenant.members.manage"; "tenant.workspaces.create"; "tenant.invitations.manage"; "tenant.role_mappings.manage";
      "tenant.ownership.transfer"; "tenant.effective_permissions.recalculate"; "workspace.update"; "workspace.members.manage";
      "workspace.invitations.manage"; "workspace.role_mappings.manage"; "workspace.policy.manage"; "workspace.effective_permissions.recalculate";
      "database.write"; "database.admin"; "bucket.write"; "bucket.admin"; "topic.publish"; "topic.consume"; "topic.admin"; "function.deploy";
      "function.invoke"; "function.admin"; "app.deploy"; "app.admin"; "app.credentials.rotate"; "app.federation.manage";
      "app.attribute_mappers.manage"; "app.logout.manage"; "service_account.rotate"; "service_account.admin"; "service_account.credentials.issue";
      "service_account.credentials.revoke"];
  mk_matrix_entry "workspace_owner" WorkspaceScope
    ["workspace.read"; "workspace.audit.read"; "workspace.usage.read"; "workspace.audit.correlate"; "workspace.update"; "workspace.members.manage";
      "workspace.invitations.manage"; "workspace.role_mappings.manage"; "workspace.policy.manage"; "database.admin"; "bucket.admin"; "topic.read";
      "topic.admin"; "function.read"; "function.admin"; "app.admin"; "app.credentials.rotate"; "app.redirect_uris.manage"; "service_account.read";
      "service_account.rotate"; "service_account.admin"; "service_account.credentials.issue"; "service_account.credentials.revoke";
      "app.federation.read"; "app.federation.manage"; "app.attribute_mappers.manage"; "app.logout.manage"; "app.templates.read";
      "database.rpc.execute"; "database.admin_sql.execute"; "function.audit.read"; "workspace.audit.export"; "workspace.quota.read";
      "workspace.overview.read"]
    ["tenant.members.manage"; "tenant.suspend"];
  mk_matrix_entry "workspace_admin" WorkspaceScope
    ["workspace.read"; "workspace.audit.read"; "workspace.usage.read"; "workspace.audit.correlate"; "workspace.update"; "workspace.members.manage";
      "workspace.invitations.manage"; "workspace.role_mappings.manage"; "workspace.policy.manage"; "database.admin"; "bucket.admin"; "topic.read";
      "topic.admin"; "function.read"; "function.admin"; "app.admin"; "app.credentials.rotate"; "app.redirect_uris.manage"; "service_account.read";
      "service_account.rotate"; "service_account.admin"; "service_account.credentials.issue"; "service_account.credentials.revoke";
      "app.federation.read"; "app.federation.manage"; "app.attribute_mappers.manage"; "app.logout.manage"; "app.templates.read";
      "database.rpc.execute"; "database.admin_sql.execute"; "function.audit.read"; "workspace.audit.export"; "workspace.quota.read";
      "workspace.overview.read"]
    ["tenant.members.manage"; "tenant.suspend"];
  mk_matrix_entry "workspace_developer" WorkspaceScope
    ["workspace.read"; "database.read"; "database.write"; "bucket.read"; "bucket.write"; "topic.read"; "topic.publish"; "topic.consume";
      "function.read"; "function.invoke"; "function.deploy"; "app.read"; "app.deploy"; "app.redirect_uris.manage"; "service_account.read";
      "app.federation.read"; "app.attribute_mappers.manage"; "app.templates.read"; "database.rpc.execute"; "workspace.usage.read";
      "workspace.quota.read"; "workspace.overview.read"]
    ["workspace.members.manage"; "workspace.invitations.manage"; "workspace.role_mappings.manage"; "workspace.policy.manage"; "database.admin";
      "bucket.admin"; "topic.admin"; "function.admin"; "app.admin"; "service_account.rotate"; "service_account.admin";
      "service_account.credentials.issue"; "service_account.credentials.revoke"; "app.federation.manage"; "app.logout.manage";
      "database.admin_sql.execute"];
  mk_matrix_entry "workspace_operator" WorkspaceScope
    ["workspace.read"; "workspace.audit.read"; "workspace.usage.read"; "workspace.audit.correlate"; "database.read"; "bucket.read"; "topic.read";
      "topic.consume"; "function.read"; "function.invoke"; "app.read"; "service_account.read"; "service_account.rotate"; "workspace.quota.read";
      "workspace.overview.read"]
    ["workspace.update"; "workspace.invitations.manage"; "workspace.role_mappings.manage"; "workspace.policy.manage"; "database.write";
      "bucket.write"; "topic.admin"; "function.deploy"; "app.deploy"; "service_account.admin"; "service_account.credentials.issue";
      "service_account.credentials.revoke"];
  mk_matrix_entry "workspace_auditor" WorkspaceScope
    ["workspace.read"; "workspace.audit.read"; "workspace.usage.read"; "workspace.audit.correlate"; "database.read"; "bucket.read"; "topic.read";
      "function.read"; "app.read"; "service_account.read"; "workspace.audit.export"; "workspace.quota.read"; "workspace.overview.read"]
    ["workspace.update"; "database.write"; "bucket.write"; "topic.publish"; "function.deploy"; "app.deploy"; "service_account.rotate";
      "service_account.admin"; "service_account.credentials.issue"; "service_account.credentials.revoke"];
  mk_matrix_entry "workspace_viewer" WorkspaceScope
    ["workspace.read"; "workspace.audit.read"; "workspace.usage.read"; "database.read"; "bucket.read"; "topic.read"; "function.read"; "app.read";
      "service_account.read"; "app.federation.read"; "app.templates.read"; "workspace.quota.read"; "workspace.overview.read"]
    ["workspace.update"; "workspace.members.manage"; "database.write"; "bucket.write"; "topic.publish"; "function.deploy"; "function.invoke";
      "app.deploy"; "service_account.rotate"; "service_account.admin"; "service_account.credentials.issue"; "service_account.credentials.revoke";
      "app.federation.manage"; "app.attribute_mappers.manage"; "app.logout.manage"; "database.rpc.execute"; "database.admin_sql.execute"];
  mk_matrix_entry "workspace_service_account" WorkspaceScope
    ["workspace.read"; "database.read"; "database.write"; "bucket.read"; "bucket.write"; "topic.read"; "topic.publish"; "topic.consume";
      "function.read"; "function.invoke"; "app.read"; "service_account.read"; "database.rpc.execute"]
    ["workspace.update"; "workspace.members.manage"; "workspace.invitations.manage"; "workspace.role_mappings.manage"; "workspace.policy.manage";
      "database.admin"; "bucket.admin"; "topic.admin"; "function.deploy"; "function.admin"; "app.deploy"; "app.admin"; "service_account.rotate";
      "service_account.admin"; "service_account.credentials.issue"; "service_account.credentials.revoke"; "database.admin_sql.execute"]].

(** [new Map(...)]: the last entry of a role. *)
Definition permission_of (role : string) : option matrix_entry := List.find (fun e => String.eqb (me_role e) role) (reverse permission_matrix).
Definition known_action (action : string) : bool := existsb (fun e => str_in action (me_allowed e) || str_in action (me_denied e)) permission_matrix.
Definition TENANT_ROLES : list string := me_role <$> List.filter (fun e => match me_scope e with TenantScope => true | _ => false end) permission_matrix.

(** ** The decisions *)

Definition actor_is (id : identity) (types : list string) : bool := existsb (fun t => strict_eq (id_actorType id) (JStr t)) types.
Definition isPlatformIdentity (id : identity) : bool := actor_is id ["superadmin"; "internal"].

(** [a && x === a] for a tenant of the request. *)
Definition same_tenant (id : identity) (tenant : option string) : bool :=
  match tenant with Some t => nonempty t && strict_eq (id_tenantId id) (JStr t) | None => false end.
Definition bound_to (id : identity) (workspace : option string) : bool :=
  match workspace with Some w => nonempty w && str_in w (id_workspaceIds id) | None => false end.

Definition role_grants (id : identity) (action : string) (tenantId workspaceId : option string) (role : jsval) : bool :=
  match role with
  | JStr r =>
      match permission_of r with
      | Some e =>
          str_in action (me_allowed e) &&
          match me_scope e with
          | PlatformScope => String.eqb r "platform_admin"
          | TenantScope => same_tenant id tenantId
          | WorkspaceScope => same_tenant id tenantId && bound_to id workspaceId
          end
      | None => false
      end
  | _ => false
  end.

Definition can (id : identity) (action : string) (tenantId workspaceId : option string) : bool :=
  known_action action && (isPlatformIdentity id || existsb (role_grants id action tenantId workspaceId) (id_roles id)).

(** [tenant-scope.mjs] *)
Definition callerTenantScope (id : identity) : jsval := if isPlatformIdentity id then JNull else coalesce (id_tenantId id) JNull.

Definition canManageTenant (id : identity) (tenantId : option string) : bool :=
  isPlatformIdentity id ||
  (actor_is id ["tenant_owner"; "tenant_admin"] && match tenantId with Some t => strict_eq (id_tenantId id) (JStr t) | None => false end).

Definition isWorkspaceInviteOperator (id : identity) (workspaceId : string) (tenantId : string) : bool :=
  nonempty workspaceId && strict_eq (id_tenantId id) (JStr tenantId)
  && (actor_is id ["workspace_admin"] || has_role (id_roles id) "workspace_owner" || has_role (id_roles id) "workspace_admin")
  && str_in workspaceId (List.filter nonempty (match id_workspaceId id with Some w => [w] | None => [] end ++ id_workspaceIds id)).

(** [workspace-authz.mjs] *)
Definition DATABASE_ACTIONS : list string := ["database.read"; "database.write"; "database.admin"].
Definition TOPIC_ACTIONS : list string := ["topic.read"; "topic.publish"; "topic.consume"; "topic.admin"].
Definition WORKSPACE_ACTIONS : list (string * list string) :=
  [("function", ["function.read"; "function.invoke"; "function.deploy"; "function.admin"]); ("functionInvoke", ["function.invoke"; "function.admin"]);
   ("database", DATABASE_ACTIONS); ("realtime", DATABASE_ACTIONS); ("topic", TOPIC_ACTIONS); ("webhook", TOPIC_ACTIONS);
   ("bucket", ["bucket.read"; "bucket.write"; "bucket.admin"])].

Record scoped_record := mk_scoped_record { sr_tenant_id : option string; sr_workspace_id : option string }.

Definition hasVerifiedTenantAdminRole (id : identity) : bool := has_role (id_roles id) "tenant_owner" || has_role (id_roles id) "tenant_admin".

Definition canAccessWorkspace (id : identity) (record : option scoped_record) (actions : list string) (allowUnmapped : bool) : bool :=
  isPlatformIdentity id ||
  match record with
  | Some r =>
      (allowUnmapped || (truthy_str (sr_tenant_id r) && truthy_str (sr_workspace_id r))) &&
      ((same_tenant id (sr_tenant_id r) && hasVerifiedTenantAdminRole id)
       || existsb (fun a => can id a (sr_tenant_id r) (sr_workspace_id r)) actions
       || (same_tenant id (sr_tenant_id r) && existsb (has_role (id_roles id)) TENANT_ROLES && bound_to id (sr_workspace_id r)))
  | None => false
  end.

(** [knative-runtime-handlers.mjs] *)
Definition KNATIVE_STATUS_OBSERVER_ROLES : list string := ["superadmin"; "platform_admin"; "platform_operator"; "platform_auditor"].
Definition isKnativeStatusObserver (id : identity) : bool :=
  match id_trust id with PlatformTrust => existsb (has_role (id_roles id)) KNATIVE_STATUS_OBSERVER_ROLES | _ => false end.

(** [route-invoke.mjs] *)
Definition PLATFORM_ROLES : list string :=
  ["superadmin"; "platform_admin"; "platform_operator"; "platform_auditor"; "platform-admin"; "platform-operator"; "platform-auditor"].
Definition forwarded_roles (id : identity) : list jsval :=
  List.filter (fun r => match id_trust id with PlatformTrust => true | _ => negb (existsb (fun p => strict_eq r (JStr p)) PLATFORM_ROLES) end) (id_roles id).

(** ** The gate of a route *)

Record api_route := mk_api_route { ar_auth : option string; ar_optionalIdentity : bool }.

#[export] Instance api_route_eq_dec : EqDecision api_route.
Proof. solve_decision. Defined.

Definition authzOk (auth : option string) (id : identity) : bool :=
  match auth with
  | Some need =>
      if String.eqb need "superadmin" then actor_is id ["superadmin"; "internal"] || has_role (id_roles id) "superadmin" || has_role (id_roles id) "platform_admin"
      else if String.eqb need "tenant_owner" then actor_is id ["tenant_owner"; "tenant_admin"; "superadmin"; "internal"]
             || existsb (has_role (id_roles id)) ["tenant_owner"; "tenant_admin"; "superadmin"; "platform_admin"]
      else if String.eqb need "knative_status" then isKnativeStatusObserver id
      else true
  | None => true
  end.

Inductive gate := Admit (id : option identity) | Rejected (status : Z) (c : string).

Section gate.
Context `{!Platform, !SaStore, !JwtRuntime} (v : verifier).
Local Notation act := (M (world jwt_state unit) js_error).

(** [authenticate]: [None] without a bearer token. *)
Definition authenticate (authorization : option string) : act (option identity) :=
  match authorization ≫= bearer_token with
  | None => mret None
  | Some token => verify v token ≫= fun r => lift (identity_of r.1 r.2) ≫= fun id => mret (Some id)
  end.

(** The part of the request handler between the route and its handler. *)
Definition admit_request (route : api_route) (authorization : option string) : act gate :=
  if negb (bool_decide (ar_auth route = Some "public")) || (ar_optionalIdentity route && truthy_str authorization) then
    try_catch
      (authenticate authorization ≫= fun r =>
       mret (match r with
             | None => Rejected 401 "UNAUTHENTICATED"
             | Some id =>
                 if id_invalidBinding id then Rejected 403 "FORBIDDEN"
                 else if negb (authzOk (ar_auth route) id) then Rejected 403 "FORBIDDEN"
                 else Admit (Some id)
             end))
      (fun _ => mret (Rejected 401 "INVALID_TOKEN"))
  else mret (Admit None).

End gate.
