(* ===== verification/AuthzProofs.v ===== *)
(** * What a token may do

    The identity of a tenant token is bound to the realm that signed it, and the
    decisions confine it to that tenant unless it claims platform authority; the
    permission matrix means what its entries say. *)
From S2P Require Import Prelude JsValue Regex Platform SaRevocation JwtTrust JwtProofs Authz.
From Stdlib Require Import Ascii.
Local Open Scope Z_scope.

(** ** The matrix *)

Lemma strict_eq_str v s : strict_eq v (JStr s) = true <-> v = JStr s.
Proof. unfold strict_eq. destruct v; simpl; try naive_solver. rewrite String.eqb_eq. naive_solver. Qed.

Lemma has_role_spec roles r : has_role roles r = true <-> JStr r ∈ roles.
Proof.
  unfold has_role. rewrite existsb_exists. setoid_rewrite strict_eq_str. split; [intros (x & Hx & ->); by apply list_elem_of_In|].
  intros Hr. exists (JStr r). split; [by apply list_elem_of_In | done].
Qed.

Lemma actor_is_spec id types : actor_is id types = true <-> exists t, t ∈ types /\ id_actorType id = JStr t.
Proof.
  unfold actor_is. rewrite existsb_exists. setoid_rewrite strict_eq_str. setoid_rewrite <- list_elem_of_In. done.
Qed.

Lemma matrix_roles_distinct : NoDup (me_role <$> permission_matrix).
Proof. apply (bool_decide_unpack _). vm_compute. exact I. Qed.

(** The look-up finds the entry of a role. *)
Lemma permission_of_spec r e : permission_of r = Some e <-> e ∈ permission_matrix /\ me_role e = r.
Proof.
  unfold permission_of. split.
  - intros Hf. apply List.find_some in Hf as [Hin Hr%String.eqb_eq]. split; [|done]. apply list_elem_of_In in Hin. by rewrite elem_of_reverse in Hin.
  - intros [Hin Hr]. destruct (List.find _ _) as [e'|] eqn:Hf.
    + apply List.find_some in Hf as [Hin' Hr'%String.eqb_eq]. apply list_elem_of_In in Hin'. rewrite elem_of_reverse in Hin'. f_equal.
      apply list_elem_of_lookup in Hin as [i Hi], Hin' as [j Hj].
      assert (i = j) as ->; [|rewrite Hi in Hj; by injection Hj]. apply (NoDup_lookup _ _ _ r matrix_roles_distinct); rewrite list_lookup_fmap, ?Hi, ?Hj; cbn; congruence.
    + exfalso. apply (eq_true_false_abs (String.eqb (me_role e) r)); [by apply String.eqb_eq|].
      apply (List.find_none _ _ Hf). apply list_elem_of_In. by rewrite elem_of_reverse.
Qed.

(** No entry allows what it denies. *)
Lemma matrix_consistent e a : e ∈ permission_matrix -> a ∈ me_denied e -> a ∉ me_allowed e.
Proof.
  intros He Ha Hb. assert (Hall : forallb (fun e => forallb (fun a => negb (str_in a (me_allowed e))) (me_denied e)) permission_matrix = true) by (vm_compute; reflexivity).
  rewrite forallb_forall in Hall. apply list_elem_of_In in He, Ha. specialize (Hall e He). rewrite forallb_forall in Hall. specialize (Hall a Ha).
  apply negb_true_iff, str_in_not_elem in Hall. done.
Qed.

(** The tenant and the workspace of a request, as a scope requires them. *)
Definition in_tenant (id : identity) (tenantId : option string) : Prop := exists t, tenantId = Some t /\ t <> "" /\ id_tenantId id = JStr t.
Definition in_workspace_of (id : identity) (workspaceId : option string) : Prop := exists w, workspaceId = Some w /\ w <> "" /\ w ∈ id_workspaceIds id.

Lemma same_tenant_spec id tenant : same_tenant id tenant = true <-> in_tenant id tenant.
Proof.
  unfold same_tenant, in_tenant. destruct tenant as [t|]; [|naive_solver]. rewrite andb_true_iff, nonempty_true, strict_eq_str. naive_solver.
Qed.
Lemma bound_to_spec id w : bound_to id w = true <-> in_workspace_of id w.
Proof. unfold bound_to, in_workspace_of. destruct w as [w|]; [|naive_solver]. rewrite andb_true_iff, nonempty_true, str_in_elem. naive_solver. Qed.

Definition scope_satisfied (id : identity) (e : matrix_entry) (tenantId workspaceId : option string) : Prop :=
  match me_scope e with
  | PlatformScope => me_role e = "platform_admin"
  | TenantScope => in_tenant id tenantId
  | WorkspaceScope => in_tenant id tenantId /\ in_workspace_of id workspaceId
  end.

Lemma role_grants_spec id a tenantId workspaceId v :
  role_grants id a tenantId workspaceId v = true <->
  exists e, e ∈ permission_matrix /\ v = JStr (me_role e) /\ a ∈ me_allowed e /\ scope_satisfied id e tenantId workspaceId.
Proof.
  unfold role_grants. split.
  - destruct v as [| | | |r| |]; try done. destruct (permission_of r) as [e|] eqn:Hp; [|done]. apply permission_of_spec in Hp as [He <-].
    rewrite andb_true_iff, str_in_elem. intros [Ha Hs]. exists e. split_and!; [done..|]. revert Hs. unfold scope_satisfied.
    destruct (me_scope e); [by rewrite String.eqb_eq | by rewrite same_tenant_spec|].
    by rewrite andb_true_iff, same_tenant_spec, bound_to_spec.
  - intros (e & He & -> & Ha & Hs). rewrite (proj2 (permission_of_spec (me_role e) e)) by done. rewrite andb_true_iff, str_in_elem.
    split; [done|]. revert Hs. unfold scope_satisfied. destruct (me_scope e).
    + by rewrite String.eqb_eq.
    + by rewrite same_tenant_spec.
    + by rewrite andb_true_iff, same_tenant_spec, bound_to_spec.
Qed.

Lemma known_allowed e a : e ∈ permission_matrix -> a ∈ me_allowed e -> known_action a = true.
Proof.
  intros He Ha. unfold known_action. apply existsb_exists. exists e. split; [by apply list_elem_of_In|]. by rewrite (proj2 (str_in_elem _ _) Ha).
Qed.

(** The decision means what the matrix says.  An action of the model is permitted
    exactly to a platform identity and to one with a role whose entry allows the
    action, within the tenant of the identity, and for a workspace role one of its
    workspaces, except that a platform role counts only when it is [platform_admin];
    and a role never grants what its entry denies. *)
Theorem can_means_matrix (id : identity) (action : string) (tenantId workspaceId : option string) :
  (can id action tenantId workspaceId = true <->
   known_action action = true /\
   (isPlatformIdentity id = true \/
    exists e, e ∈ permission_matrix /\ JStr (me_role e) ∈ id_roles id /\ action ∈ me_allowed e /\ scope_satisfied id e tenantId workspaceId)) /\
  (forall e, e ∈ permission_matrix -> action ∈ me_denied e -> role_grants id action tenantId workspaceId (JStr (me_role e)) = false).
Proof.
  split.
  - unfold can. rewrite andb_true_iff, orb_true_iff, existsb_exists. setoid_rewrite role_grants_spec. split.
    + intros [Hk [Hp | (v & Hv & e & He & -> & Ha & Hs)]]; (split; [done|]); [by left|]. right. exists e. split_and!; [done | by apply list_elem_of_In | done..].
    + intros [Hk [Hp | (e & He & Hv & Ha & Hs)]]; (split; [done|]); [by left|]. right. exists (JStr (me_role e)). split; [by apply list_elem_of_In|]. by exists e.
  - intros e He Ha. apply not_true_iff_false. rewrite role_grants_spec. intros (e' & He' & [= Hr] & Ha' & _).
    assert (e' = e) as ->; [|by apply (matrix_consistent e action)].
    pose proof (proj2 (permission_of_spec (me_role e) e') (conj He' (eq_sym Hr))) as H1.
    pose proof (proj2 (permission_of_spec (me_role e) e) (conj He eq_refl)) as H2. congruence.
Qed.

(** ** Confinement *)

Definition platform_authority (id : identity) : bool :=
  isPlatformIdentity id || has_role (id_roles id) "superadmin" || has_role (id_roles id) "platform_admin".

(** The decisions keep an identity within one tenant. *)
Record confined_to (realm : string) (id : identity) : Prop := {
  cf_manage : forall t, canManageTenant id t = true -> t = Some realm;
  cf_can : forall a t w, can id a t w = true -> t = Some realm;
  cf_workspace : forall r actions unmapped, canAccessWorkspace id r actions unmapped = true -> exists x, r = Some x /\ sr_tenant_id x = Some realm;
  cf_scope : callerTenantScope id = JStr realm;
  cf_invite : forall w t, isWorkspaceInviteOperator id w t = true -> t = realm;
  cf_routes : authzOk (Some "superadmin") id = false /\ isKnativeStatusObserver id = false
}.

Lemma in_tenant_bound id realm t : id_tenantId id = JStr realm -> in_tenant id t -> t = Some realm.
Proof. intros Hid (t' & -> & _ & Ht). rewrite Hid in Ht. congruence. Qed.

Lemma can_bound id realm a t w : id_tenantId id = JStr realm -> platform_authority id = false -> can id a t w = true -> t = Some realm.
Proof.
  unfold platform_authority. rewrite !orb_false_iff. intros Hid [[Hp _] Hadm]. unfold can. rewrite Hp, orb_false_l, andb_true_iff, existsb_exists.
  intros (_ & v & Hv & Hg). apply role_grants_spec in Hg as (e & He & -> & _ & Hs). apply list_elem_of_In in Hv. unfold scope_satisfied in Hs.
  destruct (me_scope e); [|by eapply in_tenant_bound | destruct Hs; by eapply in_tenant_bound].
  rewrite Hs in Hv. apply has_role_spec in Hv. congruence.
Qed.

Lemma confined id realm : id_trust id = TenantTrust realm -> id_tenantId id = JStr realm -> platform_authority id = false -> confined_to realm id.
Proof.
  intros Ht Hid Hp. pose proof Hp as Hp'. unfold platform_authority in Hp'. rewrite !orb_false_iff in Hp'. destruct Hp' as [[Hpl Hsu] Hadm]. constructor.
  - intros t. unfold canManageTenant. rewrite Hpl. cbn. rewrite andb_true_iff. intros [_ Hm]. destruct t as [t|]; [|done].
    apply strict_eq_str in Hm. congruence.
  - intros a t w. by apply can_bound.
  - intros [x|] actions unmapped; unfold canAccessWorkspace; rewrite Hpl; cbn; [|done]. intros [_ Hor]%andb_true_iff. exists x. split; [done|].
    rewrite !orb_true_iff in Hor. destruct Hor as [[[Hs _]%andb_true_iff | Hc] | [[Hs _]%andb_true_iff _]%andb_true_iff].
    + apply same_tenant_spec in Hs. by eapply in_tenant_bound.
    + apply existsb_exists in Hc as (a & _ & Hc). by eapply can_bound.
    + apply same_tenant_spec in Hs. by eapply in_tenant_bound.
  - unfold callerTenantScope. by rewrite Hpl, Hid.
  - intros w t. unfold isWorkspaceInviteOperator. rewrite !andb_true_iff. intros [[[_ Hs] _] _]. apply strict_eq_str in Hs. congruence.
  - split; [exact Hp|]. unfold isKnativeStatusObserver. by rewrite Ht.
Qed.

Lemma identity_of_tenant claims realm id : identity_of claims (TenantTrust realm) = Ok id -> id_trust id = TenantTrust realm /\ id_tenantId id = JStr realm.
Proof. unfold identity_of. intros (roles & _ & [= <-])%result_bind_ok. done. Qed.

Section gate.
Context `{!Platform, !SaStore, !JwtRuntime} (v : verifier).

Lemma authenticate_ok auth w id : fst (authenticate v auth w) = Ok (Some id) ->
  exists token claims t, auth ≫= bearer_token = Some token /\ fst (verify v token w) = Ok (claims, t) /\ identity_of claims t = Ok id.
Proof.
  unfold authenticate. destruct (auth ≫= bearer_token) as [token|]; [|done]. unfold mbind at 1, M_bind at 1.
  destruct (verify v token w) as [[[claims t]|e] w'] eqn:Hv; [|done]. unfold lift, mbind, M_bind, mret, M_ret. cbn.
  destruct (identity_of claims t) as [i|] eqn:Hi; cbn; [|done]. intros [= ->]. eexists _, claims, t. by rewrite Hv.
Qed.

Lemma gate_guards route auth w id :
  fst (admit_request v route auth w) = Ok (Admit (Some id)) ->
  fst (authenticate v auth w) = Ok (Some id) /\ id_invalidBinding id = false /\ authzOk (ar_auth route) id = true.
Proof.
  unfold admit_request. destruct (_ || _); [|done]. unfold try_catch, mbind, M_bind, mret, M_ret.
  destruct (authenticate v auth w) as [[[i|]|e] w']; cbn; try done.
  destruct (id_invalidBinding i) eqn:Hb; [done|]. destruct (authzOk (ar_auth route) i) eqn:Ha; [|done]. by intros [= <-].
Qed.

(** C7: the gate.  The gate of a route always gives a decision.  It admits a request
    to a route that is not public only with an identity, and the identity comes from a
    token the verifier accepted in this call, its binding to workspaces is valid and
    it satisfies the route; a request without a bearer token is refused with 401. *)
Theorem gate_decides (route : api_route) (auth : option string) (w : world jwt_state unit) :
  exists g, fst (admit_request v route auth w) = Ok g /\
  (ar_auth route <> Some "public" ->
     (auth ≫= bearer_token = None -> g = Rejected 401 "UNAUTHENTICATED") /\
     forall r, g = Admit r -> exists id token claims t, r = Some id /\ auth ≫= bearer_token = Some token /\
       fst (verify v token w) = Ok (claims, t) /\ identity_of claims t = Ok id /\
       id_invalidBinding id = false /\ authzOk (ar_auth route) id = true).
Proof.
  destruct (fst (admit_request v route auth w)) as [g|e] eqn:Hg.
  2:{ exfalso. revert Hg. unfold admit_request. destruct (_ || _); [|done]. unfold try_catch, mbind, M_bind, mret, M_ret.
      by destruct (authenticate v auth w) as [[[i|]|] w']. }
  exists g. split; [done|]. intros Hpub. split.
  - intros Hnone. revert Hg. unfold admit_request, authenticate. rewrite bool_decide_eq_false_2 by done. rewrite Hnone. cbn. by intros [= <-].
  - intros r ->. destruct r as [id|].
    + destruct (gate_guards _ _ _ _ Hg) as (Ha & Hb & Hok). destruct (authenticate_ok _ _ _ Ha) as (token & claims & t & Ht & Hv & Hi).
      by exists id, token, claims, t.
    + exfalso. revert Hg. unfold admit_request. rewrite bool_decide_eq_false_2 by done. cbn. unfold try_catch, mbind, M_bind, mret, M_ret.
      destruct (authenticate v auth w) as [[[i|]|] w']; cbn; try done. destruct (id_invalidBinding i); [done|]. by destruct (authzOk _ i).
Qed.

(** C6: a tenant token is confined to its realm.  A request admitted with a token of
    a tenant realm has as its tenant the realm the verifier derived from the issuer of
    the signed token; and unless the token claims platform authority - an actor type
    or a role that the decisions honour - every decision is within that tenant. *)
Theorem tenant_token_confined (route : api_route) (auth : option string) (w : world jwt_state unit) (id : identity) (realm : string) :
  fst (admit_request v route auth w) = Ok (Admit (Some id)) -> id_trust id = TenantTrust realm ->
  id_tenantId id = JStr realm /\
  (exists token claims, fst (verify v token w) = Ok (claims, TenantTrust realm) /\ classifyIssuer v (js_get claims "iss") = Some (TenantTrust realm)) /\
  (platform_authority id = false -> confined_to realm id).
Proof.
  intros Hg Ht. destruct (gate_guards _ _ _ _ Hg) as (Ha & _). destruct (authenticate_ok _ _ _ Ha) as (token & claims & t & _ & Hv & Hi).
  assert (t = TenantTrust realm) as ->.
  { pose proof Hi as Hi'. unfold identity_of in Hi'. apply result_bind_ok in Hi' as (roles & _ & [= <-]). done. }
  destruct (identity_of_tenant _ _ _ Hi) as [_ Hid]. split; [done|]. split; [|by apply confined]. exists token, claims. split; [done|].
  pose proof (verify_run v token w) as Hrun. destruct (verify v token w) as [r w']. cbn in Hv. subst r.
  destruct Hrun as [_ Hrun]. destruct (Hrun _ _ eq_refl) as ((keys & key & Hs) & _). by destruct Hs.
Qed.
End gate.

(** The actor type is read from the claims whatever realm signed them. *)
Lemma tenant_token_platform_actor (claims : jsval) (realm : string) (id : identity) :
  js_get claims "actor_type" = JStr "superadmin" -> identity_of claims (TenantTrust realm) = Ok id ->
  authzOk (Some "superadmin") id = true /\ callerTenantScope id = JNull /\ forall t, canManageTenant id (Some t) = true.
Proof.
  intros Hc (roles & _ & [= <-])%result_bind_ok. unfold deriveActorType. rewrite Hc. split_and!; [done..|]. by intros t.
Qed.

(** ** Bindings *)

Lemma drop_while_none {A} (p : A -> bool) l : forallb (fun c => negb (p c)) l = true -> drop_while p l = l.
Proof. destruct l as [|c l]; [done|]. simpl. rewrite andb_true_iff, negb_true_iff. by intros [-> _]. Qed.

Lemma trim_no_space s : forallb (fun c => negb (is_space c)) (chars s) = true -> trim s = s.
Proof.
  intros Hs. unfold trim, trim_chars. rewrite (drop_while_none is_space (chars s)) by done. rewrite drop_while_none.
  - by rewrite reverse_involutive, of_chars_chars.
  - rewrite forallb_forall in *. intros c Hc. apply Hs, list_elem_of_In. apply list_elem_of_In in Hc. by rewrite elem_of_reverse in Hc.
Qed.

Lemma token_parts w : workspace_token w = true ->
  w <> "" /\ forallb (fun c => negb (is_space c)) (chars w) = true /\ free_of "," (chars w) = true /\ free_of " " (chars w) = true.
Proof.
  unfold workspace_token. rewrite andb_true_iff, nonempty_true, forallb_forall. intros [Hne Hall]. split; [done|].
  assert (Hc : forall c, In c (chars w) -> is_space c = false /\ c <> ","%char).
  { intros c Hc. specialize (Hall c Hc). apply negb_true_iff, orb_false_iff in Hall as [? ?%Ascii.eqb_neq]. done. }
  split; [apply forallb_forall; intros c Hin; by rewrite (proj1 (Hc c Hin))|].
  unfold free_of. split; apply negb_true_iff, not_true_iff_false; rewrite existsb_exists; intros (c & Hin & <-%Ascii.eqb_eq); by destruct (Hc _ Hin).
Qed.

Lemma join_forall (p : ascii -> bool) sep ws : forallb p (chars sep) = true -> Forall (fun w => forallb p (chars w) = true) ws -> forallb p (chars (join sep ws)) = true.
Proof.
  intros Hsep Hws. induction Hws as [|w ws Hw Hws IH]; [done|]. destruct ws as [|w' ws]; [done|].
  change (join sep (w :: w' :: ws)) with (w +:+ sep +:+ join sep (w' :: ws)). rewrite !chars_app, !forallb_app, Hw, Hsep. by rewrite IH.
Qed.

(** The tokens of a joined text. *)
Lemma split_tokens_join ws : Forall (fun w => workspace_token w = true) ws -> split_tokens (trim (join "," ws)) = ws.
Proof.
  intros Hws. rewrite trim_no_space.
  2:{ apply join_forall; [done|]. eapply Forall_impl; [exact Hws|]. intros w Hw. by apply token_parts. }
  unfold split_tokens. destruct ws as [|w ws]; [done|]. change "," with (of_chars [","%char]).
  rewrite split_join; [|done | eapply Forall_impl; [exact Hws|]; intros x Hx; by apply token_parts].
  clear -Hws. induction Hws as [|x l Hx Hl IH]; [done|]. destruct (token_parts x Hx) as (Hne & _ & _ & Hsp).
  rewrite fmap_cons. cbn [concat]. rewrite List.filter_app, IH. unfold split_on at 1. rewrite split_chars_free by done. cbn.
  rewrite of_chars_chars. destruct (nonempty x) eqn:Hn; [done|]. apply not_true_iff_false in Hn. by rewrite nonempty_true in Hn.
Qed.

(** Bindings are well formed, in either spelling.  A normalised binding consists
    of tokens without white space and commas, without repetition, and when it has both
    forms the list is the single workspace; an invalid binding binds to nothing; and a
    list of workspaces means the same as its text joined by commas. *)
Theorem workspace_binding_wf (singular plural : jsval) :
  let b := normalizeWorkspaceBinding singular plural in
  (forall w, bd_singular b = Some w -> workspace_token w = true) /\
  (forall ws, bd_plural b = Some ws -> NoDup ws /\ Forall (fun w => workspace_token w = true) ws /\ forall w, bd_singular b = Some w -> ws = [w]) /\
  (bd_valid b = false -> bd_singular b = None /\ bd_plural b = None) /\
  (forall ws, Forall (fun w => workspace_token w = true) ws ->
     normalizeWorkspaceBinding singular (JArr (JStr <$> ws)) = normalizeWorkspaceBinding singular (JStr (join "," ws))).
Proof.
  assert (Hset : forall tokens, forallb isWorkspaceToken tokens = true -> NoDup (string_set tokens) /\ Forall (fun w => workspace_token w = true) (string_set tokens)).
  { intros tokens Ht. destruct (string_set_spec tokens) as [Hnd Hel]. split; [done|]. apply Forall_forall. intros w Hw%Hel.
    rewrite forallb_forall in Ht. by specialize (Ht (JStr w) (proj1 (list_elem_of_In _ _) Hw)). }
  intros b. unfold b, normalizeWorkspaceBinding. destruct (negb (nullish singular) && negb (isWorkspaceToken singular)) eqn:Hs; [split_and!; (done || by intros)|].
  assert (Hone : forall w, match singular with JStr s => Some s | _ => None end = Some w -> workspace_token w = true).
  { destruct singular; try done. intros w [= <-]. cbn in Hs. by apply negb_false_iff in Hs. }
  split_and!.
  - destruct (nullish plural); [done|]. destruct (plural_tokens plural) as [tokens|]; [|done]. destruct (forallb _ tokens); [|done].
    destruct (match singular with JStr s => Some s | _ => None end) as [s|] eqn:E; [|done]. case_bool_decide; [|done]. cbn. intros w [= <-]. by apply Hone.
  - destruct (nullish plural); [done|]. destruct (plural_tokens plural) as [tokens|]; [|done]. destruct (forallb isWorkspaceToken tokens) eqn:Ht; [|done].
    destruct (Hset _ Ht) as [Hnd Htok]. destruct (match singular with JStr s => Some s | _ => None end) as [s|].
    + case_bool_decide as Heq; [|done]. cbn. intros ws [= <-]. split_and!; [done..|]. by intros w [= <-].
    + cbn. intros ws [= <-]. split_and!; done.
  - destruct (nullish plural); [done|]. destruct (plural_tokens plural) as [tokens|]; [|done]. destruct (forallb _ tokens); [|done].
    destruct (match singular with JStr s => Some s | _ => None end); [|done]. by case_bool_decide.
  - intros ws Hws. unfold plural_tokens. cbn [nullish]. by rewrite split_tokens_join.
Qed.

(** ** Examples *)

#[local] Instance sample_authz_runtime : JwtRuntime := {|
  segment_json := fun s =>
    if String.eqb s "head" then Some (JObj [("alg", JStr "RS256"); ("kid", JStr "k1")])
    else if String.eqb s "body" then Some (JObj [("iss", JStr "https://kc.example/realms/acme"); ("aud", JStr "falcone-api"); ("sub", JStr "user-1");
      ("realm_access", JObj [("roles", JArr [JStr "tenant_owner"])]); ("workspace_ids", JStr "ws-1, ws-2")])
    else None;
  fetch_jwks := fun _ _ => Ok (JObj [("keys", JArr [sample_jwk])]);
  rs_import := fun _ => true;
  rs_verify := fun _ _ _ sig => String.eqb sig "sig"
|}.
#[local] Instance sample_authz_platform : Platform := {| clock := fun n => (1000 * n)%N; uuid := fun _ => "uuid"; broker := fun _ => None |}.
#[local] Instance sample_authz_store : SaStore := {| query_fails := fun _ => false |}.

Definition sample_identity : identity :=
  mk_identity (JStr "user-1") (JStr "acme") None false ["ws-1"; "ws-2"] (JStr "tenant_owner") (JObj []) false (TenantTrust "acme") [JStr "tenant_owner"] [].

Example sample_decisions :
  (can sample_identity "database.admin" (Some "acme") None, can sample_identity "database.admin" (Some "other") None,
   can sample_identity "function.invoke" (Some "acme") None, canManageTenant sample_identity (Some "acme"),
   authzOk (Some "superadmin") sample_identity, authzOk (Some "tenant_owner") sample_identity)
  = (true, false, false, true, false, true).
Proof. vm_compute. reflexivity. Qed.

Lemma tenant_token_confined_witness :
  id_tenantId sample_identity = JStr "acme" /\
  (exists token claims, fst (verify sample_verifier token (empty_jwt [])) = Ok (claims, TenantTrust "acme") /\
     classifyIssuer sample_verifier (js_get claims "iss") = Some (TenantTrust "acme")) /\
  (platform_authority sample_identity = false -> confined_to "acme" sample_identity).
Proof.
  apply (tenant_token_confined sample_verifier (mk_api_route (Some "tenant_owner") false) (Some "Bearer head.body.sig") (empty_jwt []) sample_identity "acme").
  - vm_compute. reflexivity.
  - reflexivity.
Defined.
