(* ===== verification/RouteTable.v ===== *)
(** * The routes of the control plane

    apps/control-plane [route-table.mjs] - the compiled templates, the loaded table and
    the match - and the seed table of [routes.mjs] with the method, template, handler,
    gate and audit coverage of each route.  The values of the parameters are not
    modelled. *)
From S2P Require Import Prelude JsValue Regex Platform SaRevocation JwtTrust Authz.
From Stdlib Require Import Ascii.
Local Open Scope Z_scope.

Record route := mk_route {
  rt_method : string;
  rt_path : string;
  rt_handler : string;
  rt_gate : api_route;
  rt_audited : bool
}.

#[export] Instance route_eq_dec : EqDecision route.
Proof. solve_decision. Defined.

(** ** Templates *)

Inductive piece := Literal (c : ascii) | Group (name : list ascii) | Wildcard | OptionalRest | Optional (p : piece).

Fixpoint span_word (l : list ascii) : list ascii * list ascii :=
  match l with
  | c :: l' => if is_word c then let '(w, r) := span_word l' in (c :: w, r) else ([], l)
  | [] => ([], [])
  end.

(** The pieces of a template; the fuel is its length. *)
Fixpoint pieces (fuel : nat) (l : list ascii) : list piece :=
  match fuel, l with
  | S fuel', c :: l' =>
      if Ascii.eqb c "{" then
        match span_word l' with
        | ((_ :: _) as name, "}"%char :: rest) => Group name :: pieces fuel' rest
        | _ => Literal c :: pieces fuel' l'
        end
      else if Ascii.eqb c "/" && bool_decide (l' = ["*"%char]) then [OptionalRest]
      else if Ascii.eqb c "*" then Wildcard :: pieces fuel' l'
      else Literal c :: pieces fuel' l'
  | _, _ => []
  end.
Definition template_pieces (tmpl : string) : list piece := pieces (length (chars tmpl)) (chars tmpl).

(** A [?] of a template is not escaped: after a character or a group it makes it
    optional, after a quantifier it makes that lazy, which changes no match; where
    there is nothing to repeat [new RegExp] throws. *)
Fixpoint quantified (ps : list piece) : option (list piece) :=
  match ps with
  | [] => Some []
  | Literal "?" :: _ => None
  | Wildcard :: Literal "?" :: rest => qs ← quantified rest; Some (Wildcard :: qs)
  | p :: Literal "?" :: Literal "?" :: rest => qs ← quantified rest; Some (Optional p :: qs)
  | p :: Literal "?" :: rest => qs ← quantified rest; Some (Optional p :: qs)
  | p :: rest => qs ← quantified rest; Some (p :: qs)
  end.

Fixpoint piece_re (p : piece) : re :=
  match p with
  | Literal c => rchar c
  | Group _ => rplus (RCls (fun c => negb (Ascii.eqb c "/")))
  | Wildcard => RStar rany
  | OptionalRest => ropt (RSeq (rchar "/") (RStar rany))
  | Optional q => ropt (piece_re q)
  end.

Definition parameter_names (ps : list piece) : list (list ascii) := omap (fun p => match p with Group n => Some n | _ => None end) ps.

(** Group names are distinct and do not begin with a digit; [new RegExp] throws otherwise. *)
Definition names_ok (names : list (list ascii)) : bool :=
  bool_decide (NoDup names) && forallb (fun n => match n with c :: _ => negb (is_digit c) | [] => false end) names.

Definition compilePath (tmpl : string) : result js_error re :=
  let ps := template_pieces tmpl in
  throw_if (negb (names_ok (parameter_names ps))) (plain_error "Invalid regular expression") ≫= fun _ =>
  match quantified ps with
  | Some qs => Ok (rseqs ((piece_re <$> qs) ++ [ropt (rchar "/")]))
  | None => Err (plain_error "Invalid regular expression")
  end.

(** ** The table *)

Record compiled := mk_compiled { cr_route : route; cr_rx : re }.

Definition route_key (r : route) : string := rt_method r +:+ " " +:+ rt_path r.
Definition by_key (rs : list route) : list (string * route) := foldl (fun acc r => assoc_set (route_key r) r acc) [] rs.

Definition segments (r : route) : nat := length (split_on "/" (rt_path r)).
Definition wildcard (r : route) : nat := if includes "*" (rt_path r) then 1 else 0.

(** The comparison of the sort is at most zero. *)
Definition not_after (a b : compiled) : bool :=
  let x := cr_route a in let y := cr_route b in
  ((segments y <? segments x) || ((segments y =? segments x) && (wildcard x <=? wildcard y)))%nat.

(** A stable sort: an element goes before the first it need not follow. *)
Fixpoint insert_route (x : compiled) (l : list compiled) : list compiled :=
  match l with
  | [] => [x]
  | y :: l' => if not_after x y then x :: l else y :: insert_route x l'
  end.
Definition sort_routes (l : list compiled) : list compiled := foldr insert_route [] l.

Fixpoint compile_all (rs : list route) : result js_error (list compiled) :=
  match rs with
  | [] => Ok []
  | r :: rs' => compilePath (rt_path r) ≫= fun rx => compile_all rs' ≫= fun cs => Ok (mk_compiled r rx :: cs)
  end.

Definition loadRoutes (extra seedRoutes : list route) : result js_error (list compiled) :=
  compile_all (by_key (extra ++ seedRoutes)).*2 ≫= fun cs => Ok (sort_routes cs).

Definition route_matches (method path : string) (c : compiled) : bool :=
  (String.eqb (rt_method (cr_route c)) method || String.eqb (rt_method (cr_route c)) "ANY") && re_test_full (cr_rx c) path.

Definition matchRoute (routes : list compiled) (method path : string) : option route := cr_route <$> List.find (route_matches method path) routes.

(** ** The seed table *)

Definition seedRoutes : list route := [
  mk_route "GET" "/v1/platform/runtime/knative" "getKnativeRuntimeStatus" (mk_api_route (Some "knative_status") false) false;
  mk_route "GET" "/v1/plans" "plan-list.mjs" (mk_api_route (Some "superadmin") false) false;
  mk_route "POST" "/v1/plans" "plan-create.mjs" (mk_api_route (Some "superadmin") false) true;
  mk_route "GET" "/v1/plans/{planId}/lifecycle-history" "plan-lifecycle-history.mjs" (mk_api_route (Some "superadmin") false) false;
  mk_route "POST" "/v1/plans/{planId}/lifecycle" "plan-lifecycle.mjs" (mk_api_route (Some "superadmin") false) true;
  mk_route "DELETE" "/v1/plans/{planId}" "plan-delete.mjs" (mk_api_route (Some "superadmin") false) true;
  mk_route "GET" "/v1/plans/change-history" "plan-change-history-query.mjs" (mk_api_route (Some "superadmin") false) false;
  mk_route "GET" "/v1/quota-dimensions" "quota-dimension-catalog-list.mjs" (mk_api_route (Some "superadmin") false) false;
  mk_route "GET" "/v1/tenant/entitlements" "tenant-effective-entitlements-get.mjs" (mk_api_route (Some "tenant_owner") false) false;
  mk_route "GET" "/v1/tenant/plan/history" "plan-assignment-history-self.mjs" (mk_api_route (Some "tenant_owner") false) false;
  mk_route "GET" "/v1/tenant/plan/effective-entitlements" "tenant-effective-entitlements-get.mjs" (mk_api_route (Some "tenant_owner") false) false;
  mk_route "GET" "/v1/tenant/effective-capabilities" "tenant-effective-capabilities-get.mjs" (mk_api_route (Some "tenant_owner") false) false;
  mk_route "POST" "/v1/workspace-sub-quotas" "workspace-sub-quota-set.mjs" (mk_api_route (Some "tenant_owner") false) true;
  mk_route "GET" "/v1/workspace-sub-quotas" "workspace-sub-quota-list.mjs" (mk_api_route (Some "tenant_owner") false) false;
  mk_route "GET" "/v1/console/session" "consoleSession" (mk_api_route (Some "authenticated") false) false;
  mk_route "POST" "/v1/tenants" "createTenant" (mk_api_route (Some "superadmin") false) true;
  mk_route "GET" "/v1/tenants" "listTenants" (mk_api_route (Some "superadmin") false) false;
  mk_route "GET" "/v1/tenants/{tenantId}" "getTenant" (mk_api_route (Some "authenticated") false) false;
  mk_route "DELETE" "/v1/tenants/{tenantId}" "deleteTenant" (mk_api_route (Some "superadmin") false) true;
  mk_route "POST" "/v1/tenants/{tenantId}/purge" "purgeTenant" (mk_api_route (Some "superadmin") false) true;
  mk_route "GET" "/v1/tenants/{tenantId}/environments" "listEnvironments" (mk_api_route (Some "authenticated") false) false;
  mk_route "POST" "/v1/tenants/{tenantId}/exports" "exportTenantConfiguration" (mk_api_route (Some "authenticated") false) true;
  mk_route "POST" "/v1/tenants/{tenantId}/users" "createTenantUser" (mk_api_route (Some "authenticated") false) true;
  mk_route "GET" "/v1/tenants/{tenantId}/users" "listTenantUsers" (mk_api_route (Some "authenticated") false) false;
  mk_route "POST" "/v1/tenants/{tenantId}/invitations" "createInvitation" (mk_api_route (Some "authenticated") false) true;
  mk_route "GET" "/v1/tenants/{tenantId}/invitations" "listInvitations" (mk_api_route (Some "authenticated") false) false;
  mk_route "GET" "/v1/tenants/{tenantId}/invitations/{invitationId}" "getInvitation" (mk_api_route (Some "authenticated") false) false;
  mk_route "POST" "/v1/tenants/{tenantId}/invitations/{invitationId}/acceptance" "acceptInvitation" (mk_api_route (Some "public") true) true;
  mk_route "POST" "/v1/tenants/{tenantId}/invitations/{invitationId}/revocation" "revokeInvitation" (mk_api_route (Some "authenticated") false) true;
  mk_route "POST" "/v1/tenants/{tenantId}/invitations/{invitationId}/resend" "resendInvitation" (mk_api_route (Some "authenticated") false) true;
  mk_route "GET" "/v1/tenants/{tenantId}/auth-config" "getAuthConfig" (mk_api_route (Some "authenticated") false) false;
  mk_route "PUT" "/v1/tenants/{tenantId}/auth-config" "setAuthConfig" (mk_api_route (Some "authenticated") false) true;
  mk_route "PUT" "/v1/tenants/{tenantId}/auth-config/identity-providers/{alias}" "setSocialProvider" (mk_api_route (Some "authenticated") false) true;
  mk_route "DELETE" "/v1/tenants/{tenantId}/auth-config/identity-providers/{alias}" "deleteSocialProvider" (mk_api_route (Some "authenticated") false) true;
  mk_route "POST" "/v1/tenants/{tenantId}/workspaces" "createWorkspace" (mk_api_route (Some "authenticated") false) true;
  mk_route "GET" "/v1/tenants/{tenantId}/workspaces" "listTenantWorkspaces" (mk_api_route (Some "authenticated") false) false;
  mk_route "GET" "/v1/workspaces" "listWorkspaces" (mk_api_route (Some "authenticated") false) false;
  mk_route "GET" "/v1/workspaces/{workspaceId}" "getWorkspace" (mk_api_route (Some "authenticated") false) false;
  mk_route "POST" "/v1/workspaces/{workspaceId}/iam/clients" "createWorkspaceIamClient" (mk_api_route (Some "authenticated") false) true;
  mk_route "GET" "/v1/workspaces/{workspaceId}/realtime" "getWorkspaceRealtime" (mk_api_route (Some "authenticated") false) false;
  mk_route "GET" "/v1/workspaces/{workspaceId}/applications" "listExternalApplications" (mk_api_route (Some "authenticated") false) false;
  mk_route "POST" "/v1/workspaces/{workspaceId}/applications" "createExternalApplication" (mk_api_route (Some "authenticated") false) true;
  mk_route "GET" "/v1/workspaces/{workspaceId}/applications/templates" "listExternalApplicationStarterTemplates" (mk_api_route (Some "authenticated") false) false;
  mk_route "GET" "/v1/workspaces/{workspaceId}/applications/{applicationId}" "getExternalApplication" (mk_api_route (Some "authenticated") false) false;
  mk_route "PUT" "/v1/workspaces/{workspaceId}/applications/{applicationId}" "updateExternalApplication" (mk_api_route (Some "authenticated") false) true;
  mk_route "GET" "/v1/workspaces/{workspaceId}/applications/{applicationId}/federation/providers" "listExternalApplicationFederatedProviders" (mk_api_route (Some "authenticated") false) false;
  mk_route "POST" "/v1/workspaces/{workspaceId}/applications/{applicationId}/federation/providers" "createExternalApplicationFederatedProvider" (mk_api_route (Some "authenticated") false) true;
  mk_route "GET" "/v1/workspaces/{workspaceId}/applications/{applicationId}/federation/providers/{providerId}" "getExternalApplicationFederatedProvider" (mk_api_route (Some "authenticated") false) false;
  mk_route "PUT" "/v1/workspaces/{workspaceId}/applications/{applicationId}/federation/providers/{providerId}" "updateExternalApplicationFederatedProvider" (mk_api_route (Some "authenticated") false) true;
  mk_route "DELETE" "/v1/workspaces/{workspaceId}" "deleteWorkspace" (mk_api_route (Some "authenticated") false) true;
  mk_route "POST" "/v1/workspaces/{workspaceId}/promotions" "promoteWorkspace" (mk_api_route (Some "authenticated") false) true;
  mk_route "POST" "/v1/workspaces/{workspaceId}/clone" "cloneWorkspace" (mk_api_route (Some "authenticated") false) true;
  mk_route "GET" "/v1/workspaces/{workspaceId}/docs" "workspace-docs.mjs" (mk_api_route (Some "authenticated") false) false;
  mk_route "POST" "/v1/workspaces/{workspaceId}/docs/notes" "workspace-docs.mjs" (mk_api_route (Some "authenticated") false) true;
  mk_route "PUT" "/v1/workspaces/{workspaceId}/docs/notes/{noteId}" "workspace-docs.mjs" (mk_api_route (Some "authenticated") false) true;
  mk_route "DELETE" "/v1/workspaces/{workspaceId}/docs/notes/{noteId}" "workspace-docs.mjs" (mk_api_route (Some "authenticated") false) true;
  mk_route "POST" "/v1/workspaces/{workspaceId}/service-accounts" "createServiceAccount" (mk_api_route (Some "authenticated") false) true;
  mk_route "GET" "/v1/workspaces/{workspaceId}/service-accounts" "listServiceAccounts" (mk_api_route (Some "authenticated") false) false;
  mk_route "GET" "/v1/workspaces/{workspaceId}/service-accounts/{serviceAccountId}" "getServiceAccount" (mk_api_route (Some "authenticated") false) false;
  mk_route "POST" "/v1/workspaces/{workspaceId}/service-accounts/{serviceAccountId}/credential-issuance" "issueCredential" (mk_api_route (Some "authenticated") false) true;
  mk_route "POST" "/v1/workspaces/{workspaceId}/service-accounts/{serviceAccountId}/credential-rotations" "rotateCredential" (mk_api_route (Some "authenticated") false) true;
  mk_route "POST" "/v1/workspaces/{workspaceId}/service-accounts/{serviceAccountId}/credential-revocations" "revokeCredential" (mk_api_route (Some "authenticated") false) true;
  mk_route "DELETE" "/v1/workspaces/{workspaceId}/service-accounts/{serviceAccountId}" "deleteServiceAccount" (mk_api_route (Some "authenticated") false) true;
  mk_route "POST" "/v1/workspaces/{workspaceId}/database" "provisionDatabase" (mk_api_route (Some "authenticated") false) true;
  mk_route "GET" "/v1/workspaces/{workspaceId}/database" "getDatabase" (mk_api_route (Some "authenticated") false) false;
  mk_route "GET" "/v1/workspaces/{workspaceId}/database/history" "getDatabaseHistory" (mk_api_route (Some "authenticated") false) false;
  mk_route "POST" "/v1/workspaces/{workspaceId}/database/credential-rotations" "rotateDatabaseCredential" (mk_api_route (Some "authenticated") false) true;
  mk_route "POST" "/v1/workspaces/{workspaceId}/functions" "registerFunction" (mk_api_route (Some "authenticated") false) true;
  mk_route "GET" "/v1/workspaces/{workspaceId}/functions" "listFunctions" (mk_api_route (Some "authenticated") false) false;
  mk_route "GET" "/v1/iam/realms" "iamListRealms" (mk_api_route (Some "superadmin") false) false;
  mk_route "GET" "/v1/iam/realms/{realmId}" "iamGetRealm" (mk_api_route (Some "authenticated") false) false;
  mk_route "PUT" "/v1/iam/realms/{realmId}" "iamUpdateRealm" (mk_api_route (Some "authenticated") false) true;
  mk_route "GET" "/v1/iam/realms/{realmId}/users" "iamListUsers" (mk_api_route (Some "authenticated") false) false;
  mk_route "GET" "/v1/iam/realms/{realmId}/users/{userId}" "iamGetUser" (mk_api_route (Some "authenticated") false) false;
  mk_route "POST" "/v1/iam/realms/{realmId}/users" "iamCreateUser" (mk_api_route (Some "superadmin") false) true;
  mk_route "DELETE" "/v1/iam/realms/{realmId}/users/{userId}" "iamDeleteUser" (mk_api_route (Some "authenticated") false) true;
  mk_route "PATCH" "/v1/iam/realms/{realmId}/users/{userId}/status" "iamSetUserStatus" (mk_api_route (Some "authenticated") false) true;
  mk_route "GET" "/v1/iam/realms/{realmId}/roles" "iamListRoles" (mk_api_route (Some "superadmin") false) false;
  mk_route "GET" "/v1/iam/realms/{realmId}/scopes" "iamListScopes" (mk_api_route (Some "authenticated") false) false;
  mk_route "POST" "/v1/iam/realms/{realmId}/roles" "iamCreateRole" (mk_api_route (Some "superadmin") false) true;
  mk_route "GET" "/v1/iam/realms/{realmId}/roles/{roleName}" "iamGetRole" (mk_api_route (Some "superadmin") false) false;
  mk_route "DELETE" "/v1/iam/realms/{realmId}/roles/{roleName}" "iamDeleteRole" (mk_api_route (Some "superadmin") false) true;
  mk_route "GET" "/v1/iam/realms/{realmId}/groups" "iamListGroups" (mk_api_route (Some "superadmin") false) false;
  mk_route "POST" "/v1/iam/realms/{realmId}/groups" "iamCreateGroup" (mk_api_route (Some "superadmin") false) true;
  mk_route "GET" "/v1/iam/realms/{realmId}/clients" "iamListClients" (mk_api_route (Some "superadmin") false) false;
  mk_route "GET" "/v1/iam/realms/{realmId}/users/{userId}/roles" "iamListUserRoles" (mk_api_route (Some "superadmin") false) false;
  mk_route "POST" "/v1/iam/realms/{realmId}/users/{userId}/role-assignments" "iamAssignUserRoles" (mk_api_route (Some "superadmin") false) true;
  mk_route "DELETE" "/v1/iam/realms/{realmId}/users/{userId}/role-assignments" "iamRemoveUserRoles" (mk_api_route (Some "superadmin") false) true;
  mk_route "GET" "/v1/iam/realms/{realmId}/users/{userId}/groups" "iamListUserGroups" (mk_api_route (Some "superadmin") false) false;
  mk_route "PUT" "/v1/iam/realms/{realmId}/users/{userId}/groups/{groupId}" "iamAddUserToGroup" (mk_api_route (Some "superadmin") false) true;
  mk_route "DELETE" "/v1/iam/realms/{realmId}/users/{userId}/groups/{groupId}" "iamRemoveUserFromGroup" (mk_api_route (Some "superadmin") false) true;
  mk_route "GET" "/v1/iam/realms/{realmId}/groups/{groupId}/members" "iamListGroupMembers" (mk_api_route (Some "superadmin") false) false;
  mk_route "POST" "/v1/internal/scope-enforcement/denials" "recordScopeEnforcementDenial" (mk_api_route (Some "superadmin") false) true;
  mk_route "GET" "/v1/metrics/tenants/{tenantId}/quotas" "metricsTenantQuotas" (mk_api_route (Some "authenticated") false) false;
  mk_route "GET" "/v1/metrics/tenants/{tenantId}/overview" "metricsTenantOverview" (mk_api_route (Some "authenticated") false) false;
  mk_route "GET" "/v1/metrics/tenants/{tenantId}/usage" "metricsTenantUsage" (mk_api_route (Some "authenticated") false) false;
  mk_route "GET" "/v1/metrics/tenants/{tenantId}/series" "metricsTenantSeries" (mk_api_route (Some "authenticated") false) false;
  mk_route "GET" "/v1/metrics/tenants/{tenantId}/audit-records" "metricsTenantAudit" (mk_api_route (Some "authenticated") false) false;
  mk_route "POST" "/v1/metrics/tenants/{tenantId}/audit-exports" "metricsTenantAuditExport" (mk_api_route (Some "authenticated") false) true;
  mk_route "GET" "/v1/metrics/workspaces/{workspaceId}/quotas" "metricsWorkspaceQuotas" (mk_api_route (Some "authenticated") false) false;
  mk_route "GET" "/v1/metrics/workspaces/{workspaceId}/overview" "metricsWorkspaceOverview" (mk_api_route (Some "authenticated") false) false;
  mk_route "GET" "/v1/metrics/workspaces/{workspaceId}/usage" "metricsWorkspaceUsage" (mk_api_route (Some "authenticated") false) false;
  mk_route "GET" "/v1/metrics/workspaces/{workspaceId}/series" "metricsWorkspaceSeries" (mk_api_route (Some "authenticated") false) false;
  mk_route "GET" "/v1/metrics/workspaces/{workspaceId}/audit-records" "metricsWorkspaceAudit" (mk_api_route (Some "authenticated") false) false;
  mk_route "POST" "/v1/metrics/workspaces/{workspaceId}/audit-exports" "metricsWorkspaceAuditExport" (mk_api_route (Some "authenticated") false) true;
  mk_route "GET" "/v1/postgres/databases" "pgListDatabases" (mk_api_route (Some "authenticated") false) false;
  mk_route "GET" "/v1/postgres/databases/{db}/schemas" "pgListSchemas" (mk_api_route (Some "authenticated") false) false;
  mk_route "GET" "/v1/postgres/databases/{db}/schemas/{schema}/tables" "pgListTables" (mk_api_route (Some "authenticated") false) false;
  mk_route "GET" "/v1/postgres/databases/{db}/schemas/{schema}/tables/{table}/columns" "pgColumns" (mk_api_route (Some "authenticated") false) false;
  mk_route "GET" "/v1/postgres/databases/{db}/schemas/{schema}/tables/{table}/indexes" "pgIndexes" (mk_api_route (Some "authenticated") false) false;
  mk_route "GET" "/v1/postgres/databases/{db}/schemas/{schema}/tables/{table}/policies" "pgPolicies" (mk_api_route (Some "authenticated") false) false;
  mk_route "GET" "/v1/postgres/databases/{db}/schemas/{schema}/tables/{table}/security" "pgSecurity" (mk_api_route (Some "authenticated") false) false;
  mk_route "GET" "/v1/postgres/databases/{db}/schemas/{schema}/views" "pgViews" (mk_api_route (Some "authenticated") false) false;
  mk_route "GET" "/v1/postgres/databases/{db}/schemas/{schema}/materialized-views" "pgMatViews" (mk_api_route (Some "authenticated") false) false;
  mk_route "POST" "/v1/postgres/workspaces/{workspaceId}/data/{databaseName}/schemas/{schemaName}/tables/{tableName}/exports" "pgDataExport" (mk_api_route (Some "authenticated") false) true;
  mk_route "POST" "/v1/postgres/workspaces/{workspaceId}/data/{databaseName}/schemas/{schemaName}/tables/{tableName}/imports" "pgDataImport" (mk_api_route (Some "authenticated") false) true;
  mk_route "GET" "/v1/mongo/databases" "mongoListDatabases" (mk_api_route (Some "authenticated") false) false;
  mk_route "GET" "/v1/mongo/databases/{db}/collections" "mongoListCollections" (mk_api_route (Some "authenticated") false) false;
  mk_route "GET" "/v1/mongo/databases/{db}/collections/{col}" "mongoCollectionDetail" (mk_api_route (Some "authenticated") false) false;
  mk_route "GET" "/v1/mongo/databases/{db}/collections/{col}/indexes" "mongoIndexes" (mk_api_route (Some "authenticated") false) false;
  mk_route "GET" "/v1/mongo/databases/{db}/views" "mongoViews" (mk_api_route (Some "authenticated") false) false;
  mk_route "GET" "/v1/mongo/workspaces/{workspaceId}/data/{db}/collections/{col}/documents" "mongoDocuments" (mk_api_route (Some "authenticated") false) false;
  mk_route "POST" "/v1/mongo/workspaces/{workspaceId}/data/{databaseName}/collections/{collectionName}/exports" "mongoDataExport" (mk_api_route (Some "authenticated") false) true;
  mk_route "POST" "/v1/mongo/workspaces/{workspaceId}/data/{databaseName}/collections/{collectionName}/imports" "mongoDataImport" (mk_api_route (Some "authenticated") false) true;
  mk_route "POST" "/v1/workspaces/{workspaceId}/databases" "provisionDatabaseGeneric" (mk_api_route (Some "authenticated") false) true;
  mk_route "DELETE" "/v1/workspaces/{workspaceId}/databases/{databaseName}" "deleteDatabase" (mk_api_route (Some "authenticated") false) true;
  mk_route "GET" "/v1/storage/buckets" "storageListBuckets" (mk_api_route (Some "authenticated") false) false;
  mk_route "GET" "/v1/storage/workspaces/{workspaceId}/buckets" "storageListWorkspaceBuckets" (mk_api_route (Some "authenticated") false) false;
  mk_route "POST" "/v1/storage/workspaces/{workspaceId}/buckets" "storageProvisionBucket" (mk_api_route (Some "authenticated") false) true;
  mk_route "GET" "/v1/storage/workspaces/{workspaceId}/usage" "storageWorkspaceUsage" (mk_api_route (Some "authenticated") false) false;
  mk_route "GET" "/v1/storage/buckets/{bucketId}/objects" "storageListObjects" (mk_api_route (Some "authenticated") false) false;
  mk_route "GET" "/v1/storage/buckets/{bucketId}/objects/{objectKey}/metadata" "storageObjectMetadata" (mk_api_route (Some "authenticated") false) false;
  mk_route "DELETE" "/v1/storage/buckets/{bucketId}" "storageDeleteBucket" (mk_api_route (Some "authenticated") false) true;
  mk_route "PUT" "/v1/storage/buckets/{bucketId}/objects/{objectKey}" "storagePutObject" (mk_api_route (Some "authenticated") false) true;
  mk_route "GET" "/v1/storage/buckets/{bucketId}/objects/{objectKey}" "storageGetObject" (mk_api_route (Some "authenticated") false) false;
  mk_route "DELETE" "/v1/storage/buckets/{bucketId}/objects/{objectKey}" "storageDeleteObject" (mk_api_route (Some "authenticated") false) true;
  mk_route "POST" "/v1/storage/buckets/{bucketId}/objects/{objectKey}/presign" "storagePresignObject" (mk_api_route (Some "authenticated") false) true;
  mk_route "POST" "/v1/storage/buckets/{bucketId}/objects/{objectKey}/multipart" "storageMultipartInitiate" (mk_api_route (Some "authenticated") false) true;
  mk_route "PUT" "/v1/storage/buckets/{bucketId}/objects/{objectKey}/multipart/{uploadId}/parts/{partNumber}" "storageMultipartUploadPart" (mk_api_route (Some "authenticated") false) true;
  mk_route "POST" "/v1/storage/buckets/{bucketId}/objects/{objectKey}/multipart/{uploadId}/complete" "storageMultipartComplete" (mk_api_route (Some "authenticated") false) true;
  mk_route "DELETE" "/v1/storage/buckets/{bucketId}/objects/{objectKey}/multipart/{uploadId}" "storageMultipartAbort" (mk_api_route (Some "authenticated") false) true;
  mk_route "POST" "/v1/storage/buckets/{bucketId}/credentials" "storageRotateCredential" (mk_api_route (Some "authenticated") false) true;
  mk_route "DELETE" "/v1/storage/buckets/{bucketId}/credentials" "storageRevokeCredential" (mk_api_route (Some "authenticated") false) true;
  mk_route "POST" "/v1/storage/workspaces/{workspaceId}/buckets/{bucketId}/exports" "storageBucketExport" (mk_api_route (Some "authenticated") false) true;
  mk_route "GET" "/v1/storage/workspaces/{workspaceId}/buckets/{bucketId}/exports/{manifestId}" "storageBucketExportManifestGet" (mk_api_route (Some "authenticated") false) false;
  mk_route "POST" "/v1/storage/workspaces/{workspaceId}/buckets/{bucketId}/imports" "storageBucketImport" (mk_api_route (Some "authenticated") false) true;
  mk_route "GET" "/v1/functions/workspaces/{workspaceId}/inventory" "fnInventory" (mk_api_route (Some "authenticated") false) false;
  mk_route "GET" "/v1/functions/workspaces/{workspaceId}/actions" "fnListActions" (mk_api_route (Some "authenticated") false) false;
  mk_route "GET" "/v1/functions/actions/{resourceId}/definition-export" "fnDefinitionExport" (mk_api_route (Some "authenticated") false) false;
  mk_route "POST" "/v1/functions/workspaces/{workspaceId}/definition-imports" "fnDefinitionImport" (mk_api_route (Some "authenticated") false) true;
  mk_route "POST" "/v1/functions/workspaces/{workspaceId}/package-definition-imports" "fnPackageDefinitionImport" (mk_api_route (Some "authenticated") false) true;
  mk_route "GET" "/v1/functions/workspaces/{workspaceId}/packages/{packageName}/definition-export" "fnPackageDefinitionExport" (mk_api_route (Some "authenticated") false) false;
  mk_route "POST" "/v1/functions/workspaces/{workspaceId}/secrets" "secretSet" (mk_api_route (Some "authenticated") false) true;
  mk_route "GET" "/v1/functions/workspaces/{workspaceId}/secrets" "secretList" (mk_api_route (Some "authenticated") false) true;
  mk_route "GET" "/v1/functions/workspaces/{workspaceId}/secrets/{secretName}" "secretGet" (mk_api_route (Some "authenticated") false) true;
  mk_route "PUT" "/v1/functions/workspaces/{workspaceId}/secrets/{secretName}" "secretReplace" (mk_api_route (Some "authenticated") false) true;
  mk_route "DELETE" "/v1/functions/workspaces/{workspaceId}/secrets/{secretName}" "secretDelete" (mk_api_route (Some "authenticated") false) true;
  mk_route "POST" "/v1/functions/actions" "fnDeploy" (mk_api_route (Some "authenticated") false) true;
  mk_route "GET" "/v1/functions/actions/{actionId}" "fnActionDetail" (mk_api_route (Some "authenticated") false) false;
  mk_route "PATCH" "/v1/functions/actions/{actionId}" "fnDeploy" (mk_api_route (Some "authenticated") false) true;
  mk_route "DELETE" "/v1/functions/actions/{actionId}" "fnDelete" (mk_api_route (Some "authenticated") false) true;
  mk_route "POST" "/v1/functions/actions/{actionId}/invocations" "fnInvoke" (mk_api_route (Some "authenticated") false) true;
  mk_route "POST" "/v1/functions/actions/{actionId}/rollback" "fnRollback" (mk_api_route (Some "authenticated") false) true;
  mk_route "GET" "/v1/functions/actions/{actionId}/versions" "fnVersions" (mk_api_route (Some "authenticated") false) false;
  mk_route "GET" "/v1/functions/actions/{actionId}/activations" "fnActivations" (mk_api_route (Some "authenticated") false) false;
  mk_route "GET" "/v1/functions/actions/{actionId}/activations/{activationId}" "fnActivation" (mk_api_route (Some "authenticated") false) false;
  mk_route "GET" "/v1/functions/actions/{actionId}/activations/{activationId}/logs" "fnActivationLogs" (mk_api_route (Some "authenticated") false) false;
  mk_route "GET" "/v1/functions/actions/{actionId}/activations/{activationId}/result" "fnActivationResult" (mk_api_route (Some "authenticated") false) false;
  mk_route "POST" "/v1/functions/actions/{actionId}/activations/{activationId}/rerun" "fnActivationRerun" (mk_api_route (Some "authenticated") false) true;
  mk_route "GET" "/v1/events/workspaces/{workspaceId}/inventory" "eventsInventory" (mk_api_route (Some "authenticated") false) false;
  mk_route "GET" "/v1/events/workspaces/{workspaceId}/topics" "eventsListTopics" (mk_api_route (Some "authenticated") false) false;
  mk_route "POST" "/v1/events/workspaces/{workspaceId}/topics" "eventsProvisionTopic" (mk_api_route (Some "authenticated") false) true;
  mk_route "POST" "/v1/events/workspaces/{workspaceId}/topics/{topic}/publish" "eventsWorkspaceTopicPublish" (mk_api_route (Some "authenticated") false) true;
  mk_route "GET" "/v1/events/workspaces/{workspaceId}/topics/{topic}/messages" "eventsWorkspaceTopicMessages" (mk_api_route (Some "authenticated") false) false;
  mk_route "GET" "/v1/events/topics/{topicId}" "eventsTopicDetail" (mk_api_route (Some "authenticated") false) false;
  mk_route "GET" "/v1/events/topics/{topicId}/access" "eventsTopicAccess" (mk_api_route (Some "authenticated") false) false;
  mk_route "GET" "/v1/events/topics/{topicId}/metadata" "eventsTopicMetadata" (mk_api_route (Some "authenticated") false) false;
  mk_route "POST" "/v1/events/topics/{topicId}/publish" "eventsTopicPublish" (mk_api_route (Some "authenticated") false) true;
  mk_route "GET" "/v1/events/topics/{topicId}/stream" "eventsTopicStream" (mk_api_route (Some "authenticated") false) false;
  mk_route "GET" "/v1/webhooks/event-types" "webhookManage" (mk_api_route (Some "authenticated") false) false;
  mk_route "POST" "/v1/webhooks/subscriptions" "webhookManage" (mk_api_route (Some "authenticated") false) true;
  mk_route "GET" "/v1/webhooks/subscriptions" "webhookManage" (mk_api_route (Some "authenticated") false) false;
  mk_route "GET" "/v1/webhooks/subscriptions/{subscriptionId}" "webhookManage" (mk_api_route (Some "authenticated") false) false;
  mk_route "PATCH" "/v1/webhooks/subscriptions/{subscriptionId}" "webhookManage" (mk_api_route (Some "authenticated") false) true;
  mk_route "DELETE" "/v1/webhooks/subscriptions/{subscriptionId}" "webhookManage" (mk_api_route (Some "authenticated") false) true;
  mk_route "POST" "/v1/webhooks/subscriptions/{subscriptionId}/pause" "webhookManage" (mk_api_route (Some "authenticated") false) true;
  mk_route "POST" "/v1/webhooks/subscriptions/{subscriptionId}/resume" "webhookManage" (mk_api_route (Some "authenticated") false) true;
  mk_route "POST" "/v1/webhooks/subscriptions/{subscriptionId}/rotate-secret" "webhookManage" (mk_api_route (Some "authenticated") false) true;
  mk_route "GET" "/v1/webhooks/subscriptions/{subscriptionId}/deliveries" "webhookManage" (mk_api_route (Some "authenticated") false) false;
  mk_route "GET" "/v1/webhooks/subscriptions/{subscriptionId}/deliveries/{deliveryId}" "webhookManage" (mk_api_route (Some "authenticated") false) false;
  mk_route "GET" "/v1/workspaces/{workspaceId}/webhooks/event-types" "webhookManage" (mk_api_route (Some "authenticated") false) false;
  mk_route "POST" "/v1/workspaces/{workspaceId}/webhooks/subscriptions" "webhookManage" (mk_api_route (Some "authenticated") false) true;
  mk_route "GET" "/v1/workspaces/{workspaceId}/webhooks/subscriptions" "webhookManage" (mk_api_route (Some "authenticated") false) false;
  mk_route "GET" "/v1/workspaces/{workspaceId}/webhooks/subscriptions/{subscriptionId}" "webhookManage" (mk_api_route (Some "authenticated") false) false;
  mk_route "PATCH" "/v1/workspaces/{workspaceId}/webhooks/subscriptions/{subscriptionId}" "webhookManage" (mk_api_route (Some "authenticated") false) true;
  mk_route "DELETE" "/v1/workspaces/{workspaceId}/webhooks/subscriptions/{subscriptionId}" "webhookManage" (mk_api_route (Some "authenticated") false) true;
  mk_route "POST" "/v1/workspaces/{workspaceId}/webhooks/subscriptions/{subscriptionId}/pause" "webhookManage" (mk_api_route (Some "authenticated") false) true;
  mk_route "POST" "/v1/workspaces/{workspaceId}/webhooks/subscriptions/{subscriptionId}/resume" "webhookManage" (mk_api_route (Some "authenticated") false) true;
  mk_route "POST" "/v1/workspaces/{workspaceId}/webhooks/subscriptions/{subscriptionId}/rotate-secret" "webhookManage" (mk_api_route (Some "authenticated") false) true;
  mk_route "GET" "/v1/workspaces/{workspaceId}/webhooks/subscriptions/{subscriptionId}/deliveries" "webhookManage" (mk_api_route (Some "authenticated") false) false;
  mk_route "GET" "/v1/workspaces/{workspaceId}/webhooks/subscriptions/{subscriptionId}/deliveries/{deliveryId}" "webhookManage" (mk_api_route (Some "authenticated") false) false;
  mk_route "POST" "/v1/auth/login-sessions" "login" (mk_api_route (Some "public") false) true;
  mk_route "POST" "/v1/auth/signups" "signup" (mk_api_route (Some "public") false) true;
  mk_route "POST" "/v1/auth/login-sessions/{sessionId}/refresh" "refresh" (mk_api_route (Some "public") false) true;
  mk_route "DELETE" "/v1/auth/login-sessions/{sessionId}" "logout" (mk_api_route (Some "authenticated") false) true;
  mk_route "GET" "/v1/auth/status-views/{statusViewId}" "getConsoleAccountStatusView" (mk_api_route (Some "public") false) false;
  mk_route "GET" "/v1/auth/signups/policy" "signupPolicy" (mk_api_route (Some "public") false) false;
  mk_route "POST" "/v1/workspaces/{workspaceId}/quota-decisions" "productQuotaDecision" (mk_api_route (Some "authenticated") false) true].

(** The table of a start without a route map. *)
Definition seed_table : list compiled := match loadRoutes [] seedRoutes with Ok cs => cs | Err _ => [] end.

Section serve.
Context `{!Platform, !SaStore, !JwtRuntime} (v : verifier).

(** The request handler up to the dispatch: 404, or the gate of the route. *)
Definition route_request (table : list compiled) (method path : string) (authorization : option string)
    : M (world jwt_state unit) js_error (option route * gate) :=
  match matchRoute table method path with
  | None => mret (None, Rejected 404 "NO_ROUTE")
  | Some r => admit_request v (rt_gate r) authorization ≫= fun g => mret (Some r, g)
  end.

End serve.
