(* ===== verification/RouteProofs.v ===== *)
(** * Which route serves a request

    The loaded table answers with the most specific matching route, and the seed table
    has no route that another one hides; without a token only the public routes answer. *)
From S2P Require Import Prelude JsValue Regex Platform SaRevocation JwtTrust JwtProofs Authz AuthzProofs RouteTable.
From Stdlib Require Import Ascii Sorted Permutation.
Local Open Scope Z_scope.

(** ** The order of the table *)

Lemma not_after_spec a b : not_after a b = true <->
  (segments (cr_route b) < segments (cr_route a))%nat \/
  (segments (cr_route b) = segments (cr_route a) /\ (wildcard (cr_route a) <= wildcard (cr_route b))%nat).
Proof. unfold not_after. rewrite orb_true_iff, andb_true_iff, Nat.ltb_lt, Nat.eqb_eq, Nat.leb_le. lia. Qed.

Lemma not_after_false a b : not_after a b = false -> not_after b a = true.
Proof. rewrite <- not_true_iff_false, !not_after_spec. lia. Qed.

Lemma not_after_trans a b c : not_after a b = true -> not_after b c = true -> not_after a c = true.
Proof. rewrite !not_after_spec. lia. Qed.

Definition ordered : list compiled -> Prop := StronglySorted (fun a b => not_after a b = true).

Lemma insert_perm x l : insert_route x l ≡ₚ x :: l.
Proof. induction l as [|y l IH]; [done|]. simpl. destruct (not_after x y); [done|]. rewrite IH. apply Permutation_swap. Qed.

Lemma insert_ordered x l : ordered l -> ordered (insert_route x l).
Proof.
  unfold ordered. induction 1 as [|y l Hl IH Hy]; simpl; [repeat constructor|]. destruct (not_after x y) eqn:Hxy.
  - constructor; [by constructor|]. constructor; [done|]. eapply Forall_impl; [exact Hy|]. intros z. by apply not_after_trans.
  - constructor; [done|]. rewrite insert_perm. constructor; [by apply not_after_false | done].
Qed.

Lemma sort_perm l : sort_routes l ≡ₚ l.
Proof. induction l as [|x l IH]; [done|]. simpl. by rewrite insert_perm, IH. Qed.

Lemma sort_ordered l : ordered (sort_routes l).
Proof. induction l as [|x l IH]; [constructor|]. by apply insert_ordered. Qed.

(** The first match in an ordered table is one none precedes. *)
Lemma find_ordered method path table c : ordered table -> List.find (route_matches method path) table = Some c ->
  c ∈ table /\ route_matches method path c = true /\ forall d, d ∈ table -> route_matches method path d = true -> not_after c d = true.
Proof.
  induction 1 as [|x l Hl IH Hx]; [done|]. simpl. destruct (route_matches method path x) eqn:Hm.
  - intros [= ->]. split_and!; [by left | done|]. intros d [-> | Hd]%elem_of_cons _; [apply not_after_spec; lia|].
    rewrite Forall_forall in Hx. by apply Hx.
  - intros Hf. destruct (IH Hf) as (Hin & Hc & Hall). split_and!; [by right | done|].
    intros d [-> | Hd]%elem_of_cons Hdm; [congruence | by apply Hall].
Qed.

(** ** The routes of the table *)

Lemma compile_all_spec rs cs : compile_all rs = Ok cs -> Forall2 (fun r c => cr_route c = r /\ compilePath (rt_path r) = Ok (cr_rx c)) rs cs.
Proof.
  revert cs. induction rs as [|r rs IH]; intros cs; simpl; [intros [= <-]; constructor|].
  intros (rx & Hrx & (cs' & Hcs & [= <-])%result_bind_ok)%result_bind_ok. constructor; [done | by apply IH].
Qed.

(** The last declaration of a method and template. *)
Definition declared (rs : list route) (r : route) : Prop :=
  exists before after, rs = before ++ r :: after /\ forall r', r' ∈ after -> route_key r' <> route_key r.

Lemma by_key_spec rs : NoDup (by_key rs).*1 /\ forall x, x ∈ by_key rs <-> x.1 = route_key x.2 /\ declared rs x.2.
Proof.
  unfold by_key. induction rs as [|r rs [Hnd Hel]] using rev_ind.
  - split; [constructor|]. intros x. split; [intros Hx; by apply elem_of_nil in Hx|]. intros (_ & before & after & Heq & _). by destruct before.
  - rewrite foldl_app. simpl. split; [by apply assoc_set_nodup|]. intros x. rewrite assoc_set_elem, Hel by done. split.
    + intros [-> | [(Hk & before & after & -> & Haft) Hne]]; simpl.
      * split; [done|]. exists rs, []. split; [done|]. intros r' Hr'. by apply elem_of_nil in Hr'.
      * split; [done|]. exists before, (after ++ [r]). split; [by rewrite <- app_assoc|]. intros r' [Hr' | ->%list_elem_of_singleton]%elem_of_app; [by apply Haft|].
        rewrite <- Hk. done.
    + intros (Hk & before & after & Heq & Haft). destruct x as [k y]. simpl in *. subst k.
      destruct after as [|z after _] using rev_ind.
      * apply app_inj_tail in Heq as [_ ->]. by left.
      * right. rewrite app_comm_cons, app_assoc in Heq. apply app_inj_tail in Heq as [-> ->].
        assert (Hz : route_key z <> route_key y) by (apply Haft, elem_of_app; right; by left).
        split; [|congruence]. split; [done|]. exists before, after. split; [done|]. intros r' Hr'. apply Haft, elem_of_app. by left.
Qed.

Definition template_matches (method path : string) (r : route) : Prop :=
  (rt_method r = method \/ rt_method r = "ANY") /\ exists rx, compilePath (rt_path r) = Ok rx /\ re_test_full rx path = true.

Lemma route_matches_spec method path c : compilePath (rt_path (cr_route c)) = Ok (cr_rx c) ->
  route_matches method path c = true <-> template_matches method path (cr_route c).
Proof.
  intros Hc. unfold route_matches, template_matches. rewrite andb_true_iff, orb_true_iff, !String.eqb_eq, Hc. naive_solver.
Qed.

Lemma table_routes extra seed table : loadRoutes extra seed = Ok table ->
  ordered table /\ (forall c, c ∈ table -> compilePath (rt_path (cr_route c)) = Ok (cr_rx c) /\ declared (extra ++ seed) (cr_route c)) /\
  (forall r, declared (extra ++ seed) r -> exists c, c ∈ table /\ cr_route c = r).
Proof.
  unfold loadRoutes. intros (cs & Hcs & [= <-])%result_bind_ok. apply compile_all_spec in Hcs. destruct (by_key_spec (extra ++ seed)) as [_ Hkeys].
  split; [apply sort_ordered|]. split.
  - intros c. rewrite sort_perm. intros Hc. apply list_elem_of_lookup in Hc as [i Hi]. destruct (Forall2_lookup_r _ _ _ _ _ Hcs Hi) as (r & Hr & <- & Hrx).
    split; [done|]. apply list_elem_of_lookup_2, list_elem_of_fmap_1 in Hr as ([k r] & -> & Hin). by apply Hkeys in Hin as [_ Hd].
  - intros r Hr. assert (Hin : r ∈ (by_key (extra ++ seed)).*2).
    { apply (list_elem_of_fmap_2 snd _ (route_key r, r)). by apply Hkeys. }
    apply list_elem_of_lookup in Hin as [i Hi]. destruct (Forall2_lookup_l _ _ _ _ _ Hcs Hi) as (c & Hc & Heq & _). exists c. rewrite sort_perm.
    split; [by eapply list_elem_of_lookup_2 | done].
Qed.

(** C8: the most specific route answers.  Of the routes declared - the last declaration
    of a method and template counts, so the seed wins over the route map - the match is
    one whose template the path has, with as many segments as any other such route, and
    without a wildcard if one of them is without; and there is none only if no declared
    route matches. *)
Theorem matchRoute_most_specific (extra seed : list route) (table : list compiled) (method path : string) :
  loadRoutes extra seed = Ok table ->
  match matchRoute table method path with
  | Some r => declared (extra ++ seed) r /\ template_matches method path r /\
      forall r', declared (extra ++ seed) r' -> template_matches method path r' ->
        (segments r' < segments r)%nat \/ (segments r' = segments r /\ (wildcard r <= wildcard r')%nat)
  | None => forall r', declared (extra ++ seed) r' -> ~ template_matches method path r'
  end.
Proof.
  intros (Hord & Htab & Hall)%table_routes. unfold matchRoute. destruct (List.find _ table) as [c|] eqn:Hf; cbn.
  - apply find_ordered in Hf as (Hin & Hm & Hfirst); [|done]. destruct (Htab c Hin) as [Hrx Hd]. split; [done|].
    split; [by apply route_matches_spec|]. intros r' Hr' Hm'. destruct (Hall r' Hr') as (d & Hd' & <-). destruct (Htab d Hd') as [Hrx' _].
    apply not_after_spec, Hfirst; [done|]. by apply route_matches_spec.
  - intros r' Hr' Hm'. destruct (Hall r' Hr') as (d & Hd' & <-). destruct (Htab d Hd') as [Hrx' _].
    apply route_matches_spec in Hm'; [|done]. apply list_elem_of_In in Hd'. by rewrite (List.find_none _ _ Hf d Hd') in Hm'.
Qed.

(** A [?] in a template is a quantifier. *)
Example question_mark_in_a_template :
  match compilePath "/files/ab?" with
  | Ok rx => re_test_full rx "/files/a" && re_test_full rx "/files/ab" && negb (re_test_full rx "/files/ab?")
  | Err _ => false
  end = true.
Proof. vm_compute. reflexivity. Qed.

(** ** The seed table *)

(** A path of a template. *)
Definition sample_path (tmpl : string) : string :=
  of_chars (concat ((fun p => match p with Literal c => [c] | OptionalRest => [] | _ => ["x"%char] end) <$> template_pieces tmpl)).

Definition mutating (r : route) : bool := str_in (rt_method r) ["POST"; "PUT"; "PATCH"; "DELETE"].

(** The six routes that are public. *)
Definition PUBLIC_ROUTES : list (string * string) :=
  [("POST", "/v1/tenants/{tenantId}/invitations/{invitationId}/acceptance"); ("POST", "/v1/auth/login-sessions"); ("POST", "/v1/auth/signups");
   ("POST", "/v1/auth/login-sessions/{sessionId}/refresh"); ("GET", "/v1/auth/status-views/{statusViewId}"); ("GET", "/v1/auth/signups/policy")].

Definition seed_route_ok (r : route) : bool :=
  bool_decide (rt_path <$> matchRoute seed_table (rt_method r) (sample_path (rt_path r)) = Some (rt_path r))
  && (negb (mutating r) || rt_audited r)
  && (negb (bool_decide (ar_auth (rt_gate r) = Some "public")) || bool_decide ((rt_method r, rt_path r) ∈ PUBLIC_ROUTES)).

Lemma seed_routes_checked : forallb seed_route_ok seedRoutes = true.
Proof. vm_compute. reflexivity. Qed.

Lemma seed_table_loads : loadRoutes [] seedRoutes = Ok seed_table.
Proof.
  assert (Hok : is_ok (loadRoutes [] seedRoutes) = true) by (vm_compute; reflexivity).
  unfold seed_table. by destruct (loadRoutes [] seedRoutes).
Qed.

#[local] Opaque seed_table seedRoutes.

Lemma declared_member rs r : declared rs r -> r ∈ rs.
Proof. intros (before & after & -> & _). apply elem_of_app. right. by left. Qed.

Lemma seed_match_member method path r : matchRoute seed_table method path = Some r -> r ∈ seedRoutes /\ seed_route_ok r = true.
Proof.
  intros Hm. destruct (table_routes _ _ _ seed_table_loads) as (_ & Htab & _). unfold matchRoute in Hm.
  destruct (List.find _ seed_table) as [c|] eqn:Hf; [|done]. injection Hm as <-. apply List.find_some in Hf as [Hin _].
  apply list_elem_of_In in Hin. destruct (Htab c Hin) as [_ Hd%declared_member]. split; [done|].
  pose proof seed_routes_checked as Hall. rewrite forallb_forall in Hall. by apply Hall, list_elem_of_In.
Qed.

(** What answers without a token.  A request without an Authorization header that
    the control plane admits on its seed table is for one of the six public routes, and
    it is admitted without an identity. *)
Theorem anonymous_surface `{!Platform, !SaStore, !JwtRuntime} (v : verifier) (method path : string) (w : world jwt_state unit)
    (r : route) (id : option identity) :
  fst (route_request v seed_table method path None w) = Ok (Some r, Admit id) ->
  id = None /\ (rt_method r, rt_path r) ∈ PUBLIC_ROUTES.
Proof.
  unfold route_request. destruct (matchRoute seed_table method path) as [r'|] eqn:Hm; [|done].
  destruct (seed_match_member _ _ _ Hm) as [_ Hok]. unfold admit_request, truthy_str. rewrite andb_false_r, orb_false_r. unfold mbind, M_bind.
  case_bool_decide as Hpub; cbn; [|done]. intros [= <- <-]. split; [done|]. unfold seed_route_ok in Hok. apply andb_true_iff in Hok as [_ Hok].
  rewrite bool_decide_eq_true_2 in Hok by done. by apply bool_decide_eq_true in Hok.
Qed.

(** No seed route is hidden.  Every route of the seed table is the match of a path
    of its template, and every route that changes something declares its audit
    coverage. *)
Theorem seed_routes_reached (r : route) :
  r ∈ seedRoutes ->
  (exists r', matchRoute seed_table (rt_method r) (sample_path (rt_path r)) = Some r' /\ rt_path r' = rt_path r) /\
  (mutating r = true -> rt_audited r = true).
Proof.
  intros Hr. pose proof seed_routes_checked as Hall. rewrite forallb_forall in Hall. apply list_elem_of_In in Hr. specialize (Hall r Hr).
  unfold seed_route_ok in Hall. apply andb_true_iff in Hall as [[Hm%bool_decide_eq_true Ha]%andb_true_iff _]. split.
  - destruct (matchRoute seed_table _ _) as [r'|]; [|done]. injection Hm as Hm. by exists r'.
  - intros Hmut. by rewrite Hmut in Ha.
Qed.

(** ** Examples *)

Lemma matchRoute_most_specific_witness :
  matchRoute seed_table "GET" "/v1/auth/signups/policy" = List.find (fun r => String.eqb (rt_handler r) "signupPolicy") seedRoutes /\
  match matchRoute seed_table "GET" "/v1/auth/signups/policy" with
  | Some r => declared ([] ++ seedRoutes) r /\ template_matches "GET" "/v1/auth/signups/policy" r /\
      forall r', declared ([] ++ seedRoutes) r' -> template_matches "GET" "/v1/auth/signups/policy" r' ->
        (segments r' < segments r)%nat \/ (segments r' = segments r /\ (wildcard r <= wildcard r')%nat)
  | None => forall r', declared ([] ++ seedRoutes) r' -> ~ template_matches "GET" "/v1/auth/signups/policy" r'
  end.
Proof.
  split; [vm_compute; reflexivity|]. apply (matchRoute_most_specific [] seedRoutes seed_table "GET" "/v1/auth/signups/policy"). exact seed_table_loads.
Defined.

Definition login_route : route := mk_route "POST" "/v1/auth/login-sessions" "login" (mk_api_route (Some "public") false) true.
#[local] Instance sample_route_runtime : JwtRuntime :=
  {| segment_json := fun _ => None; fetch_jwks := fun _ _ => Ok JNull; rs_import := fun _ => false; rs_verify := fun _ _ _ _ => false |}.
#[local] Instance sample_route_platform : Platform := {| clock := fun n => n; uuid := fun _ => "uuid"; broker := fun _ => None |}.
#[local] Instance sample_route_store : SaStore := {| query_fails := fun _ => false |}.

Lemma anonymous_surface_witness : @None identity = None /\ (rt_method login_route, rt_path login_route) ∈ PUBLIC_ROUTES.
Proof.
  apply (anonymous_surface sample_verifier "POST" "/v1/auth/login-sessions/" (empty_jwt []) login_route None). vm_compute. reflexivity.
Defined.

Lemma seed_routes_reached_witness :
  (exists r', matchRoute seed_table (rt_method login_route) (sample_path (rt_path login_route)) = Some r' /\ rt_path r' = rt_path login_route) /\
  (mutating login_route = true -> rt_audited login_route = true).
Proof. apply (seed_routes_reached login_route). apply (bool_decide_unpack _). vm_compute. exact I. Defined.
