(* ===== verification/SsrfGuard.v ===== *)
(** * The guard of outbound requests

    webhook-engine's [src/webhook-subscription.mjs]: which addresses a webhook may
    not target, and the validation of a subscription; workflow-worker's
    [activities/ssrf.mjs] and webhook-engine's [resolveDeliveryTarget], which check
    a target again when a request is made.  [new URL] and the name resolver are
    parameters: [parse_url] gives the components of a URL it accepts, a resolution
    gives addresses or throws.  Integers are exact: a literal that rounds as a
    double is above 2^32 either way and is refused. *)
From S2P Require Import Prelude JsValue Regex Net.
From Stdlib Require Import Ascii.
Local Open Scope Z_scope.

(** ** Numeric IPv4 literals *)

(** [/^0x[0-9a-f]+$/i], [/^0[0-9]+$/] and [/^[0-9]+$/] *)
Definition hex_re : re := rseqs [rchar "0"; rchar_ci "x"; rplus (RCls is_hex)].
Definition octal_re : re := RSeq (rchar "0") (rplus rdigit).
Definition decimal_re : re := rplus rdigit.

(** One part of the literal; [None] where the loop returns [null]. *)
Definition numeric_part (part : string) : option Z :=
  let n := if re_test_full hex_re part then Some (parse_int_radix 16 part)
           else if re_test_full octal_re part then Some (parse_int_radix 8 part)
           else if re_test_full decimal_re part then Some (parse_int_radix 10 part)
           else None in
  if nonempty part then
    match n with
    | Some (NInt z) => if z <? 0 then None else Some z
    | _ => None
    end
  else None.

(** The unsigned 32-bit address of one to four parts. *)
Definition combine_parts (nums : list Z) : option Z :=
  match nums with
  | [a] => if 4294967295 <? a then None else Some (js_ushr a 0)
  | [a; b] => if (255 <? a) || (16777215 <? b) then None else Some (js_ushr (js_or (js_shl a 24) b) 0)
  | [a; b; c] =>
      if (255 <? a) || (255 <? b) || (65535 <? c) then None
      else Some (js_ushr (js_or (js_or (js_shl a 24) (js_shl b 16)) c) 0)
  | [a; b; c; d] =>
      if existsb (fun n => 255 <? n) nums then None
      else Some (js_ushr (js_or (js_or (js_or (js_shl a 24) (js_shl b 16)) (js_shl c 8)) d) 0)
  | _ => None
  end.

Definition dotted_quad (addr32 : Z) : string :=
  JsValue.join "." (show_Z <$> [js_and (js_ushr addr32 24) 255; js_and (js_ushr addr32 16) 255;
                        js_and (js_ushr addr32 8) 255; js_and addr32 255]).

Definition normalizeNumericIPv4 (host : string) : option string :=
  nums ← mapM numeric_part (split_on "." host);
  dotted_quad <$> combine_parts nums.

(** ** Blocked addresses *)

Definition isBlockedIPv4 (dotted : string) : bool :=
  let parts := to_number <$> split_on "." dotted in
  let a := nth 0 parts NNaN in
  let b := nth 1 parts NNaN in
  num_eqb a (NInt 0) || num_eqb a (NInt 10)
  || (num_eqb a (NInt 100) && num_leb (NInt 64) b && num_leb b (NInt 127))
  || num_eqb a (NInt 127)
  || (num_eqb a (NInt 169) && num_eqb b (NInt 254))
  || (num_eqb a (NInt 172) && num_leb (NInt 16) b && num_leb b (NInt 31))
  || (num_eqb a (NInt 192) && num_eqb b (NInt 168))
  || (num_eqb a (NInt 198) && (num_eqb b (NInt 18) || num_eqb b (NInt 19))).

(** A part of an embedded dotted quad: digits with a value of at most 255. *)
Definition quad_part (part : string) : option Z :=
  if re_test_full decimal_re part then
    match to_number part with NInt n => if 255 <? n then None else Some n | _ => None end
  else None.

(** The literal with a trailing dotted quad rewritten as two groups; [None] where
    [expandIPv6ToBytes] returns [null]. *)
Definition rewrite_embedded (h : string) : option string :=
  let '(front, tail) := match split_last ":" (chars h) with
                        | Some (a, b) => (Some (of_chars a), of_chars b)
                        | None => (None, h)
                        end in
  if includes "." tail then
    let quad := split_on "." tail in
    if negb (Nat.eqb (length quad) 4) then None
    else
      ns ← mapM quad_part quad;
      let hi := js_or (js_shl (nth 0 ns 0) 8) (nth 1 ns 0) in
      let lo := js_or (js_shl (nth 2 ns 0) 8) (nth 3 ns 0) in
      (* [head.slice(0, -1)] when there is no colon *)
      let front := default (of_chars (List.removelast (chars h))) front in
      Some (front +:+ ":" +:+ to_hex (Z.to_N hi) +:+ ":" +:+ to_hex (Z.to_N lo))
  else Some h.

(** [/^[0-9a-f]{1,4}$/] *)
Definition group_re : re := rbetween 1 4 (RCls (fun c => is_hex c && negb (is_upper c))).
(** The 16-bit groups of a segment; [None] for [NaN]. *)
Definition toGroups (segment : string) : list (option Z) :=
  if nonempty segment then
    (fun g => if re_test_full group_re g
              then match parse_int_radix 16 g with NInt n => Some n | _ => None end
              else None) <$> split_on ":" segment
  else [].

Definition group_list (head : string) : option (list (option Z)) :=
  match split_on_double ":" head with
  | [l; r] =>
      let left := toGroups l in
      let right := toGroups r in
      if (8 <? length left + length right)%nat then None
      else Some (left ++ replicate (8 - (length left + length right)) (Some 0) ++ right)
  | [_] => Some (toGroups head)
  | _ => None
  end.

Definition bytes_of_groups (groups : list Z) : list Z :=
  flat_map (fun g => [js_and (js_shr g 8) 255; js_and g 255]) groups.

Definition expandIPv6ToBytes (h : string) : option (list Z) :=
  head ← rewrite_embedded h;
  groups ← group_list head;
  if negb (Nat.eqb (length groups) 8) then None
  else gs ← mapM id groups; Some (bytes_of_groups gs).

Definition NAT64_PREFIX : list Z := [0; 100; 255; 155; 0; 0; 0; 0; 0; 0; 0; 0].

(** [`${bytes[12]}.${bytes[13]}.${bytes[14]}.${bytes[15]}`] *)
Definition embedded_quad (bytes : list Z) : string :=
  JsValue.join "." (show_Z <$> take 4 (drop 12 bytes)).

(** The check of the embedded address, when there is one. *)
Definition embedded_blocked (bytes : list Z) : option bool :=
  if forallb (Z.eqb 0) (take 10 bytes) && (nth 10 bytes 0 =? 255) && (nth 11 bytes 0 =? 255)
  then Some (isBlockedIPv4 (embedded_quad bytes))
  else if bool_decide (take 12 bytes = NAT64_PREFIX)
  then Some (isBlockedIPv4 (embedded_quad bytes))
  else None.

Definition blocked_prefix (h : string) : bool :=
  starts_with "fc" h || starts_with "fd" h
  || starts_with "fe80:" h || starts_with "fe8" h || starts_with "fe9" h || starts_with "fea" h || starts_with "feb" h.

Definition isBlockedIp (ip : string) : bool :=
  let v := net_isIP ip in
  if v =? 4 then isBlockedIPv4 ip
  else if v =? 6 then
    let h := to_lower_case ip in
    if str_in h ["::"; "::0"; "0:0:0:0:0:0:0:0"] then true
    else if String.eqb h "::1" then true
    else match expandIPv6ToBytes h ≫= embedded_blocked with
         | Some b => b
         | None => blocked_prefix h
         end
  else false.

(** [s.replace(/^\[|\]$/g, '')] *)
Definition strip_brackets (s : string) : string :=
  let l := match chars s with "["%char :: r => r | r => r end in
  of_chars (match reverse l with "]"%char :: r => reverse r | _ => l end).

(** [String(hostname || '')] of a string is itself. *)
Definition isPrivateHostname (hostname : string) : bool :=
  let host := strip_brackets (to_lower_case hostname) in
  if String.eqb host "localhost" then true
  else match normalizeNumericIPv4 host with
       | Some canonical => isBlockedIPv4 canonical
       | None => if net_isIP host =? 6 then isBlockedIp host else false
       end.

(** ** Targets *)

Record url := mk_url { url_protocol : string; url_hostname : string; url_href : string }.

(** [new URL(s)]: [None] when it throws. *)
Class UrlParser := parse_url : string -> option url.

Definition EVENT_IDS : list string :=
  ["document.created"; "document.updated"; "document.deleted"; "user.signed_up"; "function.completed"; "storage.object.created"].
Definition isValidEventType (id : jsval) : bool := match id with JStr s => str_in s EVENT_IDS | _ => false end.

Record subscription_input := mk_subscription_input { si_targetUrl : string; si_eventTypes : jsval }.
Record validated_input := mk_validated_input { vi_targetUrl : string; vi_eventTypes : list string }.

Definition invalid_url (message : string) : js_error := coded "INVALID_URL" message.

Section targets.
Context `{!UrlParser}.

(** The host check of [validateSubscriptionInput]; [resolver] gives addresses,
    nothing, or throws. *)
Definition check_host (resolver : string -> result js_error (option (list string))) (parsed : url) : result js_error unit :=
  let hostname := strip_brackets (url_hostname parsed) in
  let isIPLiteral := match normalizeNumericIPv4 hostname with Some _ => true | None => negb (net_isIP hostname =? 0) end in
  if isIPLiteral then
    throw_if (isPrivateHostname (url_hostname parsed)) (invalid_url "Webhook target must be public HTTPS")
  else
    match resolver hostname with
    | Err _ => Err (invalid_url "Webhook target hostname could not be resolved")
    | Ok None | Ok (Some []) => Err (invalid_url "Webhook target hostname resolved to no addresses")
    | Ok (Some addresses) =>
        throw_if (existsb isBlockedIp addresses) (invalid_url "Webhook target resolved to a blocked address")
    end.

Definition validateSubscriptionInput (resolver : string -> result js_error (option (list string)))
    (input : subscription_input) : result js_error validated_input :=
  match parse_url (si_targetUrl input) with
  | None => Err (invalid_url "Malformed target URL")
  | Some parsed =>
      throw_if (negb (String.eqb (url_protocol parsed) "https:")) (invalid_url "Webhook target must be public HTTPS") ≫= fun _ =>
      check_host resolver parsed ≫= fun _ =>
      match si_eventTypes input with
      | JArr items =>
          throw_if (Nat.eqb (length items) 0 || existsb (fun i => negb (isValidEventType i)) items)
            (coded "INVALID_EVENT_TYPES" "Unknown event types") ≫= fun _ =>
          Ok (mk_validated_input (url_href parsed) (string_set items))
      | _ => Err (coded "INVALID_EVENT_TYPES" "Unknown event types")
      end
  end.

(** An address as a resolver gives it. *)
Inductive resolved_entry :=
| AddressText (address : string)
| AddressEntry (address : string) (family : option Z).

Definition resolver_fn : Type := string -> result js_error (option (list resolved_entry)).

(** [{ address, family }] *)
Definition normalise_entry (a : resolved_entry) : string * Z :=
  let by_text s := if net_isIP s =? 6 then 6 else 4 in
  match a with
  | AddressText s => (s, by_text s)
  | AddressEntry s f => (s, default (by_text s) f)
  end.

Record delivery_target := mk_delivery_target {
  dt_blocked : bool;
  dt_hostname : option string;
  dt_pinnedAddress : option string;
  dt_family : Z
}.

(** webhook-delivery-worker.mjs *)
Definition resolveDeliveryTarget (targetUrl : string) (resolver : resolver_fn) : delivery_target :=
  match parse_url targetUrl with
  | None => mk_delivery_target true None None 4
  | Some parsed =>
      let hostname := strip_brackets (url_hostname parsed) in
      let refused := mk_delivery_target true (Some hostname) None 4 in
      let ipVersion := net_isIP hostname in
      if negb (ipVersion =? 0) then
        let blocked := isBlockedIp hostname in
        mk_delivery_target blocked (Some hostname) (if blocked then None else Some hostname) ipVersion
      else
        match resolver hostname with
        | Err _ | Ok None | Ok (Some []) => refused
        | Ok (Some (a :: addresses)) =>
            let entries := normalise_entry <$> (a :: addresses) in
            if existsb (fun e => isBlockedIp e.1) entries then refused
            else mk_delivery_target false (Some hostname) (Some (normalise_entry a).1) (normalise_entry a).2
        end
  end.

(** ** The guard of the flow activities *)

Record pinned_target := mk_pinned_target { pt_hostname : string; pt_address : string; pt_family : Z }.

Definition ssrf_blocked (message : string) : js_error := coded "SSRF_BLOCKED" message.

(** activities/ssrf.mjs; its [normalizeNumericIPv4] is the one above. *)
Definition resolveSsrfSafe (target : string) (resolver : resolver_fn) : result js_error pinned_target :=
  match parse_url target with
  | None => Err (ssrf_blocked "http.request target URL is malformed")
  | Some parsed =>
      throw_if (negb (str_in (url_protocol parsed) ["http:"; "https:"]))
        (ssrf_blocked ("http.request scheme " +:+ url_protocol parsed +:+ " is not allowed")) ≫= fun _ =>
      let hostname := strip_brackets (url_hostname parsed) in
      let ipVersion := net_isIP hostname in
      match normalizeNumericIPv4 hostname with
      | Some canonicalIPv4 =>
          throw_if (isBlockedIp canonicalIPv4) (ssrf_blocked "http.request target is a blocked IP address") ≫= fun _ =>
          Ok (mk_pinned_target hostname canonicalIPv4 4)
      | None =>
          if negb (ipVersion =? 0) then
            throw_if (isBlockedIp hostname) (ssrf_blocked "http.request target is a blocked IP address") ≫= fun _ =>
            Ok (mk_pinned_target hostname hostname ipVersion)
          else
            throw_if (String.eqb (to_lower_case hostname) "localhost")
              (ssrf_blocked "http.request target localhost is blocked") ≫= fun _ =>
            match resolver hostname with
            | Err _ => Err (ssrf_blocked ("http.request target " +:+ hostname +:+ " could not be resolved"))
            | Ok None | Ok (Some []) =>
                Err (ssrf_blocked ("http.request target " +:+ hostname +:+ " resolved to no addresses"))
            | Ok (Some (a :: addresses)) =>
                let entries := normalise_entry <$> (a :: addresses) in
                throw_if (existsb (fun e => isBlockedIp e.1) entries)
                  (ssrf_blocked ("http.request target " +:+ hostname +:+ " resolved to a blocked address")) ≫= fun _ =>
                Ok (mk_pinned_target hostname (normalise_entry a).1 (normalise_entry a).2)
            end
      end
  end.

End targets.

Example guard_examples :
  normalizeNumericIPv4 <$> ["2852039166"; "0x7f.1"; "0177.0.0.01"; "10.0.0"; "1.2.3.4.5"; "4294967296"; "a.b"; "1..2"]
    = [Some "169.254.169.254"; Some "127.0.0.1"; Some "127.0.0.1"; Some "10.0.0.0"; None; None; None; None] /\
  isBlockedIp <$> ["10.1.2.3"; "8.8.8.8"; "::1"; "::ffff:10.0.0.1"; "::ffff:a00:1"; "64:ff9b::808:808"; "64:ff9b::10.0.0.1"; "fd00::1"; "FE80::1"; "2001:db8::1"; "fe80::1%eth0"]
    = [true; false; true; true; true; false; true; true; true; false; true] /\
  isPrivateHostname <$> ["localhost"; "[::1]"; "0x7f000001"; "example.com"; "[::FFFF:7f00:1]"]
    = [true; true; true; false; true].
Proof. vm_compute. tauto. Qed.
