(* ===== verification/SsrfProofs.v ===== *)
(** * What the guard blocks

    The ranges of the guard as CIDR blocks, and the verdict on every numeric
    spelling of an IPv4 address. *)
From S2P Require Import Prelude JsValue Regex Net SsrfGuard.
From Stdlib Require Import Ascii.
Local Open Scope Z_scope.

(** ** The blocked ranges *)

Definition ip4 (a b c d : Z) : Z := a * 2 ^ 24 + b * 2 ^ 16 + c * 2 ^ 8 + d.
Definition in_cidr (base len n : Z) : bool := Z.shiftr n (32 - len) =? Z.shiftr base (32 - len).
Definition BLOCKED_RANGES : list (Z * Z) :=
  [(ip4 0 0 0 0, 8); (ip4 10 0 0 0, 8); (ip4 100 64 0 0, 10); (ip4 127 0 0 0, 8);
   (ip4 169 254 0 0, 16); (ip4 172 16 0 0, 12); (ip4 192 168 0 0, 16); (ip4 198 18 0 0, 15)].
Definition blocked_address (n : Z) : bool := existsb (fun r => in_cidr r.1 r.2 n) BLOCKED_RANGES.

(** ** Bits *)

Lemma to_uint32_int32 n : to_uint32 (to_int32 n) = to_uint32 n.
Proof.
  unfold to_uint32, to_int32. rewrite Zminus_mod, Z.mod_mod, <- Zminus_mod by done. f_equal. lia.
Qed.

Lemma to_uint32_small n : 0 <= n < 2 ^ 32 -> to_uint32 n = n.
Proof. apply Z.mod_small. Qed.

Lemma to_uint32_lor a b : to_uint32 (Z.lor a b) = Z.lor (to_uint32 a) (to_uint32 b).
Proof. unfold to_uint32. rewrite <- !Z.land_ones by done. apply Z.land_lor_distr_l. Qed.

Lemma js_or_uint32 a b : to_uint32 (js_or a b) = Z.lor (to_uint32 a) (to_uint32 b).
Proof. unfold js_or. by rewrite to_uint32_int32, to_uint32_lor, !to_uint32_int32. Qed.

Lemma js_shl_uint32 a k : 0 <= k -> 0 <= a -> a * 2 ^ k < 2 ^ 32 -> to_uint32 (js_shl a k) = a * 2 ^ k.
Proof.
  intros Hk Ha Hb. unfold js_shl. rewrite to_uint32_int32, Z.shiftl_mul_pow2 by done.
  unfold to_uint32. rewrite <- Z.mul_mod_idemp_l by done. fold (to_uint32 (to_int32 a)).
  rewrite to_uint32_int32. unfold to_uint32. rewrite Z.mul_mod_idemp_l by done.
  apply Z.mod_small. nia.
Qed.

Lemma js_ushr_0 a : js_ushr a 0 = to_uint32 a.
Proof. apply Z.shiftr_0_r. Qed.

Lemma lor_add a k b : 0 <= k -> 0 <= b < 2 ^ k -> Z.lor (a * 2 ^ k) b = a * 2 ^ k + b.
Proof.
  intros Hk Hb. assert (Hl : Z.land (a * 2 ^ k) b = 0).
  { apply Z.bits_inj'. intros i Hi. rewrite Z.land_spec, Z.bits_0.
    destruct (Z.lt_ge_cases i k) as [Hik|Hik].
    - by rewrite Z.mul_pow2_bits_low.
    - rewrite <- (Z.mod_small b (2 ^ k)) by done. by rewrite Z.mod_pow2_bits_high, andb_false_r by lia. }
  rewrite Z.add_nocarry_lxor by done. symmetry. apply Z.lxor_lor. done.
Qed.

Lemma js_and_255 n : 0 <= n < 2 ^ 32 -> js_and n 255 = n mod 256.
Proof.
  intros Hn. unfold js_and. change (to_int32 255) with (Z.ones 8). rewrite Z.land_ones by done.
  assert (Hm : to_int32 n mod 2 ^ 8 = n mod 2 ^ 8).
  { unfold to_int32. rewrite (Z.mod_eq (n + 2 ^ 31)) by done. generalize ((n + 2 ^ 31) / 2 ^ 32) as q. intros q.
    assert (n + 2 ^ 31 - 2 ^ 32 * q - 2 ^ 31 = n + (- 16777216 * q) * 256) as -> by (clear; lia). by apply Z.mod_add. }
  rewrite Hm. change (2 ^ 8) with 256. pose proof (Z.mod_pos_bound n 256 ltac:(done)).
  unfold to_int32. rewrite Z.mod_small; [lia|]. split; [lia|]. change (2 ^ 31) with 2147483648. lia.
Qed.

Lemma js_ushr_small n k : 0 <= n < 2 ^ 32 -> 0 <= k -> js_ushr n k = n / 2 ^ k.
Proof. intros Hn Hk. unfold js_ushr. rewrite to_uint32_small by done. by apply Z.shiftr_div_pow2. Qed.

Lemma js_ushr_bounds n k : 0 <= n < 2 ^ 32 -> 0 <= k -> 0 <= js_ushr n k < 2 ^ 32.
Proof.
  intros Hn Hk. rewrite js_ushr_small by done. split; [apply Z.div_pos; lia|].
  apply Z.div_lt_upper_bound; [lia|]. assert (1 <= 2 ^ k) by (apply (Z.pow_le_mono_r 2 0); lia). nia.
Qed.

(** ** Bytes and their texts *)

Definition byte (n : Z) : Prop := 0 <= n < 256.

(** The four bytes of an address. *)
Definition quad_bytes (n : Z) : list Z := [n / 2 ^ 24; n / 2 ^ 16 mod 256; n / 2 ^ 8 mod 256; n mod 256].

Lemma quad_bytes_byte n : 0 <= n < 2 ^ 32 -> Forall byte (quad_bytes n).
Proof.
  intros Hn. unfold quad_bytes, byte. repeat constructor; try (by apply Z.mod_pos_bound).
  - apply Z.div_pos; lia.
  - apply Z.div_lt_upper_bound; lia.
Qed.

Lemma dotted_quad_bytes n : 0 <= n < 2 ^ 32 -> dotted_quad n = JsValue.join "." (show_Z <$> quad_bytes n).
Proof.
  intros Hn. unfold dotted_quad, quad_bytes.
  rewrite !js_and_255 by (try apply js_ushr_bounds; lia).
  rewrite !js_ushr_small by lia. rewrite (Z.mod_small (n / 2 ^ 24)); [done|].
  split; [apply Z.div_pos; lia | apply Z.div_lt_upper_bound; lia].
Qed.

(** What holds of every byte, by cases. *)
Lemma byte_cases (P : Z -> bool) : forallb P (seqZ 0 256) = true -> forall n, byte n -> P n = true.
Proof.
  intros Hall n Hn. rewrite forallb_forall in Hall. apply Hall, list_elem_of_In, elem_of_seqZ. unfold byte in Hn. lia.
Qed.

Definition byte_text_ok (n : Z) : bool :=
  let t := show_Z n in
  bool_decide (to_number t = NInt n) && free_of "." (chars t) && free_of ":" (chars t)
  && re_full v4Seg (chars t) && bool_decide (quad_part t = Some n) && bool_decide (numeric_part t = Some n).

Lemma byte_text n : byte n ->
  to_number (show_Z n) = NInt n /\ free_of "." (chars (show_Z n)) = true /\ free_of ":" (chars (show_Z n)) = true /\
  re_full v4Seg (chars (show_Z n)) = true /\ quad_part (show_Z n) = Some n /\ numeric_part (show_Z n) = Some n.
Proof.
  intros Hn. assert (Hb : byte_text_ok n = true) by (apply byte_cases; [vm_compute; reflexivity | done]).
  unfold byte_text_ok in Hb. rewrite !andb_true_iff, !bool_decide_eq_true in Hb. tauto.
Qed.

Lemma dotted_parts n : 0 <= n < 2 ^ 32 -> split_on "." (dotted_quad n) = show_Z <$> quad_bytes n.
Proof.
  intros Hn. rewrite dotted_quad_bytes by done. apply (split_join "."); [done|].
  apply Forall_fmap. eapply Forall_impl; [by apply quad_bytes_byte|]. intros b Hb. by apply byte_text.
Qed.

(** ** The ranges *)

Lemma num_eqb_int a b : num_eqb (NInt a) (NInt b) = (a =? b).
Proof. unfold num_eqb. apply eq_iff_eq_true. rewrite bool_decide_eq_true, Z.eqb_eq. naive_solver. Qed.

(** The ranges on the upper half [m] of an address. *)
Lemma ranges_upper m :
  0 <= m ->
  ((m / 256 =? 0) || (m / 256 =? 10) || ((m / 256 =? 100) && (64 <=? m mod 256) && (m mod 256 <=? 127))
   || (m / 256 =? 127) || ((m / 256 =? 169) && (m mod 256 =? 254))
   || ((m / 256 =? 172) && (16 <=? m mod 256) && (m mod 256 <=? 31))
   || ((m / 256 =? 192) && (m mod 256 =? 168)) || ((m / 256 =? 198) && ((m mod 256 =? 18) || (m mod 256 =? 19))))
  = ((m / 256 =? 0) || ((m / 256 =? 10) || ((m / 64 =? 401) || ((m / 256 =? 127) || ((m =? 43518)
     || ((m / 16 =? 2753) || ((m =? 49320) || ((m / 2 =? 25353) || false)))))))).
Proof.
  intros Hm. apply eq_iff_eq_true. rewrite ?orb_true_iff, ?andb_true_iff, ?orb_true_iff, ?Z.eqb_eq, ?Z.leb_le.
  Z.to_euclidean_division_equations. lia.
Qed.

Lemma isBlockedIPv4_ranges n : 0 <= n < 2 ^ 32 -> isBlockedIPv4 (dotted_quad n) = blocked_address n.
Proof.
  intros Hn. unfold isBlockedIPv4. rewrite dotted_parts by done.
  assert (Hnum : to_number <$> (show_Z <$> quad_bytes n) = NInt <$> quad_bytes n).
  { rewrite <- list_fmap_compose. apply list_fmap_ext. intros i b Hb. apply byte_text.
    pose proof (quad_bytes_byte n Hn) as Hf. rewrite Forall_lookup in Hf. by apply (Hf i). }
  rewrite Hnum. cbn [quad_bytes fmap list_fmap nth]. rewrite !num_eqb_int. cbn [num_leb].
  unfold blocked_address, BLOCKED_RANGES, existsb, in_cidr. cbn [fst snd].
  rewrite !Z.shiftr_div_pow2 by done. change (32 - 8) with 24;
    change (32 - 10) with 22;
    change (32 - 12) with 20; change (32 - 15) with 17; change (32 - 16) with 16.
  set (m := n / 2 ^ 16).
  assert (Hd : forall k j, 0 <= k -> j = 16 + k -> n / 2 ^ j = m / 2 ^ k).
  { intros k j Hk ->. unfold m. rewrite Z.div_div by lia. by rewrite Z.pow_add_r. }
  rewrite (Hd 8 24), (Hd 6 22), (Hd 4 20), (Hd 1 17) by done. fold m.
  assert (Hm0 : 0 <= m) by (apply Z.div_pos; lia).
  pose proof (ranges_upper m Hm0) as Hr. exact Hr.
Qed.

(** ** Numeric spellings of an address *)

(** A part in decimal (without a leading zero), octal or hexadecimal. *)
Inductive inet_part : string -> Z -> Prop :=
| inet_dec ds n : digits_of 10 ds = Some n -> (length ds = 1%nat \/ head ds <> Some "0"%char) ->
    inet_part (of_chars ds) (Z.of_N n)
| inet_oct ds n : digits_of 8 ds = Some n -> inet_part (of_chars ("0"%char :: ds)) (Z.of_N n)
| inet_hex x ds n : digits_of 16 ds = Some n -> x = "x"%char \/ x = "X"%char ->
    inet_part (of_chars ("0"%char :: x :: ds)) (Z.of_N n).

(** The address of one to four parts: the last one fills what the others leave. *)
Definition inet_address (nums : list Z) : option Z :=
  match nums with
  | [a] => if a <? 2 ^ 32 then Some a else None
  | [a; b] => if (a <? 256) && (b <? 2 ^ 24) then Some (a * 2 ^ 24 + b) else None
  | [a; b; c] => if (a <? 256) && (b <? 256) && (c <? 2 ^ 16) then Some (a * 2 ^ 24 + b * 2 ^ 16 + c) else None
  | [a; b; c; d] =>
      if (a <? 256) && (b <? 256) && (c <? 256) && (d <? 256) then Some (ip4 a b c d) else None
  | _ => None
  end.

Lemma digit_val_10 c : (digit_val c <? 10)%N = is_digit c.
Proof. destruct c as [[] [] [] [] [] [] [] []]; vm_compute; reflexivity. Qed.

Lemma digit_val_lower c : (digit_val c < 16)%N -> digit_val (lower_char c) = digit_val c.
Proof. destruct c as [[] [] [] [] [] [] [] []]; vm_compute; congruence. Qed.

(** A hexadecimal digit is neither white space nor a sign. *)
Lemma hex_start {A} (c : ascii) (l : list ascii) (f : bool * list ascii -> A) :
  is_hex c = true ->
  f match drop_while is_space (c :: l) with
    | "-"%char :: r => (true, r)
    | "+"%char :: r => (false, r)
    | r => (false, r)
    end = f (false, c :: l).
Proof. destruct c as [[] [] [] [] [] [] [] []]; vm_compute; congruence. Qed.

Lemma digits_val_forall base l : forall acc n,
  digits_val base acc l = Some n -> Forall (fun c => digit_val c < base)%N l.
Proof.
  induction l as [|c l IH]; intros acc n Hd; [constructor|]. simpl in Hd.
  destruct (N.ltb_spec (digit_val c) base); [|done]. constructor; [done|]. by eapply IH.
Qed.

Lemma digits_of_forall base l n : digits_of base l = Some n -> l <> [] /\ Forall (fun c => digit_val c < base)%N l.
Proof. destruct l; [done|]. intros Hd. split; [done|]. by eapply digits_val_forall. Qed.

Lemma span_base_all base l : Forall (fun c => digit_val c < base)%N l -> span_base base l = l.
Proof. induction 1 as [|c l Hc _ IH]; [done|]. simpl. apply N.ltb_lt in Hc. by rewrite Hc, IH. Qed.

Lemma digits_of_lower base l n : (base <= 16)%N -> digits_of base l = Some n -> digits_of base (lower_char <$> l) = Some n.
Proof.
  intros Hb Hd. pose proof (digits_of_forall _ _ _ Hd) as [Hne Hf].
  assert (Hv : forall acc, digits_val base acc (lower_char <$> l) = digits_val base acc l).
  { clear Hd Hne. induction Hf as [|c l Hc _ IH]; [done|]. intros acc. simpl.
    rewrite digit_val_lower by lia. case_match; [apply IH | done]. }
  destruct l; [done|]. simpl in *. rewrite <- Hd. apply (Hv 0%N).
Qed.

Lemma digits_of_hex base l n : (base <= 16)%N -> digits_of base l = Some n -> Forall (fun c => is_hex c = true) l.
Proof.
  intros Hb [_ Hf]%digits_of_forall. eapply Forall_impl; [exact Hf|]. intros c Hc. simpl in Hc.
  unfold is_hex. apply N.ltb_lt. lia.
Qed.

Lemma parse_int_radix_plain radix c l n :
  is_hex c = true ->
  radix <> 16%N \/ c <> "0"%char \/ (forall x r, l = x :: r -> Ascii.eqb x "x" || Ascii.eqb x "X" = false) ->
  digits_of radix (c :: l) = Some n -> parse_int_radix radix (of_chars (c :: l)) = NInt (Z.of_N n).
Proof.
  intros Hc Hr Hd. unfold parse_int_radix. rewrite chars_of_chars.
  pose proof (digits_of_forall _ _ _ Hd) as [_ Hf].
  assert (Hspan : digits_of radix (span_base radix (c :: l)) = Some n) by (by rewrite span_base_all).
  rewrite (hex_start c l (fun '(neg, l) => _)) by done.
  assert (Hl : match c :: l with
    | "0"%char :: x :: r => if (radix =? 16)%N && (Ascii.eqb x "x" || Ascii.eqb x "X") then r else c :: l
    | _ => c :: l
    end = c :: l).
  { destruct (decide (c = "0"%char)) as [->|Hne].
    - destruct l as [|x r]; [done|]. destruct Hr as [Hr|[Hr|Hx]]; [|done|].
      + apply N.eqb_neq in Hr. by rewrite Hr.
      + by rewrite (Hx x r), andb_false_r.
    - by destruct c as [[] [] [] [] [] [] [] []]. }
  rewrite Hl, Hspan. done.
Qed.

Lemma re_full_hex l : re_full hex_re l = true <->
  exists x ds, l = "0"%char :: x :: ds /\ lower_char "x" = lower_char x /\ ds <> [] /\ Forall (fun c => is_hex c = true) ds.
Proof.
  rewrite re_full_lang. unfold hex_re, rseqs. cbn [foldr].
  rewrite lang_seq_inv. setoid_rewrite lang_seq_inv. setoid_rewrite lang_seq_eps_r.
  setoid_rewrite rplus_cls_lang. unfold rchar, rchar_ci. setoid_rewrite lang_cls_inv. setoid_rewrite Ascii.eqb_eq.
  split.
  - intros (? & ? & -> & (c & -> & <-) & ? & ? & -> & (x & -> & Hx) & Hds). eexists x, _. by split_and!; try apply Hds.
  - intros (x & ds & -> & Hx & Hds). exists ["0"%char], (x :: ds). split_and!; [done | by eexists |].
    exists [x], ds. split_and!; [done | by eexists | apply Hds | apply Hds].
Qed.

Lemma re_full_octal l : re_full octal_re l = true <->
  exists ds, l = "0"%char :: ds /\ ds <> [] /\ Forall (fun c => is_digit c = true) ds.
Proof.
  rewrite re_full_lang. unfold octal_re, rdigit, rchar. rewrite lang_seq_inv. setoid_rewrite rplus_cls_lang.
  setoid_rewrite lang_cls_inv. setoid_rewrite Ascii.eqb_eq. split.
  - intros (? & ds & -> & (c & -> & <-) & Hds). by exists ds.
  - intros (ds & -> & Hds). exists ["0"%char], ds. split_and!; [done | by eexists | apply Hds | apply Hds].
Qed.

Lemma re_full_decimal l : re_full decimal_re l = true <-> l <> [] /\ Forall (fun c => is_digit c = true) l.
Proof. rewrite re_full_lang. apply rplus_cls_lang. Qed.

Lemma not_hex_literal l : Forall (fun c => is_digit c = true) l -> re_full hex_re l = false.
Proof.
  intros Hf. apply not_true_is_false. rewrite re_full_hex. intros (x & ds & -> & Hx & _).
  inversion Hf as [|? ? _ Hf']; subst. inversion Hf'; subst. revert Hx H1.
  destruct x as [[] [] [] [] [] [] [] []]; vm_compute; congruence.
Qed.

Lemma digits_forall base l n : (base <= 10)%N -> digits_of base l = Some n -> Forall (fun c => is_digit c = true) l.
Proof.
  intros Hb [_ Hf]%digits_of_forall. eapply Forall_impl; [exact Hf|]. intros c Hc. simpl in Hc.
  rewrite <- digit_val_10. apply N.ltb_lt. lia.
Qed.

Lemma numeric_part_value s n : inet_part s n -> numeric_part s = Some n.
Proof.
  intros Hp. unfold numeric_part, re_test_full. destruct Hp as [ds n Hd Hz|ds n Hd|x ds n Hd Hx].
  - pose proof (digits_forall 10 ds n ltac:(done) Hd) as Hf. pose proof (proj1 (digits_of_forall _ _ _ Hd)) as Hne.
    rewrite chars_of_chars, not_hex_literal by done.
    assert (Ho : re_full octal_re ds = false).
    { apply not_true_is_false. rewrite re_full_octal. intros (ds' & -> & Hne' & _).
      destruct Hz as [Hz|Hz]; [|done]. by destruct ds'. }
    rewrite Ho, (proj2 (re_full_decimal ds)) by done. destruct ds as [|c l]; [done|].
    rewrite (parse_int_radix_plain 10 c l n); [|inversion Hf; subst; by apply (digits_of_hex 10 (c :: l) n ltac:(done)) in Hd; inversion Hd | by left | done].
    change (nonempty (of_chars (c :: l))) with true. cbv iota. destruct (Z.ltb_spec (Z.of_N n) 0); [lia | done].
  - pose proof (digits_forall 8 ds n ltac:(done) Hd) as Hf. pose proof (proj1 (digits_of_forall _ _ _ Hd)) as Hne.
    rewrite chars_of_chars, not_hex_literal by (by constructor).
    rewrite (proj2 (re_full_octal _)) by (by exists ds).
    rewrite (parse_int_radix_plain 8 "0" ds n); [|done | by left |].
    + change (nonempty (of_chars ("0"%char :: ds))) with true. cbv iota. destruct (Z.ltb_spec (Z.of_N n) 0); [lia | done].
    + rewrite <- Hd. by destruct ds.
  - pose proof (digits_of_hex 16 ds n ltac:(done) Hd) as Hf. pose proof (proj1 (digits_of_forall _ _ _ Hd)) as Hne.
    rewrite chars_of_chars, (proj2 (re_full_hex _)) by (exists x, ds; split_and!; [done | by destruct Hx; subst | done..]).
    assert (Hpi : parse_int_radix 16 (of_chars ("0"%char :: x :: ds)) = NInt (Z.of_N n)).
    { unfold parse_int_radix. rewrite chars_of_chars. change (drop_while is_space ("0"%char :: x :: ds)) with ("0"%char :: x :: ds).
      assert (Hxx : Ascii.eqb x "x" || Ascii.eqb x "X" = true) by (by destruct Hx; subst).
      cbv beta iota. rewrite Hxx. cbn [N.eqb Pos.eqb andb]. rewrite span_base_all by (by eapply digits_of_forall). by rewrite Hd. }
    rewrite Hpi. change (nonempty (of_chars ("0"%char :: x :: ds))) with true. cbv iota.
    destruct (Z.ltb_spec (Z.of_N n) 0); [lia | done].
Qed.

Lemma lower_app s t : to_lower_case (s +:+ t) = to_lower_case s +:+ to_lower_case t.
Proof.
  unfold to_lower_case. rewrite chars_app, fmap_app. rewrite <- (of_chars_chars (_ +:+ _)), chars_app, !chars_of_chars. done.
Qed.

Lemma lower_join sep xs :
  to_lower_case sep = sep -> to_lower_case (JsValue.join sep xs) = JsValue.join sep (to_lower_case <$> xs).
Proof.
  intros Hsep. induction xs as [|x xs IH]; [done|]. destruct xs as [|y xs]; [done|].
  change (JsValue.join sep (x :: y :: xs)) with (x +:+ sep +:+ JsValue.join sep (y :: xs)).
  rewrite !lower_app, IH, Hsep. done.
Qed.

Lemma lower_digit c : is_digit c = true -> lower_char c = c.
Proof. destruct c as [[] [] [] [] [] [] [] []]; vm_compute; congruence. Qed.

Lemma inet_part_lower s n : inet_part s n -> inet_part (to_lower_case s) n.
Proof.
  unfold to_lower_case. intros [ds n' Hd Hz|ds n' Hd|x ds n' Hd Hx]; rewrite chars_of_chars.
  - assert (Hl : lower_char <$> ds = ds).
    { pose proof (digits_forall 10 ds n' ltac:(done) Hd) as Hf. clear Hd Hz.
      induction Hf as [|c l Hc _ IH]; [done|]. rewrite fmap_cons, IH, lower_digit by done. done. }
    rewrite Hl. by constructor.
  - rewrite fmap_cons. apply (inet_oct (lower_char <$> ds)). by apply digits_of_lower.
  - rewrite !fmap_cons. apply (inet_hex (lower_char x)); [by apply digits_of_lower|]. left. by destruct Hx; subst.
Qed.

(** A part has digits, and perhaps an x. *)
Lemma inet_part_free s n c : inet_part s n -> is_hex c = false -> c <> "x"%char -> c <> "X"%char -> free_of c (chars s) = true.
Proof.
  intros Hp Hc Hx1 Hx2.
  assert (Hfree : forall ds, Forall (fun d => is_hex d = true) ds -> free_of c ds = true).
  { induction 1 as [|d l Hd _ IH]; [done|]. rewrite free_of_cons, IH, andb_true_r. apply negb_true_iff, Ascii.eqb_neq. congruence. }
  assert (H0 : Ascii.eqb c "0" = false) by (apply Ascii.eqb_neq; intros ->; done).
  destruct Hp as [ds n Hd Hz|ds n Hd|x ds n Hd Hx]; rewrite chars_of_chars; rewrite ?free_of_cons.
  - apply Hfree. by apply (digits_of_hex 10 ds n).
  - rewrite H0. apply Hfree. by apply (digits_of_hex 8 ds n).
  - rewrite H0. assert (Hcx : Ascii.eqb c x = false) by (apply Ascii.eqb_neq; destruct Hx; congruence).
    rewrite Hcx. apply Hfree. by apply (digits_of_hex 16 ds n).
Qed.

Lemma free_of_join c sep xs :
  free_of c (chars sep) = true -> Forall (fun x => free_of c (chars x) = true) xs -> free_of c (chars (JsValue.join sep xs)) = true.
Proof.
  intros Hs Hf. induction Hf as [|x xs Hx Hxs IH]; [done|]. destruct xs as [|y xs]; [done|].
  change (JsValue.join sep (x :: y :: xs)) with (x +:+ sep +:+ JsValue.join sep (y :: xs)).
  rewrite !chars_app, !free_of_app, Hx, Hs, IH. done.
Qed.

Lemma strip_brackets_free s :
  free_of "[" (chars s) = true -> free_of "]" (chars s) = true -> strip_brackets s = s.
Proof.
  intros H1 H2. unfold strip_brackets.
  assert (Hl : match chars s with "["%char :: r => r | r => r end = chars s).
  { destruct (chars s) as [|c r]; [done|]. rewrite free_of_cons, andb_true_iff, negb_true_iff in H1. destruct H1 as [H1 _].
    destruct c as [[] [] [] [] [] [] [] []]; done. }
  rewrite Hl.
  assert (Hr : match reverse (chars s) with "]"%char :: r => reverse r | _ => chars s end = chars s).
  { destruct (reverse (chars s)) as [|c r] eqn:Hrev; [done|].
    assert (Heq : chars s = reverse r ++ [c]) by (by rewrite <- (reverse_involutive (chars s)), Hrev, reverse_cons).
    rewrite Heq, free_of_app, free_of_cons, !andb_true_iff, negb_true_iff in H2. destruct H2 as (_ & H2 & _).
    destruct c as [[] [] [] [] [] [] [] []]; done. }
  rewrite Hr. apply of_chars_chars.
Qed.

Lemma inet_part_nonneg s n : inet_part s n -> 0 <= n.
Proof. destruct 1; lia. Qed.

Lemma combine_address nums n :
  Forall (Z.le 0) nums -> inet_address nums = Some n -> combine_parts nums = Some n /\ 0 <= n < 2 ^ 32.
Proof.
  intros Hf Ha. unfold inet_address, ip4 in Ha.
  destruct nums as [|a [|b [|c [|d [|? ?]]]]]; try done;
    repeat match goal with Hf : Forall _ (_ :: _) |- _ => inversion Hf; subst; clear Hf end.
  - destruct (Z.ltb_spec a (2 ^ 32)); [|done]. simplify_eq. cbn [combine_parts].
    destruct (Z.ltb_spec 4294967295 n); [lia|]. rewrite js_ushr_0, to_uint32_small by lia. done.
  - destruct (Z.ltb_spec a 256), (Z.ltb_spec b (2 ^ 24)); simplify_eq/=.
    destruct (Z.ltb_spec 255 a), (Z.ltb_spec 16777215 b); try lia. simpl.
    rewrite js_ushr_0, js_or_uint32, js_shl_uint32, to_uint32_small, lor_add by lia. split; [done | lia].
  - destruct (Z.ltb_spec a 256), (Z.ltb_spec b 256), (Z.ltb_spec c (2 ^ 16)); simplify_eq/=.
    destruct (Z.ltb_spec 255 a), (Z.ltb_spec 255 b), (Z.ltb_spec 65535 c); try lia. simpl.
    rewrite js_ushr_0, !js_or_uint32, !js_shl_uint32, (to_uint32_small c) by lia.
    rewrite lor_add by lia. replace (a * 2 ^ 24 + b * 2 ^ 16) with ((a * 2 ^ 8 + b) * 2 ^ 16) by lia.
    rewrite lor_add by lia. split; [f_equal; lia | lia].
  - destruct (Z.ltb_spec a 256), (Z.ltb_spec b 256), (Z.ltb_spec c 256), (Z.ltb_spec d 256); simplify_eq/=.
    destruct (Z.ltb_spec 255 a), (Z.ltb_spec 255 b), (Z.ltb_spec 255 c), (Z.ltb_spec 255 d); try lia. simpl.
    rewrite js_ushr_0, !js_or_uint32, !js_shl_uint32, (to_uint32_small d) by lia.
    rewrite lor_add by lia. replace (a * 2 ^ 24 + b * 2 ^ 16) with ((a * 2 ^ 8 + b) * 2 ^ 16) by lia.
    rewrite lor_add by lia. replace ((a * 2 ^ 8 + b) * 2 ^ 16 + c * 2 ^ 8) with ((a * 2 ^ 16 + b * 2 ^ 8 + c) * 2 ^ 8) by lia.
    rewrite lor_add by lia. split; [f_equal; lia | lia].
Qed.

Lemma normalize_parts parts nums n :
  Forall2 inet_part parts nums -> inet_address nums = Some n ->
  normalizeNumericIPv4 (JsValue.join "." parts) = Some (dotted_quad n) /\ 0 <= n < 2 ^ 32.
Proof.
  intros Hp Ha. unfold normalizeNumericIPv4.
  assert (Hne : parts <> []) by (intros ->; inversion Hp; subst; done).
  assert (Hsplit : split_on "." (JsValue.join "." parts) = parts).
  { apply (split_join "."); [done|]. clear Ha Hne. induction Hp as [|s m]; constructor; [|done]. by eapply inet_part_free. }
  rewrite Hsplit. assert (Hm : mapM numeric_part parts = Some nums).
  { apply mapM_Some. eapply Forall2_impl; [exact Hp|]. intros. by apply numeric_part_value. }
  rewrite Hm. simpl. assert (Hnn : Forall (Z.le 0) nums).
  { clear -Hp. induction Hp; constructor; [by eapply inet_part_nonneg | done]. }
  destruct (combine_address nums n Hnn Ha) as [-> Hn]. done.
Qed.

(** Every numeric spelling of an IPv4 address as a host, of one to four
    parts, each in decimal, octal or hexadecimal and in either case, is private
    exactly when the address lies in one of the blocked CIDR ranges. *)
Theorem numeric_ipv4_guarded (parts : list string) (nums : list Z) (n : Z) :
  Forall2 inet_part parts nums -> inet_address nums = Some n ->
  isPrivateHostname (JsValue.join "." parts) = blocked_address n.
Proof.
  intros Hp Ha. unfold isPrivateHostname. rewrite lower_join by done.
  assert (Hl : Forall2 inet_part (to_lower_case <$> parts) nums).
  { clear Ha. induction Hp; constructor; [by apply inet_part_lower | done]. }
  assert (Hfree : forall c, is_hex c = false -> c <> "x"%char -> c <> "X"%char -> c <> "."%char ->
    free_of c (chars (JsValue.join "." (to_lower_case <$> parts))) = true).
  { intros c Hc ? ? Hd. apply free_of_join; [by destruct c as [[] [] [] [] [] [] [] []]|].
    clear Ha Hp. induction Hl; constructor; [by eapply inet_part_free | done]. }
  rewrite strip_brackets_free by (by apply Hfree).
  destruct (String.eqb_spec (JsValue.join "." (to_lower_case <$> parts)) "localhost") as [Heq|_].
  { specialize (Hfree "l"%char eq_refl). rewrite Heq in Hfree. by specialize (Hfree ltac:(done) ltac:(done) ltac:(done)). }
  destruct (normalize_parts _ _ _ Hl Ha) as [-> Hn]. by apply isBlockedIPv4_ranges.
Qed.

Lemma numeric_ipv4_guarded_witness :
  isPrivateHostname (JsValue.join "." ["0xA9"; "0376"; "43518"]) = blocked_address (ip4 169 254 169 254).
Proof.
  apply (numeric_ipv4_guarded _ [Z.of_N 169; Z.of_N 254; Z.of_N 43518]); [|reflexivity].
  constructor; [apply (inet_hex "x" ["A"%char; "9"%char] 169); [reflexivity | by left]|].
  constructor; [apply (inet_oct ["3"%char; "7"%char; "6"%char] 254); reflexivity|].
  constructor; [|constructor]. apply (inet_dec ["4"%char; "3"%char; "5"%char; "1"%char; "8"%char] 43518); [reflexivity | by right].
Defined.
