(* ===== verification/SsrfIpv6.v ===== *)
(** * IPv6 addresses and the guard

    The texts of 16-bit groups, their expansion and their acceptance by
    [net.isIP]; the verdict of the guard on an IPv6 text and on a dotted IPv4
    address embedded in one. *)
From S2P Require Import Prelude JsValue Regex Net SsrfGuard SsrfProofs.
From Stdlib Require Import Ascii.
Local Open Scope Z_scope.

(** ** Addresses embedded in IPv6 *)

Definition low_hex (c : ascii) : bool := is_hex c && negb (is_upper c).

Lemma hex_digits_app fuel n acc : hex_digits fuel n acc = hex_digits fuel n [] ++ acc.
Proof.
  revert n acc. induction fuel as [|fuel IH]; intros n acc; simpl; [done|].
  destruct (n <? 16)%N; [done|]. rewrite (IH _ (_ :: acc)), (IH _ [_]), <- app_assoc. done.
Qed.

Lemma digit16_facts d : (d < 16)%N -> digit_val (digit36 d) = d /\ low_hex (digit36 d) = true.
Proof.
  intros Hd. assert (Hc : forallb (fun d => (digit_val (digit36 d) =? d)%N && low_hex (digit36 d)) (N.of_nat <$> seq 0 16) = true)
    by (vm_compute; reflexivity).
  rewrite forallb_forall in Hc. specialize (Hc d). rewrite andb_true_iff, N.eqb_eq in Hc. apply Hc.
  apply list_elem_of_In, list_elem_of_fmap. exists (N.to_nat d). rewrite elem_of_seq. split; lia.
Qed.

Lemma hex_digits_spec k : forall fuel n,
  (n < 16 ^ N.of_nat k)%N -> (n < 2 ^ N.of_nat fuel)%N -> (0 < k)%nat -> (0 < fuel)%nat ->
  let l := hex_digits fuel n [] in
  (1 <= length l <= k)%nat /\ Forall (fun c => low_hex c = true) l /\ digits_val 16 0 l = Some n.
Proof.
  induction k as [|k IH]; intros fuel n Hk Hf Hk0 Hf0; [lia|]. destruct fuel as [|fuel]; [lia|]. cbn [hex_digits].
  pose proof (N.mod_lt n 16 ltac:(done)) as Hmod. destruct (digit16_facts _ Hmod) as [Hv Hl].
  destruct (N.ltb_spec n 16) as [Hn|Hn].
  - split_and!; [simpl; lia | simpl; lia | by repeat constructor |]. cbn [digits_val]. rewrite Hv.
    rewrite N.mod_small by done. apply N.ltb_lt in Hn. by rewrite Hn.
  - rewrite hex_digits_app. rewrite Nat2N.inj_succ, N.pow_succ_r' in Hk, Hf.
    assert (Hk1 : (0 < k)%nat) by (destruct k; [simpl in Hk; lia | lia]).
    assert (Hf1 : (0 < fuel)%nat) by (destruct fuel; [simpl in Hf; lia | lia]).
    assert (Hq : (n / 16 < 16 ^ N.of_nat k)%N) by (apply N.Div0.div_lt_upper_bound; lia).
    assert (Hq' : (n / 16 < 2 ^ N.of_nat fuel)%N) by (apply N.Div0.div_lt_upper_bound; lia).
    destruct (IH fuel (n / 16)%N Hq Hq' Hk1 Hf1) as (Hlen & Hall & Hval).
    rewrite length_app. split_and!; [simpl; lia | simpl; lia | apply Forall_app; split; [done | by repeat constructor] |].
    rewrite digits_val_app, Hval. cbn [digits_val]. rewrite Hv. apply N.ltb_lt in Hmod. rewrite Hmod. f_equal.
    pose proof (N.div_mod n 16 ltac:(done)). lia.
Qed.

Lemma rtimes_cls n p l : length l = n -> Forall (fun c => p c = true) l -> re_lang (rtimes n (RCls p)) l.
Proof.
  revert l. induction n as [|n IH]; intros l Hlen Hf; simpl.
  - destruct l; [constructor | done].
  - destruct Hf as [|c l Hc Hf]; [done|]. apply (lang_seq _ _ [c] l); [by constructor | apply IH; [simpl in Hlen; lia | done]].
Qed.

Lemma rupto_cls n p l : (length l <= n)%nat -> Forall (fun c => p c = true) l -> re_lang (rupto n (RCls p)) l.
Proof.
  revert l. induction n as [|n IH]; intros l Hlen Hf; simpl.
  - destruct l; [constructor | simpl in *; lia].
  - destruct Hf as [|c l Hc Hf]; [by apply lang_alt_l; constructor|].
    apply lang_alt_r, (lang_seq _ _ [c] l); [by constructor | apply IH; [simpl in Hlen; lia | done]].
Qed.

Lemma rbetween_cls m n p l :
  (m <= length l <= n)%nat -> Forall (fun c => p c = true) l -> re_lang (rbetween m n (RCls p)) l.
Proof.
  intros Hlen Hf. unfold rbetween. rewrite <- (take_drop m l). apply lang_seq.
  - apply rtimes_cls; [rewrite length_take; lia | by apply Forall_take].
  - apply rupto_cls; [rewrite length_drop; lia | by apply Forall_drop].
Qed.

(** The text of a 16-bit group. *)
Definition group (g : Z) : Prop := 0 <= g < 65536.
Definition group_text (g : Z) : string := to_hex (Z.to_N g).

Lemma low_hex_hex l : Forall (fun c => low_hex c = true) l -> Forall (fun c => is_hex c = true) l.
Proof. intros Hf. eapply Forall_impl; [exact Hf|]. intros c Hc%andb_true_iff. tauto. Qed.

Lemma group_text_spec g : group g -> exists l, chars (group_text g) = l /\
  (1 <= length l <= 4)%nat /\ Forall (fun c => low_hex c = true) l /\ digits_of 16 l = Some (Z.to_N g).
Proof.
  intros Hg. unfold group_text, to_hex. rewrite chars_of_chars. eexists; split; [done|].
  destruct (hex_digits_spec 4 (S (N.to_nat (N.log2 (Z.to_N g)))) (Z.to_N g)) as (Hlen & Hf & Hv).
  - unfold group in Hg. change (16 ^ N.of_nat 4)%N with 65536%N. lia.
  - destruct (N.eq_0_gt_0_cases (Z.to_N g)) as [->|Hpos]; [done|].
    rewrite Nat2N.inj_succ, N2Nat.id. apply N.log2_spec. lia.
  - lia.
  - lia.
  - split_and!; [lia | lia | done|]. by destruct (hex_digits _ _ _); [simpl in Hlen; lia|].
Qed.

Lemma low_hex_free c l : low_hex c = false -> Forall (fun d => low_hex d = true) l -> free_of c l = true.
Proof.
  intros Hc. induction 1 as [|d l Hd _ IH]; [done|]. rewrite free_of_cons, IH, andb_true_r.
  apply negb_true_iff, Ascii.eqb_neq. congruence.
Qed.

Lemma low_hex_lower c : low_hex c = true -> lower_char c = c.
Proof. destruct c as [[] [] [] [] [] [] [] []]; vm_compute; congruence. Qed.

Lemma group_text_facts g : group g ->
  re_full group_re (chars (group_text g)) = true /\ re_lang v6Seg (chars (group_text g)) /\
  parse_int_radix 16 (group_text g) = NInt g /\ free_of "." (chars (group_text g)) = true /\
  free_of ":" (chars (group_text g)) = true /\ chars (group_text g) <> [] /\ to_lower_case (group_text g) = group_text g.
Proof.
  intros Hg. destruct (group_text_spec g Hg) as (l & Hl & Hlen & Hf & Hd).
  assert (Hchars : group_text g = of_chars l) by (by rewrite <- Hl, of_chars_chars). rewrite Hchars, chars_of_chars.
  split_and!.
  - apply re_full_lang, rbetween_cls; [lia | exact Hf].
  - apply rbetween_cls; [lia | by apply low_hex_hex].
  - destruct l as [|c l]; [done|]. rewrite (parse_int_radix_plain 16 c l (Z.to_N g)); [unfold group in Hg; f_equal; lia | | | done].
    + inversion Hf as [|? ? Hc]; subst. unfold low_hex in Hc. by apply andb_true_iff in Hc as [? _].
    + right. right. intros x r ->. inversion Hf as [|? ? _ Hf']; subst. inversion Hf'; subst. revert H1.
      destruct x as [[] [] [] [] [] [] [] []]; vm_compute; congruence.
  - by apply low_hex_free.
  - by apply low_hex_free.
  - intros ->. simpl in Hlen. lia.
  - unfold to_lower_case. rewrite chars_of_chars. f_equal. clear -Hf.
    induction Hf as [|c l Hc _ IH]; [done|]. by rewrite fmap_cons, IH, low_hex_lower.
Qed.

(** ** IPv6 texts *)

(** The text with the groups [ls] before the double colon and [rs] after it. *)
Definition groups_text (gs : list Z) : string := JsValue.join ":" (group_text <$> gs).
Definition ipv6_text (ls rs : list Z) : string := groups_text ls +:+ "::" +:+ groups_text rs.
(** The eight groups it stands for. *)
Definition ipv6_groups (ls rs : list Z) : list Z := ls ++ replicate (8 - (length ls + length rs)) 0 ++ rs.

Fixpoint no_double (sep : ascii) (l : list ascii) : bool :=
  match l with
  | c :: l' => match l' with
               | d :: _ => negb (Ascii.eqb c sep && Ascii.eqb d sep) && no_double sep l'
               | [] => true
               end
  | [] => true
  end.

Lemma split_double_single sep l : no_double sep l = true -> split_double sep l = [l].
Proof.
  induction l as [|c l IH]; [done|]. cbn [no_double split_double]. destruct l as [|d l]; [done|].
  rewrite andb_true_iff, negb_true_iff. intros [-> Hl]. by rewrite IH.
Qed.

Lemma split_double_app sep l r :
  no_double sep (l ++ [sep]) = true -> split_double sep (l ++ sep :: sep :: r) = l :: split_double sep r.
Proof.
  induction l as [|c l IH].
  - intros _. cbn [app split_double]. by rewrite Ascii.eqb_refl.
  - destruct l as [|d l].
    + cbn [app no_double]. rewrite Ascii.eqb_refl, !andb_true_r, negb_true_iff. intros Hc.
      cbn [split_double]. rewrite Hc, Ascii.eqb_refl. done.
    + cbn [app no_double]. rewrite andb_true_iff, negb_true_iff. intros [Hc Hl].
      specialize (IH Hl). cbn [app] in IH. cbn [split_double] in IH |- *. rewrite Hc. cbn [andb]. by rewrite IH.
Qed.

Lemma no_double_free sep l : free_of sep l = true -> no_double sep l = true.
Proof.
  induction l as [|c l IH]; [done|]. rewrite free_of_cons, andb_true_iff, negb_true_iff. intros [Hc Hl].
  cbn [no_double]. destruct l as [|d l]; [done|]. rewrite (Ascii.eqb_sym c), Hc. cbn [andb negb]. by apply IH.
Qed.

Lemma no_double_app sep l r :
  l <> [] -> free_of sep l = true -> no_double sep r = true -> no_double sep (l ++ r) = true.
Proof.
  intros Hne Hf Hr. induction l as [|c l IH]; [done|]. rewrite free_of_cons, andb_true_iff, negb_true_iff in Hf.
  destruct Hf as [Hc Hl]. cbn [app no_double]. destruct l as [|d l].
  - cbn [app]. destruct r as [|d r]; [done|]. by rewrite (Ascii.eqb_sym c), Hc.
  - cbn [app]. rewrite (Ascii.eqb_sym c), Hc. cbn [andb negb]. by apply IH.
Qed.

Lemma no_double_sep sep c r : Ascii.eqb c sep = false -> no_double sep (c :: r) = true -> no_double sep (sep :: c :: r) = true.
Proof.
  intros Hc Hr. change (negb (Ascii.eqb sep sep && Ascii.eqb c sep) && no_double sep (c :: r) = true).
  by rewrite Hc, andb_false_r, Hr.
Qed.

Lemma groups_text_cons g g' gs : groups_text (g :: g' :: gs) = group_text g +:+ ":" +:+ groups_text (g' :: gs).
Proof. done. Qed.

Lemma groups_text_start g gs : group g -> exists c l, chars (groups_text (g :: gs)) = c :: l /\ Ascii.eqb c ":" = false.
Proof.
  intros Hg. destruct (group_text_facts g Hg) as (_ & _ & _ & _ & Hf & Hne & _).
  destruct (chars (group_text g)) as [|c l] eqn:Hc; [done|].
  rewrite free_of_cons, andb_true_iff, negb_true_iff, Ascii.eqb_sym in Hf. exists c.
  destruct gs as [|g' gs].
  - exists l. change (groups_text [g]) with (group_text g). split; [done | apply Hf].
  - exists (l ++ chars (":" +:+ groups_text (g' :: gs))). rewrite groups_text_cons, chars_app, Hc. split; [done | apply Hf].
Qed.

Lemma groups_text_no_double gs tail :
  Forall group gs -> no_double ":" tail = true -> (tail = [] \/ tail = [":"%char]) ->
  no_double ":" (chars (groups_text gs) ++ tail) = true.
Proof.
  intros Hgs Ht Ht'. induction Hgs as [|g gs Hg Hgs IH]; [done|].
  destruct (group_text_facts g Hg) as (_ & _ & _ & _ & Hf & Hne & _). destruct gs as [|g' gs].
  - change (groups_text [g]) with (group_text g). by apply no_double_app.
  - rewrite groups_text_cons, !chars_app, <- app_assoc. apply no_double_app; [done..|].
    inversion Hgs; subst. destruct (groups_text_start g' gs) as (c & l & Hc & Hcs); [done|].
    rewrite Hc in *. change (chars ":") with [":"%char]. cbn [app] in *. by apply no_double_sep.
Qed.

Lemma toGroups_text gs : Forall group gs -> toGroups (groups_text gs) = Some <$> gs.
Proof.
  intros Hgs. destruct gs as [|g gs]; [done|]. unfold toGroups.
  assert (Hne : nonempty (groups_text (g :: gs)) = true).
  { inversion Hgs; subst. destruct (groups_text_start g gs) as (c & l & Hc & _); [done|]. apply nonempty_true.
    intros He. by rewrite He in Hc. }
  rewrite Hne. unfold groups_text.
  rewrite (split_join ":" (group_text <$> g :: gs)); [|done|].
  - rewrite <- list_fmap_compose. apply list_fmap_ext. intros i x Hx.
    rewrite Forall_lookup in Hgs. destruct (group_text_facts x (Hgs i x Hx)) as (Hre & _ & Hp & _).
    cbn [compose]. unfold re_test_full. by rewrite Hre, Hp.
  - apply Forall_fmap. eapply Forall_impl; [exact Hgs|]. intros x Hx. by apply group_text_facts.
Qed.

Lemma groups_text_free c gs : c = "."%char -> Forall group gs -> free_of c (chars (groups_text gs)) = true.
Proof.
  intros -> Hgs. apply free_of_join; [done|]. apply Forall_fmap. eapply Forall_impl; [exact Hgs|].
  intros x Hx. by apply group_text_facts.
Qed.

Lemma split_last_eq c l a b : split_last c l = Some (a, b) -> l = a ++ c :: b.
Proof.
  revert a. induction l as [|d l IH]; [done|]. intros a. simpl. destruct (split_last c l) as [[a' b']|].
  - intros [= <- <-]. cbn [app]. f_equal. by apply IH.
  - destruct (Ascii.eqb_spec d c); [|done]. intros [= <- <-]. by subst.
Qed.

Lemma includes_free c l : free_of c l = true -> includes_chars [c] l = false.
Proof.
  induction l as [|d l IH]; [done|]. rewrite free_of_cons, andb_true_iff, negb_true_iff. intros [Hd Hl].
  cbn [includes_chars prefix_chars]. rewrite Hd. simpl. by apply IH.
Qed.

Lemma rewrite_embedded_plain h : free_of "." (chars h) = true -> rewrite_embedded h = Some h.
Proof.
  intros Hf. unfold rewrite_embedded. destruct (split_last ":" (chars h)) as [[a b]|] eqn:Hs; unfold includes.
  - apply split_last_eq in Hs. rewrite Hs, free_of_app, free_of_cons, !andb_true_iff in Hf.
    rewrite chars_of_chars. change (chars ".") with ["."%char]. by rewrite includes_free by apply Hf.
  - change (chars ".") with ["."%char]. by rewrite includes_free.
Qed.

Lemma chars_ipv6_text ls rs : chars (ipv6_text ls rs) = chars (groups_text ls) ++ ":"%char :: ":"%char :: chars (groups_text rs).
Proof. unfold ipv6_text. rewrite !chars_app. done. Qed.

Lemma ipv6_text_plain ls rs : Forall group ls -> Forall group rs -> free_of "." (chars (ipv6_text ls rs)) = true.
Proof.
  intros Hl Hr. rewrite chars_ipv6_text, free_of_app, !free_of_cons, !groups_text_free by done. done.
Qed.

(** [expandIPv6ToBytes] reads a compressed text as the bytes of its groups. *)
Lemma expand_ipv6_text ls rs :
  Forall group ls -> Forall group rs -> (length ls + length rs <= 8)%nat ->
  expandIPv6ToBytes (ipv6_text ls rs) = Some (bytes_of_groups (ipv6_groups ls rs)).
Proof.
  intros Hl Hr Hlen. unfold expandIPv6ToBytes. rewrite rewrite_embedded_plain by (by apply ipv6_text_plain). cbn [mbind option_bind].
  assert (Hg : group_list (ipv6_text ls rs) = Some (Some <$> ipv6_groups ls rs)).
  { unfold group_list, split_on_double. rewrite chars_ipv6_text, split_double_app by (apply groups_text_no_double; auto).
    pose proof (groups_text_no_double rs [] Hr eq_refl (or_introl eq_refl)) as Hnd. rewrite app_nil_r in Hnd.
    rewrite split_double_single by done. cbn [fmap list_fmap]. rewrite !of_chars_chars, !toGroups_text by done.
    rewrite !length_fmap. destruct (Nat.ltb_spec 8 (length ls + length rs)); [lia|].
    unfold ipv6_groups. by rewrite !fmap_app, fmap_replicate. }
  rewrite Hg. cbn [mbind option_bind]. rewrite length_fmap. unfold ipv6_groups at 1.
  rewrite !length_app, length_replicate. replace (length ls + _)%nat with 8%nat by lia. simpl.
  assert (Hm : mapM id (Some <$> ipv6_groups ls rs) = Some (ipv6_groups ls rs)).
  { apply mapM_Some. apply Forall2_fmap_l, Forall_Forall2_diag, Forall_true. done. }
  by rewrite Hm.
Qed.

(** ** [net.isIP] accepts the texts *)

Lemma re_lang_app r1 r2 l1 l2 l : l = l1 ++ l2 -> re_lang r1 l1 -> re_lang r2 l2 -> re_lang (RSeq r1 r2) l.
Proof. intros -> H1 H2. by constructor. Qed.

Lemma seg_lang g : group g -> re_lang v6Seg (chars (group_text g)).
Proof. intros Hg. by apply group_text_facts. Qed.

Lemma seg_colon_lang g : group g -> re_lang seg_colon (chars (group_text g) ++ [":"%char]).
Proof. intros Hg. constructor; [by apply seg_lang | by constructor]. Qed.

Lemma colon_seg_lang g : group g -> re_lang colon_seg (":"%char :: chars (group_text g)).
Proof. intros Hg. apply (lang_seq _ _ [":"%char]); [by constructor | by apply seg_lang]. Qed.

(** The groups, each followed by a colon. *)
Definition trailed (gs : list Z) : list ascii := flat_map (fun g => chars (group_text g) ++ [":"%char]) gs.
(** The groups, each preceded by a colon. *)
Definition led (gs : list Z) : list ascii := flat_map (fun g => ":"%char :: chars (group_text g)) gs.

Lemma trailed_lang gs : Forall group gs -> re_lang (rtimes (length gs) seg_colon) (trailed gs).
Proof. induction 1 as [|g gs Hg _ IH]; simpl; constructor; [by apply seg_colon_lang | done]. Qed.

Lemma led_upto gs n : Forall group gs -> (length gs <= n)%nat -> re_lang (rupto n colon_seg) (led gs).
Proof.
  intros Hgs. revert n. induction Hgs as [|g gs Hg _ IH]; intros n Hn; simpl in *.
  - destruct n; [constructor | apply lang_alt_l; constructor].
  - destruct n as [|n]; [lia|]. apply lang_alt_r.
    apply (lang_seq colon_seg _ (":"%char :: chars (group_text g)) (led gs)); [by apply colon_seg_lang | apply IH; lia].
Qed.

Lemma led_between g gs n : group g -> Forall group gs -> (length gs < n)%nat -> re_lang (rbetween 1 n colon_seg) (led (g :: gs)).
Proof.
  intros Hg Hgs Hn. unfold rbetween. apply (re_lang_app _ _ (":"%char :: chars (group_text g)) (led gs)); [done| |].
  - cbn [rtimes]. apply lang_seq_eps_r. by apply colon_seg_lang.
  - apply led_upto; [done | lia].
Qed.

Lemma groups_text_trailed gs g : chars (groups_text (gs ++ [g])) ++ [":"%char] = trailed (gs ++ [g]).
Proof.
  induction gs as [|g' gs IH]; [by rewrite app_nil_l; unfold trailed; simpl; rewrite app_nil_r|].
  destruct (gs ++ [g]) as [|h hs] eqn:Hh; [by destruct gs|].
  rewrite <- app_comm_cons, Hh, groups_text_cons, !chars_app, <- !app_assoc, IH.
  change (trailed (g' :: h :: hs)) with ((chars (group_text g') ++ [":"%char]) ++ trailed (h :: hs)). by rewrite <- app_assoc.
Qed.

Lemma groups_text_led g gs : ":"%char :: chars (groups_text (g :: gs)) = led (g :: gs).
Proof.
  revert g. induction gs as [|h gs IH]; intros g; [unfold led; simpl; by rewrite app_nil_r|].
  rewrite groups_text_cons, !chars_app. change (chars ":") with [":"%char]. cbn [app].
  rewrite IH. done.
Qed.

(** What may follow [n] groups and their colons, with [m] more groups at most. *)
Definition tail_re (m : nat) : re := RAlt (rbetween 1 m colon_seg) (rchar ":").

Lemma tail_lang rs m : Forall group rs -> (length rs <= m)%nat -> re_lang (tail_re m) (":"%char :: chars (groups_text rs)).
Proof.
  intros Hr Hm. destruct rs as [|g rs]; [apply lang_alt_r; by constructor|].
  rewrite groups_text_led. inversion Hr; subst. simpl in Hm. apply lang_alt_l, led_between; [done..|lia].
Qed.

Lemma ralts_lang r rs l : r ∈ rs -> re_lang r l -> re_lang (ralts rs) l.
Proof.
  intros Hr Hl. induction Hr as [rs|r' r'' rs _ IH]; simpl; [by apply lang_alt_l | by apply lang_alt_r, IH].
Qed.

Ltac elem_tac := repeat first [apply list_elem_of_here | apply list_elem_of_further].

Lemma v6_branch_lang n m k ls rs :
  length ls = n -> Forall group ls -> Forall group rs -> (length rs <= k)%nat ->
  re_lang (v6_branch n m k) (trailed ls ++ ":"%char :: chars (groups_text rs)).
Proof.
  intros <- Hl Hr Hk. unfold v6_branch. constructor; [by apply trailed_lang|].
  destruct (proj1 (lang_alt_inv _ _ _) (tail_lang rs k Hr Hk)) as [Ht|Ht].
  - apply (ralts_lang (rbetween 1 k colon_seg)); [elem_tac | done].
  - apply (ralts_lang (rchar ":")); [elem_tac | done].
Qed.

(** The alternatives of [v6Str] with groups before the double colon. *)
Lemma v6_groups_lang ls rs :
  ls <> [] -> Forall group ls -> Forall group rs -> (length ls + length rs <= 7)%nat ->
  re_lang v6Str (trailed ls ++ ":"%char :: chars (groups_text rs)).
Proof.
  intros Hne Hl Hr Hlen. apply (re_lang_app _ _ (trailed ls ++ ":"%char :: chars (groups_text rs)) []);
    [by rewrite app_nil_r | | by apply lang_alt_l; constructor].
  assert (Hn : (1 <= length ls <= 7)%nat) by (destruct ls; simpl in *; [done | lia]).
  destruct (length ls) as [|[|[|[|[|[|[|[|n]]]]]]]] eqn:Hls; try lia.
  - apply (ralts_lang (v6_branch 1 4 6)); [elem_tac | apply v6_branch_lang; [done..|lia]].
  - apply (ralts_lang (v6_branch 2 3 5)); [elem_tac | apply v6_branch_lang; [done..|lia]].
  - apply (ralts_lang (v6_branch 3 2 4)); [elem_tac | apply v6_branch_lang; [done..|lia]].
  - apply (ralts_lang (v6_branch 4 1 3)); [elem_tac | apply v6_branch_lang; [done..|lia]].
  - apply (ralts_lang (v6_branch 5 0 2)); [elem_tac | apply v6_branch_lang; [done..|lia]].
  - apply lang_alt_r, lang_alt_l. constructor; [rewrite <- Hls; by apply trailed_lang|].
    destruct rs as [|g rs]; [apply (ralts_lang (rchar ":")); [elem_tac | by constructor]|].
    destruct rs; [|simpl in Hlen; lia]. inversion Hr; subst.
    apply (ralts_lang colon_seg); [elem_tac | by apply colon_seg_lang].
  - apply lang_alt_l. constructor; [rewrite <- Hls; by apply trailed_lang|].
    destruct rs; [|simpl in Hlen; lia]. apply lang_alt_r. by constructor.
Qed.

Lemma v6_empty_lang rs :
  Forall group rs -> (length rs <= 7)%nat -> re_lang v6Str (":"%char :: ":"%char :: chars (groups_text rs)).
Proof.
  intros Hr Hlen. apply (re_lang_app _ _ (":"%char :: ":"%char :: chars (groups_text rs)) []);
    [by rewrite app_nil_r | | by apply lang_alt_l; constructor].
  do 7 apply lang_alt_r. apply lang_alt_l. apply (re_lang_app _ _ [":"%char] (":"%char :: chars (groups_text rs))); [done | by constructor|].
  destruct (proj1 (lang_alt_inv _ _ _) (tail_lang rs 7 Hr Hlen)) as [Ht|Ht].
  - apply (ralts_lang (rbetween 1 7 colon_seg)); [elem_tac | done].
  - apply (ralts_lang (rchar ":")); [elem_tac | done].
Qed.

(** No dotted quad has a colon. *)
Lemma v4_no_colon l : re_lang v4Str l -> free_of ":" l = true.
Proof.
  assert (Hg : forall r, (fix clean (r : re) : Prop := match r with
      | RNone | REps => True | RCls p => p ":"%char = false
      | RSeq a b | RAlt a b => clean a /\ clean b | RStar a => clean a end) r ->
    forall l, re_lang r l -> free_of ":" l = true).
  { intros r Hc k Hk. induction Hk as [|p c Hp| | | | |]; try (rewrite ?free_of_app, ?andb_true_iff); try tauto.
    rewrite free_of_cons, andb_true_r. apply negb_true_iff, Ascii.eqb_neq. intros <-. congruence. }
  apply Hg. vm_compute. tauto.
Qed.

Lemma isIP_ipv6_text ls rs :
  Forall group ls -> Forall group rs -> (length ls + length rs <= 7)%nat -> net_isIP (ipv6_text ls rs) = 6.
Proof.
  intros Hl Hr Hlen. unfold net_isIP, re_test_full. rewrite chars_ipv6_text.
  assert (H4 : re_full v4Str (chars (groups_text ls) ++ ":"%char :: ":"%char :: chars (groups_text rs)) = false).
  { apply not_true_is_false. intros Hv%re_full_lang%v4_no_colon.
    rewrite free_of_app, free_of_cons, !andb_true_iff in Hv. destruct Hv as (_ & Hv & _). done. }
  rewrite H4. enough (H6 : re_full v6Str (chars (groups_text ls) ++ ":"%char :: ":"%char :: chars (groups_text rs)) = true) by (by rewrite H6).
  apply re_full_lang. destruct ls as [|g ls _] using rev_ind; [by apply v6_empty_lang|].
  assert (Heq : forall t, chars (groups_text (ls ++ [g])) ++ ":"%char :: t = trailed (ls ++ [g]) ++ t).
  { intros t. rewrite <- groups_text_trailed, <- app_assoc. done. }
  rewrite Heq. apply v6_groups_lang; [by destruct ls | done..].
Qed.

(** ** The verdict on an IPv6 text *)

(** Unique-local (fc00::/7) and link-local (fe80::/10) addresses by their first group. *)
Definition local_group (g : Z) : bool := (Z.shiftr g 9 =? Z.shiftr 64512 9) || (Z.shiftr g 6 =? Z.shiftr 65152 6).
(** Other first groups whose text starts with the same letters. *)
Definition lookalike_group (g : Z) : bool :=
  ((252 <=? g) && (g <=? 253)) || ((4032 <=? g) && (g <=? 4063)) || ((4072 <=? g) && (g <=? 4075)).

Definition group_prefix_ok (g : Z) : bool :=
  Bool.eqb (blocked_prefix (group_text g +:+ ":")) (local_group g || lookalike_group g).

(** [n] successive integers. *)
Fixpoint z_range (start : Z) (n : nat) : list Z :=
  match n with O => [] | S n' => start :: z_range (start + 1) n' end.

Lemma z_range_elem start n z : start <= z < start + Z.of_nat n -> In z (z_range start n).
Proof.
  revert start. induction n as [|n IH]; intros start Hz; [lia|]. simpl.
  destruct (Z.eq_dec start z); [by left | right; apply IH; lia].
Qed.

Lemma group_prefix g : group g -> blocked_prefix (group_text g +:+ ":") = local_group g || lookalike_group g.
Proof.
  intros Hg. assert (Hall : forallb group_prefix_ok (z_range 0 (Z.to_nat 65536)) = true) by (vm_compute; reflexivity).
  rewrite forallb_forall in Hall. apply eqb_prop, Hall, z_range_elem. unfold group in Hg. lia.
Qed.

Definition embedded_address (gs : list Z) : option Z :=
  if bool_decide (take 6 gs = [0; 0; 0; 0; 0; 65535]) || bool_decide (take 6 gs = [100; 65435; 0; 0; 0; 0])
  then Some (nth 6 gs 0 * 65536 + nth 7 gs 0) else None.

(** The verdict by value: an embedded IPv4 address is judged as such. *)
Definition blocked_ipv6 (gs : list Z) : bool :=
  match embedded_address gs with
  | Some n => blocked_address n
  | None => local_group (hd 0 gs) || lookalike_group (hd 0 gs)
  end.

(** The texts of the unspecified and loopback addresses that are recognised: [::], [::0], [::1]. *)
Definition special_text (ls rs : list Z) : bool :=
  bool_decide ((ls, rs) = ([], [])) || bool_decide ((ls, rs) = ([], [0])) || bool_decide ((ls, rs) = ([], [1])).

Lemma group_bytes g : group g -> js_and (js_shr g 8) 255 = g / 256 /\ js_and g 255 = g mod 256.
Proof.
  intros Hg. unfold group in Hg.
  assert (Hs : js_shr g 8 = g / 256).
  { unfold js_shr. rewrite Z.shiftr_div_pow2 by done. unfold to_int32. rewrite Z.mod_small by lia.
    replace (g + 2 ^ 31 - 2 ^ 31) with g by lia. done. }
  rewrite Hs. assert (0 <= g / 256 < 256) by (split; [apply Z.div_pos | apply Z.div_lt_upper_bound]; lia).
  rewrite !js_and_255 by lia. split; [by apply Z.mod_small | done].
Qed.

Lemma bytes_of_groups_eq gs :
  Forall group gs -> bytes_of_groups gs = flat_map (fun g => [g / 256; g mod 256]) gs.
Proof.
  induction 1 as [|g gs Hg _ IH]; [done|]. unfold bytes_of_groups in *. simpl. destruct (group_bytes g Hg) as [-> ->]. by rewrite IH.
Qed.

Lemma byte_pair g v : group g -> ((g / 256 =? v / 256) && (g mod 256 =? v mod 256)) = (g =? v).
Proof.
  intros Hg. apply eq_iff_eq_true. rewrite andb_true_iff, !Z.eqb_eq. split; [|by intros ->].
  intros [H1 H2]. rewrite (Z.div_mod g 256), (Z.div_mod v 256), H1, H2 by done. done.
Qed.

Lemma embedded_quad_dotted a b c d e f hi lo :
  group hi -> group lo ->
  embedded_quad (flat_map (fun g => [g / 256; g mod 256]) [a; b; c; d; e; f; hi; lo]) = dotted_quad (hi * 65536 + lo).
Proof.
  intros Hh Hl. unfold group in *. rewrite dotted_quad_bytes by lia. unfold embedded_quad, quad_bytes. simpl flat_map. cbn [drop take].
  f_equal. f_equal. change (2 ^ 24) with 16777216; change (2 ^ 16) with 65536; change (2 ^ 8) with 256.
  assert (Hq : (hi * 65536 + lo) / 65536 = hi) by (rewrite Z.div_add_l, Z.div_small by lia; lia).
  assert (H24 : (hi * 65536 + lo) / 16777216 = hi / 256) by (rewrite <- Hq at 2; by rewrite Z.div_div).
  assert (H8 : (hi * 65536 + lo) / 256 mod 256 = lo / 256).
  { replace (hi * 65536 + lo) with (hi * 256 * 256 + lo) by lia. rewrite Z.div_add_l by done.
    rewrite Z.add_comm, Z.mod_add by done. apply Z.mod_small. split; [apply Z.div_pos; lia | apply Z.div_lt_upper_bound; lia]. }
  assert (H0 : (hi * 65536 + lo) mod 256 = lo mod 256).
  { replace (hi * 65536 + lo) with (lo + hi * 256 * 256) by lia. by rewrite Z.mod_add. }
  by rewrite Hq, H24, H8, H0.
Qed.

Lemma take6_eqb a b c d e f g h u v w x y z :
  bool_decide (take 6 [a; b; c; d; e; f; g; h] = [u; v; w; x; y; z])
  = (a =? u) && (b =? v) && (c =? w) && (d =? x) && (e =? y) && (f =? z).
Proof.
  apply eq_iff_eq_true. rewrite bool_decide_eq_true, !andb_true_iff, !Z.eqb_eq. cbn [take].
  split; [intros Heq; simplify_eq; tauto | intros (((((-> & ->) & ->) & ->) & ->) & ->); done].
Qed.

(** The byte tests of the guard are tests of the groups. *)
Lemma embedded_blocked_groups gs :
  length gs = 8%nat -> Forall group gs ->
  embedded_blocked (bytes_of_groups gs) = blocked_address <$> embedded_address gs.
Proof.
  intros Hlen Hgs. rewrite bytes_of_groups_eq by done.
  destruct gs as [|a [|b [|c [|d [|e [|f [|hi [|lo [|? ?]]]]]]]]]; try done.
  rewrite !Forall_cons in Hgs. destruct Hgs as (Ha & Hb & Hc & Hd & He & Hf & Hh & Hl & _).
  unfold embedded_blocked, embedded_address. rewrite embedded_quad_dotted by done. rewrite !take6_eqb.
  assert (Hm : forallb (Z.eqb 0) (take 10 (flat_map (fun g => [g / 256; g mod 256]) [a; b; c; d; e; f; hi; lo]))
    && (nth 10 (flat_map (fun g => [g / 256; g mod 256]) [a; b; c; d; e; f; hi; lo]) 0 =? 255)
    && (nth 11 (flat_map (fun g => [g / 256; g mod 256]) [a; b; c; d; e; f; hi; lo]) 0 =? 255)
    = (a =? 0) && (b =? 0) && (c =? 0) && (d =? 0) && (e =? 0) && (f =? 65535)).
  { rewrite <- (byte_pair a 0), <- (byte_pair b 0), <- (byte_pair c 0), <- (byte_pair d 0), <- (byte_pair e 0), <- (byte_pair f 65535) by done.
    cbn [flat_map app take forallb nth]. rewrite !(Z.eqb_sym 0). change (0 / 256) with 0; change (0 mod 256) with 0;
    change (65535 / 256) with 255; change (65535 mod 256) with 255.
    apply eq_iff_eq_true. rewrite !andb_true_iff. tauto. }
  assert (Hn : bool_decide (take 12 (flat_map (fun g => [g / 256; g mod 256]) [a; b; c; d; e; f; hi; lo]) = NAT64_PREFIX)
    = (a =? 100) && (b =? 65435) && (c =? 0) && (d =? 0) && (e =? 0) && (f =? 0)).
  { rewrite <- (byte_pair a 100), <- (byte_pair b 65435), <- (byte_pair c 0), <- (byte_pair d 0), <- (byte_pair e 0), <- (byte_pair f 0) by done.
    apply eq_iff_eq_true. rewrite bool_decide_eq_true, !andb_true_iff, !Z.eqb_eq. cbn [flat_map app take]. unfold NAT64_PREFIX.
    change (100 / 256) with 0; change (100 mod 256) with 100; change (65435 / 256) with 255; change (65435 mod 256) with 155;
    change (0 / 256) with 0; change (0 mod 256) with 0.
    split; [intros Heq; injection Heq as ? ? ? ? ? ? ? ? ? ? ? ?; tauto | intros; destruct_and!; congruence]. }
  rewrite Hm, Hn. destruct (_ && (f =? 65535)) eqn:E1; cbn [orb].
  - rewrite isBlockedIPv4_ranges; [done|]. unfold group in *. lia.
  - destruct (_ && (f =? 0)); [|done]. rewrite isBlockedIPv4_ranges; [done|]. unfold group in *. lia.
Qed.

Lemma lower_groups_text gs : Forall group gs -> to_lower_case (groups_text gs) = groups_text gs.
Proof.
  intros Hgs. unfold groups_text. rewrite lower_join by done. f_equal. rewrite <- list_fmap_compose.
  apply list_fmap_ext. intros i g Hi. rewrite Forall_lookup in Hgs. by apply group_text_facts, (Hgs i).
Qed.

Lemma lower_ipv6_text ls rs : Forall group ls -> Forall group rs -> to_lower_case (ipv6_text ls rs) = ipv6_text ls rs.
Proof. intros Hl Hr. unfold ipv6_text. by rewrite !lower_app, !lower_groups_text. Qed.

Lemma split_ipv6_text ls rs :
  Forall group ls -> Forall group rs -> split_on_double ":" (ipv6_text ls rs) = [groups_text ls; groups_text rs].
Proof.
  intros Hl Hr. unfold split_on_double. rewrite chars_ipv6_text, split_double_app by (apply groups_text_no_double; auto).
  pose proof (groups_text_no_double rs [] Hr eq_refl (or_introl eq_refl)) as Hnd. rewrite app_nil_r in Hnd.
  rewrite split_double_single by done. cbn [fmap list_fmap]. by rewrite !of_chars_chars.
Qed.

(** A text determines its groups. *)
Lemma ipv6_text_inj ls rs s :
  Forall group ls -> Forall group rs -> ipv6_text ls rs = s ->
  toGroups <$> split_on_double ":" s = [Some <$> ls; Some <$> rs].
Proof. intros Hl Hr <-. rewrite split_ipv6_text by done. cbn [fmap list_fmap]. by rewrite !toGroups_text. Qed.

Lemma text_eqb ls rs ls' rs' s :
  Forall group ls -> Forall group rs -> ipv6_text ls' rs' = s ->
  toGroups <$> split_on_double ":" s = [Some <$> ls'; Some <$> rs'] ->
  String.eqb (ipv6_text ls rs) s = bool_decide ((ls, rs) = (ls', rs')).
Proof.
  intros Hl Hr Hs Hg. apply eq_iff_eq_true. rewrite String.eqb_eq, bool_decide_eq_true. split; [|intros [= -> ->]; done].
  intros Heq. pose proof (ipv6_text_inj ls rs s Hl Hr Heq) as Hg'. rewrite Hg in Hg'. injection Hg' as H1 H2.
  apply (inj (fmap Some)) in H1, H2. by subst.
Qed.

Lemma blocked_prefix_ext h h' :
  (forall p, p ∈ ["fc"; "fd"; "fe8"; "fe9"; "fea"; "feb"] -> starts_with p h = starts_with p h') ->
  blocked_prefix h = blocked_prefix h'.
Proof.
  intros Hp.
  assert (Habs : forall h, starts_with "fe80:" h || starts_with "fe8" h = starts_with "fe8" h).
  { intros k. apply eq_iff_eq_true. rewrite orb_true_iff. split; [|tauto]. intros [Hk|Hk]; [|done]. revert Hk. unfold starts_with.
    destruct (chars k) as [|c1 [|c2 [|c3 l]]]; cbn [chars prefix_chars String.list_ascii_of_string];
      rewrite ?andb_false_r, ?andb_true_iff; tauto. }
  assert (Hform : forall h, blocked_prefix h = starts_with "fc" h || starts_with "fd" h || starts_with "fe8" h
    || starts_with "fe9" h || starts_with "fea" h || starts_with "feb" h).
  { intros k. unfold blocked_prefix. rewrite <- (Habs k) at 2. apply eq_iff_eq_true. rewrite !orb_true_iff. tauto. }
  rewrite !Hform, !Hp by elem_tac. done.
Qed.

Lemma prefix_chars_sep c p l r : free_of c p = true -> prefix_chars p (l ++ c :: r) = prefix_chars p (l ++ [c]).
Proof.
  revert l. induction p as [|d p IH]; intros l; [done|]. rewrite free_of_cons, andb_true_iff, negb_true_iff. intros [Hd Hp].
  destruct l as [|e l]; cbn [app prefix_chars].
  - by rewrite (Ascii.eqb_sym d c), Hd.
  - by rewrite IH.
Qed.

Lemma ipv6_text_prefix ls rs :
  Forall group ls -> Forall group rs -> (length ls + length rs <= 7)%nat ->
  blocked_prefix (ipv6_text ls rs) = local_group (hd 0 (ipv6_groups ls rs)) || lookalike_group (hd 0 (ipv6_groups ls rs)).
Proof.
  intros Hl Hr Hlen. destruct ls as [|g ls].
  - unfold ipv6_groups. simpl length in *. destruct (8 - (0 + length rs))%nat eqn:Hn; [lia|]. reflexivity.
  - change (hd 0 (ipv6_groups (g :: ls) rs)) with g. inversion Hl; subst. rewrite <- group_prefix by done.
    apply blocked_prefix_ext. intros p Hp. unfold starts_with.
    assert (Hc : exists t, chars (ipv6_text (g :: ls) rs) = chars (group_text g) ++ ":"%char :: t).
    { rewrite chars_ipv6_text. destruct ls as [|g' ls]; [by eexists|].
      rewrite groups_text_cons, !chars_app, <- !app_assoc. by eexists. }
    destruct Hc as [t ->]. rewrite chars_app. change (chars ":") with [":"%char]. apply prefix_chars_sep.
    repeat (apply elem_of_cons in Hp as [->|Hp]; [done|]). by apply elem_of_nil in Hp.
Qed.

Lemma length_ipv6_groups ls rs : (length ls + length rs <= 8)%nat -> length (ipv6_groups ls rs) = 8%nat.
Proof. intros Hlen. unfold ipv6_groups. rewrite !length_app, length_replicate. lia. Qed.

Lemma ipv6_groups_group ls rs : Forall group ls -> Forall group rs -> Forall group (ipv6_groups ls rs).
Proof.
  intros Hl Hr. unfold ipv6_groups. rewrite !Forall_app. split_and!; [done| |done].
  apply Forall_replicate. unfold group. lia.
Qed.

(** For every address written in lower case, without leading zeros and with one
    double colon: an embedded IPv4 address is judged as such, and another address is
    blocked when its text is [::], [::0] or [::1] or its first group says so. *)
Lemma one_double_colon_guarded (ls rs : list Z) :
  Forall group ls -> Forall group rs -> (length ls + length rs <= 7)%nat ->
  isBlockedIp (ipv6_text ls rs) = special_text ls rs || blocked_ipv6 (ipv6_groups ls rs).
Proof.
  intros Hl Hr Hlen. unfold isBlockedIp. rewrite isIP_ipv6_text, lower_ipv6_text by done.
  change (6 =? 4) with false. change (6 =? 6) with true. cbv iota zeta.
  assert (Hfull : String.eqb (ipv6_text ls rs) "0:0:0:0:0:0:0:0" = false).
  { apply String.eqb_neq. intros Heq. by pose proof (ipv6_text_inj _ _ _ Hl Hr Heq). }
  unfold special_text, str_in. cbn [existsb]. rewrite Hfull, orb_false_r.
  rewrite (text_eqb ls rs [] [] "::"), (text_eqb ls rs [] [0] "::0"), (text_eqb ls rs [] [1] "::1") by done.
  destruct (bool_decide ((ls, rs) = ([], []))), (bool_decide ((ls, rs) = ([], [0]))), (bool_decide ((ls, rs) = ([], [1]))); try done.
  cbn [orb]. rewrite expand_ipv6_text by (done || lia). cbn [mbind option_bind].
  rewrite embedded_blocked_groups by first [apply length_ipv6_groups; lia | by apply ipv6_groups_group]. unfold blocked_ipv6.
  destruct (embedded_address (ipv6_groups ls rs)); [done|]. by apply ipv6_text_prefix.
Qed.

(** ** The text of the URL standard *)

(** How many zeros the groups begin with. *)
Fixpoint zero_run (gs : list Z) : nat :=
  match gs with
  | 0 :: gs' => S (zero_run gs')
  | _ => O
  end.

(** The first longest run of zeros, by its position (counted from [i]) and length. *)
Fixpoint longest_run (i : nat) (gs : list Z) : nat * nat :=
  match gs with
  | [] => (i, O)
  | _ :: gs' =>
      let '(j, n) := longest_run (S i) gs' in
      if (n <=? zero_run gs)%nat then (i, zero_run gs) else (j, n)
  end.

(** The IPv6 serializer of the URL standard, which [URL.hostname] gives between
    brackets: groups in lower-case hexadecimal without leading zeros, the first
    longest run of more than one zero group written as a double colon. *)
Definition serialize_ipv6 (gs : list Z) : string :=
  let '(i, n) := longest_run 0 gs in
  if (1 <? n)%nat then ipv6_text (take i gs) (drop (i + n) gs) else groups_text gs.

Example serialize_examples :
  serialize_ipv6 <$> [[0; 0; 0; 0; 0; 0; 0; 0]; [0; 0; 0; 0; 0; 0; 0; 1]; [8193; 3512; 0; 0; 1; 0; 0; 1]; [65152; 0; 1; 0; 1; 0; 1; 0];
    [0; 0; 0; 0; 0; 65535; 2560; 1]; [100; 65435; 0; 0; 0; 0; 2560; 1]]
  = ["::"; "::1"; "2001:db8::1:0:0:1"; "fe80:0:1:0:1:0:1:0"; "::ffff:a00:1"; "64:ff9b::a00:1"].
Proof. vm_compute. reflexivity. Qed.

Lemma zero_run_zeros gs : (zero_run gs <= length gs)%nat /\ take (zero_run gs) gs = replicate (zero_run gs) 0.
Proof.
  induction gs as [|g gs [IH1 IH2]]; [done|]. cbn [zero_run]. destruct g; cbn [length take replicate]; [|split; [lia|done]..].
  rewrite IH2. split; [lia|done].
Qed.

Lemma longest_run_zeros gs : forall k i n, longest_run k gs = (i, n) ->
  exists j, i = (k + j)%nat /\ (j + n <= length gs)%nat /\ take n (drop j gs) = replicate n 0.
Proof.
  induction gs as [|g gs IH]; intros k i n; cbn [longest_run].
  - intros [= <- <-]. exists 0%nat. split; [lia|done].
  - destruct (longest_run (S k) gs) as [j m] eqn:E. destruct (Nat.leb_spec m (zero_run (g :: gs))).
    + intros Heq. assert (i = k /\ n = zero_run (g :: gs)) as [-> ->] by (by injection Heq). exists 0%nat.
      destruct (zero_run_zeros (g :: gs)) as [Hle Hz]. split_and!; [lia|exact Hle|exact Hz].
    + intros [= <- <-]. destruct (IH _ _ _ E) as (j' & -> & ? & ?). exists (S j'). cbn [length drop]. split_and!; [lia|lia|done].
Qed.

(** The compressed text stands for the address. *)
Lemma compressed_groups gs i n :
  length gs = 8%nat -> longest_run 0 gs = (i, n) ->
  (i + n <= 8)%nat /\ ipv6_groups (take i gs) (drop (i + n) gs) = gs.
Proof.
  intros Hlen Hrun. destruct (longest_run_zeros _ _ _ _ Hrun) as (j & -> & Hle & Hz). rewrite Hlen in Hle. cbn [Nat.add] in *.
  split; [done|]. unfold ipv6_groups. rewrite length_take, length_drop, Hlen.
  replace (8 - (j `min` 8 + (8 - (j + n))))%nat with n by lia. rewrite <- Hz, <- drop_drop, (take_drop n), (take_drop j). done.
Qed.

Definition unspecified_address : list Z := [0; 0; 0; 0; 0; 0; 0; 0].
Definition loopback_address : list Z := [0; 0; 0; 0; 0; 0; 0; 1].

Lemma special_compressed gs i n :
  length gs = 8%nat -> longest_run 0 gs = (i, n) ->
  special_text (take i gs) (drop (i + n) gs) = bool_decide (gs = unspecified_address) || bool_decide (gs = loopback_address).
Proof.
  intros Hlen Hrun. destruct (compressed_groups gs i n Hlen Hrun) as [Hle Hgs]. apply eq_iff_eq_true.
  unfold special_text. rewrite !orb_true_iff, !bool_decide_eq_true. split.
  - intros [[H|H]|H]; injection H as H1 H2; rewrite H1, H2 in Hgs; rewrite <- Hgs; [by left|by left|by right].
  - intros [-> | ->]; injection Hrun as <- <-; [left; left|right]; reflexivity.
Qed.

(** *** Texts without a double colon *)

Lemma groups_text_snoc gs g : chars (groups_text (gs ++ [g])) = trailed gs ++ chars (group_text g).
Proof.
  apply (app_inv_tail [":"%char]). rewrite groups_text_trailed, <- app_assoc. unfold trailed.
  rewrite flat_map_app. cbn [flat_map]. by rewrite app_nil_r.
Qed.

Lemma isIP_groups_text gs : Forall group gs -> length gs = 8%nat -> net_isIP (groups_text gs) = 6.
Proof.
  intros Hg Hlen. unfold net_isIP, re_test_full. destruct gs as [|g gs _] using rev_ind; [done|].
  rewrite length_app, Nat.add_1_r in Hlen. injection Hlen as Hlen. apply Forall_app in Hg as [Hgs [Hg _]%Forall_cons].
  rewrite groups_text_snoc.
  assert (H4 : re_full v4Str (trailed gs ++ chars (group_text g)) = false).
  { apply not_true_is_false. intros Hv%re_full_lang%v4_no_colon. destruct gs as [|h gs]; [done|].
    unfold trailed in Hv. cbn [flat_map] in Hv. rewrite !free_of_app in Hv. rewrite !andb_true_iff in Hv. destruct_and?. done. }
  rewrite H4. enough (H6 : re_full v6Str (trailed gs ++ chars (group_text g)) = true) by (by rewrite H6).
  apply re_full_lang. apply (re_lang_app _ _ (trailed gs ++ chars (group_text g)) []); [by rewrite app_nil_r | | by apply lang_alt_l; constructor].
  apply lang_alt_l. constructor; [rewrite <- Hlen; by apply trailed_lang|]. apply lang_alt_l. by apply seg_lang.
Qed.

Lemma split_groups_text gs : Forall group gs -> split_on_double ":" (groups_text gs) = [groups_text gs].
Proof.
  intros Hg. unfold split_on_double. pose proof (groups_text_no_double gs [] Hg eq_refl (or_introl eq_refl)) as Hnd.
  rewrite app_nil_r in Hnd. rewrite split_double_single by done. cbn [fmap list_fmap]. by rewrite of_chars_chars.
Qed.

Lemma expand_groups_text gs : Forall group gs -> length gs = 8%nat -> expandIPv6ToBytes (groups_text gs) = Some (bytes_of_groups gs).
Proof.
  intros Hg Hlen. unfold expandIPv6ToBytes. rewrite rewrite_embedded_plain by (by apply groups_text_free). cbn [mbind option_bind].
  unfold group_list. rewrite split_groups_text, toGroups_text by done. cbn [mbind option_bind]. rewrite length_fmap, Hlen. simpl.
  assert (Hm : mapM id (Some <$> gs) = Some gs) by (apply mapM_Some, Forall2_fmap_l, Forall_Forall2_diag, Forall_true; done).
  by rewrite Hm.
Qed.

Lemma blocked_prefix_head h g t : group g -> chars h = chars (group_text g) ++ ":"%char :: t ->
  blocked_prefix h = local_group g || lookalike_group g.
Proof.
  intros Hg Hh. rewrite <- group_prefix by done. apply blocked_prefix_ext. intros p Hp. unfold starts_with.
  rewrite Hh, chars_app. change (chars ":") with [":"%char]. apply prefix_chars_sep.
  repeat (apply elem_of_cons in Hp as [->|Hp]; [done|]). by apply elem_of_nil in Hp.
Qed.

Lemma no_double_colon_guarded gs :
  Forall group gs -> length gs = 8%nat -> gs <> unspecified_address -> isBlockedIp (groups_text gs) = blocked_ipv6 gs.
Proof.
  intros Hg Hlen Hne. unfold isBlockedIp. rewrite isIP_groups_text, lower_groups_text by done.
  change (6 =? 4) with false. change (6 =? 6) with true. cbv iota zeta.
  assert (Hdouble : forall s, length (split_on_double ":" s) <> 1%nat -> String.eqb (groups_text gs) s = false).
  { intros s Hs. apply String.eqb_neq. intros <-. by rewrite split_groups_text in Hs. }
  assert (Hfull : String.eqb (groups_text gs) "0:0:0:0:0:0:0:0" = false).
  { apply String.eqb_neq. intros Heq. apply Hne, (inj (fmap Some)). rewrite <- (toGroups_text gs) by done. by rewrite Heq. }
  unfold str_in. cbn [existsb]. rewrite Hfull, !Hdouble by done. cbn [orb].
  rewrite expand_groups_text by done. cbn [mbind option_bind]. rewrite embedded_blocked_groups by done. unfold blocked_ipv6.
  destruct (embedded_address gs); [done|]. destruct gs as [|g [|g' gs]]; [done..|]. cbn [hd]. inversion Hg; subst.
  eapply blocked_prefix_head; [done|]. rewrite groups_text_cons, !chars_app. reflexivity.
Qed.

(** The verdict of the address itself: an IPv4 address embedded by mapping
    (::ffff:0:0/96) or NAT64 (64:ff9b::/96) by the IPv4 ranges, another address when
    it is unspecified, loopback, unique-local (fc00::/7) or link-local (fe80::/10). *)
Definition blocked_value (gs : list Z) : bool :=
  match embedded_address gs with
  | Some n => blocked_address n
  | None => bool_decide (gs = unspecified_address) || bool_decide (gs = loopback_address) || local_group (hd 0 gs)
  end.

(** Blocked for its spelling alone. *)
Definition overblocked (gs : list Z) : bool := bool_decide (embedded_address gs = None) && lookalike_group (hd 0 gs).

Lemma verdict_split gs :
  (bool_decide (gs = unspecified_address) || bool_decide (gs = loopback_address)) || blocked_ipv6 gs
  = blocked_value gs || overblocked gs.
Proof.
  unfold blocked_value, blocked_ipv6, overblocked. destruct (embedded_address gs) as [n|] eqn:He.
  - rewrite (bool_decide_eq_false_2 (gs = unspecified_address)), (bool_decide_eq_false_2 (gs = loopback_address)) by (intros ->; discriminate He).
    rewrite bool_decide_eq_false_2 by done. cbn [andb orb]. by rewrite orb_false_r.
  - rewrite (bool_decide_eq_true_2 (None = None)) by done. cbn [andb]. by rewrite <- !orb_assoc.
Qed.

Lemma global_passes gs : 8192 <= hd 0 gs < 16384 -> blocked_value gs || overblocked gs = false.
Proof.
  intros Hg. unfold blocked_value, overblocked. destruct gs as [|g gs]; cbn [hd] in *; [lia|].
  assert (He : embedded_address (g :: gs) = None).
  { unfold embedded_address. rewrite !bool_decide_eq_false_2; [done| |]; cbn [take]; intros [= -> _]; lia. }
  rewrite He, (bool_decide_eq_true_2 (None = None)) by done. cbn [andb].
  assert (Hl : local_group g = false).
  { unfold local_group. rewrite !Z.shiftr_div_pow2 by done. apply orb_false_iff. split; apply Z.eqb_neq.
    - assert (g / 2 ^ 9 < 32) by (apply Z.div_lt_upper_bound; lia). change (64512 / 2 ^ 9) with 126. lia.
    - assert (g / 2 ^ 6 < 256) by (apply Z.div_lt_upper_bound; lia). change (65152 / 2 ^ 6) with 1018. lia. }
  rewrite Hl, !bool_decide_eq_false_2 by (intros [= -> _]; lia). unfold lookalike_group.
  repeat match goal with |- context [?a <=? ?b] => destruct (Z.leb_spec a b); try lia end; done.
Qed.

(** C37: the guard on an IPv6 literal as a URL carries it.  For each of the 2^128
    addresses, written as the URL standard serializes it (and [URL.hostname] gives
    it), the verdict of the guard is the verdict of its value, or the address is one
    of those blocked for their spelling alone: with the first group 00fc, 00fd, 0fc0
    to 0fdf or 0fe8 to 0feb, whose texts begin like those of unique-local and
    link-local addresses.  No address of the global unicast space 2000::/3 is among
    them, and none is blocked at all.  Other spellings of an address (more zeros,
    dotted tails) are not what a URL gives. *)
Theorem ipv6_guarded (gs : list Z) :
  length gs = 8%nat -> Forall group gs ->
  isBlockedIp (serialize_ipv6 gs) = blocked_value gs || overblocked gs /\
  (8192 <= hd 0 gs < 16384 -> isBlockedIp (serialize_ipv6 gs) = false).
Proof.
  intros Hlen Hg.
  assert (Hval : isBlockedIp (serialize_ipv6 gs) = blocked_value gs || overblocked gs).
  { unfold serialize_ipv6. destruct (longest_run 0 gs) as [i n] eqn:Hrun. destruct (Nat.ltb_spec 1 n) as [Hn|Hn].
    - destruct (compressed_groups gs i n Hlen Hrun) as [Hle Hgs].
      rewrite one_double_colon_guarded, Hgs, (special_compressed gs i n) by
        (done || (by apply Forall_take) || (by apply Forall_drop) || (rewrite length_take, length_drop, Hlen; lia)).
      apply verdict_split.
    - assert (gs <> unspecified_address /\ gs <> loopback_address) as [H0 H1]
        by (split; intros ->; injection Hrun as <- <-; lia).
      rewrite no_double_colon_guarded by done. rewrite <- verdict_split, !bool_decide_eq_false_2 by done. done. }
  split; [done|]. intros Hglobal. rewrite Hval. by apply global_passes.
Qed.

Lemma ipv6_guarded_witness :
  isBlockedIp (serialize_ipv6 [64512; 0; 0; 0; 0; 0; 0; 1]) = true /\ isBlockedIp (serialize_ipv6 [0; 0; 0; 0; 0; 0; 0; 1]) = true /\
  isBlockedIp (serialize_ipv6 [100; 65435; 0; 0; 0; 0; 2560; 1]) = true /\ isBlockedIp (serialize_ipv6 [8193; 3512; 1; 2; 3; 4; 5; 6]) = false.
Proof.
  split_and!.
  - rewrite (proj1 (ipv6_guarded [64512; 0; 0; 0; 0; 0; 0; 1] eq_refl ltac:(repeat constructor; done))). reflexivity.
  - rewrite (proj1 (ipv6_guarded [0; 0; 0; 0; 0; 0; 0; 1] eq_refl ltac:(repeat constructor; done))). reflexivity.
  - rewrite (proj1 (ipv6_guarded [100; 65435; 0; 0; 0; 0; 2560; 1] eq_refl ltac:(repeat constructor; done))). reflexivity.
  - apply (proj2 (ipv6_guarded [8193; 3512; 1; 2; 3; 4; 5; 6] eq_refl ltac:(repeat constructor; done))). split; [discriminate|reflexivity].
Defined.

(** Spellings that a URL does not give: the loopback address passes with any other
    number of zeros written out, and the unspecified one with most. *)
Theorem respelled_loopback_passes :
  isBlockedIp <$> ["::1"; "0::1"; "::0:1"; "0:0:0:0:0:0:0:1"; "::0001"; "::"; "0::"; "0::0"; "::00"]
  = [true; false; false; false; false; true; false; false; false].
Proof. vm_compute. reflexivity. Qed.

(** ** Dotted tails *)

Lemma dotted_free n : 0 <= n < 2 ^ 32 -> free_of ":" (chars (dotted_quad n)) = true.
Proof.
  intros Hn. rewrite dotted_quad_bytes by done. apply free_of_join; [done|]. apply Forall_fmap.
  eapply Forall_impl; [by apply quad_bytes_byte|]. intros b Hb. by apply byte_text.
Qed.

Lemma dotted_lang n : 0 <= n < 2 ^ 32 -> re_lang v4Str (chars (dotted_quad n)).
Proof.
  intros Hn. pose proof (quad_bytes_byte n Hn) as Hb. rewrite dotted_quad_bytes by done. unfold quad_bytes in *.
  rewrite !Forall_cons in Hb. destruct Hb as (H1 & H2 & H3 & H4 & _).
  assert (Hseg : forall b, byte b -> re_lang v4Seg (chars (show_Z b))) by (intros b Hb; apply re_full_lang; by apply byte_text).
  cbn [fmap list_fmap JsValue.join]. rewrite !chars_app. change (chars ".") with ["."%char].
  unfold v4Str. cbn [rtimes].
  assert (Hone : forall b, byte b -> re_lang (RSeq v4Seg (rchar ".")) (chars (show_Z b) ++ ["."%char])).
  { intros b Hb. constructor; [by apply Hseg | by constructor]. }
  eapply (re_lang_app _ _ ((chars (show_Z (n / 2 ^ 24)) ++ ["."%char]) ++ (chars (show_Z (n / 2 ^ 16 mod 256)) ++ ["."%char])
    ++ (chars (show_Z (n / 2 ^ 8 mod 256)) ++ ["."%char]) ++ [])).
  - list_simplifier. reflexivity.
  - repeat (constructor; [by apply Hone|]). constructor.
  - by apply Hseg.
Qed.

Lemma split_last_app c a b : free_of c b = true -> split_last c (a ++ c :: b) = Some (a, b).
Proof.
  intros Hb. assert (Hn : split_last c b = None).
  { induction b as [|d b IH]; [done|]. rewrite free_of_cons, andb_true_iff, negb_true_iff in Hb. destruct Hb as [Hd Hb].
    simpl. by rewrite IH, (Ascii.eqb_sym d c), Hd. }
  induction a as [|d a IH]; simpl; [by rewrite Hn, Ascii.eqb_refl | by rewrite IH].
Qed.

Lemma includes_app c a b : includes_chars [c] (a ++ c :: b) = true.
Proof.
  induction a as [|d a IH]; cbn [app includes_chars prefix_chars]; [by rewrite Ascii.eqb_refl | by rewrite IH, orb_true_r].
Qed.

Lemma to_int32_small n : 0 <= n < 2 ^ 31 -> to_int32 n = n.
Proof. intros Hn. unfold to_int32. rewrite Z.mod_small by lia. lia. Qed.

Lemma byte_lower n : byte n -> to_lower_case (show_Z n) = show_Z n.
Proof.
  intros Hn. apply String.eqb_eq. by apply (byte_cases (fun n => String.eqb (to_lower_case (show_Z n)) (show_Z n))); [vm_compute|].
Qed.

Lemma js_pair a b : byte a -> byte b -> js_or (js_shl a 8) b = a * 256 + b.
Proof.
  intros Ha Hb. unfold byte in *. unfold js_or, js_shl. rewrite (to_int32_small a), Z.shiftl_mul_pow2, !(to_int32_small (a * 2 ^ 8)), (to_int32_small b) by lia.
  rewrite lor_add by lia. apply to_int32_small. lia.
Qed.

Lemma rewrite_embedded_dotted q n :
  0 <= n < 2 ^ 32 ->
  rewrite_embedded (q +:+ ":" +:+ dotted_quad n)
  = Some (q +:+ ":" +:+ groups_text [n / 65536; n mod 65536]).
Proof.
  intros Hn. unfold rewrite_embedded. rewrite !chars_app. change (chars ":") with [":"%char]. cbn [app].
  rewrite split_last_app by (by apply dotted_free). rewrite !of_chars_chars.
  assert (Hinc : includes "." (dotted_quad n) = true).
  { rewrite dotted_quad_bytes by done. unfold quad_bytes, includes. cbn [fmap list_fmap JsValue.join].
    rewrite !chars_app. apply includes_app. }
  rewrite Hinc, dotted_parts by done. rewrite length_fmap. change (length (quad_bytes n)) with 4%nat. cbv iota beta zeta.
  pose proof (quad_bytes_byte n Hn) as Hb.
  assert (Hm : mapM quad_part (show_Z <$> quad_bytes n) = Some (quad_bytes n)).
  { apply mapM_Some. apply Forall2_fmap_l, Forall_Forall2_diag. eapply Forall_impl; [exact Hb|]. intros b Hb'. by apply byte_text. }
  cbn [negb Nat.eqb]. rewrite Hm. cbn [mbind option_bind nth quad_bytes default].
  unfold quad_bytes in Hb. rewrite !Forall_cons in Hb. destruct Hb as (H1 & H2 & H3 & H4 & _). rewrite !js_pair by done.
  change (2 ^ 24) with 16777216; change (2 ^ 16) with 65536; change (2 ^ 8) with 256.
  assert (Hhi : n / 16777216 * 256 + n / 65536 mod 256 = n / 65536).
  { rewrite (Z.div_mod (n / 65536) 256) at 2 by done. rewrite Z.div_div by done. change (65536 * 256) with 16777216. lia. }
  assert (Hlo : n / 256 mod 256 * 256 + n mod 256 = n mod 65536).
  { change 65536 with (256 * 256). rewrite Z.rem_mul_r by done. lia. }
  rewrite Hhi, Hlo. reflexivity.
Qed.

(** The two ways the guard knows to embed an IPv4 address. *)
Inductive embedding : string -> list Z -> list Z -> Prop :=
| embed_mapped : embedding "::ffff" [] [65535]
| embed_nat64 : embedding "64:ff9b:" [100; 65435] [].

Lemma embedding_isIP q ls rs n :
  embedding q ls rs -> 0 <= n < 2 ^ 32 -> re_full v6Str (chars (q +:+ ":" +:+ dotted_quad n)) = true.
Proof.
  intros He Hn. apply re_full_lang. rewrite !chars_app. change (chars ":") with [":"%char].
  pose proof (dotted_lang n Hn) as Hd. set (d := chars (dotted_quad n)) in *.
  assert (Hv4 : re_lang (RSeq (rchar ":") v4Str) (":"%char :: d)) by (apply (re_lang_app _ _ [":"%char] d); [done | by constructor | done]).
  destruct He; cbn [chars String.list_ascii_of_string app].
  - eapply (re_lang_app _ _ (":"%char :: ":"%char :: "f"%char :: "f"%char :: "f"%char :: "f"%char :: ":"%char :: d) []);
      [by rewrite app_nil_r | | by apply lang_alt_l; constructor].
    do 7 apply lang_alt_r. apply lang_alt_l. eapply (re_lang_app _ _ [":"%char]); [reflexivity | by constructor|].
    apply lang_alt_l. eapply (re_lang_app _ _ (led [65535]) (":"%char :: d)); [reflexivity| |done].
    apply led_upto; [by repeat constructor | simpl; lia].
  - eapply (re_lang_app _ _ (trailed [100; 65435] ++ ":"%char :: d) []);
      [by rewrite app_nil_r | | by apply lang_alt_l; constructor].
    apply (ralts_lang (v6_branch 2 3 5)); [elem_tac|]. constructor; [by apply (trailed_lang [100; 65435]); repeat constructor|].
    apply lang_alt_l. apply (re_lang_app _ _ [] (":"%char :: d)); [done | apply lang_alt_l; constructor | done].
Qed.

(** A dotted IPv4 address behind either prefix gets the verdict of the address. *)
Theorem embedded_ipv4_guarded (q : string) (ls rs : list Z) (n : Z) :
  embedding q ls rs -> 0 <= n < 2 ^ 32 ->
  isBlockedIp (q +:+ ":" +:+ dotted_quad n) = blocked_address n.
Proof.
  intros He Hn. unfold isBlockedIp, net_isIP, re_test_full.
  assert (H4 : re_full v4Str (chars (q +:+ ":" +:+ dotted_quad n)) = false).
  { apply not_true_is_false. intros Hv%re_full_lang%v4_no_colon. rewrite !chars_app, !free_of_app in Hv.
    change (chars ":") with [":"%char] in Hv. cbn in Hv. by rewrite andb_false_r in Hv. }
  rewrite H4, (embedding_isIP q ls rs) by done. change (6 =? 4) with false. change (6 =? 6) with true. cbv iota zeta.
  assert (Hh : group (n / 65536)) by (split; [apply Z.div_pos | apply Z.div_lt_upper_bound]; lia).
  assert (Hl : group (n mod 65536)) by (apply Z.mod_pos_bound; lia).
  assert (Hlow : to_lower_case (q +:+ ":" +:+ dotted_quad n) = q +:+ ":" +:+ dotted_quad n).
  { rewrite !lower_app, dotted_quad_bytes, lower_join by done. f_equal; [by destruct He|]. f_equal. f_equal.
    rewrite <- list_fmap_compose. apply list_fmap_ext. intros i b Hb. apply byte_lower.
    pose proof (quad_bytes_byte n Hn) as Hf. rewrite Forall_lookup in Hf. by apply (Hf i). }
  assert (Hdot : forall s, free_of "." (chars s) = true -> String.eqb (q +:+ ":" +:+ dotted_quad n) s = false).
  { intros s Hs. apply String.eqb_neq. intros <-. revert Hs. rewrite dotted_quad_bytes by done. unfold quad_bytes.
    cbn [fmap list_fmap JsValue.join]. rewrite !chars_app, !free_of_app. change (free_of "." (chars ".")) with false.
    cbn [andb]. by rewrite !andb_false_r. }
  rewrite Hlow. unfold str_in. cbn [existsb]. rewrite !Hdot by done. cbn [orb].
  assert (Htext : q +:+ ":" +:+ groups_text [n / 65536; n mod 65536] =
    ipv6_text ls (rs ++ [n / 65536; n mod 65536])) by (destruct He; reflexivity).
  assert (Hls : Forall group ls /\ Forall group rs /\ (length ls + length rs <= 2)%nat) by (destruct He; split_and!; repeat constructor; done).
  destruct Hls as (Hls & Hrs & Hlen).
  assert (Hr' : Forall group (rs ++ [n / 65536; n mod 65536])) by (rewrite Forall_app, !Forall_cons, Forall_nil; done).
  assert (Hlen' : (length ls + length (rs ++ [n / 65536; n mod 65536]%Z) <= 8)%nat) by (rewrite length_app; simpl; lia).
  assert (Hexp : expandIPv6ToBytes (q +:+ ":" +:+ dotted_quad n) = expandIPv6ToBytes (ipv6_text ls (rs ++ [n / 65536; n mod 65536]))).
  { unfold expandIPv6ToBytes. by rewrite rewrite_embedded_dotted, Htext, (rewrite_embedded_plain (ipv6_text _ _)) by (done || by apply ipv6_text_plain). }
  rewrite Hexp, expand_ipv6_text by done. cbn [mbind option_bind].
  rewrite embedded_blocked_groups by first [by apply length_ipv6_groups | by apply ipv6_groups_group].
  assert (Hea : embedded_address (ipv6_groups ls (rs ++ [n / 65536; n mod 65536])) = Some n).
  { pose proof (Z.div_mod n 65536 ltac:(done)). destruct He; unfold embedded_address; cbn -[Z.div Z.modulo Z.mul Z.add]; f_equal; lia. }
  by rewrite Hea.
Qed.

Lemma embedded_ipv4_guarded_witness :
  isBlockedIp ("::ffff" +:+ ":" +:+ dotted_quad (ip4 169 254 169 254)) = blocked_address (ip4 169 254 169 254) /\
  isBlockedIp ("64:ff9b:" +:+ ":" +:+ dotted_quad (ip4 8 8 8 8)) = blocked_address (ip4 8 8 8 8).
Proof.
  split.
  - apply (embedded_ipv4_guarded "::ffff" [] [65535]); [constructor | unfold ip4; lia].
  - apply (embedded_ipv4_guarded "64:ff9b:" [100; 65435] []); [constructor | unfold ip4; lia].
Defined.
