(* ===== verification/HttpActivity.v ===== *)
(** * The HTTP activity of flows

    workflow-worker's [activities/http-request.mjs] with the failures of
    [errors.mjs] and the size limits of [limits.mjs].  The HTTP client, its
    response stream, the resolver and the optional dispatcher factory are
    arguments; a request that was made is recorded.  The body of a response is
    the sequence of chunks its reader gives, decoded by [utf8]. *)
From S2P Require Import Prelude JsValue Json Regex Net SsrfGuard.
From Stdlib Require Import Ascii.
Local Open Scope Z_scope.

(** ** Failures *)

(** A Temporal [ApplicationFailure]. *)
Record app_failure := mk_app_failure { af_code : string; af_message : string; af_retryable : bool }.
Definition toNonRetryable (code message : string) : app_failure := mk_app_failure code message false.
Definition toRetryable (code message : string) : app_failure := mk_app_failure code message true.

(** What a transport throws. *)
Record net_error := mk_net_error {
  ne_name : option string; ne_code : option string; ne_cause_code : option string; ne_message : option string
}.

Definition TRANSIENT_CODES : list string :=
  ["ECONNREFUSED"; "ECONNRESET"; "ETIMEDOUT"; "EAI_AGAIN"; "ENETUNREACH"; "EHOSTUNREACH"; "EPIPE"; "UND_ERR_CONNECT_TIMEOUT"; "UND_ERR_SOCKET"].
Definition isTransientNetworkError (err : net_error) : bool :=
  let code := match ne_code err with Some c => Some c | None => ne_cause_code err end in
  match code with Some c => str_in c TRANSIENT_CODES | None => false end.

(** ** Limits *)

Definition MAX_INPUT_BYTES : Z := 2 * 1024 * 1024.
Definition MAX_OUTPUT_BYTES : Z := 2 * 1024 * 1024.
Definition DEFAULT_TIMEOUT_MS : Z := 10000.
Definition MAX_TIMEOUT_MS : Z := 30000.
Definition DEFAULT_BODY_CAP : Z := 1 * 1024 * 1024.
Definition MAX_BODY_CAP : Z := 10 * 1024 * 1024.
Definition FORBIDDEN_HEADERS : list string := ["authorization"; "cookie"; "x-api-key"; "x-falcone-internal"].

(** [typeof v !== 'number' || !Number.isFinite(v) || v <= 0 ? fallback : Math.min(v, most)] *)
Definition clamp (fallback most : Z) (v : jsval) : jsnum :=
  match v with
  | JNum n => if num_is_finite n && num_ltb (NInt 0) n then num_min n (NInt most) else NInt fallback
  | _ => NInt fallback
  end.
Definition clampTimeout : jsval -> jsnum := clamp DEFAULT_TIMEOUT_MS MAX_TIMEOUT_MS.
Definition clampBodyCap : jsval -> jsnum := clamp DEFAULT_BODY_CAP MAX_BODY_CAP.

(** [Object.entries(v ?? {})]; of a string or an array, the keys are the indices. *)
Definition object_entries (v : jsval) : list (string * jsval) :=
  match v with
  | JObj kvs => kvs
  | JArr xs => imap (fun i x => (show_N (N.of_nat i), x)) xs
  | JStr s => imap (fun i c => (show_N (N.of_nat i), JStr (of_chars [c]))) (chars s)
  | _ => []
  end.

Definition sanitizeHeaders (headers : jsval) : list (string * jsval) :=
  foldl (fun out kv => if str_in (to_lower_case kv.1) FORBIDDEN_HEADERS then out else assoc_set kv.1 kv.2 out) []
    (object_entries headers).

(** [c.toUpperCase()] on ASCII; method names have no other letters. *)
Definition upper_char (c : ascii) : ascii := if is_lower c then ascii_of_N (code c - 32) else c.
Definition to_upper_case (s : string) : string := of_chars (upper_char <$> chars s).

(** ** Requests and responses *)

Record http_request := mk_http_request {
  rq_url : string;
  rq_method : string;
  rq_headers : list (string * jsval);
  rq_body : jsval;
  rq_redirect : string;
  rq_dispatcher : option (string * Z)
}.

Record http_response := mk_http_response {
  rs_status : Z;
  rs_content_length : option string;
  rs_headers : list (string * string);
  rs_chunks : list (list Byte.byte);
  (** what the reader throws after the chunks, if anything *)
  rs_broken : option net_error
}.

Record http_deps := mk_http_deps {
  dep_http : http_request -> Z -> result net_error http_response;
  dep_resolver : resolver_fn;
  dep_dispatcherFactory : option (string -> Z -> result app_failure unit)
}.

Record http_output := mk_http_output { ho_httpStatus : Z; ho_body : string; ho_headers : list (string * string) }.

Inductive read_failure := TooLarge | ReadError (e : net_error).

(** The reading loop: [total] counts the bytes, and the chunk that passes the cap
    ends it. *)
Fixpoint read_chunks (cap total : Z) (acc : list Byte.byte) (chunks : list (list Byte.byte)) (broken : option net_error)
    : result read_failure (list Byte.byte) :=
  match chunks with
  | [] => match broken with Some e => Err (ReadError e) | None => Ok acc end
  | c :: chunks' =>
      let total' := total + Z.of_nat (length c) in
      if cap <? total' then Err TooLarge else read_chunks cap total' (acc ++ c) chunks' broken
  end.

Section activity.
Context `{!UrlParser, !NumberText} (utf8 : list Byte.byte -> string).

(** The cap is compared as a number; a chunk count is an integer, so its floor decides. *)
Definition cap_floor (cap : jsnum) : Z := match cap with NInt z => z | NFrac q => Qnum q / Z.pos (Qden q) | _ => 0 end.

Definition readCappedBody (res : http_response) (cap : jsnum) : result read_failure string :=
  let len := match rs_content_length res with Some s => to_number s | None => NNaN end in
  if num_is_finite len && num_ltb cap len then Err TooLarge
  else utf8 <$> read_chunks (cap_floor cap) 0 [] (rs_chunks res) (rs_broken res).

(** [serializedByteLength] *)
Definition serializedByteLength (v : jsval) : Z := match v with JUndef => 0 | _ => byte_length (json_text v) end.

Definition assertPayloadSize (v : jsval) (label : string) (limit : Z) : result app_failure unit :=
  let size := serializedByteLength v in
  throw_if (limit <? size)
    (toNonRetryable "PAYLOAD_TOO_LARGE" ("Activity " +:+ label +:+ " payload is " +:+ show_Z size
       +:+ " bytes which exceeds the " +:+ show_Z limit +:+ "-byte limit")).

Definition output_value (o : http_output) : jsval :=
  JObj [("status", JStr "success"); ("httpStatus", jint (ho_httpStatus o)); ("body", JStr (ho_body o));
        ("headers", JObj (prod_map id JStr <$> ho_headers o))].

Definition or_else (m : option string) (d : string) : string := default d m.

(** The failure of the call itself. *)
Definition call_failure (hostname : string) (timeoutMs : jsnum) (err : net_error) : app_failure :=
  if bool_decide (ne_name err = Some "AbortError") || bool_decide (ne_code err = Some "ABORT_ERR")
  then toRetryable "REQUEST_TIMEOUT" ("http.request to " +:+ hostname +:+ " timed out after " +:+ show_num timeoutMs +:+ "ms")
  else if isTransientNetworkError err then toRetryable "UPSTREAM_UNAVAILABLE" (or_else (ne_message err) "http.request transport error")
  else toNonRetryable "UPSTREAM_ERROR" (or_else (ne_message err) "http.request failed").

Definition read_error (cap : jsnum) (e : read_failure) : app_failure :=
  match e with
  | TooLarge => toNonRetryable "RESPONSE_TOO_LARGE" ("http.request response exceeded the " +:+ show_num cap +:+ "-byte cap")
  | ReadError err => toRetryable "UPSTREAM_UNAVAILABLE" (or_else (ne_message err) "http.request body read failed")
  end.

(** [(params.method ?? 'GET').toUpperCase()]; a method that is no string throws. *)
Definition method_of (params : jsval) : result app_failure string :=
  match coalesce (js_get params "method") (JStr "GET") with
  | JStr m => Ok (to_upper_case m)
  | _ => Err (toRetryable "TypeError" "params.method is not a string")
  end.

Definition url_text (v : jsval) : string := match v with JStr s => s | _ => "" end.

Definition map_err {E F A} (f : E -> F) (r : result E A) : result F A := match r with Ok a => Ok a | Err e => Err (f e) end.

(** Everything before the call: the request and what its answer is read with. *)
Definition prepare (input : jsval) (deps : http_deps) : result app_failure (http_request * pinned_target * jsnum * jsnum) :=
  assertPayloadSize input "input" MAX_INPUT_BYTES ≫= fun _ =>
  let params := coalesce (js_get input "params") (JObj []) in
  throw_if (negb (truthy (js_get params "url"))) (toNonRetryable "VALIDATION_ERROR" "http.request requires a url") ≫= fun _ =>
  method_of params ≫= fun method =>
  let timeoutMs := clampTimeout (js_get params "timeoutMs") in
  let bodyCap := clampBodyCap (js_get params "maxResponseBytes") in
  let target := url_text (js_get params "url") in
  map_err (fun e => toNonRetryable (default "" (err_code e)) (err_message e)) (resolveSsrfSafe target (dep_resolver deps)) ≫= fun pin =>
  match dep_dispatcherFactory deps with
  | Some make => make (pt_address pin) (pt_family pin) ≫= fun _ => Ok (Some (pt_address pin, pt_family pin))
  | None => Ok None
  end ≫= fun dispatcher =>
  let body := js_get params "body" in
  let has_body := negb (match body with JUndef => true | _ => false end) && negb (str_in method ["GET"; "HEAD"]) in
  Ok (mk_http_request target method (sanitizeHeaders (coalesce (js_get params "headers") (JObj [])))
        (if has_body then body else JUndef) "manual" dispatcher, pin, timeoutMs, bodyCap).

(** The result of the activity, and the requests it made. *)
Definition httpRequest (input : jsval) (deps : http_deps) : result app_failure http_output * list http_request :=
  match prepare input deps with
  | Err e => (Err e, [])
  | Ok (rq, pin, timeoutMs, bodyCap) =>
      (map_err (call_failure (pt_hostname pin) timeoutMs) (dep_http deps rq (cap_floor timeoutMs)) ≫= fun res =>
       map_err (read_error bodyCap) (readCappedBody res bodyCap) ≫= fun body =>
       let output := mk_http_output (rs_status res) body (rs_headers res) in
       assertPayloadSize (output_value output) "output" MAX_OUTPUT_BYTES ≫= fun _ =>
       Ok output, [rq])
  end.

End activity.
