(* ===== verification/SsrfTargets.v ===== *)
(** * The targets the guard lets through

    A connection goes only to an address that was vetted: the literal host, or an
    address of an answer of the resolver that holds no blocked one.  What the
    validation of a subscription and the HTTP activity of flows accept. *)
From S2P Require Import Prelude JsValue Json Regex Net SsrfGuard HttpActivity.
From Stdlib Require Import Ascii.
Local Open Scope Z_scope.

(** ** Targets *)

Lemma existsb_false {A} (f : A -> bool) xs x : existsb f xs = false -> x ∈ xs -> f x = false.
Proof.
  intros Hf Hx. apply not_true_is_false. intros Ht. rewrite <- not_true_iff_false in Hf. apply Hf.
  apply existsb_exists. exists x. by rewrite <- list_elem_of_In.
Qed.

(** Where a connection may go: the literal host itself, or an address the resolver
    gave for it while none of its addresses is blocked. *)
Definition vetted (hostname address : string) (answer : result js_error (option (list resolved_entry))) : Prop :=
  isBlockedIp address = false /\
  (normalizeNumericIPv4 hostname = Some address \/ (net_isIP hostname <> 0 /\ address = hostname) \/
   exists entries, answer = Ok (Some entries) /\ address ∈ (fst ∘ normalise_entry <$> entries) /\
     forall e, e ∈ entries -> isBlockedIp (normalise_entry e).1 = false).

Lemma vetted_entries (h : string) (a : resolved_entry) (addresses : list resolved_entry) :
  existsb (fun e => isBlockedIp e.1) (normalise_entry <$> a :: addresses) = false ->
  vetted h (normalise_entry a).1 (Ok (Some (a :: addresses))).
Proof.
  intros Hb. assert (Hall : forall e, e ∈ a :: addresses -> isBlockedIp (normalise_entry e).1 = false).
  { intros e He. apply (existsb_false _ _ (normalise_entry e) Hb). by apply list_elem_of_fmap_2. }
  split; [apply Hall; constructor|]. right. right. eexists; split_and!; [done | | done]. simpl. constructor.
Qed.

Lemma resolveDeliveryTarget_vetted `{!UrlParser} target resolver dt :
  resolveDeliveryTarget target resolver = dt -> dt_blocked dt = false ->
  exists parsed a, parse_url target = Some parsed /\ dt_pinnedAddress dt = Some a /\
    vetted (strip_brackets (url_hostname parsed)) a (resolver (strip_brackets (url_hostname parsed))).
Proof.
  unfold resolveDeliveryTarget. intros <-. destruct (parse_url target) as [parsed|]; [|done].
  set (h := strip_brackets (url_hostname parsed)). destruct (Z.eqb_spec (net_isIP h) 0) as [Hz|Hz]; cbn [negb].
  - destruct (resolver h) as [[[|a addresses]|]|] eqn:Hr; try done.
    destruct (existsb _ _) eqn:Hb; [done|]. intros _. exists parsed, (normalise_entry a).1. split_and!; [done..|].
    fold h. rewrite Hr. by apply vetted_entries.
  - cbn [dt_blocked dt_pinnedAddress]. intros Hb. rewrite Hb. exists parsed, h. split_and!; [done..|].
    split; [done|]. right. left. done.
Qed.

(** The guard of the flow activities lets a request through only to a vetted
    address of an http or https URL. *)
Theorem resolveSsrfSafe_vetted `{!UrlParser} (target : string) (resolver : resolver_fn) (p : pinned_target) :
  resolveSsrfSafe target resolver = Ok p ->
  exists parsed, parse_url target = Some parsed /\ (url_protocol parsed = "http:" \/ url_protocol parsed = "https:") /\
    pt_hostname p = strip_brackets (url_hostname parsed) /\ vetted (pt_hostname p) (pt_address p) (resolver (pt_hostname p)).
Proof.
  unfold resolveSsrfSafe. destruct (parse_url target) as [parsed|]; [|done].
  set (h := strip_brackets (url_hostname parsed)). intros (u & Hp & Hrest)%result_bind_ok.
  apply throw_if_ok, negb_false_iff, str_in_elem in Hp.
  assert (Hproto : url_protocol parsed = "http:" \/ url_protocol parsed = "https:") by (rewrite !elem_of_cons in Hp; set_solver).
  enough (pt_hostname p = h /\ vetted h (pt_address p) (resolver h)) as [Hh Hv] by (exists parsed; by rewrite Hh).
  destruct (normalizeNumericIPv4 h) as [c|] eqn:Hc.
  - apply result_bind_ok in Hrest as (v & Hb & [= <-]). apply throw_if_ok in Hb. split; [done|]. split; [done | by left].
  - destruct (Z.eqb_spec (net_isIP h) 0) as [Hz|Hz]; cbn [negb] in Hrest.
    + apply result_bind_ok in Hrest as (v & _ & Hrest).
      destruct (resolver h) as [[[|a addresses]|]|] eqn:Hr; try done.
      apply result_bind_ok in Hrest as (v' & Hb & [= <-]). apply throw_if_ok in Hb. split; [done | by apply vetted_entries].
    + apply result_bind_ok in Hrest as (v & Hb & [= <-]). apply throw_if_ok in Hb. split; [done|]. split; [done|]. right. by left.
Qed.

Definition sample_url : UrlParser := fun s => Some (mk_url "https:" "hooks.example.com" s).

Lemma resolveSsrfSafe_vetted_witness :
  vetted "hooks.example.com" "203.0.113.7" (Ok (Some [AddressEntry "203.0.113.7" (Some 4)])).
Proof.
  destruct (@resolveSsrfSafe_vetted sample_url "https://hooks.example.com/x" (fun _ => Ok (Some [AddressEntry "203.0.113.7" (Some 4)]))
    (mk_pinned_target "hooks.example.com" "203.0.113.7" 4) ltac:(vm_compute; reflexivity)) as (parsed & _ & _ & _ & Hv).
  exact Hv.
Defined.

(** What [validateSubscriptionInput] accepts. *)
Theorem accepted_subscription `{!UrlParser} (resolver : string -> result js_error (option (list string)))
    (input : subscription_input) (v : validated_input) :
  validateSubscriptionInput resolver input = Ok v ->
  exists parsed, parse_url (si_targetUrl input) = Some parsed /\ url_protocol parsed = "https:" /\ vi_targetUrl v = url_href parsed /\
    (isPrivateHostname (url_hostname parsed) = false \/
     exists addresses, resolver (strip_brackets (url_hostname parsed)) = Ok (Some addresses) /\ addresses <> [] /\
       Forall (fun a => isBlockedIp a = false) addresses) /\
    vi_eventTypes v <> [] /\ NoDup (vi_eventTypes v) /\ Forall (fun t => t ∈ EVENT_IDS) (vi_eventTypes v).
Proof.
  unfold validateSubscriptionInput. destruct (parse_url (si_targetUrl input)) as [parsed|] eqn:Hu; [|done].
  intros (u & Hp & (u' & Hh & Hev)%result_bind_ok)%result_bind_ok.
  apply throw_if_ok, negb_false_iff, String.eqb_eq in Hp. exists parsed.
  destruct (si_eventTypes input) as [| | | | |items|]; try done. apply result_bind_ok in Hev as (u'' & He & [= <-]).
  apply throw_if_ok, orb_false_iff in He as [Hlen Hval]. cbn [vi_targetUrl vi_eventTypes].
  destruct (string_set_spec items) as (Hnd & Hel). split_and!; [done..| | | |].
  - unfold check_host in Hh. destruct (match normalizeNumericIPv4 _ with Some _ => _ | None => _ end) eqn:?.
    + left. by apply throw_if_ok in Hh.
    + right. destruct (resolver _) as [[[|a addresses]|]|]; try done. apply throw_if_ok in Hh.
      eexists; split_and!; [done..|]. rewrite Forall_forall. intros b Hb. by apply (existsb_false _ _ b Hh).
  - destruct items as [|i items]; [done|]. intros Hnil.
    pose proof (existsb_false _ _ i Hval ltac:(constructor)) as Hi. apply negb_false_iff in Hi.
    destruct i as [| | | |s| |]; try done. assert (Hs : s ∈ string_set (JStr s :: items)) by (apply Hel; constructor).
    rewrite Hnil in Hs. by apply elem_of_nil in Hs.
  - done.
  - rewrite Forall_forall. intros s Hs%Hel. pose proof (existsb_false _ _ (JStr s) Hval Hs) as Hi.
    apply negb_false_iff in Hi. by apply str_in_elem.
Qed.

Lemma accepted_subscription_witness :
  vi_eventTypes (mk_validated_input "https://hooks.example.com/x" ["user.signed_up"]) <> [].
Proof.
  destruct (@accepted_subscription sample_url (fun _ => Ok (Some ["203.0.113.7"]))
    (mk_subscription_input "https://hooks.example.com/x" (JArr [JStr "user.signed_up"; JStr "user.signed_up"]))
    (mk_validated_input "https://hooks.example.com/x" ["user.signed_up"]) ltac:(vm_compute; reflexivity))
    as (parsed & _ & _ & _ & _ & Hne & _). exact Hne.
Defined.

(** ** The HTTP activity *)

Lemma map_err_ok {E F A} (f : E -> F) (r : result E A) a : map_err f r = Ok a <-> r = Ok a.
Proof. destruct r; simpl; naive_solver. Qed.

Lemma sanitizeHeaders_clean headers :
  Forall (fun kv => to_lower_case kv.1 ∉ FORBIDDEN_HEADERS) (sanitizeHeaders headers).
Proof.
  unfold sanitizeHeaders. set (P := fun kv : string * jsval => to_lower_case kv.1 ∉ FORBIDDEN_HEADERS).
  enough (forall kvs out, Forall P out ->
    Forall P (foldl (fun out kv => if str_in (to_lower_case kv.1) FORBIDDEN_HEADERS then out else assoc_set kv.1 kv.2 out) out kvs))
    as Hgen by (apply Hgen; constructor).
  intros kvs. induction kvs as [|[k v] kvs IH]; intros out Hout; [done|]. cbn [foldl fst snd]. apply IH.
  destruct (str_in (to_lower_case k) FORBIDDEN_HEADERS) eqn:Hk; [done|]. apply str_in_not_elem in Hk.
  clear IH. induction Hout as [|[k' v'] out Hp Hout IH]; simpl; [by repeat constructor|].
  destruct (String.eqb_spec k k'); constructor; subst; done.
Qed.

Lemma read_chunks_bound cap total acc chunks broken bytes :
  total = Z.of_nat (length acc) -> read_chunks cap total acc chunks broken = Ok bytes ->
  bytes = acc ++ concat chunks /\ (chunks <> [] -> Z.of_nat (length bytes) <= cap) /\ broken = None.
Proof.
  revert total acc. induction chunks as [|c chunks IH]; intros total acc Ht Hr; simpl in Hr.
  - destruct broken; [done|]. injection Hr as <-. by rewrite app_nil_r.
  - destruct (Z.ltb_spec cap (total + Z.of_nat (length c))) as [|Hc]; [done|].
    destruct (IH (total + Z.of_nat (length c)) (acc ++ c)) as (-> & Hb & ->); [rewrite length_app; lia | done|].
    rewrite <- !app_assoc. split; [done|]. split; [|done]. intros _. cbn [concat].
    destruct chunks as [|c' chunks]; [simpl; rewrite app_nil_r, length_app; lia|]. rewrite app_assoc. by apply Hb.
Qed.

Lemma clamp_bound fallback most v : 0 <= fallback <= most -> cap_floor (clamp fallback most v) <= most.
Proof.
  intros Hf. unfold clamp. destruct v; try (simpl; lia). destruct (num_is_finite n) eqn:Hfin; [|simpl; lia].
  destruct (num_ltb (NInt 0) n); [|simpl; lia]. cbn [andb]. unfold num_min.
  destruct n as [z|q| |]; try done; destruct (num_leb _ (NInt most)) eqn:Hle; try (simpl; lia).
  - simpl in *. lia.
  - simpl in Hle. apply Qle_bool_iff in Hle. unfold Qle in Hle. simpl in Hle. simpl.
    apply Z.div_le_upper_bound; lia.
Qed.

Lemma prepare_ok `{!UrlParser, !NumberText} input deps rq pin timeoutMs bodyCap :
  prepare input deps = Ok (rq, pin, timeoutMs, bodyCap) ->
  resolveSsrfSafe (rq_url rq) (dep_resolver deps) = Ok pin /\
  rq_dispatcher rq = (match dep_dispatcherFactory deps with Some _ => Some (pt_address pin, pt_family pin) | None => None end) /\
  Forall (fun kv => to_lower_case kv.1 ∉ FORBIDDEN_HEADERS) (rq_headers rq) /\ rq_redirect rq = "manual" /\ cap_floor bodyCap <= MAX_BODY_CAP.
Proof.
  unfold prepare. intros (u & _ & Hr)%result_bind_ok. apply result_bind_ok in Hr as (u1 & _ & Hr).
  apply result_bind_ok in Hr as (m & _ & Hr). apply result_bind_ok in Hr as (p & Hp & Hr). apply map_err_ok in Hp.
  apply result_bind_ok in Hr as (d & Hd & [= <- <- <- <-]). split_and!; [done | | apply sanitizeHeaders_clean | done |].
  - destruct (dep_dispatcherFactory deps); [|by injection Hd as <-]. by apply result_bind_ok in Hd as (v & _ & [= <-]).
  - apply clamp_bound. unfold DEFAULT_BODY_CAP, MAX_BODY_CAP. lia.
Qed.

(** C38: the activity makes at most one request; it is made only after the guard
    accepted the target, goes to the pinned address exactly when a dispatcher
    factory was injected (without one the client resolves the name again),
    carries none of the forbidden headers, asks that no redirect be followed, and
    its answer is returned only when
    its bytes are within ten megabytes. *)
Theorem httpRequest_contained `{!UrlParser, !NumberText} (utf8 : list Byte.byte -> string) (input : jsval) (deps : http_deps) :
  let '(outcome, calls) := httpRequest utf8 input deps in
  (length calls <= 1)%nat /\
  (forall rq, rq ∈ calls -> exists pin, resolveSsrfSafe (rq_url rq) (dep_resolver deps) = Ok pin /\
     rq_dispatcher rq = (match dep_dispatcherFactory deps with Some _ => Some (pt_address pin, pt_family pin) | None => None end) /\
     Forall (fun kv => to_lower_case kv.1 ∉ FORBIDDEN_HEADERS) (rq_headers rq) /\ rq_redirect rq = "manual") /\
  (forall out, outcome = Ok out -> exists rq t res, calls = [rq] /\ dep_http deps rq t = Ok res /\
     ho_httpStatus out = rs_status res /\ ho_body out = utf8 (concat (rs_chunks res)) /\
     Z.of_nat (length (concat (rs_chunks res))) <= MAX_BODY_CAP).
Proof.
  unfold httpRequest. destruct (prepare input deps) as [[[[rq pin] timeoutMs] bodyCap]|e] eqn:Hp.
  - destruct (prepare_ok _ _ _ _ _ _ Hp) as (Hg & Hd & Hh & Hm & Hcap). split_and!; [simpl; lia | |].
    + intros rq' ->%list_elem_of_singleton. by exists pin.
    + intros out (res & Hc & Hr)%result_bind_ok. apply map_err_ok in Hc. apply result_bind_ok in Hr as (body & Hb & Hr).
      apply map_err_ok in Hb. apply result_bind_ok in Hr as (u & _ & [= <-]). exists rq, (cap_floor timeoutMs), res.
      unfold readCappedBody in Hb. destruct (_ && _); [done|].
      destruct (read_chunks _ _ _ _ _) as [bytes|] eqn:Hread; [|done]. injection Hb as <-.
      apply read_chunks_bound in Hread as (-> & Hlen & _); [|done]. split_and!; [done..|].
      destruct (rs_chunks res); [unfold MAX_BODY_CAP; simpl; lia|]. specialize (Hlen ltac:(done)). simpl in *. lia.
  - split_and!; [simpl; lia | by intros ? ?%elem_of_nil | done].
Qed.

Definition sample_deps : http_deps :=
  mk_http_deps (fun _ _ => Ok (mk_http_response 200 None [] [[Byte.x6f; Byte.x6b]] None))
    (fun _ => Ok (Some [AddressEntry "203.0.113.7" (Some 4)])) (Some (fun _ _ => Ok tt)).
Definition sample_input : jsval :=
  JObj [("params", JObj [("url", JStr "https://hooks.example.com/x"); ("headers", JObj [("Cookie", JStr "a"); ("X-Trace", JStr "1")])])].

Lemma httpRequest_contained_witness :
  let fraction : NumberText := {| fraction_text := fun _ => "0.5" |} in
  let '(outcome, calls) := @httpRequest sample_url fraction String.string_of_list_byte sample_input sample_deps in
  outcome = Ok (mk_http_output 200 "ok" []) /\
  (forall rq, rq ∈ calls -> exists pin, @resolveSsrfSafe sample_url (rq_url rq) (dep_resolver sample_deps) = Ok pin /\
     rq_dispatcher rq = Some (pt_address pin, pt_family pin)).
Proof.
  intros fraction. pose proof (@httpRequest_contained sample_url fraction String.string_of_list_byte sample_input sample_deps) as Hc.
  destruct (httpRequest _ _ _) as [outcome calls] eqn:Hr. destruct Hc as (_ & Hcalls & _). split.
  - vm_compute in Hr. by injection Hr as <- _.
  - intros rq Hrq. destruct (Hcalls rq Hrq) as (pin & Hpin & Hd & _). by exists pin.
Defined.
