(* ===== verification/WebhookKeys.v ===== *)
(** * The signing keys of webhooks

    webhook-engine's [src/webhook-master-key.mjs] and [src/webhook-signing.mjs].
    SHA-256, HMAC, AES-GCM and random bytes are [node:crypto]'s and parameters;
    base64url is written out.  The two symbols that mark a context are the fields
    [kx_context] and [kx_verified].  The theorems follow the definitions. *)
From S2P Require Import Prelude JsValue Regex Net SsrfProofs SsrfIpv6.
From Stdlib Require Import Ascii.
Local Open Scope Z_scope.

(** ** Base64url *)

Definition b64_char (n : Z) : ascii :=
  ascii_of_N (Z.to_N (if n <? 26 then 65 + n else if n <? 52 then 71 + n else if n <? 62 then n - 4 else if n =? 62 then 45 else 95)).
Definition b64_val (c : ascii) : Z :=
  let n := Z.of_N (code c) in
  if is_upper c then n - 65 else if is_lower c then n - 71 else if is_digit c then n + 4
  else if n =? 45 then 62 else 63.

(** [Buffer.from(bytes).toString('base64url')]: no padding. *)
Fixpoint b64_encode (l : list Z) : list ascii :=
  match l with
  | a :: b :: c :: r =>
      b64_char (a / 4) :: b64_char (a mod 4 * 16 + b / 16) :: b64_char (b mod 16 * 4 + c / 64) :: b64_char (c mod 64) :: b64_encode r
  | [a; b] => [b64_char (a / 4); b64_char (a mod 4 * 16 + b / 16); b64_char (b mod 16 * 4)]
  | [a] => [b64_char (a / 4); b64_char (a mod 4 * 16)]
  | [] => []
  end.

(** [Buffer.from(s, 'base64url')] on characters of the alphabet: the bits that do
    not fill a byte are dropped. *)
Fixpoint b64_decode (l : list ascii) : list Z :=
  match l with
  | w :: x :: y :: z :: r =>
      (b64_val w * 4 + b64_val x / 16) :: (b64_val x mod 16 * 16 + b64_val y / 4) :: (b64_val y mod 4 * 64 + b64_val z) :: b64_decode r
  | [w; x; y] => [b64_val w * 4 + b64_val x / 16; b64_val x mod 16 * 16 + b64_val y / 4]
  | [w; x] => [b64_val w * 4 + b64_val x / 16]
  | _ => []
  end.

Definition canonicalBase64Url (bytes : list Z) : string := of_chars (b64_encode bytes).

(** ** Key identities and contexts *)

Definition key_error (code message : string) : js_error := coded code message.
Definition KEY_MISSING := key_error "WEBHOOK_KEY_MISSING" "Webhook signing key is required".
Definition KEY_FORMAT_INVALID := key_error "WEBHOOK_KEY_FORMAT_INVALID" "Webhook signing key format is invalid".
Definition KEY_ID_INVALID := key_error "WEBHOOK_KEY_ID_INVALID" "Webhook signing key identity is invalid".
Definition KEY_MODE_INVALID := key_error "WEBHOOK_KEY_MODE_INVALID" "Webhook signing key mode is invalid".
Definition KEY_LEGACY_NOT_AUTHORIZED := key_error "WEBHOOK_KEY_LEGACY_NOT_AUTHORIZED" "Legacy webhook signing key use is not authorized".
Definition KEY_CONTEXT_INVALID := key_error "WEBHOOK_KEY_CONTEXT_INVALID" "Webhook signing key context is invalid".
Definition KEY_CONTEXT_NOT_VERIFIED := key_error "WEBHOOK_KEY_CONTEXT_NOT_VERIFIED" "Webhook signing key context is not lifecycle verified".

Record key_context := mk_key_context {
  kx_keyId : string;
  kx_mode : string;
  kx_keyBytes : list Z;
  kx_context : bool;
  kx_verified : bool
}.

Record lifecycle_state := mk_lifecycle_state {
  lc_lifecycle_state : string;
  lc_current_key_id : string;
  lc_current_mode : string
}.

(** What [node:crypto] gives: digests over bytes and text, in hexadecimal where
    the code asks for it. *)
Class Crypto := {
  sha256_hex : string -> string;
  sha256_bytes : list Z -> list Z;
  hmac_sha256_hex : string -> string -> string;
  aes_encrypt : list Z -> N -> string -> string * string;
  aes_decrypt : list Z -> string -> string -> result js_error string;
  random_hex32 : N -> string
}.

(** [/^wk1:[a-f0-9]{64}$/] and [/^v1:([A-Za-z0-9_-]{43})$/] *)
Definition hex_lower (c : ascii) : bool := is_digit c || ((97 <=? code c) && (code c <=? 102))%N.
Definition KEY_ID_RE : re := RSeq (rlit "wk1:") (rtimes 64 (RCls hex_lower)).
Definition b64_class (c : ascii) : bool := is_word c || Ascii.eqb c "-".
Definition CANONICAL_RE : re := RSeq (rlit "v1:") (rtimes 43 (RCls b64_class)).

Section keys.
Context `{!Crypto}.

Definition deriveWebhookKeyId (namespace secretName secretKey : string) : result js_error string :=
  let parts := [namespace; secretName; secretKey] in
  throw_if (existsb (fun v => negb (nonempty v) || includes "/" v) parts) KEY_ID_INVALID ≫= fun _ =>
  Ok ("wk1:" +:+ sha256_hex (JsValue.join "/" parts)).

Definition assertWebhookKeyId (keyId : string) : result js_error string :=
  throw_if (negb (re_test_full KEY_ID_RE keyId)) KEY_ID_INVALID ≫= fun _ => Ok keyId.

(** Material that is not a string counts as missing. *)
Definition parseCanonicalWebhookKey (material : option string) : result js_error (list Z) :=
  throw_if (negb (truthy_str material)) KEY_MISSING ≫= fun _ =>
  let m := default "" material in
  throw_if (negb (re_test_full CANONICAL_RE m)) KEY_FORMAT_INVALID ≫= fun _ =>
  let text := of_chars (drop 3 (chars m)) in
  let bytes := b64_decode (chars text) in
  throw_if (negb (Nat.eqb (length bytes) 32) || negb (String.eqb (canonicalBase64Url bytes) text)) KEY_FORMAT_INVALID ≫= fun _ =>
  Ok bytes.

(** [Buffer.from(material, 'utf8')]: a code unit above 127 takes two bytes. *)
Definition utf8_bytes (s : string) : list Z :=
  flat_map (fun c => let n := Z.of_N (code c) in if n <? 128 then [n] else [192 + n / 64; 128 + n mod 64]) (chars s).

Definition parseLegacyWebhookKey (material : option string) (authorization : string) : result js_error (list Z) :=
  throw_if (negb (str_in authorization ["adopt"; "recover"; "established-legacy-serving"])) KEY_LEGACY_NOT_AUTHORIZED ≫= fun _ =>
  throw_if (negb (truthy_str material)) KEY_MISSING ≫= fun _ =>
  let raw := utf8_bytes (default "" material) in
  Ok (if Nat.eqb (length raw) 32 then raw else sha256_bytes raw).

Definition makeContext (keyBytes : list Z) (keyId mode : string) (lifecycleVerified : bool) : result js_error key_context :=
  throw_if (negb (Nat.eqb (length keyBytes) 32)) KEY_CONTEXT_INVALID ≫= fun _ =>
  assertWebhookKeyId keyId ≫= fun keyId =>
  Ok (mk_key_context keyId mode keyBytes true lifecycleVerified).

Definition createCanonicalWebhookKeyContext (material : option string) (keyId : string) : result js_error key_context :=
  parseCanonicalWebhookKey material ≫= fun bytes => makeContext bytes keyId "canonical-v1" false.

Definition createLifecycleWebhookKeyContext (material : option string) (keyId mode purpose : string) : result js_error key_context :=
  if String.eqb mode "canonical-v1" then createCanonicalWebhookKeyContext material keyId
  else
    throw_if (negb (String.eqb mode "legacy")) KEY_MODE_INVALID ≫= fun _ =>
    parseLegacyWebhookKey material purpose ≫= fun bytes => makeContext bytes keyId "legacy" false.

Definition lifecycle_established (keyId mode : string) (state : option lifecycle_state) : bool :=
  match state with
  | Some s => String.eqb (lc_lifecycle_state s) "serving" && String.eqb (lc_current_key_id s) keyId && String.eqb (lc_current_mode s) mode
  | None => false
  end.

Definition createRuntimeWebhookKeyContext (material : option string) (keyId mode : string) (state : option lifecycle_state)
    : result js_error key_context :=
  throw_if (negb (str_in mode ["canonical-v1"; "legacy"])) KEY_MODE_INVALID ≫= fun _ =>
  throw_if (negb (lifecycle_established keyId mode state))
    (if String.eqb mode "legacy" then KEY_LEGACY_NOT_AUTHORIZED else KEY_CONTEXT_NOT_VERIFIED) ≫= fun _ =>
  if String.eqb mode "canonical-v1"
  then parseCanonicalWebhookKey material ≫= fun bytes => makeContext bytes keyId mode true
  else parseLegacyWebhookKey material "established-legacy-serving" ≫= fun bytes => makeContext bytes keyId "legacy" true.

Definition assertWebhookKeyContext (context : option key_context) : result js_error key_context :=
  match context with
  | None => Err KEY_CONTEXT_INVALID
  | Some c =>
      throw_if (negb (kx_context c) || negb (Nat.eqb (length (kx_keyBytes c)) 32) || negb (re_test_full KEY_ID_RE (kx_keyId c))
                || negb (str_in (kx_mode c) ["canonical-v1"; "legacy"])) KEY_CONTEXT_INVALID ≫= fun _ => Ok c
  end.

Definition assertLifecycleVerifiedWebhookKeyContext (context : option key_context) : result js_error key_context :=
  assertWebhookKeyContext context ≫= fun c => throw_if (negb (kx_verified c)) KEY_CONTEXT_NOT_VERIFIED ≫= fun _ => Ok c.

Definition formatCanonicalWebhookKey (bytes : list Z) : result js_error string :=
  throw_if (negb (Nat.eqb (length bytes) 32)) KEY_FORMAT_INVALID ≫= fun _ => Ok ("v1:" +:+ canonicalBase64Url bytes).

(** ** Secrets and signatures *)

(** [encryptSecret]: the [n]-th initialisation vector of the process. *)
Definition encryptSecret (plaintext : string) (n : N) (context : option key_context) : result js_error (string * string) :=
  assertWebhookKeyContext context ≫= fun c => Ok (aes_encrypt (kx_keyBytes c) n plaintext).
Definition decryptSecret (cipher iv : string) (context : option key_context) : result js_error string :=
  assertWebhookKeyContext context ≫= fun c => aes_decrypt (kx_keyBytes c) cipher iv.

Definition computeSignature (rawBody secret : string) : string := "sha256=" +:+ hmac_sha256_hex secret rawBody.
(** [timingSafeEqual] of buffers of one length is equality. *)
Definition verifySignature (rawBody secret header : string) : bool := String.eqb (computeSignature rawBody secret) header.

Record secret_record := mk_secret_record {
  sc_status : string; sc_grace_expires_at : option Z; sc_encryption_key_id : string;
  sc_cipher : string; sc_iv : string; sc_secret : string
}.

Definition verifyAgainstSecretSet (rawBody signatureHeader : string) (records : list secret_record) (now : Z) : bool :=
  existsb (fun r =>
    if String.eqb (sc_status r) "revoked" then false
    else if String.eqb (sc_status r) "grace" && match sc_grace_expires_at r with Some e => e <? now | None => false end then false
    else verifySignature rawBody (sc_secret r) signatureHeader) records.

End keys.

(** * What a signing key goes through

    Canonical key texts and keys of 32 bytes correspond; an identity names its
    Kubernetes reference; a verified context comes only from an established
    serving state. *)

Definition sextet (n : Z) : Prop := 0 <= n < 64.

Lemma sextet_facts n : sextet n -> b64_val (b64_char n) = n /\ b64_class (b64_char n) = true.
Proof.
  intros Hn. assert (Hall : forallb (fun n => (b64_val (b64_char n) =? n) && b64_class (b64_char n)) (z_range 0 64) = true)
    by (vm_compute; reflexivity).
  rewrite forallb_forall in Hall. specialize (Hall n). rewrite andb_true_iff, Z.eqb_eq in Hall.
  apply Hall, z_range_elem. unfold sextet in Hn. lia.
Qed.

Lemma b64_val_char n : sextet n -> b64_val (b64_char n) = n.
Proof. apply sextet_facts. Qed.

Ltac sextet_tac := unfold sextet, byte in *; Z.to_euclidean_division_equations; lia.

Lemma list_ind3 {A} (P : list A -> Prop) :
  P [] -> (forall a, P [a]) -> (forall a b, P [a; b]) -> (forall a b c l, P l -> P (a :: b :: c :: l)) -> forall l, P l.
Proof.
  intros H0 H1 H2 H3 l. enough (P l /\ (forall a, P (a :: l)) /\ (forall a b, P (a :: b :: l))) by tauto.
  induction l as [|x l (IH1 & IH2 & IH3)]; [done|]. split_and!; auto.
Qed.

Lemma b64_roundtrip l : Forall byte l -> b64_decode (b64_encode l) = l.
Proof.
  induction l as [|a|a b|a b c l IH] using list_ind3; rewrite ?Forall_cons; intros Hl; cbn [b64_encode b64_decode]; [done| | |].
  - destruct Hl as (Ha & _). rewrite !b64_val_char by sextet_tac. f_equal. sextet_tac.
  - destruct Hl as (Ha & Hb & _). rewrite !b64_val_char by sextet_tac. f_equal; [sextet_tac | f_equal; sextet_tac].
  - destruct Hl as (Ha & Hb & Hc & Hl). rewrite !b64_val_char by sextet_tac.
    rewrite IH by done. f_equal; [sextet_tac | f_equal; [sextet_tac | f_equal; sextet_tac]].
Qed.

Lemma b64_encode_class l : Forall byte l -> Forall (fun c => b64_class c = true) (b64_encode l).
Proof.
  induction l as [|a|a b|a b c l IH] using list_ind3; rewrite ?Forall_cons; intros Hl; cbn [b64_encode]; [constructor| | |];
    destruct_and!; repeat constructor; try (apply sextet_facts; sextet_tac). by apply IH.
Qed.

Lemma b64_encode_length l :
  length (b64_encode l) = (4 * (length l / 3) + match length l mod 3 with 0 => 0 | m => m + 1 end)%nat.
Proof.
  induction l as [|a|a b|a b c l IH] using list_ind3; try done. cbn [b64_encode length]. rewrite IH.
  replace (S (S (S (length l)))) with (length l + 1 * 3)%nat by lia. rewrite Nat.div_add, Nat.Div0.mod_add by done. lia.
Qed.

(** Canonical key texts and keys of 32 bytes correspond: formatting a key and
    parsing the text gives the key back, and a text that parses is the one its
    key is formatted as. *)
Theorem canonical_key_roundtrip (bytes : list Z) (material : string) :
  Forall byte bytes ->
  (formatCanonicalWebhookKey bytes = Ok material ->
   parseCanonicalWebhookKey (Some material) = Ok bytes) /\
  (parseCanonicalWebhookKey (Some material) = Ok bytes -> formatCanonicalWebhookKey bytes = Ok material).
Proof.
  intros Hb. split.
  - intros (u & Hlen & [= <-])%result_bind_ok. apply throw_if_ok, negb_false_iff, Nat.eqb_eq in Hlen.
    unfold parseCanonicalWebhookKey. change (truthy_str (Some ("v1:" +:+ canonicalBase64Url bytes))) with true.
    cbn [negb throw_if mbind result_bind default from_option id]. cbv zeta.
    assert (Hre : re_test_full CANONICAL_RE ("v1:" +:+ canonicalBase64Url bytes) = true).
    { unfold re_test_full. apply re_full_lang. unfold canonicalBase64Url. rewrite chars_app, chars_of_chars. constructor.
      - apply re_full_lang. vm_compute. reflexivity.
      - apply rtimes_cls; [rewrite b64_encode_length, Hlen; reflexivity | by apply b64_encode_class]. }
    rewrite Hre. cbn [negb throw_if mbind result_bind].
    assert (Htext : drop 3 (chars ("v1:" +:+ canonicalBase64Url bytes)) = b64_encode bytes).
    { unfold canonicalBase64Url. rewrite chars_app, chars_of_chars. done. }
    rewrite Htext, chars_of_chars, b64_roundtrip, Hlen by done. unfold canonicalBase64Url. by rewrite String.eqb_refl.
  - unfold parseCanonicalWebhookKey. change (default "" (Some material)) with material. intros (u & _ & Hp)%result_bind_ok.
    apply result_bind_ok in Hp as (u' & Hre & Hp). apply throw_if_ok, negb_false_iff, re_full_lang in Hre.
    apply result_bind_ok in Hp as (u'' & Hc & [= <-]). apply throw_if_ok, orb_false_iff in Hc as [Hlen Heq].
    apply negb_false_iff in Hlen, Heq. apply String.eqb_eq in Heq. unfold formatCanonicalWebhookKey.
    rewrite Hlen. cbn [negb throw_if mbind result_bind]. rewrite Heq. f_equal.
    unfold CANONICAL_RE in Hre. apply lang_seq_inv in Hre as (l1 & l2 & Hm & Hl1 & _).
    assert (Hv1 : l1 = chars "v1:") by (by apply rlit_lang). subst l1.
    rewrite Hm. change (drop 3 (chars "v1:" ++ l2)) with l2.
    by rewrite <- (of_chars_chars material), Hm.
Qed.

Definition sample_key : list Z := z_range 0 32.

Lemma canonical_key_roundtrip_witness :
  parseCanonicalWebhookKey (Some ("v1:" +:+ canonicalBase64Url sample_key)) = Ok sample_key.
Proof.
  apply (canonical_key_roundtrip sample_key ("v1:" +:+ canonicalBase64Url sample_key)).
  - rewrite Forall_forall. intros n Hn. unfold byte, sample_key in *. simpl in Hn.
    repeat (apply elem_of_cons in Hn as [->|Hn]; [lia|]). by apply elem_of_nil in Hn.
  - reflexivity.
Defined.

Lemma makeContext_ok keyBytes keyId mode v c :
  makeContext keyBytes keyId mode v = Ok c ->
  c = mk_key_context keyId mode keyBytes true v /\ length keyBytes = 32%nat /\ re_test_full KEY_ID_RE keyId = true.
Proof.
  unfold makeContext, assertWebhookKeyId. intros (u & Hl & Hr)%result_bind_ok. apply throw_if_ok, negb_false_iff, Nat.eqb_eq in Hl.
  apply result_bind_ok in Hr as (k & Hk & [= <-]). apply result_bind_ok in Hk as (u' & Hid & [= ->]).
  apply throw_if_ok, negb_false_iff in Hid. done.
Qed.

Lemma verified_context_accepted keyBytes keyId mode :
  length keyBytes = 32%nat -> re_test_full KEY_ID_RE keyId = true -> str_in mode ["canonical-v1"; "legacy"] = true ->
  assertLifecycleVerifiedWebhookKeyContext (Some (mk_key_context keyId mode keyBytes true true))
  = Ok (mk_key_context keyId mode keyBytes true true).
Proof.
  intros Hl Hid Hm. unfold assertLifecycleVerifiedWebhookKeyContext, assertWebhookKeyContext.
  cbn [kx_context kx_keyBytes kx_keyId kx_mode]. by rewrite Hl, Hid, Hm.
Qed.

(** A context that signing accepts comes only from an established state: the
    runtime constructor gives one exactly for the identity and mode the database
    serves, and what it gives passes the check; the contexts of the lifecycle
    tooling never pass it. *)
Theorem verified_context_origin `{!Crypto} (material : option string) (keyId mode purpose : string)
    (state : option lifecycle_state) (c : key_context) :
  (createRuntimeWebhookKeyContext material keyId mode state = Ok c ->
   state = Some (mk_lifecycle_state "serving" keyId mode) /\ kx_keyId c = keyId /\ kx_mode c = mode /\
   assertLifecycleVerifiedWebhookKeyContext (Some c) = Ok c) /\
  (createLifecycleWebhookKeyContext material keyId mode purpose = Ok c ->
   assertLifecycleVerifiedWebhookKeyContext (Some c) = Err KEY_CONTEXT_NOT_VERIFIED).
Proof.
  split.
  - unfold createRuntimeWebhookKeyContext. intros (u & Hm & Hr)%result_bind_ok. apply throw_if_ok, negb_false_iff in Hm.
    apply result_bind_ok in Hr as (u' & He & Hr). apply throw_if_ok, negb_false_iff in He.
    assert (Hst : state = Some (mk_lifecycle_state "serving" keyId mode)).
    { destruct state as [[st k m]|]; [|done]. unfold lifecycle_established in He. cbn in He.
      rewrite !andb_true_iff, !String.eqb_eq in He. destruct He as [[-> ->] ->]. done. }
    destruct (String.eqb_spec mode "canonical-v1") as [->|Hne].
    + apply result_bind_ok in Hr as (b & _ & Hr). apply makeContext_ok in Hr as (-> & Hl & Hid). split_and!; [done..|].
      by apply verified_context_accepted.
    + assert (mode = "legacy") as -> by (apply str_in_elem in Hm; set_solver).
      apply result_bind_ok in Hr as (b & _ & Hr). apply makeContext_ok in Hr as (-> & Hl & Hid). split_and!; [done..|].
      by apply verified_context_accepted.
  - intros Hc. assert (Hform : exists b m, str_in m ["canonical-v1"; "legacy"] = true /\ c = mk_key_context keyId m b true false /\
      length b = 32%nat /\ re_test_full KEY_ID_RE keyId = true).
    { unfold createLifecycleWebhookKeyContext, createCanonicalWebhookKeyContext in Hc. destruct (String.eqb mode "canonical-v1").
      - apply result_bind_ok in Hc as (b & _ & Hc). apply makeContext_ok in Hc as (-> & Hl & Hid). by exists b, "canonical-v1".
      - apply result_bind_ok in Hc as (u & _ & Hc). apply result_bind_ok in Hc as (b & _ & Hc).
        apply makeContext_ok in Hc as (-> & Hl & Hid). by exists b, "legacy". }
    destruct Hform as (b & m & Hm & -> & Hl & Hid). unfold assertLifecycleVerifiedWebhookKeyContext, assertWebhookKeyContext.
    cbn [kx_context kx_keyBytes kx_keyId kx_mode]. by rewrite Hl, Hid, Hm.
Qed.

Definition sample_crypto : Crypto :=
  {| sha256_hex := fun s => s; sha256_bytes := fun _ => sample_key; hmac_sha256_hex := fun k b => k +:+ ":" +:+ b;
     aes_encrypt := fun _ _ s => (s, "iv"); aes_decrypt := fun _ s _ => Ok s; random_hex32 := fun n => "secret-" +:+ show_N n |}.
Definition sample_key_id : string := "wk1:" +:+ of_chars (replicate 64 "a"%char).
Definition sample_context : key_context := mk_key_context sample_key_id "legacy" sample_key true true.

Lemma verified_context_origin_witness :
  assertLifecycleVerifiedWebhookKeyContext (Some sample_context) = Ok sample_context.
Proof.
  apply (proj1 (@verified_context_origin sample_crypto (Some "old secret") sample_key_id "legacy" "adopt"
    (Some (mk_lifecycle_state "serving" sample_key_id "legacy")) sample_context)). vm_compute. reflexivity.
Defined.

(** An identity names one reference: the parts hold no separator. *)
Lemma deriveWebhookKeyId_injective `{!Crypto} (a b c a' b' c' k : string) :
  (forall s s', sha256_hex s = sha256_hex s' -> s = s') ->
  deriveWebhookKeyId a b c = Ok k -> deriveWebhookKeyId a' b' c' = Ok k -> (a, b, c) = (a', b', c').
Proof.
  intros Hinj (u & H1 & [= <-])%result_bind_ok (u' & H2 & [= Heq])%result_bind_ok. apply throw_if_ok in H1, H2.
  assert (Hfree : forall xs, existsb (fun v => negb (nonempty v) || includes "/" v) xs = false ->
    Forall (fun x => free_of "/" (chars x) = true) xs).
  { intros xs Hx. rewrite Forall_forall. intros x Hel. pose proof (existsb_exists (fun v => negb (nonempty v) || includes "/" v) xs) as He.
    apply negb_true_iff, not_true_iff_false. intros Ht. rewrite Hx in He. assert (false = true); [|done]. apply He.
    exists x. split; [by apply list_elem_of_In|]. apply orb_true_iff. right. apply existsb_exists in Ht as (d & Hd & <-%Ascii.eqb_eq).
    apply list_elem_of_In, list_elem_of_split in Hd as (l1 & l2 & Hd). unfold includes. rewrite Hd. apply includes_app. }
  apply Hinj in Heq. pose proof (split_join "/" [a; b; c] ltac:(done) (Hfree _ H1)) as Hs.
  pose proof (split_join "/" [a'; b'; c'] ltac:(done) (Hfree _ H2)) as Hs'.
  change (of_chars ["/"%char]) with "/" in *. change (JsValue.join "/" [a'; b'; c'] = JsValue.join "/" [a; b; c]) in Heq. rewrite Heq in Hs'. rewrite Hs in Hs'. by simplify_eq.
Qed.
