(* ===== verification/Webhook.v ===== *)
(** * Webhook deliveries

    webhook-engine's [src/webhook-delivery.mjs], [webhook-retry-policy.mjs] and
    [webhook-quota.mjs], its three delivery actions [webhook-dispatcher.mjs],
    [webhook-delivery-worker.mjs] and [webhook-retry-scheduler.mjs], and the adapter
    of apps/control-plane [webhook-runtime.mjs] that ties them into a loop.

    The store these actions call is injected and has no implementation in the
    repository: it is the class [WebhookStore] over an abstract state, and what the
    code relies on is the class [WebhookStoreLaws].  The [n]-th answer of an
    endpoint, of the resolver and of the dispatcher factory are the class
    [Endpoints].  Requests, attempts, publications and invocations are recorded in
    order. *)
From S2P Require Import Prelude JsValue Json Platform Regex Net SsrfGuard HttpActivity WebhookKeys Cron.
From Stdlib Require Import Ascii.
Local Open Scope Z_scope.

(** ** Rows *)

Record subscription := mk_subscription {
  sb_id : string;
  sb_tenant_id : string;
  sb_workspace_id : string;
  sb_target_url : string;
  sb_event_types : list string;
  sb_status : string;
  sb_consecutive_failures : Z;
  sb_max_consecutive_failures : Z;
  sb_description : jsval;
  sb_metadata : jsval;
  sb_created_by : string;
  sb_created_at : Z;
  sb_updated_at : Z;
  sb_deleted_at : option Z
}.

Record delivery := mk_delivery {
  dl_id : string;
  dl_subscription_id : string;
  dl_tenant_id : string;
  dl_workspace_id : string;
  dl_event_type : string;
  dl_event_id : string;
  dl_payload_ref : option string;
  dl_payload_size : Z;
  dl_status : string;
  dl_attempt_count : Z;
  dl_max_attempts : option jsnum;
  dl_next_attempt_at : option Z;
  dl_created_at : Z;
  dl_updated_at : Z
}.

Record attempt := mk_attempt {
  at_id : string;
  at_delivery_id : string;
  at_attempt_num : Z;
  at_attempted_at : Z;
  at_http_status : option Z;
  at_response_ms : option Z;
  at_error_detail : option string;
  at_outcome : string
}.

Record event := mk_event { ev_tenantId : string; ev_workspaceId : string; ev_eventType : string; ev_eventId : string; ev_data : jsval }.

(** The fields an update of a delivery names; an absent one is left alone. *)
Record delivery_patch := mk_delivery_patch {
  pt_status : string;
  pt_attempt_count : option Z;
  pt_next_attempt_at : option (option Z);
  pt_payload : option (option string * Z)
}.

(** ** The store *)

Class WebhookStore (D : Type) := {
  getDeliveryById : string -> D -> result js_error (option delivery);
  getSubscriptionById : string -> D -> result js_error (option subscription);
  listSecrets : string -> string -> string -> D -> result js_error (list secret_record);
  getEvent : string -> D -> result js_error (option event);
  insertAttempt : attempt -> D -> result js_error (unit * D);
  updateDelivery : string -> delivery_patch -> D -> result js_error (option delivery * D);
  incrementSubscriptionFailures : string -> D -> result js_error (option subscription * D);
  updateSubscriptionStatus : string -> string -> D -> result js_error (unit * D);
  findSubscriptionsForEvent : string -> string -> string -> D -> result js_error (list subscription);
  insertDelivery : delivery -> D -> result js_error (bool * D);
  incrementRateCounter : string -> D -> result js_error (Z * D)
}.

(** What the code relies on an update to do. *)
Definition patched (p : delivery_patch) (now : Z) (d : delivery) : delivery :=
  mk_delivery (dl_id d) (dl_subscription_id d) (dl_tenant_id d) (dl_workspace_id d) (dl_event_type d) (dl_event_id d)
    (match pt_payload p with Some (r, _) => r | None => dl_payload_ref d end)
    (match pt_payload p with Some (_, s) => s | None => dl_payload_size d end)
    (pt_status p) (default (dl_attempt_count d) (pt_attempt_count p)) (dl_max_attempts d)
    (default (dl_next_attempt_at d) (pt_next_attempt_at p)) (dl_created_at d) now.

(** The tables a delivery is made from, beside its own row. *)
Definition same_sources {D : Type} `{!WebhookStore D} (s s' : D) : Prop :=
  (forall id, getSubscriptionById id s' = getSubscriptionById id s) /\
  (forall id tenant workspace, listSecrets id tenant workspace s' = listSecrets id tenant workspace s) /\
  (forall id, getEvent id s' = getEvent id s).

(** What the code relies on: an update sets the fields its patch names, a new
    attempt leaves the deliveries alone, and neither touches subscriptions, secrets
    or events. *)
Class WebhookStoreLaws (D : Type) `{!WebhookStore D} := {
  law_id : forall id s d, getDeliveryById id s = Ok (Some d) -> dl_id d = id;
  law_update : forall id p s d o s',
    getDeliveryById id s = Ok (Some d) -> updateDelivery id p s = Ok (o, s') ->
    exists now, getDeliveryById id s' = Ok (Some (patched p now d));
  law_attempt : forall id a s u s', insertAttempt a s = Ok (u, s') -> getDeliveryById id s' = getDeliveryById id s;
  law_update_sources : forall id p s o s', updateDelivery id p s = Ok (o, s') -> same_sources s s';
  law_attempt_sources : forall a s u s', insertAttempt a s = Ok (u, s') -> same_sources s s'
}.

(** What an endpoint gives: it throws, or answers with a status and perhaps a
    Location header. *)
Inductive http_answer :=
| HttpThrew (message : string)
| HttpAnswered (status : Z) (location : option string).

Class Endpoints := {
  endpoint : N -> http_answer;
  resolution : N -> resolver_fn;
  dispatcher_factory : N -> result js_error unit;
  random_unit : N -> Q
}.

Record webhook_env := mk_webhook_env {
  we_vars : string -> option string;
  we_kafka : bool;
  we_key_context : option key_context
}.

Inductive wh_event :=
| Posted (delivery_id url pinned : string) (family : Z) (body signature : string) (attempt_num : Z)
| Attempted (a : attempt)
| Published (topic resource : string)
| Invoked (delivery_id : string) (scheduledFor : option Z).

(** The state: the store and how many questions the network was asked. *)
Record wh_state (D : Type) := mk_wh_state { wh_store : D; wh_asked : N }.
Arguments mk_wh_state {D} _ _.
Arguments wh_store {D} _.
Arguments wh_asked {D} _.

(** What a worker or the retry scheduler returns. *)
Inductive outcome :=
| Succeeded
| Blocked (reason : string)
| Scheduled (nextAttemptAt : option Z)
| Cancelled | Missing | PermanentlyFailed | AutoDisabled.

(** ** Retry policy *)

Record retry_policy := mk_retry_policy { rp_baseMs : jsnum; rp_maxMs : jsnum; rp_maxAttempts : jsnum }.

Definition number_env (vars : string -> option string) (name : string) (fallback : Z) : jsnum :=
  match vars name with Some s => to_number s | None => NInt fallback end.

Definition buildRetryPolicy (vars : string -> option string) : retry_policy :=
  mk_retry_policy (number_env vars "WEBHOOK_BASE_BACKOFF_MS" 1000) (number_env vars "WEBHOOK_MAX_BACKOFF_MS" 300000)
    (number_env vars "WEBHOOK_MAX_RETRY_ATTEMPTS" 5).

(** [computeNextDelay]; [r] is what [Math.random()] gives. *)
Definition computeNextDelay (attemptNum : Z) (policy : retry_policy) (r : Q) : option jsnum :=
  if attemptNum <=? 0 then None
  else
    let exponential := num_min (rp_maxMs policy) (num_mul (rp_baseMs policy) (NInt (2 ^ (attemptNum - 1)))) in
    let jitter := num_floor (num_mul (num_mul exponential (num_of_Q (1 # 5))) (num_of_Q r)) in
    Some (num_min (rp_maxMs policy) (num_add exponential jitter)).

Definition hasRetriesRemaining (attemptCount : Z) (maxAttempts : jsnum) : bool := num_ltb (NInt attemptCount) maxAttempts.

(** [new Date(ms).toISOString()]: the time is cut to whole milliseconds and must lie
    within a hundred million days of the epoch. *)
Definition iso_time (ms : jsnum) : result js_error Z :=
  match num_trunc ms with
  | NInt t => if Z.abs t <=? 8640000000000000 then Ok t else Err (plain_error "Invalid time value")
  | _ => Err (plain_error "Invalid time value")
  end.

(** ** Texts *)

Definition pad (width : nat) (n : Z) : string :=
  let s := show_Z n in of_chars (replicate (width - length (chars s)) "0"%char) +:+ s.

(** [toISOString()] for the years 0 to 9999. *)
Definition iso_text (ms : Z) : string :=
  let '(y, m, d) := civil_of_days (ms / 86400000) in
  pad 4 y +:+ "-" +:+ pad 2 m +:+ "-" +:+ pad 2 d +:+ "T" +:+ pad 2 (getUTCHours ms) +:+ ":" +:+ pad 2 (getUTCMinutes ms)
  +:+ ":" +:+ pad 2 (ms / 1000 mod 60) +:+ "." +:+ pad 3 (ms mod 1000) +:+ "Z".

Example iso_text_example : iso_text 1767225661042 = "2026-01-01T00:01:01.042Z".
Proof. vm_compute. reflexivity. Qed.

(** [buildPayloadEnvelope] *)
Definition buildPayloadEnvelope (d : delivery) (ev : event) (now : Z) : list (string * jsval) :=
  [("id", JStr (dl_id d)); ("timestamp", JStr (iso_text now)); ("eventType", JStr (dl_event_type d));
   ("workspaceId", JStr (dl_workspace_id d)); ("data", coalesce (ev_data ev) (JObj []))].

(** What [enforcePayloadSizeLimit] gives; the reference is drawn only when the
    payload is too large. *)
Record payload_result := mk_payload_result { pr_payload : jsval; pr_ref : option string; pr_size : Z; pr_truncated : bool }.

Definition is_terminal_status : list string := ["succeeded"; "permanently_failed"; "cancelled"].
Definition isTerminal (d : delivery) : bool := str_in (dl_status d) is_terminal_status.
Definition shouldAutoDisable (s : subscription) (threshold : jsnum) : bool := num_leb threshold (NInt (sb_consecutive_failures s)).

Section payload.
Context `{!NumberText}.

Definition payload_text (p : jsval) : string := json_text p.

Definition enforcePayloadSizeLimit (payload : list (string * jsval)) (maxBytes : jsnum) (fresh : string) : payload_result :=
  let size := byte_length (payload_text (JObj payload)) in
  if num_leb (NInt size) maxBytes then mk_payload_result (JObj payload) None size false
  else
    let data := JObj (assoc_set "_truncated" (JBool true) (object_entries (js_get (JObj payload) "data"))) in
    mk_payload_result (JObj (assoc_set "data" data payload)) (Some ("s3://webhook-payloads/" +:+ fresh)) size true.

End payload.

(** ** The actions *)

Section actions.
Context {D : Type} `{!WebhookStore D, !Platform, !Endpoints, !UrlParser, !NumberText, !Crypto} (env : webhook_env).
Local Notation wact := (M (world (wh_state D) wh_event) js_error).

(** A read and a write of the store; either may throw. *)
Definition ask_store {A} (f : D -> result js_error A) : wact A := fun w => (f (wh_store (w_db w)), w).
Definition tell_store {A} (f : D -> result js_error (A * D)) : wact A :=
  exec_db_err (fun s => '(a, d) ← f (wh_store s); Ok (a, mk_wh_state d (wh_asked s))).

(** The number of the next question to the network. *)
Definition ask_network : wact N :=
  exec_db (fun s => (wh_asked s, mk_wh_state (wh_store s) (N.succ (wh_asked s)))).

Definition emit (e : wh_event) : wact unit := fun w =>
  (Ok tt, mk_world (w_db w) (w_tick w) (w_uuids w) (w_published w) (w_events w ++ [e])).

Definition now_z : wact Z := now_ms ≫= fun n : N => mret (Z.of_N n).

(** [kafka?.publish?.(topic, event)]; building the event reads the clock, and
    without a client the arguments are not evaluated. *)
Definition kafka_publish (topic resource : string) : wact unit :=
  if we_kafka env then now_z ≫= fun _ => publish (Published topic resource) else mret tt.

(** [buildDeliveryAttemptRecord] and [db.insertAttempt] *)
Definition record_attempt (deliveryId : string) (attemptNum : Z) (outcome : string) (httpStatus responseMs : option Z)
    (errorDetail : option string) : wact unit :=
  random_uuid ≫= fun id => now_z ≫= fun now =>
  let a := mk_attempt id deliveryId attemptNum now httpStatus responseMs errorDetail outcome in
  tell_store (insertAttempt a) ≫= fun _ => emit (Attempted a).

Definition set_delivery (deliveryId status : string) (attemptNum : Z) : wact (option delivery) :=
  tell_store (updateDelivery deliveryId (mk_delivery_patch status (Some attemptNum) None None)).

(** Reading a field of [null] or [undefined]. *)
Definition present {A} (what : string) (o : option A) : wact A :=
  match o with Some a => mret a | None => throw (plain_error ("Cannot read properties of " +:+ what)) end.

(** *** webhook-retry-scheduler.mjs *)

(** [invoke] is [invoker.invokeWebhookDelivery] when there is an invoker. *)
Definition schedule_retry (invoke : option (string -> option Z -> wact unit)) (deliveryId : string) (attemptCount : Z) : wact outcome :=
  ask_store (getDeliveryById deliveryId) ≫= fun found =>
  match found with
  | None => mret Missing
  | Some d =>
      ask_store (getSubscriptionById (dl_subscription_id d)) ≫= fun sub =>
      match sub with
      | None => mret Cancelled
      | Some s =>
          if str_in (sb_status s) ["deleted"; "paused"] then mret Cancelled
          else
            let policy := buildRetryPolicy (we_vars env) in
            if hasRetriesRemaining attemptCount (default (rp_maxAttempts policy) (dl_max_attempts d)) then
              ask_network ≫= fun q =>
              match computeNextDelay attemptCount policy (random_unit q) with
              | None => mret None
              | Some delay => now_z ≫= fun now => Some <$> lift (iso_time (num_add (NInt now) delay))
              end ≫= fun nextAttemptAt =>
              tell_store (updateDelivery deliveryId (mk_delivery_patch "pending" None (Some nextAttemptAt) None)) ≫= fun _ =>
              match invoke with
              | Some f => f deliveryId nextAttemptAt
              | None => mret tt
              end ≫= fun _ =>
              mret (Scheduled nextAttemptAt)
            else
              tell_store (updateDelivery deliveryId (mk_delivery_patch "permanently_failed" None (Some None) None)) ≫= fun updated =>
              tell_store (incrementSubscriptionFailures (sb_id s)) ≫= fun counted =>
              present "undefined (reading 'tenant_id')" updated ≫= fun _ =>
              kafka_publish "console.webhook.delivery.permanently_failed" deliveryId ≫= fun _ =>
              present "undefined (reading 'consecutive_failures')" counted ≫= fun counted =>
              if shouldAutoDisable counted (number_env (we_vars env) "WEBHOOK_AUTO_DISABLE_THRESHOLD" 5) then
                tell_store (updateSubscriptionStatus (sb_id s) "disabled") ≫= fun _ =>
                kafka_publish "console.webhook.subscription.auto_disabled" (sb_id s) ≫= fun _ =>
                mret AutoDisabled
              else mret PermanentlyFailed
      end
  end.

(** *** webhook-delivery-worker.mjs *)

(** What the [try] statement ends with: a value, or the retry it returns. *)
Inductive try_end := Return (o : outcome) | Retry.

Definition blocked_target (d : delivery) (attemptNum : Z) (httpStatus responseMs : option Z) (detail reason : string) : wact outcome :=
  record_attempt (dl_id d) attemptNum "blocked" httpStatus responseMs (Some detail) ≫= fun _ =>
  set_delivery (dl_id d) "permanently_failed" attemptNum ≫= fun _ =>
  mret (Blocked reason).

Definition failed_attempt (d : delivery) (attemptNum : Z) (status responseMs : Z) : wact try_end :=
  record_attempt (dl_id d) attemptNum "failed" (Some status) (Some responseMs) None ≫= fun _ =>
  set_delivery (dl_id d) "failed" attemptNum ≫= fun _ =>
  mret Retry.

(** The answer of the endpoint, from the response on. *)
Definition handle_response (d : delivery) (pr : payload_result) (attemptNum startedAt status : Z) (location : option string) : wact try_end :=
  now_z ≫= fun now =>
  let responseMs := now - startedAt in
  if (300 <=? status) && (status <? 400) then
    match location with
    | Some l =>
        if nonempty l then
          ask_network ≫= fun q =>
          if dt_blocked (resolveDeliveryTarget l (resolution q)) then
            Return <$> blocked_target d attemptNum (Some status) (Some responseMs)
              "SSRF guard: redirect location resolved to blocked address" "ssrf_redirect_blocked"
          else failed_attempt d attemptNum status responseMs
        else failed_attempt d attemptNum status responseMs
    | None => failed_attempt d attemptNum status responseMs
    end
  else if (200 <=? status) && (status <? 300) then
    record_attempt (dl_id d) attemptNum "succeeded" (Some status) (Some responseMs) None ≫= fun _ =>
    tell_store (updateDelivery (dl_id d) (mk_delivery_patch "succeeded" (Some attemptNum) None (Some (pr_ref pr, pr_size pr)))) ≫= fun _ =>
    kafka_publish "console.webhook.delivery.succeeded" (dl_id d) ≫= fun _ =>
    mret (Return Succeeded)
  else failed_attempt d attemptNum status responseMs.

(** The call: the timestamp header reads the clock, and signing without a secret throws. *)
Definition post (d : delivery) (s : subscription) (secret : option secret_record) (pinned : string) (family : Z) (pr : payload_result)
    (attemptNum startedAt : Z) : wact try_end :=
  let rawBody := payload_text (pr_payload pr) in
  now_z ≫= fun _ =>
  present "undefined (reading 'secret')" secret ≫= fun sec =>
  emit (Posted (dl_id d) (sb_target_url s) pinned family rawBody (computeSignature rawBody (sc_secret sec)) attemptNum) ≫= fun _ =>
  ask_network ≫= fun q =>
  match endpoint q with
  | HttpThrew message => throw (plain_error message)
  | HttpAnswered status location => handle_response d pr attemptNum startedAt status location
  end.

(** [catch (caught)] *)
Definition timed_out (d : delivery) (attemptNum : Z) (caught : js_error) : wact try_end :=
  record_attempt (dl_id d) attemptNum "timed_out" None None (Some (err_message caught)) ≫= fun _ =>
  set_delivery (dl_id d) "failed" attemptNum ≫= fun _ =>
  mret Retry.

(** [revealSecretRecords] *)
Fixpoint reveal (keyContext : key_context) (rows : list secret_record) : result js_error (list secret_record) :=
  match rows with
  | [] => Ok []
  | r :: rows' =>
      throw_if (negb (String.eqb (sc_encryption_key_id r) (kx_keyId keyContext)))
        (coded "WEBHOOK_ROW_KEY_MISMATCH" "Webhook signing-secret key identity does not match the serving context") ≫= fun _ =>
      decryptSecret (sc_cipher r) (sc_iv r) (Some keyContext) ≫= fun secret =>
      reveal keyContext rows' ≫= fun rest =>
      Ok (mk_secret_record (sc_status r) (sc_grace_expires_at r) (sc_encryption_key_id r) (sc_cipher r) (sc_iv r) secret :: rest)
  end.
Definition revealSecretRecords (rows : list secret_record) (keyContext : option key_context) : result js_error (list secret_record) :=
  assertLifecycleVerifiedWebhookKeyContext keyContext ≫= fun c => reveal c rows.

Definition signing_secret (rows : list secret_record) : option secret_record :=
  match List.find (fun r => String.eqb (sc_status r) "active") rows with Some r => Some r | None => head rows end.

(** The worker up to the value it returns, or to the call of [scheduler.main] it
    returns, with the identifier and attempt number it passes. *)
Definition worker_body (deliveryId : string) : wact (outcome + string * Z) :=
  lift (assertLifecycleVerifiedWebhookKeyContext (we_key_context env)) ≫= fun _ =>
  ask_store (getDeliveryById deliveryId) ≫= fun found =>
  present "null (reading 'subscription_id')" found ≫= fun d =>
  ask_store (getSubscriptionById (dl_subscription_id d)) ≫= fun sub =>
  present "null (reading 'id')" sub ≫= fun s =>
  ask_store (listSecrets (sb_id s) (sb_tenant_id s) (sb_workspace_id s)) ≫= fun rows =>
  lift (revealSecretRecords rows (we_key_context env)) ≫= fun secrets =>
  let secret := signing_secret secrets in
  ask_store (getEvent (dl_event_id d)) ≫= fun found_event =>
  now_z ≫= fun now =>
  present "null (reading 'data')" found_event ≫= fun ev =>
  let envelope := buildPayloadEnvelope d ev now in
  let maxBytes := number_env (we_vars env) "WEBHOOK_MAX_PAYLOAD_BYTES" 524288 in
  (if num_leb (NInt (byte_length (payload_text (JObj envelope)))) maxBytes then mret "" else random_uuid) ≫= fun fresh =>
  let pr := enforcePayloadSizeLimit envelope maxBytes fresh in
  let attemptNum := dl_attempt_count d + 1 in
  ask_network ≫= fun q =>
  let resolved := resolveDeliveryTarget (sb_target_url s) (resolution q) in
  if dt_blocked resolved then
    inl <$> blocked_target d attemptNum None None "SSRF guard: target resolved to blocked address" "ssrf_blocked"
  else
    ask_network ≫= fun q' =>
    lift (dispatcher_factory q') ≫= fun _ =>
    now_z ≫= fun startedAt =>
    try_catch (post d s secret (default "" (dt_pinnedAddress resolved)) (dt_family resolved) pr attemptNum startedAt)
      (timed_out d attemptNum) ≫= fun ended =>
    mret (match ended with Return o => inl o | Retry => inr (dl_id d, attemptNum) end).

(** One run of the worker; [reschedule] is [scheduler.main].  The call in a
    [return] statement is outside the [try]: a promise it rejects is not caught. *)
Definition run_worker (reschedule : string -> Z -> wact outcome) (deliveryId : string) : wact outcome :=
  worker_body deliveryId ≫= fun ended =>
  match ended with
  | inl o => mret o
  | inr (id, attemptNum) => reschedule id attemptNum
  end.

(** *** The runtime adapter *)

Definition out_of_fuel : js_error := coded "OUT_OF_FUEL" "".

(** [adapter.invokeWebhookDelivery]: the message is checked, and the worker runs at
    once, whatever [scheduledFor] says; its scheduler invokes this adapter again. *)
Fixpoint invoke_delivery (fuel : nat) (deliveryId : string) (scheduledFor : option Z) : wact outcome :=
  match fuel with
  | O => throw out_of_fuel
  | S fuel' =>
      lift (throw_if (negb (nonempty deliveryId)) (coded "WEBHOOK_DELIVERY_MESSAGE_INVALID" "Webhook runtime is unavailable")) ≫= fun _ =>
      emit (Invoked deliveryId scheduledFor) ≫= fun _ =>
      run_worker (schedule_retry (Some (fun id at_ => invoke_delivery fuel' id at_ ≫= fun _ => mret tt))) deliveryId
  end.

(** *** webhook-dispatcher.mjs *)

(** [checkDeliveryRateLimit(...).allowed] *)
Definition rate_allowed (count : Z) (limitPerMinute : jsnum) : bool := num_leb (NInt count) limitPerMinute.

Definition buildDeliveryRecord (s : subscription) (ev : event) (maxAttempts : jsnum) : wact delivery :=
  now_z ≫= fun now => random_uuid ≫= fun id =>
  mret (mk_delivery id (sb_id s) (sb_tenant_id s) (sb_workspace_id s) (ev_eventType ev) (ev_eventId ev) None
          (byte_length (json_text (coalesce (ev_data ev) (JObj [])))) "pending" 0 (Some maxAttempts) (Some now) now now).

Definition dispatch_to (invoke : option (string -> option Z -> wact unit)) (ev : event) (queued : Z) (s : subscription) : wact Z :=
  tell_store (incrementRateCounter (sb_workspace_id s)) ≫= fun count =>
  if rate_allowed count (number_env (we_vars env) "WEBHOOK_MAX_DELIVERIES_PER_MINUTE_PER_WORKSPACE" 100) then
    buildDeliveryRecord s ev (number_env (we_vars env) "WEBHOOK_MAX_RETRY_ATTEMPTS" 5) ≫= fun d =>
    tell_store (insertDelivery d) ≫= fun inserted : bool =>
    if inserted then
      match invoke with Some f => f (dl_id d) None | None => mret tt end ≫= fun _ => mret (queued + 1)
    else mret queued
  else mret queued.

(** The number queued, or [None] when the engine is disabled. *)
Definition dispatch_event (invoke : option (string -> option Z -> wact unit)) (ev : event) : wact (option Z) :=
  if String.eqb (default "true" (we_vars env "WEBHOOK_ENGINE_ENABLED")) "true" then
    ask_store (findSubscriptionsForEvent (ev_tenantId ev) (ev_workspaceId ev) (ev_eventType ev)) ≫= fun subs =>
    Some <$> for_fold (dispatch_to invoke ev) 0 subs
  else mret None.

End actions.
