(* ===== verification/WebhookProofs.v ===== *)
(** * What a delivery does

    The history of events never influences a run; every request goes to a vetted
    address and is signed over the body it carries; a run ends, with at most as
    many requests as attempts are left; the schedule of a retry is ignored; an
    oversized payload is sent whole. *)
From S2P Require Import Prelude JsValue Json Platform Regex Net SsrfGuard HttpActivity SsrfTargets WebhookKeys Cron Webhook.
From stdpp Require Import sorting.
From Stdlib Require Import Ascii.
Local Open Scope Z_scope.

Section runs.
Context {D : Type} `{!WebhookStore D, !Platform, !Endpoints, !UrlParser, !NumberText, !Crypto} (env : webhook_env).
Local Notation wworld := (world (wh_state D) wh_event).
Local Notation wact := (M wworld js_error).

(** ** Events are only appended *)

Definition push (es : list wh_event) (w : wworld) : wworld :=
  mk_world (w_db w) (w_tick w) (w_uuids w) (w_published w) (es ++ w_events w).

(** Earlier events change neither the result nor the rest of the state. *)
Definition framed {A} (m : wact A) : Prop := forall es w, m (push es w) = (fst (m w), push es (snd (m w))).

Lemma framed_ret {A} (a : A) : framed (mret a).
Proof. done. Qed.
Lemma framed_throw {A} e : framed (throw e : wact A).
Proof. done. Qed.
Lemma framed_lift {A} (r : result js_error A) : framed (lift r).
Proof. done. Qed.

Lemma framed_bind {A B} (m : wact A) (f : A -> wact B) : framed m -> (forall a, framed (f a)) -> framed (m ≫= f).
Proof.
  intros Hm Hf es w. unfold mbind, M_bind. rewrite Hm. destruct (m w) as [[a|e] w']; [|done]. simpl. by rewrite Hf.
Qed.
Lemma framed_fmap {A B} (g : A -> B) (m : wact A) : framed m -> framed (g <$> m).
Proof. intros Hm es w. unfold fmap, M_fmap. rewrite Hm. by destruct (m w) as [[a|e] w']. Qed.
Lemma framed_try {A} (m : wact A) h : framed m -> (forall e, framed (h e)) -> framed (try_catch m h).
Proof.
  intros Hm Hh es w. unfold try_catch. rewrite Hm. destruct (m w) as [[a|e] w']; [done|]. simpl. by rewrite Hh.
Qed.

Lemma framed_now : framed now_z.
Proof. done. Qed.
Lemma framed_uuid : framed random_uuid.
Proof. done. Qed.
Lemma framed_ask {A} (f : D -> result js_error A) : framed (ask_store f).
Proof. done. Qed.
Lemma framed_tell {A} (f : D -> result js_error (A * D)) : framed (tell_store f).
Proof. intros es w. unfold tell_store, exec_db_err. simpl. by destruct (f (wh_store (w_db w))) as [[a d]|e]. Qed.
Lemma framed_network : framed ask_network.
Proof. done. Qed.
Lemma framed_emit e : framed (emit e).
Proof. intros es w. unfold emit, push. simpl. by rewrite app_assoc. Qed.
Lemma framed_publish t r : framed (kafka_publish env t r).
Proof.
  unfold kafka_publish. destruct (we_kafka env); [|apply framed_ret]. apply framed_bind; [apply framed_now|].
  intros _ es w. unfold publish. simpl. destruct (broker (w_published w)); [done|]. unfold push. simpl. by rewrite app_assoc.
Qed.
Lemma framed_present {A} s (o : option A) : framed (present s o).
Proof. by destruct o. Qed.

End runs.

#[export] Hint Resolve framed_ret framed_throw framed_lift framed_now framed_uuid framed_ask framed_tell framed_network
  framed_emit framed_publish framed_present : falcone.

Ltac framed_step :=
  match goal with
  | |- framed (_ ≫= _) => apply framed_bind; [|intros ?]
  | |- framed (_ <$> _) => apply framed_fmap
  | |- framed (try_catch _ _) => apply framed_try; [|intros ?]
  | |- framed (match ?x with _ => _ end) => destruct x eqn:?
  | |- framed (if ?x then _ else _) => destruct x eqn:?
  | |- framed _ => solve [eauto with falcone]
  end.
Ltac framed_tac := repeat framed_step.

Section more_runs.
Context {D : Type} `{!WebhookStore D, !Platform, !Endpoints, !UrlParser, !NumberText, !Crypto} (env : webhook_env).
Local Notation wworld := (world (wh_state D) wh_event).
Local Notation wact := (M wworld js_error).

Lemma framed_attempt id n o h r e : framed (record_attempt id n o h r e : wact unit).
Proof. unfold record_attempt. framed_tac. Qed.
Lemma framed_set id s n : framed (set_delivery id s n : wact _).
Proof. unfold set_delivery. framed_tac. Qed.
Local Hint Resolve framed_attempt framed_set : falcone.

Lemma framed_schedule invoke id n :
  (forall f, invoke = Some f -> forall d a, framed (f d a)) -> framed (schedule_retry env invoke id n : wact outcome).
Proof.
  intros Hi. unfold schedule_retry. framed_tac.
Qed.

Lemma framed_failed d n s r : framed (failed_attempt d n s r : wact _).
Proof. unfold failed_attempt. framed_tac. Qed.
Lemma framed_blocked d n h r x y : framed (blocked_target d n h r x y : wact _).
Proof. unfold blocked_target. framed_tac. Qed.
Local Hint Resolve framed_failed framed_blocked : falcone.

Lemma framed_post d s secret pinned family pr n t : framed (post env d s secret pinned family pr n t : wact _).
Proof. unfold post, handle_response. framed_tac. Qed.
Lemma framed_timed_out d n e : framed (timed_out d n e : wact _).
Proof. unfold timed_out. framed_tac. Qed.
Local Hint Resolve framed_post framed_timed_out : falcone.

Lemma framed_worker reschedule id :
  (forall d n, framed (reschedule d n)) -> framed (run_worker env reschedule id : wact outcome).
Proof. intros Hr. unfold run_worker, worker_body. framed_tac. Qed.

Lemma framed_invoke fuel : forall id at_, framed (invoke_delivery env fuel id at_ : wact outcome).
Proof.
  induction fuel as [|fuel IH]; intros id at_; cbn [invoke_delivery]; [apply framed_throw|].
  framed_tac. apply framed_worker. intros d n. apply framed_schedule. intros f [= <-] d' a'. framed_tac.
Qed.
End more_runs.

(** ** What is emitted *)

Section sends.
Context {D : Type} `{!WebhookStore D, !Platform, !Endpoints, !UrlParser, !NumberText, !Crypto} (env : webhook_env).
Local Notation wworld := (world (wh_state D) wh_event).
Local Notation wact := (M wworld js_error).

(** The events a program adds satisfy [P]. *)
Definition sends (P : wh_event -> Prop) {A} (m : wact A) : Prop :=
  forall w, exists es, w_events (snd (m w)) = w_events w ++ es /\ Forall P es.

Lemma sends_quiet P {A} (m : wact A) : (forall w, w_events (snd (m w)) = w_events w) -> sends P m.
Proof. intros Hq w. exists []. rewrite app_nil_r. split; [apply Hq | constructor]. Qed.

Lemma sends_bind P {A B} (m : wact A) (f : A -> wact B) : sends P m -> (forall a, sends P (f a)) -> sends P (m ≫= f).
Proof.
  intros Hm Hf w. unfold mbind, M_bind. destruct (Hm w) as (es & He & HP). destruct (m w) as [[a|e] w'] eqn:Hw; simpl in *; [|by exists es].
  destruct (Hf a w') as (es' & He' & HP'). exists (es ++ es'). rewrite He', He, app_assoc. split; [done | by apply Forall_app].
Qed.
Lemma sends_fmap P {A B} (g : A -> B) (m : wact A) : sends P m -> sends P (g <$> m).
Proof. intros Hm w. unfold fmap, M_fmap. specialize (Hm w). by destruct (m w) as [[a|e] w']. Qed.
Lemma sends_try P {A} (m : wact A) h : sends P m -> (forall e, sends P (h e)) -> sends P (try_catch m h).
Proof.
  intros Hm Hh w. unfold try_catch. destruct (Hm w) as (es & He & HP). destruct (m w) as [[a|e] w'] eqn:Hw; simpl in *; [by exists es|].
  destruct (Hh e w') as (es' & He' & HP'). exists (es ++ es'). rewrite He', He, app_assoc. split; [done | by apply Forall_app].
Qed.
Lemma sends_emit (P : wh_event -> Prop) e : P e -> sends P (emit e).
Proof. intros Hp w. exists [e]. split; [done | by repeat constructor]. Qed.
Lemma sends_tell P {A} (f : D -> result js_error (A * D)) : sends P (tell_store f).
Proof. apply sends_quiet. intros w. unfold tell_store, exec_db_err. destruct (_ ≫= _) as [[a d]|]; done. Qed.
Lemma sends_publish (P : wh_event -> Prop) t r : P (Published t r) -> sends P (kafka_publish env t r).
Proof.
  intros Hp. unfold kafka_publish. destruct (we_kafka env); [|by apply sends_quiet].
  apply sends_bind; [by apply sends_quiet|]. intros _ w. unfold publish. destruct (broker _).
  - exists []. by rewrite app_nil_r.
  - exists [Published t r]. split; [done | by repeat constructor].
Qed.
Lemma sends_present P {A} s (o : option A) : sends P (present s o).
Proof. apply sends_quiet. by destruct o. Qed.
Lemma sends_simple P :
  (forall A (a : A), sends P (mret a)) /\ (forall A e, sends P (throw e : wact A)) /\
  (forall A (r : result js_error A), sends P (lift r)) /\ sends P now_z /\ sends P random_uuid /\
  (forall A (f : D -> result js_error A), sends P (ask_store f)) /\ sends P ask_network.
Proof. split_and!; intros; by apply sends_quiet. Qed.
Lemma sends_weaken (P Q : wh_event -> Prop) {A} (m : wact A) : (forall e, P e -> Q e) -> sends P m -> sends Q m.
Proof. intros HPQ Hm w. destruct (Hm w) as (es & He & HP). exists es. split; [done | by eapply Forall_impl]. Qed.

(** The program must not post: every other event is allowed. *)
Definition no_post (e : wh_event) : Prop := match e with Posted _ _ _ _ _ _ _ => False | _ => True end.
End sends.

Ltac sends_step :=
  match goal with
  | |- sends _ (_ ≫= _) => apply sends_bind; [|intros ?]
  | |- sends _ (_ <$> _) => apply sends_fmap
  | |- sends _ (try_catch _ _) => apply sends_try; [|intros ?]
  | |- sends _ (match ?x with _ => _ end) => destruct x eqn:?
  | |- sends _ (if ?x then _ else _) => destruct x eqn:?
  | |- sends _ (emit _) => apply sends_emit; auto
  | |- sends _ (kafka_publish _ _ _) => apply sends_publish; auto
  | |- sends _ (tell_store _) => apply sends_tell
  | |- sends _ (present _ _) => apply sends_present
  | |- sends _ _ => solve [apply sends_simple | eauto with falcone]
  end.
Ltac sends_tac := repeat sends_step.

Section vetted_posts.
Context {D : Type} `{!WebhookStore D, !Platform, !Endpoints, !UrlParser, !NumberText, !Crypto} (env : webhook_env).
Local Notation wact := (M (world (wh_state D) wh_event) js_error).

(** Everything but the call itself, for any property that every other event has. *)
Section silent.
Variable P : wh_event -> Prop.
Hypothesis HP : forall e, no_post e -> P e.

Lemma P_published t r : P (Published t r).
Proof. by apply HP. Qed.
Lemma P_attempted a : P (Attempted a).
Proof. by apply HP. Qed.
Lemma P_invoked d a : P (Invoked d a).
Proof. by apply HP. Qed.
Local Hint Resolve P_published P_attempted P_invoked : core.

Lemma sends_attempt id n o h r x : sends P (record_attempt id n o h r x : wact unit).
Proof. unfold record_attempt. sends_tac. Qed.
Lemma sends_set id s n : sends P (set_delivery id s n : wact _).
Proof. unfold set_delivery. sends_tac. Qed.
Local Hint Resolve sends_attempt sends_set : falcone.
Lemma sends_failed d n s r : sends P (failed_attempt d n s r : wact _).
Proof. unfold failed_attempt. sends_tac. Qed.
Lemma sends_blocked d n h r x y : sends P (blocked_target d n h r x y : wact _).
Proof. unfold blocked_target. sends_tac. Qed.
Lemma sends_timed_out d n e : sends P (timed_out d n e : wact _).
Proof. unfold timed_out. sends_tac. Qed.
Local Hint Resolve sends_failed sends_blocked sends_timed_out : falcone.
Lemma sends_response d pr n t status location : sends P (handle_response env d pr n t status location : wact _).
Proof. unfold handle_response. sends_tac. Qed.
Local Hint Resolve sends_response : falcone.

Lemma sends_present_bind {A B} what (o : option A) (g : A -> wact B) :
  (forall a, o = Some a -> sends P (g a)) -> sends P (present what o ≫= g).
Proof. intros Hg. destruct o as [a|]; [exact (Hg a eq_refl)|]. by apply sends_quiet. Qed.

Lemma sends_post d s secret pinned family pr n t :
  (forall sec, secret = Some sec -> P (Posted (dl_id d) (sb_target_url s) pinned family (payload_text (pr_payload pr))
                    (computeSignature (payload_text (pr_payload pr)) (sc_secret sec)) n)) ->
  sends P (post env d s secret pinned family pr n t : wact _).
Proof.
  intros Hp. unfold post. sends_step; [sends_step|]. apply sends_present_bind. intros sec Hsec.
  sends_step; [|sends_tac]. by apply sends_emit, Hp.
Qed.

Lemma sends_schedule invoke id n :
  (forall f, invoke = Some f -> forall d a, sends P (f d a)) -> sends P (schedule_retry env invoke id n : wact outcome).
Proof. intros Hi. unfold schedule_retry. sends_tac. Qed.

End silent.

(** Reads and checks, one at a time: what was read is known to the rest. *)
Definition sends_at (P : wh_event -> Prop) {A} (m : wact A) (w : world (wh_state D) wh_event) : Prop :=
  exists es, w_events (snd (m w)) = w_events w ++ es /\ Forall P es.

Lemma sends_at_silent P {A} (m : wact A) w r : m w = (r, w) -> sends_at P m w.
Proof. intros Hm. exists []. rewrite Hm, app_nil_r. by split. Qed.

Lemma sends_at_ask P {A B} (f : D -> result js_error A) (g : A -> wact B) w :
  (forall a, f (wh_store (w_db w)) = Ok a -> sends_at P (g a) w) -> sends_at P (ask_store f ≫= g) w.
Proof.
  intros Hg. destruct (f (wh_store (w_db w))) as [a|e] eqn:E.
  - unfold sends_at. rewrite (M_bind_run (ask_store f) _ w a w) by (unfold ask_store; by rewrite E). by apply Hg.
  - apply (sends_at_silent _ _ _ (Err e)). unfold mbind, M_bind, ask_store. by rewrite E.
Qed.

Lemma sends_at_lift P {A B} (r : result js_error A) (g : A -> wact B) w :
  (forall a, r = Ok a -> sends_at P (g a) w) -> sends_at P (lift r ≫= g) w.
Proof. intros Hg. destruct r as [a|e]; [by apply (Hg a)|by apply (sends_at_silent _ _ _ (Err e))]. Qed.

Lemma sends_at_present P {A B} s (o : option A) (g : A -> wact B) w :
  (forall a, o = Some a -> sends_at P (g a) w) -> sends_at P (present s o ≫= g) w.
Proof. intros Hg. destruct o as [a|]; [by apply (Hg a)|by eapply sends_at_silent]. Qed.

(** ** What a request is made from *)

(** The request of delivery [id], made from the rows of the store [s0]: it goes to
    the target of the delivery's subscription, at an address vetted for the host of
    that URL, carries the envelope of the delivery's event, and is signed with the
    secret that serves the subscription. *)
Definition delivery_post (id : string) (s0 : D) (e : wh_event) : Prop :=
  match e with
  | Posted delivery_id url pinned _ body signature _ =>
      exists d sub rows secrets sec ev now fresh,
        delivery_id = id /\ getDeliveryById id s0 = Ok (Some d) /\
        getSubscriptionById (dl_subscription_id d) s0 = Ok (Some sub) /\ url = sb_target_url sub /\
        listSecrets (sb_id sub) (sb_tenant_id sub) (sb_workspace_id sub) s0 = Ok rows /\
        revealSecretRecords rows (we_key_context env) = Ok secrets /\ signing_secret secrets = Some sec /\
        signature = computeSignature body (sc_secret sec) /\
        getEvent (dl_event_id d) s0 = Ok (Some ev) /\
        body = payload_text (pr_payload (enforcePayloadSizeLimit (buildPayloadEnvelope d ev now)
                 (number_env (we_vars env) "WEBHOOK_MAX_PAYLOAD_BYTES" 524288) fresh)) /\
        exists q parsed, parse_url url = Some parsed /\
          vetted (strip_brackets (url_hostname parsed)) pinned (resolution q (strip_brackets (url_hostname parsed)))
  | _ => True
  end.

Lemma delivery_silent id s0 e : no_post e -> delivery_post id s0 e.
Proof. by destruct e. Qed.

(** The same job: the fields of a delivery that no update changes. *)
Definition same_job (d d' : delivery) : Prop :=
  dl_id d' = dl_id d /\ dl_subscription_id d' = dl_subscription_id d /\ dl_workspace_id d' = dl_workspace_id d /\
  dl_event_type d' = dl_event_type d /\ dl_event_id d' = dl_event_id d.

(** A state in which the delivery is still made from the rows of [s0]. *)
Definition sourced (id : string) (s0 : D) (s : wh_state D) : Prop :=
  same_sources s0 (wh_store s) /\
  exists d d', getDeliveryById id s0 = Ok (Some d) /\ getDeliveryById id (wh_store s) = Ok (Some d') /\ same_job d d' /\ dl_id d = id.

Lemma body_delivery_post id s0 w : sourced id s0 (w_db w) -> sends_at (delivery_post id s0) (worker_body env id) w.
Proof.
  intros ((Hsub & Hsec & Hevt) & d0 & d' & Hd0 & Hd' & (Hji & Hjs & Hjw & Hjt & Hje) & Hid). unfold worker_body.
  apply sends_at_lift. intros _ _. apply sends_at_ask. intros found Hf. rewrite Hd' in Hf. injection Hf as <-.
  apply sends_at_present. intros d [= <-]. apply sends_at_ask. intros sub Hs. apply sends_at_present. intros s ->.
  apply sends_at_ask. intros rows Hr. apply sends_at_lift. intros secrets Hrev. apply sends_at_ask. intros fe He.
  rewrite Hsub, Hjs in Hs. rewrite Hsec in Hr. rewrite Hevt, Hje in He. cbv zeta.
  match goal with |- sends_at ?P ?prog w => enough (sends P prog) as Hall by apply Hall end.
  assert (Hq : forall e, no_post e -> delivery_post id s0 e) by by intros [].
  sends_step; [sends_step|]. apply sends_present_bind. intros ev ->.
  sends_step; [sends_tac|]. sends_step; [sends_step|].
  destruct (dt_blocked _) eqn:Hb; [sends_step; by apply sends_blocked|].
  do 3 (sends_step; [sends_step|]). sends_step; [|sends_step].
  apply sends_try; [|intros ?; by apply sends_timed_out]. apply sends_post; [exact Hq|]. intros sec Hactive. cbn [delivery_post].
  destruct (resolveDeliveryTarget_vetted _ _ _ eq_refl Hb) as (parsed & x & Hp & Hx & Hv).
  rewrite Hx. cbn [default]. unfold buildPayloadEnvelope. rewrite <- Hji in Hid. rewrite Hji, Hjt, Hjw.
  do 8 eexists. split_and!; [congruence|exact Hd0|exact Hs|done|exact Hr|exact Hrev|exact Hactive|done|exact He|done|].
  by eexists _, parsed.
Qed.
End vetted_posts.

(** ** A run ends *)

Section ends.
Context {D : Type} `{!WebhookStore D, !WebhookStoreLaws D, !Platform, !Endpoints, !UrlParser, !NumberText, !Crypto}
  (env : webhook_env).
Local Notation wworld := (world (wh_state D) wh_event).
Local Notation wact := (M wworld js_error).

(** The delivery is stored with this limit, and with this count of attempts. *)
Definition limited (id : string) (m : Z) (s : wh_state D) : Prop :=
  exists d, getDeliveryById id (wh_store s) = Ok (Some d) /\ dl_max_attempts d = Some (NInt m).
Definition counted (id : string) (k m : Z) (s : wh_state D) : Prop :=
  exists d, getDeliveryById id (wh_store s) = Ok (Some d) /\ dl_max_attempts d = Some (NInt m) /\ dl_attempt_count d = k.

Lemma counted_limited id k m s : counted id k m s -> limited id m s.
Proof. intros (d & ? & ? & _). by exists d. Qed.

Lemma tell_store_run {A} (f : D -> result js_error (A * D)) (w : wworld) :
  tell_store f w = match f (wh_store (w_db w)) with
                   | Ok (a, d) => (Ok a, set_db (mk_wh_state d (wh_asked (w_db w))) w)
                   | Err e => (Err e, w)
                   end.
Proof. unfold tell_store, exec_db_err. simpl. by destruct (f _) as [[a d]|e]. Qed.

Lemma keeps_tell (P : wh_state D -> Prop) {A} (f : D -> result js_error (A * D)) :
  (forall s q a s', P (mk_wh_state s q) -> f s = Ok (a, s') -> P (mk_wh_state s' q)) -> keeps P (tell_store f : wact A).
Proof.
  intros Hf w Hw. rewrite tell_store_run. destruct (w_db w) as [s q] eqn:Hdb. cbn [wh_store wh_asked].
  destruct (f s) as [[a d]|e] eqn:E; simpl; [by eapply Hf | by rewrite Hdb].
Qed.

Lemma keeps_quiet (P : wh_state D -> Prop) {A} (m : wact A) : (forall w, w_db (snd (m w)) = w_db w) -> keeps P m.
Proof. intros Hq w Hw. by rewrite Hq. Qed.

Lemma keeps_wh_now P : keeps P (now_z : wact Z).
Proof. by apply keeps_quiet. Qed.
Lemma keeps_emit P e : keeps P (emit e : wact unit).
Proof. by apply keeps_quiet. Qed.
Lemma keeps_ask P {A} (f : D -> result js_error A) : keeps P (ask_store f : wact A).
Proof. by apply keeps_quiet. Qed.
Lemma keeps_present P {A} s (o : option A) : keeps P (present s o : wact A).
Proof. apply keeps_quiet. by destruct o. Qed.
Lemma keeps_wh_publish P t r : keeps P (kafka_publish env t r : wact unit).
Proof.
  unfold kafka_publish. destruct (we_kafka env); [|by apply keeps_quiet]. apply keeps_bind; [apply keeps_wh_now|]. intros _.
  apply keeps_publish.
Qed.

Lemma keeps_ask_limited id m : keeps (limited id m) (ask_network : wact N).
Proof. intros w (d & Hd & Hm). by exists d. Qed.
Lemma keeps_ask_counted id k m : keeps (counted id k m) (ask_network : wact N).
Proof. intros w (d & Hd & Hm). by exists d. Qed.

Lemma keeps_attempt id i n o h r e m : keeps (limited id m) (record_attempt i n o h r e : wact unit).
Proof.
  unfold record_attempt. apply keeps_bind; [apply keeps_uuid|]. intros ?. apply keeps_bind; [apply keeps_wh_now|]. intros ?.
  apply keeps_bind; [|intros _; apply keeps_emit]. apply keeps_tell. intros s q u s' (d & Hd & Hm) Hi. exists d.
  simpl in *. by rewrite (law_attempt _ _ _ _ _ Hi).
Qed.

Lemma keeps_update id p m : keeps (limited id m) (tell_store (updateDelivery id p) : wact _).
Proof.
  apply keeps_tell. intros s q a s' (d & Hd & Hm) Hu. destruct (law_update _ _ _ _ _ _ Hd Hu) as (now & Hd').
  by exists (patched p now d).
Qed.

(** A stored attempt number is the count. *)
Lemma set_delivery_counts id st n m (w w' : wworld) o :
  limited id m (w_db w) -> set_delivery id st n w = (Ok o, w') -> counted id n m (w_db w').
Proof.
  intros (d & Hd & Hm). unfold set_delivery. rewrite tell_store_run. destruct (updateDelivery _ _ _) as [[a s']|] eqn:Hu; [|done].
  intros [= _ <-]. destruct (law_update _ _ _ _ _ _ Hd Hu) as (now & Hd'). by exists (patched (mk_delivery_patch st (Some n) None None) now d).
Qed.

Lemma keeps_run (P : wh_state D -> Prop) {A} (m : wact A) w r w' : m w = (r, w') -> keeps P m -> P (w_db w) -> P (w_db w').
Proof. intros Hm Hk Hw. specialize (Hk w Hw). by rewrite Hm in Hk. Qed.

Lemma keeps_fmap P {A B} (g : A -> B) (m : wact A) : keeps P m -> keeps P (g <$> m).
Proof. intros Hm w Hw. unfold fmap, M_fmap. specialize (Hm w Hw). by destruct (m w) as [[x|e] w']. Qed.

Local Hint Resolve keeps_wh_now keeps_emit keeps_ask keeps_present keeps_wh_publish keeps_ask_limited keeps_ask_counted
  keeps_attempt keeps_update : falcone.

Lemma keeps_set id i st n m : i = id -> keeps (limited id m) (set_delivery i st n : wact _).
Proof. intros ->. apply keeps_update. Qed.

Lemma keeps_failed id d n s r m : dl_id d = id -> keeps (limited id m) (failed_attempt d n s r : wact _).
Proof. intros Hd. unfold failed_attempt. keeps_step; [keeps_tac|]. keeps_step; [by apply keeps_set | keeps_tac]. Qed.
Lemma keeps_blocked id d n h r x y m : dl_id d = id -> keeps (limited id m) (blocked_target d n h r x y : wact _).
Proof. intros Hd. unfold blocked_target. keeps_step; [keeps_tac|]. keeps_step; [by apply keeps_set | keeps_tac]. Qed.

Lemma keeps_post id d s secret pinned family pr n t m :
  dl_id d = id -> keeps (limited id m) (post env d s secret pinned family pr n t : wact _).
Proof.
  intros Hd. unfold post, handle_response.
  repeat first [by apply keeps_failed | apply keeps_fmap; by apply keeps_blocked | keeps_step]. rewrite Hd. keeps_tac.
Qed.

(** A handler that asks for a retry has just stored its attempt number. *)
Lemma failed_counts id d n s r m (w w' : wworld) e :
  dl_id d = id -> limited id m (w_db w) -> failed_attempt d n s r w = (Ok e, w') -> counted id n m (w_db w').
Proof.
  intros <- Hl. unfold failed_attempt. intros (u & w1 & E1 & E2)%M_bind_ok. apply M_bind_ok in E2 as (o & w2 & E2 & [= _ <-]).
  eapply set_delivery_counts; [|exact E2]. pose proof (keeps_attempt (dl_id d) (dl_id d) n "failed" (Some s) (Some r) None m w Hl) as Hk.
  by rewrite E1 in Hk.
Qed.

Lemma timed_out_counts id d n x m (w w' : wworld) e :
  dl_id d = id -> limited id m (w_db w) -> timed_out d n x w = (Ok e, w') -> counted id n m (w_db w').
Proof.
  intros <- Hl. unfold timed_out. intros (u & w1 & E1 & E2)%M_bind_ok. apply M_bind_ok in E2 as (o & w2 & E2 & [= _ <-]).
  eapply set_delivery_counts; [|exact E2].
  pose proof (keeps_attempt (dl_id d) (dl_id d) n "timed_out" None None (Some (err_message x)) m w Hl) as Hk. by rewrite E1 in Hk.
Qed.

(** Where [post] asks for a retry, [failed_attempt] did. *)
Lemma post_retry_counts id d s secret pinned family pr n t m (w w' : wworld) :
  dl_id d = id -> limited id m (w_db w) -> post env d s secret pinned family pr n t w = (Ok Retry, w') -> counted id n m (w_db w').
Proof.
  intros Hd Hl. unfold post. intros (u1 & w1 & E1 & E2)%M_bind_ok. apply M_bind_ok in E2 as (sec & w2 & E2 & E3).
  apply M_bind_ok in E3 as (u2 & w3 & E3 & E4). apply M_bind_ok in E4 as (q & w4 & E4 & E5).
  assert (Hl4 : limited id m (w_db w4)).
  { apply (keeps_run _ _ _ _ _ E4 (keeps_ask_limited id m)), (keeps_run _ _ _ _ _ E3 (keeps_emit _ _)),
      (keeps_run _ _ _ _ _ E2 (keeps_present _ _ _)), (keeps_run _ _ _ _ _ E1 (keeps_wh_now _)), Hl. }
  destruct (endpoint q) as [|status location]; [done|]. unfold handle_response in E5.
  apply M_bind_ok in E5 as (now & w5 & E5 & E6). assert (Hl5 : limited id m (w_db w5)).
  { exact (keeps_run _ _ _ _ _ E5 (keeps_wh_now _) Hl4). }
  cbv zeta in E6. destruct ((300 <=? status) && (status <? 400)).
  - destruct location as [l|]; [|by eapply failed_counts]. destruct (nonempty l); [|by eapply failed_counts].
    apply M_bind_ok in E6 as (q' & w6 & E6 & E7). pose proof (keeps_run _ _ _ _ _ E6 (keeps_ask_limited id m) Hl5) as K.
    destruct (dt_blocked _); [|by eapply failed_counts].
    unfold fmap, M_fmap in E7. by destruct (blocked_target _ _ _ _ _ _ _) as [[?|?] ?].
  - destruct ((200 <=? status) && (status <? 300)); [|by eapply failed_counts].
    apply M_bind_ok in E6 as (u3 & w6 & _ & E6). apply M_bind_ok in E6 as (u4 & w7 & _ & E7). by apply M_bind_ok in E7 as (u5 & w8 & _ & [=]).
Qed.

(** The retry a run asks for is of its own delivery, with the attempt it stored. *)
Lemma body_retry id k m (w w' : wworld) i n :
  counted id k m (w_db w) -> worker_body env id w = (Ok (inr (i, n)), w') -> i = id /\ n = k + 1 /\ counted id n m (w_db w').
Proof.
  intros Hc. pose proof Hc as (d & Hd & Hm & Hk). unfold worker_body.
  intros (u & w1 & [= _ <-] & HX)%M_bind_ok. apply M_bind_ok in HX as (found & w2 & [= Hf <-] & HX).
  rewrite Hd in Hf. injection Hf as <-.
  apply M_bind_ok in HX as (d' & w3 & [= <- <-] & HX). apply M_bind_ok in HX as (sub & w4 & [= _ <-] & HX).
  apply M_bind_ok in HX as (s & w5 & Hp & HX). assert (w5 = w) as -> by (destruct sub; [by injection Hp|done]).
  apply M_bind_ok in HX as (rows & w6 & [= _ <-] & HX). apply M_bind_ok in HX as (secrets & w7 & [= _ <-] & HX).
  cbv zeta in HX. apply M_bind_ok in HX as (fe & w8 & [= _ <-] & HX). apply M_bind_ok in HX as (now & w9 & E9 & HX).
  apply M_bind_ok in HX as (ev & w10 & E10 & HX). apply M_bind_ok in HX as (fresh & w11 & E11 & HX).
  apply M_bind_ok in HX as (q & w12 & E12 & HX).
  assert (K12 : counted id k m (w_db w12)).
  { apply (keeps_run _ _ _ _ _ E12 (keeps_ask_counted id k m)), (keeps_run _ _ _ _ _ E11 ltac:(destruct (num_leb _ _); [apply keeps_ret | apply keeps_uuid])),
      (keeps_run _ _ _ _ _ E10 (keeps_present _ _ _)), (keeps_run _ _ _ _ _ E9 (keeps_wh_now _)), Hc. }
  destruct (dt_blocked _); [unfold fmap, M_fmap in HX; by destruct (blocked_target _ _ _ _ _ _ _) as [[?|?] ?]|].
  apply M_bind_ok in HX as (q' & w13 & E13 & HX). pose proof (keeps_run _ _ _ _ _ E13 (keeps_ask_counted id k m) K12) as K13.
  apply M_bind_ok in HX as (u' & w14 & [= _ <-] & HX). apply M_bind_ok in HX as (t & w15 & E15 & HX).
  pose proof (keeps_run _ _ _ _ _ E15 (keeps_wh_now _) K13) as K15.
  apply M_bind_ok in HX as (ended & w16 & E16 & HX). injection HX as Hend <-. destruct ended; [done|]. injection Hend as <- <-.
  rewrite (law_id _ _ _ Hd), Hk. split_and!; [done..|]. rewrite Hk in E16. apply counted_limited in K15.
  unfold try_catch in E16. destruct (post _ _ _ _ _ _ _ _ _ w15) as [[e|x] wp] eqn:Hpost.
  - injection E16 as -> <-. eapply post_retry_counts; [by apply (law_id _ _ _ Hd)|exact K15|exact Hpost].
  - eapply timed_out_counts; [by apply (law_id _ _ _ Hd) | | exact E16].
    exact (keeps_run _ _ _ _ _ Hpost (keeps_post id d s _ _ _ _ _ _ m (law_id _ _ _ Hd)) K15).
Qed.

(** *** The rows a delivery is made from stay *)

Lemma same_sources_trans (s1 s2 s3 : D) : same_sources s1 s2 -> same_sources s2 s3 -> same_sources s1 s3.
Proof. intros (A1 & A2 & A3) (B1 & B2 & B3). split_and!; intros; etransitivity; eauto. Qed.

Lemma keeps_sourced_update id p s0 : keeps (sourced id s0) (tell_store (updateDelivery id p) : wact _).
Proof.
  apply keeps_tell. intros s q o s' (Hs & d & d' & Hd & Hd' & (J1 & J2 & J3 & J4 & J5) & Hid) Hu.
  destruct (law_update _ _ _ _ _ _ Hd' Hu) as (now & Hd2). pose proof (law_update_sources _ _ _ _ _ Hu) as Hs'.
  split; [by eapply same_sources_trans|]. exists d, (patched p now d'). by split_and!.
Qed.

Lemma keeps_sourced_attempt id s0 i n o h r e : keeps (sourced id s0) (record_attempt i n o h r e : wact unit).
Proof.
  unfold record_attempt. keeps_step; [keeps_tac|]. keeps_step; [keeps_tac|]. keeps_step; [|keeps_tac].
  apply keeps_tell. intros s q u s' (Hs & d & d' & Hd & Hd' & J & Hid) Hi.
  split; [eapply same_sources_trans; [exact Hs|by eapply law_attempt_sources]|]. exists d, d'. split_and!; try done.
  cbn [wh_store] in *. by rewrite (law_attempt _ _ _ _ _ Hi).
Qed.

Lemma keeps_sourced_network id s0 : keeps (sourced id s0) (ask_network : wact N).
Proof. by intros w Hw. Qed.

Local Hint Resolve keeps_sourced_update keeps_sourced_attempt keeps_sourced_network : falcone.

Lemma keeps_sourced_set id i st n s0 : i = id -> keeps (sourced id s0) (set_delivery i st n : wact _).
Proof. intros ->. apply keeps_sourced_update. Qed.
Lemma keeps_sourced_failed id d n s r s0 : dl_id d = id -> keeps (sourced id s0) (failed_attempt d n s r : wact _).
Proof. intros Hd. unfold failed_attempt. keeps_step; [keeps_tac|]. keeps_step; [by apply keeps_sourced_set | keeps_tac]. Qed.
Lemma keeps_sourced_blocked id d n h r x y s0 : dl_id d = id -> keeps (sourced id s0) (blocked_target d n h r x y : wact _).
Proof. intros Hd. unfold blocked_target. keeps_step; [keeps_tac|]. keeps_step; [by apply keeps_sourced_set | keeps_tac]. Qed.
Lemma keeps_sourced_timed_out id d n e s0 : dl_id d = id -> keeps (sourced id s0) (timed_out d n e : wact _).
Proof. intros Hd. unfold timed_out. keeps_step; [keeps_tac|]. keeps_step; [by apply keeps_sourced_set | keeps_tac]. Qed.

Lemma keeps_sourced_post id d s secret pinned family pr n t s0 :
  dl_id d = id -> keeps (sourced id s0) (post env d s secret pinned family pr n t : wact _).
Proof.
  intros Hd. unfold post, handle_response.
  repeat first [by apply keeps_sourced_failed | apply keeps_fmap; by apply keeps_sourced_blocked | keeps_step]. rewrite Hd. keeps_tac.
Qed.

Lemma keeps_sourced_body id s0 : keeps (sourced id s0) (worker_body env id : wact _).
Proof.
  unfold worker_body. keeps_step; [keeps_tac|]. intros w Hw. pose proof Hw as (_ & d0 & d & _ & Hd & _).
  rewrite (M_bind_run (ask_store _) _ w (Some d) w) by (unfold ask_store; by rewrite Hd). pose proof (law_id _ _ _ Hd) as Hid.
  rewrite (M_bind_run (present _ _) _ w d w) by done. clear Hd. revert w Hw. match goal with |- forall w, _ -> sourced _ _ (w_db (snd (?prog w))) => change (keeps (sourced id s0) prog) end.
  repeat first [by apply keeps_sourced_timed_out | by apply keeps_sourced_post | apply keeps_fmap; by apply keeps_sourced_blocked | keeps_step].
Qed.

Lemma events_run {A} (m : wact A) w r w' es : m w = (r, w') -> w_events (snd (m w)) = es -> w_events w' = es.
Proof. by intros ->. Qed.

(** What the scheduler does: it ends without a word to the invoker, or passes on to
    it, at a state with the same count. *)
Lemma schedule_shape id n m (w : wworld) :
  counted id n m (w_db w) ->
  (exists r w' es, (forall f, schedule_retry env (Some f) id n w = (r, w')) /\ w_events w' = w_events w ++ es /\ Forall no_post es) \/
  (n < m /\ exists at_ w', counted id n m (w_db w') /\ w_events w' = w_events w /\
     (forall s0, sourced id s0 (w_db w) -> sourced id s0 (w_db w')) /\
     forall f, schedule_retry env (Some f) id n w = (f id at_ ≫= fun _ => mret (Scheduled at_)) w').
Proof.
  intros (d & Hd & Hm & Hk).
  assert (Hquiet : forall r w', (forall f, schedule_retry env (Some f) id n w = (r, w')) ->
    exists r w' es, (forall f, schedule_retry env (Some f) id n w = (r, w')) /\ w_events w' = w_events w ++ es /\ Forall no_post es).
  { intros r w' Hr. exists r, w'.
    assert (He : sends no_post (schedule_retry env (Some (fun _ _ => mret tt)) id n : wact outcome)).
    { apply sends_schedule; [done|]. intros f [= <-] d' x. apply sends_simple. }
    destruct (He w) as (es & Hes & Hn). rewrite Hr in Hes. by exists es. }
  unfold schedule_retry in *.
  assert (Hask : forall A (f : option delivery -> wact A), (ask_store (getDeliveryById id) ≫= f) w = f (Some d) w).
  { intros A f. apply M_bind_run. unfold ask_store. by rewrite Hd. }
  destruct (ask_store (getSubscriptionById (dl_subscription_id d)) w) as [[sub|e] w1] eqn:E1.
  2: { left. apply (Hquiet (Err e) w1). intros f. rewrite Hask. by rewrite (M_bind_run_err _ _ _ _ _ E1). }
  assert (w1 = w) as -> by (unfold ask_store in E1; by injection E1).
  destruct sub as [s|]; [|left; apply (Hquiet (Ok Cancelled) w); intros f; rewrite Hask; by rewrite (M_bind_run _ _ _ _ _ E1)].
  destruct (str_in (sb_status s) ["deleted"; "paused"]) eqn:Hst.
  { left. apply (Hquiet (Ok Cancelled) w). intros f. rewrite Hask, (M_bind_run _ _ _ _ _ E1). by rewrite Hst. }
  destruct (hasRetriesRemaining n (NInt m)) eqn:Hr.
  2: { left. eapply Hquiet. intros f. rewrite Hask, (M_bind_run _ _ _ _ _ E1), Hst, Hm. cbv zeta.
       change (default (rp_maxAttempts (buildRetryPolicy (we_vars env))) (Some (NInt m))) with (NInt m). rewrite Hr. apply surjective_pairing. }
  set (q := wh_asked (w_db w)). set (w2 := snd (ask_network w)).
  assert (E2 : ask_network w = (Ok q, w2)) by done.
  assert (Hc2 : counted id n m (w_db w2)) by (apply (keeps_run _ _ _ _ _ E2 (keeps_ask_counted id n m)); by exists d).
  set (next := match computeNextDelay n (buildRetryPolicy (we_vars env)) (random_unit q) with
    | None => mret None
    | Some delay => now_z ≫= fun now => Some <$> lift (iso_time (num_add (NInt now) delay)) end : wact (option Z)).
  assert (Hnext : forall f, schedule_retry env (Some f) id n w
    = (next ≫= fun at_ => tell_store (updateDelivery id (mk_delivery_patch "pending" None (Some at_) None)) ≫= fun _ =>
       f id at_ ≫= fun _ => mret (Scheduled at_)) w2).
  { intros f. unfold schedule_retry. rewrite Hask, (M_bind_run _ _ _ _ _ E1), Hst, Hm. cbv zeta.
    change (default (rp_maxAttempts (buildRetryPolicy (we_vars env))) (Some (NInt m))) with (NInt m). rewrite Hr.
    by rewrite (M_bind_run _ _ _ _ _ E2). }
  fold (schedule_retry env) in *.
  destruct (next w2) as [[at_|e] w3] eqn:E3.
  2: { left. apply (Hquiet (Err e) w3). intros f. etransitivity; [apply Hnext|]. by rewrite (M_bind_run_err _ _ _ _ _ E3). }
  assert (Hc3 : counted id n m (w_db w3) /\ w_events w3 = w_events w).
  { split.
    - refine (keeps_run _ _ _ _ _ E3 _ Hc2). unfold next. destruct (computeNextDelay _ _ _); [|apply keeps_ret].
      apply keeps_bind; [apply keeps_wh_now|]. intros ?. apply keeps_fmap, keeps_lift.
    - apply (events_run _ _ _ _ _ E3). unfold next. destruct (computeNextDelay _ _ _); [|done].
      unfold mbind, M_bind, fmap, M_fmap, lift. simpl. by destruct (iso_time _). }
  destruct Hc3 as [Hc3 Hev3].
  destruct (tell_store (updateDelivery id (mk_delivery_patch "pending" None (Some at_) None)) w3) as [[o|e] w4] eqn:E4.
  2: { left. apply (Hquiet (Err e) w4). intros f. etransitivity; [apply Hnext|]. rewrite (M_bind_run _ _ _ _ _ E3). by rewrite (M_bind_run_err _ _ _ _ _ E4). }
  right. split; [unfold hasRetriesRemaining in Hr; simpl in Hr; lia|]. exists at_, w4. split_and!.
  - destruct Hc3 as (d3 & Hd3 & Hm3 & Hk3). rewrite tell_store_run in E4. destruct (updateDelivery _ _ _) as [[x s']|] eqn:Hu; [|done].
    injection E4 as _ <-. destruct (law_update _ _ _ _ _ _ Hd3 Hu) as (now & Hd'). eexists. split; [exact Hd'|]. done.
  - rewrite tell_store_run in E4. destruct (updateDelivery _ _ _) as [[x s']|]; [|done]. injection E4 as _ <-. by rewrite <- Hev3.
  - intros s0 Hs0. apply (keeps_run _ _ _ _ _ E4 (keeps_sourced_update id _ s0)).
    apply (keeps_run _ _ _ _ _ E3); [unfold next; destruct (computeNextDelay _ _ _); keeps_tac; apply keeps_fmap, keeps_lift|].
    exact (keeps_run _ _ _ _ _ E2 (keeps_sourced_network id s0) Hs0).
  - intros f. etransitivity; [apply Hnext|]. by rewrite (M_bind_run _ _ _ _ _ E3), (M_bind_run _ _ _ _ _ E4).
Qed.

Lemma schedule_agree (f1 f2 : string -> option Z -> wact unit) id n m (w : wworld) :
  counted id n m (w_db w) ->
  (n < m -> forall at_ w', counted id n m (w_db w') -> f1 id at_ w' = f2 id at_ w') ->
  schedule_retry env (Some f1) id n w = schedule_retry env (Some f2) id n w.
Proof.
  intros Hc Hf. destruct (schedule_shape id n m w Hc) as [(r & w' & es & Hr & _)|(Hlt & at_ & w' & Hc' & _ & _ & Hr)].
  - by rewrite !Hr.
  - rewrite !Hr. unfold mbind, M_bind. by rewrite (Hf Hlt at_ w' Hc').
Qed.

(** Rounds the adapter needs for a delivery with [k] of [m] attempts made. *)
Definition rounds (k m : Z) : nat := S (Z.to_nat (m - k)).

Lemma invoke_agree fuel1 : forall fuel2 id k m at_ (w : wworld),
  counted id k m (w_db w) -> (rounds k m <= fuel1)%nat -> (rounds k m <= fuel2)%nat ->
  invoke_delivery env fuel1 id at_ w = invoke_delivery env fuel2 id at_ w.
Proof.
  induction fuel1 as [|fuel1 IH]; intros fuel2 id k m at_ w Hc F1 F2; [unfold rounds in F1; lia|].
  destruct fuel2 as [|fuel2]; [unfold rounds in F2; lia|]. cbn [invoke_delivery].
  destruct (negb (nonempty id)); [done|]. rewrite !(M_bind_run (lift _) _ w tt w) by done.
  set (w1 := snd (emit (Invoked id at_) w)). rewrite !(M_bind_run (emit _) _ w tt w1) by done.
  assert (Hc1 : counted id k m (w_db w1)) by done. unfold run_worker.
  destruct (worker_body env id w1) as [[[o|[i n]]|e] w2] eqn:Hb; [by rewrite !(M_bind_run _ _ _ _ _ Hb) | | by rewrite !(M_bind_run_err _ _ _ _ _ Hb)].
  rewrite !(M_bind_run _ _ _ _ _ Hb). destruct (body_retry _ _ _ _ _ _ _ Hc1 Hb) as (-> & -> & Hc2).
  apply (schedule_agree _ _ _ _ _ _ Hc2). intros Hlt at' w' Hc'. unfold mbind, M_bind.
  rewrite (IH fuel2 id (k + 1) m at' w' Hc'); [done | unfold rounds in *; lia..].
Qed.
End ends.

(** A delivery ends.  With a store that keeps its laws, the run for a delivery
    with [k] of [m] attempts made is over within one round more than the attempts
    left: further rounds change neither the result nor the state. *)
Theorem delivery_terminates {D : Type} `{!WebhookStore D, !WebhookStoreLaws D, !Platform, !Endpoints, !UrlParser, !NumberText, !Crypto}
    (env : webhook_env) (id : string) (k m : Z) (scheduledFor : option Z) (extra : nat) (w : world (wh_state D) wh_event) :
  counted id k m (w_db w) ->
  invoke_delivery env (rounds k m + extra) id scheduledFor w = invoke_delivery env (rounds k m) id scheduledFor w.
Proof. intros Hc. eapply invoke_agree; [exact Hc | lia..]. Qed.

(** ** How often a delivery is posted *)

Definition posts (es : list wh_event) : list Z := omap (fun e => match e with Posted _ _ _ _ _ _ n => Some n | _ => None end) es.

Lemma posts_silent es : Forall no_post es -> posts es = [].
Proof. induction 1 as [|e es He _ IH]; [done|]. by destruct e. Qed.

Section counting.
Context {D : Type} `{!WebhookStore D, !WebhookStoreLaws D, !Platform, !Endpoints, !UrlParser, !NumberText, !Crypto}
  (env : webhook_env).
Local Notation wworld := (world (wh_state D) wh_event).
Local Notation wact := (M wworld js_error).

(** The program posts at most once, with the number [n]. *)
Definition one_post (n : Z) {A} (m : wact A) : Prop :=
  forall w, exists es, w_events (snd (m w)) = w_events w ++ es /\ (posts es = [] \/ posts es = [n]).

Lemma one_silent n {A} (m : wact A) : sends no_post m -> one_post n m.
Proof. intros Hm w. destruct (Hm w) as (es & He & Hs). exists es. split; [done|]. left. by apply posts_silent. Qed.

Lemma one_bind_l n {A B} (m : wact A) (f : A -> wact B) : sends no_post m -> (forall a, one_post n (f a)) -> one_post n (m ≫= f).
Proof.
  intros Hm Hf w. unfold mbind, M_bind. destruct (Hm w) as (es & He & Hs). destruct (m w) as [[a|e] w']; simpl in *.
  - destruct (Hf a w') as (es' & He' & Hp). exists (es ++ es'). rewrite He', He, app_assoc. split; [done|].
    unfold posts in *. rewrite omap_app. fold (posts es). by rewrite (posts_silent es).
  - exists es. split; [done|]. left. by apply posts_silent.
Qed.

Lemma one_bind_r n {A B} (m : wact A) (f : A -> wact B) : one_post n m -> (forall a, sends no_post (f a)) -> one_post n (m ≫= f).
Proof.
  intros Hm Hf w. unfold mbind, M_bind. destruct (Hm w) as (es & He & Hp). destruct (m w) as [[a|e] w']; simpl in *; [|by exists es].
  destruct (Hf a w') as (es' & He' & Hs). exists (es ++ es'). rewrite He', He, app_assoc. split; [done|].
  unfold posts in *. rewrite omap_app. fold (posts es'). by rewrite (posts_silent es'), app_nil_r.
Qed.

Lemma one_try n {A} (m : wact A) h : one_post n m -> (forall e, sends no_post (h e)) -> one_post n (try_catch m h).
Proof.
  intros Hm Hh w. unfold try_catch. destruct (Hm w) as (es & He & Hp). destruct (m w) as [[a|e] w']; simpl in *; [by exists es|].
  destruct (Hh e w') as (es' & He' & Hs). exists (es ++ es'). rewrite He', He, app_assoc. split; [done|].
  unfold posts in *. rewrite omap_app. fold (posts es'). by rewrite (posts_silent es'), app_nil_r.
Qed.

Lemma one_call d s secret pinned family pr n t : one_post n (post env d s secret pinned family pr n t : wact _).
Proof.
  unfold post. do 2 (apply one_bind_l; [sends_step|intros ?]). apply one_bind_r.
  - intros w. eexists. split; [done|]. by right.
  - intros _. sends_step; [sends_step|]. sends_step; [sends_tac|]. by apply sends_response.
Qed.

Lemma body_posts id k m (w : wworld) :
  counted id k m (w_db w) ->
  exists es, w_events (snd (worker_body env id w)) = w_events w ++ es /\ (posts es = [] \/ posts es = [k + 1]).
Proof.
  intros (d & Hd & _ & Hk). unfold worker_body. set (r := assertLifecycleVerifiedWebhookKeyContext (we_key_context env)).
  destruct r as [c|e]; [|by exists []; rewrite app_nil_r; split; [|left]]. rewrite (M_bind_run (lift _) _ w c w) by done.
  rewrite (M_bind_run _ _ w (Some d) w) by (unfold ask_store; by rewrite Hd). rewrite (M_bind_run _ _ w d w) by done.
  rewrite <- Hk. revert w Hd. intros w _.
  match goal with |- exists es, w_events (snd (?prog w)) = _ /\ _ => enough (one_post (dl_attempt_count d + 1) prog) as Hone by apply Hone end.
  repeat (apply one_bind_l; [solve [sends_tac]|intros ?]). destruct (dt_blocked _).
  - apply one_silent. sends_tac. by apply sends_blocked.
  - repeat (apply one_bind_l; [solve [sends_tac]|intros ?]). apply one_bind_r; [|intros ?; apply sends_simple].
    apply one_try; [apply one_call | intros e; by apply sends_timed_out].
Qed.

(** The requests among the events: with attempts left they are numbered upwards,
    above the [k] made and up to the limit; with none left there is at most one,
    with the next number. *)
Definition numbered (k m : Z) (es : list wh_event) : Prop :=
  StronglySorted Z.lt (posts es) /\
  if k <? m then Forall (fun n => k < n <= m) (posts es) else posts es = [] \/ posts es = [k + 1].

Lemma posts_app es es' : posts (es ++ es') = posts es ++ posts es'.
Proof. apply omap_app. Qed.

Lemma numbered_one k m es : posts es = [] \/ posts es = [k + 1] -> numbered k m es.
Proof.
  unfold numbered. intros Hp. destruct (Z.ltb_spec k m); [|split; [|done]; destruct Hp as [-> | ->]; by repeat constructor].
  destruct Hp as [-> | ->]; split; repeat constructor; lia.
Qed.

Lemma numbered_silent k m es es' : numbered k m es -> Forall no_post es' -> numbered k m (es ++ es').
Proof. unfold numbered. intros Hn Hs. by rewrite posts_app, (posts_silent es' Hs), app_nil_r. Qed.

Lemma numbered_app k m es es' :
  posts es = [] \/ posts es = [k + 1] -> k + 1 < m -> numbered (k + 1) m es' -> numbered k m (es ++ es').
Proof.
  unfold numbered. rewrite posts_app. intros He Hm [Hs Hf].
  rewrite (proj2 (Z.ltb_lt (k + 1) m)) in Hf by lia. rewrite (proj2 (Z.ltb_lt k m)) by lia.
  assert (Hf' : Forall (fun n => k < n <= m) (posts es')) by (eapply Forall_impl; [exact Hf|]; simpl; lia).
  destruct He as [-> | ->]; [done|]. split; constructor; [done | eapply Forall_impl; [exact Hf|]; simpl; lia | lia | done].
Qed.

Lemma invoke_posts fuel : forall id k m at_ (w : wworld),
  counted id k m (w_db w) ->
  exists es, w_events (snd (invoke_delivery env fuel id at_ w)) = w_events w ++ es /\ numbered k m es.
Proof.
  induction fuel as [|fuel IH]; intros id k m at_ w Hc; cbn [invoke_delivery].
  { exists []. rewrite app_nil_r. split; [done | apply numbered_one; by left]. }
  destruct (negb (nonempty id)); [exists []; rewrite app_nil_r; split; [done | apply numbered_one; by left]|].
  rewrite (M_bind_run (lift _) _ w tt w) by done.
  set (w1 := snd (emit (Invoked id at_) w)). rewrite (M_bind_run (emit _) _ w tt w1) by done.
  assert (Hc1 : counted id k m (w_db w1)) by done. unfold run_worker. destruct (body_posts id k m w1 Hc1) as (es2 & He2 & Hp2).
  assert (Hev : w_events (snd (worker_body env id w1)) = w_events w ++ Invoked id at_ :: es2)
    by (rewrite He2; unfold w1, emit; simpl; by rewrite <- app_assoc).
  assert (Hpre : posts (Invoked id at_ :: es2) = [] \/ posts (Invoked id at_ :: es2) = [k + 1]) by exact Hp2.
  destruct (worker_body env id w1) as [[[o|[i n]]|e] w2] eqn:Hb; cbn [snd] in Hev;
    [rewrite (M_bind_run _ _ _ _ _ Hb) | rewrite (M_bind_run _ _ _ _ _ Hb) | rewrite (M_bind_run_err _ _ _ _ _ Hb)].
  - eexists. split; [exact Hev | by apply numbered_one].
  - destruct (body_retry env id k m w1 w2 i n Hc1 Hb) as (-> & -> & Hc2).
    destruct (schedule_shape env id (k + 1) m w2 Hc2) as [(r & w3 & es3 & Hr & He3 & Hn3)|(Hlt & a' & w3 & Hc3 & He3 & _ & Hr)]; rewrite Hr.
    + exists ((Invoked id at_ :: es2) ++ es3). split; [cbn [snd]; by rewrite He3, Hev, <- app_assoc | by apply numbered_silent; [apply numbered_one|]].
    + destruct (IH id (k + 1) m a' w3 Hc3) as (es4 & He4 & Hn4). exists ((Invoked id at_ :: es2) ++ es4). split; [|by apply (numbered_app k m _ es4)].
      unfold mbind, M_bind. destruct (invoke_delivery env fuel id a' w3) as [[x|e] w5]; simpl in *; by rewrite He4, He3, Hev, <- app_assoc.
  - eexists. split; [exact Hev | by apply numbered_one].
Qed.
(** Every request of a run is made from the rows there were when it began. *)
Lemma invoke_sources fuel : forall id k m s0 at_ (w : wworld),
  counted id k m (w_db w) -> sourced id s0 (w_db w) ->
  sends_at (delivery_post env id s0) (invoke_delivery env fuel id at_) w.
Proof.
  induction fuel as [|fuel IH]; intros id k m s0 at_ w Hc Hs; cbn [invoke_delivery]; [by eapply sends_at_silent|].
  destruct (negb (nonempty id)); [by eapply sends_at_silent|].
  apply sends_at_lift. intros _ _. unfold sends_at.
  set (w1 := snd (emit (Invoked id at_) w)). rewrite (M_bind_run (emit _) _ w tt w1) by done.
  assert (Hc1 : counted id k m (w_db w1)) by done. unfold run_worker.
  destruct (body_delivery_post env id s0 w1 Hs) as (es2 & He2 & Hp2).
  assert (Hev : w_events (snd (worker_body env id w1)) = w_events w ++ Invoked id at_ :: es2)
    by (rewrite He2; unfold w1, emit; simpl; by rewrite <- app_assoc).
  assert (Hpre : Forall (delivery_post env id s0) (Invoked id at_ :: es2)) by by constructor.
  destruct (worker_body env id w1) as [[[o|[i n]]|e] w2] eqn:Hb; cbn [snd] in Hev;
    [rewrite (M_bind_run _ _ _ _ _ Hb) | rewrite (M_bind_run _ _ _ _ _ Hb) | rewrite (M_bind_run_err _ _ _ _ _ Hb)].
  - by eexists.
  - destruct (body_retry env id k m w1 w2 i n Hc1 Hb) as (-> & -> & Hc2).
    pose proof (keeps_run _ _ _ _ _ Hb (keeps_sourced_body env id s0) Hs) as Hs2.
    destruct (schedule_shape env id (k + 1) m w2 Hc2) as [(r & w3 & es3 & Hr & He3 & Hn3)|(Hlt & a' & w3 & Hc3 & He3 & Hs3 & Hr)]; rewrite Hr.
    + exists ((Invoked id at_ :: es2) ++ es3). split; [cbn [snd]; by rewrite He3, Hev, <- app_assoc|].
      apply Forall_app. split; [done|]. eapply Forall_impl; [exact Hn3|apply delivery_silent].
    + destruct (IH id (k + 1) m s0 a' w3 Hc3 (Hs3 _ Hs2)) as (es4 & He4 & Hn4).
      exists ((Invoked id at_ :: es2) ++ es4). split; [|by apply Forall_app].
      unfold mbind, M_bind. destruct (invoke_delivery env fuel id a' w3) as [[x|e] w5]; simpl in *; by rewrite He4, He3, Hev, <- app_assoc.
  - by eexists.
Qed.
End counting.

(** C36: what a run of a delivery sends.  With a store that keeps its laws, every
    request of the run is the delivery's own: it goes to the target URL of the
    delivery's subscription, at an address that was vetted for the host of that URL,
    its body is the envelope of the delivery's event, and its signature is over that
    body with the secret that serves the subscription, all as the store had them
    when the run began.  A delivery with [k] of [m] attempts made, [k < m], sends
    requests numbered upwards from [k + 1], none above [m]; one with no attempts
    left is not refused but sends at most one more request, numbered [k + 1]. *)
Theorem delivery_requests {D : Type} `{!WebhookStore D, !WebhookStoreLaws D, !Platform, !Endpoints, !UrlParser, !NumberText, !Crypto}
    (env : webhook_env) (fuel : nat) (id : string) (k m : Z) (scheduledFor : option Z) (w : world (wh_state D) wh_event) :
  counted id k m (w_db w) ->
  exists es, w_events (snd (invoke_delivery env fuel id scheduledFor w)) = w_events w ++ es /\
    Forall (delivery_post env id (wh_store (w_db w))) es /\ numbered k m es.
Proof.
  intros Hc. destruct (invoke_posts env fuel id k m scheduledFor w Hc) as (es & He & Hn).
  assert (Hs : sourced id (wh_store (w_db w)) (w_db w)).
  { destruct Hc as (d & Hd & _). split; [done|]. exists d, d. split_and!; try done. by apply (law_id _ _ _ Hd). }
  destruct (invoke_sources env fuel id k m _ scheduledFor w Hc Hs) as (es' & He' & Hp).
  rewrite He in He'. apply app_inv_head in He' as <-. by exists es.
Qed.

(** The time a retry is scheduled for has no effect: an invocation runs the
    delivery at once, with the same result and the same state whatever time it is
    given, but for the invocation's own record. *)
Theorem schedule_ignored {D : Type} `{!WebhookStore D, !Platform, !Endpoints, !UrlParser, !NumberText, !Crypto}
    (env : webhook_env) (fuel : nat) (id : string) (t1 t2 : option Z) (w : world (wh_state D) wh_event) :
  nonempty id = true ->
  exists es,
    invoke_delivery env (S fuel) id t1 w = (fst (invoke_delivery env (S fuel) id t2 w),
      push (w_events w ++ [Invoked id t1]) (mk_world (w_db (snd (invoke_delivery env (S fuel) id t2 w)))
        (w_tick (snd (invoke_delivery env (S fuel) id t2 w))) (w_uuids (snd (invoke_delivery env (S fuel) id t2 w)))
        (w_published (snd (invoke_delivery env (S fuel) id t2 w))) es)) /\
    w_events (snd (invoke_delivery env (S fuel) id t2 w)) = w_events w ++ [Invoked id t2] ++ es.
Proof.
  intros Hid. cbn [invoke_delivery]. rewrite Hid.
  rewrite !(M_bind_run (lift _) _ w tt w) by done.
  set (w0 := mk_world (w_db w) (w_tick w) (w_uuids w) (w_published w) ([] : list wh_event)).
  assert (Hw : forall t, snd (emit (Invoked id t) w) = push (w_events w ++ [Invoked id t]) w0).
  { intros t. unfold push. simpl. by rewrite app_nil_r. }
  set (prog := run_worker env _ id). assert (Hfr : framed prog).
  { apply framed_worker. intros d n. apply framed_schedule. intros f [= <-] d' a. framed_tac. apply framed_invoke. }
  rewrite !(M_bind_run (emit _) _ w tt _ (surjective_pairing _)).
  rewrite !Hw, !Hfr. cbn [fst snd]. destruct (prog w0) as [r w'] eqn:Hp. exists (w_events w'). simpl. split; [done|].
  by rewrite <- app_assoc.
Qed.

(** ** A concrete store *)

Record mem_store := mk_mem_store {
  ms_deliveries : gmap string delivery;
  ms_subscriptions : gmap string subscription;
  ms_secrets : list secret_record;
  ms_events : gmap string event;
  ms_attempts : list attempt
}.

Definition find_delivery (id : string) (s : mem_store) : option delivery :=
  d ← ms_deliveries s !! id; if bool_decide (dl_id d = id) then Some d else None.

Definition with_delivery (d : delivery) (s : mem_store) : mem_store :=
  mk_mem_store (<[dl_id d := d]> (ms_deliveries s)) (ms_subscriptions s) (ms_secrets s) (ms_events s) (ms_attempts s).

#[export] Instance mem_webhook_store : WebhookStore mem_store := {|
  getDeliveryById := fun id s => Ok (find_delivery id s);
  getSubscriptionById := fun id s => Ok (ms_subscriptions s !! id);
  listSecrets := fun _ _ _ s => Ok (ms_secrets s);
  getEvent := fun id s => Ok (ms_events s !! id);
  insertAttempt := fun a s => Ok (tt, mk_mem_store (ms_deliveries s) (ms_subscriptions s) (ms_secrets s) (ms_events s) (ms_attempts s ++ [a]));
  updateDelivery := fun id p s =>
    match find_delivery id s with
    | Some d => let d' := patched p 0 d in Ok (Some d', with_delivery d' s)
    | None => Ok (None, s)
    end;
  incrementSubscriptionFailures := fun id s => Ok (ms_subscriptions s !! id, s);
  updateSubscriptionStatus := fun _ _ s => Ok (tt, s);
  findSubscriptionsForEvent := fun _ _ _ s => Ok (snd <$> map_to_list (ms_subscriptions s));
  insertDelivery := fun d s => Ok (true, with_delivery d s);
  incrementRateCounter := fun _ s => Ok (1, s)
|}.

#[export] Instance mem_webhook_laws : WebhookStoreLaws mem_store.
Proof.
  split.
  - intros id s d. simpl. unfold find_delivery. destruct (ms_deliveries s !! id) as [d'|]; simpl; [|done].
    case_bool_decide; naive_solver.
  - intros id p s d o s' Hd. simpl in *. injection Hd as Hd. rewrite Hd. intros [= _ <-]. exists 0.
    assert (Hid : dl_id d = id).
    { unfold find_delivery in Hd. destruct (ms_deliveries s !! id) as [d'|]; simpl in Hd; [|done]. case_bool_decide; naive_solver. }
    unfold find_delivery, with_delivery. simpl. rewrite Hid, lookup_insert_eq. simpl. by rewrite bool_decide_eq_true_2.
  - intros id a s u s' [= _ <-]. done.
  - intros id p s o s'. simpl. destruct (find_delivery id s); by intros [= _ <-].
  - intros a s u s' [= _ <-]. done.
Qed.

Definition sample_subscription : subscription :=
  mk_subscription "sub-1" "ten-1" "ws-1" "https://hooks.example.com/x" ["user.signed_up"] "active" 0 5 JNull (JObj []) "usr-1" 0 0 None.
Definition sample_delivery (status : string) : delivery :=
  mk_delivery "del-1" "sub-1" "ten-1" "ws-1" "user.signed_up" "evt-1" None 0 status 0 (Some (NInt 3)) None 0 0.
Definition sample_store (status : string) : mem_store :=
  mk_mem_store {["del-1" := sample_delivery status]} {["sub-1" := sample_subscription]}
    [mk_secret_record "active" None sample_key_id "cipher" "iv" ""] {["evt-1" := mk_event "ten-1" "ws-1" "user.signed_up" "evt-1" (JObj [])]} [].
Definition webhook_world (status : string) : world (wh_state mem_store) wh_event := mk_world (mk_wh_state (sample_store status) 0) 0 0 0 [].

(** Every endpoint answers with the status, every name resolves to a public address. *)
Definition sample_endpoints (status : Z) : Endpoints :=
  {| endpoint := fun _ => HttpAnswered status None; resolution := fun _ _ => Ok (Some [AddressEntry "203.0.113.7" (Some 4)]);
     dispatcher_factory := fun _ => Ok tt; random_unit := fun _ => 0%Q |}.
Definition sample_platform (failures : N -> option js_error) : Platform :=
  {| clock := fun n => n; uuid := fun n => "uuid-" +:+ show_N n; broker := failures |}.
Definition sample_env : webhook_env := mk_webhook_env (fun _ => None) true (Some sample_context).
Definition sample_numbers : NumberText := {| fraction_text := fun _ => "0.5" |}.

(** A run of the adapter for the sample delivery. *)
Definition sample_run (status : string) (answer : Z) (failures : N -> option js_error) (fuel : nat) (t : option Z) : list wh_event :=
  w_events (snd (@invoke_delivery mem_store _ (sample_platform failures) (sample_endpoints answer) sample_url sample_numbers sample_crypto
    sample_env fuel "del-1" t (webhook_world status))).

Lemma delivery_terminates_witness :
  @invoke_delivery mem_store _ (sample_platform (fun _ => None)) (sample_endpoints 500) sample_url sample_numbers sample_crypto
    sample_env (rounds 0 3 + 7) "del-1" None (webhook_world "pending")
  = @invoke_delivery mem_store _ (sample_platform (fun _ => None)) (sample_endpoints 500) sample_url sample_numbers sample_crypto
    sample_env (rounds 0 3) "del-1" None (webhook_world "pending").
Proof. apply delivery_terminates. exists (sample_delivery "pending"). split; [reflexivity|]. split; reflexivity. Defined.

Lemma delivery_requests_witness :
  exists es, sample_run "pending" 500 (fun _ => None) 4 None = es /\
    Forall (@delivery_post mem_store _ (sample_endpoints 500) sample_url sample_numbers sample_crypto sample_env "del-1" (sample_store "pending")) es /\
    posts es = [1; 2; 3].
Proof.
  destruct (@delivery_requests mem_store _ _ (sample_platform (fun _ => None)) (sample_endpoints 500) sample_url sample_numbers sample_crypto
    sample_env 4 "del-1" 0 3 None (webhook_world "pending")) as (es & He & Hs & _).
  - exists (sample_delivery "pending"). split; [reflexivity|]. split; reflexivity.
  - exists (sample_run "pending" 500 (fun _ => None) 4 None). split; [reflexivity|].
    unfold sample_run. rewrite He. split; [exact Hs|]. change (w_events (webhook_world "pending") ++ es) with es.
    cbn [w_events webhook_world app] in He. rewrite <- He. vm_compute. reflexivity.
Defined.

Lemma schedule_ignored_witness :
  exists es, sample_run "pending" 500 (fun _ => None) 4 (Some 99999) = Invoked "del-1" (Some 99999) :: es /\
    sample_run "pending" 500 (fun _ => None) 4 None = Invoked "del-1" None :: es.
Proof.
  destruct (@schedule_ignored mem_store _ (sample_platform (fun _ => None)) (sample_endpoints 500) sample_url sample_numbers sample_crypto
    sample_env 3 "del-1" (Some 99999) None (webhook_world "pending") eq_refl) as (es & Hr & He).
  exists es. unfold sample_run. split; [rewrite Hr; reflexivity | exact He].
Defined.

(** What happens after an endpoint has accepted a delivery can deliver it
    again: when the broker refuses the success event, the same attempt is also
    recorded as timed out and the delivery is posted a second time; and a delivery
    that is invoked again is posted whatever its status. *)
Theorem accepted_delivery_posted_again (e : js_error) (status : string) :
  posts (sample_run "pending" 200 (fun n => if (n =? 0)%N then Some e else None) 4 None) = [1; 2] /\
  posts (sample_run status 200 (fun _ => None) 4 None) = [1] /\
  omap (fun x => match x with Attempted a => Some (at_attempt_num a, at_outcome a) | _ => None end)
    (sample_run "pending" 200 (fun n => if (n =? 0)%N then Some e else None) 4 None)
  = [(1, "succeeded"); (1, "timed_out"); (2, "succeeded")].
Proof. split_and!; vm_compute; reflexivity. Qed.

(** ** Oversized payloads *)

Lemma byte_length_app s t : byte_length (s +:+ t) = byte_length s + byte_length t.
Proof.
  unfold byte_length. rewrite chars_app. induction (chars s) as [|c l IH]; [done|]. cbn [app foldr]. rewrite IH. lia.
Qed.

Lemma byte_length_nonneg s : 0 <= byte_length s.
Proof. unfold byte_length. induction (chars s) as [|c l IH]; cbn [foldr]; [done|]. destruct (code c <? 128)%N; lia. Qed.

Lemma join_snoc_longer sep xs x : byte_length (JsValue.join sep xs) + byte_length x <= byte_length (JsValue.join sep (xs ++ [x])).
Proof.
  induction xs as [|y xs IH]; [simpl; unfold byte_length at 1; simpl; lia|]. destruct xs as [|z xs].
  - cbn [app JsValue.join]. rewrite !byte_length_app. pose proof (byte_length_nonneg sep). lia.
  - cbn [app] in *. change (JsValue.join sep (y :: z :: xs)) with (y +:+ sep +:+ JsValue.join sep (z :: xs)).
    change (JsValue.join sep (y :: z :: xs ++ [x])) with (y +:+ sep +:+ JsValue.join sep (z :: xs ++ [x])).
    rewrite !byte_length_app. lia.
Qed.

Lemma join_last sep xs : exists c, forall x, byte_length (JsValue.join sep (xs ++ [x])) = c + byte_length x.
Proof.
  induction xs as [|y xs [c IH]]; [by exists 0|]. destruct xs as [|z xs].
  - exists (byte_length y + byte_length sep). intros x. cbn [app JsValue.join]. rewrite !byte_length_app. lia.
  - exists (byte_length y + byte_length sep + c). intros x. cbn [app] in *.
    change (JsValue.join sep (y :: z :: xs ++ [x])) with (y +:+ sep +:+ JsValue.join sep (z :: xs ++ [x])).
    rewrite !byte_length_app, IH. lia.
Qed.

Definition field_texts `{!NumberText} (kvs : list (string * jsval)) : list string :=
  flat_map (fun kv : string * jsval => if is_undef kv.2 then [] else [json_string kv.1 +:+ ":" +:+ json_text kv.2]) kvs.

Lemma json_object_length `{!NumberText} kvs : byte_length (json_text (JObj kvs)) = 2 + byte_length (JsValue.join "," (field_texts kvs)).
Proof.
  change (json_text (JObj kvs)) with ("{" +:+ JsValue.join "," (field_texts kvs) +:+ "}").
  rewrite !byte_length_app. unfold byte_length at 1 3. simpl. lia.
Qed.

(** The limit on a payload does not bound what is sent: an envelope above it is
    sent with all of its data and one more field, so that the body is longer still. *)
Theorem oversized_payload_sent_whole `{!NumberText} (d : delivery) (ev : event) (now : Z) (fields : list (string * jsval))
    (limit : Z) (fresh : string) :
  ev_data ev = JObj fields -> assoc_lookup "_truncated" fields = None ->
  let payload := buildPayloadEnvelope d ev now in
  let result := enforcePayloadSizeLimit payload (NInt limit) fresh in
  pr_truncated result = true ->
  limit < byte_length (payload_text (JObj payload)) < byte_length (payload_text (pr_payload result)) /\
  js_get (pr_payload result) "data" = JObj (fields ++ [("_truncated", JBool true)]).
Proof.
  intros Hd Hn payload result. unfold result, enforcePayloadSizeLimit. cbn [num_leb].
  destruct (Z.leb_spec (byte_length (payload_text (JObj payload))) limit) as [|Hgt]; [done|]. intros _. cbn [pr_payload].
  assert (Hp : payload = take 4 payload ++ [("data", JObj fields)]) by (unfold payload, buildPayloadEnvelope; by rewrite Hd).
  assert (Hdata : object_entries (js_get (JObj payload) "data") = fields) by (unfold payload, buildPayloadEnvelope; by rewrite Hd).
  rewrite Hdata, (assoc_set_fresh _ _ _ Hn).
  assert (Hset : assoc_set "data" (JObj (fields ++ [("_truncated", JBool true)])) payload
    = take 4 payload ++ [("data", JObj (fields ++ [("_truncated", JBool true)]))]) by done.
  rewrite Hset. split; [|done]. split; [done|]. rewrite Hp at 1. unfold payload_text. rewrite !json_object_length.
  unfold field_texts. rewrite !flat_map_app. cbn [flat_map app is_undef snd fst].
  match goal with |- context [byte_length (JsValue.join "," (?l ++ _))] => destruct (join_last "," l) as [c Hc] end.
  rewrite !Hc, !byte_length_app, !json_object_length.
  unfold field_texts. rewrite !flat_map_app. cbn [flat_map app is_undef snd fst].
  match goal with |- context [byte_length (JsValue.join "," (?l ++ [?x]))] => pose proof (join_snoc_longer "," l x) as Hlong end.
  assert (Hx : 0 < byte_length (json_string "_truncated" +:+ ":" +:+ json_text (JBool true))) by (vm_compute; reflexivity). lia.
Qed.

Lemma oversized_payload_sent_whole_witness :
  let payload := buildPayloadEnvelope (sample_delivery "pending") (mk_event "ten-1" "ws-1" "user.signed_up" "evt-1" (JObj [("note", JStr "x")])) 0 in
  100 < byte_length (@payload_text sample_numbers (pr_payload (@enforcePayloadSizeLimit sample_numbers payload (NInt 100) "uuid-1"))).
Proof.
  intros payload. destruct (@oversized_payload_sent_whole sample_numbers (sample_delivery "pending")
    (mk_event "ten-1" "ws-1" "user.signed_up" "evt-1" (JObj [("note", JStr "x")])) 0 [("note", JStr "x")] 100 "uuid-1" eq_refl eq_refl eq_refl)
    as [[H1 H2] _].
  exact (Z.lt_trans _ _ _ H1 H2).
Defined.
