(* ===== verification/IsoDate.v ===== *)
(** * ISO dates

    [Date.prototype.toISOString] on epoch milliseconds, over the calendar of
    [Cron]: the text determines the instant. *)
From S2P Require Import Prelude JsValue Cron.
From Stdlib Require Import Ascii.
Local Open Scope Z_scope.

(** The last [n] decimal digits of a number. *)
Fixpoint last_digits (n : nat) (z : Z) : list ascii :=
  match n with
  | O => []
  | S m => last_digits m (z / 10) ++ [ascii_of_N (48 + Z.to_N (z mod 10))]
  end.

Definition year_text (y : Z) : list ascii :=
  if (0 <=? y) && (y <=? 9999) then last_digits 4 y
  else (if y <? 0 then "-"%char else "+"%char) :: last_digits 6 (Z.abs y).

(** [new Date(ms).toISOString()] *)
Definition toISOString (ms : Z) : string :=
  let '(y, m, d) := civil_of_days (ms / 86400000) in
  let t := ms mod 86400000 in
  of_chars (year_text y ++ "-"%char :: last_digits 2 m ++ "-"%char :: last_digits 2 d ++ "T"%char ::
    last_digits 2 (t / 3600000) ++ ":"%char :: last_digits 2 (t / 60000 mod 60) ++ ":"%char ::
    last_digits 2 (t / 1000 mod 60) ++ "."%char :: last_digits 3 (t mod 1000) ++ ["Z"%char]).

(** The instants a [Date] can hold. *)
Definition valid_time (ms : Z) : Prop := Z.abs ms <= 8640000000000000.

Example iso_examples :
  toISOString <$> [0; 951782400123; 1767225599999; -62198755200001; 253402300800000] =
  ["1970-01-01T00:00:00.000Z"; "2000-02-29T00:00:00.123Z"; "2025-12-31T23:59:59.999Z";
   "-000002-12-31T23:59:59.999Z"; "+010000-01-01T00:00:00.000Z"].
Proof. reflexivity. Qed.

(** ** The text determines the instant *)

Lemma last_digits_length n z : length (last_digits n z) = n.
Proof. revert z. induction n as [|n IH]; intros z; cbn; [done|]. rewrite length_app, IH. cbn. lia. Qed.

Lemma digit_char_inj a b : 0 <= a < 10 -> 0 <= b < 10 ->
  ascii_of_N (48 + Z.to_N a) = ascii_of_N (48 + Z.to_N b) -> a = b.
Proof.
  intros Ha Hb H. apply (f_equal N_of_ascii) in H. rewrite !N_ascii_embedding in H by lia. lia.
Qed.

Lemma last_digits_inj n a b : 0 <= a < 10 ^ Z.of_nat n -> 0 <= b < 10 ^ Z.of_nat n ->
  last_digits n a = last_digits n b -> a = b.
Proof.
  revert a b. induction n as [|n IH]; intros a b Ha Hb H; [cbn in *; lia|].
  cbn [last_digits] in H. apply app_inj_2 in H as [H1 [= H2]]; [|done].
  rewrite Nat2Z.inj_succ, Z.pow_succ_r in Ha, Hb by lia.
  apply IH in H1; [|split; [apply Z.div_pos; lia | apply Z.div_lt_upper_bound; lia]..].
  apply digit_char_inj in H2; [|apply Z.mod_pos_bound; lia..].
  rewrite (Z.div_mod a 10), (Z.div_mod b 10) by lia. by rewrite H1, H2.
Qed.

Lemma last_digits_digit n z c : c ∈ last_digits n z -> is_digit c = true.
Proof.
  revert z. induction n as [|n IH]; intros z; cbn; [by intros ?%not_elem_of_nil|].
  rewrite elem_of_app, list_elem_of_singleton. intros [H| ->]; [eauto|].
  pose proof (Z.mod_pos_bound z 10). set (k := z mod 10) in *.
  assert (Hk : k ∈ seqZ 0 10) by (apply elem_of_seqZ; lia).
  clearbody k. assert (Hall : Forall (fun k => is_digit (ascii_of_N (48 + Z.to_N k)) = true) (seqZ 0 10))
    by (by repeat constructor).
  rewrite Forall_forall in Hall. by apply Hall.
Qed.

Lemma year_text_inj y y' l l' : Z.abs y < 1000000 -> Z.abs y' < 1000000 ->
  year_text y ++ l = year_text y' ++ l' -> y = y' /\ l = l'.
Proof.
  intros Hy Hy'. unfold year_text.
  destruct ((0 <=? y) && (y <=? 9999)) eqn:E, ((0 <=? y') && (y' <=? 9999)) eqn:E'; intros H.
  - apply app_inj_1 in H as [H ->]; [|by rewrite !last_digits_length]. apply last_digits_inj in H as ->; [done|cbn; lia..].
  - exfalso. pose proof (last_digits_length 4 y). destruct (last_digits 4 y) as [|c cs] eqn:Ec; [done|].
    assert (Hc : is_digit c = true) by (eapply (last_digits_digit 4 y); rewrite Ec; left).
    cbn in H. injection H as -> _. by destruct (y' <? 0).
  - exfalso. pose proof (last_digits_length 4 y'). destruct (last_digits 4 y') as [|c cs] eqn:Ec; [done|].
    assert (Hc : is_digit c = true) by (eapply (last_digits_digit 4 y'); rewrite Ec; left).
    cbn in H. injection H as <- _. by destruct (y <? 0).
  - rewrite <- !app_comm_cons in H. pose proof (f_equal head H) as [= Hs]. apply (f_equal tail) in H. cbn [tail] in H. apply app_inj_1 in H as [H ->]; [|by rewrite !last_digits_length].
    apply last_digits_inj in H; [|cbn; lia..]. split; [|done].
    destruct (y <? 0) eqn:Ey, (y' <? 0) eqn:Ey'; try done; lia.
Qed.

(** The fields of a day and the day they come from. *)
Lemma civil_fields days y m d : civil_of_days days = (y, m, d) ->
  exists era yoe doy mp, days + 719468 = era * 146097 + (365 * yoe + yoe / 4 - yoe / 100 + doy)
    /\ 0 <= yoe < 400 /\ 0 <= doy < 366 /\ 0 <= mp <= 11
    /\ m = (if mp <? 10 then mp + 3 else mp - 9) /\ d = doy - (153 * mp + 2) / 5 + 1 /\ 1 <= d <= 31
    /\ y = yoe + era * 400 + (if m <=? 2 then 1 else 0).
Proof.
  unfold civil_of_days. set (z := days + 719468). set (era := z / 146097). set (doe := z mod 146097).
  set (yoe := (doe - doe / 1460 + doe / 36524 - doe / 146096) / 365).
  set (doy := doe - (365 * yoe + yoe / 4 - yoe / 100)). set (mp := (5 * doy + 2) / 153).
  intros [= <- <- <-]. exists era, yoe, doy, mp.
  assert (Hdoe : 0 <= doe < 146097) by (apply Z.mod_pos_bound; lia).
  assert (Hz : z = era * 146097 + doe) by (unfold era, doe; pose proof (Z.div_mod z 146097); lia).
  assert (Hyoe : 0 <= yoe < 400) by (unfold yoe; Z.to_euclidean_division_equations; lia).
  assert (Hdoy : 0 <= doy < 366) by (unfold doy, yoe in *; clearbody doe; clear -Hdoe; Z.to_euclidean_division_equations; lia).
  assert (Hmp : 0 <= mp <= 11) by (unfold mp; Z.to_euclidean_division_equations; lia).
  repeat split; try lia; unfold mp in *; clear -Hdoy; clearbody doy; Z.to_euclidean_division_equations; lia.
Qed.

Lemma civil_of_days_inj a b : civil_of_days a = civil_of_days b -> a = b.
Proof.
  destruct (civil_of_days b) as [[y m] d] eqn:Hb. intros Ha.
  apply civil_fields in Ha as (e & yo & dy & mp & Ha & Hyo & Hdy & Hmp & Hm & Hd & _ & Hy).
  apply civil_fields in Hb as (e' & yo' & dy' & mp' & Hb & Hyo' & Hdy' & Hmp' & Hm' & Hd' & _ & Hy').
  assert (mp = mp') as <- by (destruct (mp <? 10) eqn:?, (mp' <? 10) eqn:?; lia).
  assert (dy = dy') as <- by lia. assert (e = e' /\ yo = yo') as [<- <-] by lia. lia.
Qed.

Lemma civil_of_days_bounds days y m d : Z.abs days <= 100000000 -> civil_of_days days = (y, m, d) ->
  Z.abs y < 1000000 /\ 1 <= m <= 12 /\ 1 <= d <= 31.
Proof.
  intros Hb (e & yo & dy & mp & H & Hyo & Hdy & Hmp & Hm & Hd & Hd' & Hy)%civil_fields.
  split; [|destruct (mp <? 10) eqn:?; lia].
  assert (Z.abs e <= 2000) by (Z.to_euclidean_division_equations; lia). destruct (m <=? 2); lia.
Qed.

(** Splitting the fixed-width fields of a time. *)
Lemma field_inj n a b l l' : 0 <= a < 10 ^ Z.of_nat n -> 0 <= b < 10 ^ Z.of_nat n ->
  last_digits n a ++ l = last_digits n b ++ l' -> a = b /\ l = l'.
Proof.
  intros Ha Hb H. apply app_inj_1 in H as [H ->]; [|by rewrite !last_digits_length].
  by apply last_digits_inj in H as ->.
Qed.

Ltac next_field H :=
  let E := fresh "E" in
  apply field_inj in H as [E H]; [|cbn; Z.to_euclidean_division_equations; lia..];
  apply (f_equal tail) in H; cbn [tail] in H.

Lemma toISOString_inj a b : valid_time a -> valid_time b -> toISOString a = toISOString b -> a = b.
Proof.
  unfold valid_time, toISOString. intros Ha Hb.
  destruct (civil_of_days (a / 86400000)) as [[y m] d] eqn:Ea, (civil_of_days (b / 86400000)) as [[y' m'] d'] eqn:Eb.
  destruct (civil_of_days_bounds (a / 86400000) _ _ _ ltac:(Z.to_euclidean_division_equations; lia) Ea) as (Hy & Hm & Hd).
  destruct (civil_of_days_bounds (b / 86400000) _ _ _ ltac:(Z.to_euclidean_division_equations; lia) Eb) as (Hy' & Hm' & Hd').
  intros H%(f_equal chars). rewrite !chars_of_chars in H.
  apply year_text_inj in H as [-> H]; [|lia..]. apply (f_equal tail) in H. cbn [tail] in H.
  next_field H. next_field H. next_field H. next_field H. next_field H. next_field H.
  subst. rewrite <- Eb in Ea. apply civil_of_days_inj in Ea.
  Z.to_euclidean_division_equations; lia.
Qed.
