(* ===== verification/AuditChain.v ===== *)
(** * The audit log of the control plane

    [audit-hash.mjs] and the writer and reader of [audit-store.mjs] in
    src/apps/control-plane.  Each row carries the hash of its contents together
    with the hash of the row before it in the same tenant.  SHA-256 and what a
    JSONB column gives back for a document are the class [AuditEnv].  Column
    widths, the primary key and the reference to the plans are those of the
    table in [tenant-store.mjs]; timestamps are epoch milliseconds. *)
From S2P Require Import Prelude JsValue Json Platform IsoDate.
From stdpp Require Import sorting.
From Stdlib Require Import Ascii.
Local Open Scope Z_scope.

Class AuditEnv := {
  audit_numbers :: NumberText;
  audit_digest : string -> string;
  (** the document a JSONB column gives back, if it takes it *)
  jsonb : jsval -> option jsval
}.

(** ** Rows *)

(** A row of [plan_audit_events]. *)
Record audit_row := mk_audit_row {
  ae_id : string;
  ae_action_type : string;
  ae_actor_id : string;
  ae_tenant_id : option string;
  ae_plan_id : option string;
  ae_previous_state : option jsval;
  ae_new_state : jsval;
  ae_outcome : option string;
  ae_correlation_id : option string;
  ae_created_at : Z;
  ae_prev_hash : option string;
  ae_row_hash : option string
}.

(** What [recordAuditEvent] is given; an absent [outcome] takes its default,
    a null one stays. *)
Record audit_event := mk_audit_event {
  ev_actionType : option string;
  ev_actorId : option string;
  ev_tenantId : option string;
  ev_planId : option string;
  ev_workspaceId : option string;
  ev_outcome : option (option string);
  ev_previousState : option jsval;
  ev_newState : option (list (string * jsval));
  ev_correlationId : option string
}.

(** The table, and the plans it may refer to. *)
Record audit_db := mk_audit_db { ad_events : list audit_row; ad_plans : list string }.

(** ** Hashing *)

(** The fields [auditCanonical] reads, of a row or of what the writer passes. *)
Record audit_fields := mk_audit_fields {
  af_id : string;
  af_actionType : string;
  af_actorId : string;
  af_tenantId : option string;
  af_outcome : option string;
  af_createdAt : Z;
  af_newState : jsval
}.

Definition fields_of_row (r : audit_row) : audit_fields :=
  mk_audit_fields (ae_id r) (ae_action_type r) (ae_actor_id r) (ae_tenant_id r) (ae_outcome r)
    (ae_created_at r) (ae_new_state r).

Section hashing.
Context `{!AuditEnv}.

Fixpoint stableStringify (v : jsval) : string :=
  match v with
  | JUndef => "null"
  | JArr xs => "[" +:+ JsValue.join "," (List.map stableStringify xs) +:+ "]"
  | JObj kvs => "{" +:+ JsValue.join "," (List.map (fun kt => json_string kt.1 +:+ ":" +:+ kt.2)
                  (merge_sort key_le (List.map (fun kv => (kv.1, stableStringify kv.2)) kvs))) +:+ "}"
  | _ => json_text v
  end.

(** The object whose text is hashed. *)
Definition canonical_object (f : audit_fields) : jsval :=
  JObj [("id", JStr (af_id f)); ("action_type", JStr (af_actionType f)); ("actor_id", JStr (af_actorId f));
        ("tenant_id", jstr_opt (af_tenantId f)); ("outcome", jstr_opt (af_outcome f));
        ("created_at", JStr (toISOString (af_createdAt f))); ("new_state", coalesce (af_newState f) (JObj []))].

Definition auditCanonical (f : audit_fields) : string := stableStringify (canonical_object f).

Definition newline : ascii := ascii_of_N 10.

Definition computeRowHash (canonical prevHash : string) : string :=
  audit_digest (canonical +:+ String newline "" +:+ prevHash).

Definition rh (r : audit_row) : string := default "" (ae_row_hash r).
Definition ph (r : audit_row) : string := default "" (ae_prev_hash r).

(** One round of the loop of [verifyAuditChain]; [before] is the previous row. *)
Definition row_valid (expectedAnchor : string) (before : option audit_row) (row : audit_row) : bool :=
  nonempty (rh row) && bool_decide (is_Some (ae_prev_hash row))
  && match before with None => String.eqb (ph row) expectedAnchor | Some _ => true end
  && String.eqb (computeRowHash (auditCanonical (fields_of_row row)) (ph row)) (rh row)
  && match before with None => true | Some b => String.eqb (ph row) (rh b) end.

Fixpoint verify_rows (expectedAnchor : string) (before : option audit_row) (i : nat) (rows : list audit_row) : option nat :=
  match rows with
  | [] => None
  | row :: rest => if row_valid expectedAnchor before row then verify_rows expectedAnchor (Some row) (S i) rest else Some i
  end.

(** [brokenAt]: the first broken row; none when the log is valid. *)
Definition verifyAuditChain (rowsAscending : list audit_row) (expectedAnchor : string) : option nat :=
  verify_rows expectedAnchor None 0 rowsAscending.

End hashing.

(** ** The writer *)

(** [ORDER BY created_at, id] *)
Definition row_le (a b : audit_row) : Prop :=
  ae_created_at a < ae_created_at b \/ ae_created_at a = ae_created_at b /\ String.leb (ae_id a) (ae_id b) = true.
#[export] Instance row_le_dec : RelDecision row_le.
Proof. intros a b. unfold row_le. apply _. Defined.

(** The rows of a tenant ([IS NOT DISTINCT FROM]), oldest first. *)
Definition scope_rows (t : option string) (rows : list audit_row) : list audit_row :=
  List.filter (fun r => bool_decide (ae_tenant_id r = t)) rows.
Definition scope_log (t : option string) (db : audit_db) : list audit_row :=
  merge_sort row_le (scope_rows t (ad_events db)).

(** The head: the last hashed row of the tenant. *)
Definition chain_head (t : option string) (db : audit_db) : option audit_row :=
  last (List.filter (fun r => bool_decide (is_Some (ae_row_hash r))) (scope_log t db)).

Definition within (n : nat) (s : option string) : bool :=
  match s with Some s => (String.length s <=? n)%nat | None => true end.

Notation aact := (M (world audit_db unit) js_error).

(** The INSERT: widths, primary key and reference are checked. *)
Definition insert_audit (r : audit_row) (db : audit_db) : result js_error (audit_row * audit_db) :=
  if negb (within 64 (Some (ae_action_type r)) && within 255 (Some (ae_actor_id r)) && within 255 (ae_tenant_id r)
           && within 32 (ae_outcome r) && within 255 (ae_correlation_id r))
  then Err (coded "22001" "value too long")
  else if existsb (fun r' => String.eqb (ae_id r') (ae_id r)) (ad_events db) then Err (coded "23505" "duplicate key")
  else if match ae_plan_id r with Some p => negb (str_in p (ad_plans db)) | None => false end
  then Err (coded "23503" "unknown plan")
  else Ok (r, mk_audit_db (ad_events db ++ [r]) (ad_plans db)).

Section writer.
Context `{!Platform, !AuditEnv}.

Definition stored_json (v : jsval) : result js_error jsval :=
  match jsonb v with Some v' => Ok v' | None => Err (coded "22P02" "unsupported JSON") end.

(** [JSON.parse(JSON.stringify(v))] *)
Definition json_copy (v : jsval) : result js_error jsval :=
  match json_parse (json_text v) with Some v' => Ok v' | None => Err (plain_error "SyntaxError") end.

(** [previousState == null ? null : JSON.stringify(previousState)], as stored. *)
Definition stored_previous (v : option jsval) : result js_error (option jsval) :=
  match v with
  | Some v => if nullish v then Ok None else json_copy v ≫= fun v' => stored_json v' ≫= fun s => Ok (Some s)
  | None => Ok None
  end.

Definition merged_state (ev : audit_event) : jsval :=
  let base := default [] (ev_newState ev) in
  match ev_workspaceId ev with
  | Some ws => if nonempty ws then JObj (assoc_set "workspaceId" (JStr ws) base) else JObj base
  | None => JObj base
  end.

(** A row never comes before its predecessor. *)
Definition appended_at (head : option audit_row) (createdAt : Z) : Z :=
  match head with
  | Some h => if createdAt <=? ae_created_at h then ae_created_at h + 1 else createdAt
  | None => createdAt
  end.

(** The row the writer inserts after [head], with the document it hashes and
    the one the column gives back. *)
Definition audit_row_for (ev : audit_event) (id : string) (createdAt : Z) (head : option audit_row)
    (merged stored : jsval) (previous : option jsval) : audit_row :=
  let at_ := String.substring 0 64 (default "action" (ev_actionType ev)) in
  let actor := default "unknown" (ev_actorId ev) in
  let outcome := default (Some "succeeded") (ev_outcome ev) in
  let prevHash := default "" (head ≫= ae_row_hash) in
  let created := appended_at head createdAt in
  mk_audit_row id at_ actor (ev_tenantId ev) (ev_planId ev) previous stored outcome (ev_correlationId ev) created
    (Some prevHash)
    (Some (computeRowHash (auditCanonical (mk_audit_fields id at_ actor (ev_tenantId ev) outcome created merged)) prevHash)).

Definition recordAuditEventInTransaction (ev : audit_event) : aact audit_row :=
  id ← random_uuid;
  now ← now_ms;
  merged ← lift (json_copy (merged_state ev));
  head ← query_db (chain_head (ev_tenantId ev));
  previous ← lift (stored_previous (ev_previousState ev));
  stored ← lift (stored_json merged);
  exec_db_err (insert_audit (audit_row_for ev id (Z.of_N now) head merged stored previous)).

Definition recordAuditEvent (ev : audit_event) : aact audit_row :=
  in_transaction (recordAuditEventInTransaction ev).

(** Calls one after the other, with their results; the best-effort caller
    drops the errors. *)
Fixpoint record_all (evs : list audit_event) (w : world audit_db unit) : list (result js_error audit_row) * world audit_db unit :=
  match evs with
  | [] => ([], w)
  | ev :: evs' => let '(res, w1) := recordAuditEvent ev w in
                  let '(ress, w2) := record_all evs' w1 in (res :: ress, w2)
  end.

End writer.

(** ** The reader *)

Definition ACTION_CATEGORY_BY_TYPE : list (string * string) :=
  [("tenant.audit.export", "configuration_change");
   ("tenant.config.export", "configuration_change");
   ("webhook.subscription.create", "resource_creation");
   ("webhook.subscription.delete", "resource_deletion");
   ("webhook.subscription.pause", "configuration_change");
   ("webhook.subscription.resume", "configuration_change");
   ("webhook.subscription.rotate-secret", "configuration_change");
   ("webhook.subscription.update", "configuration_change");
   ("workspace.application.create", "resource_creation");
   ("workspace.application.federation-provider.create", "access_control_modification");
   ("workspace.application.federation-provider.update", "access_control_modification");
   ("workspace.application.update", "configuration_change");
   ("workspace.audit.export", "configuration_change");
   ("workspace.clone", "resource_creation");
   ("workspace.database.delete", "configuration_change");
   ("workspace.delete", "resource_deletion");
   ("workspace.docs.note.create", "resource_creation");
   ("workspace.docs.note.delete", "resource_deletion");
   ("workspace.docs.note.update", "configuration_change");
   ("workspace.events.topic.create", "resource_creation");
   ("workspace.function.activation.rerun", "configuration_change");
   ("workspace.function.definition.import", "resource_creation");
   ("workspace.function.delete", "configuration_change");
   ("workspace.function.deploy", "configuration_change");
   ("workspace.function.invoke", "configuration_change");
   ("workspace.function.package-definition.import", "resource_creation");
   ("workspace.function.rollback", "configuration_change");
   ("workspace.iam-client.create", "configuration_change");
   ("workspace.mongo.data.export", "configuration_change");
   ("workspace.mongo.data.import", "configuration_change");
   ("workspace.postgres.data.export", "configuration_change");
   ("workspace.postgres.data.import", "configuration_change");
   ("workspace.secret.replace", "configuration_change");
   ("workspace.service-account.delete", "access_control_modification");
   ("workspace.storage.bucket.create", "resource_creation");
   ("workspace.storage.bucket.delete", "resource_deletion");
   ("workspace.storage.bucket.export", "configuration_change");
   ("workspace.storage.bucket.import", "configuration_change");
   ("workspace.storage.credential.revoke", "access_control_modification");
   ("workspace.storage.credential.rotate", "configuration_change");
   ("tenant.create", "resource_creation");
   ("tenant.delete", "resource_deletion");
   ("tenant.purge", "resource_deletion");
   ("tenant.user.create", "access_control_modification");
   ("tenant.auth-config.update", "access_control_modification");
   ("tenant.social-provider.upsert", "access_control_modification");
   ("tenant.social-provider.delete", "access_control_modification");
   ("workspace.create", "resource_creation");
   ("workspace.promote", "configuration_change");
   ("workspace.service-account.create", "access_control_modification");
   ("workspace.service-account.credential.issue", "access_control_modification");
   ("workspace.service-account.credential.rotate", "configuration_change");
   ("workspace.service-account.credential.revoke", "access_control_modification");
   ("workspace.database.provision", "resource_creation");
   ("workspace.database.credential.rotate", "configuration_change");
   ("workspace.function.register", "resource_creation");
   ("workspace.secret.set", "configuration_change");
   ("workspace.secret.get", "configuration_change");
   ("workspace.secret.list", "configuration_change");
   ("workspace.secret.delete", "configuration_change");
   ("iam.user.create", "access_control_modification");
   ("iam.user.delete", "access_control_modification");
   ("iam.user.status", "access_control_modification");
   ("iam.role.create", "access_control_modification");
   ("iam.group.create", "access_control_modification");
   ("iam.user.role-assign", "access_control_modification");
   ("iam.user.role-remove", "access_control_modification");
   ("iam.user.group-add", "access_control_modification");
   ("iam.user.group-remove", "access_control_modification");
   ("quota.override.created", "quota_adjustment");
   ("quota.override.modified", "quota_adjustment");
   ("quota.override.revoked", "quota_adjustment");
   ("quota.override.superseded", "quota_adjustment");
   ("quota.override.expired", "quota_adjustment");
   ("quota.sub_quota.set", "quota_adjustment");
   ("quota.sub_quota.removed", "quota_adjustment");
   ("plan.limit.set", "quota_adjustment");
   ("plan.limit.removed", "quota_adjustment");
   ("plan.capability.enabled", "configuration_change");
   ("plan.capability.disabled", "configuration_change");
   ("plan.created", "configuration_change");
   ("plan.updated", "configuration_change")].

Definition filterValue (v : option string) : option string :=
  match v with Some s => if nonempty s then Some s else None | None => None end.

Definition category_of_type (action_type : string) : string :=
  default "configuration_change" (assoc_lookup action_type ACTION_CATEGORY_BY_TYPE).

Definition auditActionCategoryForType (actionType explicitCategory : option string) : string :=
  match filterValue explicitCategory with
  | Some c => c
  | None => match filterValue actionType with Some k => category_of_type k | None => "configuration_change" end
  end.

Section reader.
Context `{!AuditEnv}.

(** [new_state->>'k']: the text of a field, none for null. *)
Definition json_field_text (v : jsval) (k : string) : option string :=
  match js_get v k with
  | JUndef | JNull => None
  | JStr s => Some s
  | x => Some (json_text x)
  end.

Definition ACTION_CATEGORY_SQL (r : audit_row) : string :=
  match filterValue (json_field_text (ae_new_state r) "actionCategory") with
  | Some c => c
  | None => match filterValue (json_field_text (ae_new_state r) "action_category") with
            | Some c => c
            | None => category_of_type (ae_action_type r)
            end
  end.

Record audit_query := mk_audit_query {
  aq_tenantId : option string;
  aq_workspaceId : option string;
  aq_limit : jsnum;
  aq_outcome : option string;
  aq_actionCategory : option string;
  aq_actorId : option string;
  aq_correlationId : option string;
  aq_occurredAfter : option Z;
  aq_occurredBefore : option Z
}.

(** [Math.min(Math.max(Number(limit) || 50, 1), 200)]; the LIMIT parameter is a
    bigint, which refuses the text of a fraction. *)
Definition safe_limit (n : jsnum) : result js_error Z :=
  let n := if truthy (JNum n) then n else NInt 50 in
  match num_min (if num_leb n (NInt 1) then NInt 1 else n) (NInt 200) with
  | NInt z => Ok z
  | _ => Err (coded "22P02" "invalid input syntax for type bigint")
  end.

Definition opt_filter {A} (o : option A) (p : A -> bool) : bool :=
  match o with Some a => p a | None => true end.

Definition query_where (q : audit_query) (t : string) (r : audit_row) : bool :=
  bool_decide (ae_tenant_id r = Some t)
  && opt_filter (filterValue (aq_workspaceId q)) (fun w => bool_decide (json_field_text (ae_new_state r) "workspaceId" = Some w))
  && opt_filter (filterValue (aq_outcome q)) (fun o => bool_decide (ae_outcome r = Some o))
  && opt_filter (filterValue (aq_actionCategory q)) (fun c => String.eqb (ACTION_CATEGORY_SQL r) c || String.eqb (ae_action_type r) c)
  && opt_filter (filterValue (aq_actorId q)) (fun a => String.eqb (ae_actor_id r) a)
  && opt_filter (filterValue (aq_correlationId q)) (fun c => bool_decide (ae_correlation_id r = Some c))
  && opt_filter (aq_occurredAfter q) (fun z => z <=? ae_created_at r)
  && opt_filter (aq_occurredBefore q) (fun z => ae_created_at r <=? z).

Definition queryAuditEvents (q : audit_query) (db : audit_db) : result js_error (list audit_row) :=
  match filterValue (aq_tenantId q) with
  | None => Ok []
  | Some t =>
      safe_limit (aq_limit q) ≫= fun limit =>
      Ok (take (Z.to_nat limit) (reverse (merge_sort row_le (List.filter (query_where q t) (ad_events db)))))
  end.

End reader.
