(* ===== verification/AuditChainProofs.v ===== *)
(** * Properties of the audit log

    The text that is hashed does not depend on the order of keys and determines
    the fields; every log the writer leaves verifies; two verified logs with the
    same head have the same contents, or two texts with the same hash are given. *)
From S2P Require Import Prelude JsValue Json Platform IsoDate AuditChain.
From stdpp Require Import sorting.
From Stdlib Require Import Ascii.
Local Open Scope Z_scope.

(** ** Lists sorted by key *)

Definition on_value {A B} (f : A -> B) (kv : string * A) : string * B := (kv.1, f kv.2).

Lemma on_value_keys {A B} (f : A -> B) l : (List.map (on_value f) l).*1 = l.*1.
Proof. induction l as [|kv l IH]; cbn; [done|]. by rewrite <- IH. Qed.

Lemma Sorted_on_value {A B} (f : A -> B) l : Sorted key_le l -> Sorted key_le (List.map (on_value f) l).
Proof.
  induction 1 as [|kv l _ IH Hhd]; cbn; constructor; [done|]. destruct Hhd; cbn; by constructor.
Qed.

(** Sorting looks at the keys only. *)
Lemma sort_on_value {A B} (f : A -> B) l : NoDup l.*1 ->
  merge_sort key_le (List.map (on_value f) l) = List.map (on_value f) (merge_sort key_le l).
Proof.
  intros Hn. rewrite <- (sort_fields_unique (List.map (on_value f) (merge_sort key_le l))).
  - apply (Sorted_unique_strong key_le).
    + intros a b Ha Hb Hab Hba.
      assert (Heq : a.1 = b.1) by by apply String.leb_antisym.
      rewrite merge_sort_Permutation in Ha. apply list_elem_of_lookup in Ha as [i Hi], Hb as [j Hj].
      assert (Hn' : NoDup (List.map (on_value f) (merge_sort key_le l)).*1)
        by (rewrite on_value_keys; by rewrite merge_sort_Permutation).
      assert (i = j) as <- by (eapply NoDup_lookup; [exact Hn'| |];
        rewrite list_lookup_fmap, ?Hi, ?Hj; cbn; [reflexivity|by rewrite Heq]). congruence.
    + apply Sorted_merge_sort, _.
    + apply Sorted_on_value, Sorted_merge_sort, _.
    + apply merge_sort_Permutation.
  - rewrite on_value_keys. by rewrite merge_sort_Permutation.
  - apply Permutation_map, merge_sort_Permutation.
Qed.

Section text.
Context `{AE : !AuditEnv}.

(** ** The text does not depend on the order of keys *)

Lemma stable_same v v' : same_json v v' -> stableStringify v = stableStringify v'.
Proof.
  apply (same_json_mut (fun v v' => stableStringify v = stableStringify v')
    (fun xs ys => List.map stableStringify xs = List.map stableStringify ys)
    (fun kvs kvs' => List.map (on_value stableStringify) kvs = List.map (on_value stableStringify) kvs')).
  - done.
  - intros xs ys _ IH. cbn. by rewrite IH.
  - intros kvs kvs' kvs'' Hn _ IH Hp. cbn [stableStringify]. fold (on_value stableStringify).
    change (fun kv : string * jsval => (kv.1, stableStringify kv.2)) with (on_value stableStringify).
    rewrite IH, (sort_fields_unique _ (List.map (on_value stableStringify) kvs'')); [done| |by apply Permutation_map].
    by rewrite <- IH, on_value_keys.
  - done.
  - intros x y xs ys _ Hx _ Hxs. cbn. by rewrite Hx, Hxs.
  - done.
  - intros k x y kvs kvs' _ Hx _ Hxs. cbn. unfold on_value at 1 3. cbn. by rewrite Hx, Hxs.
Qed.

(** ** The text determines the value up to the order of keys *)

Fixpoint key_sorted (v : jsval) : jsval :=
  match v with
  | JUndef => JNull
  | JArr xs => JArr (List.map key_sorted xs)
  | JObj kvs => JObj (merge_sort key_le (List.map (fun kv => (kv.1, key_sorted kv.2)) kvs))
  | _ => v
  end.

Lemma plain_forall {A} (p : A -> jsval) l :
  foldr and True (List.map (fun x => plain (p x)) l) <-> Forall (fun x => plain (p x)) l.
Proof.
  induction l as [|x l IH]; cbn; [by split; [constructor|]|]. rewrite IH, Forall_cons. done.
Qed.

Lemma key_sorted_defined v : is_undef (key_sorted v) = false.
Proof. by destruct v. Qed.

Lemma defined_fields_text (kvs : list (string * jsval)) : Forall (fun kv => is_undef kv.2 = false) kvs ->
  List.flat_map (fun kv => if is_undef kv.2 then [] else [json_string kv.1 +:+ ":" +:+ json_text kv.2]) kvs
  = List.map (fun kt => json_string kt.1 +:+ ":" +:+ kt.2) (List.map (on_value json_text) kvs).
Proof. induction 1 as [|kv kvs Hu _ IH]; cbn; [done|]. by rewrite Hu, IH. Qed.

Lemma stable_text v : plain v -> stableStringify v = json_text (key_sorted v).
Proof.
  induction v as [| |b|n|s|xs IH|kvs IH] using jsval_nested_ind; try done.
  - intros Hp. apply (plain_forall id) in Hp. cbn [stableStringify key_sorted json_text]. rewrite List.map_map.
    rewrite (List.map_ext_in stableStringify (fun x => json_text (key_sorted x))); [done|].
    intros x Hx%list_elem_of_In. rewrite Forall_forall in IH, Hp. by apply IH, Hp.
  - intros [Hn Hp]. apply (plain_forall snd) in Hp. cbn [stableStringify key_sorted json_text].
    change (fun kv : string * jsval => (kv.1, stableStringify kv.2)) with (on_value stableStringify).
    change (fun kv : string * jsval => (kv.1, key_sorted kv.2)) with (on_value key_sorted).
    rewrite defined_fields_text.
    + rewrite <- (sort_on_value json_text) by (by rewrite on_value_keys). rewrite List.map_map.
      rewrite (List.map_ext_in (on_value stableStringify) (fun kv => on_value json_text (on_value key_sorted kv))); [done|].
      intros kv Hkv%list_elem_of_In. unfold on_value. cbn [fst snd]. f_equal.
      rewrite Forall_forall in IH, Hp. by apply IH, Hp.
    + apply Forall_forall. intros kv. rewrite merge_sort_Permutation.
      intros (kv' & <- & _)%list_elem_of_In%List.in_map_iff. apply key_sorted_defined.
Qed.

Lemma key_sorted_plain v : plain v -> plain (key_sorted v).
Proof.
  induction v as [| |b|n|s|xs IH|kvs IH] using jsval_nested_ind; try done.
  - intros Hp. apply (plain_forall id) in Hp. apply (plain_forall id). apply Forall_forall.
    intros x (y & <- & Hy)%list_elem_of_In%List.in_map_iff. apply list_elem_of_In in Hy.
    rewrite Forall_forall in IH, Hp. by apply IH, Hp.
  - intros [Hn Hp]. apply (plain_forall snd) in Hp. split.
    + rewrite merge_sort_Permutation. fold (on_value key_sorted). by rewrite on_value_keys.
    + apply (plain_forall snd). apply Forall_forall. intros kv. rewrite merge_sort_Permutation.
      intros (kv' & <- & Hkv)%list_elem_of_In%List.in_map_iff. apply list_elem_of_In in Hkv. cbn.
      rewrite Forall_forall in IH, Hp. by apply IH, Hp.
Qed.

Lemma stable_inj v v' : plain v -> plain v' -> stableStringify v = stableStringify v' -> key_sorted v = key_sorted v'.
Proof.
  intros Hv Hv'. rewrite !stable_text by done. intros H.
  pose proof (json_parse_text _ (key_sorted_plain _ Hv)) as E. rewrite H, json_parse_text in E
    by by apply key_sorted_plain. congruence.
Qed.

(** ** The text is one line *)

Definition one_line (s : string) : Prop := free_of newline (chars s) = true.

Lemma one_line_app a b : one_line a -> one_line b -> one_line (a +:+ b).
Proof. unfold one_line. rewrite chars_app, free_of_app. by intros -> ->. Qed.

Lemma one_line_json_char c : one_line (json_char c).
Proof. by destruct c as [[] [] [] [] [] [] [] []]; vm_compute. Qed.

Lemma one_line_json_string s : one_line (json_string s).
Proof.
  unfold json_string. apply one_line_app; [done|]. apply one_line_app; [|done].
  induction (chars s) as [|c l IH]; [done|]. cbn [foldr]. apply one_line_app; [apply one_line_json_char | done].
Qed.

Lemma one_line_join xs : Forall one_line xs -> one_line (JsValue.join "," xs).
Proof.
  induction 1 as [|x xs Hx Hxs IH]; [done|]. destruct xs as [|y ys]; [done|].
  change (one_line (x +:+ "," +:+ JsValue.join "," (y :: ys))). apply one_line_app; [done|]. by apply one_line_app.
Qed.

Lemma digit_not_newline l : Forall (fun c => is_digit c = true) l -> free_of newline l = true.
Proof.
  induction 1 as [|c l Hc _ IH]; [done|]. rewrite free_of_cons, IH, andb_true_r.
  apply negb_true_iff. destruct (Ascii.eqb_spec newline c) as [<-|]; [by vm_compute in Hc | done].
Qed.

Lemma one_line_show_Z z : one_line (show_Z z).
Proof.
  assert (HN : forall n : N, (0 < n)%N -> free_of newline (chars (pretty.pretty_N_go n "")) = true).
  { intros n Hn. destruct (pretty_digits n Hn) as (d & ds & Hs & Hds & _). rewrite Hs, app_nil_r. by apply digit_not_newline. }
  destruct z as [|p|p]; [done| |].
  - change (free_of newline (chars (pretty.pretty_N_go (N.pos p) "")) = true). by apply HN.
  - change (free_of newline ("-"%char :: chars (pretty.pretty_N_go (N.pos p) "")) = true). rewrite free_of_cons. by rewrite HN.
Qed.

Lemma one_line_text v : plain v -> one_line (json_text v).
Proof.
  induction v as [| |b|n|s|xs IH|kvs IH] using jsval_nested_ind; intros Hp; try done.
  - by destruct b.
  - destruct n; try done. apply one_line_show_Z.
  - apply one_line_json_string.
  - apply (plain_forall id) in Hp. cbn [json_text]. apply one_line_app; [done|]. apply one_line_app; [|done].
    apply one_line_join, Forall_forall. intros s (x & <- & Hx)%list_elem_of_In%List.in_map_iff.
    apply list_elem_of_In in Hx. rewrite Forall_forall in IH, Hp. by apply IH, Hp.
  - destruct Hp as [_ Hp]. apply (plain_forall snd) in Hp. cbn [json_text]. apply one_line_app; [done|].
    apply one_line_app; [|done]. apply one_line_join, Forall_forall.
    intros s (kv & Hkv & Hin)%list_elem_of_In%List.in_flat_map. apply list_elem_of_In in Hkv.
    destruct (is_undef kv.2); [done|]. destruct Hin as [<- | []].
    apply one_line_app; [apply one_line_json_string|]. apply one_line_app; [done|].
    rewrite Forall_forall in IH, Hp. by apply IH, Hp.
Qed.

Lemma line_split_inj (a a' p p' : list ascii) : free_of newline a = true -> free_of newline a' = true ->
  a ++ newline :: p = a' ++ newline :: p' -> a = a' /\ p = p'.
Proof.
  revert a'. induction a as [|c a IH]; intros [|c' a'] Ha Ha'; cbn [app]; intros H.
  - by injection H as ->.
  - injection H as <- _. by rewrite free_of_cons in Ha'.
  - injection H as -> _. by rewrite free_of_cons in Ha.
  - injection H as <- H. rewrite free_of_cons in Ha, Ha'. apply andb_true_iff in Ha as [_ Ha], Ha' as [_ Ha'].
    by destruct (IH a' Ha Ha' H) as [-> ->].
Qed.

(** ** The hash of a row determines its contents *)

(** Two different texts with the same hash. *)
Definition collision : Prop := exists a b, a <> b /\ audit_digest a = audit_digest b.

Lemma rowHash_inj c c' p p' : one_line c -> one_line c' -> computeRowHash c p = computeRowHash c' p' ->
  (c = c' /\ p = p') \/ collision.
Proof.
  intros Hc Hc' H. unfold computeRowHash in H.
  set (a := c +:+ String newline "" +:+ p) in *. set (b := c' +:+ String newline "" +:+ p') in *.
  destruct (decide (a = b)) as [E|E]; [left | right; by exists a, b].
  apply (f_equal chars) in E. unfold a, b in E. rewrite !chars_app in E. cbn [chars String.list_ascii_of_string app] in E.
  apply line_split_inj in E as [H1 H2]; [|done..].
  by rewrite <- (of_chars_chars c), <- (of_chars_chars c'), <- (of_chars_chars p), <- (of_chars_chars p'), H1, H2.
Qed.

(** The state a row stands for in its hash. *)
Definition hashed_state (r : audit_row) : jsval := coalesce (ae_new_state r) (JObj []).

(** Rows whose contents the hash covers: whole numbers, a time a [Date] holds. *)
Definition hashable (r : audit_row) : Prop := plain (hashed_state r) /\ valid_time (ae_created_at r).

(** The hashed contents of two rows agree; objects are compared by their fields. *)
Record same_contents (r r' : audit_row) : Prop := {
  sc_id : ae_id r = ae_id r';
  sc_action : ae_action_type r = ae_action_type r';
  sc_actor : ae_actor_id r = ae_actor_id r';
  sc_tenant : ae_tenant_id r = ae_tenant_id r';
  sc_outcome : ae_outcome r = ae_outcome r';
  sc_created : ae_created_at r = ae_created_at r';
  sc_state : key_sorted (hashed_state r) = key_sorted (hashed_state r');
  sc_hash : rh r = rh r'
}.

Lemma canonical_plain r : hashable r -> plain (canonical_object (fields_of_row r)).
Proof.
  intros [Hp _]. split; [by apply (bool_decide_eq_true_1 _)|].
  cbn. destruct (ae_tenant_id r), (ae_outcome r); repeat split; try done; exact Hp.
Qed.

Lemma canonical_sorted f : key_sorted (canonical_object f) =
  JObj [("action_type", JStr (af_actionType f)); ("actor_id", JStr (af_actorId f));
        ("created_at", JStr (toISOString (af_createdAt f))); ("id", JStr (af_id f));
        ("new_state", key_sorted (coalesce (af_newState f) (JObj [])));
        ("outcome", key_sorted (jstr_opt (af_outcome f))); ("tenant_id", key_sorted (jstr_opt (af_tenantId f)))].
Proof. reflexivity. Qed.

Lemma jstr_opt_inj o o' : key_sorted (jstr_opt o) = key_sorted (jstr_opt o') -> o = o'.
Proof. destruct o, o'; cbn; congruence. Qed.

Lemma canonical_inj r r' : hashable r -> hashable r' -> rh r = rh r' ->
  auditCanonical (fields_of_row r) = auditCanonical (fields_of_row r') -> same_contents r r'.
Proof.
  intros Hr Hr' Hh Hc. apply stable_inj in Hc; [|by apply canonical_plain..].
  rewrite !canonical_sorted in Hc. injection Hc as Ha Hact Ht Hi Hs Ho Hte.
  apply jstr_opt_inj in Ho, Hte. apply toISOString_inj in Ht; [|apply Hr | apply Hr']. by constructor.
Qed.

Lemma canonical_one_line r : hashable r -> one_line (auditCanonical (fields_of_row r)).
Proof.
  intros Hr. unfold auditCanonical. rewrite stable_text by by apply canonical_plain.
  by apply one_line_text, key_sorted_plain, canonical_plain.
Qed.

(** ** A verified log, read from its end *)

Lemma verify_rows_app anchor l r : forall before i,
  verify_rows anchor before i (l ++ [r]) = None <->
  verify_rows anchor before i l = None /\ row_valid anchor (match last l with Some b => Some b | None => before end) r = true.
Proof.
  induction l as [|x l IH]; intros before i; cbn [app verify_rows].
  - cbn. destruct (row_valid anchor before r); naive_solver.
  - destruct (row_valid anchor before x); [|naive_solver]. rewrite IH. rewrite last_cons. by destruct (last l).
Qed.

Lemma verify_snoc anchor l r : verifyAuditChain (l ++ [r]) anchor = None <->
  verifyAuditChain l anchor = None /\ row_valid anchor (last l) r = true.
Proof. unfold verifyAuditChain. rewrite verify_rows_app. by destruct (last l). Qed.

(** The hash at the end of a log, or what it must start from. *)
Definition head_hash (anchor : string) (l : list audit_row) : string := from_option rh anchor (last l).

Lemma row_valid_spec anchor l r : row_valid anchor (last l) r = true <->
  nonempty (rh r) = true /\ is_Some (ae_prev_hash r) /\ ph r = head_hash anchor l
  /\ computeRowHash (auditCanonical (fields_of_row r)) (ph r) = rh r.
Proof.
  unfold row_valid, head_hash. rewrite !andb_true_iff, bool_decide_eq_true, String.eqb_eq.
  destruct (last l) as [b|]; cbn [from_option]; rewrite String.eqb_eq; clear; tauto.
Qed.

Lemma head_hash_snoc anchor l r : head_hash anchor (l ++ [r]) = rh r.
Proof. unfold head_hash. by rewrite last_snoc. Qed.

Lemma logs_agree l l' : Forall hashable l -> Forall hashable l' ->
  verifyAuditChain l "" = None -> verifyAuditChain l' "" = None -> head_hash "" l = head_hash "" l' ->
  Forall2 same_contents l l' \/ collision.
Proof.
  revert l'. induction l as [|r l IH] using rev_ind; intros l' Hl Hl' Hv Hv' Hh; destruct l' as [|r' l' _] using rev_ind.
  - by left.
  - rewrite head_hash_snoc in Hh. apply verify_snoc in Hv' as [_ (Hn & _)%row_valid_spec].
    rewrite <- Hh in Hn. done.
  - rewrite head_hash_snoc in Hh. apply verify_snoc in Hv as [_ (Hn & _)%row_valid_spec].
    rewrite Hh in Hn. done.
  - rewrite !head_hash_snoc in Hh. apply Forall_app in Hl as [Hl Hr], Hl' as [Hl' Hr'].
    rewrite Forall_singleton in Hr, Hr'.
    apply verify_snoc in Hv as [Hv (_ & _ & Hp & Hc)%row_valid_spec], Hv' as [Hv' (_ & _ & Hp' & Hc')%row_valid_spec].
    rewrite Hp in Hc. rewrite Hp', <- Hh, <- Hc in Hc'.
    apply rowHash_inj in Hc' as [[Hcc Hpp]|?]; [| |by apply canonical_one_line..]; [|by right].
    destruct (IH l' Hl Hl' Hv Hv' (eq_sym Hpp)) as [H|?]; [left | by right].
    apply Forall2_app; [done|]. constructor; [|constructor]. by apply canonical_inj.
Qed.

(** ** The log the writer leaves *)

(** The rows of a tenant are in the order of their insertion, which is the
    order of their times, and they verify. *)
Definition chained (db : audit_db) : Prop := forall t,
  StronglySorted (fun a b => ae_created_at a < ae_created_at b) (scope_rows t (ad_events db))
  /\ verifyAuditChain (scope_rows t (ad_events db)) "" = None.

#[local] Instance row_le_total : Total row_le.
Proof.
  intros a b. unfold row_le. destruct (Z.lt_trichotomy (ae_created_at a) (ae_created_at b)) as [?|[?|?]]; auto.
  destruct (String.leb_total (ae_id a) (ae_id b)); auto.
Qed.

#[local] Instance row_le_trans : Transitive row_le.
Proof.
  intros a b c [H1|[H1 L1]] [H2|[H2 L2]]; unfold row_le; [left; lia..|right; split; [lia|]].
  exact (key_le_trans (ae_id a, tt) (ae_id b, tt) (ae_id c, tt) L1 L2).
Qed.

Lemma strictly_sorted_log l : StronglySorted (fun a b => ae_created_at a < ae_created_at b) l -> merge_sort row_le l = l.
Proof.
  intros Hs. symmetry. apply (Sorted_unique_strong row_le).
  - intros a b Ha Hb [?|[? ?]] [?|[? ?]]; try lia. rewrite merge_sort_Permutation in Hb.
    assert (Hi : ae_created_at a = ae_created_at b -> a = b); [|by apply Hi].
    clear -Hs Ha Hb. induction Hs as [|x l _ IH Hx]; [by apply elem_of_nil in Ha|].
    rewrite Forall_forall in Hx. rewrite elem_of_cons in Ha, Hb.
    destruct Ha as [->|Ha], Hb as [->|Hb]; auto; intros; [specialize (Hx _ Hb)|specialize (Hx _ Ha)]; lia.
  - apply StronglySorted_Sorted. clear -Hs. induction Hs as [|x l _ IH Hx]; constructor; [done|].
    eapply Forall_impl; [exact Hx|]. intros y ?. by left.
  - apply Sorted_merge_sort, _.
  - symmetry. apply merge_sort_Permutation.
Qed.

Lemma scope_rows_app t l r : scope_rows t (l ++ [r]) =
  if decide (ae_tenant_id r = t) then scope_rows t l ++ [r] else scope_rows t l.
Proof.
  unfold scope_rows. rewrite List.filter_app. cbn [List.filter].
  case_bool_decide; case_decide; try done. by rewrite app_nil_r.
Qed.

Lemma verified_hashed l : verifyAuditChain l "" = None ->
  List.filter (fun r => bool_decide (is_Some (ae_row_hash r))) l = l.
Proof.
  induction l as [|r l IH] using rev_ind; [done|]. intros [Hv (Hn & _)%row_valid_spec]%verify_snoc.
  rewrite List.filter_app, IH by done. cbn [List.filter]. rewrite bool_decide_true; [done|].
  unfold rh in Hn. by destruct (ae_row_hash r).
Qed.

Lemma chained_head t db : chained db -> chain_head t db = last (scope_rows t (ad_events db)).
Proof.
  intros Hc. destruct (Hc t) as [Hs Hv]. unfold chain_head, scope_log.
  by rewrite strictly_sorted_log, verified_hashed.
Qed.

(** A column of type JSONB keeps a document but for the order of its keys. *)
Definition jsonb_keeps : Prop := forall s v v', json_parse s = Some v -> jsonb v = Some v' -> same_json v v'.
(** A hexadecimal digest is not empty. *)
Definition digest_nonempty : Prop := forall s, audit_digest s <> "".

Lemma same_json_coalesce v v' d : same_json v v' -> same_json d d -> same_json (coalesce v d) (coalesce v' d).
Proof. intros H Hd. unfold coalesce. destruct H; [by destruct (nullish v); [|constructor]|by constructor|by econstructor]. Qed.

Lemma canonical_same id a ac t o c s s' : same_json s s' ->
  auditCanonical (mk_audit_fields id a ac t o c s) = auditCanonical (mk_audit_fields id a ac t o c s').
Proof.
  intros Hs. apply stable_same. eapply same_obj; [by apply (bool_decide_eq_true_1 _)| |reflexivity].
  assert (Hempty : same_json (JObj []) (JObj [])) by (econstructor; [constructor|constructor|constructor]).
  repeat (apply same_fields_cons; [first [by apply same_json_coalesce | destruct t; by constructor
    | destruct o; by constructor | by constructor]|]). constructor.
Qed.

Lemma insert_audit_ok r db r' db' : insert_audit r db = Ok (r', db') -> r' = r /\ db' = mk_audit_db (ad_events db ++ [r]) (ad_plans db).
Proof. unfold insert_audit. intros H. repeat case_match; by simplify_eq. Qed.

Lemma appended_row_valid ev id now l merged stored previous : digest_nonempty -> same_json merged stored ->
  row_valid "" (last l) (audit_row_for ev id now (last l) merged stored previous) = true.
Proof.
  intros Hd Hs. apply row_valid_spec. split_and!; [|done| |].
  - apply nonempty_true, Hd.
  - unfold ph, head_hash. cbn. by destruct (last l).
  - unfold rh, ph, fields_of_row, computeRowHash. cbn [ae_id ae_action_type ae_actor_id ae_tenant_id ae_outcome
      ae_created_at ae_new_state ae_prev_hash ae_row_hash audit_row_for default].
    rewrite <- (canonical_same _ _ _ _ _ _ _ _ Hs). reflexivity.
Qed.

Lemma chained_insert ev id now merged stored previous db :
  digest_nonempty -> same_json merged stored -> chained db ->
  chained (mk_audit_db (ad_events db ++ [audit_row_for ev id now (chain_head (ev_tenantId ev) db) merged stored previous]) (ad_plans db)).
Proof.
  intros Hd Hs Hc t. cbn [ad_events]. rewrite chained_head by done.
  set (r := audit_row_for _ _ _ _ _ _ _). rewrite scope_rows_app. case_decide as Ht; [|apply Hc].
  cbn in Ht. subst t. destruct (Hc (ev_tenantId ev)) as [Hsort Hv]. split.
  - apply StronglySorted_app. split_and!; [|done|by repeat constructor].
    intros x y Hx ->%list_elem_of_singleton.
    destruct (scope_rows (ev_tenantId ev) (ad_events db)) as [|h l _] eqn:E using rev_ind; [by apply not_elem_of_nil in Hx|].
    assert (Hle : ae_created_at x <= ae_created_at h).
    { apply elem_of_app in Hx as [Hx| ->%list_elem_of_singleton]; [|lia].
      apply (StronglySorted_app_1_elem_of _ _ _ x h) in Hsort; [cbn in Hsort; lia|done|by left]. }
    unfold r. cbn [ae_created_at audit_row_for]. rewrite last_snoc. unfold appended_at.
    destruct (Z.leb_spec now (ae_created_at h)); lia.
  - apply verify_snoc. split; [done|]. by apply appended_row_valid.
Qed.

End text.

Section writer.
Context `{PL : !Platform, AE : !AuditEnv}.
Notation aworld := (world audit_db unit).

(** What one call leaves: an error and the same table, or one row more. *)
Lemma append_outcome ev (w : aworld) :
  let '(res, w') := recordAuditEventInTransaction ev w in
  (exists e, res = Err e) /\ w_db w' = w_db w \/
  exists id now merged stored previous row, res = Ok row /\
    row = audit_row_for ev id now (chain_head (ev_tenantId ev) (w_db w)) merged stored previous /\
    json_parse (json_text (merged_state ev)) = Some merged /\ jsonb merged = Some stored /\
    w_db w' = mk_audit_db (ad_events (w_db w) ++ [row]) (ad_plans (w_db w)).
Proof.
  unfold recordAuditEventInTransaction, json_copy.
  unfold mbind, M_bind, random_uuid, now_ms, query_db, exec_db_err, lift.
  destruct (json_parse (json_text (merged_state ev))) as [merged|] eqn:Em; [|by left; eauto].
  cbn [w_db w_uuids w_tick]. destruct (stored_previous _) as [previous|e]; [|by left; eauto].
  unfold stored_json. destruct (jsonb merged) as [stored|] eqn:Es; [|by left; eauto]. cbn [w_db].
  destruct (insert_audit _ _) as [[r' db']|e] eqn:Ei; [|by left; eauto]. apply insert_audit_ok in Ei as [-> ->].
  right. cbn -[audit_row_for chain_head merged_state] in *. naive_solver.
Qed.

Lemma record_outcome ev (w : aworld) :
  let '(res, w') := recordAuditEvent ev w in
  (exists e, res = Err e) /\ w_db w' = w_db w \/
  exists id now merged stored previous row, res = Ok row /\
    row = audit_row_for ev id now (chain_head (ev_tenantId ev) (w_db w)) merged stored previous /\
    json_parse (json_text (merged_state ev)) = Some merged /\ jsonb merged = Some stored /\
    w_db w' = mk_audit_db (ad_events (w_db w) ++ [row]) (ad_plans (w_db w)).
Proof.
  pose proof (append_outcome ev w) as Ho. unfold recordAuditEvent, in_transaction.
  destruct (recordAuditEventInTransaction ev w) as [[row|e] w']; [done|]. left. by eauto.
Qed.

Definition ok_value {E A} (r : result E A) : option A := match r with Ok a => Some a | Err _ => None end.

(** One call keeps the log chained, and appends the row it returns. *)
Lemma outcome_chained ev (w : aworld) (res : result js_error audit_row) (w' : aworld) :
  digest_nonempty -> jsonb_keeps -> chained (w_db w) ->
  (exists e, res = Err e) /\ w_db w' = w_db w \/
  (exists id now merged stored previous row, res = Ok row /\
    row = audit_row_for ev id now (chain_head (ev_tenantId ev) (w_db w)) merged stored previous /\
    json_parse (json_text (merged_state ev)) = Some merged /\ jsonb merged = Some stored /\
    w_db w' = mk_audit_db (ad_events (w_db w) ++ [row]) (ad_plans (w_db w))) ->
  chained (w_db w') /\ ad_events (w_db w') = ad_events (w_db w) ++ omap ok_value [res].
Proof.
  intros Hd Hj Hc [[[e ->] ->]|(id & now & merged & stored & previous & row & -> & -> & Hp & Hs & ->)].
  - cbn. by rewrite app_nil_r.
  - split; [|done]. apply chained_insert; [done| |done]. by eapply Hj.
Qed.

Lemma record_chained ev (w : aworld) : digest_nonempty -> jsonb_keeps -> chained (w_db w) ->
  let '(res, w') := recordAuditEvent ev w in
  chained (w_db w') /\ ad_events (w_db w') = ad_events (w_db w) ++ omap ok_value [res].
Proof.
  intros Hd Hj Hc. pose proof (record_outcome ev w) as Ho. destruct (recordAuditEvent ev w) as [res w'].
  by apply (outcome_chained ev w).
Qed.

Lemma record_all_chained evs : digest_nonempty -> jsonb_keeps -> forall w : aworld, chained (w_db w) ->
  let '(ress, w') := record_all evs w in
  chained (w_db w') /\ ad_events (w_db w') = ad_events (w_db w) ++ omap ok_value ress.
Proof.
  intros Hd Hj. induction evs as [|ev evs IH]; intros w Hc; cbn [record_all]; [cbn; by rewrite app_nil_r|].
  pose proof (record_chained ev w Hd Hj Hc) as H. destruct (recordAuditEvent ev w) as [res w1]. destruct H as [Hc1 H1].
  specialize (IH w1 Hc1). destruct (record_all evs w1) as [ress w2]. destruct IH as [Hc2 H2]. split; [done|].
  rewrite H2, H1, <- app_assoc. cbn. by destruct (ok_value res).
Qed.

Lemma chained_empty db : ad_events db = [] -> chained db.
Proof. intros H t. rewrite H. by split; [constructor|]. Qed.

Lemma chained_log_verifies t db : chained db -> verifyAuditChain (scope_log t db) "" = None.
Proof. intros Hc. destruct (Hc t) as [Hs Hv]. unfold scope_log. by rewrite strictly_sorted_log. Qed.

End writer.

(** ** A sample environment *)

Fixpoint plainb (v : jsval) : bool :=
  match v with
  | JUndef => false
  | JNum n => match n with NInt _ => true | _ => false end
  | JArr xs => forallb plainb xs
  | JObj kvs => bool_decide (NoDup kvs.*1) && forallb (fun kv => plainb kv.2) kvs
  | _ => true
  end.

Lemma plainb_plain v : plainb v = true -> plain v.
Proof.
  induction v as [| |b|n|s|xs IH|kvs IH] using jsval_nested_ind; cbn [plainb]; try done.
  - by destruct n.
  - rewrite forallb_forall. intros H. apply (plain_forall id), Forall_forall. intros x Hx.
    rewrite Forall_forall in IH. by apply IH, H, list_elem_of_In.
  - intros [Hn%bool_decide_eq_true H]%andb_true_iff. rewrite forallb_forall in H. split; [done|].
    apply (plain_forall snd), Forall_forall. intros x Hx. rewrite Forall_forall in IH. by apply IH, H, list_elem_of_In.
Qed.

Definition hashableb (r : audit_row) : bool :=
  plainb (hashed_state r) && (Z.abs (ae_created_at r) <=? 8640000000000000).

Lemma hashableb_all l : forallb hashableb l = true -> Forall hashable l.
Proof.
  rewrite forallb_forall. intros H. apply Forall_forall. intros r Hr%list_elem_of_In.
  apply H, andb_true_iff in Hr as [Hp Ht]. split; [by apply plainb_plain | by apply Z.leb_le].
Qed.

Lemma same_key_sorted v : plain v -> same_json v (key_sorted v).
Proof.
  induction v as [| |b|n|s|xs IH|kvs IH] using jsval_nested_ind; try (intros Hp; first [done | by constructor]).
  - intros Hp. apply (plain_forall id) in Hp. constructor. induction xs as [|x xs IHx]; constructor;
      apply Forall_cons in IH as [Hx IH], Hp as [Hpx Hp]; auto.
  - intros [Hn Hp]. apply (plain_forall snd) in Hp.
    apply (same_obj _ (List.map (on_value key_sorted) kvs)); [done| |symmetry; apply merge_sort_Permutation].
    clear Hn. induction kvs as [|[k x] kvs IHk]; constructor; apply Forall_cons in IH as [Hx IH], Hp as [Hpx Hp]; auto.
Qed.

(** A digest that is the text itself, and a column that sorts the keys. *)
Definition sample_audit_env : AuditEnv := {|
  audit_numbers := {| fraction_text := fun _ => "0.5" |};
  audit_digest := fun s => "#" +:+ s;
  jsonb := fun v => if plainb v then Some (key_sorted v) else None |}.
Definition sample_audit_platform : Platform :=
  {| clock := fun n => (1700000000000 - n / 2)%N; uuid := fun n => "id-" +:+ show_N n; broker := fun _ => None |}.

Lemma sample_jsonb_keeps : @jsonb_keeps sample_audit_env.
Proof. intros s v v' _. cbn. destruct (plainb v) eqn:Hp; [|done]. intros [= <-]. by apply same_key_sorted, plainb_plain. Qed.

Definition sample_audit_events : list audit_event :=
  let ev a t p kvs := mk_audit_event (Some a) (Some "ada") t p None None None (Some kvs) None in
  [ev "plan.created" None None [("z", jint 1); ("a", JArr [JNull; JObj [("y", JUndef); ("x", JStr "q")]])];
   ev "workspace.create" (Some "t1") None [("status", jint 201); ("path", JStr "/v1")];
   ev "workspace.create" (Some "t1") (Some "no-such-plan") [];
   ev "workspace.delete" (Some "t1") None [("status", jint 200)];
   ev "plan.updated" None None []].
Definition sample_audit_world : world audit_db unit := mk_world (mk_audit_db [] []) 0 0 0 [].

(** ** The properties *)

(** C9: the audit log verifies.  From an empty table, whatever events are
    recorded (with refused insertions among them, and a clock that stands still
    or goes backwards), the table holds exactly the rows that the calls
    returned, in order, and the log of every tenant and of the platform, read
    by time, is accepted by [verifyAuditChain] although the columns give back
    the documents with their keys reordered. *)
Theorem audit_log_verifies `{!Platform, !AuditEnv} (evs : list audit_event) (w : world audit_db unit) (t : option string) :
  digest_nonempty -> jsonb_keeps -> ad_events (w_db w) = [] ->
  let '(ress, w') := record_all evs w in
  ad_events (w_db w') = omap ok_value ress /\ verifyAuditChain (scope_log t (w_db w')) "" = None.
Proof.
  intros Hd Hj He. pose proof (record_all_chained evs Hd Hj w (chained_empty _ He)) as Hr.
  destruct (record_all evs w) as [ress w']. destruct Hr as [Hc Hr]. rewrite Hr, He. split; [done|]. by apply chained_log_verifies.
Qed.

Lemma audit_log_verifies_witness :
  let db := w_db (snd (@record_all sample_audit_platform sample_audit_env sample_audit_events sample_audit_world)) in
  length (scope_log (Some "t1") db) = 2%nat /\ length (scope_log None db) = 2%nat /\
  @verifyAuditChain sample_audit_env (scope_log (Some "t1") db) "" = None.
Proof.
  pose proof (@audit_log_verifies sample_audit_platform sample_audit_env sample_audit_events sample_audit_world (Some "t1")
    ltac:(intros s; by cbn) sample_jsonb_keeps eq_refl) as H.
  split; [by vm_compute|split; [by vm_compute|]].
  destruct (record_all _ _) as [ress w']. cbn [snd]. by destruct H.
Defined.

(** Tampering shows.  Two logs that [verifyAuditChain] accepts from the
    beginning and that end in the same hash have the same number of rows and,
    row by row, the same hashed contents (identifier, action, actor, tenant,
    outcome, time, new state) and the same hashes; otherwise two different texts
    with the same SHA-256 have been found.  The new states hold whole numbers. *)
Theorem verified_logs_agree `{!AuditEnv} (l l' : list audit_row) :
  Forall hashable l -> Forall hashable l' ->
  verifyAuditChain l "" = None -> verifyAuditChain l' "" = None -> head_hash "" l = head_hash "" l' ->
  Forall2 same_contents l l' \/ collision.
Proof. apply logs_agree. Qed.

Lemma verified_logs_agree_witness :
  let db := w_db (snd (@record_all sample_audit_platform sample_audit_env sample_audit_events sample_audit_world)) in
  let l := scope_log (Some "t1") db in
  Forall2 (@same_contents) l l \/ @collision sample_audit_env.
Proof.
  intros db l. apply (@verified_logs_agree sample_audit_env l l).
  - apply hashableb_all. by vm_compute.
  - apply hashableb_all. by vm_compute.
  - by vm_compute.
  - by vm_compute.
  - reflexivity.
Defined.
