(* ===== verification/PlanImpact.v ===== *)
(** * The impact of a plan change

    [effective-entitlement-snapshot.mjs] of src/packages/provisioning-orchestrator:
    pure functions from the entitlements before and after, and the usage that was
    observed, to what the change means for the tenant. *)
From S2P Require Import Prelude JsValue Json.
From stdpp Require Import sorting strings.
From Stdlib Require Import QArith.
Local Open Scope Z_scope.

(** ** Values *)

(** [{ effectiveValueKind, effectiveValue }] *)
Inductive effective_value := Bounded (n : Z) | Unlimited | Missing.

Definition normalizeEffectiveValue (v : jsval) : effective_value :=
  if nullish v then Missing
  else if jsval_eqb v (jint (-1)) || jsval_eqb v (JStr "unlimited") then Unlimited
  else let numeric := js_number v in
       if num_is_finite numeric then match num_trunc numeric with NInt n => Bounded n | _ => Missing end
       else Missing.

Definition is_missing (v : effective_value) : bool := match v with Missing => true | _ => false end.

Definition comparableMagnitude (v : effective_value) : jsnum :=
  match v with Unlimited => NInf false | Missing => NInf true | Bounded n => NInt n end.

Inductive comparison := Increased | Decreased | Unchanged | Added | Removed.

Definition classifyQuotaDiff (previous next : effective_value) : comparison :=
  if is_missing previous && negb (is_missing next) then Added
  else if negb (is_missing previous) && is_missing next then Removed
  else if num_eqb (comparableMagnitude previous) (comparableMagnitude next) then Unchanged
  else if num_ltb (comparableMagnitude previous) (comparableMagnitude next) then Increased else Decreased.

Inductive capability_comparison := CapEnabled | CapDisabled | CapUnchanged.

(** An absent state is [undefined]. *)
Definition classifyCapabilityDiff (previous next : option bool) : capability_comparison :=
  if Bool.eqb (default false previous) (default false next) then CapUnchanged
  else if default false next then CapEnabled else CapDisabled.

Inductive usage_status := WithinLimit | AtLimit | OverLimit | UsageUnknown.

Definition classifyUsageStatus (v : effective_value) (observed : option jsnum) : usage_status :=
  match observed with
  | None => UsageUnknown
  | Some u =>
      match v with
      | Unlimited => WithinLimit
      | Missing => UsageUnknown
      | Bounded n => if num_ltb (NInt n) u then OverLimit else if num_eqb u (NInt n) then AtLimit else WithinLimit
      end
  end.

(** ** Impacts *)

Record dim_entry := mk_dim_entry {
  de_key : string;
  de_label : string;
  de_unit : string;
  de_value : effective_value
}.

(** What was collected for a dimension: [usageObservedAt] and [usageSource] with
    the value, or the reason there is none. *)
Inductive observation :=
| Observed (value : jsnum) (at_ : Z) (source : string)
| NotObserved (reason : string).

(** An entry of the snapshot; a collection that timed out names no dimension. *)
Record usage_entry := mk_usage_entry { ue_key : option string; ue_observation : observation }.

Record quota_impact := mk_quota_impact {
  qi_key : string;
  qi_label : string;
  qi_unit : option string;
  qi_previous : effective_value;
  qi_new : effective_value;
  qi_comparison : comparison;
  qi_observation : observation;
  qi_status : usage_status;
  qi_hard_decrease : bool
}.

Definition comparison_eqb (a b : comparison) : bool :=
  match a, b with
  | Increased, Increased | Decreased, Decreased | Unchanged, Unchanged | Added, Added | Removed, Removed => true
  | _, _ => false
  end.

Definition over_limit (s : usage_status) : bool := match s with OverLimit => true | _ => false end.

Definition value_of (d : option dim_entry) : effective_value := match d with Some d => de_value d | None => Missing end.

(** [next.x ?? previous.x ?? otherwise] *)
Definition either_of {A} (f : dim_entry -> A) (next previous : option dim_entry) : option A :=
  match next with Some d => Some (f d) | None => option_map f previous end.

Definition buildQuotaImpact (key : string) (previous next : option dim_entry) (usage : observation) : quota_impact :=
  let p := value_of previous in
  let n := value_of next in
  let c := classifyQuotaDiff p n in
  let s := match usage with NotObserved _ => UsageUnknown | Observed u _ _ => classifyUsageStatus n (Some u) end in
  mk_quota_impact key (default key (either_of de_label next previous)) (either_of de_unit next previous) p n c usage s
    (comparison_eqb c Decreased && over_limit s).

(** [new Map(items.map(item => [item.key, item])).get(key)]: the last one counts. *)
Definition map_get {A} (key_of : A -> string) (key : string) (items : list A) : option A :=
  List.find (fun x => String.eqb (key_of x) key) (List.rev items).

(** [[...new Set([...])].sort()] *)
Definition sorted_keys (keys : list string) : list string := merge_sort String.le (remove_dups keys).

Definition observation_for (usages : list usage_entry) (key : string) : observation :=
  match List.find (fun u => bool_decide (ue_key u = Some key)) (List.rev usages) with
  | Some u => ue_observation u
  | None => NotObserved "usage_not_collected"
  end.

Definition buildQuotaImpactSet (previous next : list dim_entry) (usages : list usage_entry) : list quota_impact :=
  List.map (fun key => buildQuotaImpact key (map_get de_key key previous) (map_get de_key key next) (observation_for usages key))
    (sorted_keys ((de_key <$> previous) ++ (de_key <$> next))).

Record cap_entry := mk_cap_entry { ce_key : string; ce_label : string; ce_enabled : bool }.

Record capability_impact := mk_capability_impact {
  ci_key : string;
  ci_label : string;
  ci_previous : option bool;
  ci_new : option bool;
  ci_comparison : capability_comparison
}.

Definition buildCapabilityImpact (key : string) (previous next : option cap_entry) : capability_impact :=
  let p := option_map ce_enabled previous in
  let n := option_map ce_enabled next in
  mk_capability_impact key
    (match next, previous with Some c, _ | None, Some c => ce_label c | None, None => key end)
    p n (classifyCapabilityDiff p n).

Definition buildCapabilityImpactSet (previous next : list cap_entry) : list capability_impact :=
  List.map (fun key => buildCapabilityImpact key (map_get ce_key key previous) (map_get ce_key key next))
    (sorted_keys ((ce_key <$> previous) ++ (ce_key <$> next))).

(** ** The direction of a change *)

Definition rises (i : quota_impact) : bool := match qi_comparison i with Increased | Added => true | _ => false end.
Definition falls (i : quota_impact) : bool := match qi_comparison i with Decreased | Removed => true | _ => false end.

Definition determineChangeDirection (previous next : list dim_entry) (previousPlanId : option string) (newPlanId : string) : string :=
  match previousPlanId with
  | None => "initial_assignment"
  | Some p =>
      if negb (nonempty p) then "initial_assignment"
      else
        let impacts := buildQuotaImpactSet previous next [] in
        let hasIncrease := existsb rises impacts in
        let hasDecrease := existsb falls impacts in
        if hasIncrease && negb hasDecrease then "upgrade"
        else if hasDecrease && negb hasIncrease then "downgrade"
        else if negb hasIncrease && negb hasDecrease && String.eqb p newPlanId then "equivalent"
        else if hasIncrease || hasDecrease then "lateral" else "equivalent"
  end.

Definition known (u : usage_entry) : bool := match ue_observation u with NotObserved _ => false | Observed _ _ _ => true end.

Definition summarizeUsageCollectionStatus (usages : list usage_entry) : string :=
  match usages with
  | [] => "unavailable"
  | _ => let n := length (List.filter known usages) in
         if Nat.eqb n 0 then "unavailable" else if Nat.eqb n (length usages) then "complete" else "partial"
  end.
