(* ===== verification/PlanImpactProofs.v ===== *)
(** * Properties of the impact of a plan change

    The set of impacts covers the dimensions of both plans, each once and in
    order; a comparison is the order of the two values; the direction of a change
    is the reverse of the direction back. *)
From S2P Require Import Prelude JsValue Json PlanImpact.
From stdpp Require Import sorting strings.
Local Open Scope Z_scope.

(** ** The order of the values *)

(** A missing value is below every limit, an unlimited one above. *)
Inductive value_lt : effective_value -> effective_value -> Prop :=
| lt_missing v : v <> Missing -> value_lt Missing v
| lt_bounded m n : m < n -> value_lt (Bounded m) (Bounded n)
| lt_unlimited n : value_lt (Bounded n) Unlimited.

#[local] Hint Constructors value_lt : core.

Lemma diff_spec p n :
  match classifyQuotaDiff p n with
  | Added => p = Missing /\ value_lt p n
  | Removed => n = Missing /\ value_lt n p
  | Increased => p <> Missing /\ value_lt p n
  | Decreased => n <> Missing /\ value_lt n p
  | Unchanged => p = n
  end.
Proof.
  destruct p as [p| |], n as [n| |]; unfold classifyQuotaDiff; cbn; try done; try (split; [done | by constructor]).
  case_bool_decide as E; [congruence|]. destruct (Z.leb_spec n p); cbn; (split; [done|]); constructor; [|lia].
  assert (p <> n) by congruence. lia.
Qed.

Lemma value_lt_asym p n : value_lt p n -> ~ value_lt n p.
Proof. intros H1 H2. inversion H1; subst; inversion H2; subst; done || lia. Qed.

Lemma value_lt_irrefl p : ~ value_lt p p.
Proof. intros H. by apply (value_lt_asym p p). Qed.

Definition raised (c : comparison) : bool := match c with Increased | Added => true | _ => false end.
Definition lowered (c : comparison) : bool := match c with Decreased | Removed => true | _ => false end.

Lemma raised_spec p n : raised (classifyQuotaDiff p n) = true <-> value_lt p n.
Proof.
  pose proof (diff_spec p n) as H. destruct (classifyQuotaDiff p n); cbn; destruct_and?; split; try done.
  1, 3: intros Hlt; exfalso; by eapply value_lt_asym. intros Hlt. subst n. exfalso. by eapply value_lt_irrefl.
Qed.

Lemma lowered_spec p n : lowered (classifyQuotaDiff p n) = true <-> value_lt n p.
Proof.
  pose proof (diff_spec p n) as H. destruct (classifyQuotaDiff p n); cbn; destruct_and?; split; try done.
  1, 3: intros Hlt; exfalso; by eapply value_lt_asym. intros Hlt. subst n. exfalso. by eapply value_lt_irrefl.
Qed.

(** Going back raises what going forth lowers. *)
Lemma raised_back p n : raised (classifyQuotaDiff n p) = lowered (classifyQuotaDiff p n).
Proof. apply eq_bool_prop_intro. rewrite !Is_true_true, raised_spec, lowered_spec. done. Qed.

(** ** The keys of a set *)

Lemma sorted_keys_elem l k : k ∈ sorted_keys l <-> k ∈ l.
Proof. unfold sorted_keys. by rewrite merge_sort_Permutation, elem_of_remove_dups. Qed.

Lemma sorted_keys_nodup l : NoDup (sorted_keys l).
Proof. unfold sorted_keys. rewrite merge_sort_Permutation. apply NoDup_remove_dups. Qed.

Lemma sorted_keys_sorted l : Sorted String.le (sorted_keys l).
Proof. apply (Sorted_merge_sort _). Qed.

Lemma sorted_keys_comm l k : sorted_keys (l ++ k) = sorted_keys (k ++ l).
Proof.
  apply (StronglySorted_unique String.le);
    [by apply (StronglySorted_merge_sort _) | by apply (StronglySorted_merge_sort _) |].
  apply NoDup_Permutation; [apply sorted_keys_nodup..|]. intros x. rewrite !sorted_keys_elem, !elem_of_app. tauto.
Qed.

Lemma impact_keys ps ns us : qi_key <$> buildQuotaImpactSet ps ns us = sorted_keys ((de_key <$> ps) ++ (de_key <$> ns)).
Proof.
  unfold buildQuotaImpactSet. induction (sorted_keys _) as [|k l IH]; [done|]. cbn. by f_equal.
Qed.

(** ** The set of impacts *)

Lemma impact_elem ps ns us i : i ∈ buildQuotaImpactSet ps ns us ->
  i = buildQuotaImpact (qi_key i) (map_get de_key (qi_key i) ps) (map_get de_key (qi_key i) ns) (observation_for us (qi_key i)).
Proof. unfold buildQuotaImpactSet. change (List.map ?f ?l) with (f <$> l). intros (k & -> & _)%list_elem_of_fmap. done. Qed.

Lemma hard_decrease_spec k p n u :
  qi_hard_decrease (buildQuotaImpact k p n u) = true <->
  exists bound observed at_ source, value_of n = Bounded bound /\ value_lt (Bounded bound) (value_of p) /\
    u = Observed observed at_ source /\ num_ltb (NInt bound) observed = true.
Proof.
  unfold buildQuotaImpact. cbn [qi_hard_decrease]. pose proof (lowered_spec (value_of p) (value_of n)) as HL.
  pose proof (diff_spec (value_of p) (value_of n)) as HD. rewrite andb_true_iff. split.
  - intros [Hc Hs]. destruct (classifyQuotaDiff _ _); try done. destruct HD as [_ HD], u as [o t s|]; [|done].
    destruct (value_of n) as [b| |]; try done. exists b, o, t, s. split_and!; try done.
    unfold classifyUsageStatus in Hs. destruct (num_ltb (NInt b) o); [done|]. by destruct (num_eqb o (NInt b)).
  - intros (b & o & t & s & En & Hlt & -> & Hb). rewrite <- En in Hlt. apply HL in Hlt. split.
    + destruct (classifyQuotaDiff _ _); try done. destruct HD as [HD _]. congruence.
    + unfold classifyUsageStatus. by rewrite En, Hb.
Qed.

(** C15: The impact of a plan change on quotas.  For any entitlements before and
    after and any observed usage, the impact set names every dimension of either
    side exactly once, in alphabetical order; each entry compares the values the
    two sides give its dimension in the order missing, bounded, unlimited; and a
    hard decrease is flagged exactly when the new value is a bound below the old
    value and the usage observed for that dimension is above the bound. *)
Theorem quota_impact_set_exact ps ns us :
  let set := buildQuotaImpactSet ps ns us in
  NoDup (qi_key <$> set) /\ Sorted String.le (qi_key <$> set) /\
  (forall k, k ∈ qi_key <$> set <-> k ∈ de_key <$> ps \/ k ∈ de_key <$> ns) /\
  forall i, i ∈ set ->
    let p := value_of (map_get de_key (qi_key i) ps) in
    let n := value_of (map_get de_key (qi_key i) ns) in
    qi_previous i = p /\ qi_new i = n /\
    (rises i = true <-> value_lt p n) /\ (falls i = true <-> value_lt n p) /\
    (qi_hard_decrease i = true <->
       exists bound observed at_ source, n = Bounded bound /\ value_lt (Bounded bound) p /\
         observation_for us (qi_key i) = Observed observed at_ source /\ num_ltb (NInt bound) observed = true).
Proof.
  cbv zeta. rewrite impact_keys. split_and!; [apply sorted_keys_nodup | apply sorted_keys_sorted | |].
  - intros k. by rewrite sorted_keys_elem, elem_of_app.
  - intros i Hi%impact_elem. revert Hi. generalize (qi_key i). intros k ->.
    split_and!; [done | done | apply raised_spec | apply lowered_spec | apply hard_decrease_spec].
Qed.

(** ** The direction *)

Lemma existsb_back ps ns : existsb rises (buildQuotaImpactSet ns ps []) = existsb falls (buildQuotaImpactSet ps ns []).
Proof.
  unfold buildQuotaImpactSet. rewrite (sorted_keys_comm (de_key <$> ns)).
  induction (sorted_keys _) as [|k l IH]; [done|]. apply (f_equal2 orb); [apply raised_back | apply IH].
Qed.

Lemma existsb_falls_back ps ns : existsb falls (buildQuotaImpactSet ns ps []) = existsb rises (buildQuotaImpactSet ps ns []).
Proof. symmetry. apply existsb_back. Qed.

Lemma map_get_none k (l : list dim_entry) : k ∉ de_key <$> l -> map_get de_key k l = None.
Proof.
  intros Hk. unfold map_get. destruct (List.find _ _) as [x|] eqn:H; [|done]. apply List.find_some in H as [Hx E%String.eqb_eq].
  apply in_rev, list_elem_of_In in Hx. destruct Hk. apply list_elem_of_fmap. by exists x.
Qed.

(** Every dimension with a value is in the set. *)
Lemma in_set_iff ps ns (f : effective_value -> effective_value -> bool) (R : effective_value -> effective_value -> Prop) :
  (forall p n, f p n = true <-> R p n) -> ~ R Missing Missing ->
  existsb (fun i => f (qi_previous i) (qi_new i)) (buildQuotaImpactSet ps ns []) = true <->
  exists k, R (value_of (map_get de_key k ps)) (value_of (map_get de_key k ns)).
Proof.
  intros Hf Hno. rewrite List.existsb_exists. split.
  - intros (i & Hi%list_elem_of_In & Hr). apply impact_elem in Hi. rewrite Hi in Hr. exists (qi_key i). by apply Hf.
  - intros [k Hk]. exists (buildQuotaImpact k (map_get de_key k ps) (map_get de_key k ns) (observation_for [] k)).
    split; [|by apply Hf]. apply list_elem_of_In. unfold buildQuotaImpactSet. change (List.map ?f ?l) with (f <$> l).
    apply list_elem_of_fmap. exists k. split; [done|]. apply sorted_keys_elem, elem_of_app.
    destruct (decide (k ∈ de_key <$> ps)); [by left|]. destruct (decide (k ∈ de_key <$> ns)); [by right|].
    rewrite !map_get_none in Hk; done.
Qed.

Lemma existsb_ext_in {A} (f g : A -> bool) l : (forall x, x ∈ l -> f x = g x) -> existsb f l = existsb g l.
Proof. induction l as [|x l IH]; intros H; [done|]. cbn. rewrite H, IH; [done | intros y Hy; apply H; by right | by left]. Qed.

Lemma rises_some ps ns : existsb rises (buildQuotaImpactSet ps ns []) = true <->
  exists k, value_lt (value_of (map_get de_key k ps)) (value_of (map_get de_key k ns)).
Proof.
  rewrite <- (in_set_iff ps ns (fun p n => raised (classifyQuotaDiff p n))); [|apply raised_spec|apply value_lt_irrefl].
  f_equiv. apply existsb_ext_in. intros i Hi%impact_elem. by rewrite Hi.
Qed.

Lemma falls_none ps ns : existsb falls (buildQuotaImpactSet ps ns []) = false <->
  forall k, ~ value_lt (value_of (map_get de_key k ns)) (value_of (map_get de_key k ps)).
Proof.
  rewrite <- not_true_iff_false.
  assert (H : existsb falls (buildQuotaImpactSet ps ns []) = true <->
    exists k, value_lt (value_of (map_get de_key k ns)) (value_of (map_get de_key k ps))).
  { rewrite <- (in_set_iff ps ns (fun p n => lowered (classifyQuotaDiff p n)) (fun p n => value_lt n p)); [|apply lowered_spec|apply value_lt_irrefl].
    f_equiv. apply existsb_ext_in. intros i Hi%impact_elem. by rewrite Hi. }
  rewrite H. split; [intros Hn k Hk; apply Hn; by exists k | intros Hn [k Hk]; by apply (Hn k)].
Qed.

Definition back (direction : string) : string :=
  if String.eqb direction "upgrade" then "downgrade" else if String.eqb direction "downgrade" then "upgrade" else direction.

(** The direction of a change reverses.  Between two plans with any
    entitlements, going from one to the other is an upgrade exactly when
    some dimension rises and none falls, and the change back is a downgrade
    exactly when the change forth is an upgrade; lateral and equivalent changes
    are so in both directions. *)
Theorem change_direction_reverses ps ns p n : p <> "" -> n <> "" ->
  determineChangeDirection ns ps (Some n) p = back (determineChangeDirection ps ns (Some p) n) /\
  (determineChangeDirection ps ns (Some p) n = "upgrade" <->
     (exists k, value_lt (value_of (map_get de_key k ps)) (value_of (map_get de_key k ns))) /\
     (forall k, ~ value_lt (value_of (map_get de_key k ns)) (value_of (map_get de_key k ps)))).
Proof.
  intros Hp Hn. unfold determineChangeDirection. apply String.eqb_neq in Hp as Hp', Hn as Hn'.
  unfold nonempty. rewrite Hp', Hn', (existsb_back ps ns), (existsb_falls_back ps ns), (String.eqb_sym n p). cbn [negb].
  rewrite <- rises_some, <- falls_none.
  destruct (existsb rises _), (existsb falls _), (String.eqb p n); cbn; split; try done; (split; [done | by intros []]).
Qed.

(** ** A sample change: workspaces fall below what is used, storage becomes
    unlimited, keys are new. *)

Definition sample_before : list dim_entry :=
  [mk_dim_entry "max_workspaces" "Workspaces" "count" (Bounded 5); mk_dim_entry "max_storage" "Storage" "bytes" (Bounded 100)].
Definition sample_after : list dim_entry :=
  [mk_dim_entry "max_workspaces" "Workspaces" "count" (Bounded 3); mk_dim_entry "max_storage" "Storage" "bytes" Unlimited;
   mk_dim_entry "max_keys" "Keys" "count" (Bounded 2)].
Definition sample_usage : list usage_entry := [mk_usage_entry (Some "max_workspaces") (Observed (NInt 4) 0 "workspaces")].

Lemma quota_impact_set_exact_witness :
  let set := buildQuotaImpactSet sample_before sample_after sample_usage in
  qi_key <$> set = ["max_keys"; "max_storage"; "max_workspaces"] /\
  (forall i, i ∈ set -> falls i = true -> value_lt (qi_new i) (qi_previous i)) /\
  qi_hard_decrease <$> set = [false; false; true].
Proof.
  cbv zeta. split; [by vm_compute|]. split; [|by vm_compute].
  intros i Hi Hf. destruct (quota_impact_set_exact sample_before sample_after sample_usage) as (_ & _ & _ & H).
  destruct (H i Hi) as (-> & -> & _ & Hl & _). by apply Hl.
Defined.

Lemma change_direction_reverses_witness :
  determineChangeDirection (tail sample_before) (tail sample_after) (Some "p1") "p2" = "upgrade" /\
  determineChangeDirection (tail sample_after) (tail sample_before) (Some "p2") "p1" = "downgrade" /\
  determineChangeDirection sample_after sample_before (Some "p2") "p1" = "lateral".
Proof.
  split; [by vm_compute|].
  split; [rewrite (proj1 (change_direction_reverses (tail sample_before) (tail sample_after) "p1" "p2" ltac:(done) ltac:(done)))
         | rewrite (proj1 (change_direction_reverses sample_before sample_after "p1" "p2" ltac:(done) ltac:(done)))]; by vm_compute.
Defined.
