(* ===== verification/Governance.v ===== *)
(** * The tables of plans and quotas

    Migrations 097, 098, 103 and 105 of src/packages/provisioning-orchestrator,
    with the audit append of [plan-audit-repository.mjs] over the log of
    [AuditChain].  The tables are a record; a constraint is part of the
    statement that may violate it.  A [pg] pool is taken as one connection, and an
    identifier in a request as the text of a UUID; [gen_random_uuid()] is the next
    UUID of the world and [NOW()] its next time. *)
From S2P Require Import Prelude JsValue Json Platform IsoDate AuditChain PlanImpact.
From Stdlib Require Import Ascii.
Local Open Scope Z_scope.

(** What a count of a tenant's rows in another service's table gives. *)
Inductive usage_probe := Counted_rows (n : Z) | Probe_failed | Probe_timed_out.

(** What is not in the repository: the text PostgreSQL reads as an integer, the
    dates [Date.parse] reads, the text the driver sends for an array or an object,
    the environment, whether the actions are given a producer; the table of
    tenants, the rows of [workspaces] and [api_keys], and the table
    [tenant_plan_adjustments], which no migration creates. *)
Class GovEnv := {
  gov_audit :: AuditEnv;
  int8_text : string -> option Z;
  date_text : string -> option Z;
  driver_text : jsval -> string;
  gov_env : string -> option string;
  has_producer : bool;
  tenant_present : string -> result js_error bool;
  usage_rows : string -> string -> usage_probe;
  plan_adjustments : string -> option (list (string * jsval) * list (string * jsval))
}.

(** ** Rows *)

(** [quota_dimension_catalog] *)
Record dimension := mk_dimension {
  qd_key : string;
  qd_label : string;
  qd_unit : string;
  qd_default : Z;
  qd_description : option string
}.

(** [plans]; the JSONB columns hold objects. *)
Record plan_row := mk_plan_row {
  pl_id : string;
  pl_slug : string;
  pl_display_name : string;
  pl_description : option string;
  pl_status : string;
  pl_capabilities : list (string * jsval);
  pl_quota_dimensions : list (string * jsval);
  pl_quota_type_config : list (string * jsval);
  pl_created_at : Z;
  pl_updated_at : Z;
  pl_created_by : string;
  pl_updated_by : string
}.

(** [tenant_plan_assignments] *)
Record assignment_row := mk_assignment_row {
  as_id : string;
  as_tenant_id : string;
  as_plan_id : string;
  as_effective_from : Z;
  as_superseded_at : option Z;
  as_assigned_by : string;
  as_metadata : list (string * jsval)
}.

(** [quota_overrides] *)
Record override_row := mk_override_row {
  qo_id : string;
  qo_tenant_id : string;
  qo_dimension_key : string;
  qo_value : Z;
  qo_type : string;
  qo_grace : Z;
  qo_justification : string;
  qo_expires_at : option Z;
  qo_status : string;
  qo_created_by : string;
  qo_created_at : Z;
  qo_superseded_by : option string;
  qo_revoked_by : option string;
  qo_revoked_at : option Z;
  qo_revocation_justification : option string;
  qo_modified_by : option string;
  qo_modified_at : option Z;
  qo_modification_justification : option string
}.

(** [workspace_sub_quotas] *)
Record sub_quota_row := mk_sub_quota_row {
  sq_id : string;
  sq_tenant_id : string;
  sq_workspace_id : string;
  sq_dimension_key : string;
  sq_value : Z;
  sq_created_by : string;
  sq_updated_by : string;
  sq_created_at : Z;
  sq_updated_at : Z
}.

(** [boolean_capability_catalog] *)
Record capability_row := mk_capability_row {
  bc_key : string;
  bc_label : string;
  bc_description : string;
  bc_default : bool;
  bc_active : bool;
  bc_sort : Z
}.

(** [tenant_plan_change_history], with the rows of [tenant_plan_quota_impacts] and
    [tenant_plan_capability_impacts] that refer to it. *)
Record history_row := mk_history_row {
  hr_id : string;
  hr_assignment_id : string;
  hr_tenant_id : string;
  hr_previous_plan_id : option string;
  hr_new_plan_id : string;
  hr_actor_id : string;
  hr_effective_at : Z;
  hr_correlation_id : option string;
  hr_change_reason : option string;
  hr_change_direction : string;
  hr_usage_status : string;
  hr_over_limit : nat;
  hr_metadata : list (string * jsval);
  hr_quota_impacts : list quota_impact;
  hr_capability_impacts : list capability_impact
}.

Record gov_db := mk_gov_db {
  g_catalog : list dimension;
  g_plans : list plan_row;
  g_assignments : list assignment_row;
  g_overrides : list override_row;
  g_sub_quotas : list sub_quota_row;
  g_audit : list audit_row;
  g_capabilities : list capability_row;
  g_history : list history_row
}.

Definition set_plans (x : list plan_row) (db : gov_db) : gov_db :=
  mk_gov_db (g_catalog db) x (g_assignments db) (g_overrides db) (g_sub_quotas db) (g_audit db) (g_capabilities db) (g_history db).
Definition set_assignments (x : list assignment_row) (db : gov_db) : gov_db :=
  mk_gov_db (g_catalog db) (g_plans db) x (g_overrides db) (g_sub_quotas db) (g_audit db) (g_capabilities db) (g_history db).
Definition set_overrides (x : list override_row) (db : gov_db) : gov_db :=
  mk_gov_db (g_catalog db) (g_plans db) (g_assignments db) x (g_sub_quotas db) (g_audit db) (g_capabilities db) (g_history db).
Definition set_sub_quotas (x : list sub_quota_row) (db : gov_db) : gov_db :=
  mk_gov_db (g_catalog db) (g_plans db) (g_assignments db) (g_overrides db) x (g_audit db) (g_capabilities db) (g_history db).
Definition set_audit (x : list audit_row) (db : gov_db) : gov_db :=
  mk_gov_db (g_catalog db) (g_plans db) (g_assignments db) (g_overrides db) (g_sub_quotas db) x (g_capabilities db) (g_history db).
Definition set_history (x : list history_row) (db : gov_db) : gov_db :=
  mk_gov_db (g_catalog db) (g_plans db) (g_assignments db) (g_overrides db) (g_sub_quotas db) (g_audit db) (g_capabilities db) x.

(** An event handed to the producer. *)
Record gov_event := mk_gov_event { ge_type : string; ge_timestamp : Z; ge_payload : jsval }.

Notation gworld := (world gov_db gov_event).
Notation gact := (M gworld js_error).

(** ** Columns *)

Definition int4_max : Z := 2147483647.
Definition int8_max : Z := 9223372036854775807.
Definition in_int4 (z : Z) : bool := (- int4_max - 1 <=? z) && (z <=? int4_max).
Definition in_int8 (z : Z) : bool := (- int8_max - 1 <=? z) && (z <=? int8_max).

Definition too_long : js_error := coded "22001" "value too long".
Definition out_of_range : js_error := coded "22003" "integer out of range".
Definition check_violation (what : string) : js_error := coded "23514" what.
Definition unique_violation (what : string) : js_error := coded "23505" what.
Definition foreign_key_violation (what : string) : js_error := coded "23503" what.

(** [length(trim(text))]: only spaces are trimmed. *)
Definition pg_trim_length (s : string) : Z :=
  let strip := drop_while (Ascii.eqb " ") in
  Z.of_nat (length (reverse (strip (reverse (strip (chars s)))))).

(** ** Actors and answers *)

(** [callerContext.actor] *)
Record gov_actor := mk_gov_actor {
  ga_id : string;
  ga_type : string;
  ga_tenant_id : option string;
  ga_workspace_id : option string
}.

Definition requireSuperadmin (actor : option gov_actor) : result js_error gov_actor :=
  match actor with
  | Some a => if nonempty (ga_id a) && String.eqb (ga_type a) "superadmin" then Ok a else Err (coded "FORBIDDEN" "Forbidden")
  | None => Err (coded "FORBIDDEN" "Forbidden")
  end.

(** [error.statusCode = error.statusCode ?? STATUS[error.code] ?? 500] *)
Definition default_status (table : list (string * Z)) (e : js_error) : js_error :=
  match err_status e with
  | Some _ => e
  | None => with_status (default 500 (err_code e ≫= fun c => assoc_lookup c table)) e
  end.

Definition answering {A} (table : list (string * Z)) (m : gact A) : gact A :=
  try_catch m (fun e => throw (default_status table e)).

Definition jdate (z : Z) : jsval := JStr (toISOString z).
Definition jopt {A} (f : A -> jsval) (o : option A) : jsval := match o with Some a => f a | None => JNull end.

Section audit.
Context `{!Platform, !GovEnv}.

(** Run on the log: its foreign key refers to the plans. *)
Definition in_audit {A} (m : M (world audit_db unit) js_error A) : gact A := fun w =>
  let db := w_db w in
  let '(r, w') := m (mk_world (mk_audit_db (g_audit db) (pl_id <$> g_plans db)) (w_tick w) (w_uuids w) (w_published w) []) in
  (r, mk_world (set_audit (ad_events (w_db w')) db) (w_tick w') (w_uuids w') (w_published w') (w_events w)).

Definition plan_audit (actionType actorId : string) (tenantId planId : option string)
    (previousState : option jsval) (newState : list (string * jsval)) (correlationId : option string) : audit_event :=
  mk_audit_event (Some actionType) (Some actorId) tenantId planId None None previousState (Some newState) correlationId.

Definition appendPlanAudit (ev : audit_event) (inTransaction : bool) : gact audit_row :=
  in_audit (if inTransaction then recordAuditEventInTransaction ev else recordAuditEvent ev).

(** The event goes out when there is a producer. *)
Definition emit_event (type : string) (payload : jsval) : gact unit :=
  now ← now_ms;
  if has_producer then publish (mk_gov_event type (Z.of_N now) payload) else mret tt.

Definition gov_now : gact Z := now ← now_ms; mret (Z.of_N now).

(** [new Date(v).getTime()], [None] for NaN. *)
Definition js_date (v : jsval) : option Z :=
  let clip z := if Z.abs z <=? 8640000000000000 then Some z else None in
  match v with
  | JUndef => None
  | JNull => Some 0
  | JBool b => Some (if b then 1 else 0)
  | JNum n => match num_trunc n with NInt z => clip z | _ => None end
  | JStr s => date_text s
  | JArr _ | JObj _ => date_text (js_to_string v)
  end.

(** A parameter of a text column, NULL for [undefined] and [null]. *)
Definition pg_text (v : jsval) : option string :=
  match v with
  | JUndef | JNull => None
  | JStr s => Some s
  | JNum _ | JBool _ => Some (js_to_string v)
  | JArr _ | JObj _ => Some (driver_text v)
  end.

(** A parameter of a BIGINT column, given as JavaScript value. *)
Definition bigint_param (v : jsval) : result js_error Z :=
  match v with
  | JUndef | JNull => Err (coded "23502" "null value")
  | JNum (NInt z) => if in_int8 z then Ok z else Err out_of_range
  | JStr s => match int8_text s with
              | Some z => if in_int8 z then Ok z else Err out_of_range
              | None => Err (coded "22P02" "invalid input syntax for type bigint")
              end
  | _ => Err (coded "22P02" "invalid input syntax for type bigint")
  end.

End audit.
