(* ===== verification/GovernanceProofs.v ===== *)
(** * Frame lemmas for the governance services

    A handler is a program over the tables; [evolves R] says that whatever it
    is started in, the tables it leaves are related to it by the preorder [R].
    The append to the audit log touches the log only, and keeps it chained. *)
From S2P Require Import Prelude JsValue Json Platform AuditChain AuditChainProofs Governance.
Local Open Scope Z_scope.

(** Every run of [m] takes the tables along [R]. *)
Definition evolves (R : gov_db -> gov_db -> Prop) {A} (m : gact A) : Prop :=
  forall w, R (w_db w) (w_db (snd (m w))).

(** A program that leaves the tables as they are. *)
Definition quiet {A} (m : gact A) : Prop := forall w, w_db (snd (m w)) = w_db w.

Section evolves.
Context (R : gov_db -> gov_db -> Prop) `{!Reflexive R, !Transitive R}.

Lemma evolves_quiet {A} (m : gact A) : quiet m -> evolves R m.
Proof. intros Hq w. by rewrite Hq. Qed.

Lemma evolves_bind {A B} (m : gact A) (f : A -> gact B) : evolves R m -> (forall a, evolves R (f a)) -> evolves R (m ≫= f).
Proof.
  intros Hm Hf w. unfold mbind, M_bind. specialize (Hm w). destruct (m w) as [[a|e] w'] eqn:?; cbn in *; [|done].
  etrans; [exact Hm | apply Hf].
Qed.

Lemma evolves_try {A} (m : gact A) (h : js_error -> gact A) : evolves R m -> (forall e, evolves R (h e)) -> evolves R (try_catch m h).
Proof.
  intros Hm Hh w. unfold try_catch. specialize (Hm w). destruct (m w) as [[a|e] w'] eqn:?; cbn in *; [done|].
  etrans; [exact Hm | apply Hh].
Qed.

Lemma evolves_for_each {A} (f : A -> gact unit) xs : (forall x, evolves R (f x)) -> evolves R (for_each f xs).
Proof.
  intros Hf. induction xs as [|x xs IH]; [by intros w|]. apply evolves_bind; [apply Hf | done].
Qed.

(** A transaction that ends in an error leaves what it found. *)
Lemma evolves_transaction {A} (m : gact A) :
  (forall w a w', m w = (Ok a, w') -> R (w_db w) (w_db w')) -> evolves R (in_transaction m).
Proof.
  intros Hm w. unfold in_transaction. destruct (m w) as [[a|e] w'] eqn:E; cbn; [by eapply Hm | done].
Qed.
End evolves.

Section quiet.
Context `{!Platform, !GovEnv}.

Lemma gov_quiet_ret {A} (a : A) : quiet (mret a).
Proof. by intros w. Qed.
Lemma quiet_throw {A} e : quiet (throw e : gact A).
Proof. by intros w. Qed.
Lemma quiet_lift {A} (r : result js_error A) : quiet (lift r).
Proof. by intros w. Qed.
Lemma quiet_query {A} (f : gov_db -> A) : quiet (query_db f).
Proof. by intros w. Qed.
Lemma gov_quiet_now : quiet now_ms.
Proof. by intros w. Qed.
Lemma quiet_gov_now : quiet gov_now.
Proof. by intros w. Qed.
Lemma gov_quiet_uuid : quiet random_uuid.
Proof. by intros w. Qed.
Lemma gov_quiet_publish e : quiet (publish e).
Proof. intros w. unfold publish. by case_match. Qed.
Lemma gov_quiet_bind {A B} (m : gact A) (f : A -> gact B) : quiet m -> (forall a, quiet (f a)) -> quiet (m ≫= f).
Proof.
  intros Hm Hf w. unfold mbind, M_bind. specialize (Hm w). destruct (m w) as [[a|e] w'] eqn:?; cbn in *; [|done].
  by rewrite Hf.
Qed.
Lemma quiet_try {A} (m : gact A) (h : js_error -> gact A) : quiet m -> (forall e, quiet (h e)) -> quiet (try_catch m h).
Proof.
  intros Hm Hh w. unfold try_catch. specialize (Hm w). destruct (m w) as [[a|e] w'] eqn:?; cbn in *; [done|].
  by rewrite Hh.
Qed.
Lemma quiet_for_each {A} (f : A -> gact unit) xs : (forall x, quiet (f x)) -> quiet (for_each f xs).
Proof. intros Hf. induction xs as [|x xs IH]; [by intros w|]. by apply gov_quiet_bind. Qed.
Lemma quiet_emit t p : quiet (emit_event t p).
Proof. unfold emit_event. apply gov_quiet_bind; [apply gov_quiet_now|]. intros n. case_match; [apply gov_quiet_publish | apply gov_quiet_ret]. Qed.
End quiet.

#[export] Hint Resolve gov_quiet_ret quiet_throw quiet_lift quiet_query gov_quiet_now quiet_gov_now gov_quiet_uuid gov_quiet_publish quiet_emit : falcone.

(** Decompose a [quiet] goal along the structure of the program. *)
Ltac quiet_step :=
  match goal with
  | |- quiet (_ ≫= _) => apply gov_quiet_bind; [|intros ?]
  | |- quiet (try_catch _ _) => apply quiet_try; [|intros ?]
  | |- quiet (for_each _ _) => apply quiet_for_each; intros ?
  | |- quiet (match ?x with _ => _ end) => destruct x eqn:?
  | |- quiet (if ?x then _ else _) => destruct x eqn:?
  | |- quiet _ => solve [eauto with falcone]
  end.
Ltac quiet_tac := repeat quiet_step.

(** ** From known tables *)

(** Every run of [m] from tables with [P] takes them along [R]. *)
Definition evolves_from (R : gov_db -> gov_db -> Prop) (P : gov_db -> Prop) {A} (m : gact A) : Prop :=
  forall w, P (w_db w) -> R (w_db w) (w_db (snd (m w))).

Section from.
Context (R : gov_db -> gov_db -> Prop) `{!Reflexive R, !Transitive R}.

Lemma from_any P {A} (m : gact A) : evolves R m -> evolves_from R P m.
Proof. by intros H w _. Qed.

Lemma from_true {A} (m : gact A) : evolves_from R (fun _ => True) m -> evolves R m.
Proof. intros H w. by apply H. Qed.

Lemma from_weaken (P Q : gov_db -> Prop) {A} (m : gact A) : (forall db, P db -> Q db) -> evolves_from R Q m -> evolves_from R P m.
Proof. intros HPQ H w Hw. by apply H, HPQ. Qed.

(** What [m] gives and leaves is known to its continuation. *)
Lemma from_bind {A B} (P : gov_db -> Prop) (Q : A -> gov_db -> Prop) (m : gact A) (k : A -> gact B) :
  evolves_from R P m -> (forall w a w', P (w_db w) -> m w = (Ok a, w') -> Q a (w_db w')) ->
  (forall a, evolves_from R (Q a) (k a)) -> evolves_from R P (m ≫= k).
Proof.
  intros Hm HQ Hk w Hw. unfold mbind, M_bind. specialize (Hm w Hw). destruct (m w) as [[a|e] w'] eqn:E; cbn in *; [|done].
  etrans; [exact Hm|]. apply Hk. by eapply HQ.
Qed.

Lemma from_quiet {A B} (P : gov_db -> Prop) (m : gact A) (k : A -> gact B) :
  quiet m -> (forall a, evolves_from R P (k a)) -> evolves_from R P (m ≫= k).
Proof.
  intros Hq Hk. apply (from_bind P (fun _ => P)); [|intros w a w' Hw E|done].
  - apply from_any. by apply evolves_quiet.
  - specialize (Hq w). rewrite E in Hq. cbn in Hq. by rewrite Hq.
Qed.

Lemma from_query {A B} (P : gov_db -> Prop) (q : gov_db -> A) (k : A -> gact B) :
  (forall a, evolves_from R (fun db => P db /\ q db = a) (k a)) -> evolves_from R P (query_db q ≫= k).
Proof.
  intros Hk. refine (from_bind P (fun a db => P db /\ q db = a) _ _ _ _ Hk); [|by intros w a w' Hw [= <- <-]].
  apply from_any, (evolves_quiet _). by intros w.
Qed.

Lemma from_transaction {A} P (m : gact A) : evolves_from R P m -> evolves_from R P (in_transaction m).
Proof. intros Hm w Hw. unfold in_transaction. specialize (Hm w Hw). by destruct (m w) as [[a|e] w']. Qed.

Lemma gov_exec_ok {A} (P : gov_db -> Prop) (f : gov_db -> A * gov_db) : (forall db, P db -> R db (snd (f db))) -> evolves_from R P (exec_db f).
Proof. intros H w Hw. specialize (H (w_db w) Hw). unfold exec_db. by destruct (f (w_db w)). Qed.

Lemma gov_exec_err {A} (P : gov_db -> Prop) (f : gov_db -> result js_error (A * gov_db)) :
  (forall db x, P db -> f db = Ok x -> R db (snd x)) -> evolves_from R P (exec_db_err f).
Proof. intros H w Hw. unfold exec_db_err. destruct (f (w_db w)) as [[a db]|e] eqn:E; cbn; [by apply (H (w_db w) (a, db)) | done]. Qed.
End from.

(** ** The audit log *)


(** The log as the foreign key sees it. *)
Definition audit_view (db : gov_db) : audit_db := mk_audit_db (g_audit db) (pl_id <$> g_plans db).

(** The tables but for a longer log. *)
Definition logged (db db' : gov_db) : Prop := exists rows, db' = set_audit (g_audit db ++ rows) db.

Section append.
Context `{PL : !Platform, GE : !GovEnv}.

(** The log of the tables verifies for every tenant. *)
Definition log_chained (db : gov_db) : Prop := chained (audit_view db).

Lemma append_run ev b (w : gworld) :
  let '(res, w') := appendPlanAudit ev b w in
  w_db w' = set_audit (g_audit (w_db w) ++ omap ok_value [res]) (w_db w) /\
  (digest_nonempty -> jsonb_keeps -> log_chained (w_db w) -> log_chained (w_db w')).
Proof.
  unfold appendPlanAudit, in_audit. fold (audit_view (w_db w)).
  set (w0 := mk_world (audit_view (w_db w)) (w_tick w) (w_uuids w) (w_published w) ([] : list unit)).
  destruct b; [pose proof (append_outcome ev w0) as Ho; destruct (recordAuditEventInTransaction ev w0) as [res w']
              | pose proof (record_outcome ev w0) as Ho; destruct (recordAuditEvent ev w0) as [res w']].
  all: assert (H : ad_events (w_db w') = g_audit (w_db w) ++ omap ok_value [res]) by
    (destruct Ho as [[[e ->] ->]|(id & now & merged & stored & previous & row & -> & _ & _ & _ & ->)]; cbn; [by rewrite app_nil_r | done]).
  all: split; [cbn; by rewrite H|]; intros Hd Hj Hc.
  all: destruct (outcome_chained ev w0 res w' Hd Hj Hc Ho) as [Hc' _]; by destruct (w_db w').
Qed.

Lemma append_logged ev b (w : gworld) : logged (w_db w) (w_db (snd (appendPlanAudit ev b w))).
Proof. pose proof (append_run ev b w) as H. destruct (appendPlanAudit ev b w) as [res w']. destruct H as [H _]. by eexists. Qed.

End append.
