(* ===== verification/Quota.v ===== *)
(** * Quotas

    The models [quota-dimension.mjs] and [quota-override.mjs] of
    src/packages/provisioning-orchestrator, and [quota-override-repository.mjs]
    over the table of migration 103.  The lock a creation takes is the atomicity
    of its transaction. *)
From S2P Require Import Prelude JsValue Json Regex Platform IsoDate AuditChain Governance.
From stdpp Require Import sorting.
From Stdlib Require Import Ascii.
Local Open Scope Z_scope.

(** ** [quota-dimension.mjs] *)

Definition UNLIMITED_SENTINEL : Z := -1.

Definition DIMENSION_KEY_PATTERN : re :=
  RSeq (RCls is_lower) (rbetween 1 62 (RCls (fun c => is_lower c || is_digit c || Ascii.eqb c "_"))).

(** [Number.isInteger(value) && value >= -1] *)
Definition isValidLimitValue (v : jsval) : bool :=
  match v with JNum (NInt z) => UNLIMITED_SENTINEL <=? z | _ => false end.

Definition isUnlimited (n : jsnum) : bool := num_eqb n (NInt UNLIMITED_SENTINEL).

Definition isValidDimensionKey (v : jsval) : bool :=
  match v with JStr s => re_test_full DIMENSION_KEY_PATTERN s | _ => false end.

(** The constructor of [QuotaDimension] on a row of the catalogue. *)
Definition mapDimension (d : dimension) : result js_error dimension :=
  if negb (isValidDimensionKey (JStr (qd_key d))) then Err (coded "INVALID_DIMENSION_KEY" "Invalid dimension key")
  else if negb (nonempty (qd_label d)) then Err (coded "VALIDATION_ERROR" "displayLabel is required")
  else if negb (str_in (qd_unit d) ["count"; "bytes"]) then Err (coded "VALIDATION_ERROR" "Invalid unit")
  else if negb (isValidLimitValue (jint (qd_default d))) then Err (coded "VALIDATION_ERROR" "Invalid defaultValue")
  else Ok d.

(** A quota type with its margin. *)
Record quota_type := mk_quota_type { qt_type : string; qt_grace : jsnum }.

Definition normalizeQuotaTypeEntry (entry : jsval) : quota_type :=
  if negb (truthy entry) then mk_quota_type "hard" (NInt 0)
  else mk_quota_type (if jsval_eqb (js_get entry "type") (JStr "soft") then "soft" else "hard")
         (match js_get entry "graceMargin" with
          | JNum (NInt z) => if 0 <=? z then NInt z else NInt 0
          | _ => NInt 0
          end).

(** ** [quota-override.mjs] *)

Definition normalizeQuotaType (v : jsval) : string := if jsval_eqb v (JStr "soft") then "soft" else "hard".

(** [entry.graceMargin] is undefined for [None]. *)
Definition validateQuotaTypeConfigEntry (type : jsval) (grace : jsval) : result js_error (string * Z) :=
  let quotaType := normalizeQuotaType type in
  match coalesce grace (jint 0) with
  | JNum (NInt g) =>
      if g <? 0 then Err (coded "INVALID_GRACE_MARGIN" "Invalid grace margin")
      else if String.eqb quotaType "soft" && is_undef grace then Err (coded "GRACE_MARGIN_REQUIRED_FOR_SOFT" "Grace margin required")
      else Ok (quotaType, g)
  | _ => Err (coded "INVALID_GRACE_MARGIN" "Invalid grace margin")
  end.

Section model.
Context `{!Platform, !GovEnv}.

(** [Number.parseInt(env ?? '1000', 10) || 1000] *)
Definition MAX_JUSTIFICATION_LENGTH : jsnum :=
  let n := parse_int (default "1000" (gov_env "QUOTA_OVERRIDE_JUSTIFICATION_MAX_LENGTH")) in
  if truthy (JNum n) then n else NInt 1000.

Definition assertJustification (v : jsval) : result js_error string :=
  match v with
  | JStr s =>
      let t := trim s in
      if negb (nonempty t) then Err (coded "JUSTIFICATION_REQUIRED" "Justification required")
      else if num_ltb MAX_JUSTIFICATION_LENGTH (NInt (Z.of_nat (String.length t)))
      then Err (coded "JUSTIFICATION_TOO_LONG" "Justification too long")
      else Ok t
  | _ => Err (coded "JUSTIFICATION_REQUIRED" "Justification required")
  end.

(** [date.getTime() <= Date.now()] is refused. *)
Definition future_expiry (d : Z) : gact (option Z) :=
  now ← gov_now;
  if d <=? now then throw (coded "EXPIRATION_MUST_BE_FUTURE" "Expiration must be future") else mret (Some d).

Definition normalizeExpiry (v : jsval) : gact (option Z) :=
  if nullish v || jsval_eqb v (JStr "") then mret None
  else match js_date v with
       | None => throw (coded "INVALID_EXPIRATION" "Invalid expiration")
       | Some d => future_expiry d
       end.

(** [v ? normalizeExpiry(v) : null] *)
Definition expiry_of (v : jsval) : gact (option Z) := if truthy v then normalizeExpiry v else mret None.

(** What [createOverride] is given. *)
Record override_input := mk_override_input {
  oi_tenantId : jsval;
  oi_dimensionKey : string;
  oi_overrideValue : Z;
  oi_quotaType : string;
  oi_graceMargin : Z;
  oi_justification : string;
  oi_expiresAt : option Z;
  oi_createdBy : string
}.

(** The constructor of [QuotaOverride]; an expiry is checked against the clock
    once more. *)
Definition QuotaOverride (p : override_input) : gact override_row :=
  id ← random_uuid;
  createdAt ← gov_now;
  match oi_tenantId p with
  | JStr t =>
      if negb (nonempty t) then throw (coded "TENANT_ID_REQUIRED" "tenantId required")
      else if negb (isValidDimensionKey (JStr (oi_dimensionKey p))) then throw (coded "INVALID_DIMENSION_KEY" "Invalid dimension key")
      else if negb (isValidLimitValue (jint (oi_overrideValue p))) then throw (coded "INVALID_OVERRIDE_VALUE" "Invalid override value")
      else if negb (str_in (oi_quotaType p) ["hard"; "soft"]) then throw (coded "INVALID_QUOTA_TYPE" "Invalid quota type")
      else if oi_graceMargin p <? 0 then throw (coded "INVALID_GRACE_MARGIN" "Invalid grace margin")
      else
        j ← lift (assertJustification (JStr (oi_justification p)));
        e ← match oi_expiresAt p with Some d => future_expiry d | None => mret None end;
        mret (mk_override_row id t (oi_dimensionKey p) (oi_overrideValue p) (oi_quotaType p) (oi_graceMargin p) j e "active"
                (oi_createdBy p) createdAt None None None None None None None)
  | _ => throw (coded "TENANT_ID_REQUIRED" "tenantId required")
  end.

(** [normalizeOverrideRecord], as it appears in an answer. *)
Definition override_fields (r : override_row) : list (string * jsval) :=
  [("overrideId", JStr (qo_id r)); ("tenantId", JStr (qo_tenant_id r)); ("dimensionKey", JStr (qo_dimension_key r));
   ("overrideValue", jint (qo_value r)); ("quotaType", JStr (qo_type r)); ("graceMargin", jint (qo_grace r));
   ("justification", JStr (qo_justification r)); ("expiresAt", jopt jdate (qo_expires_at r)); ("status", JStr (qo_status r));
   ("createdBy", JStr (qo_created_by r)); ("createdAt", jdate (qo_created_at r)); ("supersededBy", jstr_opt (qo_superseded_by r));
   ("revokedBy", jstr_opt (qo_revoked_by r)); ("revokedAt", jopt jdate (qo_revoked_at r));
   ("revocationJustification", jstr_opt (qo_revocation_justification r)); ("modifiedBy", jstr_opt (qo_modified_by r));
   ("modifiedAt", jopt jdate (qo_modified_at r)); ("modificationJustification", jstr_opt (qo_modification_justification r));
   ("unlimitedSentinel", JBool (qo_value r =? UNLIMITED_SENTINEL))].

(** ** [quota-override-repository.mjs] *)

(** The active override of a tenant and a dimension, whatever its expiry. *)
Definition active_for (t d : string) (r : override_row) : bool :=
  String.eqb (qo_tenant_id r) t && String.eqb (qo_dimension_key r) d && String.eqb (qo_status r) "active".

(** The CHECK constraints of migration 103, with the widths of the columns. *)
Definition override_checks (db : gov_db) (r : override_row) : result js_error unit :=
  throw_if (negb (in_int8 (qo_value r) && in_int4 (qo_grace r))) out_of_range;;
  throw_if (negb (within 255 (Some (qo_tenant_id r)) && within 64 (Some (qo_dimension_key r))
                  && within 255 (Some (qo_created_by r)) && within 255 (qo_revoked_by r) && within 255 (qo_modified_by r))) too_long;;
  throw_if (qo_value r <? -1) (check_violation "override_value");;
  throw_if (negb (str_in (qo_type r) ["hard"; "soft"])) (check_violation "quota_type");;
  throw_if (qo_grace r <? 0) (check_violation "grace_margin");;
  throw_if (negb ((1 <=? pg_trim_length (qo_justification r)) && (pg_trim_length (qo_justification r) <=? 1000))) (check_violation "justification");;
  throw_if (match qo_revocation_justification r with Some j => 1000 <? pg_trim_length j | None => false end) (check_violation "revocation_justification");;
  throw_if (match qo_modification_justification r with Some j => 1000 <? pg_trim_length j | None => false end) (check_violation "modification_justification");;
  throw_if (negb (existsb (fun d => String.eqb (qd_key d) (qo_dimension_key r)) (g_catalog db))) (foreign_key_violation "dimension_key").

Definition insert_override (r : override_row) (db : gov_db) : result js_error (override_row * gov_db) :=
  override_checks db r;;
  throw_if (existsb (fun x => String.eqb (qo_id x) (qo_id r)) (g_overrides db)) (unique_violation "quota_overrides_pkey");;
  throw_if (existsb (active_for (qo_tenant_id r) (qo_dimension_key r)) (g_overrides db))
    (unique_violation "uq_quota_overrides_active_tenant_dimension");;
  Ok (r, set_overrides (g_overrides db ++ [r]) db).

Definition update_row (id : string) (f : override_row -> override_row) (l : list override_row) : list override_row :=
  (fun r => if String.eqb (qo_id r) id then f r else r) <$> l.

Definition find_override (id : string) (db : gov_db) : option override_row :=
  List.find (fun r => String.eqb (qo_id r) id) (g_overrides db).

(** [UPDATE ... WHERE id = $1 RETURNING *] *)
Definition update_override (id : string) (f : override_row -> override_row) (db : gov_db) : result js_error (option override_row * gov_db) :=
  match find_override id db with
  | None => Ok (None, db)
  | Some r =>
      override_checks db (f r);;
      Ok (Some (f r), set_overrides (update_row id f (g_overrides db)) db)
  end.

Definition with_status_ (s : string) (r : override_row) : override_row :=
  mk_override_row (qo_id r) (qo_tenant_id r) (qo_dimension_key r) (qo_value r) (qo_type r) (qo_grace r) (qo_justification r)
    (qo_expires_at r) s (qo_created_by r) (qo_created_at r) (qo_superseded_by r) (qo_revoked_by r) (qo_revoked_at r)
    (qo_revocation_justification r) (qo_modified_by r) (qo_modified_at r) (qo_modification_justification r).
Definition with_superseded_by (id : string) (r : override_row) : override_row :=
  mk_override_row (qo_id r) (qo_tenant_id r) (qo_dimension_key r) (qo_value r) (qo_type r) (qo_grace r) (qo_justification r)
    (qo_expires_at r) (qo_status r) (qo_created_by r) (qo_created_at r) (Some id) (qo_revoked_by r) (qo_revoked_at r)
    (qo_revocation_justification r) (qo_modified_by r) (qo_modified_at r) (qo_modification_justification r).
Definition with_revocation (actor : string) (at_ : Z) (justification : string) (r : override_row) : override_row :=
  mk_override_row (qo_id r) (qo_tenant_id r) (qo_dimension_key r) (qo_value r) (qo_type r) (qo_grace r) (qo_justification r)
    (qo_expires_at r) "revoked" (qo_created_by r) (qo_created_at r) (qo_superseded_by r) (Some actor) (Some at_)
    (Some justification) (qo_modified_by r) (qo_modified_at r) (qo_modification_justification r).

(** The changes of a modification; a member that is absent stays. *)
Record override_changes := mk_override_changes {
  oc_value : option jsval;
  oc_type : option (string * Z);
  oc_expires : option (option Z)
}.

Definition with_changes (actor : string) (at_ : Z) (justification : string) (v : Z) (c : override_changes) (r : override_row) : override_row :=
  mk_override_row (qo_id r) (qo_tenant_id r) (qo_dimension_key r) v
    (from_option fst (qo_type r) (oc_type c)) (from_option snd (qo_grace r) (oc_type c)) (qo_justification r)
    (default (qo_expires_at r) (oc_expires c)) (qo_status r) (qo_created_by r) (qo_created_at r) (qo_superseded_by r)
    (qo_revoked_by r) (qo_revoked_at r) (qo_revocation_justification r) (Some actor) (Some at_) (Some justification).

Definition not_found : js_error := coded "OVERRIDE_NOT_FOUND" "Override not found".
Definition not_active : js_error := coded "OVERRIDE_NOT_ACTIVE" "Override not active".

Definition audited_value (r : override_row) : list (string * jsval) :=
  [("overrideValue", jint (qo_value r)); ("quotaType", JStr (qo_type r)); ("graceMargin", jint (qo_grace r));
   ("expiresAt", jopt jdate (qo_expires_at r))].

Definition createOverride (p : override_input) : gact (override_row * option string) :=
  record ← QuotaOverride p;
  in_transaction (
    active ← query_db (fun db => List.find (active_for (qo_tenant_id record) (qo_dimension_key record)) (g_overrides db));
    _ ← match active with
        | Some a => exec_db_err (update_override (qo_id a) (with_status_ "superseded"))
        | None => mret None
        end;
    row ← exec_db_err (insert_override record);
    _ ← match active with
        | Some a => exec_db_err (update_override (qo_id a) (with_superseded_by (qo_id record)))
        | None => mret None
        end;
    _ ← appendPlanAudit (plan_audit (match active with Some _ => "quota.override.superseded" | None => "quota.override.created" end) (oi_createdBy p)
          (Some (qo_tenant_id record)) None
          (option_map (fun a => JObj [("overrideId", JStr (qo_id a)); ("overrideValue", jint (qo_value a))]) active)
          [("overrideId", JStr (qo_id record)); ("dimensionKey", JStr (qo_dimension_key record)); ("overrideValue", jint (qo_value record));
           ("quotaType", JStr (qo_type record)); ("graceMargin", jint (qo_grace record))] None) true;
    mret (row, option_map qo_id active)).

(** [expires_at IS NULL OR expires_at > NOW()] *)
Definition override_unexpired (now : Z) (r : override_row) : bool :=
  match qo_expires_at r with Some e => now <? e | None => true end.

Definition newest_first (a b : override_row) : Prop := qo_created_at b <= qo_created_at a.
#[export] Instance newest_first_dec : RelDecision newest_first.
Proof. intros a b. unfold newest_first. apply _. Defined.

Definition active_override (now : Z) (t d : string) (db : gov_db) : option override_row :=
  head (merge_sort newest_first (List.filter (fun r => active_for t d r && override_unexpired now r) (g_overrides db))).

Definition getActiveOverrideByTenantAndDimension (t d : string) : gact (option override_row) :=
  now ← gov_now; query_db (active_override now t d).

Definition modifyOverride (id actor justification : string) (c : override_changes) : gact (override_row * override_row) :=
  in_transaction (
    found ← query_db (find_override id);
    match found with
    | None => throw not_found
    | Some row =>
        if negb (String.eqb (qo_status row) "active") then throw not_active
        else
          at_ ← gov_now;
          v ← lift (match oc_value c with Some x => bigint_param x | None => Ok (qo_value row) end);
          updated ← exec_db_err (update_override id (with_changes actor at_ justification v c));
          match updated with
          | None => throw (plain_error "TypeError")
          | Some u =>
              _ ← appendPlanAudit (plan_audit "quota.override.modified" actor (Some (qo_tenant_id row)) None
                    (Some (JObj (audited_value row))) (audited_value u) None) true;
              mret (row, u)
          end
    end).

Definition revokeOverride (id actor justification : string) : gact override_row :=
  in_transaction (
    found ← query_db (find_override id);
    match found with
    | None => throw not_found
    | Some row =>
        if negb (String.eqb (qo_status row) "active") then throw not_active
        else
          at_ ← gov_now;
          updated ← exec_db_err (update_override id (with_revocation actor at_ justification));
          match updated with
          | None => throw (plain_error "TypeError")
          | Some u =>
              _ ← appendPlanAudit (plan_audit "quota.override.revoked" actor (Some (qo_tenant_id row)) None
                    (Some (JObj [("overrideValue", jint (qo_value row)); ("status", JStr "active")]))
                    [("status", JStr "revoked"); ("revokedBy", JStr actor); ("revocationJustification", JStr justification)] None) true;
              mret u
          end
    end).

(** [ORDER BY expires_at, id] *)
Definition expiry_first (a b : override_row) : Prop :=
  default 0 (qo_expires_at a) < default 0 (qo_expires_at b) \/
  default 0 (qo_expires_at a) = default 0 (qo_expires_at b) /\ String.leb (qo_id a) (qo_id b) = true.
#[export] Instance expiry_first_dec : RelDecision expiry_first.
Proof. intros a b. unfold expiry_first. apply _. Defined.

(** The ids the sweep selects. *)
Definition expired_ids (now : Z) (batch : nat) (db : gov_db) : list string :=
  qo_id <$> take batch (merge_sort expiry_first
    (List.filter (fun r => String.eqb (qo_status r) "active" && negb (override_unexpired now r)) (g_overrides db))).

Definition expire_rows (ids : list string) (db : gov_db) : list override_row * gov_db :=
  let f r := if str_in (qo_id r) ids then with_status_ "expired" r else r in
  (List.filter (fun r => str_in (qo_id r) ids) (f <$> g_overrides db), set_overrides (f <$> g_overrides db) db).

(** LIMIT takes the text of a number. *)
Definition limit_param (n : jsnum) : result js_error nat :=
  match n with
  | NInt z => if z <? 0 then Err (coded "2201W" "LIMIT must not be negative") else Ok (Z.to_nat z)
  | _ => Err (coded "22P02" "invalid input syntax for type bigint")
  end.

Definition expireOverrides (now : Z) (batchSize : jsnum) (actor : string) : gact (list override_row) :=
  in_transaction (
    batch ← lift (limit_param batchSize);
    expired ← exec_db (fun db => expire_rows (expired_ids now batch db) db);
    _ ← for_each (fun row =>
          _ ← appendPlanAudit (plan_audit "quota.override.expired" actor (Some (qo_tenant_id row)) None
                (Some (JObj [("overrideValue", jint (qo_value row)); ("status", JStr "active"); ("expiresAt", jopt jdate (qo_expires_at row))]))
                [("status", JStr "expired")] None) true;
          mret tt) expired;
    mret expired).

End model.
