(* ===== verification/QuotaLimits.v ===== *)
(** * Effective limits and quota decisions

    [plan-limits-repository.mjs] (the limits of the current plan),
    [quota-enforcement-repository.mjs] and [quota-enforcement.mjs] of
    src/packages/provisioning-orchestrator; the gates of the control plane:
    [workspace-quota.mjs], [dimension-quota.mjs], [product-quota.mjs]. *)
From S2P Require Import Prelude JsValue Json Regex Platform IsoDate AuditChain Governance Quota.
From stdpp Require Import sorting.
From Stdlib Require Import Ascii QArith.
Local Open Scope Z_scope.

(** ** Decisions ([quota-enforcement.mjs]) *)

Record effective_limit := mk_effective_limit {
  el_limit : jsnum;
  el_type : string;
  el_grace : jsnum;
  el_source : string;
  el_override : option (string * option Z * string);
  el_plan : option (string * string)
}.

(** [effectiveCeiling] *)
Definition ceiling_of (limit : jsnum) (type : string) (grace : jsnum) : jsnum :=
  if isUnlimited limit then NInt UNLIMITED_SENTINEL
  else num_add limit (if String.eqb type "soft" then grace else NInt 0).

Record decision := mk_decision {
  qd_allowed : bool;
  qd_decision : string;
  qd_usage : jsnum;
  qd_limit : jsnum;
  qd_type : string;
  qd_grace : jsnum;
  qd_ceiling : option jsnum;
  qd_warning : bool
}.

(** [Number(currentUsage)], none when it is not a number. *)
Definition usage_of (v : jsval) : option jsnum :=
  if nullish v then None else match js_number v with NNaN => None | n => Some n end.

Definition evaluateQuotaDecision (limit : jsnum) (type : string) (grace : jsnum) (currentUsage : jsval) : decision :=
  let t := normalizeQuotaType (JStr type) in
  let ceiling := ceiling_of limit t grace in
  match usage_of currentUsage with
  | None => mk_decision false "metering_unavailable" NNaN limit t grace None false
  | Some usage =>
      let answer allowed d w := mk_decision allowed d usage limit t grace (Some ceiling) w in
      if isUnlimited limit then answer true "unlimited" false
      else if String.eqb t "hard"
      then if num_leb limit usage then answer false "hard_blocked" false else answer true "allowed" false
      else if num_leb ceiling usage then answer false "soft_grace_exhausted" false
      else if num_leb limit usage then answer true "soft_grace_allowed" true
      else answer true "allowed" false
  end.

(** ** Effective limits *)

(** The plan a tenant has now, with its limits. *)
Definition getLimitsByTenantCurrentPlan (t : string) (db : gov_db) : option plan_row :=
  head (omap (fun a => if String.eqb (as_tenant_id a) t && bool_decide (as_superseded_at a = None)
                       then List.find (fun p => String.eqb (pl_id p) (as_plan_id a)) (g_plans db) else None) (g_assignments db)).

(** [ORDER BY dimension_key ASC] *)
Definition dimension_le (a b : dimension) : Prop := String.leb (qd_key a) (qd_key b) = true.
#[export] Instance dimension_le_dec : RelDecision dimension_le.
Proof. intros a b. unfold dimension_le. apply _. Defined.

Definition listAllDimensions (db : gov_db) : result js_error (list dimension) :=
  mapM mapDimension (merge_sort dimension_le (g_catalog db)).

Definition dimension_in (key : string) (ds : list dimension) : option dimension :=
  List.find (fun d => String.eqb (qd_key d) key) ds.

(** The value the plan sets, [null] when it sets none. *)
Definition explicit_value (plan : option plan_row) (key : string) : jsval :=
  match plan with
  | Some p => match assoc_lookup key (pl_quota_dimensions p) with Some v => v | None => JNull end
  | None => JNull
  end.

Definition explicit_type (plan : option plan_row) (key : string) : quota_type :=
  normalizeQuotaTypeEntry (match plan with
                           | Some p => match assoc_lookup key (pl_quota_type_config p) with Some v => v | None => JNull end
                           | None => JNull
                           end).

(** The override, or else the limit of the plan, or else the default. *)
Definition limit_from (override : option override_row) (plan : option plan_row) (d : dimension) : effective_limit :=
  match override with
  | Some o => mk_effective_limit (NInt (qo_value o)) (qo_type o) (NInt (qo_grace o)) "override"
                (Some (qo_id o, qo_expires_at o, qo_justification o)) None
  | None =>
      let v := explicit_value plan (qd_key d) in
      let t := explicit_type plan (qd_key d) in
      mk_effective_limit (js_number (coalesce v (jint (qd_default d)))) (qt_type t) (qt_grace t)
        (if jsval_eqb v JNull then "default" else "plan") None ((fun p => (pl_slug p, pl_status p)) <$> plan)
  end.

Section limits.
Context `{!Platform, !GovEnv}.

Definition resolveEffectiveLimit (t key : string) : gact effective_limit :=
  plan ← query_db (getLimitsByTenantCurrentPlan t);
  catalog ← query_db listAllDimensions;
  dimensions ← lift catalog;
  match dimension_in key dimensions with
  | None => throw (coded "INVALID_DIMENSION_KEY" "Invalid dimension key")
  | Some d => override ← getActiveOverrideByTenantAndDimension t key; mret (limit_from override plan d)
  end.

Definition resolve_each (t : string) : list string -> gact (list effective_limit) :=
  fix go keys := match keys with
                 | [] => mret []
                 | k :: ks => l ← resolveEffectiveLimit t k; ls ← go ks; mret (l :: ls)
                 end.

Definition resolveEffectiveLimitsForTenant (t : string) : gact (option plan_row * list effective_limit) :=
  plan ← query_db (getLimitsByTenantCurrentPlan t);
  catalog ← query_db listAllDimensions;
  dimensions ← lift catalog;
  ls ← resolve_each t (qd_key <$> dimensions);
  mret (plan, ls).

Definition decide_with (l : effective_limit) (usage : jsval) : decision :=
  evaluateQuotaDecision (el_limit l) (el_type l) (el_grace l) usage.

(** ** The gates of the control plane *)

(** What a gate answers: the decision with its source, or that there is none. *)
Inductive gate_decision :=
| Decided (d : decision) (source dimension : string) (projected : option jsnum)
| QuotaUnavailable.

Definition gate_allowed (g : gate_decision) : bool :=
  match g with Decided d _ _ _ => qd_allowed d | QuotaUnavailable => true end.

(** [workspace-quota.mjs]: an error of the resolver admits the creation.
    [loaded] says whether the governance modules could be imported. *)
Definition checkWorkspaceQuota (loaded : bool) (t : string) (currentUsage : jsval) : gact gate_decision :=
  if negb loaded then mret QuotaUnavailable
  else try_catch (l ← resolveEffectiveLimit t "max_workspaces";
                  mret (Decided (decide_with l currentUsage) (el_source l) "max_workspaces" None))
         (fun _ => mret QuotaUnavailable).

Definition ENFORCED_DIMENSION_KEYS : list string :=
  ["max_workspaces"; "max_kafka_topics"; "max_mongo_databases"; "max_functions"; "max_storage_bytes"].

(** A meter, which may throw, and whether [incomingBytes] is given. *)
Definition meter := result js_error jsval.

Definition finite_of (v : jsval) : option jsnum :=
  if nullish v then None else let n := js_number v in if num_is_finite n then Some n else None.

(** [Number(usage) + Number(incoming) - 1] *)
Definition projected (usage incoming : jsnum) : jsnum := num_add (num_add usage incoming) (NInt (-1)).

Definition checkDimensionQuota (loaded : bool) (t key : string) (currentUsage : meter) (incomingBytes : option meter)
    (skipUnlimitedMeter : bool) : gact gate_decision :=
  if negb loaded then mret QuotaUnavailable
  else try_catch (
    l ← resolveEffectiveLimit t key;
    if skipUnlimitedMeter && isUnlimited (el_limit l) then mret (Decided (decide_with l (jint 0)) (el_source l) key None)
    else
      u ← lift currentUsage;
      i ← lift (match incomingBytes with Some m => m ≫= fun v => Ok (Some v) | None => Ok None end);
      match finite_of u, i with
      | None, _ => mret QuotaUnavailable
      | Some usage, None => mret (Decided (decide_with l (JNum usage)) (el_source l) key None)
      | Some usage, Some inc =>
          match finite_of inc with
          | None => mret QuotaUnavailable
          | Some n => mret (Decided (decide_with l (JNum (projected usage n))) (el_source l) key (Some (num_add usage n)))
          end
      end) (fun _ => mret QuotaUnavailable).

(** [quotaDenial]: the answer to a refused request. *)
Definition quotaDenial (g : gate_decision) : option (Z * string) :=
  if gate_allowed g then None else Some (402, "QUOTA_EXCEEDED").

(** [product-quota.mjs] *)
Definition is_safe_integer (n : jsnum) : bool :=
  match n with NInt z => Z.abs z <=? 9007199254740991 | _ => false end.

Record product_decision := mk_product_decision {
  pd_decision : decision;
  pd_currentUsage : Z;
  pd_projectedUsage : Z;
  pd_source : string
}.

Definition decideProductQuota (loaded : bool) (t key : string) (currentUsage requested : Z) : gact (option product_decision) :=
  if negb (starts_with "codewiki_" key) then throw (coded "INVALID_DIMENSION_KEY" "Invalid dimension key")
  else if String.eqb key "codewiki_max_repository_bytes" && negb (currentUsage =? 0)
  then throw (coded "VALIDATION_ERROR" "Repository snapshots require currentUsage 0")
  else if negb loaded then mret None
  else
    catalog ← query_db listAllDimensions;
    match catalog with
    | Err _ => mret None
    | Ok dimensions =>
        match dimension_in key dimensions with
        | None => throw (coded "INVALID_DIMENSION_KEY" "Invalid dimension key")
        | Some _ =>
            try_catch (
              l ← resolveEffectiveLimit t key;
              if negb (is_safe_integer (el_limit l)) || num_ltb (el_limit l) (NInt (-1)) then mret None
              else
                let projectedUsage := currentUsage + requested in
                let d1 := decide_with l (jint (projectedUsage - 1)) in
                let exclusive := match qd_ceiling d1 with Some c => num_leb c (NInt projectedUsage) | None => false end in
                let d := if String.eqb (el_type l) "soft" && negb (isUnlimited (el_limit l))
                            && (num_ltb (el_limit l) (NInt projectedUsage) || exclusive)
                         then decide_with l (jint projectedUsage) else d1 in
                mret (Some (mk_product_decision d currentUsage projectedUsage (el_source l))))
              (fun _ => mret None)
        end
    end.

(** ** [quota-enforce.mjs] *)

(** The events of a decision: only the three that have a topic are sent. *)
Definition ENFORCEMENT_TOPICS : list (string * string) :=
  [("hard_blocked", "console.quota.hard_limit.blocked"); ("soft_grace_allowed", "console.quota.soft_limit.exceeded");
   ("soft_grace_exhausted", "console.quota.soft_limit.exceeded")].

Definition emitEnforcementEvent (d : string) (payload : jsval) : gact unit :=
  now ← gov_now;
  match assoc_lookup d ENFORCEMENT_TOPICS with
  | Some topic => if has_producer then publish (mk_gov_event topic now payload) else mret tt
  | None => mret tt
  end.

(** [observed] is what [collectObservedUsage] gives when the caller names no
    usage; the row of the enforcement log lives in the process only. *)
Definition quota_enforce (t key : string) (currentUsage observed : jsval) (workspaceId attemptedAction : option string)
    : gact (decision * effective_limit) :=
  l ← resolveEffectiveLimit t key;
  let usage := if is_undef currentUsage then observed else currentUsage in
  let d := decide_with l usage in
  _ ← gov_now;
  if String.eqb (qd_decision d) "metering_unavailable"
  then throw (with_status 500 (coded "METERING_UNAVAILABLE" "Metering unavailable"))
  else
    _ ← emitEnforcementEvent (qd_decision d)
          (JObj [("tenantId", JStr t); ("workspaceId", jstr_opt workspaceId); ("dimensionKey", JStr key);
                 ("payload", JObj [("currentUsage", JNum (qd_usage d)); ("effectiveLimit", JNum (el_limit l));
                    ("effectiveQuotaType", JStr (el_type l)); ("source", JStr (el_source l));
                    ("decision", JStr (qd_decision d)); ("attemptedAction", jstr_opt attemptedAction)])]);
    mret (d, l).

End limits.

(** ** Creations of workspaces that interleave ([createWorkspace])

    A creation counts the workspaces of the tenant, asks the gate, and inserts;
    no lock is held in between.  The effective limit is the same for all. *)
Inductive creation := Arrived | Counted (used : Z) | Let_in | Refused | Created.

(** The gate on a tenant with [used] workspaces. *)
Definition admits (l : effective_limit) (used : Z) : bool := qd_allowed (decide_with l (jint used)).

(** What a creation does next in a tenant of [n] workspaces, and the workspaces
    afterwards; [inserted] is false when the slug is taken meanwhile. *)
Definition creation_advance (l : effective_limit) (inserted : bool) (n : Z) (c : creation) : creation * Z :=
  match c with
  | Arrived => (Counted n, n)
  | Counted used => (if admits l used then Let_in else Refused, n)
  | Let_in => if inserted then (Created, n + 1) else (Refused, n)
  | Refused | Created => (c, n)
  end.

(** One creation of several moves on. *)
Inductive creation_step (l : effective_limit) : list creation * Z -> list creation * Z -> Prop :=
| creation_moves cs1 c cs2 n inserted c' n' :
    creation_advance l inserted n c = (c', n') ->
    creation_step l (cs1 ++ c :: cs2, n) (cs1 ++ c' :: cs2, n').

(** A creation that runs alone. *)
Definition create_alone (l : effective_limit) (n : Z) : Z := if admits l n then n + 1 else n.
