(* ===== verification/QuotaActions.v ===== *)
(** * The quota actions

    [quota-override-create.mjs], [-modify.mjs], [-revoke.mjs], [-list.mjs] and
    [-expiry-sweep.mjs] under actions/ of src/packages/provisioning-orchestrator.
    The body of a request is a JavaScript value; the actor comes from the
    caller's context. *)
From S2P Require Import Prelude JsValue Json Platform IsoDate AuditChain Governance Quota QuotaLimits.
From stdpp Require Import sorting.
Local Open Scope Z_scope.

Section actions.
Context `{!Platform, !GovEnv}.

Definition CREATE_STATUS : list (string * Z) :=
  [("FORBIDDEN", 403); ("INVALID_DIMENSION_KEY", 400); ("INVALID_OVERRIDE_VALUE", 400); ("JUSTIFICATION_REQUIRED", 400);
   ("EXPIRATION_MUST_BE_FUTURE", 400); ("INVALID_GRACE_MARGIN", 400); ("GRACE_MARGIN_REQUIRED_FOR_SOFT", 400)].

(** [FORBIDDEN] with the status of the modules without a table. *)
Definition forbidden_403 (r : result js_error gov_actor) : result js_error gov_actor :=
  match r with Ok a => Ok a | Err e => Err (with_status 403 e) end.

(** [getDimensionByKey]: the row, checked by its constructor. *)
Definition getDimensionByKey (key : string) : gact (option dimension) :=
  found ← query_db (fun db => dimension_in key (g_catalog db));
  match found with
  | Some d => lift (mapDimension d ≫= fun d => Ok (Some d))
  | None => mret None
  end.

(** [params.correlationId ?? randomUUID()] *)
Definition correlation_of (params : jsval) : gact jsval :=
  let c := js_get params "correlationId" in
  if nullish c then u ← random_uuid; mret (JStr u) else mret c.

Definition bad_dimension : js_error := coded "INVALID_DIMENSION_KEY" "Invalid dimension key".

Definition valid_dimension (v : jsval) : gact string :=
  match v with
  | JStr key =>
      if negb (isValidDimensionKey v) then throw bad_dimension
      else found ← getDimensionByKey key; match found with Some _ => mret key | None => throw bad_dimension end
  | _ => throw bad_dimension
  end.

(** The margin as the handlers pass it on: undefined for a soft quota without one. *)
Definition margin_param (params : jsval) (otherwise : jsval) : jsval :=
  let g := js_get params "graceMargin" in
  if jsval_eqb (js_get params "quotaType") (JStr "soft") || negb (is_undef g) then g else otherwise.

Definition create_override_main (actor : option gov_actor) (params : jsval) : gact response :=
  answering CREATE_STATUS (
    a ← lift (requireSuperadmin actor);
    if negb (truthy (js_get params "tenantId")) then throw (with_status 404 (coded "TENANT_NOT_FOUND" "Tenant required"))
    else
      key ← valid_dimension (js_get params "dimensionKey");
      match js_get params "overrideValue" with
      | JNum (NInt v) =>
          if negb (isValidLimitValue (jint v)) then throw (coded "INVALID_OVERRIDE_VALUE" "Invalid override value")
          else
            justification ← lift (assertJustification (js_get params "justification"));
            cfg ← lift (validateQuotaTypeConfigEntry (coalesce (js_get params "quotaType") (JStr "hard")) (margin_param params (jint 0)));
            expiresAt ← expiry_of (js_get params "expiresAt");
            correlationId ← correlation_of params;
            res ← createOverride (mk_override_input (js_get params "tenantId") key v cfg.1 cfg.2 justification expiresAt (ga_id a));
            _ ← emit_event "console.quota.override.created"
                  (JObj [("correlationId", correlationId); ("actorId", JStr (ga_id a)); ("tenantId", js_get params "tenantId");
                         ("dimensionKey", JStr key); ("payload", JObj [("overrideId", JStr (qo_id res.1)); ("overrideValue", jint (qo_value res.1));
                            ("quotaType", JStr (qo_type res.1)); ("graceMargin", jint (qo_grace res.1)); ("justification", JStr justification);
                            ("expiresAt", jopt jdate expiresAt)])]);
            mret (mk_response 201 [] (JObj (override_fields res.1 ++ [("supersededOverrideId", jstr_opt res.2)])))
      | _ => throw (coded "INVALID_OVERRIDE_VALUE" "Invalid override value")
      end).

(** The changes named by the body; [None] when there are none. *)
Definition changes_of (current : override_row) (params : jsval) : gact (option override_changes) :=
  let value := js_get params "overrideValue" in
  let type := js_get params "quotaType" in
  let grace := js_get params "graceMargin" in
  let kept := JNum (NInt (qo_grace current)) in
  cfg ← (if negb (is_undef type) || negb (is_undef grace)
         then r ← lift (validateQuotaTypeConfigEntry (coalesce type (JStr (qo_type current))) (coalesce (margin_param params kept) kept));
              mret (Some r)
         else mret None);
  expires ← (let e := js_get params "expiresAt" in
             if is_undef e then mret None else d ← expiry_of e; mret (Some d));
  let c := mk_override_changes (if is_undef value then None else Some value) cfg expires in
  mret (match c with mk_override_changes None None None => None | _ => Some c end).

Definition modify_override_main (actor : option gov_actor) (overrideId : string) (params : jsval) : gact response :=
  a ← lift (forbidden_403 (requireSuperadmin actor));
  found ← query_db (find_override overrideId);
  match found with
  | None => throw (with_status 404 not_found)
  | Some current =>
      justification ← lift (assertJustification (js_get params "justification"));
      changes ← changes_of current params;
      match changes with
      | None => throw (with_status 400 (coded "NO_CHANGES_SPECIFIED" "No changes specified"))
      | Some c =>
          res ← modifyOverride overrideId (ga_id a) justification c;
          let '(before, after_) := (res : override_row * override_row) in
          _ ← emit_event "console.quota.override.modified"
                (JObj [("actorId", JStr (ga_id a)); ("tenantId", JStr (qo_tenant_id after_)); ("dimensionKey", JStr (qo_dimension_key after_));
                       ("payload", JObj [("overrideId", JStr overrideId); ("previousState", JObj (audited_value before));
                          ("newState", JObj (audited_value after_)); ("justification", JStr justification)])]);
          mret (mk_response 200 [] (JObj [("overrideId", JStr overrideId); ("tenantId", JStr (qo_tenant_id after_));
                  ("dimensionKey", JStr (qo_dimension_key after_)); ("previousState", JObj (audited_value before));
                  ("newState", JObj (audited_value after_)); ("justification", JStr justification);
                  ("modifiedAt", jopt jdate (qo_modified_at after_)); ("modifiedBy", JStr (ga_id a))]))
      end
  end.

Definition revoke_override_main (actor : option gov_actor) (overrideId : string) (params : jsval) : gact response :=
  a ← lift (forbidden_403 (requireSuperadmin actor));
  justification ← lift (assertJustification (js_get params "justification"));
  revoked ← revokeOverride overrideId (ga_id a) justification;
  effective ← resolveEffectiveLimit (qo_tenant_id revoked) (qo_dimension_key revoked);
  _ ← emit_event "console.quota.override.revoked"
        (JObj [("actorId", JStr (ga_id a)); ("tenantId", JStr (qo_tenant_id revoked)); ("dimensionKey", JStr (qo_dimension_key revoked));
               ("payload", JObj [("overrideId", JStr (qo_id revoked)); ("justification", JStr justification)])]);
  mret (mk_response 200 [] (JObj [("overrideId", JStr (qo_id revoked)); ("tenantId", JStr (qo_tenant_id revoked));
          ("dimensionKey", JStr (qo_dimension_key revoked)); ("revokedValue", jint (qo_value revoked));
          ("effectiveValueAfterRevocation", JNum (el_limit effective)); ("effectiveSource", JStr (el_source effective));
          ("justification", JStr justification); ("revokedAt", jopt jdate (qo_revoked_at revoked)); ("revokedBy", JStr (ga_id a))])).

(** [ORDER BY created_at DESC, id] *)
Definition listing_le (a b : override_row) : Prop :=
  qo_created_at b < qo_created_at a \/ qo_created_at a = qo_created_at b /\ String.leb (qo_id a) (qo_id b) = true.
#[export] Instance listing_le_dec : RelDecision listing_le.
Proof. intros a b. unfold listing_le. apply _. Defined.

(** [($n::text IS NULL OR column = $n)], where an empty text is NULL. *)
Definition text_filter (f : option string) (x : string) : bool :=
  match filterValue f with Some y => String.eqb x y | None => true end.

Definition listOverrides (tenant key status : option string) (page pageSize : Z) : gact (list override_row * nat) :=
  rows ← query_db (fun db => List.filter (fun r => text_filter tenant (qo_tenant_id r) && text_filter key (qo_dimension_key r)
                                                 && text_filter status (qo_status r)) (g_overrides db));
  limit ← lift (limit_param (NInt pageSize));
  offset ← lift (limit_param (NInt ((page - 1) * pageSize)));
  mret (take limit (drop offset (merge_sort listing_le rows)), length rows).

Definition list_overrides_main (actor : option gov_actor) (tenant key status : option string) (page pageSize : Z) : gact response :=
  _ ← lift (forbidden_403 (requireSuperadmin actor));
  res ← listOverrides tenant key (Some (default "active" status)) page pageSize;
  let '(rows, total) := (res : list override_row * nat) in
  mret (mk_response 200 [] (JObj [("overrides", JArr (List.map (fun r => JObj (override_fields r)) rows)); ("total", jint (Z.of_nat total));
          ("page", jint page); ("pageSize", jint pageSize)])).

(** The batch size: the body, or the environment, or 100. *)
Definition sweep_batch (params : jsval) : jsnum :=
  js_number (coalesce (coalesce (js_get params "batchSize")
    (match gov_env "QUOTA_OVERRIDE_EXPIRY_SWEEP_BATCH_SIZE" with Some s => JStr s | None => JUndef end)) (jint 100)).

Definition expiry_sweep_main (params : jsval) : gact response :=
  now ← (if truthy (js_get params "now")
         then match js_date (js_get params "now") with Some d => mret d | None => throw (coded "22007" "invalid input syntax for type timestamp") end
         else gov_now);
  expired ← expireOverrides now (sweep_batch params) "system";
  _ ← for_each (fun r => emit_event "console.quota.override.expired"
        (JObj [("actorId", JStr "system"); ("tenantId", JStr (qo_tenant_id r)); ("dimensionKey", JStr (qo_dimension_key r));
               ("payload", JObj [("overrideId", JStr (qo_id r))])])) expired;
  mret (mk_response 200 [] (JObj [("expiredCount", jint (Z.of_nat (length expired)));
          ("overrides", JArr (List.map (fun r => JObj (override_fields r)) expired))])).

(** ** Requests to the quota service *)

Inductive quota_request :=
| CreateOverride (actor : option gov_actor) (params : jsval)
| ModifyOverride (actor : option gov_actor) (overrideId : string) (params : jsval)
| RevokeOverride (actor : option gov_actor) (overrideId : string) (params : jsval)
| SweepOverrides (params : jsval).

Definition serve_quota (r : quota_request) : gact response :=
  match r with
  | CreateOverride a p => create_override_main a p
  | ModifyOverride a id p => modify_override_main a id p
  | RevokeOverride a id p => revoke_override_main a id p
  | SweepOverrides p => expiry_sweep_main p
  end.

Fixpoint run_quota (rs : list quota_request) (w : gworld) : gworld :=
  match rs with [] => w | r :: rs' => run_quota rs' (snd (serve_quota r w)) end.

End actions.
