(* ===== verification/QuotaProofs.v ===== *)
(** * Properties of quotas

    The life of an override, which limit is in force, what the gates admit. *)
From S2P Require Import Prelude JsValue Json Regex Platform IsoDate AuditChain AuditChainProofs.
From S2P Require Import Governance GovernanceProofs Quota QuotaLimits QuotaActions.
From stdpp Require Import sorting.
From Stdlib Require Import Ascii QArith.
Local Open Scope Z_scope.

(** ** Invariants of the overrides *)

(** What a row satisfies whatever happens to it. *)
Definition override_ok (r : override_row) : Prop :=
  -1 <= qo_value r /\ 0 <= qo_grace r /\ qo_type r ∈ ["hard"; "soft"] /\
  qo_status r ∈ ["active"; "superseded"; "revoked"; "expired"].

Record overrides_wf (db : gov_db) : Prop := {
  ow_ids : NoDup (qo_id <$> g_overrides db);
  ow_active : forall r r', r ∈ g_overrides db -> r' ∈ g_overrides db ->
    qo_status r = "active" -> qo_status r' = "active" ->
    qo_tenant_id r = qo_tenant_id r' -> qo_dimension_key r = qo_dimension_key r' -> r = r';
  ow_rows : Forall override_ok (g_overrides db)
}.

(** What a row becomes: an active row may change its value and leave the status
    [active]; any other row is final. *)
Definition override_le (r r' : override_row) : Prop :=
  qo_id r' = qo_id r /\ qo_tenant_id r' = qo_tenant_id r /\ qo_dimension_key r' = qo_dimension_key r /\
  qo_justification r' = qo_justification r /\ qo_created_by r' = qo_created_by r /\ qo_created_at r' = qo_created_at r /\
  (qo_status r = "active" \/ r' = r).

#[export] Instance override_le_refl : Reflexive override_le.
Proof. intros r. unfold override_le. auto 10. Qed.
#[export] Instance override_le_trans : Transitive override_le.
Proof.
  intros r1 r2 r3 (A1 & A2 & A3 & A4 & A5 & A6 & A7) (B1 & B2 & B3 & B4 & B5 & B6 & B7). unfold override_le.
  split_and!; try congruence. destruct A7 as [?| ->]; auto.
Qed.

Record quota_le (db db' : gov_db) : Prop := {
  ql_catalog : g_catalog db' = g_catalog db;
  ql_plans : g_plans db' = g_plans db;
  ql_assignments : g_assignments db' = g_assignments db;
  ql_sub_quotas : g_sub_quotas db' = g_sub_quotas db;
  ql_rest : (g_capabilities db', g_history db') = (g_capabilities db, g_history db);
  ql_log : g_audit db `prefix_of` g_audit db';
  ql_rows : forall r, r ∈ g_overrides db -> exists r', r' ∈ g_overrides db' /\ override_le r r'
}.

#[export] Instance quota_le_refl : Reflexive quota_le.
Proof. intros db. constructor; try done. intros r Hr. by exists r. Qed.
#[export] Instance quota_le_trans : Transitive quota_le.
Proof.
  intros d1 d2 d3 [A1 A2 A3 A4 A5 A6 A7] [B1 B2 B3 B4 B5 B6 B7]. constructor; try congruence; [by etrans|].
  intros r Hr. destruct (A7 r Hr) as (r2 & H2 & L2). destruct (B7 r2 H2) as (r3 & H3 & L3). exists r3. split; [done | by etrans].
Qed.

Section evolution.
Context `{PL : !Platform, GE : !GovEnv}.

(** The preorder of the quota service. *)
Definition quota_step (db db' : gov_db) : Prop :=
  overrides_wf db -> overrides_wf db' /\ quota_le db db' /\ (digest_nonempty -> jsonb_keeps -> log_chained db -> log_chained db').

#[local] Instance quota_step_refl : Reflexive quota_step.
Proof. intros db. by split. Qed.
#[local] Instance quota_step_trans : Transitive quota_step.
Proof.
  intros d1 d2 d3 A B Hw. destruct (A Hw) as (Hw2 & L1 & C1). destruct (B Hw2) as (Hw3 & L2 & C2).
  split_and!; [done | by etrans | auto].
Qed.

(** *** One row at a time *)

Lemma find_override_some id db r : find_override id db = Some r -> r ∈ g_overrides db /\ qo_id r = id.
Proof.
  intros H. apply List.find_some in H as [Hin H]. apply String.eqb_eq in H. by apply list_elem_of_In in Hin.
Qed.

Lemma ids_unique db r r' : overrides_wf db -> r ∈ g_overrides db -> r' ∈ g_overrides db -> qo_id r = qo_id r' -> r = r'.
Proof.
  intros [Hn _ _] Hr Hr' He. apply list_elem_of_lookup in Hr as [i Hi], Hr' as [j Hj].
  assert (i = j) as <- by (eapply NoDup_lookup; [exact Hn| |]; rewrite list_lookup_fmap, ?Hi, ?Hj; cbn; [done | by rewrite He]).
  congruence.
Qed.

Lemma override_checks_ok db r u : override_checks db r = Ok u -> -1 <= qo_value r /\ 0 <= qo_grace r /\ qo_type r ∈ ["hard"; "soft"].
Proof.
  unfold override_checks. intros H.
  repeat (apply result_bind_ok in H as (? & ?%throw_if_ok & H)).
  split_and!; [lia|lia|]. apply str_in_elem. by apply negb_false_iff.
Qed.

(** Changing active rows, each to one that keeps its identity. *)
Lemma wf_map db g : overrides_wf db ->
  (forall r, r ∈ g_overrides db -> g r = r \/ qo_status r = "active" /\ override_le r (g r) /\ override_ok (g r)) ->
  overrides_wf (set_overrides (g <$> g_overrides db) db) /\
  forall r, r ∈ g_overrides db -> exists r', r' ∈ g <$> g_overrides db /\ override_le r r'.
Proof.
  intros Hw Hg.
  assert (Hle : forall r, r ∈ g_overrides db -> override_le r (g r) /\ (qo_status (g r) = "active" -> qo_status r = "active"))
    by (intros r Hr; destruct (Hg r Hr) as [->|(? & ? & _)]; [by split | auto]).
  split; [constructor; cbn [g_overrides set_overrides]|].
  - rewrite <- list_fmap_compose. erewrite list_fmap_ext; [apply Hw|]. intros i r Hi. cbn.
    by apply Hle, list_elem_of_lookup_2 with i.
  - intros y y' (x & -> & Hx)%list_elem_of_fmap (x' & -> & Hx')%list_elem_of_fmap Hs Hs' Ht Hd.
    destruct (Hle x Hx) as [(_ & T & D & _) A], (Hle x' Hx') as [(_ & T' & D' & _) A'].
    f_equal. apply (ow_active db Hw); auto; congruence.
  - apply Forall_forall. intros y (x & -> & Hx)%list_elem_of_fmap. pose proof (ow_rows db Hw) as Hr. rewrite Forall_forall in Hr.
    destruct (Hg x Hx) as [->|(_ & _ & ?)]; auto.
  - intros r Hr. exists (g r). split; [by apply list_elem_of_fmap_2 | by apply Hle].
Qed.

Lemma logged_step db db' : logged db db' -> (digest_nonempty -> jsonb_keeps -> log_chained db -> log_chained db') -> quota_step db db'.
Proof.
  intros [rows ->] Hc Hw. split_and!; [by destruct Hw; constructor| |done].
  constructor; try done; [by eexists|]. intros r Hr. by exists r.
Qed.

Lemma append_step ev b (w : gworld) : quota_step (w_db w) (w_db (snd (appendPlanAudit ev b w))).
Proof.
  apply logged_step; [apply append_logged|]. pose proof (append_run ev b w) as H.
  destruct (appendPlanAudit ev b w). apply H.
Qed.

(** A change of the overrides alone. *)
Lemma overrides_step db l : (overrides_wf db -> overrides_wf (set_overrides l db) /\
    forall r, r ∈ g_overrides db -> exists r', r' ∈ l /\ override_le r r') -> quota_step db (set_overrides l db).
Proof.
  intros H Hw. destruct (H Hw) as [Hw' Hl]. split_and!; [done|by constructor|done].
Qed.

Lemma update_step db id f r x : find_override id db = Some r -> qo_status r = "active" ->
  override_le r (f r) -> str_in (qo_status (f r)) ["active"; "superseded"; "revoked"; "expired"] = true ->
  update_override id f db = Ok x -> x = (Some (f r), set_overrides (update_row id f (g_overrides db)) db) /\ quota_step db x.2.
Proof.
  intros Hf Ha Hle Hst H. unfold update_override in H. rewrite Hf in H.
  apply result_bind_ok in H as (u & Hc & [= <-]). split; [done|]. cbn [snd]. apply overrides_step. intros Hw.
  apply wf_map; [done|]. intros y Hy. destruct (String.eqb_spec (qo_id y) id) as [E|E]; [right|by left].
  apply find_override_some in Hf as [Hr Hid]. assert (y = r) as -> by (apply (ids_unique db); [done..|congruence]).
  split_and!; [done..|]. apply override_checks_ok in Hc as (? & ? & ?). apply str_in_elem in Hst. done.
Qed.

(** A new active row, where none is active for its tenant and dimension. *)
Lemma wf_append db r : overrides_wf db -> override_ok r ->
  (forall y, y ∈ g_overrides db -> qo_id y <> qo_id r) ->
  (forall y, y ∈ g_overrides db -> qo_status y = "active" -> qo_tenant_id y = qo_tenant_id r -> qo_dimension_key y = qo_dimension_key r -> False) ->
  overrides_wf (set_overrides (g_overrides db ++ [r]) db).
Proof.
  intros Hw Hok Hid Hun. constructor; cbn [g_overrides set_overrides].
  - rewrite fmap_app. apply NoDup_app. split_and!; [apply Hw| |by apply NoDup_singleton].
    intros i (y & -> & Hy)%list_elem_of_fmap E%list_elem_of_singleton. by eapply Hid.
  - intros y y' [Hy| ->%list_elem_of_singleton]%elem_of_app [Hy'| ->%list_elem_of_singleton]%elem_of_app Hs Hs' Ht Hd; try done.
    + by apply (ow_active db Hw).
    + by destruct (Hun y).
    + by destruct (Hun y').
  - apply Forall_app. split; [apply Hw | by apply Forall_singleton].
Qed.

(** What an insertion that succeeds has checked. *)
Lemma insert_override_ok db r x : qo_status r = "active" -> insert_override r db = Ok x ->
  x = (r, set_overrides (g_overrides db ++ [r]) db) /\ override_ok r /\
  (forall y, y ∈ g_overrides db -> qo_id y <> qo_id r) /\
  (forall y, y ∈ g_overrides db -> qo_status y = "active" -> qo_tenant_id y = qo_tenant_id r -> qo_dimension_key y = qo_dimension_key r -> False).
Proof.
  intros Ha H. unfold insert_override in H.
  apply result_bind_ok in H as (u & Hc & H). apply result_bind_ok in H as ([] & Hpk%throw_if_ok & H).
  apply result_bind_ok in H as ([] & Huq%throw_if_ok & [= <-]). split; [done|]. split_and!.
  - apply override_checks_ok in Hc as (? & ? & ?). unfold override_ok. rewrite Ha. split_and!; [done..|by left].
  - intros y Hy E. apply not_true_iff_false in Hpk. apply Hpk, existsb_exists. exists y.
    split; [by apply list_elem_of_In | by apply String.eqb_eq].
  - intros y Hy Hs Ht Hd. apply not_true_iff_false in Huq. apply Huq, existsb_exists. exists y.
    split; [by apply list_elem_of_In|]. unfold active_for. by rewrite Hs, Ht, Hd, !String.eqb_refl.
Qed.

Lemma insert_step db r x : qo_status r = "active" -> insert_override r db = Ok x ->
  x = (r, set_overrides (g_overrides db ++ [r]) db) /\ quota_step db x.2.
Proof.
  intros Ha H. apply insert_override_ok in H as (-> & Hok & Hid & Hun); [|done]. split; [done|]. cbn [snd].
  apply overrides_step. intros Hw. split; [by apply wf_append|].
  intros y Hy. exists y. split; [apply elem_of_app; by left | done].
Qed.

(** The three statements of a creation that supersedes. *)
Definition supersede (id by_ : string) (r : override_row) : override_row :=
  if String.eqb (qo_id r) id then with_superseded_by by_ (with_status_ "superseded" r) else r.

Lemma supersede_step db a r x1 x2 x3 :
  find_override (qo_id a) db = Some a -> qo_status a = "active" -> qo_status r = "active" ->
  update_override (qo_id a) (with_status_ "superseded") db = Ok x1 ->
  insert_override r x1.2 = Ok x2 ->
  update_override (qo_id a) (with_superseded_by (qo_id r)) x2.2 = Ok x3 ->
  x3.2 = set_overrides ((supersede (qo_id a) (qo_id r) <$> g_overrides db) ++ [r]) db /\ quota_step db x3.2.
Proof.
  intros Hf Ha Hr H1 H2 H3. unfold update_override in H1. rewrite Hf in H1.
  apply result_bind_ok in H1 as (u & Hc & [= <-]). cbn [snd] in H2.
  apply insert_override_ok in H2 as (-> & Hok & Hid & Hun); [|done].
  assert (E3 : x3.2 = set_overrides ((supersede (qo_id a) (qo_id r) <$> g_overrides db) ++ [r]) db).
  { pose proof (find_override_some _ _ _ Hf) as [Hin _].
    assert (Hne : qo_id r <> qo_id a) by (intros E; apply (Hid (with_status_ "superseded" a)); [|done];
      apply list_elem_of_fmap; exists a; by rewrite String.eqb_refl).
    cbn [snd] in H3. unfold update_override in H3. case_match.
    - apply result_bind_ok in H3 as (? & _ & [= <-]). cbn.
      etrans; [|apply (f_equal (fun l => set_overrides l db))]; [done|]. unfold update_row. rewrite fmap_app, <- list_fmap_compose. f_equal.
      + apply list_fmap_ext. intros i y _. cbn. unfold supersede. destruct (String.eqb (qo_id y) (qo_id a)) eqn:E; cbn; by rewrite E.
      + cbn. by apply String.eqb_neq in Hne as ->.
    - exfalso. assert (Hin' : with_status_ "superseded" a ∈ update_row (qo_id a) (with_status_ "superseded") (g_overrides db) ++ [r])
        by (apply elem_of_app; left; apply list_elem_of_fmap; exists a; by rewrite String.eqb_refl).
      apply list_elem_of_In in Hin'. eapply List.find_none in Hin'; [|done]. cbn in Hin'. by rewrite String.eqb_refl in Hin'. }
  split; [done|]. rewrite E3.
  set (g := supersede (qo_id a) (qo_id r)) in *.
  apply overrides_step. intros Hw.
  destruct (wf_map db g Hw) as [Hw' Hl].
  { intros y Hy. unfold g, supersede. destruct (String.eqb_spec (qo_id y) (qo_id a)) as [E|]; [right|by left].
    pose proof (ids_unique db y a Hw Hy (proj1 (find_override_some _ _ _ Hf)) E) as ->.
    apply override_checks_ok in Hc as (? & ? & ?). split; [done|]. split; [by split_and!; try left|].
    split_and!; [done..|]. right; by left. }
  assert (Hsame : forall z, let z' := if String.eqb (qo_id z) (qo_id a) then with_status_ "superseded" z else z in
            qo_id z' = qo_id (g z) /\ qo_status z' = qo_status (g z) /\ qo_tenant_id z' = qo_tenant_id (g z) /\
            qo_dimension_key z' = qo_dimension_key (g z))
    by (intros z; unfold g, supersede; by destruct (String.eqb _ _)).
  split.
  - apply (wf_append _ r Hw' Hok); cbn [g_overrides set_overrides];
      intros y (z & -> & Hz)%list_elem_of_fmap; destruct (Hsame z) as (S1 & S2 & S3 & S4);
      [rewrite <- S1; apply Hid | rewrite <- S2, <- S3, <- S4; apply Hun];
      cbn [g_overrides set_overrides]; apply list_elem_of_fmap; by exists z.
  - intros y Hy. destruct (Hl y Hy) as (y' & ? & ?). exists y'. split; [apply elem_of_app; by left | done].
Qed.

(** *** The operations *)

Notation moves := (evolves quota_step).

Lemma moves_quiet {A} (m : gact A) : quiet m -> moves m.
Proof. intros Hq. exact (evolves_quiet _ m Hq). Qed.

Lemma query_ok {A} (f : gov_db -> A) (w : gworld) a w' : query_db f w = (Ok a, w') -> a = f (w_db w) /\ w' = w.
Proof. by intros [= <- <-]. Qed.

Lemma exec_ok {A} (f : gov_db -> result js_error (A * gov_db)) (w : gworld) a w' :
  exec_db_err f w = (Ok a, w') -> f (w_db w) = Ok (a, w_db w').
Proof. unfold exec_db_err. destruct (f (w_db w)) as [[b db]|e]; [by intros [= <- <-] | done]. Qed.

Lemma append_from ev b (w : gworld) a w' : appendPlanAudit ev b w = (Ok a, w') -> quota_step (w_db w) (w_db w').
Proof. intros H. pose proof (append_step ev b w) as Hs. by rewrite H in Hs. Qed.

Lemma append_overrides ev b (w : gworld) a w' : appendPlanAudit ev b w = (Ok a, w') -> g_overrides (w_db w') = g_overrides (w_db w).
Proof. intros H. destruct (append_logged ev b w) as [rows E]. rewrite H in E. cbn in E. by rewrite E. Qed.

Lemma in_transaction_ok {A} (m : gact A) (w : gworld) a w' : in_transaction m w = (Ok a, w') -> m w = (Ok a, w').
Proof. unfold in_transaction. by destruct (m w) as [[b|e] w'']. Qed.

Lemma quiet_ok {A} (m : gact A) (w : gworld) a w' : quiet m -> m w = (Ok a, w') -> w_db w' = w_db w.
Proof. intros Hq H. specialize (Hq w). by rewrite H in Hq. Qed.

Lemma QuotaOverride_quiet p : quiet (QuotaOverride p).
Proof. unfold QuotaOverride, future_expiry. quiet_tac. Qed.

(** What the constructor makes of its input. *)
Definition made_from (p : override_input) (r : override_row) : Prop :=
  qo_status r = "active" /\ oi_tenantId p = JStr (qo_tenant_id r) /\ qo_dimension_key r = oi_dimensionKey p /\
  qo_value r = oi_overrideValue p /\ qo_type r = oi_quotaType p /\ qo_grace r = oi_graceMargin p /\ qo_expires_at r = oi_expiresAt p.

Lemma QuotaOverride_made p (w : gworld) r w' : QuotaOverride p w = (Ok r, w') -> made_from p r.
Proof.
  unfold QuotaOverride. intros H. apply M_bind_ok in H as (id & w1 & _ & H). apply M_bind_ok in H as (at_ & w2 & _ & H).
  destruct (oi_tenantId p) eqn:Et; try done. repeat (case_match; [done|]).
  apply M_bind_ok in H as (j & w3 & _ & H). apply M_bind_ok in H as (e & w4 & He & H). injection H as <- <-.
  split_and!; try done. cbn. destruct (oi_expiresAt p) as [d|]; [|by injection He as <- _].
  unfold future_expiry in He. apply M_bind_ok in He as (n & w5 & _ & He). case_match; [done|]. by injection He as <- _.
Qed.

Lemma active_for_active t d r : active_for t d r = true -> qo_tenant_id r = t /\ qo_dimension_key r = d /\ qo_status r = "active".
Proof. unfold active_for. intros [[H1 H2]%andb_true_iff H3]%andb_true_iff. by apply String.eqb_eq in H1, H2, H3. Qed.

(** A row that is found is found again by its id. *)
Lemma find_by_id P db a : NoDup (qo_id <$> g_overrides db) -> List.find P (g_overrides db) = Some a ->
  find_override (qo_id a) db = Some a /\ P a = true.
Proof.
  intros Hn [Hin HP]%List.find_some. apply list_elem_of_In in Hin. split; [|done].
  destruct (find_override (qo_id a) db) as [b|] eqn:Hb.
  - apply find_override_some in Hb as [Hb E]. apply list_elem_of_lookup in Hin as [i Hi], Hb as [j Hj].
    assert (i = j) as <- by (eapply NoDup_lookup; [exact Hn| |]; rewrite list_lookup_fmap, ?Hi, ?Hj; cbn; [done | by rewrite E]).
    congruence.
  - exfalso. apply list_elem_of_In in Hin. apply List.find_none with (x := a) in Hb; [|done]. by rewrite String.eqb_refl in Hb.
Qed.

Lemma create_moves p : moves (createOverride p).
Proof.
  intros w. unfold createOverride, mbind, M_bind at 1.
  pose proof (QuotaOverride_quiet p w) as Hq. pose proof (QuotaOverride_made p w) as Ha.
  destruct (QuotaOverride p w) as [[record|e] w0]; cbn [snd] in Hq |- *; [|by rewrite Hq].
  specialize (Ha record w0 eq_refl). apply proj1 in Ha. rewrite <- Hq. clear Hq w. revert w0.
  apply (evolves_transaction quota_step). intros w res w' H.
  apply M_bind_ok in H as (active & w0 & [-> ->]%query_ok & H).
  destruct (List.find _ _) as [a|] eqn:Hf.
  - apply M_bind_ok in H as (x1 & w1 & H1%exec_ok & H). apply M_bind_ok in H as (x2 & w2 & H2%exec_ok & H).
    apply M_bind_ok in H as (x3 & w3 & H3%exec_ok & H). apply M_bind_ok in H as (x4 & w4 & H4%append_from & [= _ <-]).
    etrans; [|exact H4].
    intros Hw. destruct (find_by_id _ _ _ (ow_ids _ Hw) Hf) as [Hfa (_ & _ & Hs)%active_for_active].
    by eapply (supersede_step _ a record (x1, w_db w1) (x2, w_db w2) (x3, w_db w3)).
  - apply M_bind_ok in H as (x1 & w1 & [= _ <-] & H). apply M_bind_ok in H as (x2 & w2 & H2%exec_ok & H).
    apply M_bind_ok in H as (x3 & w3 & [= _ <-] & H). apply M_bind_ok in H as (x4 & w4 & H4%append_from & [= _ <-]).
    etrans; [|exact H4]. by apply (insert_step _ record (x2, w_db w2)).
Qed.

Lemma moves_ok {A} (m : gact A) (w : gworld) a w' : moves m -> m w = (Ok a, w') -> quota_step (w_db w) (w_db w').
Proof. intros Hm H. specialize (Hm w). by rewrite H in Hm. Qed.

Lemma append_unit_moves ev b : moves (_ ← appendPlanAudit ev b; mret tt).
Proof. apply (evolves_bind _); [intros w; apply append_step | intros a; by apply moves_quiet]. Qed.

(** The rows a creation leaves. *)
Lemma create_rows p (w : gworld) r old w' : overrides_wf (w_db w) -> createOverride p w = (Ok (r, old), w') ->
  let found := List.find (active_for (qo_tenant_id r) (qo_dimension_key r)) (g_overrides (w_db w)) in
  made_from p r /\ r ∈ g_overrides (w_db w') /\ old = qo_id <$> found /\
  (forall a, found = Some a -> with_superseded_by (qo_id r) (with_status_ "superseded" a) ∈ g_overrides (w_db w')).
Proof.
  intros Hw H. unfold createOverride in H. apply M_bind_ok in H as (record & w0 & Hq & H).
  pose proof (QuotaOverride_made p w _ _ Hq) as Hm. pose proof (quiet_ok _ _ _ _ (QuotaOverride_quiet p) Hq) as E.
  rewrite <- E in Hw |- *. clear Hq E w. apply in_transaction_ok in H.
  apply M_bind_ok in H as (active & w1 & [-> ->]%query_ok & H). destruct (List.find _ _) as [a|] eqn:Hf.
  - apply M_bind_ok in H as (x1 & w1 & H1%exec_ok & H). apply M_bind_ok in H as (x2 & w2 & H2%exec_ok & H).
    apply M_bind_ok in H as (x3 & w3 & H3%exec_ok & H). apply M_bind_ok in H as (x4 & w4 & H4%append_overrides & [= <- <- <-]).
    destruct (find_by_id _ _ _ (ow_ids _ Hw) Hf) as [Hfa (_ & _ & Hs)%active_for_active].
    destruct (supersede_step (w_db w0) a record (x1, w_db w1) (x2, w_db w2) (x3, w_db w3)) as [E3 _]; try done; [apply Hm|]. cbn in E3.
    assert (x2 = record) as -> by (by apply insert_override_ok in H2 as ([= -> _] & _); [|apply Hm]).
    rewrite Hf, H4, E3. cbn [g_overrides set_overrides]. split_and!; [done|apply elem_of_app; right; by left|done|].
    intros b [= <-]. apply elem_of_app; left. apply list_elem_of_fmap. exists a. unfold supersede. rewrite String.eqb_refl.
    split; [done|]. by apply find_override_some in Hfa as [? _].
  - apply M_bind_ok in H as (x1 & w1 & [= _ <-] & H). apply M_bind_ok in H as (x2 & w2 & H2%exec_ok & H).
    apply M_bind_ok in H as (x3 & w3 & [= _ <-] & H). apply M_bind_ok in H as (x4 & w4 & H4%append_overrides & [= <- <- <-]).
    apply insert_override_ok in H2 as ([= -> E2] & _); [|apply Hm].
    rewrite Hf, H4, E2. split_and!; [done|apply elem_of_app; right; by left|done|done].
Qed.

(** An update of an active row, then its audit event. *)
Lemma update_then_append id f db r u (w1 w2 : gworld) ev b a w3 :
  find_override id db = Some r -> qo_status r = "active" -> override_le r (f r) ->
  str_in (qo_status (f r)) ["active"; "superseded"; "revoked"; "expired"] = true ->
  w_db w1 = db -> exec_db_err (update_override id f) w1 = (Ok u, w2) ->
  appendPlanAudit ev b w2 = (Ok a, w3) -> quota_step db (w_db w3).
Proof.
  intros Hf Ha Hle Hs E H%exec_ok Hap%append_from. rewrite E in H. etrans; [|exact Hap].
  by apply (update_step db id f r (u, w_db w2)).
Qed.

Lemma modify_moves id actor j c : moves (modifyOverride id actor j c).
Proof.
  apply (evolves_transaction quota_step). intros w res w' H.
  apply M_bind_ok in H as (found & w0 & [-> ->]%query_ok & H).
  destruct (find_override id (w_db w)) as [r|] eqn:Hf; [|done].
  destruct (String.eqb_spec (qo_status r) "active") as [Ha|]; [|done].
  apply M_bind_ok in H as (n & w1 & E1%(quiet_ok _ _ _ _ quiet_gov_now) & H).
  apply M_bind_ok in H as (v & w2 & E2%(quiet_ok _ _ _ _ (quiet_lift _)) & H).
  apply M_bind_ok in H as (u & w3 & Hu & H). destruct u as [u|]; [|done].
  apply M_bind_ok in H as (x & w4 & Hap & [= _ <-]).
  eapply update_then_append; [exact Hf|done| | | |exact Hu|exact Hap]; [|by cbn; rewrite Ha|congruence].
  split_and!; try done. by left.
Qed.

Lemma revoke_moves id actor j : moves (revokeOverride id actor j).
Proof.
  apply (evolves_transaction quota_step). intros w res w' H.
  apply M_bind_ok in H as (found & w0 & [-> ->]%query_ok & H).
  destruct (find_override id (w_db w)) as [r|] eqn:Hf; [|done].
  destruct (String.eqb_spec (qo_status r) "active") as [Ha|]; [|done].
  apply M_bind_ok in H as (n & w1 & E1%(quiet_ok _ _ _ _ quiet_gov_now) & H).
  apply M_bind_ok in H as (u & w3 & Hu & H). destruct u as [u|]; [|done].
  apply M_bind_ok in H as (x & w4 & Hap & [= _ <-]).
  eapply update_then_append; [exact Hf|done| | | |exact Hu|exact Hap]; [|done|done].
  split_and!; try done. by left.
Qed.

(** The rows a sweep selects are active ones. *)
Lemma expired_ids_active now batch db id : overrides_wf db -> id ∈ expired_ids now batch db ->
  forall r, r ∈ g_overrides db -> qo_id r = id -> qo_status r = "active".
Proof.
  intros Hw (x & -> & Hx)%list_elem_of_fmap r Hr E. apply elem_of_take in Hx as (i & Hx & _).
  apply list_elem_of_lookup_2 in Hx. rewrite merge_sort_Permutation in Hx.
  apply list_elem_of_In, List.filter_In in Hx as [Hin [Hs _]%andb_true_iff]. apply list_elem_of_In in Hin.
  rewrite (ids_unique db r x) by done. by apply String.eqb_eq.
Qed.

Lemma sweep_moves now batch actor : moves (expireOverrides now batch actor).
Proof.
  apply (evolves_transaction quota_step). intros w res w' H.
  apply M_bind_ok in H as (n & w0 & E0%(quiet_ok _ _ _ _ (quiet_lift _)) & H).
  apply M_bind_ok in H as (rows & w1 & E1 & H). apply M_bind_ok in H as ([] & w2 & E2 & [= _ <-]).
  etrans; [|eapply moves_ok; [|exact E2]; apply (evolves_for_each _); intros r; apply append_unit_moves].
  cbn in E1. injection E1 as _ <-. rewrite E0. apply overrides_step. intros Hw. apply wf_map; [done|]. intros r Hr.
    destruct (str_in (qo_id r) (expired_ids now n (w_db w))) eqn:Hin; [right|by left]. apply str_in_elem in Hin.
    pose proof (expired_ids_active now n (w_db w) (qo_id r) Hw Hin r Hr eq_refl) as Ha.
    pose proof (ow_rows _ Hw) as Hrs. rewrite Forall_forall in Hrs. destruct (Hrs r Hr) as (? & ? & ? & _).
    split_and!; [done|by split_and!; try left|]. split_and!; [done..|]. unfold with_status_; cbn [qo_status]. set_solver.
Qed.

Ltac moves_step :=
  match goal with
  | |- moves (_ ≫= _) => apply (evolves_bind _); [|intros ?]
  | |- moves (try_catch _ _) => apply (evolves_try _); [|intros ?]
  | |- moves (answering _ _) => apply (evolves_try _); [|intros ?]
  | |- moves (createOverride _) => apply create_moves
  | |- moves (modifyOverride _ _ _ _) => apply modify_moves
  | |- moves (revokeOverride _ _ _) => apply revoke_moves
  | |- moves (expireOverrides _ _ _) => apply sweep_moves
  | |- moves (match ?x with _ => _ end) => destruct x eqn:?
  | |- moves (if ?x then _ else _) => destruct x eqn:?
  | |- moves _ => apply moves_quiet; solve [quiet_tac]
  end.

Lemma valid_dimension_quiet v : quiet (valid_dimension v).
Proof. unfold valid_dimension, getDimensionByKey. quiet_tac. Qed.
Lemma expiry_of_quiet v : quiet (expiry_of v).
Proof. unfold expiry_of, normalizeExpiry, future_expiry. quiet_tac. Qed.
Lemma correlation_of_quiet v : quiet (correlation_of v).
Proof. unfold correlation_of. quiet_tac. Qed.
#[local] Hint Resolve expiry_of_quiet : falcone.
Lemma changes_of_quiet r v : quiet (changes_of r v).
Proof. unfold changes_of. quiet_tac. Qed.
Lemma active_override_quiet t d : quiet (getActiveOverrideByTenantAndDimension t d).
Proof. unfold getActiveOverrideByTenantAndDimension. quiet_tac. Qed.
#[local] Hint Resolve active_override_quiet : falcone.
Lemma resolve_quiet t d : quiet (resolveEffectiveLimit t d).
Proof. unfold resolveEffectiveLimit. quiet_tac. Qed.
#[local] Hint Resolve valid_dimension_quiet correlation_of_quiet changes_of_quiet resolve_quiet : falcone.

Lemma serve_moves r : moves (serve_quota r).
Proof.
  destruct r; cbn [serve_quota]; unfold create_override_main, modify_override_main, revoke_override_main, expiry_sweep_main;
    repeat moves_step.
Qed.

Lemma run_moves rs : forall w, quota_step (w_db w) (w_db (run_quota rs w)).
Proof.
  induction rs as [|r rs IH]; intros w; cbn [run_quota]; [done|]. etrans; [apply serve_moves | apply IH].
Qed.

(** C10: The life of overrides.  Whatever creations, modifications, revocations
    and sweeps are served, from tables where ids are unique and a tenant has at
    most one active override for a dimension: that stays so; an override that is
    no longer active never changes again, and no override loses its identity or
    is deleted; plans, assignments, sub-quotas and the catalogue stay; and the
    audit log only grows, its hash chain intact. *)
Theorem overrides_lifecycle rs (w : gworld) : overrides_wf (w_db w) ->
  let db := w_db w in let db' := w_db (run_quota rs w) in
  overrides_wf db' /\
  (forall r, r ∈ g_overrides db -> qo_status r <> "active" -> r ∈ g_overrides db') /\
  (forall r, r ∈ g_overrides db -> exists r', r' ∈ g_overrides db' /\ override_le r r') /\
  (g_catalog db', g_plans db', g_assignments db', g_sub_quotas db') = (g_catalog db, g_plans db, g_assignments db, g_sub_quotas db) /\
  (g_capabilities db', g_history db') = (g_capabilities db, g_history db) /\
  g_audit db `prefix_of` g_audit db' /\
  (digest_nonempty -> jsonb_keeps -> log_chained db -> log_chained db').
Proof.
  intros Hw. cbv zeta. destruct (run_moves rs w Hw) as (Hw' & [Q1 Q2 Q3 Q4 Q5 Q6 Q7] & Hc).
  split_and!; [done| |done| |done|done|done].
  - intros r Hr Hs. destruct (Q7 r Hr) as (r' & Hr' & (_ & _ & _ & _ & _ & _ & [?| ->])); done.
  - by rewrite Q1, Q2, Q3, Q4.
Qed.

End evolution.

(** ** A sample service *)

Definition sample_gov_env : GovEnv := {|
  gov_audit := sample_audit_env; int8_text := fun _ => None; date_text := fun _ => Some 1800000000000;
  driver_text := js_to_string;
  gov_env := fun _ => None; has_producer := true; tenant_present := fun t => Ok (String.eqb t "t1"); usage_rows := fun _ _ => Counted_rows 4;
  plan_adjustments := fun _ => None |}.
Definition sample_gov_platform : Platform :=
  {| clock := fun n => (1700000000000 + n)%N; uuid := fun n => "id-" +:+ show_N n; broker := fun _ => None |}.

Definition sample_dimension : dimension := mk_dimension "max_workspaces" "Workspaces" "count" 3 None.
Definition sample_plan : plan_row :=
  mk_plan_row "p1" "starter" "Starter" None "active" [] [("max_workspaces", jint 5)]
    [("max_workspaces", JObj [("type", JStr "soft"); ("graceMargin", jint 2)])] 0 0 "ada" "ada".
Definition sample_gov_db : gov_db :=
  mk_gov_db [sample_dimension] [sample_plan] [mk_assignment_row "a1" "t1" "p1" 0 None "ada" []] [] [] []
    [mk_capability_row "realtime" "Realtime" "Realtime channels" false true 30] [].
Definition sample_gov_world : gworld := mk_world sample_gov_db 0 0 0 [].

Definition sample_superadmin : option gov_actor := Some (mk_gov_actor "ada" "superadmin" None None).
Definition sample_override (value : Z) (expiry : list (string * jsval)) : jsval :=
  JObj ([("tenantId", JStr "t1"); ("dimensionKey", JStr "max_workspaces"); ("overrideValue", jint value);
         ("justification", JStr "asked for")] ++ expiry).

(** A creation, one that replaces it, a modification out of range, a sweep
    after the expiry and a revocation that comes too late. *)
Definition sample_requests : list quota_request :=
  [CreateOverride sample_superadmin (sample_override 10 []);
   CreateOverride sample_superadmin (sample_override 20 [("expiresAt", JStr "later")]);
   ModifyOverride sample_superadmin "id-4" (JObj [("overrideValue", jint (-7)); ("justification", JStr "oops")]);
   SweepOverrides (JObj [("now", jint 1900000000000)]);
   RevokeOverride sample_superadmin "id-4" (JObj [("justification", JStr "too late")])].

Lemma sample_overrides_wf : overrides_wf sample_gov_db.
Proof. constructor; cbn; [constructor | by intros ? ? ?%elem_of_nil | constructor]. Qed.

#[local] Existing Instance sample_gov_platform.
#[local] Existing Instance sample_gov_env.

Lemma overrides_lifecycle_witness :
  let db' := w_db (run_quota sample_requests sample_gov_world) in
  qo_status <$> g_overrides db' = ["superseded"; "expired"] /\ length (g_audit db') = 3%nat /\
  overrides_wf db' /\ log_chained db'.
Proof.
  pose proof (overrides_lifecycle sample_requests sample_gov_world sample_overrides_wf) as (H1 & _ & _ & _ & _ & _ & H2).
  split; [by vm_compute|]. split; [by vm_compute|]. split; [exact H1|].
  apply H2; [intros s; by cbn | exact sample_jsonb_keeps | by apply chained_empty].
Defined.
