(* ===== verification/QuotaDecisions.v ===== *)
(** * Which limit is in force, and what it admits

    The precedence of override, plan and default against a relational
    definition; the decision of a quota as arithmetic; admission one after the
    other, and admission by creators that interleave. *)
From S2P Require Import Prelude JsValue Json Regex Platform IsoDate AuditChain Governance.
From S2P Require Import GovernanceProofs Quota QuotaLimits QuotaActions QuotaProofs.
From stdpp Require Import sorting.
From Stdlib Require Import Ascii QArith Qreduction Qcanon.
Local Open Scope Z_scope.

(** ** Decisions on integers *)

Lemma num_add_int a b : num_add (NInt a) (NInt b) = NInt (a + b).
Proof.
  cbn. unfold num_of_Q, Qplus. cbn [num_Q inject_Z Qnum Qden]. rewrite !Z.mul_1_r.
  rewrite Qred_identity by apply Z.gcd_1_r. done.
Qed.

Definition is_soft (type : string) : bool := String.eqb type "soft".

(** The usage a limit stops at. *)
Definition ceiling (limit : Z) (type : string) (grace : Z) : Z := limit + (if is_soft type then grace else 0).

Lemma normalize_soft type : String.eqb (normalizeQuotaType (JStr type)) "soft" = is_soft type.
Proof. unfold normalizeQuotaType, is_soft. cbn. by destruct (String.eqb type "soft"). Qed.
Lemma normalize_hard type : String.eqb (normalizeQuotaType (JStr type)) "hard" = negb (is_soft type).
Proof. unfold normalizeQuotaType, is_soft. cbn. by destruct (String.eqb type "soft"). Qed.

Lemma isUnlimited_int z : isUnlimited (NInt z) = (z =? -1).
Proof. unfold isUnlimited, num_eqb, UNLIMITED_SENTINEL. destruct (Z.eqb_spec z (-1)) as [->|]; [done|]. apply bool_decide_eq_false. congruence. Qed.

Lemma ceiling_of_int limit type grace : limit <> -1 ->
  ceiling_of (NInt limit) (normalizeQuotaType (JStr type)) (NInt grace) = NInt (ceiling limit type grace).
Proof.
  intros H. unfold ceiling_of. rewrite isUnlimited_int, normalize_soft. apply Z.eqb_neq in H as ->. unfold ceiling.
  destruct (is_soft type); apply num_add_int.
Qed.

(** What a decision on integers is. *)
Lemma decision_int limit type grace usage : limit <> -1 -> 0 <= grace ->
  let d := evaluateQuotaDecision (NInt limit) type (NInt grace) (jint usage) in
  qd_allowed d = (usage <? ceiling limit type grace) /\
  qd_warning d = is_soft type && (limit <=? usage) && (usage <? ceiling limit type grace) /\
  qd_ceiling d = Some (NInt (ceiling limit type grace)).
Proof.
  intros Hl Hg d. unfold d, evaluateQuotaDecision, usage_of, nullish. cbn [js_number jint].
  rewrite ceiling_of_int, isUnlimited_int, normalize_hard by done. pose proof Hl as ->%Z.eqb_neq. unfold ceiling. cbn [num_leb].
  destruct (is_soft type); cbn [negb];
    repeat match goal with |- context [?a <=? ?b] => destruct (Z.leb_spec a b) end; cbn; split_and!; lia || done || idtac.
Qed.

(** ** The limit in force *)

Section limits.
Context `{PL : !Platform, GE : !GovEnv}.

(** The plan a tenant is on. *)
Definition on_plan (t : string) (db : gov_db) (p : plan_row) : Prop :=
  exists a, a ∈ g_assignments db /\ as_tenant_id a = t /\ as_superseded_at a = None /\
    List.find (fun p => String.eqb (pl_id p) (as_plan_id a)) (g_plans db) = Some p.

(** A tenant has one assignment that is not superseded. *)
Definition one_current (db : gov_db) : Prop :=
  forall a a', a ∈ g_assignments db -> a' ∈ g_assignments db -> as_tenant_id a = as_tenant_id a' ->
    as_superseded_at a = None -> as_superseded_at a' = None -> a = a'.

(** The limits of a plan are JSON: none is [undefined]. *)
Definition plans_json (db : gov_db) : Prop :=
  forall p k v, p ∈ g_plans db -> assoc_lookup k (pl_quota_dimensions p) = Some v -> v <> JUndef.

(** An override in force at [now]. *)
Definition override_in_force (now : Z) (t key : string) (db : gov_db) (r : override_row) : Prop :=
  r ∈ g_overrides db /\ qo_tenant_id r = t /\ qo_dimension_key r = key /\ qo_status r = "active" /\
  (forall e, qo_expires_at r = Some e -> now < e).

(** The documented precedence: override, plan, default. *)
Inductive governs (now : Z) (t : string) (d : dimension) (db : gov_db) : effective_limit -> Prop :=
| governs_override r :
    override_in_force now t (qd_key d) db r ->
    governs now t d db (mk_effective_limit (NInt (qo_value r)) (qo_type r) (NInt (qo_grace r)) "override"
                          (Some (qo_id r, qo_expires_at r, qo_justification r)) None)
| governs_plan p v type grace :
    (forall r, ~ override_in_force now t (qd_key d) db r) -> on_plan t db p ->
    assoc_lookup (qd_key d) (pl_quota_dimensions p) = Some v -> v <> JNull ->
    explicit_type (Some p) (qd_key d) = mk_quota_type type grace ->
    governs now t d db (mk_effective_limit (js_number v) type grace "plan" None (Some (pl_slug p, pl_status p)))
| governs_plan_default p type grace :
    (forall r, ~ override_in_force now t (qd_key d) db r) -> on_plan t db p ->
    default JNull (assoc_lookup (qd_key d) (pl_quota_dimensions p)) = JNull ->
    explicit_type (Some p) (qd_key d) = mk_quota_type type grace ->
    governs now t d db (mk_effective_limit (NInt (qd_default d)) type grace "default" None (Some (pl_slug p, pl_status p)))
| governs_default :
    (forall r, ~ override_in_force now t (qd_key d) db r) -> (forall p, ~ on_plan t db p) ->
    governs now t d db (mk_effective_limit (NInt (qd_default d)) "hard" (NInt 0) "default" None None).

Lemma in_force_filter now t key db r :
  r ∈ List.filter (fun r => active_for t key r && override_unexpired now r) (g_overrides db) <-> override_in_force now t key db r.
Proof.
  rewrite list_elem_of_In, List.filter_In, <- list_elem_of_In. unfold override_in_force, active_for, override_unexpired.
  rewrite !andb_true_iff, !String.eqb_eq. destruct (qo_expires_at r) as [e|]; rewrite ?Z.ltb_lt; naive_solver.
Qed.

(** Whatever the order of the rows, the override chosen is the one in force. *)
Lemma active_override_spec now t key db r : overrides_wf db ->
  active_override now t key db = Some r <-> override_in_force now t key db r.
Proof.
  intros Hw. unfold active_override. rewrite <- in_force_filter. set (l := List.filter _ _).
  pose proof (merge_sort_Permutation newest_first l) as Hp. split.
  - intros Hh. rewrite <- Hp. destruct (merge_sort newest_first l); [done|]. cbn in Hh. injection Hh as ->. by left.
  - intros Hr. rewrite <- Hp in Hr. destruct (merge_sort newest_first l) as [|x xs] eqn:E; [by apply elem_of_nil in Hr|].
    cbn. f_equal. assert (Hx : x ∈ l) by (rewrite <- Hp; by left). rewrite Hp in Hr.
    apply in_force_filter in Hr as (? & ? & ? & ? & _), Hx as (? & ? & ? & ? & _). apply (ow_active db Hw); congruence.
Qed.

Lemma on_plan_spec t db p : one_current db -> getLimitsByTenantCurrentPlan t db = Some p <-> on_plan t db p.
Proof.
  intros H1. unfold getLimitsByTenantCurrentPlan. set (f := fun a => _).
  assert (Hf : forall a q, f a = Some q <-> as_tenant_id a = t /\ as_superseded_at a = None /\
            List.find (fun p => String.eqb (pl_id p) (as_plan_id a)) (g_plans db) = Some q).
  { intros a q. unfold f. destruct (String.eqb_spec (as_tenant_id a) t); cbn; [|naive_solver].
    case_bool_decide; naive_solver. }
  split.
  - intros Hh. assert (Hin : p ∈ omap f (g_assignments db)) by (destruct (omap _ _); [done|]; injection Hh as ->; by left).
    apply list_elem_of_omap in Hin as (a & Ha & Hfa). apply Hf in Hfa. by exists a.
  - intros (a & Ha & Ht & Hs & Hp). assert (Hin : p ∈ omap f (g_assignments db)) by (apply list_elem_of_omap; exists a; by rewrite Hf).
    destruct (omap f (g_assignments db)) as [|q l] eqn:E; [by apply elem_of_nil in Hin|]. cbn. f_equal.
    assert (Hq : q ∈ omap f (g_assignments db)) by (rewrite E; by left).
    apply list_elem_of_omap in Hq as (a' & Ha' & (Ht' & Hs' & Hp')%Hf).
    assert (a = a') as <- by (apply H1; congruence). congruence.
Qed.

Lemma on_plan_in t db p : on_plan t db p -> p ∈ g_plans db.
Proof. intros (a & _ & _ & _ & [H _]%List.find_some). by apply list_elem_of_In. Qed.

Lemma resolve_run t key (w : gworld) ds d : listAllDimensions (w_db w) = Ok ds -> dimension_in key ds = Some d ->
  fst (resolveEffectiveLimit t key w)
  = Ok (limit_from (active_override (Z.of_N (clock (w_tick w))) t key (w_db w)) (getLimitsByTenantCurrentPlan t (w_db w)) d).
Proof. intros H1 H2. unfold resolveEffectiveLimit, mbind, M_bind. cbn. rewrite H1. cbn. by rewrite H2. Qed.

Lemma dimension_in_key key ds d : dimension_in key ds = Some d -> qd_key d = key.
Proof. intros [_ H]%List.find_some. by apply String.eqb_eq. Qed.

(** C11: Which limit is in force.  The limit resolved for a dimension of the
    catalogue is the one of the documented precedence and no other: the active
    override that has not expired, whatever the order of the rows; without one,
    the value of the tenant's current plan with its quota type; and otherwise
    the default of the dimension. *)
Theorem effective_limit_precedence t key (w : gworld) ds d l :
  overrides_wf (w_db w) -> one_current (w_db w) -> plans_json (w_db w) ->
  listAllDimensions (w_db w) = Ok ds -> dimension_in key ds = Some d ->
  fst (resolveEffectiveLimit t key w) = Ok l <-> governs (Z.of_N (clock (w_tick w))) t d (w_db w) l.
Proof.
  intros Hw H1 Hj Hds Hd. rewrite (resolve_run t key w ds d) by done. pose proof (dimension_in_key _ _ _ Hd) as Hk.
  set (now := Z.of_N (clock (w_tick w))). rewrite <- Hk in *.
  pose proof (fun r => active_override_spec now t (qd_key d) (w_db w) r Hw) as Hov.
  pose proof (fun p => on_plan_spec t (w_db w) p H1) as Hpl.
  split.
  - intros [= <-]. unfold limit_from. destruct (active_override _ _ _ _) as [r|]; [apply governs_override; by apply Hov|].
    assert (Hno : forall r, ~ override_in_force now t (qd_key d) (w_db w) r) by (intros r Hr%Hov; done).
    destruct (getLimitsByTenantCurrentPlan t (w_db w)) as [p|].
    + assert (Hp : on_plan t (w_db w) p) by by apply Hpl.
      destruct (explicit_type (Some p) (qd_key d)) as [type grace] eqn:Et. unfold explicit_value. cbn.
      destruct (assoc_lookup (qd_key d) (pl_quota_dimensions p)) as [v|] eqn:Ev; [|eapply governs_plan_default; by rewrite ?Ev].
      assert (v = JNull \/ v <> JNull) as [->|Hv] by (destruct v; auto); [eapply governs_plan_default; by rewrite ?Ev|].
      assert (v <> JUndef) by (eapply Hj; [eapply on_plan_in, Hp | exact Ev]).
      replace (coalesce v (jint (qd_default d))) with v by by destruct v. replace (jsval_eqb v JNull) with false by by destruct v.
      by eapply governs_plan.
    + apply governs_default; [done|]. intros p Hp%Hpl. done.
  - assert (Hnone : (forall r, ~ override_in_force now t (qd_key d) (w_db w) r) -> active_override now t (qd_key d) (w_db w) = None).
    { intros Hno. destruct (active_override _ _ _ _) as [r|]; [|done]. by destruct (Hno r); apply Hov. }
    intros [r Hr|p v type grace Hno Hp Ev Hv Et|p type grace Hno Hp Ev Et|Hno Hnp].
    + apply Hov in Hr. by rewrite Hr.
    + rewrite Hnone by done. apply Hpl in Hp as Hp'. rewrite Hp'. unfold limit_from, explicit_value. cbn. rewrite Ev, Et.
      assert (v <> JUndef) by (eapply Hj; [eapply on_plan_in, Hp | exact Ev]). by destruct v.
    + rewrite Hnone by done. apply Hpl in Hp as Hp'. rewrite Hp'. unfold limit_from, explicit_value. cbn. rewrite Et.
      destruct (assoc_lookup _ _) as [v|]; cbn in Ev |- *; [by subst v | done].
    + rewrite Hnone by done. destruct (getLimitsByTenantCurrentPlan t (w_db w)) as [p|]; [|done]. by destruct (Hnp p); apply Hpl.
Qed.

(** A created override governs.  Once the creation has committed, the limit
    of its tenant and dimension is the override it describes, at every time
    before its expiry; the override it replaced is answered, is [superseded] and
    names its successor. *)
Theorem created_override_governs p (w : gworld) r old w' :
  overrides_wf (w_db w) -> createOverride p w = (Ok (r, old), w') ->
  made_from p r /\
  (forall now, override_unexpired now r = true -> active_override now (qo_tenant_id r) (qo_dimension_key r) (w_db w') = Some r) /\
  old = qo_id <$> List.find (active_for (qo_tenant_id r) (qo_dimension_key r)) (g_overrides (w_db w)) /\
  (forall a, a ∈ g_overrides (w_db w) -> active_for (qo_tenant_id r) (qo_dimension_key r) a = true ->
     with_superseded_by (qo_id r) (with_status_ "superseded" a) ∈ g_overrides (w_db w')).
Proof.
  intros Hw H. pose proof (moves_ok _ _ _ _ (create_moves p) H Hw) as (Hw' & _).
  destruct (create_rows p w r old w' Hw H) as (Hm & Hr & Hold & Hsup). split_and!; [done| |done|].
  - intros now Hun. apply active_override_spec; [done|]. apply in_force_filter, list_elem_of_In, List.filter_In.
    split; [by apply list_elem_of_In|]. unfold active_for. destruct Hm as (-> & _). by rewrite !String.eqb_refl.
  - intros a Ha Hact. destruct (List.find _ _) as [b|] eqn:Hf.
    + assert (a = b) as -> by (destruct (find_by_id _ _ _ (ow_ids _ Hw) Hf) as [(Hb & _)%find_override_some Hb'];
        apply active_for_active in Hact as (? & ? & ?), Hb' as (? & ? & ?); apply (ow_active _ Hw); congruence).
      by apply Hsup.
    + apply list_elem_of_In in Ha. apply List.find_none with (x := a) in Hf; [|done]. by rewrite Hact in Hf.
Qed.
End limits.

(** ** Admission *)

Definition int_limit (limit : Z) (type : string) (grace : Z) (source : string) : effective_limit :=
  mk_effective_limit (NInt limit) type (NInt grace) source None None.

Definition created (cs : list creation) : nat := length (List.filter (fun c => match c with Created => true | _ => false end) cs).

Lemma created_le cs : (created cs <= length cs)%nat.
Proof. unfold created. rewrite List.filter_length_le. lia. Qed.

Lemma created_app cs1 cs2 : created (cs1 ++ cs2) = (created cs1 + created cs2)%nat.
Proof. unfold created. by rewrite List.filter_app, length_app. Qed.

Section creations.
Variables (limit grace : Z) (type source : string) (n0 : Z).
Hypotheses (Hl : limit <> -1) (Hg : 0 <= grace).
Notation l := (int_limit limit type grace source).
Notation C := (ceiling limit type grace).

Lemma admits_int used : admits l used = (used <? C).
Proof. apply (decision_int limit type grace used Hl Hg). Qed.

(** Nobody counts fewer workspaces than there were, and only a tenant below its
    ceiling lets anyone in. *)
Definition creation_ok (c : creation) : Prop :=
  match c with Counted used => n0 <= used | Let_in | Created => n0 < C | Arrived | Refused => True end.

Definition creations_inv (k : nat) (s : list creation * Z) : Prop :=
  length (fst s) = k /\ snd s = n0 + Z.of_nat (created (fst s)) /\ Forall creation_ok (fst s).

Lemma creation_step_inv k s s' : creations_inv k s -> creation_step l s s' -> creations_inv k s'.
Proof.
  intros (Hk & Hn & Hok) Hs. destruct Hs as [cs1 c cs2 n inserted c' n' E]. unfold creations_inv in *. cbn [fst snd] in *.
  rewrite length_app in *. cbn [length] in *. apply Forall_app in Hok as [H1 [Hc H2]%Forall_cons].
  rewrite created_app in *. change (c :: cs2) with ([c] ++ cs2) in *. change (c' :: cs2) with ([c'] ++ cs2). rewrite created_app in *.
  split; [done|].
  assert (n' = n + Z.of_nat (created [c']) - Z.of_nat (created [c]) /\ creation_ok c') as [-> Hc'].
  { destruct c; cbn in E; [injection E as <- <-; cbn in *; lia| |destruct inserted|injection E as <- <-; cbn in *; lia..].
    - rewrite admits_int in E. destruct (Z.ltb_spec used C); injection E as <- <-; cbn in *; lia.
    - injection E as <- <-; cbn in *; lia.
    - injection E as <- <-; cbn in *; lia. }
  split; [lia|]. apply Forall_app. split; [done|]. by constructor.
Qed.

Lemma arrived_inv k : creations_inv k (replicate k Arrived, n0).
Proof.
  split_and!; cbn [fst snd]; [apply length_replicate| |by apply Forall_replicate].
  replace (created (replicate k Arrived)) with 0%nat; [lia|]. unfold created. by induction k.
Qed.

Lemma creations_inv_bound k s : creations_inv (S k) s -> snd s <= Z.max n0 (C + Z.of_nat k).
Proof.
  intros (Hk & Hn & Hok). pose proof (created_le (fst s)). destruct (created (fst s)) as [|m] eqn:E; [lia|].
  assert (n0 < C); [|lia]. unfold created in E.
  assert (Hin : exists c, c ∈ List.filter (fun c => match c with Created => true | _ => false end) (fst s))
    by (destruct (List.filter _ _) as [|c ?]; [done | exists c; by left]).
  destruct Hin as [c Hin]. apply list_elem_of_In, List.filter_In in Hin as [Hin Hc]. apply list_elem_of_In in Hin.
  rewrite Forall_forall in Hok. specialize (Hok c Hin). by destruct c.
Qed.

(** All move together: everybody counts, then everybody is admitted, then all insert. *)
Lemma creations_advance f g k n : creation_advance l true n f = (g, n) ->
  forall cs, rtc (creation_step l) (cs ++ replicate k f, n) (cs ++ replicate k g, n).
Proof.
  intros Hf. induction k as [|k IH]; intros cs; [done|]. cbn [replicate].
  eapply rtc_l; [apply (creation_moves l cs f (replicate k f) n true g n), Hf|].
  specialize (IH (cs ++ [g])). by rewrite <- !app_assoc in IH.
Qed.

Lemma insert_all k : forall cs n, rtc (creation_step l) (cs ++ replicate k Let_in, n) (cs ++ replicate k Created, n + Z.of_nat k).
Proof.
  induction k as [|k IH]; intros cs n; [by rewrite Z.add_0_r|]. cbn [replicate].
  eapply rtc_l; [by apply (creation_moves l cs Let_in (replicate k Let_in) n true Created (n + 1))|].
  specialize (IH (cs ++ [Created]) (n + 1)). rewrite <- !app_assoc in IH. cbn in IH.
  by replace (n + Z.of_nat (S k)) with (n + 1 + Z.of_nat k) by lia.
Qed.
End creations.

(** C12: What the workspace quota bounds.  For an integer limit with its grace
    margin, creations that run one after the other stop exactly at the ceiling
    (a tenant above it creates nothing); [k+1] creations that interleave in any
    way exceed it by at most [k]; and since no lock is held between the count
    and the insertion, some interleaving of a tenant one below its ceiling does
    reach that. *)
Theorem workspace_quota_bound limit type grace source n0 k : limit <> -1 -> 0 <= grace ->
  let l := int_limit limit type grace source in let C := ceiling limit type grace in
  Nat.iter k (create_alone l) n0 = Z.min (n0 + Z.of_nat k) (Z.max n0 C) /\
  (forall s, rtc (creation_step l) (replicate (S k) Arrived, n0) s -> snd s <= Z.max n0 (C + Z.of_nat k)) /\
  rtc (creation_step l) (replicate (S k) Arrived, C - 1) (replicate (S k) Created, C + Z.of_nat k).
Proof.
  intros Hl Hg l C. split_and!.
  - induction k as [|k IH]; [unfold Nat.iter; cbn [nat_rect]; lia|]. rewrite Nat.iter_succ, IH.
    unfold create_alone, l. rewrite admits_int by done. fold C.
    destruct (Z.ltb_spec (Z.min (n0 + Z.of_nat k) (Z.max n0 C)) C); lia.
  - intros s Hs. eapply creations_inv_bound; try done. pose proof (arrived_inv limit grace type n0 (S k)) as Hi.
    revert Hs Hi. generalize (replicate (S k) Arrived, n0) as s0. intros s0 Hs.
    induction Hs as [|s1 s2 s3 H12 _ IH]; [done|]. intros Hi. apply IH. by eapply creation_step_inv.
  - etrans; [|etrans].
    + by apply (creations_advance limit grace type source Arrived (Counted (C - 1)) (S k) (C - 1)) with (cs := []).
    + apply (creations_advance limit grace type source _ Let_in (S k) (C - 1)) with (cs := []). cbn. unfold l.
      rewrite admits_int by done. fold C. by replace (C - 1 <? C) with true by lia.
    + replace (C + Z.of_nat k) with (C - 1 + Z.of_nat (S k)) by lia. apply (insert_all limit grace type source (S k) []).
Qed.

(** The decision for an unlimited dimension. *)
Lemma decision_unlimited type grace usage : qd_allowed (evaluateQuotaDecision (NInt (-1)) type grace (jint usage)) = true.
Proof. done. Qed.

(** A product service asks before it takes [requested] units: when the limit
    resolves to a number it is answered, and answered exactly.  A hard limit
    admits a usage up to and including the limit, a soft one only below limit
    plus grace, with a warning above the limit; [-1] admits everything. *)
Theorem product_quota_exact `{PL : !Platform, GE : !GovEnv} t key used requested (w w' : gworld) ds d limit type grace source ov pl :
  starts_with "codewiki_" key = true -> (key <> "codewiki_max_repository_bytes" \/ used = 0) ->
  listAllDimensions (w_db w) = Ok ds -> dimension_in key ds = Some d ->
  resolveEffectiveLimit t key w = (Ok (mk_effective_limit (NInt limit) type (NInt grace) source ov pl), w') ->
  -1 <= limit <= 9007199254740991 -> 0 <= grace ->
  exists pd, decideProductQuota true t key used requested w = (Ok (Some pd), w') /\
    let p := used + requested in
    pd_projectedUsage pd = p /\ pd_source pd = source /\
    qd_allowed (pd_decision pd) = (limit =? -1) || (if is_soft type then p <? limit + grace else p <=? limit) /\
    qd_warning (pd_decision pd) = negb (limit =? -1) && is_soft type && (limit <? p) && (p <? limit + grace).
Proof.
  intros Hkey Hsnap Hds Hd Hr Hl Hg. unfold decideProductQuota. rewrite Hkey. cbn [negb].
  replace (String.eqb key "codewiki_max_repository_bytes" && negb (used =? 0)) with false
    by (destruct Hsnap as [->%String.eqb_neq| ->]; [done | by rewrite andb_false_r]).
  unfold mbind, M_bind at 1. cbn [query_db]. rewrite Hds, Hd. unfold try_catch, M_bind. rewrite Hr. cbn [el_limit el_type].
  replace (negb (is_safe_integer (NInt limit)) || num_ltb (NInt limit) (NInt (-1))) with false
    by (symmetry; apply orb_false_iff; split; [apply negb_false_iff | cbn; apply negb_false_iff]; cbn; lia).
  eexists. split; [done|]. cbn [pd_projectedUsage pd_source pd_decision el_source]. split; [done|]. split; [done|].
  unfold decide_with. cbn [el_limit el_type el_grace]. rewrite isUnlimited_int.
  destruct (Z.eqb_spec limit (-1)) as [->|Hn]; [by rewrite andb_false_r|].
  destruct (decision_int limit type grace (used + requested - 1) Hn Hg) as (A1 & W1 & C1).
  destruct (decision_int limit type grace (used + requested) Hn Hg) as (A2 & W2 & _).
  rewrite C1. cbn [num_leb num_ltb]. fold (is_soft type). unfold ceiling in *. cbn [negb andb orb].
  destruct (is_soft type); cbn [andb]; [|rewrite A1, W1; split; [lia|done]].
  destruct (Z.leb_spec (used + requested) limit), (Z.leb_spec (limit + grace) (used + requested)); cbn [negb orb];
    rewrite ?A1, ?W1, ?A2, ?W2; split; lia.
Qed.

(** ** Witnesses *)

#[local] Existing Instance sample_gov_platform.
#[local] Existing Instance sample_gov_env.

Lemma sample_one_current : one_current sample_gov_db.
Proof. by intros a a' ->%list_elem_of_singleton ->%list_elem_of_singleton. Qed.

Lemma sample_plans_json : plans_json sample_gov_db.
Proof.
  intros p k v ->%list_elem_of_singleton. cbn. destruct (String.eqb _ _); [|done]. by intros [= <-].
Qed.

Lemma effective_limit_precedence_witness :
  governs 1700000000000 "t1" sample_dimension sample_gov_db
    (mk_effective_limit (NInt 5) "soft" (NInt 2) "plan" None (Some ("starter", "active"))).
Proof.
  refine (proj1 (effective_limit_precedence "t1" "max_workspaces" sample_gov_world [sample_dimension] sample_dimension _ _ _ _ _ _) _).
  - exact sample_overrides_wf.
  - exact sample_one_current.
  - exact sample_plans_json.
  - by vm_compute.
  - by vm_compute.
  - by vm_compute.
Defined.

Definition sample_input : override_input := mk_override_input (JStr "t1") "max_workspaces" 20 "hard" 0 "asked for" (Some 1800000000000) "ada".

Lemma created_override_governs_witness : exists r w',
  createOverride sample_input sample_gov_world = (Ok (r, None), w') /\
  active_override 1700000000009 "t1" "max_workspaces" (w_db w') = Some r.
Proof.
  destruct (createOverride sample_input sample_gov_world) as [[[r [old|]]|e] w'] eqn:E; [by vm_compute in E| |by vm_compute in E].
  exists r, w'. split; [done|].
  destruct (created_override_governs sample_input sample_gov_world r None w' sample_overrides_wf E) as ((_ & [= Ht] & Hd & _ & _ & _ & He) & H & _).
  specialize (H 1700000000009). rewrite <- Ht, Hd in H. apply H. unfold override_unexpired. by rewrite He.
Defined.

Lemma workspace_quota_bound_witness :
  let l := int_limit 3 "hard" 0 "default" in
  Nat.iter 5 (create_alone l) 2 = 3 /\
  rtc (creation_step l) (replicate 4 Arrived, 2) (replicate 4 Created, 6).
Proof.
  destruct (workspace_quota_bound 3 "hard" 0 "default" 2 5 ltac:(lia) ltac:(lia)) as (H & _ & _).
  destruct (workspace_quota_bound 3 "hard" 0 "default" 2 3 ltac:(lia) ltac:(lia)) as (_ & _ & H').
  split; [exact H | exact H'].
Defined.

Definition product_world : gworld :=
  mk_world (mk_gov_db [mk_dimension "codewiki_max_pages" "Pages" "count" 100 None] [] [] [] [] [] [] []) 0 0 0 [].

Lemma product_quota_exact_witness : exists pd w',
  decideProductQuota true "t1" "codewiki_max_pages" 99 1 product_world = (Ok (Some pd), w') /\ qd_allowed (pd_decision pd) = true.
Proof.
  edestruct (product_quota_exact "t1" "codewiki_max_pages" 99 1 product_world
    (snd (resolveEffectiveLimit "t1" "codewiki_max_pages" product_world))) as (pd & E & _ & _ & A & _);
    [done|by left|by vm_compute|by vm_compute|by vm_compute|lia|lia|].
  exists pd, (snd (resolveEffectiveLimit "t1" "codewiki_max_pages" product_world)). split; [exact E|]. rewrite A. by vm_compute.
Defined.
