(* ===== verification/Plans.v ===== *)
(** * The plan catalogue

    [plan.mjs], [plan-assignment.mjs] and [boolean-capability.mjs] of
    src/packages/provisioning-orchestrator/src/models, and the repositories of
    plans, their limits and capabilities, and of assignments, over the tables of
    migrations 097, 100 and 104. *)
From S2P Require Import Prelude JsValue Json Regex Platform IsoDate AuditChain PlanImpact Governance Quota QuotaLimits.
From stdpp Require Import sorting.
From Stdlib Require Import Ascii.
Local Open Scope Z_scope.

(** ** [plan.mjs] *)

Definition SLUG_PATTERN : re :=
  rbetween 1 64 (RCls (fun c => is_lower c || is_digit c || Ascii.eqb c "-")).

Definition PLAN_STATUSES : list string := ["draft"; "active"; "deprecated"; "archived"].

Definition PLAN_TRANSITIONS (s : string) : list string :=
  if String.eqb s "draft" then ["active"] else if String.eqb s "active" then ["deprecated"]
  else if String.eqb s "deprecated" then ["archived"] else [].

Definition plan_canTransition (current target : string) : bool := str_in target (PLAN_TRANSITIONS current).

Definition normalizeSlug (slug : jsval) : jsval :=
  match slug with JStr s => JStr (to_lower_case (trim s)) | _ => slug end.

Definition invalid (message : string) : js_error := coded "VALIDATION_ERROR" message.

(** An object whose entries satisfy [ok]. *)
Definition validate_map (ok : jsval -> bool) (field : string) (v : jsval) : result js_error (list (string * jsval)) :=
  match v with
  | JObj kvs => if forallb (fun kv => ok kv.2) kvs then Ok kvs else Err (invalid (field +:+ " entry"))
  | _ => Err (invalid (field +:+ " must be an object"))
  end.

Definition is_bool (v : jsval) : bool := match v with JBool _ => true | _ => false end.
Definition is_finite_num (v : jsval) : bool := match v with JNum n => num_is_finite n | _ => false end.
Definition validateBooleanMap := validate_map is_bool.
Definition validateNumberMap := validate_map is_finite_num.

Section plans.
Context `{!Platform, !GovEnv}.

(** What the constructor is given, a default filled in for what is missing. *)
Record plan_input := mk_plan_input {
  pi_slug : jsval;
  pi_display_name : jsval;
  pi_description : jsval;
  pi_status : string;
  pi_capabilities : jsval;
  pi_quota_dimensions : jsval;
  pi_created_by : string;
  pi_updated_by : string
}.

(** A plan that passed [validate], as the statements send it. *)
Record plan_model := mk_plan_model {
  pm_slug : string;
  pm_display_name : string;
  pm_description : option string;
  pm_status : string;
  pm_capabilities : list (string * jsval);
  pm_quota_dimensions : list (string * jsval);
  pm_created_by : string;
  pm_updated_by : string
}.

(** The constructor of [Plan]. *)
Definition Plan (p : plan_input) : result js_error plan_model :=
  let slug := normalizeSlug (pi_slug p) in
  if negb (truthy slug) || negb (re_test_full SLUG_PATTERN (js_to_string slug)) then Err (coded "INVALID_SLUG" "Invalid slug")
  else match pi_display_name p with
       | JStr name =>
           if negb (nonempty name) then Err (invalid "displayName is required")
           else if negb (str_in (pi_status p) PLAN_STATUSES) then Err (invalid "Invalid status")
           else
             caps ← validateBooleanMap "capabilities" (coalesce (pi_capabilities p) (JObj []));
             dims ← validateNumberMap "quotaDimensions" (coalesce (pi_quota_dimensions p) (JObj []));
             Ok (mk_plan_model (default "" (pg_text slug)) name (pg_text (pi_description p)) (pi_status p) caps dims
                   (pi_created_by p) (pi_updated_by p))
       | _ => Err (invalid "displayName is required")
       end.

(** ** [plan-repository.mjs] *)

(** The document a JSONB column gives back, as an object. *)
Definition jsonb_object (v : jsval) : result js_error (list (string * jsval)) :=
  c ← json_copy v;
  s ← stored_json c;
  match (s : jsval) with JObj kvs => Ok kvs | _ => Err (coded "22P02" "unsupported JSON") end.

(** [mapPlan] *)
Definition plan_fields (p : plan_row) : list (string * jsval) :=
  [("id", JStr (pl_id p)); ("slug", JStr (pl_slug p)); ("displayName", JStr (pl_display_name p));
   ("description", jstr_opt (pl_description p)); ("status", JStr (pl_status p)); ("capabilities", JObj (pl_capabilities p));
   ("quotaDimensions", JObj (pl_quota_dimensions p)); ("createdAt", jdate (pl_created_at p)); ("updatedAt", jdate (pl_updated_at p));
   ("createdBy", JStr (pl_created_by p)); ("updatedBy", JStr (pl_updated_by p))].

Definition find_plan (id : string) (db : gov_db) : option plan_row := List.find (fun p => String.eqb (pl_id p) id) (g_plans db).
Definition findById_plan (id : string) : gact (option plan_row) := query_db (find_plan id).

Definition findBySlug (slug : jsval) : gact (option plan_row) :=
  query_db (fun db => List.find (fun p => bool_decide (Some (to_lower_case (pl_slug p)) = pg_text (normalizeSlug slug))) (g_plans db)).

(** The widths and constraints of the columns. *)
Definition plan_checks (p : plan_row) : result js_error unit :=
  throw_if (negb (within 64 (Some (pl_slug p)) && within 255 (Some (pl_display_name p)) && within 255 (Some (pl_created_by p))
                  && within 255 (Some (pl_updated_by p)))) too_long;;
  throw_if (negb (str_in (pl_status p) PLAN_STATUSES)) (check_violation "plans_status_check").

Definition insert_plan (p : plan_row) (db : gov_db) : result js_error (plan_row * gov_db) :=
  plan_checks p;;
  throw_if (existsb (fun q => String.eqb (pl_id q) (pl_id p)) (g_plans db)) (unique_violation "plans_pkey");;
  throw_if (existsb (fun q => String.eqb (to_lower_case (pl_slug q)) (to_lower_case (pl_slug p))) (g_plans db)) (unique_violation "uq_plans_slug_lower");;
  Ok (p, set_plans (g_plans db ++ [p]) db).

(** The trigger [enforce_plan_status_forward_transition]. *)
Definition forward_trigger (old new : string) : bool :=
  String.eqb old new || (String.eqb old "draft" && String.eqb new "active") || (String.eqb old "active" && String.eqb new "deprecated")
  || (String.eqb old "deprecated" && String.eqb new "archived").

(** [UPDATE plans ... WHERE id = $1 RETURNING *], with both triggers. *)
Definition update_plan (now : Z) (id : string) (f : plan_row -> plan_row) (db : gov_db) : result js_error (option plan_row * gov_db) :=
  match find_plan id db with
  | None => Ok (None, db)
  | Some p =>
      let q := f p in
      let q := mk_plan_row (pl_id q) (pl_slug q) (pl_display_name q) (pl_description q) (pl_status q) (pl_capabilities q)
                 (pl_quota_dimensions q) (pl_quota_type_config q) (pl_created_at q) now (pl_created_by q) (pl_updated_by q) in
      throw_if (negb (forward_trigger (pl_status p) (pl_status q))) (check_violation "Invalid plan status transition");;
      plan_checks q;;
      Ok (Some q, set_plans ((fun r => if String.eqb (pl_id r) id then q else r) <$> g_plans db) db)
  end.

Definition plan_not_found : js_error := coded "PLAN_NOT_FOUND" "Plan not found".

(** A row that [RETURNING] gave. *)
Definition returned {A} (o : option A) : gact A := match o with Some a => mret a | None => throw (plain_error "TypeError") end.

(** A violation of [uq_plans_slug_lower] is a conflict. *)
Definition normalizePgError (e : js_error) : js_error :=
  if String.eqb (err_message e) "uq_plans_slug_lower" then coded "PLAN_SLUG_CONFLICT" "Plan slug conflict" else e.

Definition create_plan (p : plan_model) : gact plan_row :=
  try_catch (
    id ← random_uuid;
    now ← gov_now;
    caps ← lift (jsonb_object (JObj (pm_capabilities p)));
    dims ← lift (jsonb_object (JObj (pm_quota_dimensions p)));
    exec_db_err (insert_plan (mk_plan_row id (pm_slug p) (pm_display_name p) (pm_description p) (pm_status p) caps dims [] now now
                                (pm_created_by p) (pm_updated_by p))))
    (fun e => throw (normalizePgError e)).

(** The members of a request that change a plan. *)
Record plan_updates := mk_plan_updates {
  pu_display_name : jsval;
  pu_description : jsval;
  pu_capabilities : jsval;
  pu_quota_dimensions : jsval;
  pu_updated_by : string
}.

Definition with_details (m : plan_model) (caps dims : list (string * jsval)) (p : plan_row) : plan_row :=
  mk_plan_row (pl_id p) (pl_slug p) (pm_display_name m) (pm_description m) (pl_status p) caps dims (pl_quota_type_config p)
    (pl_created_at p) (pl_updated_at p) (pl_created_by p) (pm_updated_by m).
Definition with_plan_status (s : string) (p : plan_row) : plan_row :=
  mk_plan_row (pl_id p) (pl_slug p) (pl_display_name p) (pl_description p) s (pl_capabilities p) (pl_quota_dimensions p)
    (pl_quota_type_config p) (pl_created_at p) (pl_updated_at p) (pl_created_by p) (pl_updated_by p).
Definition with_limits (dims cfg : list (string * jsval)) (p : plan_row) : plan_row :=
  mk_plan_row (pl_id p) (pl_slug p) (pl_display_name p) (pl_description p) (pl_status p) (pl_capabilities p) dims cfg
    (pl_created_at p) (pl_updated_at p) (pl_created_by p) (pl_updated_by p).
Definition with_capabilities (caps : list (string * jsval)) (by_ : string) (p : plan_row) : plan_row :=
  mk_plan_row (pl_id p) (pl_slug p) (pl_display_name p) (pl_description p) (pl_status p) caps (pl_quota_dimensions p)
    (pl_quota_type_config p) (pl_created_at p) (pl_updated_at p) (pl_created_by p) by_.

(** The previous row and the current one. *)
Definition update_plan_details (id : string) (u : plan_updates) : gact (plan_row * plan_row) :=
  found ← findById_plan id;
  match found with
  | None => throw plan_not_found
  | Some existing =>
      if String.eqb (pl_status existing) "archived" then throw (coded "PLAN_ARCHIVED" "Archived plans cannot be updated")
      else
        m ← lift (Plan (mk_plan_input (JStr (pl_slug existing)) (coalesce (pu_display_name u) (JStr (pl_display_name existing)))
                   (coalesce (pu_description u) (jstr_opt (pl_description existing))) (pl_status existing)
                   (coalesce (pu_capabilities u) (JObj (pl_capabilities existing)))
                   (coalesce (pu_quota_dimensions u) (JObj (pl_quota_dimensions existing))) (pl_created_by existing) (pu_updated_by u)));
        now ← gov_now;
        caps ← lift (jsonb_object (JObj (pm_capabilities m)));
        dims ← lift (jsonb_object (JObj (pm_quota_dimensions m)));
        updated ← exec_db_err (update_plan now id (with_details m caps dims));
        current ← returned updated;
        mret (existing, current)
  end.

(** The tenants a plan is assigned to now. *)
Definition is_current (a : assignment_row) : bool := bool_decide (as_superseded_at a = None).
Definition current_tenants (id : string) (db : gov_db) : list string :=
  merge_sort String.le (as_tenant_id <$> List.filter (fun a => String.eqb (as_plan_id a) id && is_current a) (g_assignments db)).

Definition invalid_transition : js_error := coded "INVALID_TRANSITION" "Invalid transition".
Definition has_active_assignments : js_error := coded "PLAN_HAS_ACTIVE_ASSIGNMENTS" "Plan has active assignments".

(** [archived] is refused while a tenant is on the plan. *)
Definition refuse_assigned (id target : string) : gact unit :=
  if String.eqb target "archived"
  then ts ← query_db (current_tenants id); match ts with [] => mret tt | _ => throw has_active_assignments end
  else mret tt.

Definition transitionStatus (id target : string) : gact (plan_row * plan_row) :=
  found ← findById_plan id;
  match found with
  | None => throw plan_not_found
  | Some existing =>
      if negb (plan_canTransition (pl_status existing) target) then throw invalid_transition
      else
        _ ← refuse_assigned id target;
        now ← gov_now;
        updated ← exec_db_err (update_plan now id (with_plan_status target));
        current ← returned updated;
        mret (existing, current)
  end.

Definition assigned_ever (id : string) (db : gov_db) : bool := existsb (fun a => String.eqb (as_plan_id a) id) (g_assignments db).
Definition has_history : js_error := coded "PLAN_HAS_ASSIGNMENT_HISTORY" "Plan has assignment history".

(** [plan_id = NULL] in the audit events of a plan. *)
Definition without_plan (r : audit_row) : audit_row :=
  mk_audit_row (ae_id r) (ae_action_type r) (ae_actor_id r) (ae_tenant_id r) None (ae_previous_state r) (ae_new_state r)
    (ae_outcome r) (ae_correlation_id r) (ae_created_at r) (ae_prev_hash r) (ae_row_hash r).
Definition detach (id : string) (r : audit_row) : audit_row := if bool_decide (ae_plan_id r = Some id) then without_plan r else r.

(** The statement that detaches the audit events and deletes. *)
Definition delete_statement (id : string) (db : gov_db) : list plan_row * gov_db :=
  if assigned_ever id db then ([], db)
  else (List.filter (fun p => String.eqb (pl_id p) id) (g_plans db),
        set_audit (detach id <$> g_audit db) (set_plans (List.filter (fun p => negb (String.eqb (pl_id p) id)) (g_plans db)) db)).

Definition deleteNeverAssigned (id : string) : gact plan_row :=
  found ← findById_plan id;
  match found with
  | None => throw plan_not_found
  | Some existing =>
      if String.eqb (pl_status existing) "active" then throw (coded "PLAN_ACTIVE" "Active plans must be retired before deletion")
      else
        ever ← query_db (assigned_ever id);
        if (ever : bool) then throw has_history
        else
          rows ← exec_db (delete_statement id);
          match rows with
          | p :: _ => mret p
          | [] =>
              again ← findById_plan id;
              match again with None => throw plan_not_found | Some _ => throw has_history end
          end
  end.

(** ** [plan-limits-repository.mjs] *)

Definition limits_frozen (p : plan_row) : bool := str_in (pl_status p) ["deprecated"; "archived"].
Definition frozen : js_error := coded "PLAN_LIMITS_FROZEN" "Plan limits are frozen".

Definition limit_or_null (o : option jsval) : jsval := default JNull o.

Record limit_change := mk_limit_change {
  lc_previous : jsval;
  lc_new : jsval;
  lc_plan_status : string;
  lc_plan_slug : string
}.

Definition setLimit (planId key : string) (value : Z) (quotaType : string) (graceMargin : Z) (actorId : string) (correlationId : jsval)
    : gact limit_change :=
  in_transaction (
    found ← findById_plan planId;
    match found with
    | None => throw plan_not_found
    | Some plan =>
        if limits_frozen plan then throw frozen
        else
          let previousValue := limit_or_null (assoc_lookup key (pl_quota_dimensions plan)) in
          let previousType := limit_or_null (assoc_lookup key (pl_quota_type_config plan)) in
          let nextTypeConfig := assoc_set key (JObj [("type", JStr quotaType); ("graceMargin", jint graceMargin)]) (pl_quota_type_config plan) in
          now ← gov_now;
          v ← lift (bigint_param (jint value));
          cfg ← lift (jsonb_object (JObj nextTypeConfig));
          updated ← exec_db_err (update_plan now planId (fun p => with_limits (assoc_set key (jint v) (pl_quota_dimensions p)) cfg p));
          current ← returned updated;
          _ ← appendPlanAudit (plan_audit "plan.limit.set" actorId None (Some planId)
                (Some (JObj [("dimensionKey", JStr key); ("previousValue", previousValue); ("previousType", previousType)]))
                [("dimensionKey", JStr key); ("newValue", jint value); ("quotaType", JStr quotaType); ("graceMargin", jint graceMargin)]
                (pg_text correlationId)) true;
          mret (mk_limit_change previousValue (jint value) (pl_status current) (pl_slug current))
    end).

(** [getDefaultValue] *)
Definition getDefaultValue (key : string) : gact jsval :=
  found ← query_db (fun db => dimension_in key (g_catalog db));
  match found with
  | Some d => d' ← lift (mapDimension d); mret (jint (qd_default d'))
  | None => mret JNull
  end.

Definition without {A} (key : string) (kvs : list (string * A)) : list (string * A) :=
  List.filter (fun kv => negb (String.eqb kv.1 key)) kvs.

Definition removeLimit (planId key actorId : string) (correlationId : jsval) : gact limit_change :=
  in_transaction (
    found ← findById_plan planId;
    match found with
    | None => throw plan_not_found
    | Some plan =>
        if limits_frozen plan then throw frozen
        else match assoc_lookup key (pl_quota_dimensions plan) with
             | None => throw (coded "LIMIT_NOT_SET" "Limit not set")
             | Some previousValue =>
                 effectiveValue ← getDefaultValue key;
                 now ← gov_now;
                 cfg ← lift (jsonb_object (JObj (without key (pl_quota_type_config plan))));
                 updated ← exec_db_err (update_plan now planId (fun p => with_limits (without key (pl_quota_dimensions p)) cfg p));
                 current ← returned updated;
                 _ ← appendPlanAudit (plan_audit "plan.limit.removed" actorId None (Some planId)
                       (Some (JObj [("dimensionKey", JStr key); ("previousValue", previousValue)]))
                       [("dimensionKey", JStr key); ("effectiveValue", effectiveValue)] (pg_text correlationId)) true;
                 mret (mk_limit_change previousValue effectiveValue (pl_status current) (pl_slug current))
             end
    end).

End plans.
