(* ===== verification/Assignments.v ===== *)
(** * Capabilities of plans and assignments to tenants

    [boolean-capability-catalog-repository.mjs], [plan-capability-repository.mjs],
    [plan-assignment-repository.mjs], [plan-change-history-repository.mjs],
    [tenant-usage-snapshot-repository.mjs] and [resolveEffectiveEntitlements] of
    src/packages/provisioning-orchestrator/src/repositories.  The lists of
    capabilities are left in catalogue order: what is made of them is sorted. *)
From S2P Require Import Prelude JsValue Json Regex Platform IsoDate AuditChain PlanImpact Governance Quota QuotaLimits Plans.
From stdpp Require Import sorting.
From Stdlib Require Import Ascii.
Local Open Scope Z_scope.

(** ** The catalogue of capabilities *)

Definition CAPABILITY_KEY_PATTERN : re :=
  RSeq (RCls is_lower) (rupto 63 (RCls (fun c => is_lower c || is_digit c || Ascii.eqb c "_"))).

(** The constructor of [BooleanCapability] on a row. *)
Definition mapCapability (c : capability_row) : result js_error capability_row :=
  if negb (re_test_full CAPABILITY_KEY_PATTERN (bc_key c)) then Err (coded "INVALID_CAPABILITY_KEY" "Invalid capability key")
  else if negb (nonempty (bc_label c)) then Err (invalid "displayLabel is required")
  else if negb (nonempty (bc_description c)) then Err (invalid "description is required")
  else Ok c.

(** [ORDER BY sort_order ASC, capability_key ASC] *)
Definition capability_le (a b : capability_row) : Prop :=
  bc_sort a < bc_sort b \/ bc_sort a = bc_sort b /\ String.leb (bc_key a) (bc_key b) = true.
#[export] Instance capability_le_dec : RelDecision capability_le.
Proof. intros a b. unfold capability_le. apply _. Defined.

Definition active_capabilities (db : gov_db) : list capability_row :=
  merge_sort capability_le (List.filter bc_active (g_capabilities db)).
Definition listActiveCatalog (db : gov_db) : result js_error (list capability_row) := mapM mapCapability (active_capabilities db).

Section assignments.
Context `{!Platform, !GovEnv}.

Definition active_catalog : gact (list capability_row) := c ← query_db listActiveCatalog; lift c.

(** Empty keys are not looked up. *)
Definition validateCapabilityKeys (keys : list string) : gact unit :=
  match List.filter nonempty keys with
  | [] => mret tt
  | requested =>
      catalog ← active_catalog;
      if forallb (fun k => str_in k (bc_key <$> catalog)) requested then mret tt
      else throw (coded "INVALID_CAPABILITY_KEY" "Invalid capability key")
  end.

(** ** [plan-capability-repository.mjs] *)

Record capability_change := mk_capability_change {
  cc_key : string;
  cc_previous : jsval;
  cc_new : jsval
}.

(** [Boolean(o[key])] when [o] has [key]. *)
Definition bool_at (key : string) (kvs : list (string * jsval)) : jsval :=
  match assoc_lookup key kvs with Some v => JBool (truthy v) | None => JNull end.

(** What [toSet] changes, and the keys it leaves as they are. *)
Definition changed_capabilities (current toSet : list (string * jsval)) : list capability_change :=
  omap (fun kv => if jsval_eqb (bool_at kv.1 current) kv.2 then None
                  else Some (mk_capability_change kv.1 (bool_at kv.1 current) (JBool (truthy kv.2)))) toSet.
Definition unchanged_capabilities (current toSet : list (string * jsval)) : list string :=
  omap (fun kv => if jsval_eqb (bool_at kv.1 current) kv.2 then Some kv.1 else None) toSet.

Definition buildEffectiveCapabilities (caps : list (string * jsval)) (catalog : list capability_row) : list (string * jsval) :=
  List.map (fun c => (bc_key c, match assoc_lookup (bc_key c) caps with Some v => JBool (truthy v) | None => JBool (bc_default c) end)) catalog.

Definition set_all (caps : list (string * jsval)) (cs : list capability_change) : list (string * jsval) :=
  List.fold_left (fun kvs c => assoc_set (cc_key c) (cc_new c) kvs) cs caps.

Definition capability_action (c : capability_change) : string :=
  if truthy (cc_new c) then "plan.capability.enabled" else "plan.capability.disabled".

Definition append_capability_changes (actor planId : string) (correlationId : jsval) (inTransaction : bool) (cs : list capability_change) : gact unit :=
  for_each (fun c =>
    _ ← appendPlanAudit (plan_audit (capability_action c) actor None (Some planId)
          (Some (JObj [("capabilityKey", JStr (cc_key c)); ("previousState", cc_previous c)]))
          [("capabilityKey", JStr (cc_key c)); ("newState", cc_new c)] (pg_text correlationId)) inTransaction;
    mret tt) cs.

Record capability_result := mk_capability_result {
  cr_slug : string;
  cr_changed : list capability_change;
  cr_unchanged : list string;
  cr_effective : list (string * jsval)
}.

Definition setCapabilities (planId : string) (toSet : list (string * jsval)) (actor : string) (correlationId : jsval) : gact capability_result :=
  in_transaction (
    found ← findById_plan planId;
    match found with
    | None => throw plan_not_found
    | Some plan =>
        if String.eqb (pl_status plan) "archived" then throw (coded "PLAN_ARCHIVED" "Plan archived")
        else
          _ ← validateCapabilityKeys (toSet.*1);
          let changed := changed_capabilities (pl_capabilities plan) toSet in
          let unchanged := unchanged_capabilities (pl_capabilities plan) toSet in
          catalog ← active_catalog;
          match changed with
          | [] => mret (mk_capability_result (pl_slug plan) [] unchanged (buildEffectiveCapabilities (pl_capabilities plan) catalog))
          | _ =>
              now ← gov_now;
              caps ← lift (jsonb_object (JObj (set_all (pl_capabilities plan) changed)));
              updated ← exec_db_err (update_plan now planId (with_capabilities caps actor));
              current ← returned updated;
              _ ← append_capability_changes actor planId correlationId true changed;
              mret (mk_capability_result (pl_slug current) changed unchanged (buildEffectiveCapabilities (pl_capabilities current) catalog))
          end
    end).

(** ** [plan-assignment-repository.mjs] *)

Record assignment_input := mk_assignment_input {
  ai_tenant_id : string;
  ai_plan_id : string;
  ai_assigned_by : string;
  ai_metadata : jsval
}.

(** The constructor of [PlanAssignment]: the metadata are an object. *)
Definition PlanAssignment (p : assignment_input) : result js_error (list (string * jsval)) :=
  if negb (nonempty (ai_tenant_id p)) then Err (invalid "tenantId is required")
  else if negb (nonempty (ai_plan_id p)) then Err (invalid "planId is required")
  else if negb (nonempty (ai_assigned_by p)) then Err (invalid "assignedBy is required")
  else match ai_metadata p with
       | JObj kvs => Ok kvs
       | JUndef | JNull => Ok []
       | _ => Err (invalid "assignmentMetadata must be an object")
       end.

Definition current_assignment (t : string) (db : gov_db) : option assignment_row :=
  List.find (fun a => String.eqb (as_tenant_id a) t && is_current a) (g_assignments db).

Definition superseded (at_ : Z) (a : assignment_row) : assignment_row :=
  mk_assignment_row (as_id a) (as_tenant_id a) (as_plan_id a) (as_effective_from a) (Some at_) (as_assigned_by a) (as_metadata a).

Definition supersede_assignment (id : string) (at_ : Z) (db : gov_db) : gov_db :=
  set_assignments ((fun a => if String.eqb (as_id a) id then superseded at_ a else a) <$> g_assignments db) db.

Definition insert_assignment (a : assignment_row) (db : gov_db) : result js_error (assignment_row * gov_db) :=
  throw_if (negb (within 255 (Some (as_tenant_id a)) && within 255 (Some (as_assigned_by a)))) too_long;;
  throw_if (existsb (fun x => String.eqb (as_id x) (as_id a)) (g_assignments db)) (unique_violation "tenant_plan_assignments_pkey");;
  throw_if (is_current a && existsb (fun x => String.eqb (as_tenant_id x) (as_tenant_id a) && is_current x) (g_assignments db))
    (unique_violation "uq_tenant_plan_assignments_current");;
  throw_if (negb (existsb (fun p => String.eqb (pl_id p) (as_plan_id a)) (g_plans db))) (foreign_key_violation "plan_id");;
  Ok (a, set_assignments (g_assignments db ++ [a]) db).

(** The new row, and the plan it replaces. *)
Definition supersedeAndInsertAssignment (p : assignment_input) (metadata : list (string * jsval)) : gact (assignment_row * option string) :=
  current ← query_db (current_assignment (ai_tenant_id p));
  now ← gov_now;
  _ ← (match current with Some c => exec_db (fun db => (tt, supersede_assignment (as_id c) now db)) | None => mret tt end);
  id ← random_uuid;
  stored ← lift (jsonb_object (JObj metadata));
  row ← exec_db_err (insert_assignment (mk_assignment_row id (ai_tenant_id p) (ai_plan_id p) now None (ai_assigned_by p) stored));
  mret (row, option_map as_plan_id current).

(** What the change history records besides the assignment. *)
Record history_context := mk_history_context {
  hc_previous_plan_id : option string;
  hc_actor_id : string;
  hc_correlation_id : jsval;
  hc_change_reason : jsval;
  hc_change_direction : string;
  hc_usage_status : string;
  hc_over_limit : nat;
  hc_quota_impacts : list quota_impact;
  hc_capability_impacts : list capability_impact
}.

Definition CHANGE_DIRECTIONS : list string := ["upgrade"; "downgrade"; "lateral"; "equivalent"; "initial_assignment"].
Definition USAGE_COLLECTION_STATUSES : list string := ["complete"; "partial"; "unavailable"].

(** The constructor of [PlanChangeHistoryEntry]. *)
Definition history_model (id : string) (a : assignment_row) (previous : option string) (metadata : list (string * jsval)) (h : history_context)
    : result js_error history_row :=
  if negb (nonempty (as_id a) && nonempty (as_tenant_id a) && nonempty (as_plan_id a) && nonempty (hc_actor_id h)) then Err (plain_error "is required")
  else if negb (str_in (hc_change_direction h) CHANGE_DIRECTIONS) then Err (plain_error "Unsupported changeDirection")
  else if negb (str_in (hc_usage_status h) USAGE_COLLECTION_STATUSES) then Err (plain_error "Unsupported usageCollectionStatus")
  else Ok (mk_history_row id (as_id a) (as_tenant_id a) (match hc_previous_plan_id h with Some p => Some p | None => previous end) (as_plan_id a)
             (hc_actor_id h) (as_effective_from a) (pg_text (hc_correlation_id h)) (pg_text (hc_change_reason h)) (hc_change_direction h)
             (hc_usage_status h) (hc_over_limit h) metadata (hc_quota_impacts h) (hc_capability_impacts h)).

(** [ON CONFLICT (plan_assignment_id) DO UPDATE] changes nothing. *)
Definition insert_history (r : history_row) (db : gov_db) : history_row * gov_db :=
  match List.find (fun x => String.eqb (hr_assignment_id x) (hr_assignment_id r)) (g_history db) with
  | Some x => (x, db)
  | None => (r, set_history (g_history db ++ [r]) db)
  end.

Definition insertWithHistory (p : assignment_input) (h : history_context) : gact (assignment_row * option string * history_row) :=
  metadata ← lift (PlanAssignment p);
  in_transaction (
    res ← supersedeAndInsertAssignment p metadata;
    let '(a, previous) := (res : assignment_row * option string) in
    id ← random_uuid;
    stored ← lift (jsonb_object (JObj metadata));
    entry ← lift (history_model id a previous stored h);
    row ← exec_db (insert_history entry);
    mret (a, previous, row)).

(** The current assignment with its plan. *)
Definition getCurrent (t : string) : gact (option (assignment_row * plan_row)) :=
  query_db (fun db => head (omap (fun a => if String.eqb (as_tenant_id a) t && is_current a
                                           then option_map (fun p => (a, p)) (find_plan (as_plan_id a) db) else None) (g_assignments db))).

(** ** [resolveEffectiveEntitlements] *)

(** The value of a dimension; the driver gives a BIGINT as its text. *)
Definition entitled_value (overrides dims : list (string * jsval)) (d : dimension) : effective_value :=
  normalizeEffectiveValue (match assoc_lookup (qd_key d) overrides with
                           | Some v => v
                           | None => default (JStr (show_Z (qd_default d))) (assoc_lookup (qd_key d) dims)
                           end).

(** [toCapabilityList], or [toLegacyCapabilityList] when no capability is active. *)
Definition capability_list (caps : list (string * jsval)) (catalog : list capability_row) : list cap_entry :=
  match catalog with
  | [] => List.map (fun kv => mk_cap_entry kv.1 kv.1 (truthy kv.2)) caps
  | _ => List.map (fun c => mk_cap_entry (bc_key c) (bc_label c)
                              (match assoc_lookup (bc_key c) caps with Some v => truthy v | None => bc_default c end)) catalog
  end.

Record entitlements := mk_entitlements { en_dimensions : list dim_entry; en_capabilities : list cap_entry }.

Definition resolveEffectiveEntitlements (t planId : string) : gact entitlements :=
  catalog ← query_db (fun db => merge_sort dimension_le (g_catalog db));
  found ← findById_plan planId;
  caps ← query_db active_capabilities;
  match found with
  | None => throw plan_not_found
  | Some plan =>
      let '(quota, capability) := default ([], []) (plan_adjustments t) in
      mret (mk_entitlements
        (List.map (fun d => mk_dim_entry (qd_key d) (qd_label d) (qd_unit d) (entitled_value quota (pl_quota_dimensions plan) d)) catalog)
        (capability_list (List.fold_left (fun kvs kv => assoc_set kv.1 kv.2 kvs) capability (pl_capabilities plan)) caps))
  end.

(** ** [collectObservedUsage], without collectors of the caller's own *)

Definition usage_source (key : string) : option string :=
  if String.eqb key "max_workspaces" then Some "workspaces" else if String.eqb key "max_api_keys" then Some "api_keys" else None.

Definition collect_one (t key : string) : gact usage_entry :=
  match usage_source key with
  | None => mret (mk_usage_entry (Some key) (NotObserved "unsupported_dimension"))
  | Some table =>
      match usage_rows table t with
      | Probe_timed_out => mret (mk_usage_entry None (NotObserved "timeout"))
      | Probe_failed => mret (mk_usage_entry (Some key) (NotObserved "source_error"))
      | Counted_rows n => now ← gov_now; mret (mk_usage_entry (Some key) (Observed (NInt n) now ("postgres:" +:+ table)))
      end
  end.

Definition collectObservedUsage (t : string) : list string -> gact (list usage_entry) :=
  fix go keys := match keys with
                 | [] => mret []
                 | k :: ks => u ← collect_one t k; us ← go ks; mret (u :: us)
                 end.

End assignments.
