(* ===== verification/PlanActions.v ===== *)
(** * The plan actions

    [plan-create.mjs], [-update], [-delete], [-lifecycle], [-limits-set],
    [-limits-remove], [-capability-set] and [-assign] under actions/ of
    src/packages/provisioning-orchestrator.  A member that names a row is a
    string, empty when it is missing; the other members of a request are a
    JavaScript value.  Metrics and log lines are left out. *)
From S2P Require Import Prelude JsValue Json Platform IsoDate AuditChain PlanImpact Governance Quota QuotaLimits QuotaActions Plans Assignments.
From stdpp Require Import sorting.
Local Open Scope Z_scope.

Section actions.
Context `{!Platform, !GovEnv}.

(** ** Events *)

(** A failed publication is logged and dropped. *)
Definition best_effort (m : gact unit) : gact unit := try_catch m (fun _ => mret tt).

(** [emitPlanEvent] *)
Definition emit_plan_event (type : string) (correlationId : jsval) (actor : string) (tenant : option string) (previous new : jsval) : gact unit :=
  now ← now_ms;
  if has_producer
  then best_effort (publish (mk_gov_event type (Z.of_N now)
         (JObj [("correlationId", correlationId); ("actorId", JStr actor); ("tenantId", jstr_opt tenant);
                ("previousState", previous); ("newState", new)])))
  else mret tt.

(** [emitCapabilityEvents]: the first failure ends the loop. *)
Definition emit_capability_events (planId slug actor : string) (correlationId : jsval) (labels : list capability_row) (cs : list capability_change)
    : gact unit :=
  now ← now_ms;
  if has_producer
  then best_effort (for_each (fun c => publish (mk_gov_event
         (if truthy (cc_new c) then "console.plan.capability.enabled" else "console.plan.capability.disabled") (Z.of_N now)
         (JObj [("correlationId", correlationId); ("actorId", JStr actor); ("planId", JStr planId); ("planSlug", JStr slug);
                ("payload", JObj [("capabilityKey", JStr (cc_key c));
                   ("displayLabel", JStr (from_option bc_label (cc_key c) (map_get bc_key (cc_key c) labels)));
                   ("previousState", cc_previous c); ("newState", JBool (truthy (cc_new c)))])]))) cs)
  else mret tt.

(** [emitLimitUpdated], for an active plan. *)
Definition emit_limit_updated (planId key actor : string) (correlationId : jsval) (c : limit_change) (newValue : jsval) : gact unit :=
  if String.eqb (lc_plan_status c) "active"
  then now ← now_ms;
       if has_producer
       then best_effort (publish (mk_gov_event "console.plan.limit_updated" (Z.of_N now)
              (JObj [("correlationId", correlationId); ("actorId", JStr actor); ("planId", JStr planId);
                     ("previousState", JObj [("dimensionKey", JStr key); ("previousValue", lc_previous c)]);
                     ("newState", JObj [("dimensionKey", JStr key); ("newValue", newValue)])])))
       else mret tt
  else mret tt.

(** ** The catalogue *)

Definition PLAN_CREATE_STATUS : list (string * Z) :=
  [("INVALID_SLUG", 400); ("VALIDATION_ERROR", 400); ("INVALID_CAPABILITY_KEY", 400); ("PLAN_SLUG_CONFLICT", 409); ("FORBIDDEN", 403)].

Definition plan_create_main (actor : option gov_actor) (params : jsval) : gact response :=
  answering PLAN_CREATE_STATUS (
    a ← lift (requireSuperadmin actor);
    m ← lift (Plan (mk_plan_input (js_get params "slug") (js_get params "displayName") (coalesce (js_get params "description") JNull) "draft"
               (js_get params "capabilities") (js_get params "quotaDimensions") (ga_id a) (ga_id a)));
    _ ← (match pm_capabilities m with [] => mret tt | kvs => validateCapabilityKeys (kvs.*1) end);
    created ← create_plan m;
    correlationId ← correlation_of params;
    _ ← appendPlanAudit (plan_audit "plan.created" (ga_id a) None (Some (pl_id created)) None (plan_fields created) (pg_text correlationId)) false;
    _ ← emit_plan_event "console.plan.created" correlationId (ga_id a) None JNull (JObj (plan_fields created));
    mret (mk_response 201 [] (JObj (plan_fields created)))).

Definition PLAN_UPDATE_STATUS : list (string * Z) :=
  [("FORBIDDEN", 403); ("VALIDATION_ERROR", 400); ("INVALID_CAPABILITY_KEY", 400); ("PLAN_NOT_FOUND", 404); ("PLAN_ARCHIVED", 409)].

(** [Object.keys(v)] *)
Definition object_keys (v : jsval) : list string :=
  match v with
  | JObj kvs => kvs.*1
  | JArr xs => show_Z <$> (Z.of_nat <$> seq 0 (length xs))
  | JStr s => show_Z <$> (Z.of_nat <$> seq 0 (String.length s))
  | _ => []
  end.

(** [diffCapabilities] of [plan-update.mjs]: every key of either. *)
Definition capability_diff (previous current : list (string * jsval)) : list capability_change :=
  omap (fun key => if has_own (JObj previous) key && has_own (JObj current) key && jsval_eqb (bool_at key previous) (bool_at key current) then None
                   else Some (mk_capability_change key (bool_at key previous) (bool_at key current)))
    (sorted_keys (previous.*1 ++ current.*1)).

Definition plan_update_main (actor : option gov_actor) (planId : string) (params : jsval) : gact response :=
  answering PLAN_UPDATE_STATUS (
    a ← lift (requireSuperadmin actor);
    let m key := js_get params key in
    if forallb is_undef [m "displayName"; m "description"; m "capabilities"; m "quotaDimensions"] then throw (invalid "No updates provided")
    else
      _ ← (match object_keys (m "capabilities") with
           | [] => mret tt
           | keys => if truthy (m "capabilities") then validateCapabilityKeys keys else mret tt
           end);
      res ← update_plan_details planId (mk_plan_updates (m "displayName") (m "description") (m "capabilities") (m "quotaDimensions") (ga_id a));
      let '(previous, current) := (res : plan_row * plan_row) in
      correlationId ← correlation_of params;
      _ ← appendPlanAudit (plan_audit "plan.updated" (ga_id a) None (Some planId) (Some (JObj (plan_fields previous))) (plan_fields current)
            (pg_text correlationId)) false;
      _ ← (match (if truthy (m "capabilities") then capability_diff (pl_capabilities previous) (pl_capabilities current) else []) with
           | [] => mret tt
           | cs =>
               labels ← active_catalog;
               _ ← append_capability_changes (ga_id a) planId correlationId false cs;
               emit_capability_events planId (pl_slug current) (ga_id a) correlationId labels cs
           end);
      _ ← emit_plan_event "console.plan.updated" correlationId (ga_id a) None (JObj (plan_fields previous)) (JObj (plan_fields current));
      mret (mk_response 200 [] (JObj (plan_fields current)))).

Definition PLAN_DELETE_STATUS : list (string * Z) :=
  [("FORBIDDEN", 403); ("VALIDATION_ERROR", 400); ("PLAN_NOT_FOUND", 404); ("PLAN_ACTIVE", 409); ("PLAN_HAS_ASSIGNMENT_HISTORY", 409)].

Definition plan_delete_main (actor : option gov_actor) (planId : string) (params : jsval) : gact response :=
  answering PLAN_DELETE_STATUS (
    a ← lift (requireSuperadmin actor);
    if negb (nonempty planId) then throw (invalid "planId is required")
    else
      deleted ← deleteNeverAssigned planId;
      correlationId ← correlation_of params;
      now ← gov_now;
      let deletionState := [("planId", JStr (pl_id deleted)); ("deleted", JBool true); ("deletedAt", jdate now)] in
      _ ← appendPlanAudit (plan_audit "plan.deleted" (ga_id a) None None (Some (JObj (plan_fields deleted))) deletionState (pg_text correlationId)) false;
      _ ← emit_plan_event "console.plan.deleted" correlationId (ga_id a) None (JObj (plan_fields deleted)) (JObj deletionState);
      mret (mk_response 200 [] (JObj [("planId", JStr (pl_id deleted)); ("deleted", JBool true)]))).

Definition PLAN_LIFECYCLE_STATUS : list (string * Z) :=
  [("FORBIDDEN", 403); ("VALIDATION_ERROR", 400); ("PLAN_NOT_FOUND", 404); ("INVALID_TRANSITION", 409); ("PLAN_HAS_ACTIVE_ASSIGNMENTS", 409)].

(** The action checks what [transitionStatus] checks again. *)
Definition plan_lifecycle_main (actor : option gov_actor) (planId targetStatus : string) (params : jsval) : gact response :=
  answering PLAN_LIFECYCLE_STATUS (
    a ← lift (requireSuperadmin actor);
    if negb (nonempty planId) || negb (nonempty targetStatus) then throw (invalid "planId and targetStatus are required")
    else
      found ← findById_plan planId;
      match found with
      | None => throw plan_not_found
      | Some existing =>
          if negb (plan_canTransition (pl_status existing) targetStatus) then throw invalid_transition
          else
            _ ← refuse_assigned planId targetStatus;
            res ← transitionStatus planId targetStatus;
            let '(previous, current) := (res : plan_row * plan_row) in
            correlationId ← correlation_of params;
            _ ← appendPlanAudit (plan_audit "plan.lifecycle_transitioned" (ga_id a) None (Some planId)
                  (Some (JObj [("status", JStr (pl_status previous))])) [("status", JStr (pl_status current))] (pg_text correlationId)) false;
            _ ← emit_plan_event "console.plan.lifecycle_transitioned" correlationId (ga_id a) None
                  (JObj [("status", JStr (pl_status previous))]) (JObj [("status", JStr (pl_status current))]);
            mret (mk_response 200 [] (JObj [("planId", JStr (pl_id current)); ("previousStatus", JStr (pl_status previous));
                    ("newStatus", JStr (pl_status current)); ("transitionedAt", jdate (pl_updated_at current))]))
      end).

(** ** Limits and capabilities *)

Definition LIMITS_SET_STATUS : list (string * Z) :=
  [("FORBIDDEN", 403); ("INVALID_DIMENSION_KEY", 400); ("INVALID_LIMIT_VALUE", 400); ("INVALID_GRACE_MARGIN", 400);
   ("GRACE_MARGIN_REQUIRED_FOR_SOFT", 400); ("PLAN_NOT_FOUND", 404); ("PLAN_LIMITS_FROZEN", 409); ("CONCURRENT_PLAN_LIMIT_CONFLICT", 409)].

Definition limits_set_main (actor : option gov_actor) (planId : string) (params : jsval) : gact response :=
  answering LIMITS_SET_STATUS (
    a ← lift (requireSuperadmin actor);
    match js_get params "dimensionKey" with
    | JStr key =>
        if negb (isValidDimensionKey (JStr key)) then throw bad_dimension
        else match js_get params "value" with
             | JNum (NInt value) =>
                 if negb (isValidLimitValue (jint value)) then throw (coded "INVALID_LIMIT_VALUE" "Invalid limit value")
                 else
                   _ ← valid_dimension (JStr key);
                   cfg ← lift (validateQuotaTypeConfigEntry (coalesce (js_get params "quotaType") (JStr "hard")) (margin_param params (jint 0)));
                   correlationId ← correlation_of params;
                   c ← setLimit planId key value cfg.1 cfg.2 (ga_id a) correlationId;
                   _ ← emit_limit_updated planId key (ga_id a) correlationId c (lc_new c);
                   mret (mk_response 200 [] (JObj [("planId", JStr planId); ("dimensionKey", JStr key); ("previousValue", lc_previous c);
                           ("newValue", lc_new c); ("source", JStr "explicit"); ("quotaType", JStr cfg.1); ("graceMargin", jint cfg.2)]))
             | _ => throw (coded "INVALID_LIMIT_VALUE" "Invalid limit value")
             end
    | _ => throw bad_dimension
    end).

Definition LIMITS_REMOVE_STATUS : list (string * Z) :=
  [("FORBIDDEN", 403); ("INVALID_DIMENSION_KEY", 400); ("PLAN_NOT_FOUND", 404); ("LIMIT_NOT_SET", 404); ("PLAN_LIMITS_FROZEN", 409);
   ("CONCURRENT_PLAN_LIMIT_CONFLICT", 409)].

Definition limits_remove_main (actor : option gov_actor) (planId : string) (params : jsval) : gact response :=
  answering LIMITS_REMOVE_STATUS (
    a ← lift (requireSuperadmin actor);
    key ← valid_dimension (js_get params "dimensionKey");
    effectiveValue ← getDefaultValue key;
    correlationId ← correlation_of params;
    c ← removeLimit planId key (ga_id a) correlationId;
    _ ← emit_limit_updated planId key (ga_id a) correlationId c effectiveValue;
    mret (mk_response 200 [] (JObj [("planId", JStr planId); ("dimensionKey", JStr key); ("removedValue", lc_previous c);
            ("effectiveValue", effectiveValue); ("source", JStr "default")]))).

Definition CAPABILITY_SET_STATUS : list (string * Z) :=
  [("FORBIDDEN", 403); ("INVALID_CAPABILITY_KEY", 400); ("INVALID_CAPABILITY_VALUE", 400); ("NO_CAPABILITIES_SPECIFIED", 400);
   ("PLAN_NOT_FOUND", 404); ("PLAN_ARCHIVED", 409); ("CONCURRENT_CAPABILITY_CONFLICT", 409)].

Definition change_json (c : capability_change) : jsval :=
  JObj [("capabilityKey", JStr (cc_key c)); ("previousState", cc_previous c); ("newState", cc_new c)].

Definition capability_set_main (actor : option gov_actor) (planId : string) (params : jsval) : gact response :=
  answering CAPABILITY_SET_STATUS (
    a ← lift (requireSuperadmin actor);
    match js_get params "capabilities" with
    | JObj (kv :: kvs) =>
        let toSet := kv :: kvs in
        if negb (forallb (fun kv => is_bool kv.2) toSet) then throw (coded "INVALID_CAPABILITY_VALUE" "Invalid capability value")
        else
          _ ← validateCapabilityKeys (toSet.*1);
          correlationId ← correlation_of params;
          r ← setCapabilities planId toSet (ga_id a) correlationId;
          _ ← (match cr_changed r with
               | [] => mret tt
               | cs => labels ← active_catalog; emit_capability_events planId (cr_slug r) (ga_id a) correlationId labels cs
               end);
          mret (mk_response 200 [] (JObj [("planId", JStr planId); ("planSlug", JStr (cr_slug r)); ("changed", JArr (List.map change_json (cr_changed r)));
                  ("unchanged", JArr (List.map JStr (cr_unchanged r))); ("effectiveCapabilities", JObj (cr_effective r))]))
    | _ => throw (coded "NO_CAPABILITIES_SPECIFIED" "No capabilities specified")
    end).

(** ** [plan-assign.mjs] *)

Definition PLAN_ASSIGN_STATUS : list (string * Z) :=
  [("FORBIDDEN", 403); ("VALIDATION_ERROR", 400); ("PLAN_NOT_FOUND", 404); ("PLAN_NOT_ACTIVE", 409); ("CONCURRENT_ASSIGNMENT_CONFLICT", 409);
   ("TENANT_NOT_FOUND", 404)].

(** A missing table of tenants admits every tenant. *)
Definition ensureTenantExists (t : string) : gact unit :=
  if negb (nonempty t) then throw (invalid "tenantId is required")
  else match tenant_present t with
       | Ok true => mret tt
       | Ok false => throw (coded "TENANT_NOT_FOUND" "Tenant not found")
       | Err e => if has_code "42P01" e then mret tt else throw e
       end.

Record assign_request := mk_assign_request { aq_tenant : string; aq_plan : string; aq_assigned_by : string; aq_params : jsval }.

(** What the assignment will mean, before it is made. *)
Record plan_impact := mk_plan_impact {
  im_quota : list quota_impact;
  im_capabilities : list capability_impact;
  im_direction : string;
  im_usage : string
}.

Definition impact_of (t plan : string) (current : option (assignment_row * plan_row)) : gact plan_impact :=
  previous ← (match current with
              | Some c => resolveEffectiveEntitlements t (as_plan_id c.1)
              | None => mret (mk_entitlements [] [])
              end);
  next ← resolveEffectiveEntitlements t plan;
  usage ← collectObservedUsage t (de_key <$> en_dimensions next);
  mret (mk_plan_impact (buildQuotaImpactSet (en_dimensions previous) (en_dimensions next) usage)
          (buildCapabilityImpactSet (en_capabilities previous) (en_capabilities next))
          (determineChangeDirection (en_dimensions previous) (en_dimensions next) (option_map (fun c => as_plan_id c.1) current) plan)
          (summarizeUsageCollectionStatus usage)).

Definition over_limit_count (i : plan_impact) : nat := length (List.filter (fun q => over_limit (qi_status q)) (im_quota i)).

(** [{ tenantId, planId }], or null without a previous plan. *)
Definition plan_ref (t : string) (p : option string) : jsval :=
  match p with Some p => JObj [("tenantId", JStr t); ("planId", JStr p)] | None => JNull end.

Definition assignment_fields (a : assignment_row) : list (string * jsval) :=
  [("assignmentId", JStr (as_id a)); ("tenantId", JStr (as_tenant_id a)); ("planId", JStr (as_plan_id a));
   ("effectiveFrom", jdate (as_effective_from a)); ("supersededAt", jopt jdate (as_superseded_at a));
   ("assignedBy", JStr (as_assigned_by a)); ("assignmentMetadata", JObj (as_metadata a))].

(** [emitChangeImpactRecorded]: its failure is the action's. *)
Definition emitChangeImpactRecorded (h : history_row) (a : assignment_row) : gact unit :=
  if has_producer
  then publish (mk_gov_event "console.plan.change-impact-recorded" (as_effective_from a)
         (JObj [("historyEntryId", JStr (hr_id h)); ("planAssignmentId", JStr (as_id a)); ("tenantId", JStr (hr_tenant_id h));
                ("previousPlanId", jstr_opt (hr_previous_plan_id h)); ("newPlanId", JStr (hr_new_plan_id h)); ("actorId", JStr (hr_actor_id h));
                ("effectiveAt", jdate (hr_effective_at h)); ("correlationId", jstr_opt (hr_correlation_id h));
                ("changeDirection", JStr (hr_change_direction h)); ("usageCollectionStatus", JStr (hr_usage_status h));
                ("overLimitDimensionCount", jint (Z.of_nat (hr_over_limit h)));
                ("quotaDimensionCount", jint (Z.of_nat (length (hr_quota_impacts h))));
                ("capabilityCount", jint (Z.of_nat (length (hr_capability_impacts h))))]))
  else mret tt.

(** The audit events and messages after the commit. *)
Definition record_assignment (actor : string) (q : assign_request) (i : plan_impact) (correlationId : jsval)
    (a : assignment_row) (previous : option string) (h : history_row) : gact unit :=
  let t := aq_tenant q in
  let ref := plan_ref t previous in
  let audit type plan prev new := appendPlanAudit (plan_audit type actor (Some t) (Some plan) prev new (pg_text correlationId)) false in
  let supersededBy := [("tenantId", JStr t); ("supersededByPlanId", JStr (aq_plan q))] in
  let recorded := match previous with Some _ => Some ref | None => None end in
  _ ← (match previous with
       | Some p =>
           _ ← audit "assignment.superseded" p (Some ref) supersededBy;
           emit_plan_event "console.plan.assignment.superseded" correlationId actor (Some t) ref (JObj supersededBy)
       | None => mret tt
       end);
  _ ← audit "assignment.created" (aq_plan q) recorded (assignment_fields a);
  _ ← audit "plan.change_impact_recorded" (aq_plan q) recorded
        [("historyEntryId", JStr (hr_id h)); ("correlationId", correlationId); ("changeDirection", JStr (im_direction i));
         ("overLimitDimensionCount", jint (Z.of_nat (over_limit_count i)))];
  _ ← emit_plan_event "console.plan.assignment.created" correlationId actor (Some t) ref (JObj (assignment_fields a));
  emitChangeImpactRecorded h a.

Definition plan_assign_main (actor : option gov_actor) (q : assign_request) : gact response :=
  answering PLAN_ASSIGN_STATUS (
    _ ← now_ms;
    u ← lift (requireSuperadmin actor);
    if negb (nonempty (aq_plan q) && nonempty (aq_tenant q) && nonempty (aq_assigned_by q))
    then throw (invalid "tenantId, planId, assignedBy are required")
    else
      _ ← ensureTenantExists (aq_tenant q);
      found ← findById_plan (aq_plan q);
      match found with
      | None => throw plan_not_found
      | Some plan =>
          if negb (String.eqb (pl_status plan) "active") then throw (coded "PLAN_NOT_ACTIVE" "Plan is not active")
          else
            current ← getCurrent (aq_tenant q);
            i ← impact_of (aq_tenant q) (aq_plan q) current;
            correlationId ← correlation_of (aq_params q);
            let metadata := coalesce (js_get (aq_params q) "assignmentMetadata") (JObj []) in
            res ← insertWithHistory (mk_assignment_input (aq_tenant q) (aq_plan q) (aq_assigned_by q) metadata)
                    (mk_history_context (option_map (fun c => as_plan_id c.1) current) (ga_id u) correlationId
                       (coalesce (js_get (aq_params q) "changeReason") (coalesce (js_get metadata "reason") JNull))
                       (im_direction i) (im_usage i) (over_limit_count i) (im_quota i) (im_capabilities i));
            let '(a, previous, h) := (res : assignment_row * option string * history_row) in
            _ ← record_assignment (ga_id u) q i correlationId a previous h;
            mret (mk_response 200 [] (JObj [("assignmentId", JStr (as_id a)); ("tenantId", JStr (as_tenant_id a)); ("planId", JStr (as_plan_id a));
                    ("effectiveFrom", jdate (as_effective_from a)); ("previousPlanId", jstr_opt previous); ("historyEntryId", JStr (hr_id h));
                    ("changeDirection", JStr (im_direction i)); ("overLimitDimensionCount", jint (Z.of_nat (over_limit_count i)));
                    ("usageCollectionStatus", JStr (im_usage i))]))
      end).

(** ** Requests to the catalogue *)

Inductive plan_request :=
| PlanCreate (actor : option gov_actor) (params : jsval)
| PlanUpdate (actor : option gov_actor) (planId : string) (params : jsval)
| PlanDelete (actor : option gov_actor) (planId : string) (params : jsval)
| PlanLifecycle (actor : option gov_actor) (planId targetStatus : string) (params : jsval)
| PlanLimitsSet (actor : option gov_actor) (planId : string) (params : jsval)
| PlanLimitsRemove (actor : option gov_actor) (planId : string) (params : jsval)
| PlanCapabilitySet (actor : option gov_actor) (planId : string) (params : jsval)
| PlanAssign (actor : option gov_actor) (q : assign_request).

Definition serve_plan (r : plan_request) : gact response :=
  match r with
  | PlanCreate a p => plan_create_main a p
  | PlanUpdate a id p => plan_update_main a id p
  | PlanDelete a id p => plan_delete_main a id p
  | PlanLifecycle a id s p => plan_lifecycle_main a id s p
  | PlanLimitsSet a id p => limits_set_main a id p
  | PlanLimitsRemove a id p => limits_remove_main a id p
  | PlanCapabilitySet a id p => capability_set_main a id p
  | PlanAssign a q => plan_assign_main a q
  end.

Fixpoint run_plans (rs : list plan_request) (w : gworld) : gworld :=
  match rs with [] => w | r :: rs' => run_plans rs' (snd (serve_plan r w)) end.

End actions.
