(* ===== verification/PlanProofs.v ===== *)
(** * Properties of the plan catalogue

    What every sequence of catalogue requests keeps: identities, the forward
    life of a plan, the one current assignment of a tenant, on a plan that is in
    use, and the audit chain. *)
From S2P Require Import Prelude JsValue Json Regex Platform IsoDate AuditChain AuditChainProofs PlanImpact.
From S2P Require Import Governance GovernanceProofs Quota QuotaLimits QuotaActions QuotaProofs QuotaDecisions Plans Assignments PlanActions.
From stdpp Require Import sorting.
Local Open Scope Z_scope.

(** ** The life of a plan *)

Definition plan_rank (s : string) : Z :=
  if String.eqb s "draft" then 0 else if String.eqb s "active" then 1 else if String.eqb s "deprecated" then 2 else 3.

Lemma plan_transition_spec a b : plan_canTransition a b = true ->
  (a = "draft" /\ b = "active") \/ (a = "active" /\ b = "deprecated") \/ (a = "deprecated" /\ b = "archived").
Proof.
  unfold plan_canTransition, PLAN_TRANSITIONS. intros H%str_in_elem.
  destruct (String.eqb_spec a "draft"), (String.eqb_spec a "active"), (String.eqb_spec a "deprecated"); subst;
    first [by apply elem_of_nil in H | apply list_elem_of_singleton in H as ->; auto 10].
Qed.

Record plans_wf (db : gov_db) : Prop := {
  pw_ids : NoDup (pl_id <$> g_plans db);
  pw_slugs : NoDup ((fun p => to_lower_case (pl_slug p)) <$> g_plans db);
  pw_status : forall p, p ∈ g_plans db -> pl_status p ∈ PLAN_STATUSES;
  pw_assignment_ids : NoDup (as_id <$> g_assignments db);
  pw_current : one_current db;
  pw_plan : forall a, a ∈ g_assignments db -> exists p, p ∈ g_plans db /\ pl_id p = as_plan_id a;
  pw_in_use : forall a p, a ∈ g_assignments db -> as_superseded_at a = None -> p ∈ g_plans db -> pl_id p = as_plan_id a ->
    pl_status p = "active" \/ pl_status p = "deprecated"
}.

(** What a plan becomes, what an assignment becomes, what an audit row becomes. *)
Definition plan_le (p p' : plan_row) : Prop :=
  pl_id p' = pl_id p /\ pl_slug p' = pl_slug p /\ pl_created_by p' = pl_created_by p /\ pl_created_at p' = pl_created_at p /\
  plan_rank (pl_status p) <= plan_rank (pl_status p').
Definition assignment_le (a a' : assignment_row) : Prop :=
  a' = a \/ as_superseded_at a = None /\ exists at_, a' = superseded at_ a.
Definition audit_le (r r' : audit_row) : Prop := r' = r \/ r' = without_plan r.

#[export] Instance plan_le_refl : Reflexive plan_le.
Proof. intros p. by split_and!. Qed.
#[export] Instance plan_le_trans : Transitive plan_le.
Proof. intros p1 p2 p3 (A1 & A2 & A3 & A4 & A5) (B1 & B2 & B3 & B4 & B5). split_and!; (congruence || lia). Qed.
#[export] Instance assignment_le_refl : Reflexive assignment_le.
Proof. by left. Qed.
#[export] Instance assignment_le_trans : Transitive assignment_le.
Proof. intros a b c [->|[Ha [t ->]]] [->|[Hb [t' ->]]]; unfold assignment_le; eauto. Qed.
#[export] Instance audit_le_refl : Reflexive audit_le.
Proof. by left. Qed.
#[export] Instance audit_le_trans : Transitive audit_le.
Proof. intros a b c [->| ->] [->| ->]; unfold audit_le; eauto. Qed.

(** A plan disappears only when nobody was ever assigned to it; assignments stay. *)
Record catalogue_le (db db' : gov_db) : Prop := {
  cl_tables : (g_catalog db', g_overrides db', g_sub_quotas db', g_capabilities db')
              = (g_catalog db, g_overrides db, g_sub_quotas db, g_capabilities db);
  cl_plans : forall p, p ∈ g_plans db ->
    (exists p', p' ∈ g_plans db' /\ plan_le p p') \/ (forall a, a ∈ g_assignments db -> as_plan_id a <> pl_id p);
  cl_assignments : exists l rows, g_assignments db' = l ++ rows /\ Forall2 assignment_le (g_assignments db) l;
  cl_history : g_history db `prefix_of` g_history db';
  cl_audit : exists l rows, g_audit db' = l ++ rows /\ Forall2 audit_le (g_audit db) l
}.

Lemma prefix_forall2_refl {A} (R : A -> A -> Prop) `{!Reflexive R} l : exists l' rows, l = l' ++ rows /\ Forall2 R l l'.
Proof. exists l, []. by rewrite app_nil_r. Qed.

Lemma prefix_forall2_trans {A} (R : A -> A -> Prop) `{!Transitive R} l1 l2 l3 :
  (exists l rows, l2 = l ++ rows /\ Forall2 R l1 l) -> (exists l rows, l3 = l ++ rows /\ Forall2 R l2 l) ->
  exists l rows, l3 = l ++ rows /\ Forall2 R l1 l.
Proof.
  intros (l & rows & -> & H1) (l' & rows' & -> & H2). apply Forall2_app_inv_l in H2 as (k1 & k2 & H2 & _ & ->).
  exists k1, (k2 ++ rows'). split; [by rewrite app_assoc | by etrans].
Qed.

Lemma prefix_forall2_elem {A} (R : A -> A -> Prop) l1 l2 x :
  (exists l rows, l2 = l ++ rows /\ Forall2 R l1 l) -> x ∈ l1 -> exists y, y ∈ l2 /\ R x y.
Proof.
  intros (l & rows & -> & H) Hx. apply list_elem_of_lookup in Hx as [i Hi]. destruct (Forall2_lookup_l _ _ _ _ _ H Hi) as (y & Hy & ?).
  exists y. split; [apply elem_of_app; left; by eapply list_elem_of_lookup_2 | done].
Qed.

#[export] Instance catalogue_le_refl : Reflexive catalogue_le.
Proof. intros db. constructor; try done; [intros p Hp; left; by exists p | apply prefix_forall2_refl, _..]. Qed.

#[export] Instance catalogue_le_trans : Transitive catalogue_le.
Proof.
  intros d1 d2 d3 [A1 A2 A3 A4 A5] [B1 B2 B3 B4 B5]. constructor; [congruence| | |by etrans|].
  - intros p Hp. destruct (A2 p Hp) as [(p2 & Hp2 & L2)|?]; [|by right].
    destruct (B2 p2 Hp2) as [(p3 & Hp3 & L3)|Hno]; [left; exists p3; split; [done | by etrans]|right].
    intros a Ha. destruct (prefix_forall2_elem _ _ _ a A3 Ha) as (a' & Ha' & [->|[_ [t ->]]]);
      specialize (Hno _ Ha'); destruct L2 as (<- & _); done.
  - by eapply prefix_forall2_trans; [apply _|..].
  - by eapply prefix_forall2_trans; [apply _|..].
Qed.

Section steps.
Context `{PL : !Platform, GE : !GovEnv}.

Definition catalogue_step (db db' : gov_db) : Prop :=
  plans_wf db -> plans_wf db' /\ catalogue_le db db' /\ (digest_nonempty -> jsonb_keeps -> log_chained db -> log_chained db').

#[local] Instance catalogue_step_refl : Reflexive catalogue_step.
Proof. intros db. by split. Qed.
#[local] Instance catalogue_step_trans : Transitive catalogue_step.
Proof.
  intros d1 d2 d3 A B Hw. destruct (A Hw) as (Hw2 & L1 & C1). destruct (B Hw2) as (Hw3 & L2 & C2).
  split_and!; [done | by etrans | auto].
Qed.

(** *** The chain does not look at plans *)

Lemma chained_fmap f db db' : (forall r, audit_le r (f r)) -> ad_events db' = f <$> ad_events db -> chained db -> chained db'.
Proof.
  intros Hf He Hc t. rewrite He. destruct (Hc t) as [Hs Hv].
  assert (Hsame : forall r, ae_tenant_id (f r) = ae_tenant_id r /\ ae_created_at (f r) = ae_created_at r /\ rh (f r) = rh r /\
            ph (f r) = ph r /\ ae_prev_hash (f r) = ae_prev_hash r /\ fields_of_row (f r) = fields_of_row r)
    by (intros r; by destruct (Hf r) as [->| ->]).
  assert (Hscope : forall l, scope_rows t (f <$> l) = f <$> scope_rows t l).
  { unfold scope_rows. intros l. induction l as [|r l IH]; [done|]. rewrite fmap_cons. cbn [List.filter].
    destruct (Hsame r) as (-> & _). case_bool_decide; rewrite IH; done. }
  rewrite Hscope. split.
  - clear -Hs Hsame. induction Hs as [|x l _ IH Hx]; cbn; constructor; [done|].
    apply Forall_fmap. eapply Forall_impl; [exact Hx|]. intros y Hy. cbn.
    destruct (Hsame x) as (_ & -> & _), (Hsame y) as (_ & -> & _). done.
  - unfold verifyAuditChain in *. revert Hv. generalize 0%nat. generalize (scope_rows t (ad_events db)). clear -Hsame.
    assert (Hg : forall l b b' i, (b' = f <$> b) -> verify_rows "" b i l = None -> verify_rows "" b' i (f <$> l) = None).
    { induction l as [|r l IH]; intros b b' i Hb; [done|]. cbn [verify_rows fmap list_fmap].
      replace (row_valid "" b' (f r)) with (row_valid "" b r).
      - destruct (row_valid "" b r); [|done]. by apply IH.
      - unfold row_valid. destruct (Hsame r) as (_ & _ & -> & -> & -> & ->). subst b'. destruct b as [x|]; [|done]. cbn.
        by destruct (Hsame x) as (_ & _ & -> & _). }
    intros l i. by apply Hg.
Qed.

(** *** One statement at a time *)

Lemma find_plan_some id db p : find_plan id db = Some p -> p ∈ g_plans db /\ pl_id p = id.
Proof. intros [H He]%List.find_some. apply String.eqb_eq in He. by apply list_elem_of_In in H. Qed.

Lemma elem_by_key {A} (key : A -> string) l x y : NoDup (key <$> l) -> x ∈ l -> y ∈ l -> key x = key y -> x = y.
Proof.
  intros Hn Hx Hy He. apply list_elem_of_lookup in Hx as [i Hi], Hy as [j Hj].
  assert (i = j) as <- by (eapply NoDup_lookup; [exact Hn| |]; rewrite list_lookup_fmap, ?Hi, ?Hj; cbn; [done | by rewrite He]).
  congruence.
Qed.

Lemma on_current_plan id db a : current_tenants id db = [] -> a ∈ g_assignments db -> as_superseded_at a = None -> as_plan_id a <> id.
Proof.
  unfold current_tenants. intros Hn Ha Hs E.
  assert (Hin : as_tenant_id a ∈ as_tenant_id <$> List.filter (fun a => String.eqb (as_plan_id a) id && is_current a) (g_assignments db)).
  { apply list_elem_of_fmap. exists a. split; [done|]. apply list_elem_of_In, List.filter_In. split; [by apply list_elem_of_In|].
    rewrite E, String.eqb_refl. cbn. by apply bool_decide_eq_true. }
  rewrite <- (merge_sort_Permutation String.le), Hn in Hin. by apply elem_of_nil in Hin.
Qed.

Lemma plan_checks_status p u : plan_checks p = Ok u -> pl_status p ∈ PLAN_STATUSES.
Proof.
  unfold plan_checks. intros H. apply result_bind_ok in H as (? & _ & H%throw_if_ok).
  apply negb_false_iff in H. by apply str_in_elem.
Qed.

(** Same id, slug and creation; the status stays or moves along the graph, to
    [archived] only when no tenant is on the plan. *)
Definition plan_change (id : string) (db : gov_db) (p q : plan_row) : Prop :=
  pl_id q = pl_id p /\ pl_slug q = pl_slug p /\ pl_created_by q = pl_created_by p /\ pl_created_at q = pl_created_at p /\
  (pl_status q = pl_status p \/
   plan_canTransition (pl_status p) (pl_status q) = true /\ (pl_status q = "archived" -> current_tenants id db = [])).

Lemma plan_change_le id db p q : plan_change id db p q -> plan_le p q.
Proof.
  intros (? & ? & ? & ? & [E|[E%plan_transition_spec _]]); split_and!; try done; [by rewrite E|].
  by destruct E as [[-> ->]|[[-> ->]|[-> ->]]].
Qed.

Lemma plans_step db (g : plan_row -> plan_row) id :
  (forall p, p ∈ g_plans db -> g p = p \/ pl_id p = id /\ plan_change id db p (g p) /\ pl_status (g p) ∈ PLAN_STATUSES) ->
  catalogue_step db (set_plans (g <$> g_plans db) db).
Proof.
  intros Hg Hw.
  assert (Hle : forall p, p ∈ g_plans db -> plan_le p (g p))
    by (intros p Hp; destruct (Hg p Hp) as [->|(_ & H & _)]; [done | by eapply plan_change_le]).
  split_and!; [constructor; cbn [g_plans g_assignments set_plans]| |done].
  - rewrite <- list_fmap_compose. erewrite list_fmap_ext; [apply Hw|]. intros i p Hp. cbn. by apply Hle, list_elem_of_lookup_2 with i.
  - rewrite <- list_fmap_compose. erewrite list_fmap_ext; [apply (pw_slugs db Hw)|]. intros i p Hp. cbn.
    apply list_elem_of_lookup_2, Hle in Hp as (_ & -> & _). done.
  - intros q (p & -> & Hp)%list_elem_of_fmap. destruct (Hg p Hp) as [->|(_ & _ & ?)]; [by apply Hw | done].
  - apply Hw.
  - apply Hw.
  - intros a Ha. destruct (pw_plan db Hw a Ha) as (p & Hp & E). exists (g p). split; [by apply list_elem_of_fmap_2|].
    destruct (Hle p Hp) as (-> & _). done.
  - intros a q Ha Hs (p & -> & Hp)%list_elem_of_fmap E. destruct (Hle p Hp) as (Ei & _). rewrite Ei in E.
    pose proof (pw_in_use db Hw a p Ha Hs Hp E) as Hu. destruct (Hg p Hp) as [->|(Hid & (_ & _ & _ & _ & [->|[Ht Harch]]) & _)]; try done.
    apply plan_transition_spec in Ht as [[? ->]|[[? ->]|[? Ea]]]; [by left|by right|].
    exfalso. apply (on_current_plan id db a (Harch Ea) Ha Hs). congruence.
  - constructor; try done; [|apply prefix_forall2_refl, _..].
    intros p Hp. left. exists (g p). split; [by apply list_elem_of_fmap_2 | by apply Hle].
Qed.

Lemma update_plan_step now id f db p x : find_plan id db = Some p -> plan_change id db p (f p) ->
  update_plan now id f db = Ok x -> catalogue_step db x.2.
Proof.
  intros Hf Hc H. unfold update_plan in H. rewrite Hf in H. apply result_bind_ok in H as (? & _ & H).
  apply result_bind_ok in H as (? & Hk%plan_checks_status & [= <-]). cbn [snd] in *.
  set (q := mk_plan_row _ _ _ _ _ _ _ _ _ _ _ _) in *. intros Hw. revert Hw.
  intros Hw. apply (plans_step db _ id); [|done]. intros r Hr. destruct (String.eqb_spec (pl_id r) id) as [E|]; [right|by left].
  apply find_plan_some in Hf as [Hp Hid]. assert (r = p) as -> by (apply (elem_by_key pl_id (g_plans db)); [apply Hw|done..|congruence]).
  by split_and!.
Qed.

Lemma insert_plan_step p db x : insert_plan p db = Ok x -> catalogue_step db x.2.
Proof.
  unfold insert_plan. intros H Hw. apply result_bind_ok in H as (? & Hk%plan_checks_status & H).
  apply result_bind_ok in H as (? & Hid%throw_if_ok & H). apply result_bind_ok in H as (? & Hslug%throw_if_ok & [= <-]). cbn [snd].
  assert (Hid' : forall q, q ∈ g_plans db -> pl_id q <> pl_id p).
  { intros q Hq E. apply not_true_iff_false in Hid. apply Hid, existsb_exists. exists q.
    split; [by apply list_elem_of_In | by apply String.eqb_eq]. }
  split_and!; [constructor; cbn [g_plans g_assignments set_plans]| |done].
  - rewrite fmap_app. apply NoDup_app. split_and!; [apply Hw| |by apply NoDup_singleton].
    intros i (q & -> & Hq)%list_elem_of_fmap E%list_elem_of_singleton. by eapply Hid'.
  - rewrite fmap_app. apply NoDup_app. split_and!; [apply Hw| |by apply NoDup_singleton].
    intros i (q & -> & Hq)%list_elem_of_fmap E%list_elem_of_singleton. apply not_true_iff_false in Hslug. apply Hslug, existsb_exists.
    exists q. split; [by apply list_elem_of_In | by apply String.eqb_eq].
  - intros q [Hq| ->%list_elem_of_singleton]%elem_of_app; [by apply Hw | done].
  - apply Hw.
  - apply Hw.
  - intros a Ha. destruct (pw_plan db Hw a Ha) as (q & Hq & E). exists q. split; [apply elem_of_app; by left | done].
  - intros a q Ha Hs [Hq| ->%list_elem_of_singleton]%elem_of_app E; [by eapply (pw_in_use db Hw)|].
    destruct (pw_plan db Hw a Ha) as (q & Hq & E'). exfalso. apply (Hid' q Hq). congruence.
  - constructor; try done; [|apply prefix_forall2_refl, _..].
    intros q Hq. left. exists q. split; [apply elem_of_app; by left | done].
Qed.

Lemma NoDup_filter_fmap {A} (key : A -> string) P l : NoDup (key <$> l) -> NoDup (key <$> List.filter P l).
Proof.
  induction l as [|x l IH]; [done|]. rewrite fmap_cons. intros [Hx Hn]%NoDup_cons. cbn [List.filter].
  destruct (P x); [|by apply IH]. rewrite fmap_cons. apply NoDup_cons. split; [|by apply IH].
  intros (y & E & Hy)%list_elem_of_fmap. apply Hx, list_elem_of_fmap. exists y. split; [done|].
  apply list_elem_of_In, List.filter_In in Hy as [Hy _]. by apply list_elem_of_In.
Qed.

Lemma delete_step id db : catalogue_step db (delete_statement id db).2.
Proof.
  unfold delete_statement. destruct (assigned_ever id db) eqn:Hever; [done|]. cbn [snd]. intros Hw.
  assert (Hno : forall a, a ∈ g_assignments db -> as_plan_id a <> id).
  { intros a Ha E. apply not_true_iff_false in Hever. apply Hever, existsb_exists. exists a.
    split; [by apply list_elem_of_In | by apply String.eqb_eq]. }
  assert (Hin : forall p, p ∈ List.filter (fun p => negb (String.eqb (pl_id p) id)) (g_plans db) <-> p ∈ g_plans db /\ pl_id p <> id).
  { intros p. rewrite list_elem_of_In, List.filter_In, <- list_elem_of_In, negb_true_iff, String.eqb_neq. done. }
  split_and!; [constructor; cbn [g_plans g_assignments set_plans set_audit]| |].
  - by apply NoDup_filter_fmap, Hw.
  - by apply NoDup_filter_fmap, Hw.
  - intros p [Hp _]%Hin. by apply Hw.
  - apply Hw.
  - apply Hw.
  - intros a Ha. destruct (pw_plan db Hw a Ha) as (p & Hp & E). exists p. split; [|done]. apply Hin. split; [done|].
    rewrite E. by apply Hno.
  - intros a p Ha Hs [Hp _]%Hin. by apply (pw_in_use db Hw).
  - constructor; cbn [g_catalog g_overrides g_sub_quotas g_capabilities g_assignments g_history g_audit g_plans set_plans set_audit]; try done.
    + intros p Hp. destruct (decide (pl_id p = id)) as [E|]; [right; intros a Ha; rewrite E; by apply Hno|left]. exists p. split; [by apply Hin | done].
    + apply prefix_forall2_refl, _.
    + exists (detach id <$> g_audit db), []. split; [by rewrite app_nil_r|]. apply Forall2_fmap_r, Forall_Forall2_diag, Forall_forall.
      intros r _. cbn. unfold detach. case_bool_decide; [by right | by left].
  - intros _ _ Hc. apply (chained_fmap (detach id) (audit_view db)); [|done|exact Hc]. intros r. unfold detach. case_bool_decide; [by right | by left].
Qed.

Lemma is_current_true a : is_current a = true <-> as_superseded_at a = None.
Proof. apply bool_decide_eq_true. Qed.

Lemma current_assignment_some t db c : current_assignment t db = Some c ->
  c ∈ g_assignments db /\ as_tenant_id c = t /\ as_superseded_at c = None.
Proof.
  intros [H [Ht%String.eqb_eq Hs%is_current_true]%andb_true_iff]%List.find_some. by apply list_elem_of_In in H.
Qed.

Lemma supersede_assignment_step t at_ db c : current_assignment t db = Some c -> catalogue_step db (supersede_assignment (as_id c) at_ db).
Proof.
  intros (Hc & _ & Hcur)%current_assignment_some Hw. unfold supersede_assignment.
  set (g := fun a => if String.eqb (as_id a) (as_id c) then superseded at_ a else a).
  assert (Hg : forall a, as_id (g a) = as_id a /\ as_tenant_id (g a) = as_tenant_id a /\ as_plan_id (g a) = as_plan_id a /\
            (as_superseded_at (g a) = None -> g a = a /\ as_superseded_at a = None))
    by (intros a; unfold g; by destruct (String.eqb _ _)).
  split_and!; [constructor; cbn [g_plans g_assignments set_assignments]; try apply Hw| |done].
  - rewrite <- list_fmap_compose. erewrite list_fmap_ext; [apply (pw_assignment_ids db Hw)|]. intros i a _. apply Hg.
  - intros a a' (b & -> & Hb)%list_elem_of_fmap (b' & -> & Hb')%list_elem_of_fmap Ht Hs Hs'.
    destruct (Hg b) as (_ & T & _ & [E S]%(fun f => f Hs)), (Hg b') as (_ & T' & _ & [E' S']%(fun f => f Hs')).
    rewrite E, E'. apply (pw_current db Hw); congruence.
  - intros a (b & -> & Hb)%list_elem_of_fmap. destruct (Hg b) as (_ & _ & -> & _). by apply Hw.
  - intros a p (b & -> & Hb)%list_elem_of_fmap Hs Hp. destruct (Hg b) as (_ & _ & -> & [_ S]%(fun f => f Hs)). by apply (pw_in_use db Hw).
  - constructor; try done; [intros p Hp; left; by exists p| |apply prefix_forall2_refl, _].
    exists (g <$> g_assignments db), []. split; [by rewrite app_nil_r|]. apply Forall2_fmap_r, Forall_Forall2_diag, Forall_forall.
    intros a Ha. cbn. unfold g. destruct (String.eqb_spec (as_id a) (as_id c)) as [E|]; [right|by left].
    assert (a = c) as -> by (apply (elem_by_key as_id (g_assignments db)); [apply Hw|done..]). split; [done | by eexists].
Qed.

Lemma insert_assignment_step a db p x : find_plan (as_plan_id a) db = Some p -> pl_status p = "active" -> as_superseded_at a = None ->
  insert_assignment a db = Ok x -> catalogue_step db x.2.
Proof.
  intros [Hp Hid]%find_plan_some Hact Hcur H Hw. unfold insert_assignment in H. apply result_bind_ok in H as (? & _ & H).
  apply result_bind_ok in H as (? & Hpk%throw_if_ok & H). apply result_bind_ok in H as (? & Huq%throw_if_ok & H).
  apply result_bind_ok in H as (? & _ & [= <-]). cbn [snd]. rewrite (proj2 (is_current_true a) Hcur) in Huq. cbn [andb] in Huq.
  assert (Hnew : forall b, b ∈ g_assignments db -> as_id b <> as_id a).
  { intros b Hb E. apply not_true_iff_false in Hpk. apply Hpk, existsb_exists. exists b.
    split; [by apply list_elem_of_In | by apply String.eqb_eq]. }
  assert (Hfree : forall b, b ∈ g_assignments db -> as_superseded_at b = None -> as_tenant_id b <> as_tenant_id a).
  { intros b Hb Hs E. apply not_true_iff_false in Huq. apply Huq, existsb_exists. exists b.
    split; [by apply list_elem_of_In|]. by rewrite E, String.eqb_refl, (proj2 (is_current_true b) Hs). }
  split_and!; [constructor; cbn [g_plans g_assignments set_assignments]; try apply Hw| |done].
  - rewrite fmap_app. apply NoDup_app. split_and!; [apply Hw| |by apply NoDup_singleton].
    intros i (b & -> & Hb)%list_elem_of_fmap E%list_elem_of_singleton. by eapply Hnew.
  - intros b b' [Hb| ->%list_elem_of_singleton]%elem_of_app [Hb'| ->%list_elem_of_singleton]%elem_of_app Ht Hs Hs'; try done.
    + by apply (pw_current db Hw).
    + by destruct (Hfree b).
    + by destruct (Hfree b').
  - intros b [Hb| ->%list_elem_of_singleton]%elem_of_app; [by apply Hw | by exists p].
  - intros b q [Hb| ->%list_elem_of_singleton]%elem_of_app Hs Hq E; [by apply (pw_in_use db Hw b q)|].
    assert (q = p) as -> by (apply (elem_by_key pl_id (g_plans db)); [apply Hw|done..|congruence]). by left.
  - constructor; try done; [intros q Hq; left; by exists q| |apply prefix_forall2_refl, _].
    by exists (g_assignments db), [a].
Qed.

Lemma insert_history_step r db : catalogue_step db (insert_history r db).2.
Proof.
  unfold insert_history. destruct (List.find _ _); [done|]. cbn [snd]. intros Hw.
  split_and!; [by destruct Hw; constructor| |done].
  constructor; try done; [intros p Hp; left; by exists p|apply prefix_forall2_refl, _|by eexists|apply prefix_forall2_refl, _].
Qed.

Lemma append_catalogue ev b (w : gworld) : catalogue_step (w_db w) (w_db (snd (appendPlanAudit ev b w))).
Proof.
  pose proof (append_logged ev b w) as [rows E]. pose proof (append_run ev b w) as H. destruct (appendPlanAudit ev b w) as [res w'].
  destruct H as [_ Hc]. cbn [snd] in *. intros Hw. split_and!; [rewrite E; by destruct Hw; constructor| |exact (fun a b => Hc a b)].
  rewrite E. constructor; try done; [intros p Hp; left; by exists p|apply prefix_forall2_refl, _|by exists (g_audit (w_db w)), rows].
Qed.

(** *** The repositories *)

Notation moves := (evolves catalogue_step).
Notation from := (evolves_from catalogue_step).

Lemma catalogue_quiet {A} (m : gact A) : quiet m -> moves m.
Proof. intros Hq. exact (evolves_quiet _ m Hq). Qed.

Lemma append_moves ev b : moves (appendPlanAudit ev b).
Proof. intros w. apply append_catalogue. Qed.

(** A statement that ends what was known, and a continuation that needs nothing. *)
Lemma from_last {A B} P (m : gact A) (k : A -> gact B) : from P m -> (forall a, moves (k a)) -> from P (m ≫= k).
Proof. intros Hm Hk. apply (from_bind _ P (fun _ _ => True)); [done|done|]. intros a. by apply from_any. Qed.

Lemma update_from now id f (P : gov_db -> Prop) :
  (forall db, P db -> exists p, find_plan id db = Some p /\ plan_change id db p (f p)) ->
  from P (exec_db_err (update_plan now id f)).
Proof.
  intros Hf. apply (gov_exec_err _). intros db x Hp H. destruct (Hf db Hp) as (p & Hfind & Hc). by eapply update_plan_step.
Qed.

Lemma returned_quiet {A} (o : option A) : quiet (returned o).
Proof. unfold returned. quiet_tac. Qed.
#[local] Hint Resolve returned_quiet : falcone.

Lemma refuse_assigned_quiet id t : quiet (refuse_assigned id t).
Proof. unfold refuse_assigned. quiet_tac. Qed.
#[local] Hint Resolve refuse_assigned_quiet : falcone.

Ltac moves_step :=
  match goal with
  | |- moves (_ ≫= _) => apply (evolves_bind _); [|intros ?]
  | |- moves (try_catch _ _) => apply (evolves_try _); [|intros ?]
  | |- moves (answering _ _) => apply (evolves_try _); [|intros ?]
  | |- moves (for_each _ _) => apply (evolves_for_each _); intros ?
  | |- moves (appendPlanAudit _ _) => apply append_moves
  | |- moves (match ?x with _ => _ end) => destruct x eqn:?
  | |- moves (if ?x then _ else _) => destruct x eqn:?
  | |- moves _ => solve [apply catalogue_quiet; quiet_tac | eauto with falcone]
  end.

Ltac from_step :=
  match goal with
  | |- from _ (query_db _ ≫= _) => apply (from_query _); intros ?
  | |- from _ (findById_plan _ ≫= _) => apply (from_query _); intros ?
  | |- from _ (_ ≫= _) => apply (from_quiet _); [solve [quiet_tac]|intros ?]
  | |- from _ (match ?x with _ => _ end) => destruct x eqn:?
  | |- from _ (if ?x then _ else _) => destruct x eqn:?
  | |- from _ _ => apply (from_any _), catalogue_quiet; solve [quiet_tac]
  end.

Lemma create_plan_moves m : moves (create_plan m).
Proof.
  unfold create_plan. repeat moves_step. apply (from_true _), (gov_exec_err _). intros db x _. apply insert_plan_step.
Qed.

Lemma update_details_moves id u : moves (update_plan_details id u).
Proof.
  unfold update_plan_details. apply (from_true _). repeat from_step.
  apply from_last; [apply update_from|intros ?; repeat moves_step].
  intros db [_ Hf]. eexists. split; [done|]. by split_and!; try left.
Qed.

Lemma refuse_assigned_ok id t (w : gworld) u w' : refuse_assigned id t w = (Ok u, w') ->
  w' = w /\ (t = "archived" -> current_tenants id (w_db w) = []).
Proof.
  unfold refuse_assigned. destruct (String.eqb_spec t "archived") as [->|]; [|by intros [= _ <-]].
  intros H. apply M_bind_ok in H as (ts & w1 & [= <- <-] & H). destruct (current_tenants id (w_db w)) eqn:E; [|done].
  by injection H as _ <-.
Qed.

Lemma transition_moves id t : moves (transitionStatus id t).
Proof.
  unfold transitionStatus. apply (from_true _). from_step. destruct a as [p|]; [|from_step].
  destruct (plan_canTransition (pl_status p) t) eqn:Ht; cbn [negb]; [|from_step].
  apply (from_bind _ _ (fun _ db => find_plan id db = Some p /\ (t = "archived" -> current_tenants id db = [])));
    [apply (from_any _); moves_step|by intros w u w' [_ Hf] [-> Hc]%refuse_assigned_ok|intros _].
  from_step. apply from_last; [|intros ?; repeat moves_step].
  apply update_from. intros db [Hf Hc]. exists p. split; [done|]. split_and!; try done. by right.
Qed.

Lemma delete_moves id : moves (deleteNeverAssigned id).
Proof.
  unfold deleteNeverAssigned. repeat moves_step.
  apply (from_true _), (gov_exec_ok _). intros db _. apply delete_step.
Qed.

Lemma set_limit_moves id key v t g a c : moves (setLimit id key v t g a c).
Proof.
  unfold setLimit. apply (from_true _), (from_transaction _). repeat from_step.
  apply from_last; [|intros ?; repeat moves_step].
  apply update_from. intros db [_ Hf]. eexists. split; [done|]. by split_and!; try left.
Qed.

Lemma getDefaultValue_quiet key : quiet (getDefaultValue key).
Proof. unfold getDefaultValue. quiet_tac. Qed.
#[local] Hint Resolve getDefaultValue_quiet : falcone.

Lemma remove_limit_moves id key a c : moves (removeLimit id key a c).
Proof.
  unfold removeLimit. apply (from_true _), (from_transaction _). repeat from_step.
  apply from_last; [|intros ?; repeat moves_step].
  apply update_from. intros db [_ Hf]. eexists. split; [done|]. by split_and!; try left.
Qed.

Lemma active_catalog_quiet : quiet active_catalog.
Proof. unfold active_catalog. quiet_tac. Qed.
#[local] Hint Resolve active_catalog_quiet : falcone.
Lemma validate_keys_quiet ks : quiet (validateCapabilityKeys ks).
Proof. unfold validateCapabilityKeys. quiet_tac. Qed.
#[local] Hint Resolve validate_keys_quiet : falcone.

Lemma append_changes_moves a id c b cs : moves (append_capability_changes a id c b cs).
Proof. unfold append_capability_changes. repeat moves_step. Qed.
#[local] Hint Resolve append_changes_moves : falcone.

Lemma set_capabilities_moves id s a c : moves (setCapabilities id s a c).
Proof.
  unfold setCapabilities. apply (from_true _), (from_transaction _). repeat from_step.
  apply from_last; [|intros ?; repeat moves_step].
  apply update_from. intros db [_ Hf]. eexists. split; [done|]. by split_and!; try left.
Qed.

(** The plan an assignment names is active. *)
Definition plan_active (id : string) (db : gov_db) : Prop := exists p, find_plan id db = Some p /\ pl_status p = "active".

Lemma supersede_insert_from p md : from (plan_active (ai_plan_id p)) (supersedeAndInsertAssignment p md).
Proof.
  unfold supersedeAndInsertAssignment. from_step. from_step.
  apply (from_bind _ _ (fun _ => plan_active (ai_plan_id p))).
  - destruct a as [c|]; [|apply (from_any _); moves_step]. apply (gov_exec_ok _). intros db [_ Hc]. by eapply supersede_assignment_step.
  - intros w u w' [Hp _]. destruct a as [c|]; [by intros [= _ <-] | by intros [= _ <-]].
  - intros _. from_step. from_step. apply from_last; [|intros ?; repeat moves_step].
    apply (gov_exec_err _). intros db x (q & Hq & Hact). by eapply insert_assignment_step.
Qed.

Lemma insert_with_history_from p h : from (plan_active (ai_plan_id p)) (insertWithHistory p h).
Proof.
  unfold insertWithHistory. from_step. apply (from_transaction _). apply from_last; [apply supersede_insert_from|].
  intros [row previous]. repeat moves_step. apply (from_true _), (gov_exec_ok _). intros db _. apply insert_history_step.
Qed.

(** *** The actions *)

Lemma best_effort_quiet m : quiet m -> quiet (best_effort m).
Proof. intros H. unfold best_effort. apply quiet_try; [done | intros ?; apply gov_quiet_ret]. Qed.
Lemma emit_plan_quiet t c a tn p n : quiet (emit_plan_event t c a tn p n).
Proof. unfold emit_plan_event. quiet_tac. apply best_effort_quiet. quiet_tac. Qed.
Lemma emit_capability_quiet id sl a c ls cs : quiet (emit_capability_events id sl a c ls cs).
Proof. unfold emit_capability_events. quiet_tac. apply best_effort_quiet. quiet_tac. Qed.
Lemma emit_limit_quiet id k a c l v : quiet (emit_limit_updated id k a c l v).
Proof. unfold emit_limit_updated. quiet_tac. apply best_effort_quiet. quiet_tac. Qed.
Lemma emit_impact_quiet h a : quiet (emitChangeImpactRecorded h a).
Proof. unfold emitChangeImpactRecorded. quiet_tac. Qed.
Lemma valid_dimension_quiet' v : quiet (valid_dimension v).
Proof. unfold valid_dimension, getDimensionByKey. quiet_tac. Qed.
Lemma correlation_quiet v : quiet (correlation_of v).
Proof. unfold correlation_of. quiet_tac. Qed.
Lemma entitlements_quiet t id : quiet (resolveEffectiveEntitlements t id).
Proof. unfold resolveEffectiveEntitlements, findById_plan. quiet_tac. Qed.
Lemma usage_quiet t ks : quiet (collectObservedUsage t ks).
Proof.
  induction ks as [|k ks IH]; cbn [collectObservedUsage]; [apply gov_quiet_ret|].
  apply gov_quiet_bind; [unfold collect_one; quiet_tac|]. intros u. apply gov_quiet_bind; [done|]. intros us. apply gov_quiet_ret.
Qed.
#[local] Hint Resolve emit_plan_quiet emit_capability_quiet emit_limit_quiet emit_impact_quiet valid_dimension_quiet' correlation_quiet
  entitlements_quiet usage_quiet : falcone.
Lemma impact_quiet t id c : quiet (impact_of t id c).
Proof. unfold impact_of. quiet_tac. Qed.
Lemma ensure_tenant_quiet t : quiet (ensureTenantExists t).
Proof. unfold ensureTenantExists. quiet_tac. Qed.
Lemma getCurrent_quiet t : quiet (getCurrent t).
Proof. unfold getCurrent. quiet_tac. Qed.
#[local] Hint Resolve impact_quiet ensure_tenant_quiet getCurrent_quiet : falcone.
#[local] Hint Resolve create_plan_moves update_details_moves transition_moves delete_moves set_limit_moves remove_limit_moves
  set_capabilities_moves : falcone.

Lemma record_assignment_moves a q i c r p h : moves (record_assignment a q i c r p h).
Proof. unfold record_assignment. repeat moves_step. Qed.
#[local] Hint Resolve record_assignment_moves : falcone.

Lemma assign_moves actor q : moves (plan_assign_main actor q).
Proof.
  unfold plan_assign_main. moves_step; [|moves_step]. apply (from_true _). do 5 from_step.
  destruct a2 as [plan|]; [|from_step]. destruct (String.eqb_spec (pl_status plan) "active") as [Hact|]; cbn [negb]; [|from_step].
  do 3 from_step. apply from_last; [|intros [[row previous] h]; repeat moves_step].
  refine (from_weaken _ _ _ _ _ (insert_with_history_from _ _)). intros db [_ Hf]. by exists plan.
Qed.
#[local] Hint Resolve assign_moves : falcone.

Lemma serve_plan_moves r : moves (serve_plan r).
Proof.
  destruct r; cbn [serve_plan]; [unfold plan_create_main|unfold plan_update_main|unfold plan_delete_main|unfold plan_lifecycle_main
    |unfold limits_set_main|unfold limits_remove_main|unfold capability_set_main|apply assign_moves]; repeat moves_step.
Qed.

Lemma run_plans_moves rs : forall w, catalogue_step (w_db w) (w_db (run_plans rs w)).
Proof. induction rs as [|r rs IH]; intros w; cbn [run_plans]; [done|]. etrans; [apply serve_plan_moves | apply IH]. Qed.

(** *** What an assignment leaves *)

Lemma insert_assignment_ok a db b db' : insert_assignment a db = Ok (b, db') ->
  b = a /\ db' = set_assignments (g_assignments db ++ [a]) db /\ forall x, x ∈ g_assignments db -> as_id x <> as_id a.
Proof.
  unfold insert_assignment. intros H. apply result_bind_ok in H as (? & _ & H). apply result_bind_ok in H as (? & Hpk%throw_if_ok & H).
  apply result_bind_ok in H as (? & _ & H). apply result_bind_ok in H as (? & _ & [= <- <-]). split_and!; [done..|].
  intros y Hy E. apply not_true_iff_false in Hpk. apply Hpk, existsb_exists. exists y.
  split; [by apply list_elem_of_In | by apply String.eqb_eq].
Qed.

(** The assignments of others, and those of the tenant before. *)
Definition after_supersede (t : string) (at_ : Z) (db : gov_db) : gov_db :=
  match current_assignment t db with Some c => supersede_assignment (as_id c) at_ db | None => db end.

Lemma supersede_insert_ok p md (w : gworld) a prev w' : supersedeAndInsertAssignment p md w = (Ok (a, prev), w') ->
  exists at_, w_db w' = set_assignments (g_assignments (after_supersede (ai_tenant_id p) at_ (w_db w)) ++ [a]) (w_db w) /\
  (as_tenant_id a, as_plan_id a, as_assigned_by a, as_superseded_at a) = (ai_tenant_id p, ai_plan_id p, ai_assigned_by p, None) /\
  prev = as_plan_id <$> current_assignment (ai_tenant_id p) (w_db w) /\
  (forall x, x ∈ g_assignments (w_db w) -> as_id x <> as_id a).
Proof.
  unfold supersedeAndInsertAssignment. intros H. apply M_bind_ok in H as (c & w0 & [-> ->]%query_ok & H).
  apply M_bind_ok in H as (now & w1 & E1%(quiet_ok _ _ _ _ quiet_gov_now) & H). apply M_bind_ok in H as ([] & w2 & E2 & H).
  apply M_bind_ok in H as (id & w3 & E3%(quiet_ok _ _ _ _ gov_quiet_uuid) & H).
  apply M_bind_ok in H as (stored & w4 & E4%(quiet_ok _ _ _ _ (quiet_lift _)) & H).
  apply M_bind_ok in H as (row & w5 & Hi%exec_ok & [= <- <- <-]).
  exists now. apply insert_assignment_ok in Hi as (-> & -> & Hfresh). rewrite E4, E3 in Hfresh |- *.
  assert (Hdb : w_db w2 = after_supersede (ai_tenant_id p) now (w_db w)).
  { unfold after_supersede. destruct (current_assignment _ _) as [c|]; injection E2 as <-; cbn; by rewrite E1. }
  rewrite Hdb in Hfresh |- *. split_and!; [|done|done|].
  - unfold after_supersede. by destruct (current_assignment _ _).
  - intros x Hx E. unfold after_supersede in Hfresh. destruct (current_assignment _ _) as [c|]; [|by apply (Hfresh x)].
    apply (Hfresh (if String.eqb (as_id x) (as_id c) then superseded now x else x)); [|by destruct (String.eqb _ _)].
    apply list_elem_of_fmap. by exists x.
Qed.

(** Every entry of the change history is of an assignment. *)
Definition history_wf (db : gov_db) : Prop :=
  forall h, h ∈ g_history db -> exists a, a ∈ g_assignments db /\ as_id a = hr_assignment_id h.

Lemma insert_with_history_ok p h (w : gworld) a prev r w' : history_wf (w_db w) -> insertWithHistory p h w = (Ok (a, prev, r), w') ->
  exists at_, g_assignments (w_db w') = g_assignments (after_supersede (ai_tenant_id p) at_ (w_db w)) ++ [a] /\
  g_plans (w_db w') = g_plans (w_db w) /\ g_history (w_db w') = g_history (w_db w) ++ [r] /\
  (as_tenant_id a, as_plan_id a, as_assigned_by a, as_superseded_at a) = (ai_tenant_id p, ai_plan_id p, ai_assigned_by p, None) /\
  prev = as_plan_id <$> current_assignment (ai_tenant_id p) (w_db w) /\
  hr_previous_plan_id r = match hc_previous_plan_id h with Some p => Some p | None => prev end /\ hr_new_plan_id r = ai_plan_id p /\
  (hr_quota_impacts r, hr_capability_impacts r, hr_change_direction r) = (hc_quota_impacts h, hc_capability_impacts h, hc_change_direction h).
Proof.
  unfold insertWithHistory. intros Hh H. apply M_bind_ok in H as (md & w0 & E0%(quiet_ok _ _ _ _ (quiet_lift _)) & H%in_transaction_ok).
  apply M_bind_ok in H as ([a' prev'] & w1 & Hs & H).
  apply M_bind_ok in H as (id & w3 & E3%(quiet_ok _ _ _ _ gov_quiet_uuid) & H).
  apply M_bind_ok in H as (stored & w4 & E4%(quiet_ok _ _ _ _ (quiet_lift _)) & H).
  apply M_bind_ok in H as (entry & w5 & E5 & H). apply M_bind_ok in H as (row & w6 & E6 & [= <- <- <- <-]).
  apply supersede_insert_ok in Hs as (at_ & Hdb & Ha & Hprev & Hfresh). rewrite E0 in *.
  assert (Hm : history_model id a' prev' stored h = Ok entry /\ w_db w5 = w_db w1)
    by (unfold lift in E5; injection E5 as -> <-; split; [done | congruence]).
  destruct Hm as [Hm Hw5]. clear E5. unfold exec_db in E6. rewrite Hw5, Hdb in E6.
  unfold history_model in Hm. repeat (case_match; [done|]). injection Hm as <-.
  unfold insert_history in E6. cbn [hr_assignment_id g_history set_assignments] in E6.
  destruct (List.find _ _) as [x|] eqn:Hf.
  - exfalso. apply List.find_some in Hf as [Hx E%String.eqb_eq]. apply list_elem_of_In in Hx. destruct (Hh x Hx) as (b & Hb & Eb).
    apply (Hfresh b Hb). congruence.
  - injection E6 as <- <-. exists at_. injection Ha as A1 A2 A3 A4. cbn. rewrite A1, A2, A3, A4. by split_and!.
Qed.

Lemma answering_ok {A} table (m : gact A) (w : gworld) a w' : answering table m w = (Ok a, w') -> m w = (Ok a, w').
Proof. unfold answering, try_catch. by destruct (m w) as [[b|e] w'']. Qed.

(** The same tables but for the audit log. *)
Definition but_audit (db db' : gov_db) : Prop := set_audit [] db' = set_audit [] db.
#[local] Instance but_audit_refl : Reflexive but_audit.
Proof. done. Qed.
#[local] Instance but_audit_trans : Transitive but_audit.
Proof. unfold but_audit. intros a b c ? ?. congruence. Qed.

Lemma append_but_audit ev b : evolves but_audit (appendPlanAudit ev b).
Proof. intros w. destruct (append_logged ev b w) as [rows ->]. done. Qed.

Lemma quiet_but_audit {A} (m : gact A) : quiet m -> evolves but_audit m.
Proof. intros Hq. exact (evolves_quiet _ m Hq). Qed.

Lemma record_but_audit a q i c r p h : evolves but_audit (record_assignment a q i c r p h).
Proof.
  unfold record_assignment. destruct p;
    repeat first [apply append_but_audit | apply quiet_but_audit; solve [quiet_tac] | apply (evolves_bind _); [|intros ?]].
Qed.

Lemma assign_ok actor q (w : gworld) resp w' : history_wf (w_db w) -> plan_assign_main actor q w = (Ok resp, w') ->
  exists u plan a prev r at_, actor = Some u /\ ga_type u = "superadmin" /\
  find_plan (aq_plan q) (w_db w) = Some plan /\ pl_status plan = "active" /\
  g_assignments (w_db w') = g_assignments (after_supersede (aq_tenant q) at_ (w_db w)) ++ [a] /\
  g_plans (w_db w') = g_plans (w_db w) /\ g_history (w_db w') = g_history (w_db w) ++ [r] /\
  (as_tenant_id a, as_plan_id a, as_assigned_by a, as_superseded_at a) = (aq_tenant q, aq_plan q, aq_assigned_by q, None) /\
  prev = as_plan_id <$> current_assignment (aq_tenant q) (w_db w) /\
  (hr_previous_plan_id r = prev \/ exists p, hr_previous_plan_id r = Some p) /\ hr_new_plan_id r = aq_plan q /\
  js_get (res_body resp) "previousPlanId" = jstr_opt prev.
Proof.
  unfold plan_assign_main. intros Hh H%answering_ok.
  apply M_bind_ok in H as (? & w1 & E1%(quiet_ok _ _ _ _ gov_quiet_now) & H).
  apply M_bind_ok in H as (u & w2 & E2 & H). case_match; [done|].
  apply M_bind_ok in H as ([] & w3 & E3%(quiet_ok _ _ _ _ (ensure_tenant_quiet _)) & H).
  apply M_bind_ok in H as (found & w4 & [-> ->]%query_ok & H). destruct (find_plan _ _) as [plan|] eqn:Hf; [|done].
  destruct (String.eqb_spec (pl_status plan) "active") as [Hact|]; [|done]. cbn [negb] in H.
  apply M_bind_ok in H as (cur & w5 & E5%(quiet_ok _ _ _ _ (getCurrent_quiet _)) & H).
  apply M_bind_ok in H as (i & w6 & E6%(quiet_ok _ _ _ _ (impact_quiet _ _ _)) & H).
  apply M_bind_ok in H as (cid & w7 & E7%(quiet_ok _ _ _ _ (correlation_quiet _)) & H).
  apply M_bind_ok in H as ([[a prev] r] & w8 & Hi & H). apply M_bind_ok in H as ([] & w9 & Hr & [= <- <-]).
  assert (Hu : w_db w2 = w_db w1 /\ actor = Some u /\ ga_type u = "superadmin").
  { unfold lift in E2. injection E2 as E2 <-. split; [done|]. unfold requireSuperadmin in E2. destruct actor as [v|]; [|done].
    destruct (nonempty (ga_id v) && _) eqn:Hs; [|done]. injection E2 as <-. apply andb_true_iff in Hs as [_ Hs%String.eqb_eq]. done. }
  destruct Hu as (Eu & -> & Hsu). assert (Ew : w_db w7 = w_db w) by congruence.
  rewrite E3, Eu, E1 in Hf. apply insert_with_history_ok in Hi as (at_ & A & P & Hist & Fa & Hprev & Hp1 & Hp2 & _); [|by rewrite Ew].
  pose proof (record_but_audit (ga_id u) q i cid a prev r w8) as Hba. rewrite Hr in Hba. cbn [snd] in Hba. unfold but_audit in Hba.
  pose proof (f_equal g_assignments Hba) as B1. pose proof (f_equal g_plans Hba) as B2. pose proof (f_equal g_history Hba) as B3. cbn in B1, B2, B3.
  rewrite B1, B2, B3. rewrite Ew in *. cbn in A, P, Hist, Fa, Hprev, Hp1, Hp2.
  exists u, plan, a, prev, r, at_. split_and!; try done.
  rewrite Hp1. destruct (option_map _ cur); [right; by eexists | by left].
Qed.

End steps.

Section theorems.
Context `{PL : !Platform, GE : !GovEnv}.

(** C13: The catalogue.  Whatever requests to create, change, limit, move, delete
    and assign plans are served, in any order: ids and slugs stay unique, a
    tenant has one current assignment, and it is to a plan that is active or
    deprecated; a plan keeps its id, slug and creation, its status only moves
    forward, and it is deleted only when nobody was ever assigned to it;
    assignments are never lost and final once superseded; overrides, sub-quotas
    and catalogues stay; the history and the audit log only grow (an audit event
    of a deleted plan loses its reference), and the hash chain stays intact. *)
Theorem plan_catalogue_lifecycle rs (w : gworld) : plans_wf (w_db w) ->
  let db := w_db w in let db' := w_db (run_plans rs w) in
  plans_wf db' /\
  (forall p, p ∈ g_plans db ->
     (exists p', p' ∈ g_plans db' /\ plan_le p p') \/ (forall a, a ∈ g_assignments db -> as_plan_id a <> pl_id p)) /\
  (forall a, a ∈ g_assignments db -> exists a', a' ∈ g_assignments db' /\ assignment_le a a') /\
  (g_catalog db', g_overrides db', g_sub_quotas db', g_capabilities db')
    = (g_catalog db, g_overrides db, g_sub_quotas db, g_capabilities db) /\
  g_history db `prefix_of` g_history db' /\
  (exists l rows, g_audit db' = l ++ rows /\ Forall2 audit_le (g_audit db) l) /\
  (digest_nonempty -> jsonb_keeps -> log_chained db -> log_chained db').
Proof.
  intros Hw. cbv zeta. destruct (run_plans_moves rs w Hw) as (Hw' & [Q1 Q2 Q3 Q4 Q5] & Hc).
  split_and!; try done. intros a Ha. by eapply prefix_forall2_elem.
Qed.

Lemma assignments_of_others t at_ db b : plans_wf db -> as_tenant_id b <> t ->
  b ∈ g_assignments (after_supersede t at_ db) <-> b ∈ g_assignments db.
Proof.
  intros Hw Hb. unfold after_supersede. destruct (current_assignment t db) as [c|] eqn:Hc; [|done].
  apply current_assignment_some in Hc as (Hc & Ht & _). cbn. rewrite list_elem_of_fmap. split.
  - intros (x & E & Hx). destruct (String.eqb_spec (as_id x) (as_id c)) as [Ei|]; subst b; [|done]. exfalso. apply Hb. cbn.
    by rewrite (elem_by_key as_id (g_assignments db) x c (pw_assignment_ids db Hw)).
  - intros Hin. exists b. destruct (String.eqb_spec (as_id b) (as_id c)) as [Ei|]; [|done]. exfalso. apply Hb.
    by rewrite (elem_by_key as_id (g_assignments db) b c (pw_assignment_ids db Hw)).
Qed.

(** C14: An assigned plan governs.  When an assignment is answered, a superadmin
    asked for it and the plan was active; afterwards the tenant is on that plan
    and no other, so that its limits come from it; the assignment before, if any,
    is named in the answer; every other tenant is on the plan it was on; the
    catalogue is unchanged and the change history has one entry more. *)
Theorem assigned_plan_governs actor q (w : gworld) resp w' :
  plans_wf (w_db w) -> history_wf (w_db w) -> plan_assign_main actor q w = (Ok resp, w') ->
  (exists u, actor = Some u /\ ga_type u = "superadmin") /\
  exists plan r, find_plan (aq_plan q) (w_db w) = Some plan /\ pl_status plan = "active" /\
    (forall p, on_plan (aq_tenant q) (w_db w') p <-> p = plan) /\
    (forall t p, t <> aq_tenant q -> on_plan t (w_db w') p <-> on_plan t (w_db w) p) /\
    js_get (res_body resp) "previousPlanId" = jstr_opt (as_plan_id <$> current_assignment (aq_tenant q) (w_db w)) /\
    g_plans (w_db w') = g_plans (w_db w) /\ g_history (w_db w') = g_history (w_db w) ++ [r] /\ hr_new_plan_id r = aq_plan q.
Proof.
  intros Hw Hh H. pose proof (assign_moves actor q w Hw) as (Hw' & _ & _). rewrite H in Hw'. cbn [snd] in Hw'.
  destruct (assign_ok actor q w resp w' Hh H)
    as (u & plan & a & prev & r & at_ & -> & Hu & Hf & Hact & A & P & Hist & [= F1 F2 F3 F4] & -> & _ & Hnew & Hresp).
  split; [by exists u|]. exists plan, r. split_and!; try done.
  - assert (Ha : a ∈ g_assignments (w_db w')) by (rewrite A; apply elem_of_app; right; by left).
    intros p. split.
    + intros (b & Hb & Tb & Sb & Hp). assert (b = a) as -> by (apply (pw_current _ Hw'); congruence).
      rewrite P, F2 in Hp. unfold find_plan in Hf. congruence.
    + intros ->. exists a. split_and!; try done. by rewrite P, F2.
  - intros t p Ht. unfold on_plan. rewrite P, A.
    split; intros (b & Hb & Tb & Sb & Hp); exists b; split_and!; try done.
    + apply elem_of_app in Hb as [Hb| ->%list_elem_of_singleton]; [|congruence].
      apply assignments_of_others in Hb; [done..|congruence].
    + apply elem_of_app. left. apply assignments_of_others; [done|congruence|done].
Qed.

End theorems.
(** ** A sample catalogue *)

Definition sample_plan_params : jsval :=
  JObj [("slug", JStr " Pro "); ("displayName", JStr "Pro"); ("capabilities", JObj []); ("quotaDimensions", JObj [])].

Definition sample_assign (tenant plan : string) : assign_request := mk_assign_request tenant plan "ada" (JObj []).

(** A draft is made, assigned too early, activated, filled in and assigned; then
    it is deprecated, archived too early, and a plan in use is deleted. *)
Definition sample_plan_requests : list plan_request :=
  [PlanCreate sample_superadmin sample_plan_params;
   PlanAssign sample_superadmin (sample_assign "t1" "id-0");
   PlanLifecycle sample_superadmin "id-0" "active" (JObj []);
   PlanCapabilitySet sample_superadmin "id-0" (JObj [("capabilities", JObj [("realtime", JBool true)])]);
   PlanLimitsSet sample_superadmin "id-0" (JObj [("dimensionKey", JStr "max_workspaces"); ("value", jint 3);
                                                 ("quotaType", JStr "soft"); ("graceMargin", jint 1)]);
   PlanAssign sample_superadmin (sample_assign "t1" "id-0");
   PlanLifecycle sample_superadmin "id-0" "deprecated" (JObj []);
   PlanLifecycle sample_superadmin "id-0" "archived" (JObj []);
   PlanDelete sample_superadmin "p1" (JObj [])].

Lemma sample_plans_wf : plans_wf sample_gov_db.
Proof.
  constructor; cbn.
  - repeat constructor; by intros ?%elem_of_nil.
  - repeat constructor; by intros ?%elem_of_nil.
  - intros p ->%list_elem_of_singleton. right. by left.
  - repeat constructor; by intros ?%elem_of_nil.
  - by intros a b ->%list_elem_of_singleton ->%list_elem_of_singleton.
  - intros a ->%list_elem_of_singleton. exists sample_plan. split; [by left | done].
  - intros a p _ _ ->%list_elem_of_singleton _. by left.
Qed.

#[local] Existing Instance sample_gov_platform.
#[local] Existing Instance sample_gov_env.

Lemma plan_catalogue_lifecycle_witness :
  let db' := w_db (run_plans sample_plan_requests sample_gov_world) in
  (fun p => (pl_slug p, pl_status p, pl_quota_dimensions p)) <$> g_plans db'
    = [("starter", "active", [("max_workspaces", jint 5)]); ("pro", "deprecated", [("max_workspaces", jint 3)])] /\
  (fun a => (as_plan_id a, bool_decide (as_superseded_at a = None))) <$> g_assignments db' = [("p1", false); ("id-0", true)] /\
  plans_wf db' /\ log_chained db'.
Proof.
  pose proof (plan_catalogue_lifecycle sample_plan_requests sample_gov_world sample_plans_wf) as (H1 & _ & _ & _ & _ & _ & H2).
  split; [by vm_compute|]. split; [by vm_compute|]. split; [exact H1|].
  apply H2; [intros s; by cbn | exact sample_jsonb_keeps | by apply chained_empty].
Defined.

(** The sample service with a second, active plan. *)
Definition sample_two_plans : gworld :=
  mk_world (set_plans [sample_plan; mk_plan_row "p2" "pro" "Pro" None "active" [] [("max_workspaces", jint 3)] [] 0 0 "ada" "ada"]
              sample_gov_db) 0 0 0 [].

Lemma sample_two_plans_wf : plans_wf (w_db sample_two_plans).
Proof.
  constructor; cbn.
  - repeat constructor; set_solver.
  - repeat constructor; set_solver.
  - intros p [->| ->%list_elem_of_singleton]%elem_of_cons; right; by left.
  - repeat constructor; by intros ?%elem_of_nil.
  - by intros a b ->%list_elem_of_singleton ->%list_elem_of_singleton.
  - intros a ->%list_elem_of_singleton. exists sample_plan. split; [by left | done].
  - intros a p _ _ [->| ->%list_elem_of_singleton]%elem_of_cons _; by left.
Qed.

Definition sample_assigned : result js_error response * gworld :=
  plan_assign_main sample_superadmin (sample_assign "t1" "p2") sample_two_plans.

Lemma sample_assigned_ok :
  exists resp, plan_assign_main sample_superadmin (sample_assign "t1" "p2") sample_two_plans = (Ok resp, sample_assigned.2).
Proof. vm_compute. by eexists. Qed.

Lemma sample_history_wf : history_wf (w_db sample_two_plans).
Proof. intros h. cbn. by intros ?%elem_of_nil. Qed.

Lemma assigned_plan_governs_witness :
  (exists p, on_plan "t1" (w_db sample_assigned.2) p /\ pl_slug p = "pro") /\
  (hr_change_direction <$> g_history (w_db sample_assigned.2)) = ["downgrade"] /\
  (hr_over_limit <$> g_history (w_db sample_assigned.2)) = [1%nat].
Proof.
  split; [|by vm_compute]. destruct sample_assigned_ok as [resp E].
  destruct (assigned_plan_governs sample_superadmin (sample_assign "t1" "p2") sample_two_plans resp sample_assigned.2 sample_two_plans_wf sample_history_wf E) as (_ & p & r & Hf & _ & Hon & _).
  clear E. exists p. split; [by apply Hon|]. vm_compute in Hf. injection Hf as <-. done.
Defined.
