(* ===== verification/PgTable.v ===== *)
(** * Requests to the PostgreSQL data API, made regular

    The first half of src/packages/adapters/src/postgresql-data-api.mjs: names,
    tables, selections, orders, filters, keys and values, and who may do what.
    What the calling service says of a table, its relations, grants and policies
    is a record; what a client sends is a JavaScript value. *)
From S2P Require Import Prelude JsValue Json Regex.
From Stdlib Require Import Ascii.
Local Open Scope Z_scope.

(** ** JavaScript *)

Definition js_type_error : js_error := plain_error "TypeError".

(** [items.map(f)], where [f] may throw. *)
Section traverse.
Context {A B : Type} (f : A -> result js_error B).
Fixpoint traverse (l : list A) : result js_error (list B) :=
  match l with
  | [] => Ok []
  | x :: l' => match f x with
               | Err e => Err e
               | Ok y => match traverse l' with Err e => Err e | Ok ys => Ok (y :: ys) end
               end
  end.
End traverse.

(** An argument whose default is [{}]; [null] has no members. *)
Definition object_param (v : jsval) : result js_error jsval :=
  match v with JUndef => Ok (JObj []) | JNull => Err js_type_error | _ => Ok v end.

(** The elements of [v ?? []] that [map] visits. *)
Definition elements_of (v : jsval) : result js_error (list jsval) :=
  match v with JUndef | JNull => Ok [] | JArr xs => Ok xs | _ => Err js_type_error end.

Definition indexed (xs : list jsval) : list (string * jsval) :=
  zip (show_Z <$> (Z.of_nat <$> seq 0 (length xs))) xs.

(** [Object.entries(v)] *)
Definition entries_list (v : jsval) : result js_error (list (string * jsval)) :=
  match v with
  | JUndef | JNull => Err js_type_error
  | JObj kvs => Ok kvs
  | JArr xs => Ok (indexed xs)
  | JStr s => Ok (indexed ((fun c => JStr (of_chars [c])) <$> chars s))
  | _ => Ok []
  end.

(** [Object.fromEntries(entries)] *)
Definition from_entries (kvs : list (string * jsval)) : list (string * jsval) :=
  foldl (fun acc kv => assoc_set kv.1 kv.2 acc) [] kvs.

Definition OBJECT_PROTOTYPE : list string :=
  ["constructor"; "hasOwnProperty"; "isPrototypeOf"; "propertyIsEnumerable"; "toLocaleString"; "toString"; "valueOf"].

(** [key in object], for the names that an identifier can be. *)
Definition js_in (key : string) (kvs : list (string * jsval)) : bool :=
  has_own (JObj kvs) key || str_in key OBJECT_PROTOTYPE.

(** [String(v).trim().toLowerCase()] *)
Definition lower_trim (v : jsval) : string := to_lower_case (trim (js_to_string v)).

(** ** Names *)

Definition IDENTIFIER_PATTERN : re :=
  RSeq (RCls (fun c => is_upper c || is_lower c)) (rupto 62 (RCls is_word)).

Definition DATA_SLUG_PATTERN : re :=
  RSeq (RCls is_lower) (rupto 62 (RCls (fun c => is_lower c || is_digit c || Ascii.eqb c "_" || Ascii.eqb c "-"))).

(** [unique], on strings *)
Definition unique (l : list string) : list string :=
  foldl (fun acc s => if negb (nonempty s) || str_in s acc then acc else acc ++ [s]) [] l.

Definition compactDefined (kvs : list (string * jsval)) : list (string * jsval) :=
  List.filter (fun kv => negb (is_undef kv.2)) kvs.

Definition normalizeIdentifier (v : jsval) (fieldName : string) : result js_error string :=
  match v with
  | JStr s =>
      let normalized := trim s in
      if re_test_full IDENTIFIER_PATTERN normalized then Ok normalized
      else Err (plain_error (fieldName +:+ " must match /^[A-Za-z][A-Za-z0-9_]{0,62}$/. Received " +:+ s +:+ "."))
  | _ => Err (plain_error (fieldName +:+ " must be a string."))
  end.

Definition normalizeDataSlug (v : jsval) (fieldName : string) : result js_error string :=
  match v with
  | JStr s =>
      let normalized := to_lower_case (trim s) in
      if re_test_full DATA_SLUG_PATTERN normalized then Ok normalized
      else Err (plain_error (fieldName +:+ " must match /^[a-z][a-z0-9_-]{0,62}$/. Received " +:+ s +:+ "."))
  | _ => Err (plain_error (fieldName +:+ " must be a string."))
  end.

(** ** Tables *)

Record column_in := mk_column_in { ci_name : string; ci_nullable : bool; ci_type : option string; ci_json : bool; ci_pk : bool }.

Record column := mk_column {
  co_name : string;
  co_nullable : bool;
  co_type : option string;
  co_json : bool;
  co_pk : bool
}.

(** A policy of row-level security: the predicate is [runtimePredicate ?? matcher]. *)
Record matcher := mk_matcher { mt_kind : string; mt_session : option string; mt_column : option string }.
Record rls_policy := mk_policy { po_command : option string; po_roles : option (list string); po_matcher : option matcher }.

Record grant := mk_grant { gr_role : string; gr_schema : string; gr_object : option string; gr_privileges : option (list string) }.

(** What is known of a table besides its shape. *)
Record access := mk_access {
  ac_schema_grants : list grant;
  ac_object_grants : list grant;
  ac_rls : option bool;
  ac_policies : list rls_policy
}.

Record relation_in := mk_relation_in {
  ri_name : string;
  ri_type : option string;
  ri_source : string;
  ri_target : string;
  ri_exposed : bool;
  ri_access : access
}.

Inductive table_in := mk_table_in (schema name : string) (columns : list column_in) (primaryKey : option (list string))
  (relations : list (relation_in * table_in)).

Record relation_head := mk_relation_head {
  rh_name : string;
  rh_type : string;
  rh_source : string;
  rh_target : string;
  rh_exposed : bool;
  rh_access : access
}.

Inductive table := mk_table (schema name : string) (columns : list column) (primaryKey : list string)
  (relations : list (relation_head * table)).

Definition tb_schema (t : table) : string := match t with mk_table s _ _ _ _ => s end.
Definition tb_name (t : table) : string := match t with mk_table _ n _ _ _ => n end.
Definition tb_columns (t : table) : list column := match t with mk_table _ _ cs _ _ => cs end.
Definition tb_pk (t : table) : list string := match t with mk_table _ _ _ pk _ => pk end.
Definition tb_relations (t : table) : list (relation_head * table) := match t with mk_table _ _ _ _ rs => rs end.

(** [/json/i.test(displayName ?? '')] *)
Definition names_json (type : option string) : bool := re_test (rlit_ci "json") (default "" type).

Definition normalizeColumnDefinition (c : column_in) : result js_error column :=
  name ← normalizeIdentifier (JStr (ci_name c)) "columnName";
  Ok (mk_column name (ci_nullable c) (ci_type c) (ci_json c || names_json (ci_type c)) (ci_pk c)).

(** [columnMap.get(name)]: the last column of a name counts. *)
Definition find_column (name : string) (cs : list column) : option column :=
  List.find (fun c => String.eqb (co_name c) name) (List.rev cs).

Definition POSTGRES_DATA_RELATION_TYPES : list string := ["one_to_one"; "many_to_one"; "one_to_many"].

(** [normalizeRelationDefinition], without its target. *)
Definition normalize_relation_head (r : relation_in) (sourceSchema sourceTable : string) : result js_error relation_head :=
  name ← normalizeIdentifier (JStr (ri_name r)) "relationName";
  let type := default "many_to_one" (ri_type r) in
  if negb (str_in type POSTGRES_DATA_RELATION_TYPES)
  then Err (plain_error ("Unsupported relationType " +:+ type +:+ " on " +:+ sourceSchema +:+ "." +:+ sourceTable +:+ "." +:+ name +:+ "."))
  else
    source ← normalizeIdentifier (JStr (ri_source r)) "relation.sourceColumn";
    target ← normalizeIdentifier (JStr (ri_target r)) "relation.targetColumn";
    Ok (mk_relation_head name type source target (ri_exposed r) (ri_access r)).

Fixpoint normalizeTableDefinition (t : table_in) : result js_error table :=
  match t with
  | mk_table_in schema name columns pk relations =>
      schemaName ← normalizeIdentifier (JStr schema) "schemaName";
      tableName ← normalizeIdentifier (JStr name) "tableName";
      cs ← traverse normalizeColumnDefinition columns;
      keys ← traverse (fun k => normalizeIdentifier (JStr k) "primaryKey column")
               (default (co_name <$> List.filter co_pk cs) pk);
      let primaryKey := unique keys in
      if bool_decide (cs = []) then Err (plain_error ("Table " +:+ schemaName +:+ "." +:+ tableName +:+ " must declare at least one column."))
      else if bool_decide (primaryKey = []) then Err (plain_error ("Table " +:+ schemaName +:+ "." +:+ tableName +:+ " must declare a primary key."))
      else match List.find (fun k => negb (bool_decide (is_Some (find_column k cs)))) primaryKey with
      | Some k => Err (plain_error ("Primary key column " +:+ k +:+ " is not present in " +:+ schemaName +:+ "." +:+ tableName +:+ "."))
      | None =>
          rels ← traverse (fun rt => h ← normalize_relation_head rt.1 schemaName tableName;
                                     target ← normalizeTableDefinition rt.2;
                                     Ok (h, target)) relations;
          Ok (mk_table schemaName tableName cs primaryKey rels)
      end
  end.

(** ** Selections, keys, orders, filters *)

Definition ensureColumn (t : table) (columnName : jsval) : result js_error column :=
  name ← normalizeIdentifier columnName "columnName";
  match find_column name (tb_columns t) with
  | Some c => Ok c
  | None => Err (plain_error ("Unknown column " +:+ name +:+ " on " +:+ tb_schema t +:+ "." +:+ tb_name t +:+ "."))
  end.

(** [s.split(',').map(trim).filter(Boolean)] *)
Definition comma_list (s : string) : list string := List.filter nonempty (trim <$> split_on "," s).

Definition normalizeSelect (select : jsval) (t : table) : result js_error (list string) :=
  let requested := match select with JArr xs => xs | JStr s => JStr <$> comma_list s | _ => [] end in
  match requested with
  | [] => Ok (co_name <$> tb_columns t)
  | _ => traverse (fun v => c ← ensureColumn t v; Ok (co_name c)) requested
  end.

(** The entries of an object, their keys read as columns. *)
Definition column_entries (v : jsval) (t : table) : result js_error (list (string * jsval)) :=
  entries ← entries_list v;
  kvs ← traverse (fun kv => c ← ensureColumn t (JStr kv.1); Ok (co_name c, kv.2)) entries;
  Ok (compactDefined (from_entries kvs)).

Definition normalizePrimaryKey (primaryKey : jsval) (t : table) : result js_error (list (string * jsval)) :=
  v ← object_param primaryKey;
  normalized ← column_entries v t;
  match List.find (fun k => negb (js_in k normalized)) (tb_pk t) with
  | Some k => Err (plain_error ("Missing primary key value for " +:+ k +:+ "."))
  | None => Ok normalized
  end.

Definition normalizeValues (values : jsval) (t : table) : result js_error (list (string * jsval)) :=
  normalized ← column_entries (coalesce values (JObj [])) t;
  match normalized with
  | [] => Err (plain_error ("Mutation payload for " +:+ tb_schema t +:+ "." +:+ tb_name t +:+ " cannot be empty."))
  | _ => Ok normalized
  end.

Record order_entry := mk_order { oe_column : string; oe_direction : string }.

Definition ORDER_DIRECTION_SET : list string := ["asc"; "desc"].

(** [const [columnName, rawDirection = 'asc'] = entry.split(':')] *)
Definition order_of_text (s : string) : jsval :=
  match split_on ":" s with
  | name :: direction :: _ => JObj [("columnName", JStr name); ("direction", JStr direction)]
  | [name] => JObj [("columnName", JStr name); ("direction", JStr "asc")]
  | [] => JObj []
  end.

Definition order_entry_of (t : table) (entry : jsval) : result js_error order_entry :=
  if nullish entry then Err js_type_error
  else
    c ← ensureColumn t (coalesce (js_get entry "columnName") (js_get entry "column"));
    let direction := lower_trim (coalesce (js_get entry "direction") (JStr "asc")) in
    if str_in direction ORDER_DIRECTION_SET then Ok (mk_order (co_name c) direction)
    else Err (plain_error ("Unsupported order direction " +:+ js_to_string (js_get entry "direction") +:+ " for " +:+ co_name c +:+ ".")).

(** The columns of the primary key break ties. *)
Definition with_primary_key (pk : list string) (order : list order_entry) : list order_entry :=
  foldl (fun acc k => if existsb (fun e => String.eqb (oe_column e) k) acc then acc else acc ++ [mk_order k "asc"]) order pk.

Definition normalizeOrder (order : jsval) (t : table) : result js_error (list order_entry) :=
  let requested := match order with JArr xs => xs | JStr s => order_of_text <$> comma_list s | _ => [] end in
  normalized ← traverse (order_entry_of t) requested;
  Ok (with_primary_key (tb_pk t) normalized).

Definition POSTGRES_DATA_FILTER_OPERATORS : list string :=
  ["eq"; "neq"; "gt"; "gte"; "lt"; "lte"; "in"; "like"; "ilike"; "between"; "is"; "json_contains"; "json_path_eq"].

Record data_filter := mk_filter { fi_column : string; fi_operator : string; fi_value : jsval; fi_path : list string }.

Definition normalize_filter (t : table) (f : jsval) : result js_error data_filter :=
  if nullish f then Err js_type_error
  else
    let operator := lower_trim (coalesce (js_get f "operator") (JStr "eq")) in
    if negb (str_in operator POSTGRES_DATA_FILTER_OPERATORS) then Err (plain_error ("Unsupported filter operator " +:+ operator +:+ "."))
    else
      c ← ensureColumn t (coalesce (js_get f "columnName") (js_get f "column"));
      if (String.eqb operator "json_contains" || String.eqb operator "json_path_eq") && negb (co_json c)
      then Err (plain_error ("Column " +:+ co_name c +:+ " is not JSON-capable."))
      else
        path ← elements_of (js_get f "path");
        Ok (mk_filter (co_name c) operator (js_get f "value") (unique ((fun p => trim (js_to_string p)) <$> path))).

Definition normalizeFilters (filters : jsval) (t : table) : result js_error (list data_filter) :=
  fs ← elements_of filters;
  traverse (normalize_filter t) fs.

Record relation_join := mk_join { jn_head : relation_head; jn_target : table; jn_select : list string }.

Definition normalize_join (t : table) (j : jsval) : result js_error relation_join :=
  if nullish j then Err js_type_error
  else
    name ← normalizeIdentifier (coalesce (js_get j "relationName") (js_get j "relation")) "join.relationName";
    match List.find (fun rt => String.eqb (rh_name rt.1) name) (tb_relations t) with
    | Some (h, target) =>
        if rh_exposed h then select ← normalizeSelect (js_get j "select") target; Ok (mk_join h target select)
        else Err (plain_error ("Relation " +:+ name +:+ " is not exposed on " +:+ tb_schema t +:+ "." +:+ tb_name t +:+ "."))
    | None => Err (plain_error ("Relation " +:+ name +:+ " is not exposed on " +:+ tb_schema t +:+ "." +:+ tb_name t +:+ "."))
    end.

Definition normalizeJoins (joins : jsval) (t : table) : result js_error (list relation_join) :=
  js ← elements_of joins;
  traverse (normalize_join t) js.
