(* ===== verification/PgSql.v ===== *)
(** * The SQL of the PostgreSQL data API

    The second half of src/packages/adapters/src/postgresql-data-api.mjs: who may
    run a command, and the clauses of a statement.  A builder appends the values
    it binds to a list and names them by their position in the text. *)
From S2P Require Import Prelude JsValue Json Regex WebhookKeys PgTable.
From Stdlib Require Import Ascii.
Local Open Scope Z_scope.

(** ** Text *)

Definition double_char (q : ascii) (s : string) : string :=
  of_chars (flat_map (fun c => if Ascii.eqb c q then [c; c] else [c]) (chars s)).

Definition quoteIdent (s : string) : string := quote +:+ double_char (ascii_of_N 34) s +:+ quote.
Definition quoteLiteral (s : string) : string := "'" +:+ double_char "'" s +:+ "'".
Definition qualifiedTableName (schema name : string) : string := quoteIdent schema +:+ "." +:+ quoteIdent name.

Definition line_feed : string := of_chars [ascii_of_N 10].

(** A builder over the values bound so far. *)
Notation build := (M (list jsval) js_error).

Definition pushValue (v : jsval) (cast : option string) : build string := fun values =>
  let values' := values ++ [v] in
  (Ok ("$" +:+ show_N (N.of_nat (length values')) +:+ match cast with Some c => "::" +:+ c | None => "" end), values').
Definition bind_value (v : jsval) : build string := pushValue v None.

Fixpoint map_build {A B} (f : A -> build B) (l : list A) : build (list B) :=
  match l with
  | [] => mret []
  | x :: l' => y ← f x; ys ← map_build f l'; mret (y :: ys)
  end.

(** ** Who may run a command *)

Definition lower_set (l : list string) : list string := (fun s => to_lower_case (trim s)) <$> l.

Definition command_privilege (command : string) : bool := str_in command ["select"; "insert"; "update"; "delete"].

Definition data_privilegeSatisfies (command : string) (privileges : option (list string)) : bool :=
  command_privilege command && str_in command (lower_set (default [] privileges)).

Definition policyAppliesToActor (p : rls_policy) (role command : string) : bool :=
  let applies := default "all" (po_command p) in
  if negb (String.eqb applies "all") && negb (String.eqb applies command) then false
  else let roles := default ["public"] (po_roles p) in str_in "public" roles || str_in role roles.

Definition grants_usage (a : access) (role schema : string) : bool :=
  existsb (fun g => String.eqb (gr_role g) role && String.eqb (gr_schema g) schema
                    && str_in "usage" (lower_set (default ["usage"] (gr_privileges g)))) (ac_schema_grants a).

Definition grants_command (a : access) (role command schema name : string) : bool :=
  existsb (fun g => String.eqb (gr_role g) role && String.eqb (gr_schema g) schema && bool_decide (gr_object g = Some name)
                    && data_privilegeSatisfies command (gr_privileges g)) (ac_object_grants a).

(** [allowed], which is also [visible]; [applicablePolicies] when it is given. *)
Record access_decision := mk_decision {
  ad_allowed : bool;
  ad_reason : string;
  ad_row_predicate : bool;
  ad_policies : list rls_policy
}.

(** [policy.runtimePredicate ?? policy.matcher ?? { ... }] *)
Definition matcher_of (p : rls_policy) : matcher :=
  default (mk_matcher "session_equals_row" (Some "tenantId") (Some "tenantId")) (po_matcher p).

Definition allows_all (p : rls_policy) : bool :=
  match po_matcher p with Some m => String.eqb (mt_kind m) "allow_all" | None => false end.

Definition session_value (session : jsval) (m : matcher) : jsval := js_get session (default "tenantId" (mt_session m)).

(** A policy that needs a session value the session does not have. *)
Definition lacks_session (session : jsval) (p : rls_policy) : bool :=
  String.eqb (mt_kind (matcher_of p)) "session_equals_row" && negb (truthy (session_value session (matcher_of p))).

(** [===] on the primitive values of rows and sessions. *)
Definition same_value (a b : jsval) : bool :=
  match a, b with
  | JNum x, JNum y => num_eqb x y
  | JArr _, _ | JObj _, _ => false
  | _, _ => jsval_eqb a b
  end.

(** [evaluateTenantPredicate] of [postgresql-governance-admin.mjs] *)
Definition evaluateTenantPredicate (p : rls_policy) (session row : jsval) : bool :=
  let m := matcher_of p in
  if String.eqb (mt_kind m) "allow_all" then true
  else if String.eqb (mt_kind m) "deny_all" then false
  else let s := session_value session m in
       let r := js_get row (default "tenantId" (mt_column m)) in
       truthy s && truthy r && same_value s r.

Definition refused (reason : string) (ps : list rls_policy) : access_decision := mk_decision false reason false ps.
Definition granted (reason : string) (ps : list rls_policy) : access_decision := mk_decision true reason false ps.

(** [evaluatePostgresDataApiAccess]: the row is known. *)
Definition evaluatePostgresDataApiAccess (role command schema name : string) (a : access) (session row : jsval) : access_decision :=
  if negb (grants_usage a role schema) || negb (grants_command a role command schema name) then refused "missing_grant" []
  else if bool_decide (ac_rls a = Some false) then granted "grant_only" []
  else let ps := List.filter (fun p => policyAppliesToActor p role command) (ac_policies a) in
       match ps with
       | [] => refused "no_applicable_rls_policy" []
       | _ => if existsb (fun p => evaluateTenantPredicate p session row) ps then granted "grant_and_rls_allow" []
              else refused "rls_filtered" []
       end.

(** [row] is [None] for [undefined]. *)
Definition evaluatePlanningAccess (role command schema name : string) (a : access) (session : jsval) (row : option jsval) : access_decision :=
  match row with
  | Some r => evaluatePostgresDataApiAccess role command schema name a session r
  | None =>
      if negb (grants_usage a role schema) || negb (grants_command a role command schema name) then refused "missing_grant" []
      else if bool_decide (ac_rls a = Some false) then granted "grant_only" []
      else
        let ps := List.filter (fun p => policyAppliesToActor p role command) (ac_policies a) in
        match ps with
        | [] => refused "no_applicable_rls_policy" []
        | _ =>
            if existsb allows_all ps then granted "grant_and_rls_allow" ps
            else if forallb (lacks_session session) ps then refused "missing_session_context" ps
            else mk_decision true "grant_and_rls_filter" true ps
        end
  end.

Definition no_role (what : string) (errors : list string) : js_error :=
  plain_error ("No effective role satisfies the PostgreSQL " +:+ what +:+ " (" +:+ JsValue.join ", " errors +:+ ").").

(** The first relation the role may not read. *)
Definition refused_relation (role : string) (session : jsval) (joins : list relation_join) : option string :=
  match List.find (fun j => negb (ad_allowed (evaluatePlanningAccess role "select" (tb_schema (jn_target j)) (tb_name (jn_target j))
                                             (rh_access (jn_head j)) session None))) joins with
  | Some j => Some (rh_name (jn_head j) +:+ ":" +:+ ad_reason (evaluatePlanningAccess role "select" (tb_schema (jn_target j))
                     (tb_name (jn_target j)) (rh_access (jn_head j)) session None))
  | None => None
  end.

Fixpoint resolve_role (roles : list string) (errors : list string) (command : string) (a : access) (session : jsval) (row : option jsval)
    (t : table) (joins : list relation_join) : result js_error (string * access_decision) :=
  match roles with
  | [] => Err (no_role "data API request" errors)
  | role :: roles' =>
      let d := evaluatePlanningAccess role command (tb_schema t) (tb_name t) a session row in
      if negb (ad_allowed d) then resolve_role roles' (errors ++ [role +:+ ":" +:+ ad_reason d]) command a session row t joins
      else match refused_relation role session joins with
           | Some e => resolve_role roles' (errors ++ [role +:+ ":" +:+ e]) command a session row t joins
           | None => Ok (role, d)
           end
  end.

Definition resolveEffectiveRole (roles : list string) := resolve_role roles [].

(** ** Conditions *)

Definition column_ref (alias name : string) : string := alias +:+ "." +:+ quoteIdent name.

Definition buildRlsClause (alias : string) (d : access_decision) (session : jsval) : build (option string) :=
  match ad_policies d with
  | [] => mret None
  | ps =>
      if existsb allows_all ps then mret None
      else
        fragments ← map_build (fun p =>
          let m := matcher_of p in
          if String.eqb (mt_kind m) "deny_all" then mret "FALSE"
          else if String.eqb (mt_kind m) "session_equals_row"
          then placeholder ← bind_value (session_value session m);
               mret (column_ref alias (default "tenantId" (mt_column m)) +:+ " = " +:+ placeholder)
          else throw (plain_error ("Unsupported runtime predicate kind " +:+ mt_kind m +:+ "."))) ps;
        mret (match fragments with [f] => Some f | _ => Some ("(" +:+ JsValue.join " OR " fragments +:+ ")") end)
  end.

Definition buildPrimaryKeyClause (alias : string) (primaryKey : list (string * jsval)) : build (list string) :=
  map_build (fun kv => placeholder ← bind_value kv.2; mret (column_ref alias kv.1 +:+ " = " +:+ placeholder)) primaryKey.

(** The operators that compare with one value. *)
Definition COMPARISONS : list (string * string) :=
  [("eq", "="); ("neq", "<>"); ("gt", ">"); ("gte", ">="); ("lt", "<"); ("lte", "<="); ("like", "LIKE"); ("ilike", "ILIKE")].

Definition filter_error (what : string) (f : data_filter) (how : string) : js_error :=
  plain_error (what +:+ " filters for " +:+ fi_column f +:+ " must " +:+ how).

Section clauses.
Context `{!NumberText}.

(** [JSON.stringify(v)], which leaves [undefined] as it is. *)
Definition stringify (v : jsval) : jsval := if is_undef v then JUndef else JStr (json_text v).

Definition buildFilterClause (alias : string) (f : data_filter) : build string :=
  let c := column_ref alias (fi_column f) in
  match assoc_lookup (fi_operator f) COMPARISONS with
  | Some op => placeholder ← bind_value (fi_value f); mret (c +:+ " " +:+ op +:+ " " +:+ placeholder)
  | None =>
      if String.eqb (fi_operator f) "between" then
        match fi_value f with
        | JArr [a; b] => lower ← bind_value a; upper ← bind_value b; mret (c +:+ " BETWEEN " +:+ lower +:+ " AND " +:+ upper)
        | _ => throw (filter_error "between" f "provide two boundary values.")
        end
      else if String.eqb (fi_operator f) "in" then
        match fi_value f with
        | JArr (x :: xs) => placeholders ← map_build bind_value (x :: xs); mret (c +:+ " IN (" +:+ JsValue.join ", " placeholders +:+ ")")
        | _ => throw (filter_error "in" f "provide at least one value.")
        end
      else if String.eqb (fi_operator f) "is" then
        match fi_value f with
        | JNull => mret (c +:+ " IS NULL")
        | JStr s => if String.eqb s "null" then mret (c +:+ " IS NULL")
                    else if String.eqb s "not_null" then mret (c +:+ " IS NOT NULL")
                    else throw (filter_error "is" f "use null or not_null.")
        | _ => throw (filter_error "is" f "use null or not_null.")
        end
      else if String.eqb (fi_operator f) "json_contains" then
        placeholder ← pushValue (stringify (fi_value f)) (Some "jsonb"); mret (c +:+ " @> " +:+ placeholder)
      else if String.eqb (fi_operator f) "json_path_eq" then
        match fi_path f with
        | [] => throw (filter_error "json_path_eq" f "provide a path.")
        | path =>
            segments ← map_build (fun s => pushValue (JStr s) (Some "text")) path;
            placeholder ← bind_value (JStr (js_to_string (fi_value f)));
            mret ("jsonb_extract_path_text(" +:+ c +:+ ", " +:+ JsValue.join ", " segments +:+ ") = " +:+ placeholder)
        end
      else throw (plain_error ("Unsupported filter operator " +:+ fi_operator f +:+ "."))
  end.

Definition buildFilterClauses (alias : string) (fs : list data_filter) : build (list string) := map_build (buildFilterClause alias) fs.

Definition upper_direction (e : order_entry) : string := if String.eqb (oe_direction e) "desc" then "DESC" else "ASC".

Definition buildOrderClause (alias : string) (order : list order_entry) : list string :=
  (fun e => column_ref alias (oe_column e) +:+ " " +:+ upper_direction e) <$> order.

(** ** Cursors *)

Definition serializePostgresDataApiCursor (payload : jsval) : string := canonicalBase64Url (utf8_bytes (json_text payload)).

(** What the decoder skips, and the alphabet it shares with base64. *)
Definition base64url_chars (s : string) : list ascii :=
  List.filter b64_class ((fun c => if Ascii.eqb c "+" then "-"%char else if Ascii.eqb c "/" then "_"%char else c) <$> chars s).

(** [buffer.toString('utf8')]; what is not an 8-bit character reads as the last one. *)
Fixpoint utf8_chars (bytes : list Z) : list ascii :=
  match bytes with
  | [] => []
  | b :: r =>
      if b <? 128 then ascii_of_N (Z.to_N b) :: utf8_chars r
      else match r with
           | c :: r' => if ((b =? 194) || (b =? 195)) && (128 <=? c) && (c <? 192)
                        then ascii_of_N (Z.to_N ((b - 192) * 64 + (c - 128))) :: utf8_chars r'
                        else ascii_of_N 255 :: utf8_chars r
           | [] => [ascii_of_N 255]
           end
  end.

Definition parsePostgresDataApiCursor (cursor : string) : result js_error jsval :=
  match json_parse (of_chars (utf8_chars (b64_decode (base64url_chars cursor)))) with
  | Some v => Ok v
  | None => Err (plain_error "SyntaxError")
  end.

Definition decode_cursor (cursor : jsval) : result js_error jsval :=
  match cursor with JStr s => parsePostgresDataApiCursor s | _ => Ok cursor end.

(** [new Map(entries.map((e) => [e.columnName, e.value])).get(column)] *)
Definition cursor_value (entries : list jsval) (column : string) : jsval :=
  match List.find (fun e => same_value (js_get e "columnName") (JStr column)) (List.rev entries) with
  | Some e => js_get e "value"
  | None => JUndef
  end.

(** Rows after the cursor, in the order of the columns. *)
Fixpoint buildComparator (alias : string) (value : string -> jsval) (order : list order_entry) : build string :=
  match order with
  | [] => mret "undefined"
  | e :: rest =>
      let c := column_ref alias (oe_column e) in
      let v := value (oe_column e) in
      p1 ← bind_value v;
      let beyond := c +:+ (if String.eqb (oe_direction e) "desc" then " < " else " > ") +:+ p1 in
      match rest with
      | [] => mret beyond
      | _ => p2 ← bind_value v; tail ← buildComparator alias value rest;
             mret ("(" +:+ beyond +:+ " OR (" +:+ c +:+ " = " +:+ p2 +:+ " AND " +:+ tail +:+ "))")
      end
  end.

Definition buildCursorClause (alias : string) (order : list order_entry) (cursor : jsval) : build (option string) :=
  if negb (truthy cursor) then mret None
  else
    decoded ← lift (decode_cursor cursor);
    entries ← lift (elements_of (js_get decoded "order"));
    if existsb nullish entries then throw js_type_error
    else match order with
         | [] => mret None
         | _ => clause ← buildComparator alias (cursor_value entries) order; mret (Some clause)
         end.

(** ** Joins *)

Definition buildJsonProjection (columns : list string) (alias : string) : string :=
  "jsonb_build_object(" +:+ JsValue.join ", " (flat_map (fun c => [quoteLiteral c; column_ref alias c]) columns) +:+ ")".

Record relation_summary := mk_summary {
  rs_name : string;
  rs_type : string;
  rs_schema : string;
  rs_table : string;
  rs_selection : list string;
  rs_rls : bool
}.

Record join_fragments := mk_fragments { jf_select : list string; jf_joins : list string; jf_relations : list relation_summary }.

Definition build_join (session : jsval) (role : string) (j : relation_join) : build (string * string * relation_summary) :=
  let h := jn_head j in
  let t := jn_target j in
  let relationAlias := rh_name h +:+ "_rel" in
  let lateralAlias := rh_name h +:+ "_json" in
  let d := evaluatePlanningAccess role "select" (tb_schema t) (tb_name t) (rh_access h) session None in
  if negb (ad_allowed d)
  then throw (plain_error ("Relation " +:+ rh_name h +:+ " is not available to effective role " +:+ role +:+ ": " +:+ ad_reason d +:+ "."))
  else
    rls ← buildRlsClause relationAlias d session;
    let condition := column_ref relationAlias (rh_target h) +:+ " = base." +:+ quoteIdent (rh_source h) in
    let wheres := JsValue.join " AND " (condition :: match rls with Some c => [c] | None => [] end) in
    let projection := buildJsonProjection (jn_select j) relationAlias in
    let from := "  FROM " +:+ qualifiedTableName (tb_schema t) (tb_name t) +:+ " AS " +:+ relationAlias +:+ line_feed +:+ "  WHERE " +:+ wheres +:+ line_feed in
    let clause :=
      if String.eqb (rh_type h) "one_to_many"
      then "LEFT JOIN LATERAL (" +:+ line_feed +:+ "  SELECT COALESCE(jsonb_agg(" +:+ projection +:+ "), '[]'::jsonb) AS data" +:+ line_feed +:+ from
           +:+ ") AS " +:+ lateralAlias +:+ " ON TRUE"
      else "LEFT JOIN LATERAL (" +:+ line_feed +:+ "  SELECT " +:+ projection +:+ " AS data" +:+ line_feed +:+ from +:+ "  LIMIT 1" +:+ line_feed
           +:+ ") AS " +:+ lateralAlias +:+ " ON TRUE" in
    mret (lateralAlias +:+ ".data AS " +:+ quoteIdent (rh_name h), clause,
          mk_summary (rh_name h) (rh_type h) (tb_schema t) (tb_name t) (jn_select j) (negb (bool_decide (ac_rls (rh_access h) = Some false)))).

Definition buildJoinFragments (session : jsval) (role : string) (joins : list relation_join) : build join_fragments :=
  fs ← map_build (build_join session role) joins;
  mret (mk_fragments ((fun f => f.1.1) <$> fs) ((fun f => f.1.2) <$> fs) ((fun f => f.2) <$> fs)).

End clauses.
