(* ===== verification/PgPlan.v ===== *)
(** * Plans of the PostgreSQL data API

    [buildPostgresDataApiPlan] of src/packages/adapters/src/postgresql-data-api.mjs
    for the five operations on rows; the other operations are in [PgBulk] and
    [PgSaved]. *)
From S2P Require Import Prelude JsValue Json Regex PgTable PgSql.
Local Open Scope Z_scope.

(** ** Requests and plans *)

Record argument_in := mk_argument_in { ag_name : option string; ag_type : option string; ag_required : bool }.

Record routine_in := mk_routine_in {
  rt_schema : string;
  rt_name : string;
  rt_signature : option string;
  rt_returns_set : bool;
  rt_exposed : bool;
  rt_result : option string;
  rt_arguments : list argument_in
}.

(** What the service fills in, and the members a client may fill in. *)
Record data_request := mk_request {
  rq_table : table_in;
  rq_routine : routine_in;
  rq_access : access;
  rq_session : jsval;
  rq_actor_role : option string;
  rq_effective_roles : list string;
  rq_row : option jsval;
  rq_members : jsval
}.

Definition member (r : data_request) (key : string) : jsval := js_get (rq_members r) key.

Record sql_text := mk_sql { sq_text : string; sq_values : list jsval }.

Record page_info := mk_page { pg_size : jsnum; pg_after : jsval; pg_example : string; pg_mode : string }.

Record batch_config := mk_batch { bt_requested : Z; bt_hard : Z; bt_applied : jsnum; bt_size : Z; bt_atomic : bool }.

(** What only some operations report. *)
Inductive plan_detail :=
| NoDetail
| RpcDetail (routine : string) (returnsSet : bool) (arguments : list (string * option string))
| BulkDetail (batch : batch_config) (rows : list (list (string * jsval)))
| ImportDetail (format mode : string) (batch : option batch_config)
| ExportDetail (format : string)
| KnnDetail (column metric operator : string) (topK : jsnum)
| SavedDetail (savedQueryId : string) (parameters : list string)
| EndpointDetail (slug path : string).

Record data_plan := mk_plan {
  pn_operation : string;
  pn_command : string;
  pn_role : string;
  pn_workspace : string;
  pn_database : string;
  pn_schema : string;
  pn_table : string;
  pn_selection : list string;
  pn_joins : list relation_summary;
  pn_filters : list data_filter;
  pn_order : list order_entry;
  pn_page : option page_info;
  pn_count : option sql_text;
  pn_reason : string;
  pn_rls : bool;
  pn_row_predicate : bool;
  pn_sql : sql_text;
  pn_mutation : option (list (string * jsval));
  pn_returning : list string;
  pn_settings : list (string * jsval);
  pn_detail : plan_detail
}.

(** ** What every operation reads *)

Definition POSTGRES_DATA_API_OPERATIONS : list string :=
  ["list"; "get"; "insert"; "update"; "delete"; "rpc"; "bulk_insert"; "bulk_update"; "bulk_delete"; "import"; "export";
   "saved_query_execute"; "stable_endpoint_invoke"; "knn_search"].

Definition commandForOperation (operation : string) : string :=
  if str_in operation ["list"; "get"; "export"; "saved_query_execute"; "stable_endpoint_invoke"; "knn_search"] then "select"
  else if String.eqb operation "rpc" then "execute"
  else if str_in operation ["bulk_insert"; "import"] then "insert"
  else if String.eqb operation "bulk_update" then "update"
  else if String.eqb operation "bulk_delete" then "delete"
  else operation.

Definition request_operation (r : data_request) : result js_error string :=
  let operation := lower_trim (coalesce (member r "operation") (JStr "list")) in
  if str_in operation POSTGRES_DATA_API_OPERATIONS then Ok operation
  else Err (plain_error ("Unsupported PostgreSQL data API operation " +:+ operation +:+ ".")).

Definition request_workspace (r : data_request) : string := trim (js_to_string (coalesce (member r "workspaceId") (JStr ""))).

Definition candidate_roles (r : data_request) : list string :=
  unique (rq_effective_roles r ++ match rq_actor_role r with Some role => [role] | None => [] end).

Definition POSTGRES_DATA_COUNT_MODES : list string := ["none"; "exact"; "estimated"].
Definition POSTGRES_DATA_PAGINATION_METADATA_MODES : list string := ["basic"; "full"].

(** [countMode] and [paginationMode] *)
Definition normalizeResponseOptions (members : jsval) : result js_error (string * string) :=
  let option key otherwise :=
    lower_trim (coalesce (js_get (js_get members "responseOptions") key) (coalesce (js_get members key) (JStr otherwise))) in
  let countMode := option "countMode" "none" in
  if negb (str_in countMode POSTGRES_DATA_COUNT_MODES) then Err (plain_error ("Unsupported PostgreSQL data count mode " +:+ countMode +:+ "."))
  else
    let paginationMode := option "paginationMode" "basic" in
    if negb (str_in paginationMode POSTGRES_DATA_PAGINATION_METADATA_MODES)
    then Err (plain_error ("Unsupported PostgreSQL pagination metadata mode " +:+ paginationMode +:+ "."))
    else Ok (countMode, paginationMode).

(** [normalizeTraceContext] and [buildTraceSettings]: the settings of the session. *)
Definition trace_settings (members session : jsval) (workspaceId : string) : list (string * jsval) :=
  let m := js_get members in
  List.filter (fun kv => truthy kv.2)
    [("app.current_actor_id", coalesce (m "actorId") (m "actor_id"));
     ("app.current_actor_type", coalesce (m "actorType") (coalesce (m "actor_type") (JStr "workspace_principal")));
     ("app.current_tenant_id", coalesce (m "tenantId") (coalesce (m "tenant_id") (js_get session "tenantId")));
     ("app.current_workspace_id", JStr workspaceId);
     ("app.current_origin_surface", coalesce (m "originSurface") (coalesce (m "origin_surface") (JStr "public_api")));
     ("app.current_correlation_id", coalesce (m "correlationId") (m "correlation_id"));
     ("app.current_request_id", coalesce (m "requestId") (m "request_id"))].

(** What [buildPostgresDataApiPlan] hands to the builder of an operation. *)
Record plan_context := mk_context {
  cx_workspace : string;
  cx_database : string;
  cx_roles : list string;
  cx_settings : list (string * jsval);
  cx_count_mode : string;
  cx_pagination_mode : string
}.

Definition request_context (r : data_request) : result js_error plan_context :=
  databaseName ← normalizeIdentifier (member r "databaseName") "databaseName";
  match candidate_roles r with
  | [] => Err (plain_error "At least one actor or effective role must be provided.")
  | roles =>
      options ← normalizeResponseOptions (rq_members r);
      Ok (mk_context (request_workspace r) databaseName roles (trace_settings (rq_members r) (rq_session r) (request_workspace r))
            options.1 options.2)
  end.

(** [Math.max(a, b)] *)
Definition num_max (a b : jsnum) : jsnum :=
  match a, b with NNaN, _ | _, NNaN => NNaN | _, _ => if num_leb a b then b else a end.

Definition page_size (page : jsval) : jsnum :=
  num_max (NInt 1) (num_min (NInt 200) (js_number (coalesce (js_get page "size") (jint 25)))).

(** ** Statements *)

(** [WHERE a AND b], a line of its own, when there is something to say. *)
Definition where_line (clauses : list string) : list string :=
  match clauses with [] => [] | _ => ["WHERE " +:+ JsValue.join " AND " clauses] end.

Definition lines_of (ls : list string) : string := JsValue.join line_feed ls.

Definition comma (ls : list string) : string := JsValue.join ", " ls.

Definition base_select (select : list string) : list string := (fun c => column_ref "base" c +:+ " AS " +:+ quoteIdent c) <$> select.

(** [SELECT COUNT], over the values bound so far, or an estimate of the table. *)
Definition buildCountPlan (t : table) (wheres : list string) (values : list jsval) (countMode : string) : option sql_text :=
  if String.eqb countMode "none" then None
  else if String.eqb countMode "exact"
  then Some (mk_sql (lines_of (["SELECT COUNT(*) AS totalCount"; "FROM " +:+ qualifiedTableName (tb_schema t) (tb_name t) +:+ " AS base"]
                               ++ where_line wheres)) values)
  else Some (mk_sql (lines_of ["SELECT CAST(cls.reltuples AS bigint) AS estimatedCount"; "FROM pg_catalog.pg_class AS cls";
                               "JOIN pg_catalog.pg_namespace AS nsp ON nsp.oid = cls.relnamespace"; "WHERE nsp.nspname = $1::text";
                               "  AND cls.relname = $2::text"]) [JStr (tb_schema t); JStr (tb_name t)]).

Definition buildListLikeSql (operation : string) (t : table) (select : list string) (fs : join_fragments) (wheres : list string)
    (order : list order_entry) (pageSize : jsnum) : string :=
  lines_of (["SELECT " +:+ comma (base_select select ++ jf_select fs);
             "FROM " +:+ qualifiedTableName (tb_schema t) (tb_name t) +:+ " AS base"]
            ++ jf_joins fs ++ where_line wheres
            ++ ["ORDER BY " +:+ comma (buildOrderClause "base" order);
                if String.eqb operation "list" then "LIMIT " +:+ show_num pageSize else "LIMIT 1"]).

Definition returning_columns (t : table) (select : list string) : list string :=
  unique (match select with [] => tb_pk t | _ => select end).

Definition returning_line (columns : list string) : string := "RETURNING " +:+ comma (quoteIdent <$> columns).

(** [INSERT INTO], its columns and the placeholders of its values. *)
Definition insert_sql (t : table) (kvs : list (string * jsval)) (returning : list string) : build string :=
  placeholders ← map_build (fun kv => bind_value kv.2) kvs;
  mret (lines_of ["INSERT INTO " +:+ qualifiedTableName (tb_schema t) (tb_name t) +:+ " (" +:+ comma (quoteIdent <$> kvs.*1) +:+ ")";
                  "VALUES (" +:+ comma placeholders +:+ ")"; returning_line returning]).

Definition update_sql (t : table) (kvs : list (string * jsval)) (wheres returning : list string) : build string :=
  assignments ← map_build (fun kv => p ← bind_value kv.2; mret (quoteIdent kv.1 +:+ " = " +:+ p)) kvs;
  mret (lines_of (["UPDATE " +:+ qualifiedTableName (tb_schema t) (tb_name t) +:+ " AS base"; "SET " +:+ comma assignments]
                  ++ where_line wheres ++ [returning_line returning])).

Definition delete_sql (t : table) (wheres returning : list string) : string :=
  lines_of (["DELETE FROM " +:+ qualifiedTableName (tb_schema t) (tb_name t) +:+ " AS base"] ++ where_line wheres ++ [returning_line returning]).

(** ** The plan *)

Definition needs_key (operation : string) : bool := str_in operation ["get"; "update"; "delete"].
Definition reads_rows (operation : string) : bool := str_in operation ["list"; "get"].

Section plans.
Context `{!NumberText}.

(** [nextCursorExample] *)
Definition cursor_example (order : list order_entry) : string :=
  serializePostgresDataApiCursor (JObj [("order", JArr ((fun e =>
    JObj [("columnName", JStr (oe_column e)); ("direction", JStr (oe_direction e)); ("value", JStr ("<" +:+ oe_column e +:+ ">"))]) <$> order))]).

(** The conditions of the statement, in the order of the text; the values of
    filters are bound before the policy's. *)
Definition build_wheres (operation : string) (d : access_decision) (session : jsval) (fs : list data_filter)
    (primaryKey : option (list (string * jsval))) (order : list order_entry) (after : jsval) : build (list string) :=
  filters ← buildFilterClauses "base" fs;
  rls ← buildRlsClause "base" d session;
  keys ← (match primaryKey with Some kvs => buildPrimaryKeyClause "base" kvs | None => mret [] end);
  cursor ← (if String.eqb operation "list" then buildCursorClause "base" order after else mret None);
  mret (option_list rls ++ filters ++ keys ++ option_list cursor).

(** What a request asks for, once it is regular. *)
Record row_query := mk_query {
  ry_select : list string;
  ry_filters : list data_filter;
  ry_joins : list relation_join;
  ry_order : list order_entry;
  ry_key : option (list (string * jsval));
  ry_values : option (list (string * jsval))
}.

Definition regular_query (operation : string) (r : data_request) (t : table) : result js_error row_query :=
  select ← normalizeSelect (member r "select") t;
  filters ← normalizeFilters (member r "filters") t;
  joins ← normalizeJoins (member r "joins") t;
  order ← normalizeOrder (member r "order") t;
  key ← (if needs_key operation then kvs ← normalizePrimaryKey (member r "primaryKey") t; Ok (Some kvs) else Ok None);
  values ← (if String.eqb operation "insert" then kvs ← normalizeValues (member r "values") t; Ok (Some kvs)
            else if String.eqb operation "update" then kvs ← normalizeValues (member r "changes") t; Ok (Some kvs) else Ok None);
  Ok (mk_query select filters joins order key values).

(** The text, the conditions and the columns it returns. *)
Definition row_statement (operation : string) (t : table) (q : row_query) (d : access_decision) (role : string) (session page : jsval)
    : build (string * list string * list string * list relation_summary) :=
  wheres ← build_wheres operation d session (ry_filters q) (ry_key q) (ry_order q) (js_get page "after");
  fs ← (if reads_rows operation then buildJoinFragments session role (ry_joins q) else mret (mk_fragments [] [] []));
  let columns := returning_columns t (ry_select q) in
  text ← (if reads_rows operation then mret (buildListLikeSql operation t (ry_select q) fs wheres (ry_order q) (page_size page))
          else if String.eqb operation "insert" then insert_sql t (default [] (ry_values q)) columns
          else if String.eqb operation "update" then update_sql t (default [] (ry_values q)) wheres columns
          else mret (delete_sql t wheres (returning_columns t (tb_pk t))));
  mret (text, wheres, (if str_in operation ["insert"; "update"] then columns else []), jf_relations fs).

Definition row_plan (operation : string) (r : data_request) (cx : plan_context) : result js_error data_plan :=
  t ← normalizeTableDefinition (rq_table r);
  q ← regular_query operation r t;
  let command := commandForOperation operation in
  let page := member r "page" in
  role_decision ← resolveEffectiveRole (cx_roles cx) command (rq_access r) (rq_session r)
             (if String.eqb operation "insert" then JObj <$> ry_values q else rq_row r) t (ry_joins q);
  let '(role, d) := (role_decision : string * access_decision) in
  match row_statement operation t q d role (rq_session r) page [] with
  | (Err e, _) => Err e
  | (Ok (text, wheres, returning, relations), values) =>
      Ok (mk_plan operation command role (cx_workspace cx) (cx_database cx) (tb_schema t) (tb_name t) (ry_select q) relations (ry_filters q)
            (ry_order q) (if String.eqb operation "list" then Some (mk_page (page_size page) (js_get page "after") (cursor_example (ry_order q)) (cx_pagination_mode cx)) else None)
            (if String.eqb operation "list" then buildCountPlan t wheres values (cx_count_mode cx) else None)
            (ad_reason d) (negb (bool_decide (ac_rls (rq_access r) = Some false))) (ad_row_predicate d)
            (mk_sql text values) (ry_values q) returning (cx_settings cx) NoDetail)
  end.

End plans.
