(* ===== verification/PgBulk.v ===== *)
(** * Routines, batches, transfers and similarity

    The remaining operations of [buildPostgresDataApiPlan] on tables and routines:
    [rpc], [bulk_insert], [bulk_update], [bulk_delete], [import], [export],
    [knn_search]. *)
From S2P Require Import Prelude JsValue Json Regex PgTable PgSql PgPlan.
From stdpp Require Import sorting.
Local Open Scope Z_scope.

(** ** Routines *)

Record argument := mk_argument { an_name : string; an_type : option string; an_required : bool }.

Record routine := mk_routine {
  ro_schema : string;
  ro_name : string;
  ro_signature : option string;
  ro_returns_set : bool;
  ro_exposed : bool;
  ro_result : string;
  ro_arguments : list argument
}.

Definition nonempty_opt (s : option string) : option string :=
  match s with Some t => if nonempty t then Some t else None | None => None end.

Definition normalizeRoutineArgumentDefinition (index : nat) (a : argument_in) : result js_error argument :=
  name ← normalizeIdentifier (JStr (default ("arg" +:+ show_Z (Z.of_nat index + 1)) (ag_name a))) "routine.argumentName";
  Ok (mk_argument name (nonempty_opt (trim <$> ag_type a)) (ag_required a)).

Definition normalizeRoutineDefinition (r : routine_in) : result js_error routine :=
  schema ← normalizeIdentifier (JStr (rt_schema r)) "schemaName";
  name ← normalizeIdentifier (JStr (rt_name r)) "routineName";
  res ← normalizeIdentifier (JStr (default "result" (rt_result r))) "resultColumnName";
  args ← traverse (fun ia => normalizeRoutineArgumentDefinition ia.1 ia.2) (zip (seq 0 (length (rt_arguments r))) (rt_arguments r));
  Ok (mk_routine schema name (rt_signature r) (rt_returns_set r) (rt_exposed r) res args).

Record rpc_binding := mk_binding { bd_name : string; bd_type : option string; bd_value : jsval }.

Definition routine_error (ro : routine) (what : string) : js_error :=
  plain_error ("Routine " +:+ ro_schema ro +:+ "." +:+ ro_name ro +:+ " " +:+ what).

(** The arguments an object gives, in the order of the definitions. *)
Fixpoint named_arguments (ro : routine) (payload : list (string * jsval)) (defs : list argument) : result js_error (list rpc_binding) :=
  match defs with
  | [] => Ok []
  | a :: defs' =>
      if js_in (an_name a) payload
      then rest ← named_arguments ro payload defs'; Ok (mk_binding (an_name a) (an_type a) (js_get (JObj payload) (an_name a)) :: rest)
      else if an_required a then Err (routine_error ro ("is missing required argument " +:+ an_name a +:+ "."))
      else named_arguments ro payload defs'
  end.

Definition normalizeRpcArguments (payload : jsval) (ro : routine) : result js_error (list rpc_binding) :=
  let defs := ro_arguments ro in
  match payload with
  | JArr xs =>
      if negb (bool_decide (defs = [])) && Nat.ltb (length xs) (length (List.filter an_required defs))
      then Err (routine_error ro "is missing one or more required arguments.")
      else Ok ((fun iv => let a := nth_error defs iv.1 in
                 mk_binding (from_option an_name ("arg" +:+ show_Z (Z.of_nat iv.1 + 1)) a) (a ≫= an_type) iv.2)
               <$> zip (seq 0 (length xs)) xs)
  | JUndef | JNull => if existsb an_required defs then Err (routine_error ro "requires arguments.") else Ok []
  | JObj kvs =>
      named_arguments ro kvs (match defs with
                              | [] => (fun k => mk_argument k None true) <$> merge_sort String.le kvs.*1
                              | _ => defs
                              end)
  | _ => Err (plain_error "RPC arguments must be an object or array.")
  end.

Definition hasRoutineExecuteGrant (a : access) (role : string) (ro : routine) : bool :=
  let names := unique (ro_name ro :: option_list (ro_signature ro)
                       ++ [ro_schema ro +:+ "." +:+ ro_name ro; ro_name ro +:+ "()"]) in
  existsb (fun g => String.eqb (gr_role g) role && String.eqb (gr_schema g) (ro_schema ro)
                    && match gr_object g with Some n => str_in n names | None => false end
                    && str_in "execute" (lower_set (default [] (gr_privileges g)))) (ac_object_grants a).

Fixpoint resolve_rpc_role (roles errors : list string) (a : access) (ro : routine) : result js_error string :=
  match roles with
  | [] => Err (no_role "RPC request" errors)
  | role :: roles' =>
      if negb (grants_usage a role (ro_schema ro)) then resolve_rpc_role roles' (errors ++ [role +:+ ":missing_schema_grant"]) a ro
      else if negb (hasRoutineExecuteGrant a role ro) then resolve_rpc_role roles' (errors ++ [role +:+ ":missing_execute_grant"]) a ro
      else Ok role
  end.

(** The type of an argument is part of the text. *)
Definition rpc_sql (ro : routine) (bindings : list rpc_binding) : build string :=
  placeholders ← map_build (fun b => pushValue (bd_value b) (bd_type b)) bindings;
  let call := qualifiedTableName (ro_schema ro) (ro_name ro) +:+ "(" +:+ comma placeholders +:+ ")" in
  mret (if ro_returns_set ro then lines_of ["SELECT *"; "FROM " +:+ call]
        else "SELECT " +:+ call +:+ " AS " +:+ quoteIdent (ro_result ro)).

Definition rpc_plan (r : data_request) (cx : plan_context) : result js_error data_plan :=
  ro ← normalizeRoutineDefinition (rq_routine r);
  if negb (ro_exposed ro) then Err (routine_error ro "is not exposed as an RPC endpoint.")
  else
    bindings ← normalizeRpcArguments (member r "arguments") ro;
    role ← resolve_rpc_role (cx_roles cx) [] (rq_access r) ro;
    match rpc_sql ro bindings [] with
    | (Err e, _) => Err e
    | (Ok text, values) =>
        Ok (mk_plan "rpc" "execute" role (cx_workspace cx) (cx_database cx) (ro_schema ro) (ro_name ro) [] [] [] [] None None "grant_allow" false false
              (mk_sql text values) None [] (cx_settings cx)
              (RpcDetail (ro_name ro) (ro_returns_set ro) ((fun b => (bd_name b, bd_type b)) <$> bindings)))
    end.

(** ** Batches *)

Definition positive_integer (n : jsnum) : option Z :=
  match n with NInt z => if 1 <=? z then Some z else None | _ => None end.

Definition normalizeBatchConfig (config : jsval) (observed : Z) : result js_error batch_config :=
  let requested := js_number (coalesce (js_get config "limit") (coalesce (js_get config "batchLimit") (jint 100))) in
  let hard := js_number (coalesce (js_get config "hardLimit") (jint 500)) in
  let applied := num_max (NInt 1) (num_min hard requested) in
  match positive_integer requested, positive_integer hard with
  | None, _ => Err (plain_error "Bulk and import operations must request a positive integer batch limit.")
  | _, None => Err (plain_error "Bulk and import operations must use a positive integer hard limit.")
  | Some rq, Some hd =>
      if num_ltb applied (NInt observed)
      then Err (plain_error ("Requested batch of " +:+ show_Z observed +:+ " rows exceeds the configured limit of " +:+ show_num applied +:+ "."))
      else Ok (mk_batch rq hd applied observed (negb (jsval_eqb (js_get config "atomic") (JBool false))))
  end.

Definition batch_of (r : data_request) (n : nat) : result js_error batch_config :=
  normalizeBatchConfig (coalesce (member r "bulk") (rq_members r)) (Z.of_nat n).

(** The first row the role may not write. *)
Definition refused_row (role command : string) (t : table) (a : access) (session : jsval) (rows : list (list (string * jsval))) : option string :=
  match List.find (fun row => negb (ad_allowed (evaluatePlanningAccess role command (tb_schema t) (tb_name t) a session (Some (JObj row))))) rows with
  | Some row => Some (ad_reason (evaluatePlanningAccess role command (tb_schema t) (tb_name t) a session (Some (JObj row))))
  | None => None
  end.

Fixpoint resolve_batch_role (roles errors : list string) (command : string) (t : table) (a : access) (session : jsval)
    (rows : list (list (string * jsval))) : result js_error (string * access_decision) :=
  match roles with
  | [] => Err (no_role "data API batch request" errors)
  | role :: roles' =>
      match refused_row role command t a session rows with
      | Some e => resolve_batch_role roles' (errors ++ [role +:+ ":" +:+ e]) command t a session rows
      | None => Ok (role, match rows with
                          | row :: _ => evaluatePlanningAccess role command (tb_schema t) (tb_name t) a session (Some (JObj row))
                          | [] => granted "grant_only" []
                          end)
      end
  end.

Definition no_rows (operation what : string) (t : table) : js_error :=
  plain_error (operation +:+ " for " +:+ tb_schema t +:+ "." +:+ tb_name t +:+ " must provide at least one " +:+ what +:+ ".").

Definition own (kvs : list (string * jsval)) (key : string) : jsval := js_get (JObj kvs) key.

Definition row_text (placeholders : list string) : string := "(" +:+ comma placeholders +:+ ")".

Definition bulk_insert_sql (t : table) (columns : list string) (rows : list (list (string * jsval))) (returning : list string) : build string :=
  rowSql ← map_build (fun row => ps ← map_build (fun c => bind_value (coalesce (own row c) JNull)) columns; mret (row_text ps)) rows;
  mret (lines_of ["INSERT INTO " +:+ qualifiedTableName (tb_schema t) (tb_name t) +:+ " (" +:+ comma (quoteIdent <$> columns) +:+ ")";
                  "VALUES " +:+ JsValue.join ("," +:+ line_feed +:+ "       ") rowSql; returning_line returning]).

Definition bulk_insert_plan (rows : jsval) (r : data_request) (cx : plan_context) : result js_error data_plan :=
  t ← normalizeTableDefinition (rq_table r);
  select ← normalizeSelect (member r "select") t;
  items ← elements_of rows;
  kvs ← traverse (fun row => normalizeValues row t) items;
  if bool_decide (kvs = []) then Err (no_rows "Bulk insert" "row" t)
  else
    batch ← batch_of r (length kvs);
    role_decision ← resolve_batch_role (cx_roles cx) [] "insert" t (rq_access r) (rq_session r) kvs;
    let '(role, d) := (role_decision : string * access_decision) in
    let columns := returning_columns t select in
    match bulk_insert_sql t (unique (flat_map (fun row => row.*1) kvs)) kvs columns [] with
    | (Err e, _) => Err e
    | (Ok text, values) =>
        Ok (mk_plan "bulk_insert" "insert" role (cx_workspace cx) (cx_database cx) (tb_schema t) (tb_name t) select [] [] [] None None
              (ad_reason d) (negb (bool_decide (ac_rls (rq_access r) = Some false))) (ad_row_predicate d) (mk_sql text values) None columns
              (cx_settings cx) (BulkDetail batch kvs))
    end.

Record row_change := mk_change { ch_key : list (string * jsval); ch_values : list (string * jsval) }.

Definition row_change_of (t : table) (entry : jsval) : result js_error row_change :=
  if nullish entry then Err js_type_error
  else key ← normalizePrimaryKey (js_get entry "primaryKey") t; values ← normalizeValues (js_get entry "changes") t; Ok (mk_change key values).

(** The value of a column: of the key when the key names it, else of the changes. *)
Definition payload_value (ch : row_change) (c : string) : jsval :=
  if js_in c (ch_key ch) then own (ch_key ch) c else coalesce (own (ch_values ch) c) JNull.

Definition bulk_update_sql (t : table) (ops : list row_change) (d : access_decision) (session : jsval) (returning : list string) : build string :=
  let changeColumns := unique (flat_map (fun ch => (ch_values ch).*1) ops) in
  let payloadColumns := tb_pk t ++ changeColumns in
  valueRows ← map_build (fun ch => ps ← map_build (fun c => bind_value (payload_value ch c)) payloadColumns; mret (row_text ps)) ops;
  rls ← buildRlsClause "base" d session;
  mret (lines_of ["WITH bulk_input (" +:+ comma (quoteIdent <$> payloadColumns) +:+ ") AS (";
                  "  VALUES " +:+ JsValue.join ("," +:+ line_feed +:+ "         ") valueRows; ")";
                  "UPDATE " +:+ qualifiedTableName (tb_schema t) (tb_name t) +:+ " AS base";
                  "SET " +:+ comma ((fun c => quoteIdent c +:+ " = COALESCE(bulk_input." +:+ quoteIdent c +:+ ", " +:+ column_ref "base" c +:+ ")") <$> changeColumns);
                  "FROM bulk_input";
                  "WHERE " +:+ JsValue.join " AND " (((fun c => column_ref "base" c +:+ " = bulk_input." +:+ quoteIdent c) <$> tb_pk t) ++ option_list rls);
                  returning_line returning]).

Definition bulk_update_plan (r : data_request) (cx : plan_context) : result js_error data_plan :=
  t ← normalizeTableDefinition (rq_table r);
  select ← normalizeSelect (member r "select") t;
  items ← elements_of (coalesce (member r "operations") (member r "rows"));
  ops ← traverse (row_change_of t) items;
  if bool_decide (length ops = 0%nat) then Err (no_rows "Bulk update" "row selector" t)
  else
    batch ← batch_of r (length ops);
    role_decision ← resolveEffectiveRole (cx_roles cx) "update" (rq_access r) (rq_session r) None t [];
    let '(role, d) := (role_decision : string * access_decision) in
    let columns := returning_columns t select in
    match bulk_update_sql t ops d (rq_session r) columns [] with
    | (Err e, _) => Err e
    | (Ok text, values) =>
        Ok (mk_plan "bulk_update" "update" role (cx_workspace cx) (cx_database cx) (tb_schema t) (tb_name t) select [] [] [] None None
              (ad_reason d) (negb (bool_decide (ac_rls (rq_access r) = Some false))) (ad_row_predicate d) (mk_sql text values) None columns
              (cx_settings cx) (BulkDetail batch (ch_values <$> ops)))
    end.

Definition bulk_delete_sql (t : table) (selectors : list (list (string * jsval))) (d : access_decision) (session : jsval) (returning : list string) : build string :=
  valueRows ← map_build (fun key => ps ← map_build (fun c => bind_value (own key c)) (tb_pk t); mret (row_text ps)) selectors;
  rls ← buildRlsClause "base" d session;
  mret (lines_of ["WITH delete_keys (" +:+ comma (quoteIdent <$> tb_pk t) +:+ ") AS (";
                  "  VALUES " +:+ JsValue.join ("," +:+ line_feed +:+ "         ") valueRows; ")";
                  "DELETE FROM " +:+ qualifiedTableName (tb_schema t) (tb_name t) +:+ " AS base"; "USING delete_keys";
                  "WHERE " +:+ JsValue.join " AND " (((fun c => column_ref "base" c +:+ " = delete_keys." +:+ quoteIdent c) <$> tb_pk t) ++ option_list rls);
                  returning_line returning]).

Definition bulk_delete_plan (r : data_request) (cx : plan_context) : result js_error data_plan :=
  t ← normalizeTableDefinition (rq_table r);
  items ← elements_of (coalesce (member r "primaryKeys") (member r "rows"));
  selectors ← traverse (fun key => normalizePrimaryKey key t) items;
  if bool_decide (selectors = []) then Err (no_rows "Bulk delete" "primary-key selector" t)
  else
    batch ← batch_of r (length selectors);
    role_decision ← resolveEffectiveRole (cx_roles cx) "delete" (rq_access r) (rq_session r) None t [];
    let '(role, d) := (role_decision : string * access_decision) in
    select ← (if truthy (member r "select") then normalizeSelect (member r "select") t else Ok (tb_pk t));
    let columns := returning_columns t select in
    match bulk_delete_sql t selectors d (rq_session r) columns [] with
    | (Err e, _) => Err e
    | (Ok text, values) =>
        Ok (mk_plan "bulk_delete" "delete" role (cx_workspace cx) (cx_database cx) (tb_schema t) (tb_name t) [] [] [] [] None None
              (ad_reason d) (negb (bool_decide (ac_rls (rq_access r) = Some false))) (ad_row_predicate d) (mk_sql text values) None columns
              (cx_settings cx) (BulkDetail batch selectors))
    end.
