(* ===== verification/PgSaved.v ===== *)
(** * Transfers, similarity, saved queries and endpoints

    [import], [export] and [knn_search], the saved queries and the published
    endpoints of src/packages/adapters/src/postgresql-data-api.mjs, and the choice
    among all operations. *)
From S2P Require Import Prelude JsValue Json Regex PgTable PgSql PgPlan PgBulk.
Local Open Scope Z_scope.

Section saved.
Context `{!NumberText}.

(** ** Import and export *)

Definition transfer_format (r : data_request) (what : string) : result js_error string :=
  let format := lower_trim (coalesce (member r "format") (JStr "json")) in
  if str_in format ["json"; "csv"] then Ok format else Err (plain_error ("Unsupported PostgreSQL " +:+ what +:+ " format " +:+ format +:+ ".")).

Definition import_mode (r : data_request) : string := lower_trim (coalesce (member r "mode") (JStr "insert")).

Definition batch_detail (p : data_plan) : option batch_config := match pn_detail p with BulkDetail b _ => Some b | _ => None end.

(** [{ ...plan, operation, ... }] *)
Definition replanned (operation : string) (detail : plan_detail) (p : data_plan) : data_plan :=
  mk_plan operation (pn_command p) (pn_role p) (pn_workspace p) (pn_database p) (pn_schema p) (pn_table p) (pn_selection p) (pn_joins p)
    (pn_filters p) (pn_order p) (pn_page p) (pn_count p) (pn_reason p) (pn_rls p) (pn_row_predicate p) (pn_sql p) (pn_mutation p)
    (pn_returning p) (pn_settings p) detail.

Definition copy_text (t : table) (columns : list string) (r : data_request) : string :=
  "COPY " +:+ qualifiedTableName (tb_schema t) (tb_name t) +:+ " (" +:+ comma (quoteIdent <$> columns) +:+ ") FROM STDIN WITH (FORMAT csv, HEADER "
  +:+ (if jsval_eqb (member r "headerRow") (JBool false) then "false" else "true") +:+ ", DELIMITER "
  +:+ quoteLiteral (js_to_string (coalesce (member r "delimiter") (JStr ","))) +:+ ")".

Definition import_plan (r : data_request) (cx : plan_context) : result js_error data_plan :=
  format ← transfer_format r "import";
  if String.eqb format "json" then
    p ← bulk_insert_plan (coalesce (member r "rows") (member r "items")) r cx;
    Ok (replanned "import" (ImportDetail format (import_mode r) (batch_detail p)) p)
  else
    t ← normalizeTableDefinition (rq_table r);
    columns ← normalizeSelect (coalesce (member r "columns") (member r "select")) t;
    role_decision ← resolveEffectiveRole (cx_roles cx) "insert" (rq_access r) (rq_session r) None t [];
    let '(role, d) := (role_decision : string * access_decision) in
    Ok (mk_plan "import" "insert" role (cx_workspace cx) (cx_database cx) (tb_schema t) (tb_name t) columns [] [] [] None None
          (ad_reason d) (negb (bool_decide (ac_rls (rq_access r) = Some false))) (ad_row_predicate d)
          (mk_sql (copy_text t columns r) [coalesce (member r "csvText") (JStr "")]) None [] (cx_settings cx)
          (ImportDetail format (import_mode r) None)).

Definition export_statement (t : table) (q : row_query) (d : access_decision) (role : string) (session : jsval)
    : build (string * list string * list relation_summary) :=
  filters ← buildFilterClauses "base" (ry_filters q);
  rls ← buildRlsClause "base" d session;
  fs ← buildJoinFragments session role (ry_joins q);
  let wheres := option_list rls ++ filters in
  mret (lines_of (["SELECT " +:+ comma (base_select (ry_select q) ++ jf_select fs);
                   "FROM " +:+ qualifiedTableName (tb_schema t) (tb_name t) +:+ " AS base"]
                  ++ jf_joins fs ++ where_line wheres ++ ["ORDER BY " +:+ comma (buildOrderClause "base" (ry_order q))]),
        wheres, jf_relations fs).

Definition export_plan (r : data_request) (cx : plan_context) : result js_error data_plan :=
  t ← normalizeTableDefinition (rq_table r);
  q ← regular_query "export" r t;
  options ← normalizeResponseOptions (rq_members r);
  role_decision ← resolveEffectiveRole (cx_roles cx) "select" (rq_access r) (rq_session r) None t (ry_joins q);
  let '(role, d) := (role_decision : string * access_decision) in
  match export_statement t q d role (rq_session r) [] with
  | (Err e, _) => Err e
  | (Ok (text, wheres, relations), values) =>
      format ← transfer_format r "export";
      Ok (mk_plan "export" "select" role (cx_workspace cx) (cx_database cx) (tb_schema t) (tb_name t) (ry_select q) relations (ry_filters q)
            (ry_order q) None (buildCountPlan t wheres values options.1) (ad_reason d) (negb (bool_decide (ac_rls (rq_access r) = Some false)))
            (ad_row_predicate d)
            (mk_sql (if String.eqb format "csv" then lines_of ["COPY ("; text; ") TO STDOUT WITH (FORMAT csv, HEADER true)"] else text) values)
            None [] (cx_settings cx) (ExportDetail format))
  end.

(** ** Similarity *)

(** The map of metrics is an object: two names of its prototype find something. *)
Definition metric_operator (metric : string) : option string :=
  match assoc_lookup metric [("cosine", "<=>"); ("l2", "<->"); ("inner_product", "<#>")] with
  | Some op => Some op
  | None => if String.eqb metric "constructor" then Some "function Object() { [native code] }"
            else if String.eqb metric "__proto__" then Some "[object Object]" else None
  end.

Definition findVectorColumn (t : table) (requested : jsval) : result js_error (option column) :=
  if truthy requested then
    name ← normalizeIdentifier requested "vectorColumn";
    match find_column name (tb_columns t) with
    | Some c => Ok (Some c)
    | None => Err (plain_error ("Unknown vector column " +:+ js_to_string requested +:+ " on " +:+ tb_schema t +:+ "." +:+ tb_name t +:+ "."))
    end
  else Ok (List.find (fun c => re_test (rlit_ci "vector") (default "" (co_type c))) (tb_columns t)).

Definition vector_literal (vector : list jsval) : string := "[" +:+ JsValue.join "," ((fun v => show_num (js_number v)) <$> vector) +:+ "]".

Definition knn_statement (t : table) (select : list string) (fs : list data_filter) (d : access_decision) (session : jsval)
    (vector : list jsval) (vectorColumn operator : string) (topK : jsnum) : build string :=
  placeholder ← pushValue (JStr (vector_literal vector)) (Some "vector");
  let distance := column_ref "base" vectorColumn +:+ " " +:+ operator +:+ " " +:+ placeholder in
  rls ← buildRlsClause "base" d session;
  filters ← buildFilterClauses "base" fs;
  mret (lines_of (["SELECT " +:+ comma (base_select select ++ [distance +:+ " AS " +:+ quoteIdent "distance"]);
                   "FROM " +:+ qualifiedTableName (tb_schema t) (tb_name t) +:+ " AS base"]
                  ++ where_line (option_list rls ++ filters) ++ ["ORDER BY " +:+ distance; "LIMIT " +:+ show_num topK])).

Definition no_query : js_error := plain_error "KNN search requires one of queryVector or queryText.".
Definition unresolved_text : js_error :=
  plain_error "KNN search with queryText must be resolved to a queryVector by the embedding provider before planning.".

(** The vector of the query, empty when only a text is given. *)
Definition query_vector (r : data_request) : result js_error (list jsval) :=
  let text := match member r "queryText" with JStr s => nonempty (trim s) | _ => false end in
  match member r "queryVector" with
  | JArr (x :: xs) => Ok (x :: xs)
  | _ => if text then Ok [] else Err no_query
  end.

Definition knn_plan (r : data_request) (cx : plan_context) : result js_error data_plan :=
  t ← normalizeTableDefinition (rq_table r);
  let metric := lower_trim (coalesce (member r "metric") (JStr "cosine")) in
  operator ← (match metric_operator metric with
              | Some op => Ok op
              | None => Err (plain_error ("Unsupported KNN metric " +:+ metric +:+ "; expected one of cosine, l2, inner_product."))
              end);
  vector ← query_vector r;
  found ← findVectorColumn t (member r "vectorColumn");
  match found with
  | None => Err (plain_error ("KNN search requires a vector column on " +:+ tb_schema t +:+ "." +:+ tb_name t +:+ "; none found."))
  | Some vc =>
      if bool_decide (vector = []) then Err unresolved_text
      else
        let topK := js_number (coalesce (member r "topK") (coalesce (member r "limit") (jint 10))) in
        match positive_integer topK with
        | None => Err (plain_error "KNN search topK must be a positive integer.")
        | Some _ =>
            select ← normalizeSelect (member r "select") t;
            filters ← normalizeFilters (coalesce (member r "filters") (member r "filter")) t;
            role_decision ← resolveEffectiveRole (cx_roles cx) "select" (rq_access r) (rq_session r) None t [];
            let '(role, d) := (role_decision : string * access_decision) in
            match knn_statement t select filters d (rq_session r) vector (co_name vc) operator topK [] with
            | (Err e, _) => Err e
            | (Ok text, values) =>
                Ok (mk_plan "knn_search" "select" role (cx_workspace cx) (cx_database cx) (tb_schema t) (tb_name t) select [] filters [] None None
                      (ad_reason d) (negb (bool_decide (ac_rls (rq_access r) = Some false))) (ad_row_predicate d) (mk_sql text values) None []
                      (cx_settings cx) (KnnDetail (co_name vc) metric operator topK))
            end
        end
  end.

(** ** One operation *)

(** The operations that do not plan another one. *)
Definition plan_operation (operation : string) (r : data_request) (cx : plan_context) : result js_error data_plan :=
  if String.eqb operation "rpc" then rpc_plan r cx
  else if String.eqb operation "bulk_insert" then bulk_insert_plan (coalesce (member r "rows") (member r "items")) r cx
  else if String.eqb operation "bulk_update" then bulk_update_plan r cx
  else if String.eqb operation "bulk_delete" then bulk_delete_plan r cx
  else if String.eqb operation "import" then import_plan r cx
  else if String.eqb operation "export" then export_plan r cx
  else if String.eqb operation "knn_search" then knn_plan r cx
  else row_plan operation r cx.

(** ** Saved queries *)

(** [{ ...request, key: value, ... }] *)
Definition with_members (r : data_request) (kvs : list (string * jsval)) : data_request :=
  mk_request (rq_table r) (rq_routine r) (rq_access r) (rq_session r) (rq_actor_role r) (rq_effective_roles r) (rq_row r)
    (JObj (foldl (fun acc kv => assoc_set kv.1 kv.2 acc) (match rq_members r with JObj m => m | _ => [] end) kvs)).

Definition planned (operation : string) (r : data_request) : result js_error data_plan :=
  cx ← request_context r; plan_operation operation r cx.

(** [resolveTemplateValue] *)
Fixpoint resolveTemplateValue (v : jsval) (parameters : list (string * jsval)) : result js_error jsval :=
  match v with
  | JArr xs =>
      (fix go l := match l with
                   | [] => Ok (JArr [])
                   | x :: l' => match resolveTemplateValue x parameters, go l' with
                                | Ok y, Ok (JArr ys) => Ok (JArr (y :: ys))
                                | Err e, _ => Err e
                                | _, r => r
                                end
                   end) xs
  | JObj kvs =>
      let parameter := js_get (JObj kvs) "parameter" in
      if truthy parameter then
        let name := js_to_string parameter in
        if js_in name parameters then Ok (own parameters name) else Err (plain_error ("Missing saved-query parameter " +:+ name +:+ "."))
      else
        (fix go l := match l with
                     | [] => Ok (JObj [])
                     | (k, x) :: l' => match resolveTemplateValue x parameters, go l' with
                                       | Ok y, Ok (JObj ys) => Ok (JObj ((k, y) :: ys))
                                       | Err e, _ => Err e
                                       | _, r => r
                                       end
                     end) kvs
  | _ => Ok v
  end.

Record saved_parameter := mk_saved_parameter { sp_name : string; sp_required : bool; sp_default : jsval }.

Record saved_query := mk_saved_query {
  sv_id : string;
  sv_workspace : string;
  sv_database : string;
  sv_source : string;
  sv_select : jsval;
  sv_filters : jsval;
  sv_joins : jsval;
  sv_order : jsval;
  sv_page : list (string * jsval);
  sv_arguments : jsval;
  sv_parameters : list saved_parameter;
  sv_response : string * string
}.

Definition saved_parameter_of (p : jsval) : result js_error saved_parameter :=
  if nullish p then Err js_type_error
  else
    name ← normalizeIdentifier (coalesce (js_get p "parameterName") (js_get p "name")) "savedQuery.parameterName";
    Ok (mk_saved_parameter name (negb (jsval_eqb (js_get p "required") (JBool false))) (js_get p "defaultValue")).

(** A name that may be missing. *)
Definition optional_identifier (v : jsval) (fieldName : string) : result js_error (option string) :=
  if truthy v then name ← normalizeIdentifier v fieldName; Ok (Some name) else Ok None.

Definition buildPostgresSavedQueryDefinition (members : jsval) : result js_error saved_query :=
  let m := js_get members in
  database ← normalizeIdentifier (m "databaseName") "databaseName";
  id ← normalizeIdentifier (coalesce (m "savedQueryId") (coalesce (m "id") (JStr "saved_query"))) "savedQueryId";
  let source := lower_trim (coalesce (m "sourceType")
                  (JStr (if truthy (m "routine") then "routine" else if truthy (m "view") then "view" else "table"))) in
  if negb (str_in source ["table"; "view"; "routine"]) then Err (plain_error ("Unsupported PostgreSQL saved-query source type " +:+ source +:+ "."))
  else
    options ← normalizeResponseOptions members;
    _ ← traverse (fun key => optional_identifier (m key) key) ["schemaName"; "tableName"; "viewName"; "routineName"];
    items ← elements_of (m "parameters");
    parameters ← traverse saved_parameter_of items;
    Ok (mk_saved_query id (trim (js_to_string (coalesce (m "workspaceId") (JStr "")))) database source
          (coalesce (m "select") (JArr [])) (coalesce (m "filters") (JArr [])) (coalesce (m "joins") (JArr [])) (coalesce (m "order") (JArr []))
          (compactDefined [("size", js_get (m "page") "size"); ("after", js_get (m "page") "after")])
          (coalesce (m "arguments") (JObj [])) parameters options).

(** A definition always has the key [defaultValue], so no parameter is missing. *)
Definition normalizeSavedQueryParameters (ps : list saved_parameter) (overrides : jsval) : result js_error (list (string * jsval)) :=
  _ ← (match overrides, ps with JBool _, _ :: _ | JNum _, _ :: _ | JStr _, _ :: _ => Err js_type_error | _, _ => Ok tt end);
  entries ← entries_list (coalesce overrides (JObj []));
  named ← traverse (fun kv => name ← normalizeIdentifier (JStr kv.1) "savedQuery.parameterName"; Ok (name, kv.2)) entries;
  let given := match overrides with JObj kvs => kvs | _ => [] end in
  Ok (foldl (fun acc kv => assoc_set kv.1 kv.2 acc)
        (from_entries ((fun p => (sp_name p, if js_in (sp_name p) given then own given (sp_name p) else sp_default p)) <$> ps)) named).

Definition buildPostgresSavedQueryExecutionPlan (savedQuery : jsval) (r : data_request) : result js_error data_plan :=
  def ← buildPostgresSavedQueryDefinition (coalesce savedQuery (rq_members r));
  parameters ← normalizeSavedQueryParameters (sv_parameters def) (coalesce (member r "parameters") (JObj []));
  let common := [("workspaceId", JStr (sv_workspace def)); ("databaseName", JStr (sv_database def));
                 ("responseOptions", JObj [("countMode", JStr (sv_response def).1); ("paginationMode", JStr (sv_response def).2)])] in
  p ← (if String.eqb (sv_source def) "routine" then
         args ← resolveTemplateValue (sv_arguments def) parameters;
         planned "rpc" (with_members r (("arguments", args) :: common))
       else
         filters ← resolveTemplateValue (sv_filters def) parameters;
         let page := member r "page" in
         let given := match entries_list (coalesce page (JObj [])) with Ok (_ :: _) => true | _ => false end in
         planned "list" (with_members r (("select", sv_select def) :: ("filters", filters) :: ("joins", sv_joins def) :: ("order", sv_order def)
                                         :: ("page", if given then page else JObj (sv_page def)) :: common)));
  Ok (replanned "saved_query_execute" (SavedDetail (sv_id def) parameters.*1) p).

(** ** Published endpoints *)

Record endpoint := mk_endpoint {
  ep_id : string;
  ep_workspace : string;
  ep_database : string;
  ep_slug : string;
  ep_path : string;
  ep_source : string;
  ep_method : jsval;
  ep_auth_modes : list string;
  ep_response : string * string
}.

Definition buildPostgresDataStableEndpointDefinition (members : jsval) : result js_error endpoint :=
  let m := js_get members in
  id ← normalizeIdentifier (coalesce (m "endpointId") (coalesce (m "id") (JStr "endpoint"))) "endpointId";
  let workspace := trim (js_to_string (coalesce (m "workspaceId") (JStr ""))) in
  database ← normalizeIdentifier (m "databaseName") "databaseName";
  slug ← normalizeDataSlug (coalesce (m "slug") (JStr id)) "endpoint.slug";
  let source := lower_trim (coalesce (m "sourceType")
                  (JStr (if truthy (m "savedQuery") then "saved_query" else if truthy (m "routine") then "routine" else "view"))) in
  if negb (str_in source ["saved_query"; "view"; "routine"]) then Err (plain_error ("Unsupported PostgreSQL stable endpoint source type " +:+ source +:+ "."))
  else
    modes ← elements_of (coalesce (m "authModes") (JArr [JStr "workspace_bearer"]));
    options ← normalizeResponseOptions members;
    Ok (mk_endpoint id workspace database slug
          ("/v1/postgres/workspaces/" +:+ workspace +:+ "/data/" +:+ database +:+ "/published/" +:+ slug) source
          (coalesce (m "httpMethod") (JStr (if String.eqb source "routine" then "POST" else "GET"))) (unique (lower_trim <$> modes)) options).

Definition buildPostgresDataStableEndpointInvocationPlan (r : data_request) : result js_error data_plan :=
  ep ← buildPostgresDataStableEndpointDefinition (coalesce (member r "endpoint") (rq_members r));
  let options := ("responseOptions", JObj [("countMode", JStr (ep_response ep).1); ("paginationMode", JStr (ep_response ep).2)]) in
  p ← (if String.eqb (ep_source ep) "saved_query"
       then buildPostgresSavedQueryExecutionPlan (coalesce (js_get (member r "endpoint") "savedQuery") (member r "savedQuery")) r
       else if String.eqb (ep_source ep) "routine" then planned "rpc" (with_members r [options])
       else planned "list" (with_members r [options]));
  Ok (replanned "stable_endpoint_invoke" (EndpointDetail (ep_slug ep) (ep_path ep)) p).

Definition buildPostgresDataApiPlan (r : data_request) : result js_error data_plan :=
  operation ← request_operation r;
  cx ← request_context r;
  if String.eqb operation "saved_query_execute" then buildPostgresSavedQueryExecutionPlan (member r "savedQuery") r
  else if String.eqb operation "stable_endpoint_invoke" then buildPostgresDataStableEndpointInvocationPlan r
  else plan_operation operation r cx.

(** ** Scoped credentials *)

Definition POSTGRES_DATA_SCOPABLE_OPERATIONS : list string :=
  ["list"; "get"; "insert"; "update"; "delete"; "rpc"; "bulk_insert"; "bulk_update"; "bulk_delete"; "import"; "export";
   "saved_query_execute"; "stable_endpoint_invoke"].

Definition normalizeScopeOperation (v : jsval) : result js_error string :=
  let operation := lower_trim (coalesce v (JStr "")) in
  if str_in operation POSTGRES_DATA_SCOPABLE_OPERATIONS then Ok operation
  else Err (plain_error ("Unsupported scoped PostgreSQL operation " +:+ js_to_string v +:+ ".")).

Record credential_scope := mk_scope {
  cs_database : string;
  cs_schema : option string;
  cs_table : option string;
  cs_routine : option string;
  cs_operations : list string;
  cs_saved_queries : list string;
  cs_endpoints : list string
}.

Definition identifiers_of (v : jsval) (fieldName : string) : result js_error (list string) :=
  items ← elements_of v;
  names ← traverse (fun e => normalizeIdentifier e fieldName) items;
  Ok (unique names).

Definition normalizeCredentialScopeDefinition (defaultDatabase : string) (v : jsval) : result js_error credential_scope :=
  scope ← object_param v;
  let m := js_get scope in
  database ← normalizeIdentifier (coalesce (m "databaseName") (JStr defaultDatabase)) "databaseName";
  schema ← optional_identifier (m "schemaName") "schemaName";
  tableName ← optional_identifier (m "tableName") "tableName";
  routineName ← optional_identifier (m "routineName") "routineName";
  match schema, tableName, routineName with
  | None, Some _, _ => Err (plain_error "A scoped table credential must also declare schemaName.")
  | None, _, Some _ => Err (plain_error "A scoped routine credential must also declare schemaName.")
  | _, Some _, Some _ => Err (plain_error "A scoped PostgreSQL credential cannot target both a table and a routine in the same scope entry.")
  | _, _, _ =>
      items ← elements_of (m "allowedOperations");
      operations ← traverse normalizeScopeOperation items;
      match unique operations with
      | [] => Err (plain_error "Each scoped PostgreSQL credential entry must declare at least one allowed operation.")
      | allowed =>
          queries ← identifiers_of (m "savedQueryIds") "savedQueryId";
          endpoints ← identifiers_of (m "endpointIds") "endpointId";
          Ok (mk_scope database schema tableName routineName allowed queries endpoints)
      end
  end.

Record scoped_credential := mk_credential {
  cr_id : string;
  cr_type : string;
  cr_database : string;
  cr_workspace : string;
  cr_display : jsval;
  cr_ttl : jsnum;
  cr_scopes : list credential_scope
}.

Definition buildPostgresDataScopedCredential (members : jsval) : result js_error scoped_credential :=
  let m := js_get members in
  database ← normalizeIdentifier (m "databaseName") "databaseName";
  id ← normalizeIdentifier (coalesce (m "credentialId") (coalesce (m "id") (JStr "credential"))) "credentialId";
  let type := lower_trim (coalesce (m "credentialType") (JStr "api_key")) in
  if negb (str_in type ["api_key"; "token"]) then Err (plain_error ("Unsupported PostgreSQL scoped credential type " +:+ type +:+ "."))
  else
    items ← elements_of (m "scopes");
    scopes ← traverse (normalizeCredentialScopeDefinition database) items;
    match scopes with
    | [] => Err (plain_error "Scoped PostgreSQL credentials must define at least one scope entry.")
    | _ => Ok (mk_credential id type database (trim (js_to_string (coalesce (m "workspaceId") (JStr "")))) (coalesce (m "displayName") (JStr id))
                 (num_max (NInt 60) (js_number (coalesce (m "ttlSeconds") (jint 3600)))) scopes)
    end.

End saved.
