(* ===== verification/PgSemantics.v ===== *)
(** * What the conditions of a statement mean

    A condition over the columns of a row and the numbers of bound values, its
    text, and when a row satisfies it in PostgreSQL's three-valued logic.  The
    builders of [PgSql] write exactly these texts.  Then the samples of the other
    files. *)
From S2P Require Import Prelude JsValue Json Regex PgTable PgSql PgPlan.
Local Open Scope Z_scope.

(** ** Conditions *)

Inductive cond :=
| CCompare (column op : string) (n : nat)
| CBetween (column : string) (n : nat)
| CIn (column : string) (n : nat) (count : nat)
| CNull (column : string) (yes : bool)
| CContains (column : string) (n : nat)
| CPath (column : string) (n : nat) (segments : nat)
| CFalse
| COr (cs : list cond)
| CAnd (a b : cond)
| CEither (a b : cond).

(** The [n]-th value bound after [n - 1] others. *)
Definition placeholder (n : nat) : string := "$" +:+ show_N (N.of_nat n).

Definition cast_to (type : string) (n : nat) : string := placeholder n +:+ "::" +:+ type.

Fixpoint render (alias : string) (c : cond) : string :=
  match c with
  | CCompare col op n => column_ref alias col +:+ " " +:+ op +:+ " " +:+ placeholder n
  | CBetween col n => column_ref alias col +:+ " BETWEEN " +:+ placeholder n +:+ " AND " +:+ placeholder (S n)
  | CIn col n k => column_ref alias col +:+ " IN (" +:+ JsValue.join ", " (placeholder <$> seq n k) +:+ ")"
  | CNull col yes => column_ref alias col +:+ (if yes then " IS NULL" else " IS NOT NULL")
  | CContains col n => column_ref alias col +:+ " @> " +:+ cast_to "jsonb" n
  | CPath col n k => "jsonb_extract_path_text(" +:+ column_ref alias col +:+ ", " +:+ JsValue.join ", " (cast_to "text" <$> seq n k)
                     +:+ ") = " +:+ placeholder (n + k)
  | CFalse => "FALSE"
  | COr cs => "(" +:+ JsValue.join " OR " (render alias <$> cs) +:+ ")"
  | CAnd a b => "(" +:+ render alias a +:+ " AND " +:+ render alias b +:+ ")"
  | CEither a b => "(" +:+ render alias a +:+ " OR " +:+ render alias b +:+ ")"
  end.

(** PostgreSQL's comparisons of two values that are not null, containment and
    the extraction of a text from a JSON value. *)
Class SqlOps := {
  sql_compare : string -> jsval -> jsval -> bool;
  sql_contains : jsval -> jsval -> bool;
  sql_extract : jsval -> list jsval -> jsval
}.

(** The kinds of values that compare with each other. *)
Definition bracket (v : jsval) : option nat :=
  match v with JBool _ => Some 0%nat | JNum (NInt _) => Some 1%nat | JStr _ => Some 2%nat | _ => None end.

Definition alike (a b : jsval) : Prop := bracket a = bracket b /\ is_Some (bracket a).

(** A row gives every column a value, [JNull] for NULL. *)
Definition sql_row := string -> jsval.

Section semantics.
Context `{!SqlOps}.

Definition bound (values : list jsval) (n : nat) : jsval := default JNull (values !! (n - 1)%nat).

(** A comparison with NULL is unknown. *)
Definition compare3 (op : string) (a b : jsval) : option bool :=
  if nullish a || nullish b then None else Some (sql_compare op a b).

Definition and3 (a b : option bool) : option bool :=
  match a, b with
  | Some false, _ | _, Some false => Some false
  | Some true, Some true => Some true
  | _, _ => None
  end.
Definition or3 (a b : option bool) : option bool :=
  match a, b with
  | Some true, _ | _, Some true => Some true
  | Some false, Some false => Some false
  | _, _ => None
  end.

Fixpoint eval (values : list jsval) (row : sql_row) (c : cond) : option bool :=
  match c with
  | CCompare col op n => compare3 op (row col) (bound values n)
  | CBetween col n => and3 (compare3 ">=" (row col) (bound values n)) (compare3 "<=" (row col) (bound values (S n)))
  | CIn col n k => foldr or3 (Some false) ((fun i => compare3 "=" (row col) (bound values i)) <$> seq n k)
  | CNull col yes => Some (Bool.eqb yes (nullish (row col)))
  | CContains col n => if nullish (row col) || nullish (bound values n) then None else Some (sql_contains (row col) (bound values n))
  | CPath col n k => compare3 "=" (if nullish (row col) then JNull else sql_extract (row col) (bound values <$> seq n k)) (bound values (n + k))
  | CFalse => Some false
  | COr cs => foldr or3 (Some false) (eval values row <$> cs)
  | CAnd a b => and3 (eval values row a) (eval values row b)
  | CEither a b => or3 (eval values row a) (eval values row b)
  end.

Definition holds (values : list jsval) (row : sql_row) (c : cond) : bool := bool_decide (eval values row c = Some true).

(** [WHERE c1 AND c2 ...] *)
Definition satisfies (values : list jsval) (row : sql_row) (cs : list cond) : bool := forallb (holds values row) cs.

(** ** What a filter, a policy, a key and a cursor ask for *)

Section meaning.
Context `{!NumberText}.

Definition compare_holds (op : string) (a b : jsval) : bool := bool_decide (compare3 op a b = Some true).

(** The path and the value of [json_path_eq] are texts. *)
Definition filter_holds (row : sql_row) (f : data_filter) : bool :=
  let v := row (fi_column f) in
  match assoc_lookup (fi_operator f) COMPARISONS with
  | Some op => compare_holds op v (fi_value f)
  | None =>
      if String.eqb (fi_operator f) "between" then
        match fi_value f with JArr [a; b] => compare_holds ">=" v a && compare_holds "<=" v b | _ => false end
      else if String.eqb (fi_operator f) "in" then
        match fi_value f with JArr xs => existsb (compare_holds "=" v) xs | _ => false end
      else if String.eqb (fi_operator f) "is" then
        match fi_value f with JStr s => Bool.eqb (negb (String.eqb s "not_null")) (nullish v) | _ => nullish v end
      else if String.eqb (fi_operator f) "json_contains" then
        negb (nullish v) && negb (is_undef (fi_value f)) && sql_contains v (JStr (json_text (fi_value f)))
      else negb (nullish v) && compare_holds "=" (sql_extract v (JStr <$> fi_path f)) (JStr (js_to_string (fi_value f)))
  end.

(** No policy, or one that applies to everything, filters nothing. *)
Definition policy_holds (session : jsval) (row : sql_row) (p : rls_policy) : bool :=
  let m := matcher_of p in
  String.eqb (mt_kind m) "session_equals_row" && compare_holds "=" (row (default "tenantId" (mt_column m))) (session_value session m).

Definition policies_hold (d : access_decision) (session : jsval) (row : sql_row) : bool :=
  match ad_policies d with
  | [] => true
  | ps => existsb allows_all ps || existsb (policy_holds session row) ps
  end.

Definition key_holds (row : sql_row) (kvs : list (string * jsval)) : bool := forallb (fun kv => compare_holds "=" (row kv.1) kv.2) kvs.

(** The row is beyond the cursor in the order. *)
Fixpoint beyond (row : sql_row) (value : string -> jsval) (order : list order_entry) : bool :=
  match order with
  | [] => false
  | e :: rest =>
      let v := value (oe_column e) in
      compare_holds (if String.eqb (oe_direction e) "desc" then "<" else ">") (row (oe_column e)) v
      || (negb (bool_decide (rest = [])) && compare_holds "=" (row (oe_column e)) v && beyond row value rest)
  end.

End meaning.

End semantics.

(** * Samples of the PostgreSQL data API

    A table of orders with a tenant column, requests on it, and comparisons of
    values, for the examples of the other files. *)

Definition sample_number_text : NumberText := {| fraction_text := fun _ => "0.5" |}.

Definition orders_table : table_in :=
  mk_table_in "public" "orders"
    [mk_column_in "id" false (Some "text") false false; mk_column_in "tenant_id" true (Some "text") false false;
     mk_column_in "body" true (Some "jsonb") false false] (Some ["id"]) [].

Definition orders_access : access :=
  mk_access [mk_grant "app" "public" None (Some ["usage"])]
    [mk_grant "app" "public" (Some "orders") (Some ["select"; "insert"; "update"; "delete"])] (Some true)
    [mk_policy (Some "all") (Some ["public"]) (Some (mk_matcher "session_equals_row" (Some "tenantId") (Some "tenant_id")))].

Definition no_function : routine_in := mk_routine_in "" "" None false true None [].

(** A request of the tenant [acme], as one of two roles. *)
Definition orders_request (members : list (string * jsval)) : data_request :=
  mk_request orders_table no_function orders_access (JObj [("tenantId", JStr "acme")]) (Some "app") ["guest"; "app"] None
    (JObj (("databaseName", JStr "shop") :: members)).

(** The orders with a key, in descending order of the tenant. *)
Definition filtered (key : string) : list (string * jsval) :=
  [("filters", JArr [JObj [("column", JStr "id"); ("value", JStr key)]]); ("order", JStr "tenant_id:desc")].

Definition orders_context : plan_context := mk_context "w1" "shop" ["guest"; "app"] [] "none" "basic".

(** [Ok] of a result, for samples that are known to succeed. *)
Definition ok_or {A} (otherwise : A) (r : result js_error A) : A := match r with Ok a => a | Err _ => otherwise end.

Definition orders : table := ok_or (mk_table "" "" [] [] []) (normalizeTableDefinition orders_table).

Lemma orders_normalized : normalizeTableDefinition orders_table = Ok orders.
Proof. vm_compute. reflexivity. Qed.

(** Comparisons of texts, whole numbers and truth values. *)
Definition sample_lt (a b : jsval) : bool :=
  match a, b with
  | JStr s, JStr t => String.ltb s t
  | JNum (NInt m), JNum (NInt n) => m <? n
  | JBool m, JBool n => negb m && n
  | _, _ => false
  end.

Lemma bool_lt_asym a b : negb a && b = true -> negb b && a = false.
Proof. by destruct a, b. Qed.

Lemma sample_lt_asym a b : sample_lt a b = true -> sample_lt b a = false.
Proof.
  destruct a as [| |x|[m| | |]|s| |], b as [| |y|[n| | |]|t| |]; try done; cbn [sample_lt].
  - apply bool_lt_asym.
  - rewrite Z.ltb_lt, Z.ltb_ge. lia.
  - unfold String.ltb. rewrite (String.compare_antisym s t). by destruct (String.compare t s).
Qed.

Lemma sample_lt_irrefl a : sample_lt a a = false.
Proof. destruct (sample_lt a a) eqn:E; [|done]. pose proof (sample_lt_asym _ _ E). congruence. Qed.

Lemma sample_lt_total a b : alike a b -> sample_lt a b = true \/ sample_lt b a = true \/ a = b.
Proof.
  intros [Hb [n Hn]]. rewrite Hn in Hb. destruct a as [| |x|[m| | |]|s| |]; try done; injection Hn as <-; destruct b as [| |y|[k| | |]|t| |]; try done; cbn [sample_lt].
  - destruct x, y; auto.
  - rewrite !Z.ltb_lt. destruct (Z.lt_trichotomy m k) as [|[->|]]; auto.
  - unfold String.ltb. rewrite (String.compare_antisym s t). destruct (String.compare t s) eqn:E; auto. apply String.compare_eq_iff in E. subst. auto.
Qed.

Definition sample_compare (op : string) (a b : jsval) : bool :=
  if String.eqb op "=" then jsval_eqb a b
  else if String.eqb op "<" then sample_lt a b
  else if String.eqb op ">" then sample_lt b a
  else if String.eqb op "<=" then sample_lt a b || jsval_eqb a b
  else if String.eqb op ">=" then sample_lt b a || jsval_eqb a b
  else false.

Definition sample_ops : SqlOps :=
  {| sql_compare := sample_compare; sql_contains := fun _ _ => false; sql_extract := fun _ _ => JNull |}.
