(* ===== verification/PgRender.v ===== *)
(** * The builders write conditions

    Every clause builder of [PgSql] fails or writes the text of a condition of
    [PgSemantics] over the positions of the values it binds, and the condition
    means what was asked for. *)
From S2P Require Import Prelude JsValue Json Regex PgTable PgSql PgPlan PgSemantics.
Local Open Scope Z_scope.

Lemma string_app_empty (s : string) : s +:+ EmptyString = s.
Proof. induction s as [|c s IH]; [done|]. change (String c (s +:+ EmptyString) = String c s). by rewrite IH. Qed.

Lemma string_app_assoc (a b c : string) : (a +:+ b) +:+ c = a +:+ (b +:+ c).
Proof. induction a as [|x a IH]; [done|]. change (String x ((a +:+ b) +:+ c) = String x (a +:+ (b +:+ c))). by rewrite IH. Qed.

(** ** Builders that bind a fixed list of values *)

Definition emits {A} (n : nat) (m : build A) (a : A) (ps : list jsval) : Prop :=
  forall vs, length vs = n -> m vs = (Ok a, vs ++ ps).
Definition fails {A} (m : build A) : Prop := forall vs, exists e vs', m vs = (Err e, vs').

Lemma emits_return {A} n (a : A) : emits n (mret a) a [].
Proof. intros vs _. by rewrite app_nil_r. Qed.

Lemma eq_emits {A} n (m : build A) a a' ps : emits n m a ps -> a = a' -> emits n m a' ps.
Proof. by intros H <-. Qed.

Lemma emits_seq {A B} n (m : build A) (k : A -> build B) a b ps qs :
  emits n m a ps -> emits (n + length ps) (k a) b qs -> emits n (m ≫= k) b (ps ++ qs).
Proof.
  intros Hm Hk vs Hn. unfold mbind, M_bind. rewrite (Hm vs Hn), (Hk (vs ++ ps)) by (rewrite length_app; lia). by rewrite app_assoc.
Qed.

Lemma emits_then {A B} n (m : build A) (g : A -> B) a ps : emits n m a ps -> emits n (m ≫= fun x => mret (g x)) (g a) ps.
Proof. intros Hm. rewrite <- (app_nil_r ps). eapply emits_seq; [exact Hm | apply emits_return]. Qed.

Lemma emits_value n v cast :
  emits n (pushValue v cast) (match cast with Some c => cast_to c (S n) | None => PgSemantics.placeholder (S n) end) [v].
Proof.
  intros vs Hn. unfold pushValue, cast_to, PgSemantics.placeholder. rewrite length_app, Hn. cbn [length].
  replace (n + 1)%nat with (S n) by lia. destruct cast; [done|]. by rewrite string_app_empty.
Qed.

Lemma fails_throw {A} e : fails (throw e : build A).
Proof. intros vs. by exists e, vs. Qed.

(** The results of the elements of a list, each at its position. *)
Section number.
Context {A B : Type} (out : nat -> A -> B) (size : A -> nat).
Fixpoint number (n : nat) (l : list A) : list B :=
  match l with [] => [] | x :: l' => out n x :: number (n + size x) l' end.
End number.

Lemma number_fmap {A B C} (g : B -> C) (out : nat -> A -> B) size n l :
  g <$> number out size n l = number (fun n x => g (out n x)) size n l.
Proof. revert n. induction l as [|x l IH]; intros n; [done|]. cbn. by rewrite IH. Qed.

Section map_build.
Context {A B : Type} (f : A -> build B) (out : nat -> A -> B) (ps : A -> list jsval) (ok : A -> bool).
Hypothesis f_ok : forall x n, ok x = true -> emits n (f x) (out n x) (ps x).
Hypothesis f_fails : forall x, ok x = false -> fails (f x).

Lemma map_build_emits l n : forallb ok l = true -> emits n (map_build f l) (number out (fun x => length (ps x)) n l) (flat_map ps l).
Proof.
  revert n. induction l as [|x l IH]; intros n Hok; [apply emits_return|]. cbn in Hok. apply andb_true_iff in Hok as [Hx Hl]. cbn.
  eapply emits_seq; [by apply f_ok|]. rewrite <- (app_nil_r (flat_map ps l)). eapply emits_seq; [by apply IH | apply emits_return].
Qed.

Lemma map_build_ok l vs ys vs' : map_build f l vs = (Ok ys, vs') ->
  forallb ok l = true /\ ys = number out (fun x => length (ps x)) (length vs) l /\ vs' = vs ++ flat_map ps l.
Proof.
  intros H. assert (Hok : forallb ok l = true).
  { revert vs ys vs' H. induction l as [|x l IH]; intros vs ys vs' H; [done|]. cbn in *. destruct (ok x) eqn:Hx.
    - unfold mbind, M_bind in H. rewrite (f_ok x _ Hx vs eq_refl) in H.
      destruct (map_build f l (vs ++ ps x)) as [[zs|e] ws] eqn:E; [|done]. by eapply IH.
    - destruct (f_fails x Hx vs) as (e & ws & E). unfold mbind, M_bind in H. by rewrite E in H. }
  split; [done|]. rewrite (map_build_emits l _ Hok vs eq_refl) in H. by injection H as <- <-.
Qed.
End map_build.

(** Values bound one after the other. *)
Lemma map_bind_emits cast vals n :
  emits n (map_build (fun v => pushValue v cast) vals)
    ((fun i => match cast with Some c => cast_to c i | None => PgSemantics.placeholder i end) <$> seq (S n) (length vals)) vals.
Proof.
  assert (H : emits n (map_build (fun v => pushValue v cast) vals)
     (number (fun n _ => match cast with Some c => cast_to c (S n) | None => PgSemantics.placeholder (S n) end) (fun v => length [v]) n vals)
     (flat_map (fun v => [v]) vals)).
  { apply (map_build_emits _ _ _ (fun _ => true)); [intros; apply emits_value | by induction vals]. }
  replace (flat_map (fun v => [v]) vals) with vals in H by (clear; induction vals; cbn; by f_equal).
  replace (number _ _ _ _) with ((fun i => match cast with Some c => cast_to c i | None => PgSemantics.placeholder i end) <$> seq (S n) (length vals)) in H; [done|].
  clear. revert n. induction vals as [|v vals IH]; intros n; [done|]. cbn. f_equal. rewrite IH. do 2 f_equal. lia.
Qed.

Section builders.
Context `{NT : !NumberText}.

(** ** Filters *)

Definition filter_ok (f : data_filter) : bool :=
  match assoc_lookup (fi_operator f) COMPARISONS with
  | Some _ => true
  | None =>
      if String.eqb (fi_operator f) "between" then match fi_value f with JArr [_; _] => true | _ => false end
      else if String.eqb (fi_operator f) "in" then match fi_value f with JArr (_ :: _) => true | _ => false end
      else if String.eqb (fi_operator f) "is" then match fi_value f with JNull => true | JStr s => str_in s ["null"; "not_null"] | _ => false end
      else if String.eqb (fi_operator f) "json_contains" then true
      else if String.eqb (fi_operator f) "json_path_eq" then negb (bool_decide (fi_path f = []))
      else false
  end.

Definition filter_params (f : data_filter) : list jsval :=
  match assoc_lookup (fi_operator f) COMPARISONS with
  | Some _ => [fi_value f]
  | None =>
      if String.eqb (fi_operator f) "is" then []
      else if String.eqb (fi_operator f) "json_contains" then [stringify (fi_value f)]
      else if String.eqb (fi_operator f) "json_path_eq" then (JStr <$> fi_path f) ++ [JStr (js_to_string (fi_value f))]
      else match fi_value f with JArr xs => xs | _ => [] end
  end.

(** The condition of a filter after [n] values. *)
Definition filter_cond (n : nat) (f : data_filter) : cond :=
  match assoc_lookup (fi_operator f) COMPARISONS with
  | Some op => CCompare (fi_column f) op (S n)
  | None =>
      if String.eqb (fi_operator f) "between" then CBetween (fi_column f) (S n)
      else if String.eqb (fi_operator f) "in" then CIn (fi_column f) (S n) (match fi_value f with JArr xs => length xs | _ => 0 end)
      else if String.eqb (fi_operator f) "is" then CNull (fi_column f) (match fi_value f with JStr s => negb (String.eqb s "not_null") | _ => true end)
      else if String.eqb (fi_operator f) "json_contains" then CContains (fi_column f) (S n)
      else CPath (fi_column f) (S n) (length (fi_path f))
  end.

Lemma filter_emits alias f n : filter_ok f = true -> emits n (buildFilterClause alias f) (render alias (filter_cond n f)) (filter_params f).
Proof.
  unfold filter_ok, buildFilterClause, filter_params, filter_cond. destruct (assoc_lookup _ _) as [op|] eqn:Hop.
  { intros _. apply (emits_then _ _ (fun p => column_ref alias (fi_column f) +:+ " " +:+ op +:+ " " +:+ p)), (emits_value n _ None). }
  destruct (String.eqb_spec (fi_operator f) "between") as [->|].
  { destruct (fi_value f) as [| | | | |xs|]; try done. destruct xs as [|a [|b [|]]]; try done. intros _.
    change [a; b] with ([a] ++ [b] ++ []). eapply emits_seq; [apply (emits_value n _ None)|].
    eapply emits_seq; [apply (emits_value _ _ None)|]. cbn [length]. replace (n + 1)%nat with (S n) by lia. apply emits_return. }
  destruct (String.eqb_spec (fi_operator f) "in") as [->|].
  { destruct (fi_value f) as [| | | | |xs|]; try done. destruct xs as [|a xs]; try done. intros _.
    change (String.eqb "in" "is") with false. change (String.eqb "in" "json_contains") with false. change (String.eqb "in" "json_path_eq") with false.
    cbv iota. apply (emits_then _ _ (fun ps => column_ref alias (fi_column f) +:+ " IN (" +:+ JsValue.join ", " ps +:+ ")")), (map_bind_emits None). }
  destruct (String.eqb_spec (fi_operator f) "is") as [_|].
  { destruct (fi_value f) as [| | | |s| |]; try done; intros Hs; try apply emits_return.
    destruct (String.eqb_spec s "null") as [->|]; [apply emits_return|]. destruct (String.eqb_spec s "not_null") as [->|]; [apply emits_return|].
    apply str_in_elem in Hs. set_solver. }
  destruct (String.eqb_spec (fi_operator f) "json_contains") as [_|].
  { intros _. apply (emits_then _ _ (fun p => column_ref alias (fi_column f) +:+ " @> " +:+ p)), (emits_value n _ (Some "jsonb")). }
  destruct (String.eqb_spec (fi_operator f) "json_path_eq") as [_|]; [|done].
  intros Hp. apply negb_true_iff, bool_decide_eq_false in Hp. destruct (fi_path f) as [|s path] eqn:Epath; [done|].
  assert (Hm : emits n (map_build (fun s => pushValue (JStr s) (Some "text")) (s :: path)) (cast_to "text" <$> seq (S n) (length (s :: path))) (JStr <$> s :: path)).
  { pose proof (map_bind_emits (Some "text") (JStr <$> s :: path) n) as Hb. rewrite length_fmap in Hb. intros vs Hn.
    transitivity (map_build (fun v => pushValue v (Some "text")) (JStr <$> s :: path) vs); [|exact (Hb vs Hn)].
    clear. revert vs. induction (s :: path) as [|x l IH]; intros vs; [done|]. cbn. unfold mbind, M_bind.
    destruct (pushValue _ _ vs) as [[y|] ws]; [|done]. by rewrite IH. }
  eapply emits_seq; [exact Hm|]. rewrite <- (app_nil_r [JStr _]).
  eapply emits_seq; [apply (emits_value _ _ None)|]. cbn [render]. rewrite length_fmap. cbn [length]. rewrite <- Nat.add_succ_l. apply emits_return.
Qed.

Lemma filter_fails alias f : filter_ok f = false -> fails (buildFilterClause alias f).
Proof.
  unfold filter_ok, buildFilterClause. destruct (assoc_lookup _ _); [done|].
  repeat (case_match; try done; intros); try apply fails_throw.
  all: match goal with H : str_in _ _ = false |- _ => apply str_in_not_elem in H | _ => idtac end;
    repeat match goal with H : String.eqb _ _ = true |- _ => apply String.eqb_eq in H; subst end; try set_solver.
  all: try (apply negb_false_iff, bool_decide_eq_true in H; congruence).
Qed.

(** ** Values by their positions *)

Section meaning_lemmas.
Context `{SO : !SqlOps}.

Lemma bound_at vs ps rest i v : ps !! i = Some v -> bound (vs ++ ps ++ rest) (S (length vs) + i) = v.
Proof.
  intros Hi. unfold bound. replace (S (length vs) + i - 1)%nat with (length vs + i)%nat by lia.
  rewrite lookup_app_r by lia. replace (length vs + i - length vs)%nat with i by lia.
  rewrite lookup_app_l by (apply lookup_lt_Some in Hi; done). by rewrite Hi.
Qed.

Lemma bound_seq vs ps rest : bound (vs ++ ps ++ rest) <$> seq (S (length vs)) (length ps) = ps.
Proof.
  apply list_eq. intros i. rewrite list_lookup_fmap. destruct (ps !! i) as [v|] eqn:Hi.
  - rewrite lookup_seq_lt by (apply lookup_lt_Some in Hi; done). cbn [fmap option_fmap option_map]. by rewrite (bound_at _ _ _ i v).
  - rewrite lookup_seq_ge by (by apply lookup_ge_None). done.
Qed.

Lemma or3_true a b : or3 a b = Some true <-> a = Some true \/ b = Some true.
Proof. destruct a as [[]|], b as [[]|]; cbn; naive_solver. Qed.
Lemma and3_true a b : and3 a b = Some true <-> a = Some true /\ b = Some true.
Proof. destruct a as [[]|], b as [[]|]; cbn; naive_solver. Qed.

Lemma compare_holds_true op a b : compare_holds op a b = true <-> compare3 op a b = Some true.
Proof. unfold compare_holds. by rewrite bool_decide_eq_true. Qed.

Lemma any_true (l : list (option bool)) : foldr or3 (Some false) l = Some true <-> Some true ∈ l.
Proof. induction l as [|x l IH]; cbn; [set_solver|]. rewrite or3_true, IH, elem_of_cons. naive_solver. Qed.

Lemma any_compare op a xs : foldr or3 (Some false) ((fun b => compare3 op a b) <$> xs) = Some true <-> existsb (compare_holds op a) xs = true.
Proof.
  rewrite any_true, existsb_exists, list_elem_of_fmap. setoid_rewrite <- list_elem_of_In. setoid_rewrite compare_holds_true. naive_solver.
Qed.

Lemma filter_meaning vs rest row f : filter_ok f = true ->
  eval (vs ++ filter_params f ++ rest) row (filter_cond (length vs) f) = Some true <-> filter_holds row f = true.
Proof.
  unfold filter_ok, filter_params, filter_cond, filter_holds. destruct (assoc_lookup _ _) as [op|].
  { intros _. cbn [eval]. rewrite compare_holds_true. rewrite <- (Nat.add_0_r (S (length vs))), (bound_at _ [fi_value f] _ 0 (fi_value f)) by done. done. }
  destruct (String.eqb_spec (fi_operator f) "between") as [->|].
  { destruct (fi_value f) as [| | | | |xs|]; try done. destruct xs as [|a [|b [|]]]; try done. intros _. cbn [eval].
    change (String.eqb "between" "is") with false. change (String.eqb "between" "json_contains") with false. change (String.eqb "between" "json_path_eq") with false.
    cbv iota. rewrite and3_true, andb_true_iff, !compare_holds_true.
    rewrite <- (Nat.add_0_r (S (length vs))) at 1. rewrite (bound_at _ [a; b] _ 0 a) by done.
    replace (S (S (length vs))) with (S (length vs) + 1)%nat by lia. by rewrite (bound_at _ [a; b] _ 1 b). }
  destruct (String.eqb_spec (fi_operator f) "in") as [->|].
  { destruct (fi_value f) as [| | | | |xs|]; try done. intros _. cbn [eval].
    change (String.eqb "in" "is") with false. change (String.eqb "in" "json_contains") with false. change (String.eqb "in" "json_path_eq") with false.
    cbv iota. rewrite <- any_compare.
    replace ((fun i => compare3 "=" (row (fi_column f)) (bound (vs ++ xs ++ rest) i)) <$> seq (S (length vs)) (length xs))
      with ((fun b => compare3 "=" (row (fi_column f)) b) <$> xs); [done|].
    rewrite <- (bound_seq vs xs rest) at 1. by rewrite <- list_fmap_compose. }
  destruct (String.eqb_spec (fi_operator f) "is") as [_|].
  { cbn [eval]. intros Hs. destruct (nullish (row (fi_column f))), (fi_value f) as [| | | |s| |]; try done; try (destruct (String.eqb s "not_null")); by cbn. }
  destruct (String.eqb_spec (fi_operator f) "json_contains") as [_|].
  { intros _. cbn [eval]. rewrite <- (Nat.add_0_r (S (length vs))), (bound_at _ [stringify (fi_value f)] _ 0 (stringify (fi_value f))) by done.
    unfold stringify. destruct (is_undef (fi_value f)), (nullish (row (fi_column f))); cbn; split; try done; intros; congruence. }
  destruct (String.eqb_spec (fi_operator f) "json_path_eq") as [_|]; [|done]. intros _. cbn [eval].
  replace (length (fi_path f)) with (length (JStr <$> fi_path f)) by apply length_fmap. rewrite <- app_assoc, bound_seq.
  rewrite app_assoc. replace (S (length vs) + length (JStr <$> fi_path f))%nat with (S (length (vs ++ (JStr <$> fi_path f))) + 0)%nat by (rewrite length_app; lia).
  rewrite (bound_at _ [JStr (js_to_string (fi_value f))] _ 0 (JStr (js_to_string (fi_value f)))) by done.
  destruct (nullish (row (fi_column f))); cbn [negb andb]; [by cbn | by rewrite compare_holds_true].
Qed.

Lemma holds_any values row cs : holds values row (COr cs) = existsb (holds values row) cs.
Proof.
  apply eq_bool_prop_intro. unfold holds at 1. rewrite bool_decide_spec, Is_true_true. cbn [eval].
  rewrite any_true, list_elem_of_fmap, existsb_exists. setoid_rewrite <- list_elem_of_In. unfold holds.
  setoid_rewrite bool_decide_eq_true. naive_solver.
Qed.

(** *** Numbered lists of conditions *)

Section numbered.
Context {A : Type} (out : nat -> A -> cond) (ps : A -> list jsval) (ok h : A -> bool) (row : sql_row).
Hypothesis means : forall x vs rest, ok x = true -> eval (vs ++ ps x ++ rest) row (out (length vs) x) = Some true <-> h x = true.

Lemma holds_number x vs rest : ok x = true -> holds (vs ++ ps x ++ rest) row (out (length vs) x) = h x.
Proof. intros Hx. apply eq_bool_prop_intro. unfold holds. rewrite bool_decide_spec. rewrite means by done. by rewrite Is_true_true. Qed.

Lemma holds_numbers l vs rest : forallb ok l = true ->
  holds (vs ++ flat_map ps l ++ rest) row <$> number out (fun x => length (ps x)) (length vs) l = h <$> l.
Proof.
  revert vs. induction l as [|x l IH]; intros vs Hok; [done|]. cbn in Hok. apply andb_true_iff in Hok as [Hx Hl]. cbn. f_equal.
  - rewrite <- app_assoc. by apply holds_number.
  - specialize (IH (vs ++ ps x) Hl). rewrite length_app in IH. rewrite <- IH. by rewrite <- !app_assoc.
Qed.

Lemma satisfies_numbers l vs rest : forallb ok l = true ->
  satisfies (vs ++ flat_map ps l ++ rest) row (number out (fun x => length (ps x)) (length vs) l) = forallb h l.
Proof.
  intros Hok. unfold satisfies. pose proof (holds_numbers l vs rest Hok) as H. revert H.
  generalize (number out (fun x => length (ps x)) (length vs) l). generalize (holds (vs ++ flat_map ps l ++ rest) row). clear.
  intros g cs. revert l. induction cs as [|c cs IH]; intros [|x l] H; try done. injection H as Hc H. cbn. by rewrite Hc, (IH l).
Qed.
End numbered.

(** ** Policies *)

Definition policy_ok (p : rls_policy) : bool := str_in (mt_kind (matcher_of p)) ["deny_all"; "session_equals_row"].
Definition denies (p : rls_policy) : bool := String.eqb (mt_kind (matcher_of p)) "deny_all".
Definition policy_column (p : rls_policy) : string := default "tenantId" (mt_column (matcher_of p)).
Definition policy_cond (n : nat) (p : rls_policy) : cond := if denies p then CFalse else CCompare (policy_column p) "=" (S n).
Definition policy_params (session : jsval) (p : rls_policy) : list jsval := if denies p then [] else [session_value session (matcher_of p)].

Definition rls_active (d : access_decision) : list rls_policy := if existsb allows_all (ad_policies d) then [] else ad_policies d.
Definition rls_params (session : jsval) (d : access_decision) : list jsval := flat_map (policy_params session) (rls_active d).
Definition rls_cond (session : jsval) (n : nat) (d : access_decision) : list cond :=
  match number policy_cond (fun p => length (policy_params session p)) n (rls_active d) with
  | [] => []
  | [c] => [c]
  | cs => [COr cs]
  end.

Lemma policy_emits alias session p n : policy_ok p = true ->
  emits n (let m := matcher_of p in
          if String.eqb (mt_kind m) "deny_all" then mret "FALSE"
          else if String.eqb (mt_kind m) "session_equals_row"
          then p1 ← bind_value (session_value session m); mret (column_ref alias (default "tenantId" (mt_column m)) +:+ " = " +:+ p1)
          else throw (plain_error ("Unsupported runtime predicate kind " +:+ mt_kind m +:+ ".")))
    (render alias (policy_cond n p)) (policy_params session p).
Proof.
  unfold policy_ok, policy_cond, policy_params, policy_column, denies. cbv zeta. intros Hk%str_in_elem.
  destruct (String.eqb_spec (mt_kind (matcher_of p)) "deny_all") as [_|Hn]; [apply emits_return|].
  destruct (String.eqb_spec (mt_kind (matcher_of p)) "session_equals_row") as [_|]; [|set_solver].
  apply (emits_then _ _ (fun q => column_ref alias (default "tenantId" (mt_column (matcher_of p))) +:+ " = " +:+ q)), (emits_value n _ None).
Qed.

Lemma rls_ok_spec alias d session vs o vs' : buildRlsClause alias d session vs = (Ok o, vs') ->
  forallb policy_ok (rls_active d) = true /\ option_list o = render alias <$> rls_cond session (length vs) d /\ vs' = vs ++ rls_params session d.
Proof.
  unfold buildRlsClause, rls_params, rls_cond, rls_active. destruct (ad_policies d) as [|p ps] eqn:Hps.
  { cbn. intros [= <- <-]. by rewrite app_nil_r. }
  destruct (existsb allows_all (p :: ps)). { cbn. intros [= <- <-]. by rewrite app_nil_r. }
  intros H. unfold mbind, M_bind in H. destruct (map_build _ (p :: ps) vs) as [[fs|e] ws] eqn:Hm; [|done].
  apply (map_build_ok _ (fun n p => render alias (policy_cond n p)) (policy_params session) policy_ok) in Hm as (Hok & -> & ->).
  - injection H as <- <-. split; [done|]. split; [|done]. rewrite <- number_fmap.
    cbn [number]. by destruct (number policy_cond _ _ ps).
  - intros q n. apply policy_emits.
  - intros q Hq. apply str_in_not_elem in Hq.
    destruct (String.eqb_spec (mt_kind (matcher_of q)) "deny_all"); [set_solver|].
    destruct (String.eqb_spec (mt_kind (matcher_of q)) "session_equals_row"); [set_solver | apply fails_throw].
Qed.

Lemma policy_meaning session p row vs rest : policy_ok p = true ->
  eval (vs ++ policy_params session p ++ rest) row (policy_cond (length vs) p) = Some true <-> policy_holds session row p = true.
Proof.
  unfold policy_ok, policy_cond, policy_params, policy_holds, policy_column, denies. intros Hk%str_in_elem.
  destruct (String.eqb_spec (mt_kind (matcher_of p)) "deny_all") as [->|Hn]; [by cbn|].
  destruct (String.eqb_spec (mt_kind (matcher_of p)) "session_equals_row") as [_|]; [|set_solver]. cbn [andb eval].
  rewrite <- (Nat.add_0_r (S (length vs))), (bound_at _ [session_value session (matcher_of p)] _ 0 (session_value session (matcher_of p))) by done.
  by rewrite compare_holds_true.
Qed.

Lemma rls_meaning session d row vs rest : forallb policy_ok (rls_active d) = true ->
  satisfies (vs ++ rls_params session d ++ rest) row (rls_cond session (length vs) d) = policies_hold d session row.
Proof.
  unfold rls_params, rls_cond, rls_active, policies_hold. destruct (ad_policies d) as [|p ps]; [done|].
  destruct (existsb allows_all (p :: ps)); [done|]. intros Hok.
  pose proof (holds_numbers policy_cond (policy_params session) policy_ok (policy_holds session row) row
                (fun x vs rest => policy_meaning session x row vs rest) (p :: ps) vs rest Hok) as H.
  revert H. cbn [number]. generalize (number policy_cond (fun p => length (policy_params session p)) (length vs + length (policy_params session p)) ps).
  generalize (vs ++ flat_map (policy_params session) (p :: ps) ++ rest). generalize (policy_cond (length vs) p). intros c values cs H.
  assert (He : existsb (policy_holds session row) (p :: ps) = existsb (holds values row) (c :: cs)).
  { revert H. generalize (p :: ps), (c :: cs). clear. intros l k. revert l. induction k as [|x k IH]; intros [|y l] H; try done.
    injection H as Hx H. cbn. by rewrite Hx, (IH l). }
  rewrite orb_false_l, He. destruct cs as [|c' cs]; [cbn; by rewrite andb_true_r, orb_false_r|].
  unfold satisfies. cbn [forallb]. rewrite andb_true_r. apply holds_any.
Qed.

(** ** Keys and cursors *)

Definition key_cond (n : nat) (kv : string * jsval) : cond := CCompare kv.1 "=" (S n).

Lemma keys_ok alias kvs vs cs vs' : buildPrimaryKeyClause alias kvs vs = (Ok cs, vs') ->
  cs = render alias <$> number key_cond (fun _ => 1%nat) (length vs) kvs /\ vs' = vs ++ kvs.*2.
Proof.
  intros H. apply (map_build_ok _ (fun n kv => render alias (key_cond n kv)) (fun kv => [kv.2]) (fun _ => true)) in H as (_ & -> & ->).
  - by rewrite <- number_fmap.
  - intros kv n _. apply (emits_then _ _ (fun p => column_ref alias kv.1 +:+ " = " +:+ p)), (emits_value n _ None).
  - done.
Qed.

Lemma keys_meaning kvs row vs rest :
  satisfies (vs ++ kvs.*2 ++ rest) row (number key_cond (fun _ => 1%nat) (length vs) kvs) = key_holds row kvs.
Proof.
  change (kvs.*2) with (flat_map (fun kv : string * jsval => [kv.2]) kvs).
  apply (satisfies_numbers key_cond (fun kv => [kv.2]) (fun _ => true) (fun kv => compare_holds "=" (row kv.1) kv.2)); [|by induction kvs].
  intros kv us rest' _. unfold key_cond. cbn [eval]. rewrite <- (Nat.add_0_r (S (length us))), (bound_at _ [kv.2] _ 0 kv.2) by done.
  by rewrite compare_holds_true.
Qed.

Fixpoint cursor_cond (n : nat) (order : list order_entry) : cond :=
  match order with
  | [] => CFalse
  | e :: rest =>
      let b := CCompare (oe_column e) (if String.eqb (oe_direction e) "desc" then "<" else ">") (S n) in
      match rest with
      | [] => b
      | _ => CEither b (CAnd (CCompare (oe_column e) "=" (S (S n))) (cursor_cond (S (S n)) rest))
      end
  end.

Fixpoint cursor_params (value : string -> jsval) (order : list order_entry) : list jsval :=
  match order with
  | [] => []
  | e :: rest => let v := value (oe_column e) in v :: match rest with [] => [] | _ => v :: cursor_params value rest end
  end.

Lemma comparator_emits alias value order n : order <> [] ->
  emits n (buildComparator alias value order) (render alias (cursor_cond n order)) (cursor_params value order).
Proof.
  revert n. induction order as [|e [|e' rest] IH]; intros n Hne; [done| |].
  - intros vs Hn. pose proof (emits_then _ _ (fun p => column_ref alias (oe_column e) +:+ (if String.eqb (oe_direction e) "desc" then " < " else " > ") +:+ p)
      _ _ (emits_value n (value (oe_column e)) None) vs Hn) as H.
    cbn [cursor_cond cursor_params render buildComparator]. destruct (String.eqb (oe_direction e) "desc"); exact H.
  - set (tl := e' :: rest) in *. set (v := value (oe_column e)). set (c := column_ref alias (oe_column e)).
    set (op := if String.eqb (oe_direction e) "desc" then " < " else " > ").
    change (emits n (p1 ← bind_value v; p2 ← bind_value v; t ← buildComparator alias value tl;
                     mret ("(" +:+ (c +:+ op +:+ p1) +:+ " OR (" +:+ c +:+ " = " +:+ p2 +:+ " AND " +:+ t +:+ "))"))
              (render alias (CEither (CCompare (oe_column e) (if String.eqb (oe_direction e) "desc" then "<" else ">") (S n))
                               (CAnd (CCompare (oe_column e) "=" (S (S n))) (cursor_cond (S (S n)) tl))))
              ([v] ++ [v] ++ cursor_params value tl)).
    eapply emits_seq; [apply (emits_value n _ None)|]. eapply emits_seq; [apply (emits_value _ _ None)|]. cbn [length].
    replace (n + 1)%nat with (S n) by lia. replace (S n + 1)%nat with (S (S n)) by lia.
    pose proof (emits_then (S (S n)) _ (fun t => "(" +:+ (c +:+ op +:+ PgSemantics.placeholder (S n)) +:+ " OR (" +:+ c +:+ " = " +:+
      PgSemantics.placeholder (S (S n)) +:+ " AND " +:+ t +:+ "))") _ _ (IH (S (S n)) ltac:(done))) as H.
    eapply eq_emits; [exact H|]. clearbody tl v. cbn [render]. fold c. unfold op. clear.
    destruct (String.eqb (oe_direction e) "desc"); rewrite !string_app_assoc; reflexivity.
Qed.

Lemma cursor_meaning value order row vs rest : order <> [] ->
  eval (vs ++ cursor_params value order ++ rest) row (cursor_cond (length vs) order) = Some true <-> beyond row value order = true.
Proof.
  revert vs. induction order as [|e [|e' order] IH]; intros vs Hne; [done| |].
  - cbn [cursor_params cursor_cond eval beyond]. rewrite bool_decide_true by done. rewrite andb_false_l, orb_false_r, compare_holds_true.
    by rewrite <- (Nat.add_0_r (S (length vs))), (bound_at _ [value (oe_column e)] _ 0 (value (oe_column e))).
  - set (v := value (oe_column e)). set (tail := e' :: order) in *.
    change (cursor_params value (e :: tail)) with (v :: v :: cursor_params value tail).
    change (cursor_cond (length vs) (e :: tail)) with
      (CEither (CCompare (oe_column e) (if String.eqb (oe_direction e) "desc" then "<" else ">") (S (length vs)))
         (CAnd (CCompare (oe_column e) "=" (S (S (length vs)))) (cursor_cond (S (S (length vs))) tail))).
    cbn [eval]. rewrite or3_true, and3_true.
    rewrite <- (Nat.add_0_r (S (length vs))) at 1. rewrite (bound_at _ (v :: v :: cursor_params value tail) _ 0 v) by done.
    replace (S (S (length vs))) with (S (length vs) + 1)%nat at 1 by lia. rewrite (bound_at _ (v :: v :: cursor_params value tail) _ 1 v) by done.
    specialize (IH (vs ++ [v; v]) ltac:(done)). rewrite length_app in IH. cbn [length] in IH.
    replace (length vs + 2)%nat with (S (S (length vs))) in IH by lia. rewrite <- app_assoc in IH. cbn [app] in IH |- *. rewrite IH.
    change (beyond row value (e :: tail)) with
      (compare_holds (if String.eqb (oe_direction e) "desc" then "<" else ">") (row (oe_column e)) v
       || (negb (bool_decide (tail = [])) && compare_holds "=" (row (oe_column e)) v && beyond row value tail)).
    rewrite (bool_decide_false (tail = [])) by done. cbn [negb]. rewrite andb_true_l, orb_true_iff, andb_true_iff, !compare_holds_true. done.
Qed.

(** What the cursor of a request asks for: nothing, or the rows beyond it. *)
Definition cursor_after (cursor : jsval) : result js_error (option (list jsval)) :=
  if negb (truthy cursor) then Ok None
  else decoded ← decode_cursor cursor; entries ← elements_of (js_get decoded "order");
       if existsb nullish entries then Err js_type_error else Ok (Some entries).

Definition after_params (entries : option (list jsval)) (order : list order_entry) : list jsval :=
  match entries with Some es => cursor_params (cursor_value es) order | None => [] end.
Definition after_cond (n : nat) (entries : option (list jsval)) (order : list order_entry) : list cond :=
  match entries with Some _ => [cursor_cond n order] | None => [] end.
Definition after_holds (row : sql_row) (entries : option (list jsval)) (order : list order_entry) : bool :=
  match entries with Some es => beyond row (cursor_value es) order | None => true end.

Lemma cursor_ok alias order cursor vs o vs' : order <> [] -> buildCursorClause alias order cursor vs = (Ok o, vs') ->
  exists entries, cursor_after cursor = Ok entries /\ option_list o = render alias <$> after_cond (length vs) entries order /\
    vs' = vs ++ after_params entries order.
Proof.
  intros Hne. unfold buildCursorClause, cursor_after. destruct (negb (truthy cursor)).
  { intros [= <- <-]. exists None. by rewrite app_nil_r. }
  unfold mbind, M_bind, result_bind, lift. destruct (decode_cursor cursor) as [decoded|]; [|done].
  destruct (elements_of (js_get decoded "order")) as [entries|]; [|done]. destruct (existsb nullish entries); [done|].
  destruct order as [|e order]; [done|]. rewrite (comparator_emits alias (cursor_value entries) (e :: order) (length vs) Hne vs eq_refl).
  intros [= <- <-]. by exists (Some entries).
Qed.

Lemma after_meaning entries order row vs rest : order <> [] ->
  satisfies (vs ++ after_params entries order ++ rest) row (after_cond (length vs) entries order) = after_holds row entries order.
Proof.
  intros Hne. destruct entries as [es|]; [|done]. cbn [after_params after_cond after_holds satisfies forallb]. rewrite andb_true_r.
  apply eq_bool_prop_intro. unfold holds. rewrite bool_decide_spec, Is_true_true. by apply cursor_meaning.
Qed.
End meaning_lemmas.
End builders.
