(* ===== verification/PgTypes.v ===== *)
(** * Plans name declared columns

    What a request becomes when it is made regular: names of columns that the
    table declares, operators that fit them, an order that the primary key makes
    total. *)
From S2P Require Import Prelude JsValue Json Regex PgTable PgSql PgPlan PgSemantics.
Local Open Scope Z_scope.

Lemma traverse_ok {A B} (f : A -> result js_error B) l ys : traverse f l = Ok ys -> Forall2 (fun x y => f x = Ok y) l ys.
Proof.
  revert ys. induction l as [|x l IH]; intros ys; cbn; [by intros [= <-]|]. destruct (f x) as [y|] eqn:Hx; [|done].
  destruct (traverse f l) as [ys'|]; [|done]. intros [= <-]. constructor; [done | by apply IH].
Qed.

Lemma traverse_forall {A B} (f : A -> result js_error B) (P : B -> Prop) l ys :
  (forall x y, f x = Ok y -> P y) -> traverse f l = Ok ys -> Forall P ys.
Proof. intros HP H%traverse_ok. induction H; constructor; [by eapply HP | done]. Qed.

(** ** Declared columns *)

Definition declares (t : table) (name : string) : Prop := exists c, find_column name (tb_columns t) = Some c.

Lemma find_column_name name cs c : find_column name cs = Some c -> co_name c = name.
Proof. unfold find_column. intros H. apply List.find_some in H as [_ H]. by apply String.eqb_eq in H. Qed.

Lemma find_column_some cs c : c ∈ cs -> exists c', find_column (co_name c) cs = Some c'.
Proof.
  intros Hc. unfold find_column. destruct (List.find _ _) as [c'|] eqn:Hf; [by exists c'|].
  apply list_elem_of_In, in_rev in Hc. pose proof (List.find_none _ _ Hf c Hc) as H. cbv beta in H. by rewrite String.eqb_refl in H.
Qed.

Lemma ensured t v c : ensureColumn t v = Ok c -> find_column (co_name c) (tb_columns t) = Some c.
Proof.
  unfold ensureColumn. intros H. apply result_bind_ok in H as (name & _ & H). destruct (find_column name (tb_columns t)) as [c'|] eqn:Hf; [|done].
  injection H as <-. by rewrite (find_column_name _ _ _ Hf).
Qed.

Lemma ensured_declares t v c : ensureColumn t v = Ok c -> declares t (co_name c).
Proof. intros H%ensured. by exists c. Qed.

Lemma select_declares v t l : normalizeSelect v t = Ok l -> Forall (declares t) l.
Proof.
  unfold normalizeSelect. destruct (match v with JArr xs => xs | JStr s => JStr <$> comma_list s | _ => [] end) as [|x xs].
  - intros [= <-]. apply Forall_fmap, Forall_forall. intros c Hc. by apply find_column_some.
  - apply traverse_forall. intros y z H. apply result_bind_ok in H as (c & H & Hz). injection Hz as <-. by eapply ensured_declares.
Qed.

Definition order_declares (t : table) (e : order_entry) : Prop := declares t (oe_column e) /\ str_in (oe_direction e) ORDER_DIRECTION_SET = true.

Lemma with_primary_key_forall (P : order_entry -> Prop) pk order :
  Forall P order -> Forall (fun k => P (mk_order k "asc")) pk -> Forall P (with_primary_key pk order).
Proof.
  unfold with_primary_key. intros Ho Hp. revert order Ho. induction Hp as [|k pk Hk _ IH]; intros order Ho; [done|]. cbn. apply IH.
  destruct (existsb _ order); [done|]. apply Forall_app. split; [done | by apply Forall_singleton].
Qed.

Lemma with_primary_key_keep pk order e : e ∈ order -> e ∈ with_primary_key pk order.
Proof.
  unfold with_primary_key. revert order. induction pk as [|k pk IH]; intros order He; [done|]. cbn. apply IH. destruct (existsb _ order); [done | set_solver].
Qed.

Lemma with_primary_key_total pk order k : k ∈ pk -> k ∈ oe_column <$> with_primary_key pk order.
Proof.
  unfold with_primary_key. revert order. induction pk as [|k' pk IH]; intros order; [set_solver|]. intros [->|Hk]%elem_of_cons; cbn; [|by apply IH].
  set (order' := if existsb _ order then order else order ++ [mk_order k' "asc"]).
  assert (He : exists e, e ∈ order' /\ oe_column e = k').
  { unfold order'. destruct (existsb (fun e => String.eqb (oe_column e) k') order) eqn:E.
    - apply existsb_exists in E as (e & He & Hk). apply list_elem_of_In in He. apply String.eqb_eq in Hk. by exists e.
    - exists (mk_order k' "asc"). split; [set_solver | done]. }
  destruct He as (e & He & <-). apply list_elem_of_fmap. exists e. split; [done|]. by apply (with_primary_key_keep pk order').
Qed.

Lemma table_keys_declared ti t : normalizeTableDefinition ti = Ok t -> Forall (declares t) (tb_pk t).
Proof.
  destruct ti as [s n cs pk rels]. cbn. intros H. apply result_bind_ok in H as (s' & _ & H). apply result_bind_ok in H as (n' & _ & H).
  apply result_bind_ok in H as (cs' & _ & H). apply result_bind_ok in H as (ks & _ & H). destruct (bool_decide (cs' = [])); [done|].
  destruct (bool_decide _); [done|]. destruct (List.find _ _) eqn:Hf; [done|]. apply result_bind_ok in H as (rs & _ & H). injection H as <-.
  unfold declares. cbn [tb_pk tb_columns]. apply Forall_forall. intros k Hk. apply list_elem_of_In in Hk. pose proof (List.find_none _ _ Hf k Hk) as Hn.
  apply negb_false_iff, bool_decide_eq_true in Hn. by destruct Hn as [c Hc]; exists c.
Qed.

Lemma order_is_declared v t order : Forall (declares t) (tb_pk t) -> normalizeOrder v t = Ok order ->
  Forall (order_declares t) order /\ forall k, k ∈ tb_pk t -> k ∈ oe_column <$> order.
Proof.
  unfold normalizeOrder. intros Hpk H. apply result_bind_ok in H as (es & He & H). injection H as <-. split; [|intros; by apply with_primary_key_total].
  apply with_primary_key_forall.
  - eapply traverse_forall; [|exact He]. intros x e Hx. unfold order_entry_of in Hx. destruct (nullish x); [done|].
    apply result_bind_ok in Hx as (c & Hc & Hx). destruct (str_in _ ORDER_DIRECTION_SET) eqn:Hd; [|done]. injection Hx as <-.
    split; [by eapply ensured_declares | done].
  - eapply Forall_impl; [exact Hpk|]. intros k Hk. by split.
Qed.

(** A filter fits its column: JSON operators are for JSON columns. *)
Definition filter_fits (t : table) (f : data_filter) : Prop :=
  str_in (fi_operator f) POSTGRES_DATA_FILTER_OPERATORS = true /\
  exists c, find_column (fi_column f) (tb_columns t) = Some c /\ (str_in (fi_operator f) ["json_contains"; "json_path_eq"] = true -> co_json c = true).

Lemma filters_fit v t fs : normalizeFilters v t = Ok fs -> Forall (filter_fits t) fs.
Proof.
  unfold normalizeFilters. intros H. apply result_bind_ok in H as (xs & _ & H). eapply traverse_forall; [|exact H]. clear H. intros x f H.
  unfold normalize_filter in H. destruct (nullish x); [done|]. destruct (str_in _ POSTGRES_DATA_FILTER_OPERATORS) eqn:Hop; [|done]. cbn [negb] in H.
  apply result_bind_ok in H as (c & Hc & H). destruct (_ && negb (co_json c)) eqn:Hj; [done|]. apply result_bind_ok in H as (path & _ & H). injection H as <-.
  split; [done|]. exists c. split; [by eapply ensured|]. cbn [fi_operator]. intros Ho. destruct (co_json c); [done|]. rewrite andb_true_r in Hj.
  unfold str_in in Ho. cbn [existsb] in Ho. by rewrite orb_false_r, Hj in Ho.
Qed.

Lemma from_entries_forall (P : string -> Prop) kvs : Forall P kvs.*1 -> Forall P (from_entries kvs).*1.
Proof.
  unfold from_entries. cut (forall acc : list (string * jsval), Forall P acc.*1 -> Forall P kvs.*1 -> Forall P (foldl (fun acc kv => assoc_set kv.1 kv.2 acc) acc kvs).*1).
  { intros H. apply H. constructor. }
  induction kvs as [|[k v] kvs IH]; intros acc Ha Hk; [done|]. cbn in Hk |- *. inversion Hk; subst. apply IH; [|done].
  clear -Ha H1. induction acc as [|[k' v'] acc IH]; cbn; [by constructor|]. cbn in Ha. inversion Ha; subst.
  destruct (String.eqb k k'); cbn; constructor; try done. by apply IH.
Qed.

Lemma values_declare v t kvs : normalizeValues v t = Ok kvs -> kvs <> [] /\ Forall (declares t) kvs.*1.
Proof.
  unfold normalizeValues, column_entries. intros H. apply result_bind_ok in H as (kvs' & H' & H). apply result_bind_ok in H' as (es & _ & H').
  apply result_bind_ok in H' as (fs & Hf & H'). injection H' as <-.
  assert (Hd : Forall (declares t) (from_entries fs).*1).
  { apply from_entries_forall, Forall_fmap. eapply traverse_forall; [|exact Hf]. intros x y Hx. apply result_bind_ok in Hx as (c & Hc & Hx).
    injection Hx as <-. by eapply ensured_declares. }
  assert (Hc : Forall (declares t) (compactDefined (from_entries fs)).*1).
  { clear -Hd. unfold compactDefined. rewrite Forall_fmap in Hd |- *. apply Forall_forall. intros kv Hin. apply list_elem_of_In in Hin.
    apply filter_In in Hin as [Hin _]. rewrite Forall_forall in Hd. apply (Hd kv). by apply list_elem_of_In. }
  destruct (compactDefined (from_entries fs)) as [|kv kvs0] eqn:E; [done|]. injection H as <-. done.
Qed.

Section types.
Context `{NT : !NumberText}.

(** C23: a plan on the rows of a table names only columns that the table declares:
    in what it selects, in what it filters on (and a JSON operator only on a JSON
    column), in its order, which names every column of the primary key and so
    breaks every tie, and in what it writes, which is never empty. *)
Theorem plans_name_declared_columns operation r cx p t :
  normalizeTableDefinition (rq_table r) = Ok t -> row_plan operation r cx = Ok p ->
  Forall (declares t) (pn_selection p) /\ Forall (filter_fits t) (pn_filters p) /\ Forall (order_declares t) (pn_order p) /\
  (forall k, k ∈ tb_pk t -> k ∈ oe_column <$> pn_order p) /\
  (forall kvs, pn_mutation p = Some kvs -> kvs <> [] /\ Forall (declares t) kvs.*1).
Proof.
  intros Ht H. unfold row_plan in H. rewrite Ht in H. cbn [mbind result_bind] in H. apply result_bind_ok in H as (q & Hq & H).
  apply result_bind_ok in H as ([role d] & _ & H). destruct (row_statement _ _ _ _ _ _ _ _) as [[[[[text ws] ret] rels]|] values]; [|done].
  injection H as <-. cbn [pn_selection pn_filters pn_order pn_mutation]. unfold regular_query in Hq.
  apply result_bind_ok in Hq as (sel & Hsel & Hq). apply result_bind_ok in Hq as (fs & Hfs & Hq). apply result_bind_ok in Hq as (js & _ & Hq).
  apply result_bind_ok in Hq as (order & Ho & Hq). apply result_bind_ok in Hq as (key & _ & Hq). apply result_bind_ok in Hq as (vals & Hv & Hq).
  injection Hq as <-. cbn [ry_select ry_filters ry_order ry_values].
  destruct (order_is_declared _ _ _ (table_keys_declared _ _ Ht) Ho) as [Hod Htot].
  split_and!; [by eapply select_declares | by eapply filters_fit | done | done|]. intros kvs ->.
  destruct (String.eqb operation "insert"); [apply result_bind_ok in Hv as (k & Hk & Hv); injection Hv as ->; by eapply values_declare|].
  destruct (String.eqb operation "update"); [apply result_bind_ok in Hv as (k & Hk & Hv); injection Hv as ->; by eapply values_declare|done].
Qed.

End types.

Lemma plans_name_declared_columns_witness : exists p,
  @row_plan sample_number_text "list" (orders_request (filtered "a")) orders_context = Ok p /\
  Forall (declares orders) (pn_selection p) /\ Forall (filter_fits orders) (pn_filters p) /\ "id" ∈ oe_column <$> pn_order p.
Proof.
  destruct (@row_plan sample_number_text "list" (orders_request (filtered "a")) orders_context) as [p|e] eqn:E; [|vm_compute in E; discriminate E].
  exists p. split; [reflexivity|].
  destruct (@plans_name_declared_columns sample_number_text "list" (orders_request (filtered "a")) orders_context p orders orders_normalized E) as (Hs & Hf & _ & Hk & _).
  split; [exact Hs|]. split; [exact Hf|]. apply Hk. vm_compute. left.
Defined.
