(* ===== verification/PgAccess.v ===== *)
(** * Who a plan of the PostgreSQL data API runs as

    The first candidate role that may run the command, and what every plan's
    role has been granted. *)
From S2P Require Import Prelude JsValue Json Regex PgTable PgSql PgPlan PgBulk PgSaved PgSemantics.
Local Open Scope Z_scope.

(** ** Roles *)

Section roles.
Variables (command : string) (a : access) (session : jsval) (row : option jsval) (t : table) (joins : list relation_join).

Definition decision_of (role : string) : access_decision := evaluatePlanningAccess role command (tb_schema t) (tb_name t) a session row.

(** The role may run the command and read every joined relation. *)
Definition permitted (role : string) : bool :=
  ad_allowed (decision_of role) && forallb (fun j => ad_allowed (evaluatePlanningAccess role "select" (tb_schema (jn_target j)) (tb_name (jn_target j))
                                                         (rh_access (jn_head j)) session None)) joins.

(** Why a role was passed over. *)
Definition refusal (role : string) : string :=
  role +:+ ":" +:+ (if ad_allowed (decision_of role) then default "" (refused_relation role session joins) else ad_reason (decision_of role)).

Lemma refused_relation_none role : refused_relation role session joins = None <->
  forallb (fun j => ad_allowed (evaluatePlanningAccess role "select" (tb_schema (jn_target j)) (tb_name (jn_target j)) (rh_access (jn_head j)) session None)) joins = true.
Proof.
  unfold refused_relation. induction joins as [|j js IH]; [done|]. cbn [List.find forallb].
  destruct (ad_allowed _) eqn:E; cbn [negb]; [exact IH|]. split; [done|]. by rewrite andb_false_l.
Qed.

Lemma resolve_role_find roles errors : resolve_role roles errors command a session row t joins =
  match List.find permitted roles with
  | Some role => Ok (role, decision_of role)
  | None => Err (no_role "data API request" (errors ++ (refusal <$> roles)))
  end.
Proof.
  revert errors. induction roles as [|role roles IH]; intros errors; [by rewrite app_nil_r|].
  cbn [resolve_role List.find fmap list_fmap]. unfold permitted at 1, refusal. fold (decision_of role).
  destruct (ad_allowed (decision_of role)) eqn:Ha; cbn [negb].
  - pose proof (refused_relation_none role) as Hr. destruct (refused_relation role session joins) as [e|].
    + destruct (forallb _ joins); [discriminate (proj2 Hr eq_refl)|]. rewrite IH, <- app_assoc. done.
    + rewrite (proj1 Hr eq_refl). done.
  - rewrite IH, <- app_assoc. done.
Qed.
End roles.

Lemma find_member {A} (p : A -> bool) l x : List.find p l = Some x -> x ∈ l /\ p x = true.
Proof. intros H. apply List.find_some in H as [Hin Hp]. by rewrite list_elem_of_In. Qed.

(** ** Grants *)

Definition granted_for (a : access) (role command schema name : string) : bool :=
  grants_usage a role schema && grants_command a role command schema name.

Lemma allowed_granted role command schema name a session row :
  ad_allowed (evaluatePlanningAccess role command schema name a session row) = true -> granted_for a role command schema name = true.
Proof.
  unfold evaluatePlanningAccess, evaluatePostgresDataApiAccess, granted_for.
  destruct (grants_usage a role schema), (grants_command a role command schema name), row; done.
Qed.

Lemma resolved_granted roles command a session row t joins role d :
  resolveEffectiveRole roles command a session row t joins = Ok (role, d) ->
  role ∈ roles /\ granted_for a role command (tb_schema t) (tb_name t) = true.
Proof.
  unfold resolveEffectiveRole. rewrite resolve_role_find. destruct (List.find _ roles) as [role'|] eqn:Hf; [|done]. intros [= <- <-].
  apply find_member in Hf as [Hin Hp]. split; [done|]. apply andb_true_iff in Hp as [Ha _]. by eapply allowed_granted.
Qed.

Lemma refused_row_none role command t a session rows : refused_row role command t a session rows = None ->
  Forall (fun row => ad_allowed (evaluatePlanningAccess role command (tb_schema t) (tb_name t) a session (Some (JObj row))) = true) rows.
Proof.
  unfold refused_row. destruct (List.find _ rows) eqn:Hf; [done|]. intros _. apply List.Forall_forall. intros row Hin.
  pose proof (List.find_none _ _ Hf row Hin) as H. by apply negb_false_iff in H.
Qed.

Lemma batch_role_rows roles errors command t a session rows role d :
  resolve_batch_role roles errors command t a session rows = Ok (role, d) ->
  role ∈ roles /\ Forall (fun row => ad_allowed (evaluatePlanningAccess role command (tb_schema t) (tb_name t) a session (Some (JObj row))) = true) rows.
Proof.
  revert errors. induction roles as [|role' roles IH]; intros errors; [done|]. cbn.
  destruct (refused_row _ _ _ _ _ _) eqn:Hr; [intros H%IH; set_solver|]. intros [= <- _]. split; [set_solver | by apply refused_row_none].
Qed.

Lemma rpc_role_granted roles errors a ro role : resolve_rpc_role roles errors a ro = Ok role ->
  role ∈ roles /\ grants_usage a role (ro_schema ro) = true /\ hasRoutineExecuteGrant a role ro = true.
Proof.
  revert errors. induction roles as [|role' roles IH]; intros errors; [done|]. cbn.
  destruct (grants_usage a role' (ro_schema ro)) eqn:Hu; [|intros H%IH; set_solver]. cbn.
  destruct (hasRoutineExecuteGrant a role' ro) eqn:He; [|intros H%IH; set_solver]. intros [= <-]. cbn. set_solver.
Qed.

(** ** Plans *)

(** What a plan for a request may do. *)
Definition plan_granted_for (r : data_request) (p : data_plan) : Prop :=
  pn_role p ∈ candidate_roles r /\
  (if String.eqb (pn_command p) "execute"
   then exists ro, normalizeRoutineDefinition (rq_routine r) = Ok ro /\ ro_exposed ro = true /\
          pn_schema p = ro_schema ro /\ pn_table p = ro_name ro /\
          grants_usage (rq_access r) (pn_role p) (pn_schema p) = true /\ hasRoutineExecuteGrant (rq_access r) (pn_role p) ro = true
   else granted_for (rq_access r) (pn_role p) (pn_command p) (pn_schema p) (pn_table p) = true).

Section plans.
Context `{NT : !NumberText}.

Ltac keep_bind x E H := apply result_bind_ok in H as (x & E & H).
Ltac next_bind x H := let E := fresh "E" in keep_bind x E H; try clear E.

(** A role resolved for the table of a plan. *)
Lemma granted_plan r p roles command row t joins role d :
  roles = candidate_roles r ->
  resolveEffectiveRole roles command (rq_access r) (rq_session r) row t joins = Ok (role, d) ->
  pn_role p = role -> pn_command p = command -> pn_schema p = tb_schema t -> pn_table p = tb_name t -> command <> "execute" -> plan_granted_for r p.
Proof.
  intros -> [Hin Hg]%resolved_granted <- Hcmd Hs Hn Hc. split; [done|]. rewrite Hcmd, Hs, Hn.
  destruct (String.eqb_spec command "execute"); done.
Qed.

Lemma context_roles r cx : request_context r = Ok cx -> cx_roles cx = candidate_roles r.
Proof.
  unfold request_context. intros H. next_bind x H. destruct (candidate_roles r) as [|role roles]; [done|]. next_bind y H. by injection H as <-.
Qed.

Lemma row_plan_granted operation r cx p : commandForOperation operation <> "execute" -> cx_roles cx = candidate_roles r ->
  row_plan operation r cx = Ok p -> plan_granted_for r p.
Proof.
  intros Hop Hcx H. unfold row_plan in H. next_bind t H. next_bind q H. keep_bind rd Hr H. destruct rd as [role d].
  destruct (row_statement _ _ _ _ _ _ _ _) as [[[[[text ws] ret] rels]|] values]; [|done]. injection H as <-.
  by apply (granted_plan _ _ _ _ _ _ _ _ _ Hcx Hr).
Qed.

Lemma bulk_insert_granted rows r cx p : cx_roles cx = candidate_roles r -> bulk_insert_plan rows r cx = Ok p -> plan_granted_for r p.
Proof.
  intros Hcx H. unfold bulk_insert_plan in H. next_bind t H. next_bind sel H. next_bind items H. next_bind kvs H.
  destruct (bool_decide (kvs = [])) eqn:Hne; [done|]. apply bool_decide_eq_false in Hne. next_bind b H. keep_bind rd Hr H. destruct rd as [role d].
  destruct (bulk_insert_sql _ _ _ _ _) as [[text|] values]; [|done]. injection H as <-.
  apply batch_role_rows in Hr as [Hin Hrows]. rewrite Hcx in Hin. split; [done|]. destruct Hrows as [|row rows' Hrow _]; [done|].
  by apply allowed_granted in Hrow.
Qed.

Lemma plan_operation_granted operation r cx p : request_context r = Ok cx -> plan_operation operation r cx = Ok p ->
  (commandForOperation operation = "execute" -> operation = "rpc") -> plan_granted_for r p.
Proof.
  intros Hcx%context_roles H Hop. unfold plan_operation in H.
  destruct (String.eqb_spec operation "rpc") as [->|Hrpc].
  { unfold rpc_plan in H. keep_bind ro Hro H. destruct (ro_exposed ro) eqn:Hx; [|done]. cbn in H. next_bind bs H. keep_bind role Hr H.
    destruct (rpc_sql ro bs []) as [[text|] values]; [|done]. injection H as <-. rewrite Hcx in Hr. apply rpc_role_granted in Hr as (Hin & Hu & He).
    split; [done|]. cbn. by exists ro. }
  destruct (String.eqb operation "bulk_insert"); [by eapply bulk_insert_granted|].
  destruct (String.eqb operation "bulk_update").
  { unfold bulk_update_plan in H. next_bind t H. next_bind sel H. next_bind items H. next_bind ops H. destruct (bool_decide _); [done|].
    next_bind b H. keep_bind rd Hr H. destruct rd as [role d]. destruct (bulk_update_sql _ _ _ _ _ _) as [[text|] values]; [|done].
    injection H as <-. by apply (granted_plan _ _ _ _ _ _ _ _ _ Hcx Hr). }
  destruct (String.eqb operation "bulk_delete").
  { unfold bulk_delete_plan in H. next_bind t H. next_bind items H. next_bind sels H. destruct (bool_decide _); [done|]. next_bind b H.
    keep_bind rd Hr H. destruct rd as [role d]. next_bind sel H. destruct (bulk_delete_sql _ _ _ _ _ _) as [[text|] values]; [|done].
    injection H as <-. by apply (granted_plan _ _ _ _ _ _ _ _ _ Hcx Hr). }
  destruct (String.eqb operation "import").
  { unfold import_plan in H. next_bind fmt H. destruct (String.eqb fmt "json").
    - keep_bind p' Hp H. injection H as <-. exact (bulk_insert_granted _ _ _ _ Hcx Hp).
    - next_bind t H. next_bind cols H. keep_bind rd Hr H. destruct rd as [role d]. injection H as <-. by apply (granted_plan _ _ _ _ _ _ _ _ _ Hcx Hr). }
  destruct (String.eqb operation "export").
  { unfold export_plan in H. next_bind t H. next_bind q H. next_bind opts H. keep_bind rd Hr H. destruct rd as [role d].
    destruct (export_statement _ _ _ _ _ _) as [[[[text ws] rels]|] values]; [|done]. next_bind fmt H. injection H as <-. by apply (granted_plan _ _ _ _ _ _ _ _ _ Hcx Hr). }
  destruct (String.eqb operation "knn_search").
  { unfold knn_plan in H. next_bind t H. next_bind op H. next_bind vx H. next_bind found H. destruct found as [vc|]; [|done].
    destruct (bool_decide _); [done|]. destruct (positive_integer _); [|done]. next_bind sel H. next_bind fs H. keep_bind rd Hr H.
    destruct rd as [role d]. destruct (knn_statement _ _ _ _ _ _ _ _ _ _) as [[text|] values]; [|done]. injection H as <-. by apply (granted_plan _ _ _ _ _ _ _ _ _ Hcx Hr). }
  eapply row_plan_granted; [|done..]. intros He. by apply Hrpc, Hop.
Qed.

Lemma execute_is_rpc operation : str_in operation POSTGRES_DATA_API_OPERATIONS = true -> commandForOperation operation = "execute" -> operation = "rpc".
Proof. intros H%str_in_elem. revert operation H. apply (proj1 (Forall_forall (fun operation => commandForOperation operation = "execute" -> operation = "rpc") _)).
  repeat constructor; done.
Qed.

Lemma planned_granted operation r p : planned operation r = Ok p -> (commandForOperation operation = "execute" -> operation = "rpc") -> plan_granted_for r p.
Proof. unfold planned. intros H. keep_bind cx Hcx H. by eapply plan_operation_granted. Qed.

Lemma granted_with_members r kvs p : plan_granted_for (with_members r kvs) p <-> plan_granted_for r p.
Proof. done. Qed.

Lemma granted_replanned r operation detail p : plan_granted_for r (replanned operation detail p) <-> plan_granted_for r p.
Proof. done. Qed.

Lemma saved_query_granted sq r p : buildPostgresSavedQueryExecutionPlan sq r = Ok p -> plan_granted_for r p.
Proof.
  unfold buildPostgresSavedQueryExecutionPlan. intros H. next_bind def H. next_bind ps H. keep_bind p' Hp H. injection H as <-.
  apply granted_replanned. destruct (String.eqb _ "routine").
  - keep_bind args Ha Hp. apply planned_granted in Hp; [by apply granted_with_members in Hp | done].
  - keep_bind fs Hf Hp. apply planned_granted in Hp; [by apply granted_with_members in Hp | done].
Qed.

Lemma endpoint_granted r p : buildPostgresDataStableEndpointInvocationPlan r = Ok p -> plan_granted_for r p.
Proof.
  unfold buildPostgresDataStableEndpointInvocationPlan. intros H. next_bind ep H. keep_bind p' Hp H. injection H as <-. apply granted_replanned.
  destruct (String.eqb _ "saved_query"); [by eapply saved_query_granted|].
  destruct (String.eqb _ "routine"); (apply planned_granted in Hp; [by apply granted_with_members in Hp | done]).
Qed.

(** ** Theorems *)

(** C20: every plan the PostgreSQL data API makes, for any of its fourteen
    operations and whether it comes from the request, a saved query or a
    published endpoint, runs as one of the caller's roles, and that role has
    been granted usage of the schema and the command on the very table (or
    execution of the very routine, which is exposed) that the plan names. *)
Theorem plans_are_granted r p : buildPostgresDataApiPlan r = Ok p -> plan_granted_for r p.
Proof.
  unfold buildPostgresDataApiPlan. intros H. keep_bind operation Hop H. keep_bind cx Hcx H.
  destruct (String.eqb operation "saved_query_execute"); [by eapply saved_query_granted|].
  destruct (String.eqb operation "stable_endpoint_invoke"); [by eapply endpoint_granted|].
  eapply plan_operation_granted; [done..|]. apply execute_is_rpc. unfold request_operation in Hop. by destruct (str_in _ POSTGRES_DATA_API_OPERATIONS) eqn:E; [injection Hop as <-|].
Qed.

(** The role is the first of the candidates that may run the command and read
    the joined relations; when there is none the error tells why each was passed
    over, in order. *)
Theorem first_permitted_role roles command a session row t joins :
  resolveEffectiveRole roles command a session row t joins =
  match List.find (permitted command a session row t joins) roles with
  | Some role => Ok (role, decision_of command a session row t role)
  | None => Err (no_role "data API request" (refusal command a session row t joins <$> roles))
  end.
Proof. exact (resolve_role_find command a session row t joins roles []). Qed.

End plans.

Lemma plans_are_granted_witness : exists p,
  @buildPostgresDataApiPlan sample_number_text (orders_request (filtered "a")) = Ok p /\ plan_granted_for (orders_request (filtered "a")) p.
Proof.
  destruct (@buildPostgresDataApiPlan sample_number_text (orders_request (filtered "a"))) as [p|e] eqn:E; [|vm_compute in E; discriminate E].
  exists p. split; [reflexivity|]. exact (@plans_are_granted sample_number_text _ _ E).
Defined.
