(* ===== verification/PgWhere.v ===== *)
(** * What the statements of the PostgreSQL data API select

    The conditions that the planner writes for a request on rows, their values,
    and the rows that satisfy them. *)
From S2P Require Import Prelude JsValue Json Regex PgTable PgSql PgPlan PgBulk PgSaved PgSemantics PgRender PgAccess.
Local Open Scope Z_scope.

(** ** The order of a regular request *)

Lemma with_primary_key_keeps pk order : order <> [] -> with_primary_key pk order <> [].
Proof.
  unfold with_primary_key. revert order. induction pk as [|k pk IH]; intros order Hne; [done|]. cbn. apply IH.
  destruct (existsb _ order); [done|]. by destruct order.
Qed.

Lemma with_primary_key_nonempty pk order : pk <> [] -> with_primary_key pk order <> [].
Proof.
  destruct pk as [|k pk]; [done|]. intros _. unfold with_primary_key. cbn. apply with_primary_key_keeps.
  destruct (existsb _ order) eqn:E; [by destruct order | by destruct order].
Qed.

Lemma table_has_key ti t : normalizeTableDefinition ti = Ok t -> tb_pk t <> [].
Proof.
  destruct ti as [s n cs pk rels]. cbn. unfold mbind, result_bind. intros H.
  repeat (case_match; try done). injection H as <-. cbn. by match goal with H : bool_decide (unique _ = []) = false |- _ => apply bool_decide_eq_false in H end.
Qed.

Lemma normalized_order_nonempty v t order : tb_pk t <> [] -> normalizeOrder v t = Ok order -> order <> [].
Proof.
  unfold normalizeOrder. intros Hpk H. apply result_bind_ok in H as (es & _ & H). injection H as <-. by apply with_primary_key_nonempty.
Qed.

Section where_clauses.
Context `{NT : !NumberText, SO : !SqlOps}.

(** ** The conditions *)

Definition key_params (key : option (list (string * jsval))) : list jsval := match key with Some kvs => kvs.*2 | None => [] end.

(** The conditions in the order of the text; the filters' values come first. *)
Definition row_conditions (session : jsval) (d : access_decision) (fs : list data_filter) (key : option (list (string * jsval)))
    (order : list order_entry) (entries : option (list jsval)) : list cond :=
  let n1 := length (flat_map filter_params fs) in
  let n2 := (n1 + length (rls_params session d))%nat in
  let n3 := (n2 + length (key_params key))%nat in
  rls_cond session n1 d ++ number filter_cond (fun f => length (filter_params f)) 0 fs
  ++ number key_cond (fun _ => 1%nat) n2 (default [] key) ++ after_cond n3 entries order.

Definition row_values (session : jsval) (d : access_decision) (fs : list data_filter) (key : option (list (string * jsval)))
    (order : list order_entry) (entries : option (list jsval)) : list jsval :=
  flat_map filter_params fs ++ rls_params session d ++ key_params key ++ after_params entries order.

(** The rows a request is about: those a policy shows to the session, that pass
    the filters, have the key and lie beyond the cursor. *)
Definition asked_for (session : jsval) (d : access_decision) (fs : list data_filter) (key : option (list (string * jsval)))
    (order : list order_entry) (entries : option (list jsval)) (row : sql_row) : bool :=
  policies_hold d session row && forallb (filter_holds row) fs && key_holds row (default [] key) && after_holds row entries order.

Lemma satisfies_app values row cs cs' : satisfies values row (cs ++ cs') = satisfies values row cs && satisfies values row cs'.
Proof. apply forallb_app. Qed.

Lemma conditions_mean session d fs key order entries row rest : order <> [] ->
  forallb filter_ok fs = true -> forallb policy_ok (rls_active d) = true ->
  satisfies (row_values session d fs key order entries ++ rest) row (row_conditions session d fs key order entries) =
  asked_for session d fs key order entries row.
Proof.
  intros Hne Hfs Hps. unfold row_conditions, asked_for, row_values. rewrite !satisfies_app.
  set (a := flat_map filter_params fs). set (b := rls_params session d). set (c := key_params key). set (e := after_params entries order).
  replace (((a ++ b ++ c ++ e) ++ rest)) with (a ++ b ++ (c ++ e ++ rest)) by (by rewrite <- !app_assoc).
  unfold b at 1. rewrite (rls_meaning session d row a _ Hps). fold b.
  assert (Hf : satisfies (a ++ b ++ c ++ e ++ rest) row (number filter_cond (fun f => length (filter_params f)) 0 fs) = forallb (filter_holds row) fs).
  { apply (satisfies_numbers filter_cond filter_params filter_ok (filter_holds row) row (fun x vs rest => filter_meaning vs rest row x) fs [] _ Hfs). }
  rewrite Hf.
  assert (Hk : satisfies (a ++ b ++ c ++ e ++ rest) row (number key_cond (fun _ => 1%nat) (length a + length b) (default [] key)) = key_holds row (default [] key)).
  { rewrite app_assoc. rewrite <- length_app. replace c with ((default [] key).*2) by (by destruct key). apply keys_meaning. }
  rewrite Hk.
  assert (Ha : satisfies (a ++ b ++ c ++ e ++ rest) row (after_cond (length a + length b + length c) entries order) = after_holds row entries order).
  { rewrite app_assoc, app_assoc. rewrite <- !length_app. by apply after_meaning. }
  rewrite Ha. by rewrite !andb_assoc.
Qed.

Lemma filters_ok alias fs vs cs vs' : buildFilterClauses alias fs vs = (Ok cs, vs') ->
  forallb filter_ok fs = true /\ cs = render alias <$> number filter_cond (fun f => length (filter_params f)) (length vs) fs /\
  vs' = vs ++ flat_map filter_params fs.
Proof.
  intros H. apply (map_build_ok _ (fun n f => render alias (filter_cond n f)) filter_params filter_ok) in H as (Hok & -> & ->).
  - split; [done|]. by rewrite <- number_fmap.
  - intros f n. apply filter_emits.
  - intros f. apply filter_fails.
Qed.

(** The cursor counts only for a list. *)
Definition cursor_entries (operation : string) (after : jsval) : result js_error (option (list jsval)) :=
  if String.eqb operation "list" then cursor_after after else Ok None.

Lemma wheres_ok operation d session fs key order after ws values : order <> [] ->
  build_wheres operation d session fs key order after [] = (Ok ws, values) ->
  exists entries, cursor_entries operation after = Ok entries /\
    forallb filter_ok fs = true /\ forallb policy_ok (rls_active d) = true /\
    ws = render "base" <$> row_conditions session d fs key order entries /\ values = row_values session d fs key order entries.
Proof.
  intros Hne. unfold build_wheres, mbind, M_bind. intros H.
  destruct (buildFilterClauses "base" fs []) as [[cs|] v1] eqn:Hf; [|done]. apply filters_ok in Hf as (Hok & -> & ->).
  destruct (buildRlsClause "base" d session _) as [[o|] v2] eqn:Hr; [|done]. apply rls_ok_spec in Hr as (Hps & Ho & ->).
  assert (Hk : exists ks, (match key with Some kvs => buildPrimaryKeyClause "base" kvs | None => mret [] end)
      (([] ++ flat_map filter_params fs) ++ rls_params session d) = (Ok ks, (([] ++ flat_map filter_params fs) ++ rls_params session d) ++ key_params key) /\
      ks = render "base" <$> number key_cond (fun _ => 1%nat) (length (([] ++ flat_map filter_params fs) ++ rls_params session d)) (default [] key)).
  { destruct key as [kvs|]; [|exists []; by rewrite app_nil_r].
    destruct (buildPrimaryKeyClause "base" kvs _) as [[ks|] v3] eqn:Hk.
    - apply keys_ok in Hk as (-> & ->). by eexists.
    - done. }
  destruct Hk as (ks & Hk & Hks). rewrite Hk in H.
  assert (Hc : exists entries o', cursor_entries operation after = Ok entries /\
     (if String.eqb operation "list" then buildCursorClause "base" order after else mret None)
       ((([] ++ flat_map filter_params fs) ++ rls_params session d) ++ key_params key) =
       (Ok o', ((([] ++ flat_map filter_params fs) ++ rls_params session d) ++ key_params key) ++ after_params entries order) /\
     option_list o' = render "base" <$> after_cond (length ((([] ++ flat_map filter_params fs) ++ rls_params session d) ++ key_params key)) entries order).
  { unfold cursor_entries. destruct (String.eqb operation "list").
    - destruct (buildCursorClause "base" order after _) as [[o'|] v4] eqn:Hc; [|done]. apply cursor_ok in Hc as (entries & He & Hr & ->); [|done].
      by exists entries, o'.
    - exists None, None. by rewrite app_nil_r. }
  destruct Hc as (entries & o' & He & Hc & Ho'). rewrite Hc in H. injection H as <- <-. exists entries. split_and!; [done..| |].
  - unfold row_conditions. rewrite !fmap_app, Ho, Ho', Hks. cbn [app length] in *. by rewrite !length_app.
  - unfold row_values. cbn [app]. by rewrite <- !app_assoc.
Qed.

(** ** The statements *)

(** The assignments of an update, whose values follow [n] others. *)
Definition assignment_texts (n : nat) (kvs : list (string * jsval)) : list string :=
  number (fun n kv => quoteIdent kv.1 +:+ " = " +:+ PgSemantics.placeholder (S n)) (fun _ => 1%nat) n kvs.

(** The text of a statement around its conditions, which bind [n] values. *)
Definition statement_with (operation : string) (t : table) (q : row_query) (page : jsval) (fs : join_fragments) (n : nat)
    (cs : list cond) : string :=
  if reads_rows operation then buildListLikeSql operation t (ry_select q) fs (render "base" <$> cs) (ry_order q) (page_size page)
  else if String.eqb operation "update" then
    lines_of (["UPDATE " +:+ qualifiedTableName (tb_schema t) (tb_name t) +:+ " AS base"; "SET " +:+ comma (assignment_texts n (default [] (ry_values q)))]
              ++ where_line (render "base" <$> cs) ++ [returning_line (returning_columns t (ry_select q))])
  else delete_sql t (render "base" <$> cs) (returning_columns t (tb_pk t)).

Lemma update_sql_ok t kvs ws ret vs text vs' : update_sql t kvs ws ret vs = (Ok text, vs') ->
  text = lines_of (["UPDATE " +:+ qualifiedTableName (tb_schema t) (tb_name t) +:+ " AS base"; "SET " +:+ comma (assignment_texts (length vs) kvs)]
                   ++ where_line ws ++ [returning_line ret]) /\ vs' = vs ++ kvs.*2.
Proof.
  unfold update_sql, mbind, M_bind. destruct (map_build _ kvs vs) as [[asg|] ws'] eqn:Hm; [|done]. intros [= <- <-].
  apply (map_build_ok _ (fun n kv => quoteIdent kv.1 +:+ " = " +:+ PgSemantics.placeholder (S n)) (fun kv => [kv.2]) (fun _ => true)) in Hm as (_ & -> & ->).
  - done.
  - intros kv n _. apply (emits_then _ _ (fun p => quoteIdent kv.1 +:+ " = " +:+ p)), (emits_value n _ None).
  - done.
Qed.

(** Joins only add values at the end. *)
Definition extends {A} (m : build A) : Prop := forall vs a vs', m vs = (Ok a, vs') -> exists rest, vs' = vs ++ rest.

Lemma extends_ret {A} (a : A) : extends (mret a).
Proof. intros vs b vs' [= <- <-]. exists []. by rewrite app_nil_r. Qed.
Lemma extends_bind {A B} (m : build A) (k : A -> build B) : extends m -> (forall a, extends (k a)) -> extends (m ≫= k).
Proof.
  intros Hm Hk vs b vs' H. unfold mbind, M_bind in H. destruct (m vs) as [[a|] v1] eqn:E; [|done].
  apply Hm in E as [r1 ->]. apply Hk in H as [r2 ->]. exists (r1 ++ r2). by rewrite app_assoc.
Qed.
Lemma extends_map {A B} (f : A -> build B) l : (forall x, extends (f x)) -> extends (map_build f l).
Proof. intros Hf. induction l as [|x l IH]; [apply extends_ret|]. cbn. apply extends_bind; [done|]. intros y. apply extends_bind; [done|]. intros ys. apply extends_ret. Qed.

Lemma extends_joins session role js : extends (buildJoinFragments session role js).
Proof.
  unfold buildJoinFragments. apply extends_bind; [|intros; apply extends_ret]. apply extends_map. intros j. unfold build_join. cbv zeta.
  destruct (negb _); [intros vs a vs' H; done|]. apply extends_bind; [|intros; apply extends_ret].
  intros vs a vs' H. apply rls_ok_spec in H as (_ & _ & ->). by eexists.
Qed.

Lemma statement_ok operation t q d role session page text ws ret rels values :
  ry_order q <> [] -> str_in operation ["list"; "get"; "update"; "delete"] = true ->
  row_statement operation t q d role session page [] = (Ok (text, ws, ret, rels), values) ->
  exists entries fs rest, cursor_entries operation (js_get page "after") = Ok entries /\
    forallb filter_ok (ry_filters q) = true /\ forallb policy_ok (rls_active d) = true /\
    text = statement_with operation t q page fs (length (row_values session d (ry_filters q) (ry_key q) (ry_order q) entries)) (row_conditions session d (ry_filters q) (ry_key q) (ry_order q) entries) /\
    values = row_values session d (ry_filters q) (ry_key q) (ry_order q) entries ++ rest.
Proof.
  intros Hne Hop. unfold row_statement. intros H. unfold mbind at 1, M_bind at 1 in H.
  destruct (build_wheres operation d session (ry_filters q) (ry_key q) (ry_order q) (js_get page "after") []) as [[cs|] v1] eqn:Hw; [|done].
  apply wheres_ok in Hw as (entries & He & Hf & Hp & -> & ->); [|done].
  set (vals := row_values session d (ry_filters q) (ry_key q) (ry_order q) entries) in *.
  unfold mbind, M_bind in H. unfold statement_with. destruct (reads_rows operation) eqn:Hr.
  - destruct (buildJoinFragments session role (ry_joins q) vals) as [[fs|] v2] eqn:Hj; [|done]. apply extends_joins in Hj as [rest ->].
    injection H as <- <- <- <- <-. by exists entries, fs, rest.
  - cbv [mret M_ret] in H. destruct (String.eqb_spec operation "insert") as [->|]; [done|].
    destruct (String.eqb_spec operation "update") as [->|].
    + destruct (update_sql t _ _ _ vals) as [[txt|] v2] eqn:Hu; [|done]. apply update_sql_ok in Hu as [-> ->]. injection H as <- <- <- <- <-.
      by exists entries, (mk_fragments [] [] []), ((default [] (ry_values q)).*2).
    + injection H as <- <- <- <- <-. exists entries, (mk_fragments [] [] []), []. by rewrite app_nil_r.
Qed.

(** ** Theorem *)

(** C19: the statement planned to list, get, update or delete rows has one WHERE
    clause, a conjunction of conditions over the values it binds, and under SQL's
    three-valued logic a row satisfies them exactly when a policy shows it to the
    session, every filter of the request holds of it, it has the key asked for,
    and (for a list) it lies beyond the cursor in the order of the request. *)
Theorem where_selects_what_was_asked operation r cx p :
  str_in operation ["list"; "get"; "update"; "delete"] = true -> row_plan operation r cx = Ok p ->
  exists t q d entries fs n cs,
    normalizeTableDefinition (rq_table r) = Ok t /\ regular_query operation r t = Ok q /\
    resolveEffectiveRole (cx_roles cx) (commandForOperation operation) (rq_access r) (rq_session r) (rq_row r) t (ry_joins q) = Ok (pn_role p, d) /\
    cursor_entries operation (js_get (member r "page") "after") = Ok entries /\
    sq_text (pn_sql p) = statement_with operation t q (member r "page") fs n cs /\
    forall row, satisfies (sq_values (pn_sql p)) row cs = asked_for (rq_session r) d (ry_filters q) (ry_key q) (ry_order q) entries row.
Proof.
  intros Hop H. unfold row_plan in H. apply result_bind_ok in H as (t & Ht & H). apply result_bind_ok in H as (q & Hq & H).
  apply result_bind_ok in H as ([role d] & Hr & H). destruct (row_statement _ _ _ _ _ _ _ _) as [[[[[text ws] ret] rels]|] values] eqn:Hs; [|done].
  injection H as <-. cbn [pn_role pn_sql sq_text sq_values].
  assert (Hne : ry_order q <> []).
  { unfold regular_query in Hq. repeat (let x := fresh "x" in let E := fresh "E" in apply result_bind_ok in Hq as (x & E & Hq)).
    injection Hq as <-. cbn. eapply normalized_order_nonempty; [by eapply table_has_key | done]. }
  apply statement_ok in Hs as (entries & fs & rest & He & Hf & Hp & -> & ->); [|done..].
  assert (Hi : String.eqb operation "insert" = false) by (destruct (String.eqb_spec operation "insert") as [->|]; done). rewrite Hi in Hr.
  eexists t, q, d, entries, fs, _, _. split_and!; [done..|]. intros row. by apply conditions_mean.
Qed.

End where_clauses.

Lemma where_selects_what_was_asked_witness : exists p,
  @row_plan sample_number_text "list" (orders_request (filtered "a")) orders_context = Ok p /\
  exists t q d entries fs n cs, tb_name t = "orders" /\
    sq_text (pn_sql p) = statement_with "list" t q (member (orders_request (filtered "a")) "page") fs n cs /\
    forall row, @satisfies sample_ops (sq_values (pn_sql p)) row cs =
                @asked_for sample_number_text sample_ops (JObj [("tenantId", JStr "acme")]) d (ry_filters q) (ry_key q) (ry_order q) entries row.
Proof.
  destruct (@row_plan sample_number_text "list" (orders_request (filtered "a")) orders_context) as [p|e] eqn:E; [|vm_compute in E; discriminate E].
  exists p. split; [reflexivity|].
  destruct (@where_selects_what_was_asked sample_number_text sample_ops "list" _ _ _ eq_refl E) as (t & q & d & entries & fs & n & cs & Ht & _ & _ & _ & Htext & Hsat).
  exists t, q, d, entries, fs, n, cs. split; [|split; [exact Htext | exact Hsat]].
  change (rq_table (orders_request (filtered "a"))) with orders_table in Ht. rewrite orders_normalized in Ht. injection Ht as <-. reflexivity.
Defined.
