(* ===== verification/PgText.v ===== *)
(** * Values and text

    The text of a statement is made of the names and the shape of a request; its
    values only ever reach the list of bound values. *)
From S2P Require Import Prelude JsValue Json Regex PgTable PgSql PgPlan PgBulk PgSaved PgSemantics PgRender PgAccess PgWhere.
Local Open Scope Z_scope.

(** ** Builders that write the same text *)

Definition same_text {A} (m m' : build A) : Prop := forall vs vs' a ws a' ws',
  length vs = length vs' -> m vs = (Ok a, ws) -> m' vs' = (Ok a', ws') -> a = a' /\ length ws = length ws'.

Lemma same_ret {A} (a : A) : same_text (mret a) (mret a).
Proof. intros vs vs' b ws b' ws' Hl [= <- <-] [= <- <-]. done. Qed.

Lemma same_bind {A B} (m m' : build A) (k k' : A -> build B) : same_text m m' -> (forall a, same_text (k a) (k' a)) -> same_text (m ≫= k) (m' ≫= k').
Proof.
  intros Hm Hk vs vs' b ws b' ws' Hl H H'. unfold mbind, M_bind in H, H'.
  destruct (m vs) as [[a|] us] eqn:E; [|done]. destruct (m' vs') as [[a'|] us'] eqn:E'; [|done].
  destruct (Hm _ _ _ _ _ _ Hl E E') as [<- Hl']. by eapply Hk.
Qed.

(** Whatever is bound is named by its position. *)
Lemma same_value_text v v' cast : same_text (pushValue v cast) (pushValue v' cast).
Proof. intros vs vs' a ws a' ws' Hl [= <- <-] [= <- <-]. rewrite !length_app, Hl. done. Qed.

Lemma same_map {A A' B} (f : A -> build B) (f' : A' -> build B) l l' : Forall2 (fun x x' => same_text (f x) (f' x')) l l' ->
  same_text (map_build f l) (map_build f' l').
Proof.
  induction 1 as [|x x' l l' Hx _ IH]; [apply same_ret|]. cbn. apply same_bind; [done|]. intros y. apply same_bind; [done|]. intros ys. apply same_ret.
Qed.


Section text.
Context `{NT : !NumberText}.

(** ** Shapes *)

(** What the text shows of a filter: its column, its operator, how many values it
    binds, and whether [is] asks for null. *)
Definition filter_shape (f : data_filter) : string * string * nat * bool :=
  (fi_column f, fi_operator f, length (filter_params f),
   String.eqb (fi_operator f) "is" && match fi_value f with JStr s => String.eqb s "not_null" | _ => false end).

Lemma shape_cond f f' n : filter_ok f = true -> filter_ok f' = true -> filter_shape f = filter_shape f' -> filter_cond n f = filter_cond n f'.
Proof.
  intros Hf Hf' Hs. pose proof (f_equal (fun x => x.1.1.1) Hs) as Hc. pose proof (f_equal (fun x => x.1.1.2) Hs) as Hop.
  pose proof (f_equal (fun x => x.1.2) Hs) as Hn. pose proof (f_equal snd Hs) as Hb. clear Hs.
  unfold filter_shape, filter_ok, filter_params, filter_cond in *. cbn [fst snd] in Hc, Hop, Hn, Hb. rewrite <- Hc. rewrite <- Hop in Hf', Hn, Hb |- *.
  destruct (assoc_lookup (fi_operator f) COMPARISONS); [done|].
  destruct (String.eqb_spec (fi_operator f) "between"); [done|].
  destruct (String.eqb_spec (fi_operator f) "in") as [Ho|].
  { rewrite Ho in Hn. change (String.eqb "in" "is") with false in Hn. change (String.eqb "in" "json_contains") with false in Hn.
    change (String.eqb "in" "json_path_eq") with false in Hn. cbv iota in Hn. f_equal. clear -Hn.
    destruct (fi_value f), (fi_value f'); exact Hn. }
  destruct (String.eqb_spec (fi_operator f) "is").
  { cbn [andb] in Hb. f_equal. clear -Hb. destruct (fi_value f), (fi_value f'); first [reflexivity | rewrite Hb; reflexivity | rewrite <- Hb; reflexivity]. }
  destruct (String.eqb_spec (fi_operator f) "json_contains"); [done|].
  destruct (String.eqb_spec (fi_operator f) "json_path_eq"); [|done]. f_equal. rewrite !length_app, !length_fmap in Hn. cbn in Hn. lia.
Qed.

Lemma same_filter alias f f' : filter_shape f = filter_shape f' -> same_text (buildFilterClause alias f) (buildFilterClause alias f').
Proof.
  intros Hs vs vs' a ws a' ws' Hl H H'. destruct (filter_ok f) eqn:Hf.
  2: { destruct (filter_fails alias f Hf vs) as (e & us & E). by rewrite E in H. }
  destruct (filter_ok f') eqn:Hf'.
  2: { destruct (filter_fails alias f' Hf' vs') as (e & us & E). by rewrite E in H'. }
  rewrite (filter_emits alias f _ Hf vs eq_refl) in H. rewrite (filter_emits alias f' _ Hf' vs' eq_refl) in H'.
  injection H as <- <-. injection H' as <- <-. rewrite (shape_cond f f' _ Hf Hf' Hs), Hl. split; [done|].
  rewrite !length_app, Hl. injection Hs as _ _ Hn _. by rewrite Hn.
Qed.

Lemma Forall2_shapes {A B} (g : A -> B) (P : A -> A -> Prop) l l' : (forall x x', g x = g x' -> P x x') -> g <$> l = g <$> l' -> Forall2 P l l'.
Proof.
  intros HP. revert l'. induction l as [|x l IH]; intros [|x' l'] H; try done. injection H as Hx H. constructor; [by apply HP | by apply IH].
Qed.

Lemma same_filters alias fs fs' : filter_shape <$> fs = filter_shape <$> fs' -> same_text (buildFilterClauses alias fs) (buildFilterClauses alias fs').
Proof. intros H. apply same_map. eapply Forall2_shapes; [|exact H]. intros f f'. apply same_filter. Qed.

Lemma same_rls alias d d' session session' : ad_policies d = ad_policies d' -> same_text (buildRlsClause alias d session) (buildRlsClause alias d' session').
Proof.
  intros Hp. unfold buildRlsClause. rewrite <- Hp. destruct (ad_policies d) as [|p ps]; [apply same_ret|]. destruct (existsb _ _); [apply same_ret|].
  apply same_bind; [|intros; apply same_ret]. apply same_map. apply Forall_Forall2_diag. apply Forall_forall. intros q _. cbv zeta.
  destruct (String.eqb _ _); [apply same_ret|]. destruct (String.eqb _ _); [|intros vs vs' a ws a' ws' _ [=]].
  apply same_bind; [apply same_value_text | intros; apply same_ret].
Qed.

Lemma same_keys alias kvs kvs' : kvs.*1 = kvs'.*1 -> same_text (buildPrimaryKeyClause alias kvs) (buildPrimaryKeyClause alias kvs').
Proof.
  intros H. apply same_map. eapply (Forall2_shapes fst); [|exact H]. intros kv kv' <-. apply same_bind; [apply same_value_text | intros; apply same_ret].
Qed.

Lemma same_comparator alias value value' order : same_text (buildComparator alias value order) (buildComparator alias value' order).
Proof.
  induction order as [|e order IH]; [apply same_ret|]. cbn. apply same_bind; [apply same_value_text|]. intros p. destruct order; [apply same_ret|].
  apply same_bind; [apply same_value_text|]. intros p2. apply same_bind; [exact IH | intros; apply same_ret].
Qed.

Lemma same_cursor alias order cursor cursor' : truthy cursor = truthy cursor' -> same_text (buildCursorClause alias order cursor) (buildCursorClause alias order cursor').
Proof.
  intros Ht. unfold buildCursorClause. rewrite <- Ht. destruct (truthy cursor); cbn [negb]; [|apply same_ret].
  intros vs vs' a ws a' ws' Hl. unfold mbind, M_bind, lift.
  destruct (decode_cursor cursor); [|done]. destruct (elements_of _); [|done]. destruct (existsb _ _); [done|].
  destruct (decode_cursor cursor'); [|done]. destruct (elements_of _); [|done]. destruct (existsb _ _); [done|].
  destruct order as [|e order].
  - intros [= <- <-] [= <- <-]. done.
  - apply (same_bind _ _ (fun c => mret (Some c)) (fun c => mret (Some c)) (same_comparator alias _ _ (e :: order)) (fun c => same_ret (Some c))). done.
Qed.

Lemma same_joins session role js : same_text (buildJoinFragments session role js) (buildJoinFragments session role js).
Proof.
  unfold buildJoinFragments. apply same_bind; [|intros; apply same_ret]. apply same_map. apply Forall_Forall2_diag. apply Forall_forall. intros j _.
  unfold build_join. cbv zeta. destruct (negb _); [intros vs vs' a ws a' ws' _ [=]|]. apply same_bind; [by apply same_rls | intros; apply same_ret].
Qed.

(** ** Statements *)

(** What the text shows of a regular request. *)
Record query_shape := mk_query_shape {
  qs_select : list string;
  qs_filters : list (string * string * nat * bool);
  qs_joins : list relation_join;
  qs_order : list order_entry;
  qs_key : option (list string);
  qs_columns : option (list string)
}.

Definition names_of (kvs : list (string * jsval)) : list string := kvs.*1.

Definition shape_of (q : row_query) : query_shape :=
  mk_query_shape (ry_select q) (filter_shape <$> ry_filters q) (ry_joins q) (ry_order q) (names_of <$> ry_key q) (names_of <$> ry_values q).

Lemma same_wheres operation d d' session session' fs fs' key key' order after after' :
  ad_policies d = ad_policies d' -> filter_shape <$> fs = filter_shape <$> fs' -> names_of <$> key = names_of <$> key' ->
  truthy after = truthy after' ->
  same_text (build_wheres operation d session fs key order after) (build_wheres operation d' session' fs' key' order after').
Proof.
  intros Hp Hf Hk Ha. unfold build_wheres. apply same_bind; [by apply same_filters|]. intros cs. apply same_bind; [by apply same_rls|]. intros o.
  apply same_bind.
  { destruct key as [kvs|], key' as [kvs'|]; try done; [|apply same_ret]. injection Hk as Hk. by apply same_keys. }
  intros ks. apply same_bind; [|intros; apply same_ret]. destruct (String.eqb operation "list"); [by apply same_cursor | apply same_ret].
Qed.

Lemma same_statement operation t q q' d d' role session page page' :
  shape_of q = shape_of q' -> ad_policies d = ad_policies d' -> page_size page = page_size page' ->
  truthy (js_get page "after") = truthy (js_get page' "after") ->
  same_text (row_statement operation t q d role session page) (row_statement operation t q' d' role session page').
Proof.
  intros [= Hsel Hf Hj Ho Hk Hv] Hd Hsize Ha.
  unfold row_statement. rewrite <- Hsel, <- Hj, <- Ho, <- Hsize. apply same_bind; [by apply same_wheres|]. intros ws.
  apply same_bind; [destruct (reads_rows operation); [apply same_joins | apply same_ret]|]. intros fs. cbv zeta. apply same_bind; [|intros; apply same_ret].
  destruct (reads_rows operation); [apply same_ret|].
  assert (Hkv : (default [] (ry_values q)).*1 = (default [] (ry_values q')).*1).
  { destruct (ry_values q) as [kvs|], (ry_values q') as [kvs'|]; try done. by injection Hv. }
  destruct (String.eqb operation "insert").
  - unfold insert_sql. rewrite <- Hkv. apply same_bind; [|intros; apply same_ret]. apply same_map. eapply (Forall2_shapes fst); [|exact Hkv].
    intros kv kv' _. apply same_value_text.
  - destruct (String.eqb operation "update"); [|apply same_ret]. unfold update_sql. apply same_bind; [|intros; apply same_ret]. apply same_map.
    eapply (Forall2_shapes fst); [|exact Hkv]. intros kv kv' <-. apply same_bind; [apply same_value_text | intros; apply same_ret].
Qed.

(** The policies a decision leaves to check do not depend on the row's values. *)
Lemma row_policies role command schema name a session v v' :
  ad_policies (evaluatePlanningAccess role command schema name a session (Some v)) = ad_policies (evaluatePlanningAccess role command schema name a session (Some v')).
Proof.
  assert (H : forall v, ad_policies (evaluatePlanningAccess role command schema name a session (Some v)) = []).
  { intros u. unfold evaluatePlanningAccess, evaluatePostgresDataApiAccess. destruct (_ || _); [done|]. destruct (bool_decide _); [done|].
    destruct (List.filter _ _); [done|]. by destruct (existsb _ _). }
  by rewrite !H.
Qed.

(** C18: two requests on the rows of a table that differ only in the values they
    carry (of filters, keys, cursors and columns to write) are planned, by the
    same role, with the very same SQL text: no value a client sends is ever part
    of the text, whatever characters it has; values only reach the bound values. *)
Theorem values_never_reach_the_text operation r r' cx cx' p p' t q q' :
  row_plan operation r cx = Ok p -> row_plan operation r' cx' = Ok p' ->
  rq_table r = rq_table r' -> rq_access r = rq_access r' -> rq_session r = rq_session r' -> rq_row r = rq_row r' -> pn_role p = pn_role p' ->
  normalizeTableDefinition (rq_table r) = Ok t -> regular_query operation r t = Ok q -> regular_query operation r' t = Ok q' ->
  shape_of q = shape_of q' -> page_size (member r "page") = page_size (member r' "page") ->
  truthy (js_get (member r "page") "after") = truthy (js_get (member r' "page") "after") ->
  sq_text (pn_sql p) = sq_text (pn_sql p').
Proof.
  intros H H' Ht Ha Hs Hrow Hrole Hnt Hq Hq' Hsh Hsize Haft. unfold row_plan in H, H'. rewrite <- Ht, Hnt in H'. rewrite Hnt in H. cbn [mbind result_bind] in H, H'.
  rewrite Hq in H. rewrite Hq' in H'. cbn [mbind result_bind] in H, H'. rewrite <- Ha, <- Hs, <- Hrow in H'.
  apply result_bind_ok in H as ([role d] & Hr & H). apply result_bind_ok in H' as ([role' d'] & Hr' & H').
  destruct (row_statement operation t q d _ _ _ []) as [[[[[text ws] ret] rels]|] values] eqn:E; [|done].
  destruct (row_statement operation t q' d' _ _ _ []) as [[[[[text' ws'] ret'] rels']|] values'] eqn:E'; [|done].
  injection H as <-. injection H' as <-. cbn [pn_role pn_sql sq_text] in *. subst role'.
  assert (Hd : ad_policies d = ad_policies d').
  { unfold resolveEffectiveRole in Hr, Hr'. rewrite resolve_role_find in Hr, Hr'.
    destruct (List.find _ (cx_roles cx)); [|done]. destruct (List.find _ (cx_roles cx')); [|done]. injection Hr as -> <-. injection Hr' as -> <-.
    unfold decision_of. injection Hsh as _ _ _ _ _ Hv. destruct (String.eqb operation "insert"); [|done].
    destruct (ry_values q), (ry_values q'); try done. apply row_policies. }
  pose proof (same_statement operation t q q' d d' role (rq_session r) _ _ Hsh Hd Hsize Haft [] [] _ _ _ _ eq_refl E E') as [HT _]. by injection HT.
Qed.

End text.

(** The second key has the characters that end a text and a statement. *)
Definition plain_key : data_request := orders_request (filtered "a").
Definition hostile_key : data_request := orders_request (filtered "x' OR TRUE; --").

Definition query_of (r : data_request) : row_query := ok_or (mk_query [] [] [] [] None None) (regular_query "list" r orders).

Lemma values_never_reach_the_text_witness : exists p p',
  @row_plan sample_number_text "list" plain_key orders_context = Ok p /\ @row_plan sample_number_text "list" hostile_key orders_context = Ok p' /\
  sq_text (pn_sql p) = sq_text (pn_sql p').
Proof.
  destruct (@row_plan sample_number_text "list" plain_key orders_context) as [p|e] eqn:E; [|vm_compute in E; discriminate E].
  destruct (@row_plan sample_number_text "list" hostile_key orders_context) as [p'|e] eqn:E'; [|vm_compute in E'; discriminate E'].
  exists p, p'. split; [reflexivity|]. split; [reflexivity|].
  assert (Hr : pn_role p = pn_role p').
  { transitivity "app"; [|symmetry]; [clear E' | clear E];
      [apply (f_equal (fun r => match r with Ok p => pn_role p | Err _ => EmptyString end)) in E; rewrite <- E
      |apply (f_equal (fun r => match r with Ok p => pn_role p | Err _ => EmptyString end)) in E'; rewrite <- E']; vm_compute; reflexivity. }
  refine (@values_never_reach_the_text sample_number_text "list" plain_key hostile_key orders_context orders_context p p' orders
    (query_of plain_key) (query_of hostile_key) E E' eq_refl eq_refl eq_refl eq_refl Hr orders_normalized _ _ _ eq_refl eq_refl);
    vm_compute; reflexivity.
Defined.
