(* ===== verification/PgExecutor.v ===== *)
(** * Running a plan of the PostgreSQL data API

    src/apps/control-plane-executor/src/runtime: the executor
    (postgres-data-executor.mjs), the connections of a workspace
    (connection-registry.mjs), the probe for vectors (vector-capability.mjs) and
    the errors (errors.mjs).  The database server, the embedding provider and the
    store of mappings are parameters. *)
From S2P Require Import Prelude JsValue Json Regex PgTable PgSql PgPlan PgBulk PgSaved.
From Stdlib Require Import Ascii.
Local Open Scope Z_scope.

(** ** Errors *)

Definition clientError (message : string) (statusCode : Z) (code : string) : js_error := with_status statusCode (coded code message).

Definition PUBLIC_CODE : re := RSeq (RCls is_upper) (RStar (RCls (fun c => is_upper c || is_digit c || Ascii.eqb c "_"))).

Definition publicErrorCode (e : js_error) (fallback : string) : string :=
  match err_status e, err_code e with
  | Some _, Some code => if re_test_full PUBLIC_CODE code then code else fallback
  | _, _ => fallback
  end.

Definition PG_ERRORS : list (string * js_error) :=
  [("23505", clientError "Unique constraint violation" 409 "UNIQUE_VIOLATION");
   ("23503", clientError "Foreign key violation" 422 "FOREIGN_KEY_VIOLATION");
   ("23502", clientError "Not-null constraint violation" 400 "NOT_NULL_VIOLATION");
   ("23514", clientError "Check constraint violation" 400 "CHECK_VIOLATION");
   ("42501", clientError "Insufficient privilege" 403 "INSUFFICIENT_PRIVILEGE");
   ("42703", clientError "Unknown column" 400 "UNDEFINED_COLUMN");
   ("42P01", clientError "Table not found" 404 "TABLE_NOT_FOUND");
   ("42P06", clientError "Schema already exists" 409 "DUPLICATE_SCHEMA");
   ("42P07", clientError "Relation already exists" 409 "DUPLICATE_TABLE");
   ("42710", clientError "Object already exists" 409 "DUPLICATE_OBJECT")].

Definition PG_ERROR_CLASSES : list (string * js_error) :=
  [("22", clientError "Invalid data value" 400 "DATA_EXCEPTION");
   ("42", clientError "Invalid statement" 400 "SYNTAX_OR_ACCESS");
   ("08", clientError "Database connection error" 503 "DB_CONNECTION_ERROR");
   ("57", clientError "Database unavailable" 503 "DB_UNAVAILABLE")].

Definition opaque_error : js_error := clientError "Internal server error" 500 "INTERNAL_ERROR".

Definition mapPgError (e : js_error) : js_error :=
  match err_code e with
  | None => opaque_error
  | Some pgCode =>
      match assoc_lookup pgCode PG_ERRORS with
      | Some mapped => mapped
      | None => match List.find (fun kv => starts_with kv.1 pgCode) PG_ERROR_CLASSES with Some (_, mapped) => mapped | None => opaque_error end
      end
  end.

(** ** Vectors *)

Definition vectorCapabilityUnavailable : js_error :=
  clientError "Vector search is unavailable on this workspace database" 501 "CAPABILITY_UNAVAILABLE".

Definition ident_start (c : ascii) : bool := is_upper c || is_lower c || Ascii.eqb c "_".
(** [(?:[a-z_][a-z0-9_]*\.)?], with the flag [i] *)
Definition schema_prefix : re := ropt (RSeq (RCls ident_start) (RSeq (RStar (RCls is_word)) (rlit "."))).
Definition quoted (r : re) : re := RSeq (rlit quote) (RSeq r (rlit quote)).
Definition brackets : re := ropt (rlit "[]").
Definition anything : re := RStar (RCls (fun _ => true)).
Definition not_char (c : ascii) : re := RCls (fun d => negb (Ascii.eqb c d)).

(** The second pattern stops at a space or at the end, and the rest is not read. *)
Definition MISSING_VECTOR_OBJECT : list re :=
  [rseqs [rlit_ci "type "; quoted (rseqs [schema_prefix; rlit_ci "vector"; brackets]); rlit_ci " does not exist"];
   rseqs [rlit_ci "operator does not exist:"; RStar rany; RCls is_space; schema_prefix; rlit_ci "vector"; brackets; ropt (RSeq (RCls is_space) anything)];
   rseqs [rlit_ci "operator class "; quoted (rseqs [schema_prefix; rlit_ci "vector_"; rplus (RCls is_word); rlit_ci "_ops"]); rlit_ci " does not exist";
          ropt (RSeq (rlit_ci " for access method ") (quoted (rplus (not_char (ascii_of_N 34)))))];
   rseqs [rlit_ci "function "; schema_prefix; rlit_ci "vector_"; rplus (RCls is_word); rlit "("; RStar (not_char ")"); rlit_ci ") does not exist"];
   rseqs [rlit_ci "access method "; quoted (ralts [rlit_ci "hnsw"; rlit_ci "ivfflat"]); rlit_ci " does not exist"]].

Definition vectorCapabilityError (e : js_error) : option js_error :=
  match err_code e with
  | Some code => if str_in code ["42704"; "42883"] && existsb (fun r => re_test_full r (err_message e)) MISSING_VECTOR_OBJECT
                 then Some vectorCapabilityUnavailable else None
  | None => None
  end.

Definition mapVectorRouteError (e : js_error) (vectorRequest : bool) (fallback : js_error -> js_error) : js_error :=
  match (if vectorRequest then vectorCapabilityError e else None) with Some e' => e' | None => fallback e end.

Definition POSITIVE_TTL_MS : Z := 60000.

(** ** The database, the provider, the mappings *)

Notation js_object := (list (string * jsval)) (only parsing).

(** The settings of the transaction and the role it assumed. *)
Record db_session := mk_session { se_role : option string; se_settings : list (string * string) }.

Class WorkspaceDatabase (D : Type) := {
  db_query : db_session -> sql_text -> D -> result js_error (list js_object * Z) * D;
  db_columns : string -> string -> D -> list (string * (string * string));
  db_primary_key : string -> string -> D -> list string;
  db_typmod : string -> string -> string -> D -> option Z;
  db_has_vector : db_session -> D -> result js_error bool;
  db_set_role : string -> D -> result js_error unit;
  db_commit : D -> result js_error D
}.

Record mapping := mk_mapping { mp_source : string; mp_target : string; mp_connection : jsval }.

(** An embedding executor and a store of mappings, when they are wired. *)
Class Embeddings := {
  em_executor : bool;
  em_store : bool;
  embedForWorkspace : string -> jsval -> option Z -> string -> jsval -> result js_error (list jsval);
  getMapping : string -> string -> string -> string -> string -> option mapping;
  getMappings : string -> string -> string -> string -> list mapping
}.

(** [resolveConnection]: the data source of a workspace, its host and port. *)
Class Connections := {
  resolveConnection : string -> result js_error (option (string * option string));
  connect_error : string -> option js_error
}.

Section executor.
Context {D : Type} `{WD : !WorkspaceDatabase D, EM : !Embeddings, CN : !Connections, NT : !NumberText}.

(** A connection: the statements sent are what the server sees of it. *)
Record client := mk_client {
  cl_db : D;
  cl_session : db_session;
  cl_sent : list (db_session * sql_text);
  cl_probes : list (string * Z);
  cl_vector : bool
}.

Notation run := (M client js_error).

Definition client_query (s : sql_text) : run (list js_object * Z) := fun c =>
  let '(res, d) := db_query (cl_session c) s (cl_db c) in
  (res, mk_client d (cl_session c) (cl_sent c ++ [(cl_session c, s)]) (cl_probes c) (cl_vector c)).

(** [set_config(key, value, true)] *)
Definition set_config (key value : string) : run unit := fun c =>
  (Ok tt, mk_client (cl_db c) (mk_session (se_role (cl_session c)) (assoc_set key value (se_settings (cl_session c)))) (cl_sent c) (cl_probes c) (cl_vector c)).

Definition ROLE_IDENT : re := RSeq (RCls (fun c => is_lower c || Ascii.eqb c "_")) (RStar (RCls (fun c => is_lower c || is_digit c || Ascii.eqb c "_"))).

Definition failClosed (message code : string) : js_error := clientError message 503 code.

(** [SET LOCAL ROLE] *)
Definition set_local_role (role : string) : run unit := fun c =>
  match db_set_role role (cl_db c) with
  | Err e => (Err e, c)
  | Ok _ => (Ok tt, mk_client (cl_db c) (mk_session (Some role) (se_settings (cl_session c))) (cl_sent c) (cl_probes c) (cl_vector c))
  end.

Definition set_when (value : string) (key : string) : run unit := if nonempty value then set_config key value else mret tt.

Definition applyRlsContext (tenantId workspaceId : string) (role : option string) : run unit :=
  _ ← (match role with
       | Some r => if negb (nonempty r) then mret tt
                   else if negb (re_test_full ROLE_IDENT r) then throw (failClosed ("Invalid database role " +:+ r) "INVALID_DB_ROLE")
                   else set_local_role r
       | None => mret tt
       end);
  _ ← set_when tenantId "app.tenant_id";
  set_when workspaceId "app.workspace_id".

(** *** The registry *)

Record world := mk_world { wd_databases : string -> D; wd_probes : list (string * Z) }.

Definition set_database (dsn : string) (d : D) (dbs : string -> D) : string -> D := fun s => if String.eqb s dsn then d else dbs s.

Definition resolve (workspaceId : string) : result js_error (string * option string) :=
  let wsId := trim workspaceId in
  if negb (nonempty wsId) then Err (failClosed "workspaceId is required to resolve a database connection" "WORKSPACE_ID_MISSING")
  else match resolveConnection wsId with
       | Err e => Err (failClosed ("Failed to resolve database for workspace " +:+ wsId +:+ ": " +:+ err_message e) "WORKSPACE_DB_RESOLVE_FAILED")
       | Ok (Some (dsn, host)) => if nonempty dsn then Ok (dsn, host)
                                  else Err (failClosed ("No database is provisioned for workspace " +:+ wsId) "WORKSPACE_DB_UNRESOLVED")
       | Ok None => Err (failClosed ("No database is provisioned for workspace " +:+ wsId) "WORKSPACE_DB_UNRESOLVED")
       end.

Definition fresh_client (d : D) (probes : list (string * Z)) (vector : bool) : client := mk_client d (mk_session None []) [] probes vector.

(** [withWorkspaceClient], then the [catch] of the executor. *)
Definition withWorkspaceClient {A} (tenantId workspaceId : string) (role : option string) (vector : bool) (fn : option string -> run A)
    : M world js_error A := fun w =>
  match resolve workspaceId with
  | Err e => (Err (mapVectorRouteError e vector id), w)
  | Ok (dsn, host) =>
      match connect_error dsn with
      | Some e => (Err (mapVectorRouteError e vector id), w)
      | None =>
          match (_ ← applyRlsContext tenantId workspaceId role; fn host) (fresh_client (wd_databases w dsn) (wd_probes w) vector) with
          | (Err e, c) => (Err (mapVectorRouteError e (cl_vector c) id), mk_world (wd_databases w) (cl_probes c))
          | (Ok a, c) =>
              match db_commit (cl_db c) with
              | Err e => (Err (mapVectorRouteError e (cl_vector c) id), mk_world (wd_databases w) (cl_probes c))
              | Ok d => (Ok a, mk_world (set_database dsn d (wd_databases w)) (cl_probes c))
              end
          end
      end
  end.

(** The answer of a probe is kept for a minute, per host and port. *)
Definition requireVectorCapability (now : Z) (host : option string) : run unit := fun c =>
  let keep probes := mk_client (cl_db c) (cl_session c) (cl_sent c) probes (cl_vector c) in
  let cached := match host with Some key => now <? default 0 (assoc_lookup key (cl_probes c)) | None => false end in
  if cached then (Ok tt, c)
  else
    let probes := match host with Some key => List.filter (fun kv => negb (String.eqb kv.1 key)) (cl_probes c) | None => cl_probes c end in
    match db_has_vector (cl_session c) (cl_db c) with
    | Err e => (Err (mapPgError e), keep probes)
    | Ok false => (Err vectorCapabilityUnavailable, keep probes)
    | Ok true => (Ok tt, keep (match host with Some key => assoc_set key (now + POSITIVE_TTL_MS) probes | None => probes end))
    end.

(** *** Tables *)

Record shape := mk_shape { sh_schema : string; sh_name : string; sh_columns : list (string * string); sh_vectors : list string; sh_pk : list string }.

Definition introspectTable (schemaName tableName : string) : run shape := fun c =>
  let cols := db_columns schemaName tableName (cl_db c) in
  match cols with
  | [] => (Err (clientError ("Table " +:+ schemaName +:+ "." +:+ tableName +:+ " not found") 404 "TABLE_NOT_FOUND"), c)
  | _ => (Ok (mk_shape schemaName tableName ((fun r => (r.1, if String.eqb r.2.2 "vector" then "vector" else r.2.1)) <$> cols)
                (fst <$> List.filter (fun r => String.eqb r.2.2 "vector") cols) (db_primary_key schemaName tableName (cl_db c))), c)
  end.

Definition columnVectorDimension (schemaName tableName columnName : string) : run (option Z) := fun c =>
  (Ok (match db_typmod schemaName tableName columnName (cl_db c) with Some n => if 0 <? n then Some n else None | None => None end), c).

Definition TENANT_COLUMN : string := "tenant_id".
Definition WORKSPACE_COLUMN : string := "workspace_id".
Definition DEFAULT_DATA_ROLE : string := "falcone_app".

Definition has_column (sh : shape) (name : string) : bool := str_in name (sh_columns sh).*1.

(** *** Requests *)

Record data_identity := mk_identity { di_tenant : string; di_workspace : string; di_role : string; di_actor : jsval; di_db_role : option string }.

Record data_params := mk_params {
  dp_operation : option string;
  dp_workspace : option string;
  dp_database : jsval;
  dp_schema : string;
  dp_table : string;
  dp_identity : data_identity;
  dp_members : list (string * jsval)
}.

Definition operation_is (p : data_params) (operation : string) : bool := bool_decide (dp_operation p = Some operation).

Record data_context := mk_data_context { dc_tenant : string; dc_workspace : string; dc_database : jsval; dc_role : string; dc_actor : jsval }.

(** [{ ...row }] *)
Definition spread (v : jsval) : list (string * jsval) := match entries_list v with Ok kvs => kvs | Err _ => [] end.

(** The row carries the tenant and the workspace of the caller. *)
Definition stamp (cx : data_context) (sh : shape) (row : jsval) : jsval :=
  let out := spread row in
  let out := if has_column sh TENANT_COLUMN then assoc_set TENANT_COLUMN (JStr (dc_tenant cx)) out else out in
  JObj (if has_column sh WORKSPACE_COLUMN then assoc_set WORKSPACE_COLUMN (JStr (dc_workspace cx)) out else out).

Definition tenant_policy : rls_policy :=
  mk_policy (Some "all") (Some ["public"]) (Some (mk_matcher "session_equals_row" (Some "tenantId") (Some TENANT_COLUMN))).

Definition executor_access (role : string) (sh : shape) : access :=
  mk_access [mk_grant role (sh_schema sh) None (Some ["usage"])]
    [mk_grant role (sh_schema sh) (Some (sh_name sh)) (Some ["select"; "insert"; "update"; "delete"])]
    (Some (has_column sh TENANT_COLUMN)) (if has_column sh TENANT_COLUMN then [tenant_policy] else []).

Definition no_routine : routine_in := mk_routine_in "" "" None false true None [].

Definition executor_table (sh : shape) : table_in :=
  mk_table_in (sh_schema sh) (sh_name sh) ((fun kv => mk_column_in kv.1 true (Some kv.2) false false) <$> sh_columns sh) (Some (sh_pk sh)) [].

Definition buildRequest (operation : option string) (members : list (string * jsval)) (sh : shape) (cx : data_context) : result js_error data_request :=
  let m := js_get (JObj members) in
  let role := if nonempty (dc_role cx) then dc_role cx else DEFAULT_DATA_ROLE in
  let values := if bool_decide (operation = Some "insert") then stamp cx sh (m "values") else m "values" in
  rows ← (if bool_decide (operation = Some "bulk_insert") then items ← elements_of (m "rows"); Ok (JArr (stamp cx sh <$> items)) else Ok (m "rows"));
  Ok (mk_request (executor_table sh) no_routine (executor_access role sh)
        (JObj [("tenantId", JStr (dc_tenant cx)); ("workspaceId", JStr (dc_workspace cx))]) (Some role) [role] None
        (JObj [("operation", JStr (default "list" operation)); ("workspaceId", JStr (dc_workspace cx)); ("databaseName", dc_database cx);
               ("select", m "select"); ("filters", m "filters"); ("filter", m "filter"); ("order", coalesce (m "order") (JArr []));
               ("page", m "page"); ("primaryKey", m "primaryKey"); ("values", values); ("rows", rows); ("changes", m "changes");
               ("queryVector", m "queryVector"); ("queryText", m "queryText"); ("vectorColumn", m "vectorColumn"); ("metric", m "metric");
               ("topK", m "topK"); ("responseOptions", JObj [("countMode", coalesce (m "countMode") (JStr "none"))]);
               ("actorId", dc_actor cx); ("tenantId", JStr (dc_tenant cx))])).

(** *** Embeddings *)

(** Neither column is named like a member of every object. *)
Definition auto_embed_one (sh : shape) (workspaceId tenantId : string) (payload : jsval) (mp : mapping) : run jsval :=
  if negb (nullish (js_get payload (mp_target mp))) then mret payload
  else
    let sourceText := js_get payload (mp_source mp) in
    if nullish sourceText || String.eqb (js_to_string sourceText) "" then mret payload
    else
      expected ← columnVectorDimension (sh_schema sh) (sh_name sh) (mp_target mp);
      vector ← lift (embedForWorkspace workspaceId sourceText expected tenantId (mp_connection mp));
      mret (JObj (assoc_set (mp_target mp) (JStr (vector_literal vector)) (spread payload))).

Definition applyAutoEmbed (sh : shape) (workspaceId tenantId : string) (mappings : list mapping) (payload : jsval) : run jsval :=
  if negb (truthy payload) then mret payload else for_fold (auto_embed_one sh workspaceId tenantId) payload mappings.

Definition set_vector : run unit := fun c => (Ok tt, mk_client (cl_db c) (cl_session c) (cl_sent c) (cl_probes c) true).

Fixpoint map_run {A B} (f : A -> run B) (l : list A) : run (list B) :=
  match l with [] => mret [] | x :: l' => y ← f x; ys ← map_run f l'; mret (y :: ys) end.

(** The vector of a text query. *)
Definition embed_query (sh : shape) (cx : data_context) (members : list (string * jsval)) : run (list (string * jsval)) :=
  let m := js_get (JObj members) in
  if truthy (m "queryVector") || negb (truthy (m "queryText")) then mret members
  else if negb em_executor then throw (clientError "In-platform embedding requires a configured provider" 422 "EMBEDDING_PROVIDER_MISSING")
  else
    let column := if nullish (m "vectorColumn") then head (sh_vectors sh) else Some (js_to_string (m "vectorColumn")) in
    let column := match column with Some c => if nonempty c then Some c else None | None => None end in
    expected ← (match column with Some c => columnVectorDimension (sh_schema sh) (sh_name sh) c | None => mret None end);
    let connection := match column with
                      | Some c => if em_store then from_option mp_connection JUndef (getMapping (dc_workspace cx) (dc_tenant cx) (sh_schema sh) (sh_name sh) c) else JUndef
                      | None => JUndef
                      end in
    vector ← lift (embedForWorkspace (dc_workspace cx) (m "queryText") expected (dc_tenant cx) connection);
    mret (assoc_set "queryVector" (JArr vector) members).

(** The vectors of the rows to write. *)
Definition embed_writes (now : Z) (host : option string) (sh : shape) (cx : data_context) (operation : string) (members : list (string * jsval))
    : run (list (string * jsval)) :=
  let m := js_get (JObj members) in
  let mappings := getMappings (dc_workspace cx) (dc_tenant cx) (sh_schema sh) (sh_name sh) in
  if bool_decide (mappings = []) then mret members
  else
    _ ← (if existsb (fun mp => str_in (mp_target mp) (sh_vectors sh)) mappings
         then _ ← set_vector; requireVectorCapability now host else mret tt);
    let embed := applyAutoEmbed sh (dc_workspace cx) (dc_tenant cx) mappings in
    if String.eqb operation "insert" then v ← embed (m "values"); mret (assoc_set "values" v members)
    else if String.eqb operation "bulk_insert" then
      items ← lift (elements_of (m "rows")); rows ← map_run embed items; mret (assoc_set "rows" (JArr rows) members)
    else v ← embed (m "changes"); mret (assoc_set "changes" v members).

Definition prepare_members (now : Z) (host : option string) (sh : shape) (cx : data_context) (p : data_params) : run (list (string * jsval)) :=
  members ← (if operation_is p "knn_search" then embed_query sh cx (dp_members p) else mret (dp_members p));
  match dp_operation p with
  | Some operation => if em_store && em_executor && str_in operation ["insert"; "bulk_insert"; "update"]
                      then embed_writes now host sh cx operation members else mret members
  | None => mret members
  end.

(** *** The plan and the answer *)

Definition NO_ROLE_PATTERN : re := rlit_ci "No effective role".

Definition plan_rejected (e : js_error) : js_error :=
  clientError (err_message e) (if re_test NO_ROLE_PATTERN (err_message e) then 403 else 400) "PLAN_REJECTED".

Definition plan_request (operation : option string) (members : list (string * jsval)) (sh : shape) (cx : data_context) : result js_error data_plan :=
  match (r ← buildRequest operation members sh cx; buildPostgresDataApiPlan r) with
  | Ok p => Ok p
  | Err e => Err (plan_rejected e)
  end.

(** [Number(Object.values(row)[0])] of the first row *)
Definition runCount (count : option sql_text) : run (option jsnum) :=
  match count with
  | None => mret None
  | Some s =>
      rows ← client_query s;
      mret (match rows.1 with
            | ((_, raw) :: _) :: _ => if nullish raw then None else Some (js_number raw)
            | _ => None
            end)
  end.

(** The statement and the count of a plan; an error of the driver is mapped. *)
Definition run_statements (p : data_plan) : run ((list js_object * Z) * option jsnum) := fun c =>
  match (res ← client_query (pn_sql p); count ← runCount (pn_count p); mret (res, count)) c with
  | (Err e, c') => (Err (mapVectorRouteError e (cl_vector c') mapPgError), c')
  | r => r
  end.

Inductive data_response :=
| KnnResponse (items : list js_object) (returned : Z)
| GetResponse (found : bool) (item : option js_object)
| BulkResponse (items : list js_object) (affected : Z)
| RowResponse (item : option js_object) (affected : Z)
| PageResponse (items : list js_object) (size : jsnum) (returned : Z) (after : option string) (count : option jsnum).

(** The cursor of the last row of a full page. *)
Definition row_cursor (order : list order_entry) (row : js_object) : string :=
  serializePostgresDataApiCursor (JObj [("order", JArr ((fun e =>
    JObj [("columnName", JStr (oe_column e)); ("direction", JStr (oe_direction e)); ("value", own row (oe_column e))]) <$> order))]).

Definition next_after (order : list order_entry) (size : jsnum) (items : list js_object) : option string :=
  match last items with
  | Some row => if negb (bool_decide (order = [])) && num_leb size (NInt (Z.of_nat (length items))) then Some (row_cursor order row) else None
  | None => None
  end.

Definition shape_response (p : data_plan) (res : list js_object * Z) (count : option jsnum) : data_response :=
  let '(items, rowCount) := res in
  let operation := pn_operation p in
  if String.eqb operation "knn_search" then KnnResponse items rowCount
  else if String.eqb operation "get" then GetResponse (0 <? rowCount) (head items)
  else if str_in operation ["bulk_insert"; "bulk_update"; "bulk_delete"] then BulkResponse items rowCount
  else if str_in operation ["insert"; "update"; "delete"] then RowResponse (head items) rowCount
  else let size := from_option pg_size (NInt (Z.of_nat (length items))) (pn_page p) in
       PageResponse items size rowCount (next_after (pn_order p) size items) count.

Definition execute_on_client (now : Z) (cx : data_context) (p : data_params) (host : option string) : run (data_plan * data_response) :=
  _ ← (if operation_is p "knn_search" then requireVectorCapability now host else mret tt);
  sh ← introspectTable (dp_schema p) (dp_table p);
  members ← prepare_members now host sh cx p;
  plan ← lift (plan_request (dp_operation p) members sh cx);
  _ ← for_each (fun kv => set_config kv.1 (js_to_string kv.2)) (pn_settings plan);
  answer ← run_statements plan;
  mret (plan, shape_response plan answer.1 answer.2).

Definition context_of (p : data_params) : data_context :=
  mk_data_context (di_tenant (dp_identity p)) (default (di_workspace (dp_identity p)) (dp_workspace p)) (dp_database p) (di_role (dp_identity p))
    (di_actor (dp_identity p)).

Definition executePostgresData (now : Z) (p : data_params) : M world js_error (data_plan * data_response) :=
  let cx := context_of p in
  if negb (nonempty (dc_tenant cx)) then throw (clientError "Missing tenant identity" 401 "IDENTITY_MISSING")
  else if negb (nonempty (dc_workspace cx)) then throw (clientError "Missing workspace" 400 "WORKSPACE_MISSING")
  else withWorkspaceClient (dc_tenant cx) (dc_workspace cx) (di_db_role (dp_identity p)) (operation_is p "knn_search") (execute_on_client now cx p).

End executor.
