(* ===== verification/PgTenant.v ===== *)
(** * Tenants in the PostgreSQL data API

    What the executor plans for a table with a tenant column: which rows a
    statement can reach, which rows it writes, and in what context it runs. *)
From S2P Require Import Prelude JsValue Json Regex PgTable PgSql PgPlan PgBulk PgSaved PgSemantics PgRender PgAccess PgWhere PgExecutor.
Local Open Scope Z_scope.

(** ** The decision *)

Lemma resolved_decision roles command a session row t joins role d :
  resolveEffectiveRole roles command a session row t joins = Ok (role, d) ->
  d = evaluatePlanningAccess role command (tb_schema t) (tb_name t) a session row /\ ad_allowed d = true.
Proof.
  unfold resolveEffectiveRole. rewrite resolve_role_find. destruct (List.find _ roles) as [role'|] eqn:Hf; [|done]. intros [= <- <-].
  apply find_member in Hf as [_ Hp]. by apply andb_true_iff in Hp as [Ha _].
Qed.

Definition caller_session (cx : data_context) : jsval := JObj [("tenantId", JStr (dc_tenant cx)); ("workspaceId", JStr (dc_workspace cx))].

Lemma tenant_policy_applies role command : policyAppliesToActor tenant_policy role command = true.
Proof. done. Qed.

(** On a table with a tenant column row-level security is on, with one policy. *)
Lemma executor_access_tenant role sh : has_column sh TENANT_COLUMN = true ->
  exists gs os, executor_access role sh = mk_access gs os (Some true) [tenant_policy].
Proof. intros Ht. unfold executor_access. rewrite Ht. by do 2 eexists. Qed.

(** When no row is at hand the tenant's policy is what is left to check. *)
Lemma executor_policies role role' command schema name sh cx : has_column sh TENANT_COLUMN = true ->
  let d := evaluatePlanningAccess role command schema name (executor_access role' sh) (caller_session cx) None in
  ad_allowed d = true -> ad_policies d = [tenant_policy].
Proof.
  intros Ht. destruct (executor_access_tenant role' sh Ht) as (gs & os & ->). unfold evaluatePlanningAccess.
  destruct (_ || _); [done|]. rewrite bool_decide_false by done. cbn [ac_policies List.filter]. rewrite tenant_policy_applies.
  cbn [existsb allows_all po_matcher tenant_policy]. by destruct (forallb _ _).
Qed.

(** [sessionValue && rowValue && sessionValue === rowValue] *)
Lemma same_text s v : truthy (JStr s) && truthy v && same_value (JStr s) v = true -> v = JStr s.
Proof. destruct v as [| | | |s'| |]; rewrite ?andb_false_r; try done. cbn. rewrite !andb_true_iff. intros [_ H]. by apply String.eqb_eq in H as ->. Qed.

(** A row that is at hand carries the tenant. *)
Lemma executor_row role role' command schema name sh cx row : has_column sh TENANT_COLUMN = true ->
  ad_allowed (evaluatePlanningAccess role command schema name (executor_access role' sh) (caller_session cx) (Some (JObj row))) = true ->
  own row TENANT_COLUMN = JStr (dc_tenant cx).
Proof.
  intros Ht. destruct (executor_access_tenant role' sh Ht) as (gs & os & ->). unfold evaluatePlanningAccess, evaluatePostgresDataApiAccess.
  destruct (_ || _); [done|]. rewrite bool_decide_false by done. cbn [ac_policies List.filter]. rewrite tenant_policy_applies.
  cbn [existsb]. destruct (evaluateTenantPredicate _ _ _) eqn:H; [intros _|done].
  by apply same_text in H.
Qed.

Section tenant.
Context `{NT : !NumberText, SO : !SqlOps}.

(** ** Statements confined to a tenant *)

(** The WHERE clause has a conjunct that compares the tenant column with a value
    that is the tenant. *)
Definition confined (tenant : string) (p : data_plan) : Prop :=
  exists pre parts post n,
    sq_text (pn_sql p) = lines_of (pre ++ ["WHERE " +:+ JsValue.join " AND " parts] ++ post) /\
    render "base" (CCompare TENANT_COLUMN "=" n) ∈ parts /\ bound (sq_values (pn_sql p)) n = JStr tenant.

Lemma where_line_confines pre parts post part : part ∈ parts ->
  lines_of (pre ++ where_line parts ++ post) = lines_of (pre ++ ["WHERE " +:+ JsValue.join " AND " parts] ++ post).
Proof. by destruct parts; [set_solver|]. Qed.

Lemma tenant_conds session d n : ad_policies d = [tenant_policy] -> rls_cond session n d = [CCompare TENANT_COLUMN "=" (S n)].
Proof. unfold rls_cond, rls_active. by intros ->. Qed.
Lemma tenant_params cx d : ad_policies d = [tenant_policy] -> rls_params (caller_session cx) d = [JStr (dc_tenant cx)].
Proof. unfold rls_params, rls_active. by intros ->. Qed.

Lemma statement_lines operation t q page fs n c cs : exists pre post,
  statement_with operation t q page fs n (c :: cs) =
  lines_of (pre ++ ["WHERE " +:+ JsValue.join " AND " (render "base" <$> c :: cs)] ++ post).
Proof.
  unfold statement_with. destruct (reads_rows operation).
  - unfold buildListLikeSql. eexists (_ :: _ :: jf_joins fs), _. cbn. done.
  - destruct (String.eqb operation "update"); [by eexists [_; _], [_] | by eexists [_], [_]].
Qed.

Lemma row_plan_confined operation r cx p sh dc :
  str_in operation ["list"; "get"; "update"; "delete"] = true -> has_column sh TENANT_COLUMN = true ->
  rq_row r = None -> (exists role, rq_access r = executor_access role sh) -> rq_session r = caller_session dc ->
  row_plan operation r cx = Ok p -> confined (dc_tenant dc) p.
Proof.
  intros Hop Ht Hrow [role' Ha] Hses H. unfold row_plan in H. apply result_bind_ok in H as (t & Hnt & H). apply result_bind_ok in H as (q & Hq & H).
  apply result_bind_ok in H as ([role d] & Hr & H). destruct (row_statement _ _ _ _ _ _ _ _) as [[[[[text ws] ret] rels]|] values] eqn:Hs; [|done].
  injection H as <-. assert (Hne : ry_order q <> []).
  { unfold regular_query in Hq. repeat (let x := fresh "x" in let E := fresh "E" in apply result_bind_ok in Hq as (x & E & Hq)).
    injection Hq as <-. cbn. eapply normalized_order_nonempty; [by eapply table_has_key | done]. }
  apply statement_ok in Hs as (entries & fs & rest & _ & _ & _ & -> & ->); [|done..].
  assert (Hi : String.eqb operation "insert" = false) by (destruct (String.eqb_spec operation "insert") as [->|]; done).
  rewrite Hi, Hrow, Ha, Hses in Hr. apply resolved_decision in Hr as [-> Hd]. apply executor_policies in Hd; [|done].
  set (d := evaluatePlanningAccess _ _ _ _ _ _ _) in *. unfold row_conditions. rewrite Hses, (tenant_conds _ d _ Hd). cbn [app].
  edestruct (statement_lines operation t q (member r "page") fs) as (pre & post & ->). eexists pre, _, post, _. split; [done|]. split.
  - rewrite fmap_cons. apply list_elem_of_here.
  - cbn [pn_sql sq_values]. unfold row_values. rewrite (tenant_params dc d Hd).
    rewrite <- !app_assoc. rewrite <- (Nat.add_0_r (S _)). by rewrite (bound_at _ [JStr (dc_tenant dc)] _ 0 (JStr (dc_tenant dc))).
Qed.

(** The clause of the tenant's policy, after the values bound before it. *)
Lemma tenant_clause dc d vs o vs' : ad_policies d = [tenant_policy] -> buildRlsClause "base" d (caller_session dc) vs = (Ok o, vs') ->
  option_list o = [render "base" (CCompare TENANT_COLUMN "=" (S (length vs)))] /\ vs' = vs ++ [JStr (dc_tenant dc)].
Proof. intros Hd H. apply rls_ok_spec in H as (_ & Ho & ->). rewrite (tenant_conds _ _ _ Hd) in Ho. by rewrite (tenant_params _ _ Hd). Qed.

Lemma clause_bound vs v : bound (vs ++ [v]) (S (length vs)) = v.
Proof. rewrite <- (Nat.add_0_r (S _)). rewrite <- (app_nil_r [v]). by rewrite (bound_at vs [v] [] 0 v). Qed.

Lemma bulk_update_confined r cx p sh dc : has_column sh TENANT_COLUMN = true ->
  (exists role, rq_access r = executor_access role sh) -> rq_session r = caller_session dc ->
  bulk_update_plan r cx = Ok p -> confined (dc_tenant dc) p.
Proof.
  intros Ht [role' Ha] Hses H. unfold bulk_update_plan in H. repeat (let x := fresh "x" in let E := fresh "E" in apply result_bind_ok in H as (x & E & H); try (case_match; [done|])).
  rename x4 into rd, E4 into Hr. destruct rd as [role d]. destruct (bulk_update_sql _ _ _ _ _ _) as [[text|] values] eqn:Hs; [|done]. injection H as <-.
  rewrite Ha, Hses in *. apply resolved_decision in Hr as [-> Hd]. apply executor_policies in Hd; [|done].
  unfold bulk_update_sql, mbind, M_bind in Hs. destruct (map_build _ _ []) as [[rows|] v1]; [|done].
  destruct (buildRlsClause _ _ _ v1) as [[o|] v2] eqn:Hc; [|done]. apply tenant_clause in Hc as [Ho ->]; [|done]. injection Hs as <- <-.
  eexists [_; _; _; _; _; _], _, [_], (S (length v1)). split; [reflexivity|]. split; [rewrite Ho; apply elem_of_app; right; set_solver | apply clause_bound].
Qed.

Lemma bulk_delete_confined r cx p sh dc : has_column sh TENANT_COLUMN = true ->
  (exists role, rq_access r = executor_access role sh) -> rq_session r = caller_session dc ->
  bulk_delete_plan r cx = Ok p -> confined (dc_tenant dc) p.
Proof.
  intros Ht [role' Ha] Hses H. unfold bulk_delete_plan in H. repeat (let x := fresh "x" in let E := fresh "E" in apply result_bind_ok in H as (x & E & H); try (case_match; [done|])).
  rename x3 into rd, E3 into Hr. destruct rd as [role d]. apply result_bind_ok in H as (sel & _ & H).
  destruct (bulk_delete_sql _ _ _ _ _ _) as [[text|] values] eqn:Hs; [|done]. injection H as <-.
  rewrite Ha, Hses in *. apply resolved_decision in Hr as [-> Hd]. apply executor_policies in Hd; [|done].
  unfold bulk_delete_sql, mbind, M_bind in Hs. destruct (map_build _ _ []) as [[rows|] v1]; [|done].
  destruct (buildRlsClause _ _ _ v1) as [[o|] v2] eqn:Hc; [|done]. apply tenant_clause in Hc as [Ho ->]; [|done]. injection Hs as <- <-.
  eexists [_; _; _; _; _], _, [_], (S (length v1)). split; [reflexivity|]. split; [rewrite Ho; apply elem_of_app; right; set_solver | apply clause_bound].
Qed.

Lemma knn_confined r cx p sh dc : has_column sh TENANT_COLUMN = true ->
  (exists role, rq_access r = executor_access role sh) -> rq_session r = caller_session dc ->
  knn_plan r cx = Ok p -> confined (dc_tenant dc) p.
Proof.
  intros Ht [role' Ha] Hses H. unfold knn_plan in H. apply result_bind_ok in H as (t & _ & H). apply result_bind_ok in H as (op & _ & H).
  apply result_bind_ok in H as (vec & _ & H). apply result_bind_ok in H as ([vc|] & _ & H); [|done]. destruct (bool_decide _); [done|].
  destruct (positive_integer _); [|done]. apply result_bind_ok in H as (sel & _ & H). apply result_bind_ok in H as (fs & _ & H).
  apply result_bind_ok in H as ([role d] & Hr & H). destruct (knn_statement _ _ _ _ _ _ _ _ _ _) as [[text|] values] eqn:Hs; [|done]. injection H as <-.
  rewrite Ha, Hses in *. apply resolved_decision in Hr as [-> Hd]. apply executor_policies in Hd; [|done].
  unfold knn_statement, mbind, M_bind in Hs. cbn [pushValue] in Hs. destruct (buildRlsClause _ _ _ _) as [[o|] v2] eqn:Hc in Hs; [|done].
  apply tenant_clause in Hc as [Ho ->]; [|done]. destruct (buildFilterClauses _ _ _) as [[cs|] v3] eqn:Hf in Hs; [|done].
  apply filters_ok in Hf as (_ & _ & ->). injection Hs as <- <-.
  eexists [_; _], _, [_; _], 2%nat. split; [cbn [pn_sql sq_text]; rewrite Ho; reflexivity|]. split; [set_solver | done].
Qed.

(** ** The requests of the executor *)

(** The operations on the rows of a table. *)
Definition TABLE_OPERATIONS : list string :=
  ["list"; "get"; "insert"; "update"; "delete"; "bulk_insert"; "bulk_update"; "bulk_delete"; "knn_search"].

Lemma built_request operation members sh cx r : buildRequest (Some operation) members sh cx = Ok r ->
  rq_row r = None /\ (exists role, rq_access r = executor_access role sh) /\ rq_session r = caller_session cx /\ member r "operation" = JStr operation.
Proof. unfold buildRequest. intros H. apply result_bind_ok in H as (rows & _ & H). injection H as <-. split_and!; [done | by eexists | done..]. Qed.

Lemma table_operation operation : str_in operation TABLE_OPERATIONS = true ->
  lower_trim (JStr operation) = operation /\ str_in operation POSTGRES_DATA_API_OPERATIONS = true /\
  String.eqb operation "saved_query_execute" = false /\ String.eqb operation "stable_endpoint_invoke" = false.
Proof.
  intros H%str_in_elem. revert operation H.
  apply (proj1 (Forall_forall (fun operation => lower_trim (JStr operation) = operation /\ str_in operation POSTGRES_DATA_API_OPERATIONS = true /\
    String.eqb operation "saved_query_execute" = false /\ String.eqb operation "stable_endpoint_invoke" = false) _)).
  repeat constructor.
Qed.

Lemma planned_request operation members sh cx p : str_in operation TABLE_OPERATIONS = true -> plan_request (Some operation) members sh cx = Ok p ->
  exists r pc, buildRequest (Some operation) members sh cx = Ok r /\ request_context r = Ok pc /\ plan_operation operation r pc = Ok p.
Proof.
  intros (Hl & Hop & Hs & He)%table_operation H. unfold plan_request in H.
  destruct (buildRequest (Some operation) members sh cx) as [r|] eqn:Hr; [|done]. cbn [mbind result_bind] in H.
  pose proof (built_request _ _ _ _ _ Hr) as (_ & _ & _ & Hm). unfold buildPostgresDataApiPlan, request_operation in H. rewrite Hm in H.
  cbn [coalesce nullish] in H. rewrite Hl, Hop in H. cbn [mbind result_bind] in H. rewrite Hs, He in H.
  destruct (request_context r) as [pc|] eqn:Hc; [|done]. cbn [mbind result_bind] in H.
  destruct (plan_operation operation r pc) as [p'|] eqn:Hp; [|done]. injection H as <-. by exists r, pc.
Qed.

(** ** Rows written *)

Lemma map_bind_of {A} (g : A -> jsval) l n :
  emits n (map_build (fun x => bind_value (g x)) l) (PgSemantics.placeholder <$> seq (S n) (length l)) (g <$> l).
Proof.
  pose proof (map_bind_emits None (g <$> l) n) as H. rewrite length_fmap in H. intros vs Hn. etransitivity; [|exact (H vs Hn)]. clear. revert vs.
  induction l as [|x l IH]; intros vs; [done|]. cbn. unfold mbind, M_bind. cbn. by rewrite IH.
Qed.

Definition row_values_of (columns : list string) (row : list (string * jsval)) : list jsval := (fun c => coalesce (own row c) JNull) <$> columns.

(** The lists of placeholders of the rows, after [n] values. *)
Definition row_texts (columns : list string) (n : nat) (rows : list (list (string * jsval))) : list string :=
  number (fun n _ => row_text (PgSemantics.placeholder <$> seq (S n) (length columns))) (fun row => length (row_values_of columns row)) n rows.

(** The statement inserts these rows: the value of each column of each row is
    bound where the text names it. *)
Definition inserts (p : data_plan) (columns : list string) (rows : list (list (string * jsval))) : Prop :=
  exists pre returning,
    sq_text (pn_sql p) = lines_of
      ["INSERT INTO " +:+ qualifiedTableName (pn_schema p) (pn_table p) +:+ " (" +:+ comma (quoteIdent <$> columns) +:+ ")";
       "VALUES " +:+ JsValue.join ("," +:+ line_feed +:+ "       ") (row_texts columns (length pre) rows); returning_line returning] /\
    sq_values (pn_sql p) = pre ++ flat_map (row_values_of columns) rows.

Lemma bulk_insert_ok t columns rows ret text values : bulk_insert_sql t columns rows ret [] = (Ok text, values) ->
  text = lines_of ["INSERT INTO " +:+ qualifiedTableName (tb_schema t) (tb_name t) +:+ " (" +:+ comma (quoteIdent <$> columns) +:+ ")";
                   "VALUES " +:+ JsValue.join ("," +:+ line_feed +:+ "       ") (row_texts columns 0 rows); returning_line ret] /\
  values = flat_map (row_values_of columns) rows.
Proof.
  unfold bulk_insert_sql, mbind, M_bind. destruct (map_build _ rows []) as [[rs|] v1] eqn:Hm; [|done]. intros [= <- <-].
  apply (map_build_ok _ (fun n _ => row_text (PgSemantics.placeholder <$> seq (S n) (length columns))) (row_values_of columns) (fun _ => true)) in Hm as (_ & -> & ->).
  - done.
  - intros row n _. apply (emits_then _ _ row_text), map_bind_of.
  - done.
Qed.

Lemma own_elem kvs k v : NoDup kvs.*1 -> (k, v) ∈ kvs -> own kvs k = v.
Proof.
  unfold own, js_get. induction kvs as [|[k' v'] kvs IH]; [set_solver|]. rewrite fmap_cons, NoDup_cons, elem_of_cons. intros [Hk Hn] [[= -> ->]|Hin]; cbn.
  - by rewrite String.eqb_refl.
  - destruct (String.eqb_spec k k') as [->|]; [|by apply IH]. destruct Hk. rewrite list_elem_of_fmap. by exists (k', v).
Qed.

Lemma from_entries_nodup kvs : NoDup (from_entries kvs).*1.
Proof.
  unfold from_entries. cut (forall acc : list (string * jsval), NoDup acc.*1 -> NoDup (foldl (fun acc kv => assoc_set kv.1 kv.2 acc) acc kvs).*1).
  { intros H. apply H. constructor. }
  induction kvs as [|[k v] kvs IH]; intros acc Hn; [done|]. cbn. by apply IH, assoc_set_nodup.
Qed.

Lemma compact_nodup kvs : NoDup kvs.*1 -> NoDup (compactDefined kvs).*1 /\ Forall (fun kv => is_undef kv.2 = false) (compactDefined kvs).
Proof.
  unfold compactDefined. induction kvs as [|[k v] kvs IH]; [split; constructor|]. rewrite fmap_cons, NoDup_cons. intros [Hk Hn]. specialize (IH Hn) as [IHn IHu].
  cbn. destruct (is_undef v) eqn:Hu; cbn; [done|]. rewrite NoDup_cons. split; [split; [|done]|by constructor].
  intros Hin. apply Hk. apply list_elem_of_fmap in Hin as ([k' v'] & -> & Hin). apply list_elem_of_fmap. exists (k', v'). split; [done|].
  apply list_elem_of_In in Hin. apply filter_In in Hin as [Hin _]. by apply list_elem_of_In.
Qed.

Lemma normalized_values v t kvs : normalizeValues v t = Ok kvs -> row_values_of kvs.*1 kvs = kvs.*2.
Proof.
  unfold normalizeValues, column_entries. intros H. apply result_bind_ok in H as (kvs' & H' & H). apply result_bind_ok in H' as (es & _ & H'). apply result_bind_ok in H' as (fs & _ & H').
  injection H' as <-. assert (kvs = compactDefined (from_entries fs)) as -> by (by destruct (compactDefined (from_entries fs)); [|injection H as <-]).
  destruct (compact_nodup _ (from_entries_nodup fs)) as [Hn Hu]. revert Hn Hu. generalize (compactDefined (from_entries fs)). clear. intros kvs Hn Hu.
  unfold row_values_of. rewrite <- list_fmap_compose. apply list_fmap_ext. intros i [k v] Hi. change (coalesce (own kvs k) JNull = v). rewrite (own_elem _ _ v Hn).
  - rewrite Forall_lookup in Hu. specialize (Hu _ _ Hi). by destruct v.
  - by eapply list_elem_of_lookup_2.
Qed.

Lemma own_in_keys kvs k s : own kvs k = JStr s -> k ∈ kvs.*1.
Proof.
  unfold own, js_get. induction kvs as [|[k' v'] kvs IH]; [done|]. cbn. destruct (String.eqb_spec k k') as [->|]; [set_solver|]. intros H. apply elem_of_cons. right. by apply IH.
Qed.

Lemma unique_elem l x : x ∈ l -> nonempty x = true -> x ∈ unique l.
Proof.
  intros Hin Hx. unfold unique. cut (forall acc, x ∈ l \/ x ∈ acc -> x ∈ foldl (fun acc s => if negb (nonempty s) || str_in s acc then acc else acc ++ [s]) acc l).
  { intros H. apply H. by left. }
  clear Hin. induction l as [|y l IH]; intros acc; [set_solver|]. cbn. intros [Hin|Hin]; apply IH.
  - apply elem_of_cons in Hin as [->|Hin]; [|by left]. right. rewrite Hx. cbn. destruct (str_in y acc) eqn:Hy; [by apply str_in_elem|set_solver].
  - right. destruct (_ || _); set_solver.
Qed.

Lemma insert_carries r cx p sh dc : has_column sh TENANT_COLUMN = true ->
  (exists role, rq_access r = executor_access role sh) -> rq_session r = caller_session dc -> row_plan "insert" r cx = Ok p ->
  exists columns rows, inserts p columns rows /\ rows <> [] /\ TENANT_COLUMN ∈ columns /\ Forall (fun row => own row TENANT_COLUMN = JStr (dc_tenant dc)) rows.
Proof.
  intros Ht [role' Ha] Hses H. unfold row_plan in H. apply result_bind_ok in H as (t & _ & H). apply result_bind_ok in H as (q & Hq & H).
  apply result_bind_ok in H as ([role d] & Hr & H). destruct (row_statement _ _ _ _ _ _ _ _) as [[[[[text ws] ret] rels]|] values] eqn:Hs; [|done].
  injection H as <-. assert (Hv : exists kvs, ry_values q = Some kvs /\ row_values_of kvs.*1 kvs = kvs.*2).
  { unfold regular_query in Hq. repeat (let x := fresh "x" in let E := fresh "E" in apply result_bind_ok in Hq as (x & E & Hq)).
    injection Hq as <-. cbn in E4 |- *. apply result_bind_ok in E4 as (kvs & Hk & E4). injection E4 as <-. exists kvs. split; [done|]. by eapply normalized_values. }
  destruct Hv as (kvs & Hv & Hvals). rewrite Hv, Ha, Hses in Hr. apply resolved_decision in Hr as [-> Hd].
  apply executor_row in Hd; [|done]. exists kvs.*1, [kvs]. split_and!; [|done|by eapply own_in_keys|by repeat constructor].
  unfold row_statement, mbind, M_bind in Hs. destruct (build_wheres _ _ _ _ _ _ _ _) as [[cs|] v1]; [|done]. change (reads_rows "insert") with false in Hs. cbv [mret M_ret] in Hs. change (String.eqb "insert" "insert") with true in Hs. cbv iota in Hs.
  rewrite Hv in Hs. unfold insert_sql, mbind, M_bind, default, id in Hs. rewrite (map_bind_of snd kvs (length v1) v1 eq_refl) in Hs. injection Hs as <- <- <- <- <-.
  eexists v1, _. split.
  - cbn [pn_sql sq_text pn_schema pn_table row_texts number JsValue.join]. unfold row_text. rewrite length_fmap, <- string_app_assoc. reflexivity.
  - cbn [pn_sql sq_values flat_map]. by rewrite app_nil_r, Hvals.
Qed.

Lemma bulk_insert_carries rows0 r cx p sh dc : has_column sh TENANT_COLUMN = true ->
  (exists role, rq_access r = executor_access role sh) -> rq_session r = caller_session dc -> bulk_insert_plan rows0 r cx = Ok p ->
  exists columns rows, inserts p columns rows /\ rows <> [] /\ TENANT_COLUMN ∈ columns /\ Forall (fun row => own row TENANT_COLUMN = JStr (dc_tenant dc)) rows.
Proof.
  intros Ht [role' Ha] Hses H. unfold bulk_insert_plan in H. apply result_bind_ok in H as (t & _ & H). apply result_bind_ok in H as (sel & _ & H).
  apply result_bind_ok in H as (items & _ & H). apply result_bind_ok in H as (kvs & _ & H). destruct (bool_decide (kvs = [])) eqn:Hne; [done|].
  apply bool_decide_eq_false in Hne. apply result_bind_ok in H as (b & _ & H). apply result_bind_ok in H as ([role d] & Hr & H).
  destruct (bulk_insert_sql _ _ _ _ _) as [[text|] values] eqn:Hs; [|done]. injection H as <-. rewrite Ha, Hses in Hr.
  apply batch_role_rows in Hr as [_ Hr]. apply bulk_insert_ok in Hs as [-> ->].
  assert (Hrows : Forall (fun row => own row TENANT_COLUMN = JStr (dc_tenant dc)) kvs).
  { eapply Forall_impl; [exact Hr|]. intros row. by apply executor_row. }
  exists (unique (flat_map (fun row => row.*1) kvs)), kvs. split_and!; [by exists [], (returning_columns t sel)|done| |done].
  apply unique_elem; [|done]. destruct Hrows as [|row rows Hrow _]; [done|]. cbn. apply elem_of_app. left. by eapply own_in_keys.
Qed.

(** ** Theorems *)

(** C16: on a table with a tenant column every statement the executor plans to
    read, change or delete rows, one by one or in bulk, by key, by filter or by
    similarity, has in its WHERE clause, as a conjunct of its own, the comparison
    of the tenant column with a bound value, and that value is the caller's tenant,
    whatever the request asks for. *)
Theorem statements_are_confined_to_the_tenant operation members sh cx p :
  has_column sh TENANT_COLUMN = true ->
  str_in operation ["list"; "get"; "update"; "delete"; "bulk_update"; "bulk_delete"; "knn_search"] = true ->
  plan_request (Some operation) members sh cx = Ok p -> confined (dc_tenant cx) p.
Proof.
  intros Ht Hop H. assert (Htab : str_in operation TABLE_OPERATIONS = true).
  { apply str_in_elem in Hop. apply str_in_elem. unfold TABLE_OPERATIONS. set_solver. }
  apply planned_request in H as (r & pc & Hr & _ & H); [|done]. apply built_request in Hr as (Hrow & Ha & Hses & _).
  unfold plan_operation in H. 
  repeat match type of H with context [String.eqb operation ?s] =>
    destruct (String.eqb_spec operation s) as [->|]; [try (exfalso; vm_compute in Hop; discriminate Hop)|] end.
  - by eapply bulk_update_confined.
  - by eapply bulk_delete_confined.
  - by eapply knn_confined.
  - eapply row_plan_confined; [|done..]. apply str_in_elem in Hop. apply str_in_elem. set_solver.
Qed.

(** C17: on a table with a tenant column every row that the executor plans to
    insert, one or many, has the caller's tenant in that column, whatever the
    request put there: the column is among those the statement names, and the
    value bound for it in every row is the tenant. *)
Theorem inserted_rows_carry_the_tenant operation members sh cx p :
  has_column sh TENANT_COLUMN = true -> str_in operation ["insert"; "bulk_insert"] = true ->
  plan_request (Some operation) members sh cx = Ok p ->
  exists columns rows, inserts p columns rows /\ rows <> [] /\ TENANT_COLUMN ∈ columns /\
    Forall (fun row => own row TENANT_COLUMN = JStr (dc_tenant cx)) rows.
Proof.
  intros Ht Hop H. assert (Htab : str_in operation TABLE_OPERATIONS = true).
  { apply str_in_elem in Hop. apply str_in_elem. unfold TABLE_OPERATIONS. set_solver. }
  apply planned_request in H as (r & pc & Hr & _ & H); [|done]. apply built_request in Hr as (_ & Ha & Hses & _).
  apply str_in_elem in Hop. apply elem_of_cons in Hop as [->|Hop]; [exact (insert_carries _ _ _ _ _ Ht Ha Hses H)|].
  apply elem_of_cons in Hop as [->|Hop]; [exact (bulk_insert_carries _ _ _ _ _ _ Ht Ha Hses H)|set_solver].
Qed.

End tenant.

(** ** Samples *)

Definition orders_shape : shape := mk_shape "public" "orders" [("id", "text"); ("tenant_id", "text"); ("body", "jsonb")] [] ["id"].
Definition acme : data_context := mk_data_context "acme" "w1" (JStr "shop") "" JUndef.

Lemma statements_are_confined_to_the_tenant_witness : exists p,
  @plan_request sample_number_text (Some "list") (filtered "a") orders_shape acme = Ok p /\ confined "acme" p.
Proof.
  destruct (@plan_request sample_number_text (Some "list") (filtered "a") orders_shape acme) as [p|e] eqn:E; [|vm_compute in E; discriminate E].
  exists p. split; [reflexivity|].
  exact (@statements_are_confined_to_the_tenant sample_number_text "list" (filtered "a") orders_shape acme p eq_refl eq_refl E).
Defined.

(** A row that claims another tenant. *)
Definition forged : list (string * jsval) := [("values", JObj [("id", JStr "1"); ("tenant_id", JStr "globex")])].

Lemma inserted_rows_carry_the_tenant_witness : exists p columns rows,
  @plan_request sample_number_text (Some "insert") forged orders_shape acme = Ok p /\ inserts p columns rows /\ rows <> [] /\
  Forall (fun row => own row "tenant_id" = JStr "acme") rows.
Proof.
  destruct (@plan_request sample_number_text (Some "insert") forged orders_shape acme) as [p|e] eqn:E; [|vm_compute in E; discriminate E].
  destruct (@inserted_rows_carry_the_tenant sample_number_text "insert" forged orders_shape acme p eq_refl eq_refl E) as (columns & rows & Hi & Hn & _ & Hr).
  exists p, columns, rows. split; [reflexivity|]. split; [exact Hi|]. split; [exact Hn | exact Hr].
Defined.

(** An update is not stamped: it may give a row to another tenant. *)
Lemma update_may_change_the_tenant : exists p,
  @plan_request sample_number_text (Some "update") [("primaryKey", JObj [("id", JStr "1")]); ("changes", JObj [("tenant_id", JStr "globex")])] orders_shape acme = Ok p /\
  pn_mutation p = Some [("tenant_id", JStr "globex")].
Proof.
  destruct (@plan_request sample_number_text (Some "update") _ orders_shape acme) as [p|e] eqn:E; [|vm_compute in E; discriminate E].
  exists p. split; [reflexivity|]. apply (f_equal (fun r => match r with Ok p => pn_mutation p | Err _ => None end)) in E. rewrite <- E. vm_compute. reflexivity.
Qed.
