(* ===== verification/PgContext.v ===== *)
(** * The context of the executor's statements

    Every statement is sent within the caller's tenant and workspace and under
    the caller's role, and a request changes the database of its workspace or,
    when it fails, none. *)
From S2P Require Import Prelude JsValue Json Regex PgTable PgSql PgPlan PgBulk PgSaved PgSemantics PgExecutor.
Local Open Scope Z_scope.

(** ** The settings of a plan *)

Definition SCOPE_SETTINGS : list string := ["app.tenant_id"; "app.workspace_id"].

Definition leaves_scope (kvs : list (string * jsval)) : Prop := Forall (fun kv => kv.1 ∉ SCOPE_SETTINGS) kvs.

(** Open a computation that gave a result, bind by bind and case by case. *)
Ltac plan_cases H :=
  repeat match type of H with
  | Err _ = Ok _ => discriminate H
  | (_ ≫= _) = Ok _ => apply result_bind_ok in H as (? & ? & H)
  | (match ?x with _ => _ end) = Ok _ => destruct x
  end.

Lemma trace_settings_scope members session ws : leaves_scope (trace_settings members session ws).
Proof.
  unfold leaves_scope, trace_settings. apply List.Forall_forall. intros kv [Hin _]%filter_In. revert kv Hin. apply List.Forall_forall.
  repeat constructor; cbn; unfold SCOPE_SETTINGS; set_solver.
Qed.

Lemma context_scope r cx : request_context r = Ok cx -> leaves_scope (cx_settings cx).
Proof. unfold request_context. intros H. plan_cases H. injection H as <-. apply trace_settings_scope. Qed.

Section context.
Context `{NT : !NumberText}.

Lemma plan_operation_settings operation r cx p : plan_operation operation r cx = Ok p -> pn_settings p = cx_settings cx.
Proof.
  assert (Hb : forall rows p, bulk_insert_plan rows r cx = Ok p -> pn_settings p = cx_settings cx).
  { intros rows p' H. unfold bulk_insert_plan in H. plan_cases H. by injection H as <-. }
  unfold plan_operation. intros H.
  destruct (String.eqb operation "rpc"); [unfold rpc_plan in H; plan_cases H; by injection H as <-|].
  destruct (String.eqb operation "bulk_insert"); [by eapply Hb|].
  destruct (String.eqb operation "bulk_update"); [unfold bulk_update_plan in H; plan_cases H; by injection H as <-|].
  destruct (String.eqb operation "bulk_delete"); [unfold bulk_delete_plan in H; plan_cases H; by injection H as <-|].
  destruct (String.eqb operation "import").
  { unfold import_plan in H. apply result_bind_ok in H as (fmt & _ & H). destruct (String.eqb fmt "json").
    - apply result_bind_ok in H as (p' & Hp & H). injection H as <-. by apply Hb in Hp.
    - plan_cases H. by injection H as <-. }
  destruct (String.eqb operation "export"); [unfold export_plan in H; plan_cases H; by injection H as <-|].
  destruct (String.eqb operation "knn_search"); [unfold knn_plan in H; plan_cases H; by injection H as <-|].
  unfold row_plan in H. plan_cases H. by injection H as <-.
Qed.

Lemma planned_scope operation r p : planned operation r = Ok p -> leaves_scope (pn_settings p).
Proof. unfold planned. intros H. apply result_bind_ok in H as (cx & Hc & H). apply plan_operation_settings in H as ->. by eapply context_scope. Qed.

Lemma saved_scope sq r p : buildPostgresSavedQueryExecutionPlan sq r = Ok p -> leaves_scope (pn_settings p).
Proof.
  unfold buildPostgresSavedQueryExecutionPlan. intros H. apply result_bind_ok in H as (def & _ & H). apply result_bind_ok in H as (ps & _ & H).
  apply result_bind_ok in H as (p' & Hp & H). injection H as <-. cbn [pn_settings replanned].
  destruct (String.eqb _ "routine"); apply result_bind_ok in Hp as (v & _ & Hp); by eapply planned_scope.
Qed.

Lemma plan_scope r p : buildPostgresDataApiPlan r = Ok p -> leaves_scope (pn_settings p).
Proof.
  unfold buildPostgresDataApiPlan. intros H. apply result_bind_ok in H as (operation & _ & H). apply result_bind_ok in H as (cx & Hc & H).
  destruct (String.eqb operation "saved_query_execute"); [by eapply saved_scope|].
  destruct (String.eqb operation "stable_endpoint_invoke").
  - unfold buildPostgresDataStableEndpointInvocationPlan in H. apply result_bind_ok in H as (ep & _ & H). apply result_bind_ok in H as (p' & Hp & H).
    injection H as <-. cbn [pn_settings replanned].
    destruct (String.eqb _ "saved_query"); [by eapply saved_scope|]. destruct (String.eqb _ "routine"); by eapply planned_scope.
  - apply plan_operation_settings in H as ->. by eapply context_scope.
Qed.

(** ** The context of a connection *)

Section client.
Context {D : Type} `{WD : !WorkspaceDatabase D, EM : !Embeddings, CN : !Connections}.
Notation client := (@client D).
Variables (tenantId workspaceId : string) (role : option string).

Definition session_in_context (s : db_session) : Prop :=
  assoc_lookup "app.tenant_id" (se_settings s) = Some tenantId /\ assoc_lookup "app.workspace_id" (se_settings s) = Some workspaceId /\ se_role s = role.

Definition in_context (c : client) : Prop :=
  session_in_context (cl_session c) /\ Forall (fun s => session_in_context s.1) (cl_sent c).

Definition keeps_context {A} (m : M client js_error A) : Prop := forall c res c', m c = (res, c') -> in_context c -> in_context c'.

Lemma stays_ret {A} (a : A) : keeps_context (mret a).
Proof. by intros c res c' [= <- <-]. Qed.
Lemma stays_throw {A} e : keeps_context (throw e : M client js_error A).
Proof. by intros c res c' [= <- <-]. Qed.
Lemma stays_lift {A} (r : result js_error A) : keeps_context (lift r).
Proof. by intros c res c' [= <- <-]. Qed.
Lemma stays_bind {A B} (m : M client js_error A) (k : A -> M client js_error B) :
  keeps_context m -> (forall a, keeps_context (k a)) -> keeps_context (m ≫= k).
Proof.
  intros Hm Hk c res c'. unfold mbind, M_bind. destruct (m c) as [[a|e] c1] eqn:E.
  - intros H Hc. eapply Hk; [exact H|]. by eapply Hm.
  - intros [= <- <-] Hc. by eapply Hm.
Qed.

Lemma stays_lift_bind {A B} (r : result js_error A) (k : A -> M client js_error B) :
  (forall a, r = Ok a -> keeps_context (k a)) -> keeps_context (lift r ≫= k).
Proof.
  intros Hk c res c'. unfold mbind, M_bind, lift. destruct r as [a|e]; [intros H Hc; by eapply Hk | by intros [= <- <-]].
Qed.

Lemma stays_query s : keeps_context (client_query s).
Proof.
  intros c res c'. unfold client_query. destruct (db_query _ _ _) as [r d]. intros [= <- <-] [Hs Hl]. split; [done|].
  cbn. apply Forall_app. split; [done|]. by apply Forall_singleton.
Qed.

Lemma assoc_lookup_set {A} k (v : A) k' kvs : assoc_lookup k (assoc_set k' v kvs) = if String.eqb k k' then Some v else assoc_lookup k kvs.
Proof.
  induction kvs as [|[k1 v1] kvs IH]; cbn; [done|]. destruct (String.eqb_spec k' k1) as [->|Hne]; cbn.
  - by destruct (String.eqb k k1).
  - rewrite IH. destruct (String.eqb_spec k k1) as [->|]; [|done]. destruct (String.eqb_spec k1 k'); congruence.
Qed.

Lemma keeps_config key value : key ∉ SCOPE_SETTINGS -> keeps_context (set_config key value).
Proof.
  unfold SCOPE_SETTINGS. intros Hk c res c' [= <- <-] [(Ht & Hw & Hr) Hl]. split; [|done]. unfold session_in_context. cbn. rewrite !assoc_lookup_set.
  destruct (String.eqb_spec "app.tenant_id" key) as [<-|]; [set_solver|]. destruct (String.eqb_spec "app.workspace_id" key) as [<-|]; [set_solver|]. done.
Qed.

Lemma keeps_capability now host : keeps_context (requireVectorCapability now host).
Proof.
  intros c res c'. unfold requireVectorCapability. cbv zeta. destruct (match host with Some _ => _ | None => _ end); [by intros [= <- <-]|].
  destruct (db_has_vector _ _) as [[]|]; by intros [= <- <-].
Qed.

Lemma keeps_introspect s t : keeps_context (introspectTable s t).
Proof. intros c res c'. unfold introspectTable. destruct (db_columns s t (cl_db c)); by intros [= <- <-]. Qed.

Lemma keeps_dimension s t n : keeps_context (columnVectorDimension s t n).
Proof. by intros c res c' [= <- <-]. Qed.

Lemma keeps_vector : keeps_context set_vector.
Proof. by intros c res c' [= <- <-]. Qed.

Lemma keeps_fold {A B} (f : B -> A -> M client js_error B) b xs : (forall b x, keeps_context (f b x)) -> keeps_context (for_fold f b xs).
Proof. intros Hf. revert b. induction xs as [|x xs IH]; intros b; [apply stays_ret|]. cbn. apply stays_bind; [done | intros; apply IH]. Qed.

Lemma keeps_map {A B} (f : A -> M client js_error B) xs : (forall x, keeps_context (f x)) -> keeps_context (map_run f xs).
Proof.
  intros Hf. induction xs as [|x xs IH]; [apply stays_ret|]. cbn. apply stays_bind; [done|]. intros. apply stays_bind; [done | intros; apply stays_ret].
Qed.

Create HintDb context.
#[local] Hint Resolve stays_ret stays_throw stays_lift stays_query keeps_capability keeps_introspect keeps_dimension keeps_vector : context.

Ltac keeps := repeat first [progress auto with context | apply stays_bind | apply keeps_fold | apply keeps_map | progress intros | case_match].

Lemma keeps_auto_embed sh ws t mps payload : keeps_context (applyAutoEmbed sh ws t mps payload).
Proof. unfold applyAutoEmbed, auto_embed_one. keeps. Qed.
#[local] Hint Resolve keeps_auto_embed : context.

Lemma keeps_embed_query sh cx members : keeps_context (embed_query sh cx members).
Proof. unfold embed_query. keeps. Qed.
Lemma keeps_embed_writes now host sh cx operation members : keeps_context (embed_writes now host sh cx operation members).
Proof. unfold embed_writes. keeps. Qed.
#[local] Hint Resolve keeps_embed_query keeps_embed_writes : context.

Lemma keeps_prepare now host sh cx p : keeps_context (prepare_members now host sh cx p).
Proof. unfold prepare_members. keeps. Qed.

Lemma keeps_settings kvs : leaves_scope kvs -> keeps_context (for_each (fun kv => set_config kv.1 (js_to_string kv.2)) kvs).
Proof. induction 1 as [|kv kvs Hk _ IH]; cbn; [apply stays_ret|]. apply stays_bind; [by apply keeps_config | done]. Qed.

Lemma keeps_statements p : keeps_context (run_statements p).
Proof.
  assert (H : keeps_context (res ← client_query (pn_sql p); count ← runCount (pn_count p); mret (res, count))).
  { unfold runCount. keeps. }
  intros c res c'. unfold run_statements. destruct ((client_query (pn_sql p) ≫= _) c) as [[a|e] c1] eqn:E; intros [= <- <-] Hc; by eapply H.
Qed.
#[local] Hint Resolve keeps_prepare keeps_statements : context.

Lemma plan_request_scope operation members sh cx p : plan_request operation members sh cx = Ok p -> leaves_scope (pn_settings p).
Proof.
  unfold plan_request. destruct (_ ≫= _) as [p'|] eqn:H; [|done]. intros [= <-]. apply result_bind_ok in H as (r & _ & H). by eapply plan_scope.
Qed.

Lemma keeps_execute now cx p host : keeps_context (execute_on_client now cx p host).
Proof.
  unfold execute_on_client. apply stays_bind; [keeps|]. intros _. apply stays_bind; [keeps|]. intros sh. apply stays_bind; [keeps|]. intros members.
  apply stays_lift_bind. intros plan Hp. apply stays_bind; [apply keeps_settings; by eapply plan_request_scope|]. intros _. keeps.
Qed.

End client.

(** ** Theorems *)

Section theorems.
Context {D : Type} `{WD : !WorkspaceDatabase D, EM : !Embeddings, CN : !Connections}.

(** The role a session assumes: none when the credential names none. *)
Definition assumed_role (role : option string) : option string := match role with Some r => if nonempty r then Some r else None | None => None end.

(** Before the request is run the context is set. *)
Lemma context_applied tenantId workspaceId role d probes vector c' : nonempty tenantId = true -> nonempty workspaceId = true ->
  applyRlsContext tenantId workspaceId role (fresh_client d probes vector) = (Ok tt, c') ->
  session_in_context tenantId workspaceId (assumed_role role) (cl_session c') /\ @cl_sent D c' = [].
Proof.
  intros Ht Hw. unfold applyRlsContext, set_when. rewrite Ht, Hw. unfold mbind, M_bind, assumed_role. destruct role as [r|].
  - destruct (nonempty r); cbn; [|intros [= <-]; repeat split]. destruct (re_test_full ROLE_IDENT r); cbn; [|done].
    unfold set_local_role. destruct (db_set_role r _); [|done]. intros [= <-]; repeat split.
  - intros [= <-]; repeat split.
Qed.

(** C22: every statement the executor sends while it serves a request, the count
    included, is sent in a transaction whose settings name the caller's tenant and
    workspace and that has assumed the role of the caller's credential; nothing
    the plan sets afterwards changes these. *)
Theorem statements_run_in_the_callers_context now cx p host role d probes vector res c' :
  nonempty (dc_tenant cx) = true -> nonempty (dc_workspace cx) = true ->
  (_ ← applyRlsContext (dc_tenant cx) (dc_workspace cx) role; execute_on_client now cx p host) (fresh_client d probes vector) = (res, c') ->
  Forall (fun s => session_in_context (dc_tenant cx) (dc_workspace cx) (assumed_role role) s.1) (@cl_sent D c').
Proof.
  intros Ht Hw. unfold mbind, M_bind. destruct (applyRlsContext _ _ _ _) as [[[]|e] c1] eqn:Hc.
  - apply context_applied in Hc as [Hs Hl]; [|done..]. intros H. apply (keeps_execute (dc_tenant cx) (dc_workspace cx) (assumed_role role) now cx p host c1 res c' H).
    split; [done|]. by rewrite Hl.
  - intros [= <- <-]. revert Hc. unfold applyRlsContext, set_when, mbind, M_bind. rewrite Ht, Hw. destruct role as [r|]; [|done].
    destruct (nonempty r); cbn; [|done]. destruct (re_test_full ROLE_IDENT r); cbn; [|by intros [= <- <-]].
    unfold set_local_role. destruct (db_set_role r _); [done|]. by intros [= <- <-].
Qed.

(** A request changes at most the database that its workspace resolves to,
    and when it fails (for whatever reason: no identity, no connection, a refused
    plan, an error of the server, a failed commit) it changes none. *)
Theorem requests_touch_one_database now p (w w' : @world D) res : executePostgresData now p w = (res, w') ->
  forall dsn, (is_ok res = false \/ ~ (exists host, resolve (dc_workspace (context_of p)) = Ok (dsn, host))) -> wd_databases w' dsn = wd_databases w dsn.
Proof.
  unfold executePostgresData. destruct (negb (nonempty (dc_tenant _))); [by intros [= <- <-]|]. destruct (negb (nonempty (dc_workspace _))); [by intros [= <- <-]|].
  unfold withWorkspaceClient. destruct (resolve _) as [[dsn0 host]|e] eqn:Hr; [|by intros [= <- <-]]. destruct (connect_error dsn0); [by intros [= <- <-]|].
  destruct ((applyRlsContext _ _ _ ≫= _) _) as [[a|e] c]; [|by intros [= <- <-]]. destruct (db_commit _); [|by intros [= <- <-]].
  intros [= <- <-] dsn [|Hd]; [done|]. cbn. unfold set_database. destruct (String.eqb_spec dsn dsn0) as [->|]; [|done]. destruct Hd. by exists host.
Qed.

End theorems.
End context.

(** ** Samples *)

(** A database that counts the statements it runs. *)
Definition counting : WorkspaceDatabase nat :=
  {| db_query := fun _ _ d => (Ok ([[("id", JStr "1")]], 1), S d);
     db_columns := fun _ _ _ => [("id", ("text", "text")); ("tenant_id", ("text", "text"))];
     db_primary_key := fun _ _ _ => ["id"];
     db_typmod := fun _ _ _ _ => None;
     db_has_vector := fun _ _ => Ok false;
     db_set_role := fun _ _ => Ok tt;
     db_commit := fun d => Ok d |}.

Definition no_embeddings : Embeddings :=
  {| em_executor := false; em_store := false; embedForWorkspace := fun _ _ _ _ _ => Ok []; getMapping := fun _ _ _ _ _ => None;
     getMappings := fun _ _ _ _ => [] |}.

Definition one_database : Connections :=
  {| resolveConnection := fun _ => Ok (Some ("shop_dsn", None)); connect_error := fun _ => None |}.

Definition list_orders : data_params :=
  mk_params (Some "list") (Some "w1") (JStr "shop") "public" "orders" (mk_identity "acme" "w1" "" JUndef (Some "anon"))
    [("countMode", JStr "exact")].

Notation list_run :=
  ((_ ← applyRlsContext (WD := counting) (dc_tenant (context_of list_orders)) (dc_workspace (context_of list_orders)) (Some "anon");
   execute_on_client (WD := counting) (EM := no_embeddings) (NT := sample_number_text) 0 (context_of list_orders) list_orders None)
    (fresh_client 0%nat [] false)).

Lemma statements_run_in_the_callers_context_witness :
  Forall (fun s => session_in_context "acme" "w1" (Some "anon") s.1) (cl_sent list_run.2) /\ length (cl_sent list_run.2) = 2%nat.
Proof.
  split; [|vm_compute; reflexivity]. destruct list_run as [res c'] eqn:E.
  exact (@statements_run_in_the_callers_context sample_number_text nat counting no_embeddings 0 (context_of list_orders) list_orders None
    (Some "anon") 0%nat [] false res c' eq_refl eq_refl E).
Defined.

Definition two_databases : @world nat := mk_world (fun _ => 0%nat) [].

Notation list_served :=
  (executePostgresData (WD := counting) (EM := no_embeddings) (CN := one_database) (NT := sample_number_text) 0 list_orders two_databases).

Lemma requests_touch_one_database_witness :
  wd_databases list_served.2 "shop_dsn" = 2%nat /\ wd_databases list_served.2 "other_dsn" = 0%nat.
Proof.
  split; [vm_compute; reflexivity|]. destruct list_served as [res w'] eqn:E.
  refine (@requests_touch_one_database sample_number_text nat counting no_embeddings one_database 0 list_orders two_databases w' res E "other_dsn" _).
  right. intros [host H]. vm_compute in H. discriminate H.
Defined.
