(* ===== verification/PgPaging.v ===== *)
(** * Paging through the rows of a list

    A cursor carries the values of the order columns of a row through JSON, UTF-8
    and base64url; following the cursors visits every row once, in order. *)
From S2P Require Import Prelude JsValue Json Regex SsrfProofs WebhookKeys.
From S2P Require Import PgTable PgSql PgPlan PgBulk PgSaved PgSemantics PgRender PgTypes PgAccess PgWhere PgExecutor PgTenant.
From stdpp Require Import sorting.
From Stdlib Require Import Ascii.
Local Open Scope Z_scope.

(** ** Cursors *)

Lemma utf8_byte_list s : Forall byte (utf8_bytes s).
Proof.
  unfold utf8_bytes. induction (chars s) as [|c l IH]; cbn; [constructor|]. apply Forall_app. split; [|done].
  pose proof (N_ascii_bounded c) as Hc. unfold code. destruct (Z.ltb_spec (Z.of_N (N_of_ascii c)) 128); repeat constructor; unfold byte;
    Z.to_euclidean_division_equations; lia.
Qed.

Lemma utf8_roundtrip s : utf8_chars (utf8_bytes s) = chars s.
Proof.
  unfold utf8_bytes. induction (chars s) as [|c l IH]; [done|]. cbn [flat_map]. pose proof (N_ascii_bounded c) as Hc. unfold code in *.
  pose proof (ascii_N_embedding c) as Hback. set (n := Z.of_N (N_of_ascii c)) in *.
  assert (Hn : 0 <= n < 256) by lia. assert (Hof : ascii_of_N (Z.to_N n) = c) by (unfold n; by rewrite N2Z.id).
  destruct (Z.ltb_spec n 128) as [Hlt|Hge]; cbn [app utf8_chars].
  - rewrite (proj2 (Z.ltb_lt n 128) Hlt), Hof. by f_equal.
  - assert (Hq : n / 64 = 2 \/ n / 64 = 3) by (Z.to_euclidean_division_equations; lia).
    rewrite (proj2 (Z.ltb_ge (192 + n / 64) 128)) by lia.
    replace ((192 + n / 64 =? 194) || (192 + n / 64 =? 195)) with true by (destruct Hq as [-> | ->]; done).
    rewrite (proj2 (Z.leb_le 128 (128 + n mod 64))) by (Z.to_euclidean_division_equations; lia).
    rewrite (proj2 (Z.ltb_lt (128 + n mod 64) 192)) by (Z.to_euclidean_division_equations; lia). cbn [andb].
    replace ((192 + n / 64 - 192) * 64 + (128 + n mod 64 - 128)) with n by (Z.to_euclidean_division_equations; lia). rewrite Hof. by f_equal.
Qed.

Lemma url_chars s : Forall (fun c => b64_class c = true) s -> base64url_chars (of_chars s) = s.
Proof.
  unfold base64url_chars. rewrite chars_of_chars. induction 1 as [|c s Hc _ IH]; [done|]. cbn [fmap list_fmap List.filter].
  destruct (Ascii.eqb_spec c "+") as [->|]; [done|]. destruct (Ascii.eqb_spec c "/") as [->|]; [done|]. rewrite Hc. by f_equal.
Qed.

Section cursors.
Context `{NT : !NumberText}.

Lemma cursor_text_roundtrip v : plain v -> parsePostgresDataApiCursor (serializePostgresDataApiCursor v) = Ok v.
Proof.
  intros Hv. unfold parsePostgresDataApiCursor, serializePostgresDataApiCursor, canonicalBase64Url.
  rewrite url_chars by (apply b64_encode_class, utf8_byte_list). rewrite b64_roundtrip by apply utf8_byte_list.
  by rewrite utf8_roundtrip, of_chars_chars, json_parse_text.
Qed.

(** What is written of an entry: a value that is undefined leaves no field. *)
Definition cursor_entry (row : list (string * jsval)) (e : order_entry) : jsval :=
  JObj (compactDefined [("columnName", JStr (oe_column e)); ("direction", JStr (oe_direction e)); ("value", own row (oe_column e))]).

Definition cursor_payload (order : list order_entry) (row : list (string * jsval)) : jsval := JObj [("order", JArr (cursor_entry row <$> order))].

(** The value survives JSON, or there is none. *)
Definition cursor_safe (v : jsval) : Prop := v = JUndef \/ plain v.

Lemma order_text l l' : json_text <$> l = json_text <$> l' -> json_text (JObj [("order", JArr l)]) = json_text (JObj [("order", JArr l')]).
Proof. intros H. change (List.map json_text l = List.map json_text l') in H. cbn [json_text List.flat_map is_undef snd fst]. by rewrite H. Qed.

Lemma payload_text order row : row_cursor order row = serializePostgresDataApiCursor (cursor_payload order row).
Proof.
  unfold row_cursor, serializePostgresDataApiCursor, cursor_payload. do 2 f_equal. apply order_text. rewrite <- !list_fmap_compose.
  apply list_fmap_ext. intros i e _. unfold compose, cursor_entry, compactDefined. by destruct (own row (oe_column e)).
Qed.

Lemma payload_plain order row : Forall (fun e => cursor_safe (own row (oe_column e))) order -> plain (cursor_payload order row).
Proof.
  intros H. unfold cursor_payload. cbn [plain List.map foldr snd fst fmap list_fmap]. split; [apply NoDup_singleton|]. split; [|done].
  induction H as [|e order He _ IH]; [done|]. cbn [fmap list_fmap List.map foldr]. split; [|exact IH]. unfold cursor_entry.
  assert (Hd : forall l : list string, NoDup l <-> NoDup l) by done.
  destruct He as [-> | Hp].
  - cbn. split; [|done]. apply NoDup_ListNoDup. repeat constructor; cbn; intuition congruence.
  - assert (Hu : is_undef (own row (oe_column e)) = false) by (by destruct (own row (oe_column e))).
    unfold compactDefined. cbn [List.filter snd negb]. rewrite Hu. cbn [negb is_undef plain List.map foldr snd fst fmap list_fmap].
    split; [|done]. apply NoDup_ListNoDup. repeat constructor; cbn; intuition congruence.
Qed.

Lemma entry_value row e : js_get (cursor_entry row e) "value" = own row (oe_column e).
Proof. unfold cursor_entry, compactDefined. by destruct (own row (oe_column e)). Qed.
Lemma entry_column row e : js_get (cursor_entry row e) "columnName" = JStr (oe_column e).
Proof. unfold cursor_entry, compactDefined. by destruct (own row (oe_column e)). Qed.

Lemma cursor_values order row column : column ∈ oe_column <$> order -> cursor_value (cursor_entry row <$> order) column = own row column.
Proof.
  intros Hin. unfold cursor_value. destruct (List.find _ _) as [x|] eqn:Hf.
  - apply List.find_some in Hf as [Hx Hc]. apply in_rev, list_elem_of_In, list_elem_of_fmap in Hx as (e & -> & _).
    rewrite entry_column in Hc. rewrite entry_value. cbn in Hc. by apply String.eqb_eq in Hc as ->.
  - apply list_elem_of_fmap in Hin as (e & -> & He).
    assert (Hin : List.In (cursor_entry row e) (List.rev (cursor_entry row <$> order))).
    { rewrite <- in_rev. apply list_elem_of_In, list_elem_of_fmap. by exists e. }
    pose proof (List.find_none _ _ Hf _ Hin) as Hn. cbv beta in Hn. rewrite entry_column in Hn. cbn in Hn. by rewrite String.eqb_refl in Hn.
Qed.

Lemma row_nonempty order row : exists b bs, utf8_bytes (json_text (cursor_payload order row)) = b :: bs.
Proof. unfold cursor_payload. cbn [json_text]. by do 2 eexists. Qed.

Lemma entries_present order row : existsb nullish (cursor_entry row <$> order) = false.
Proof. by induction order as [|e order IH]. Qed.

(** The cursor the executor writes after a full page is read back, by the
    planner, as the values of the order columns of the last row: base64url, UTF-8
    and JSON lose none of them (a value that is not there is read as missing). *)
Theorem cursor_roundtrip order row : Forall (fun e => cursor_safe (own row (oe_column e))) order ->
  exists entries, cursor_after (JStr (row_cursor order row)) = Ok (Some entries) /\
    forall column, column ∈ oe_column <$> order -> cursor_value entries column = own row column.
Proof.
  intros Hs. exists (cursor_entry row <$> order). split; [|intros; by apply cursor_values].
  unfold cursor_after. assert (Ht : truthy (JStr (row_cursor order row)) = true).
  { change (nonempty (row_cursor order row) = true). rewrite payload_text. unfold serializePostgresDataApiCursor, canonicalBase64Url. destruct (row_nonempty order row) as (b & bs & ->).
    by destruct bs as [|b2 [|b3 bs]]. }
  rewrite Ht. cbn [negb]. unfold decode_cursor. rewrite payload_text, cursor_text_roundtrip by (by apply payload_plain). cbn [mbind result_bind].
  change (js_get (cursor_payload order row) "order") with (JArr (cursor_entry row <$> order)). cbn [elements_of mbind result_bind].
  by rewrite entries_present.
Qed.

(** ** Pages *)

(** What PostgreSQL's comparisons of two values obey. *)
Class SqlOrder `{SO : !SqlOps} := {
  sql_lt_asym a b : sql_compare "<" a b = true -> sql_compare "<" b a = false;
  sql_gt_lt a b : sql_compare ">" a b = sql_compare "<" b a;
  sql_eq_lt a b : sql_compare "=" a b = true -> sql_compare "<" a b = false /\ sql_compare "<" b a = false;
  sql_lt_total a b : alike a b -> sql_compare "<" a b = true \/ sql_compare "<" b a = true \/ a = b;
  sql_eq_refl a : is_Some (bracket a) -> sql_compare "=" a a = true
}.

Section paging.
Context `{SO : !SqlOps, OL : !SqlOrder}.

Lemma compare_split op a b : compare_holds op a b = true <-> nullish a = false /\ nullish b = false /\ sql_compare op a b = true.
Proof.
  unfold compare_holds, compare3. rewrite bool_decide_eq_true. destruct (nullish a), (nullish b); cbn;
    (split; [intros [= ->]; done | intros (Ha & Hb & Hc); congruence]).
Qed.

(** The direction of an entry. *)
Definition comes_after (e : order_entry) : string := if String.eqb (oe_direction e) "desc" then "<" else ">".

Lemma after_asym e a b : compare_holds (comes_after e) a b = true -> compare_holds (comes_after e) b a = true -> False.
Proof.
  rewrite !compare_split. intros (_ & _ & H) (_ & _ & H'). unfold comes_after in *. destruct (String.eqb _ _).
  - apply sql_lt_asym in H. congruence.
  - rewrite sql_gt_lt in H, H'. apply sql_lt_asym in H. congruence.
Qed.

Lemma after_not_equal e a b : compare_holds (comes_after e) a b = true -> compare_holds "=" a b = true \/ compare_holds "=" b a = true -> False.
Proof.
  rewrite !compare_split. intros (_ & _ & H) He. unfold comes_after in H. destruct (String.eqb _ _); rewrite ?sql_gt_lt in H;
    destruct He as [(_ & _ & He) | (_ & _ & He)]; apply sql_eq_lt in He as [He1 He2]; congruence.
Qed.

Lemma beyond_cons row value e order : beyond row value (e :: order) =
  compare_holds (comes_after e) (row (oe_column e)) (value (oe_column e))
  || (negb (bool_decide (order = [])) && compare_holds "=" (row (oe_column e)) (value (oe_column e)) && beyond row value order).
Proof. done. Qed.

Lemma beyond_asym a b order : beyond a b order = true -> beyond b a order = true -> False.
Proof.
  induction order as [|e order IH]; [done|]. rewrite !beyond_cons, !orb_true_iff, !andb_true_iff.
  intros [H | [[_ H] Hr]] [H' | [[_ H'] Hr']]; [by eapply after_asym | by eapply after_not_equal; [|right] | by eapply after_not_equal; [|right] | by apply IH].
Qed.

Lemma beyond_ext row value value' order : (forall c, c ∈ oe_column <$> order -> value c = value' c) -> beyond row value order = beyond row value' order.
Proof.
  induction order as [|e order IH]; intros H; [done|]. rewrite !beyond_cons. rewrite (H (oe_column e)) by (apply list_elem_of_here).
  rewrite IH; [done|]. intros c Hc. apply H. rewrite fmap_cons. by apply list_elem_of_further.
Qed.

Lemma alike_present a b : alike a b -> nullish a = false /\ nullish b = false.
Proof. intros [Hb [n Hn]]. by destruct a as [| |x|[m| | |]|x| |], b as [| |y|[k| | |]|y| |]. Qed.

Lemma beyond_total a b order : Forall (fun e => alike (a (oe_column e)) (b (oe_column e))) order ->
  beyond a b order = true \/ beyond b a order = true \/ (forall c, c ∈ oe_column <$> order -> a c = b c).
Proof.
  induction 1 as [|e order He Hr IH]; [right; right; by intros c ?%not_elem_of_nil|]. rewrite !beyond_cons.
  destruct (alike_present _ _ He) as [Ha Hb]. unfold compare_holds, compare3. rewrite Ha, Hb. cbn [orb].
  assert (Hlt : forall op x, bool_decide (Some (sql_compare op x (b (oe_column e))) = Some true) = sql_compare op x (b (oe_column e))) by (intros; destruct (sql_compare _ _ _); done).
  destruct (sql_lt_total _ _ He) as [H|[H|H]].
  - unfold comes_after. destruct (String.eqb _ _); rewrite ?sql_gt_lt, H; auto.
  - unfold comes_after. destruct (String.eqb _ _); rewrite ?sql_gt_lt, H; auto.
  - rewrite H, (sql_eq_refl (b (oe_column e))) by (rewrite <- H; apply He). destruct IH as [IH|[IH|IH]].
    + left. rewrite IH. destruct order; [done|]. cbn. by rewrite orb_true_r.
    + right. left. rewrite IH. destruct order; [done|]. cbn. by rewrite orb_true_r.
    + right. right. intros c. rewrite fmap_cons, elem_of_cons. intros [->|Hc]; [done | by apply IH].
Qed.

(** *** Lists *)

Notation js_row := (list (string * jsval)).

(** The columns a statement returns. *)
Definition project (select : list string) (row : js_row) : js_row := (fun c => (c, own row c)) <$> select.

Lemma own_project select row c : c ∈ select -> own (project select row) c = own row c.
Proof.
  unfold own, js_get, project. induction select as [|k ks IH]; [set_solver|]. intros Hc. cbn. destruct (String.eqb_spec c k) as [->|]; [done|]. apply IH. set_solver.
Qed.

Definition ordered (order : list order_entry) (rows : list js_row) : Prop := StronglySorted (fun a b => beyond (own b) (own a) order = true) rows.

(** No row lies beyond one that comes later. *)
Definition not_beyond (order : list order_entry) (a b : js_row) : Prop := beyond (own a) (own b) order = false.

Lemma beyond_suffix order rows1 x rows2 : ordered order (rows1 ++ x :: rows2) ->
  List.filter (fun row => beyond (own row) (own x) order) (rows1 ++ x :: rows2) = rows2.
Proof.
  intros H. rewrite List.filter_app. replace (List.filter _ rows1) with (@nil js_row).
  - cbn [app List.filter]. destruct (beyond (own x) (own x) order) eqn:Hx; [by destruct (beyond_asym _ _ _ Hx Hx)|].
    apply StronglySorted_app_1_r in H. apply StronglySorted_inv in H as [_ H]. induction H as [|y rows2 Hy _ IH]; [done|]. cbn. by rewrite Hy, IH.
  - symmetry. induction rows1 as [|y rows1 IH]; [done|]. cbn in H |- *. apply StronglySorted_inv in H as [H Hy].
    destruct (beyond (own y) (own x) order) eqn:E; [|by apply IH].
    rewrite Forall_forall in Hy. specialize (Hy x ltac:(set_solver)). by destruct (beyond_asym _ _ _ E Hy).
Qed.

Lemma filter_and {A} (p q : A -> bool) l : List.filter (fun x => p x && q x) l = List.filter q (List.filter p l).
Proof. induction l as [|x l IH]; [done|]. cbn. destruct (p x); cbn; [|done]. by rewrite IH. Qed.

Lemma filter_permutes {A} (p : A -> bool) l l' : l ≡ₚ l' -> List.filter p l ≡ₚ List.filter p l'.
Proof. induction 1 as [|x l l' _ IH|x y l|l1 l2 l3 _ IH1 _ IH2]; [done | | |by etrans]; cbn; repeat case_match; try done; by constructor. Qed.

(** PostgreSQL's ORDER BY on the rows of a result, when the statement succeeds:
    rows whose values compare come in the order of their values. *)
Class SqlSort := {
  sql_sort : list order_entry -> list js_row -> option (list js_row);
  sql_sorts order l l' : sql_sort order l = Some l' -> l' ≡ₚ l /\
    ((forall a b, a ∈ l -> b ∈ l -> Forall (fun e => alike (own a (oe_column e)) (own b (oe_column e))) order) -> StronglySorted (not_beyond order) l')
}.

(** *** Following the cursors *)

Section walk.
Context `{SS : !SqlSort}.
Variables (sh : shape) (cx : data_context) (members : list (string * jsval)) (size : Z) (rows : list js_row).

(** The request for the page after a cursor, or for the first one. *)
Definition page_members (after : jsval) : list (string * jsval) := ("page", JObj [("size", jint size); ("after", after)]) :: members.

(** The conditions that the WHERE clause of a list is the text of. *)
Definition list_conditions (r : data_request) : result js_error (list cond) :=
  t ← normalizeTableDefinition (rq_table r);
  q ← regular_query "list" r t;
  pc ← request_context r;
  role_decision ← resolveEffectiveRole (cx_roles pc) "select" (rq_access r) (rq_session r) (rq_row r) t (ry_joins q);
  entries ← cursor_after (js_get (member r "page") "after");
  Ok (row_conditions (rq_session r) (role_decision : string * access_decision).2 (ry_filters q) None (ry_order q) entries).

(** The server's answer to a statement that it reads as a SELECT of these columns
    under these conditions: the rows of the table that satisfy them, with the
    values the statement binds, in the order of its ORDER BY, up to its LIMIT. *)
Definition server_list (s : sql_text) (t : table) (select : list string) (order : list order_entry) (limit : jsnum) (cs : list cond) : option (list js_row) :=
  if String.eqb (sq_text s) (buildListLikeSql "list" t select (mk_fragments [] [] []) (render "base" <$> cs) order limit)
  then match limit, sql_sort order (List.filter (fun row => satisfies (sq_values s) (own row) cs) rows) with
       | NInt n, Some l => Some (project select <$> take (Z.to_nat n) l)
       | _, _ => None
       end
  else None.

(** One page: the plan of the executor, the server's answer and the response. *)
Definition answer_list (after : jsval) : result js_error data_response :=
  p ← plan_request (Some "list") (page_members after) sh cx;
  r ← buildRequest (Some "list") (page_members after) sh cx;
  t ← normalizeTableDefinition (rq_table r);
  cs ← list_conditions r;
  match server_list (pn_sql p) t (pn_selection p) (pn_order p) (from_option pg_size NNaN (pn_page p)) cs with
  | Some items => Ok (shape_response p (items, Z.of_nat (length items)) None)
  | None => Err (plain_error "Query failed")
  end.

(** A client that asks again with the cursor of each page. *)
Fixpoint walk (fuel : nat) (after : jsval) : result js_error (list js_row) :=
  match fuel with
  | O => Ok []
  | S fuel' =>
      answer ← answer_list after;
      match answer : data_response with
      | PageResponse items _ _ (Some cursor) _ => rest ← walk fuel' (JStr cursor); Ok (items ++ rest)
      | PageResponse items _ _ None _ => Ok items
      | _ => Ok []
      end
  end.

(** The rows of the caller's tenant, where the table has tenants. *)
Definition own_tenant (row : js_row) : bool :=
  if has_column sh TENANT_COLUMN then compare_holds "=" (own row TENANT_COLUMN) (JStr (dc_tenant cx)) else true.

Definition limit : Z := Z.max 1 (Z.min 200 size).

Lemma limit_of after : page_size (JObj [("size", jint size); ("after", after)]) = NInt limit.
Proof.
  unfold page_size, limit. change (js_number (coalesce (js_get (JObj [("size", jint size); ("after", after)]) "size") (jint 25))) with (NInt size).
  unfold num_min, num_max. cbn [num_leb]. destruct (Z.leb_spec 200 size); cbn [num_leb].
  - change (1 <=? 200) with true. cbv iota. f_equal. lia.
  - destruct (Z.leb_spec 1 size); f_equal; lia.
Qed.

(** Pages differ only in the page they ask for. *)
Lemma list_requests after0 after : exists r0 r, buildRequest (Some "list") (page_members after0) sh cx = Ok r0 /\ buildRequest (Some "list") (page_members after) sh cx = Ok r /\
  rq_table r = executor_table sh /\ rq_row r = None /\ rq_access r = rq_access r0 /\ rq_session r = caller_session cx /\ rq_session r0 = caller_session cx /\
  member r "page" = JObj [("size", jint size); ("after", after)] /\ request_operation r = Ok "list" /\ request_context r = request_context r0 /\
  (forall t, regular_query "list" r t = regular_query "list" r0 t) /\ member r0 "joins" = JUndef.
Proof. do 2 eexists. split_and!; reflexivity. Qed.

Lemma cursor_builds alias order after entries vs : order <> [] -> cursor_after after = Ok entries ->
  exists o, buildCursorClause alias order after vs = (Ok o, vs ++ after_params entries order).
Proof.
  intros Hne. unfold cursor_after, buildCursorClause. destruct (negb (truthy after)); [intros [= <-]; exists None; by rewrite app_nil_r|].
  unfold mbind, M_bind, result_bind, lift. destruct (decode_cursor after) as [decoded|]; [|done]. destruct (elements_of (js_get decoded "order")) as [es|]; [|done].
  destruct (existsb nullish es); [done|]. intros [= <-]. destruct order as [|e order]; [done|].
  rewrite (comparator_emits alias (cursor_value es) (e :: order) (length vs) Hne vs eq_refl). by eexists.
Qed.

Lemma wheres_paged d session fs order after0 ws values after entries : order <> [] -> cursor_after after = Ok entries ->
  build_wheres "list" d session fs None order after0 [] = (Ok ws, values) ->
  build_wheres "list" d session fs None order after [] =
    (Ok (render "base" <$> row_conditions session d fs None order entries), row_values session d fs None order entries).
Proof.
  intros Hne He H. destruct (build_wheres "list" d session fs None order after []) as [[ws'|e] values'] eqn:Hb.
  - apply wheres_ok in Hb as (entries' & He' & _ & _ & -> & ->); [|done]. change (cursor_after after = Ok entries') in He'. congruence.
  - exfalso. revert H Hb. unfold build_wheres, mbind, M_bind. destruct (buildFilterClauses _ _ _) as [[cs|] v1]; [|done].
    destruct (buildRlsClause _ _ _ v1) as [[o|] v2]; [|done]. cbv [mret M_ret]. change (String.eqb "list" "list") with true. cbv iota.
    destruct (cursor_builds "base" order after entries v2 Hne He) as [o' ->]. done.
Qed.

(** What the planner makes of each page. *)
Record paged_plan (t : table) (q : row_query) (d : access_decision) (after : jsval) (entries : option (list jsval)) (p : data_plan) : Prop := {
  pp_plan : plan_request (Some "list") (page_members after) sh cx = Ok p;
  pp_conditions : exists r, buildRequest (Some "list") (page_members after) sh cx = Ok r /\ normalizeTableDefinition (rq_table r) = Ok t /\
    list_conditions r = Ok (row_conditions (caller_session cx) d (ry_filters q) None (ry_order q) entries);
  pp_operation : pn_operation p = "list";
  pp_selection : pn_selection p = ry_select q;
  pp_filters : pn_filters p = ry_filters q;
  pp_order : pn_order p = ry_order q;
  pp_limit : exists i, pn_page p = Some i /\ pg_size i = NInt limit;
  pp_values : sq_values (pn_sql p) = row_values (caller_session cx) d (ry_filters q) None (ry_order q) entries;
  pp_text : sq_text (pn_sql p) = buildListLikeSql "list" t (ry_select q) (mk_fragments [] [] [])
              (render "base" <$> row_conditions (caller_session cx) d (ry_filters q) None (ry_order q) entries) (ry_order q) (NInt limit)
}.

Lemma list_query r t q : member r "joins" = JUndef -> tb_pk t <> [] -> regular_query "list" r t = Ok q ->
  ry_joins q = [] /\ ry_key q = None /\ ry_order q <> [] /\ normalizeOrder (member r "order") t = Ok (ry_order q).
Proof.
  unfold regular_query. intros -> Hpk. rewrite !result_bind_ok. intros (sel & _ & H). rewrite result_bind_ok in H. destruct H as (fs & _ & H).
  rewrite result_bind_ok in H. destruct H as (js & Hj & H). rewrite result_bind_ok in H. destruct H as (order & Ho & H). rewrite result_bind_ok in H. destruct H as (key & Hk & H).
  rewrite result_bind_ok in H. destruct H as (vals & _ & H). injection H as <-. cbn [ry_joins ry_key ry_order]. injection Hj as <-. injection Hk as <-.
  split_and!; [done | done | by eapply normalized_order_nonempty | done].
Qed.

(** The policies of an executor's request show the rows of the tenant. *)
Lemma tenant_rows role role' command schema name (row : sql_row) :
  ad_allowed (evaluatePlanningAccess role command schema name (executor_access role' sh) (caller_session cx) None) = true ->
  policies_hold (evaluatePlanningAccess role command schema name (executor_access role' sh) (caller_session cx) None) (caller_session cx) row =
  if has_column sh TENANT_COLUMN then compare_holds "=" (row TENANT_COLUMN) (JStr (dc_tenant cx)) else true.
Proof.
  intros Hd. destruct (has_column sh TENANT_COLUMN) eqn:Ht.
  - unfold policies_hold. rewrite (executor_policies _ _ _ _ _ _ _ Ht Hd). cbn [existsb]. change (allows_all tenant_policy) with false. cbn [orb]. rewrite orb_false_r. done.
  - revert Hd. unfold evaluatePlanningAccess, executor_access. rewrite Ht. destruct (_ || _); [done|]. rewrite bool_decide_true by done. done.
Qed.

Lemma every_page_planned p0 : plan_request (Some "list") (page_members JUndef) sh cx = Ok p0 ->
  exists t q d, normalizeTableDefinition (executor_table sh) = Ok t /\ ry_order q <> [] /\ (forall k, k ∈ tb_pk t -> k ∈ oe_column <$> ry_order q) /\
    forallb filter_ok (ry_filters q) = true /\ forallb policy_ok (rls_active d) = true /\
    (forall row : sql_row, policies_hold d (caller_session cx) row = if has_column sh TENANT_COLUMN then compare_holds "=" (row TENANT_COLUMN) (JStr (dc_tenant cx)) else true) /\
    paged_plan t q d JUndef None p0 /\
    forall after entries, cursor_after after = Ok entries -> exists p, paged_plan t q d after entries p.
Proof.
  intros H. destruct (planned_request "list" _ _ _ _ eq_refl H) as (r & pc & Hr & Hpc & Hplan). change (row_plan "list" r pc = Ok p0) in Hplan.
  unfold row_plan in Hplan. apply result_bind_ok in Hplan as (t & Ht & Hplan). apply result_bind_ok in Hplan as (q & Hq & Hplan). cbv zeta in Hplan.
  apply result_bind_ok in Hplan as ([role d] & Hrole & Hplan). destruct (row_statement _ _ _ _ _ _ _ _) as [[[[[text ws] ret] rels]|] values] eqn:Hs; [|done]. clear Hplan.
  change (String.eqb "list" "insert") with false in Hrole. cbv iota in Hrole. change (commandForOperation "list") with "select" in Hrole.
  destruct (list_requests JUndef JUndef) as (r1 & r2 & Hr1 & Hr2 & Htab & Hrow & _ & Hses & _ & _ & _ & _ & _ & Hjoins).
  rewrite Hr in Hr1, Hr2. injection Hr1 as <-. injection Hr2 as <-. rewrite Htab in Ht. rewrite Hrow, Hses in Hrole.
  destruct (list_query r t q Hjoins (table_has_key _ _ Ht) Hq) as (Hj & Hk & Hne & Ho).
  unfold row_statement, mbind at 1, M_bind at 1 in Hs. rewrite Hk, Hses in Hs. destruct (build_wheres _ _ _ _ _ _ _ _) as [[ws0|] v1] eqn:Hw; [|done]. clear Hs.
  pose proof (wheres_ok "list" d (caller_session cx) (ry_filters q) None (ry_order q) _ ws0 v1 Hne Hw) as (_ & _ & Hfs & Hps & _).
  assert (Hpages : forall after entries, cursor_after after = Ok entries -> exists p, paged_plan t q d after entries p).
  { intros after entries He. destruct (list_requests JUndef after) as (r0 & r' & Hr0 & Hr' & Htab' & Hrow' & Hacc & Hses' & _ & Hpage & Hop & Hctx & Hreg & _).
    rewrite Hr in Hr0. injection Hr0 as <-.
    assert (Hplan : exists p, row_plan "list" r' pc = Ok p /\ pn_operation p = "list" /\ pn_selection p = ry_select q /\ pn_filters p = ry_filters q /\ pn_order p = ry_order q /\
      (exists i, pn_page p = Some i /\ pg_size i = NInt limit) /\ sq_values (pn_sql p) = row_values (caller_session cx) d (ry_filters q) None (ry_order q) entries /\
      sq_text (pn_sql p) = buildListLikeSql "list" t (ry_select q) (mk_fragments [] [] [])
              (render "base" <$> row_conditions (caller_session cx) d (ry_filters q) None (ry_order q) entries) (ry_order q) (NInt limit)).
    { unfold row_plan. rewrite Htab', Ht. cbn [mbind result_bind]. rewrite Hreg, Hq. cbn [mbind result_bind]. cbv zeta. change (String.eqb "list" "insert") with false. cbv iota.
      change (commandForOperation "list") with "select". rewrite Hrow', Hacc, Hses', Hrole. cbn [mbind result_bind]. unfold row_statement, mbind, M_bind. rewrite Hk, Hpage.
      change (js_get (JObj [("size", jint size); ("after", after)]) "after") with after. rewrite (wheres_paged _ _ _ _ _ _ _ after entries Hne He Hw), Hj, limit_of.
      eexists. split; [reflexivity|]. split_and!; try reflexivity. eexists. split; reflexivity. }
    destruct Hplan as (p & Hp & H1 & H2 & H3 & H4 & H5 & H6 & H7). exists p. split; try done.
    - unfold plan_request. rewrite Hr'. cbn [mbind result_bind]. unfold buildPostgresDataApiPlan. rewrite Hop, Hctx, Hpc. cbn [mbind result_bind].
      change (match plan_operation "list" r' pc with Ok p => Ok p | Err e => Err (plan_rejected e) end = Ok p). change (plan_operation "list" r' pc) with (row_plan "list" r' pc). by rewrite Hp.
    - exists r'. split; [done|]. split; [by rewrite Htab'|]. unfold list_conditions. rewrite Htab', Ht. cbn [mbind result_bind]. rewrite Hreg, Hq. cbn [mbind result_bind].
      rewrite Hctx, Hpc. cbn [mbind result_bind]. rewrite Hrow', Hacc, Hses', Hrole. cbn [mbind result_bind snd]. rewrite Hpage.
      change (js_get (JObj [("size", jint size); ("after", after)]) "after") with after. by rewrite He. }
  exists t, q, d. split; [done|]. split; [done|]. split; [by apply (order_is_declared _ _ _ (table_keys_declared _ _ Ht) Ho)|]. split; [done|]. split; [done|]. split; [|split; [|done]].
  - destruct (built_request _ _ _ _ _ Hr) as (_ & [role' Ha] & _). rewrite Ha in Hrole. apply resolved_decision in Hrole as [-> Hd]. intros row. by apply tenant_rows.
  - destruct (Hpages JUndef None eq_refl) as [p Hp]. assert (p = p0) as -> by (pose proof (pp_plan _ _ _ _ _ _ Hp); congruence). done.
Qed.

(** *** The walk *)

Variables (t : table) (p0 : data_plan).
Hypothesis planned : plan_request (Some "list") (page_members JUndef) sh cx = Ok p0.
Hypothesis table_of : normalizeTableDefinition (executor_table sh) = Ok t.

(** The rows that the client asks for, of its tenant. *)
Definition wanted : list js_row := List.filter (fun row => own_tenant row && forallb (filter_holds (own row)) (pn_filters p0)) rows.

Hypothesis order_selected : forall c, c ∈ oe_column <$> pn_order p0 -> c ∈ pn_selection p0.
(** The server answers, the rows differ in their primary keys, and their values in
    the order columns are texts, whole numbers or truth values, of one kind in each
    column. *)
Hypothesis answers : forall f, is_Some (sql_sort (pn_order p0) (List.filter f rows)).
Hypothesis keyed : NoDup ((fun row => own row <$> tb_pk t) <$> wanted).
Hypothesis alike_rows : forall a b, a ∈ wanted -> b ∈ wanted -> Forall (fun e => alike (own a (oe_column e)) (own b (oe_column e))) (pn_order p0).

Section pages.
Variables (q : row_query) (d : access_decision) (l : list js_row).
Hypothesis order_of : pn_order p0 = ry_order q.
Hypothesis selection_of : pn_selection p0 = ry_select q.
Hypothesis filters_of : pn_filters p0 = ry_filters q.
Hypothesis has_order : ry_order q <> [].
Hypothesis has_key : forall k, k ∈ tb_pk t -> k ∈ oe_column <$> ry_order q.
Hypothesis filters_fine : forallb filter_ok (ry_filters q) = true.
Hypothesis policies_fine : forallb policy_ok (rls_active d) = true.
Hypothesis tenants : forall row : sql_row, policies_hold d (caller_session cx) row = if has_column sh TENANT_COLUMN then compare_holds "=" (row TENANT_COLUMN) (JStr (dc_tenant cx)) else true.
Hypothesis paged : forall after entries, cursor_after after = Ok entries -> exists p, paged_plan t q d after entries p.

Lemma wanted_apart a b : a ∈ wanted -> b ∈ wanted -> not_beyond (ry_order q) a b -> not_beyond (ry_order q) b a -> a = b.
Proof.
  intros Ha Hb Hab Hba. unfold not_beyond in *. destruct (beyond_total (own a) (own b) (ry_order q)) as [H|[H|H]]; [rewrite <- order_of; by apply alike_rows | congruence | congruence |].
  apply list_elem_of_lookup in Ha as [i Hi], Hb as [j Hj]. assert (i = j); [|congruence]. apply (NoDup_lookup _ i j (own a <$> tb_pk t) keyed); rewrite list_lookup_fmap.
  - by rewrite Hi.
  - rewrite Hj. cbn. f_equal. apply list_fmap_ext. intros n k Hk. symmetry. apply H, has_key. by eapply list_elem_of_lookup_2.
Qed.

Lemma sorted_ordered : l ≡ₚ wanted -> StronglySorted (not_beyond (ry_order q)) l -> ordered (ry_order q) l.
Proof.
  intros Hl Hs. assert (Hin : forall x, x ∈ l -> x ∈ wanted) by (intros x; by rewrite Hl). assert (Hd : NoDup l) by (rewrite Hl; by eapply NoDup_fmap_1). clear Hl.
  induction Hs as [|a l' Hs IH Ha]; [constructor|]. apply NoDup_cons in Hd as [Hna Hd]. constructor; [apply IH; [intros x Hx; apply Hin; by right | done]|].
  apply Forall_forall. intros b Hb. rewrite Forall_forall in Ha. specialize (Ha b Hb). destruct (beyond (own b) (own a) (ry_order q)) eqn:E; [done|].
  exfalso. apply Hna. rewrite (wanted_apart a b); [done | apply Hin; left | apply Hin; by right | done | done].
Qed.

Lemma ordered_sorted l' : ordered (ry_order q) l' -> StronglySorted (not_beyond (ry_order q)) l'.
Proof.
  induction 1 as [|a l' _ IH Ha]; constructor; [done|]. eapply Forall_impl; [exact Ha|]. intros b Hb. unfold not_beyond.
  destruct (beyond (own a) (own b) (ry_order q)) eqn:E; [by destruct (beyond_asym _ _ _ E Hb)|done].
Qed.

(** What a page is answered with, when the rows beyond its cursor are these. *)
Lemma page_answered after entries rest : cursor_after after = Ok entries ->
  List.filter (fun row => after_holds (own row) entries (ry_order q)) wanted ≡ₚ rest -> StronglySorted (not_beyond (ry_order q)) rest ->
  answer_list after = Ok (PageResponse (project (ry_select q) <$> take (Z.to_nat limit) rest) (NInt limit) (Z.of_nat (length (take (Z.to_nat limit) rest)))
    (next_after (ry_order q) (NInt limit) (project (ry_select q) <$> take (Z.to_nat limit) rest)) None).
Proof.
  intros He Hrest Hsorted. destruct (paged after entries He) as (p & [Hplan (r & Hr & Ht & Hc) Hop Hsel _ Hord (i & Hi & Hlim) Hvals Htext]).
  unfold answer_list. rewrite Hplan. cbn [mbind result_bind]. rewrite Hr. cbn [mbind result_bind]. rewrite Ht. cbn [mbind result_bind]. rewrite Hc. cbn [mbind result_bind].
  rewrite Hi. cbn [from_option]. rewrite Hlim, Hsel, Hord. unfold server_list. rewrite Htext, String.eqb_refl.
  set (cs := row_conditions _ _ _ _ _ _).
  assert (Hsat : List.filter (fun row => satisfies (sq_values (pn_sql p)) (own row) cs) rows = List.filter (fun row => after_holds (own row) entries (ry_order q)) wanted).
  { unfold wanted. rewrite <- filter_and. apply filter_ext. intros row. rewrite Hvals, <- (app_nil_r (row_values _ _ _ _ _ _)). unfold cs. rewrite (conditions_mean _ _ _ _ _ _ _ [] has_order filters_fine policies_fine).
    unfold asked_for. rewrite tenants, filters_of. cbn [default key_holds forallb]. by rewrite andb_true_r. }
  rewrite Hsat. pose proof (answers (fun row => satisfies (sq_values (pn_sql p)) (own row) cs)) as [l' Hl']. rewrite Hsat, order_of in Hl'. rewrite Hl'.
  apply sql_sorts in Hl' as [Hperm Hs]. assert (Hin : forall x, x ∈ l' -> x ∈ wanted).
  { intros x. rewrite Hperm. intros Hx. apply list_elem_of_In, filter_In in Hx as [Hx _]. by apply list_elem_of_In. }
  assert (l' = rest) as ->.
  { apply (StronglySorted_unique_strong (not_beyond (ry_order q))); [| | done | by rewrite Hperm].
    - intros a b Ha Hb. apply wanted_apart; [by apply Hin | apply Hin; by rewrite Hperm, Hrest].
    - apply Hs. intros a b Ha Hb. rewrite <- order_of. apply alike_rows; apply Hin; by rewrite Hperm. }
  unfold shape_response. rewrite Hop. rewrite Hi. cbn [String.eqb Ascii.eqb Bool.eqb str_in existsb orb from_option]. by rewrite Hlim, Hord, length_fmap.
Qed.

Lemma limit_positive : 0 < limit.
Proof. unfold limit. lia. Qed.

Hypothesis all_wanted : l ≡ₚ wanted.
Hypothesis l_ordered : ordered (ry_order q) l.

(** The cursor of a row asks for the rows that come after it. *)
Lemma cursor_of_row seen y rest : l = seen ++ y :: rest -> exists entries, cursor_after (JStr (row_cursor (ry_order q) (project (ry_select q) y))) = Ok (Some entries) /\
  List.filter (fun row => after_holds (own row) (Some entries) (ry_order q)) wanted ≡ₚ rest.
Proof.
  intros Hl. assert (Hy : y ∈ wanted) by (rewrite <- all_wanted, Hl; set_solver).
  assert (Hsel : forall c, c ∈ oe_column <$> ry_order q -> own (project (ry_select q) y) c = own y c).
  { intros c Hc. apply own_project. rewrite <- selection_of. apply order_selected. by rewrite order_of. }
  destruct (cursor_roundtrip (ry_order q) (project (ry_select q) y)) as (entries & He & Hvals).
  { apply Forall_forall. intros e He. right. rewrite Hsel by (apply list_elem_of_fmap; by exists e). pose proof (alike_rows y y Hy Hy) as Ha. rewrite order_of in Ha.
    destruct (proj1 (Forall_forall _ _) Ha e He) as [_ [n Hn]]. by destruct (own y (oe_column e)) as [| | |[| | |]| | |]. }
  exists entries. split; [done|]. etrans; [apply (filter_permutes _ wanted l); by symmetry|]. cbn [after_holds].
  rewrite (filter_ext _ (fun row => beyond (own row) (own y) (ry_order q))).
  - rewrite Hl. rewrite beyond_suffix; [done|]. by rewrite <- Hl.
  - intros row. apply beyond_ext. intros c Hc. rewrite Hvals by done. by apply Hsel.
Qed.

Lemma walk_from fuel seen rest after entries : l = seen ++ rest -> cursor_after after = Ok entries ->
  List.filter (fun row => after_holds (own row) entries (ry_order q)) wanted ≡ₚ rest -> (length rest < fuel)%nat ->
  walk fuel after = Ok (project (ry_select q) <$> rest).
Proof.
  pose proof limit_positive as Hpos. revert seen rest after entries. induction fuel as [|fuel IH]; intros seen rest after entries Hl Hafter Hf Hfuel; [lia|].
  cbn [walk]. rewrite (page_answered after entries rest Hafter Hf).
  2: { apply ordered_sorted. rewrite Hl in l_ordered. by apply StronglySorted_app_1_r in l_ordered. }
  cbn [mbind result_bind]. destruct (decide (Z.to_nat limit <= length rest)%nat) as [Hfull|Hshort].
  - destruct (take (Z.to_nat limit) rest) as [|y ys] eqn:Htake using rev_ind; [apply (f_equal length) in Htake; rewrite length_take in Htake; cbn in Htake; lia|].
    clear IHys. assert (Hlen : length (ys ++ [y]) = Z.to_nat limit) by (rewrite <- Htake, length_take; lia).
    assert (Hsplit : rest = (ys ++ [y]) ++ drop (Z.to_nat limit) rest) by (by rewrite <- Htake, take_drop).
    unfold next_after. rewrite fmap_app. change (project (ry_select q) <$> [y]) with [project (ry_select q) y]. rewrite last_snoc, (bool_decide_false (ry_order q = [])) by done.
    rewrite length_app, length_fmap. replace (num_leb _ _) with true.
    2: { symmetry. cbn [num_leb]. apply Z.leb_le. rewrite length_app in Hlen. cbn in Hlen |- *. lia. }
    cbn [negb andb]. assert (Hl' : l = (seen ++ ys) ++ y :: drop (Z.to_nat limit) rest) by (by rewrite Hl, Hsplit at 1; rewrite <- !app_assoc).
    destruct (cursor_of_row _ _ _ Hl') as (entries' & He & Hrest).
    rewrite (IH ((seen ++ ys) ++ [y]) (drop (Z.to_nat limit) rest) _ (Some entries')); [|by rewrite Hl', <- !app_assoc | exact He | exact Hrest | rewrite length_drop; lia].
    cbn [mbind result_bind]. f_equal. rewrite Hsplit at 2. by rewrite !fmap_app.
  - rewrite take_ge by lia. unfold next_after. destruct (last (project (ry_select q) <$> rest)); [|done].
    replace (num_leb _ _) with false; [by rewrite andb_false_r|]. symmetry. cbn. rewrite length_fmap. apply Z.leb_gt. lia.
Qed.

End pages.


End walk.

(** A cursor written from a row whose first order column was not selected has no
    value for it, and nothing compares with a missing value: no row lies beyond it,
    though rows may be left. *)
Theorem unselected_order_column_loses_the_rest select e order (row row' : js_row) entries :
  oe_column e ∉ select -> Forall (fun c => cursor_safe (own row c)) select ->
  cursor_after (JStr (row_cursor (e :: order) (project select row))) = Ok entries -> after_holds (own row') entries (e :: order) = false.
Proof.
  intros He Hs Hc.
  assert (Hmissing : forall c, c ∉ select -> own (project select row) c = JUndef).
  { intros c Hn. unfold own, js_get. rewrite assoc_lookup_none; [done|]. intros Hin. apply Hn. unfold project in Hin.
    rewrite <- list_fmap_compose in Hin. apply list_elem_of_fmap in Hin as (c' & -> & Hc'). exact Hc'. }
  destruct (cursor_roundtrip (e :: order) (project select row)) as (es & Hes & Hv).
  { apply Forall_forall. intros e' _. destruct (decide (oe_column e' ∈ select)) as [Hin|Hn]; [|left; by apply Hmissing].
    rewrite own_project by done. rewrite Forall_forall in Hs. by apply Hs. }
  rewrite Hes in Hc. injection Hc as <-. cbn [after_holds]. rewrite beyond_cons.
  rewrite (Hv (oe_column e)) by apply list_elem_of_here. rewrite (Hmissing _ He).
  assert (Hno : forall op v, compare_holds op v JUndef = false) by (intros op v; unfold compare_holds, compare3; by rewrite orb_true_r).
  by rewrite !Hno, andb_false_r, andb_false_l.
Qed.

(** A row whose first order column is NULL lies beyond no row. *)
Theorem null_rows_are_beyond_no_row e order (row : js_row) values : nullish (own row (oe_column e)) = true ->
  beyond (own row) values (e :: order) = false.
Proof.
  intros Hn. rewrite beyond_cons. assert (Hno : forall op v, compare_holds op (own row (oe_column e)) v = false) by (intros op v; unfold compare_holds, compare3; by rewrite Hn).
  by rewrite !Hno, andb_false_r, andb_false_l.
Qed.

End paging.
End cursors.

(** ** Samples *)

Definition by_id : list order_entry := [mk_order "id" "asc"].

Lemma cursor_roundtrip_witness : exists entries,
  cursor_after (JStr (@row_cursor sample_number_text by_id [("id", JStr "b")])) = Ok (Some entries) /\ cursor_value entries "id" = JStr "b".
Proof.
  destruct (@cursor_roundtrip sample_number_text by_id [("id", JStr "b")]) as (entries & Hc & Hv).
  - constructor; [right; exact I | constructor].
  - exists entries. split; [exact Hc|]. rewrite Hv; [reflexivity | left].
Defined.

#[local] Instance sample_order : @SqlOrder sample_ops.
Proof.
  split; cbn; unfold sample_compare; cbn.
  - apply sample_lt_asym.
  - done.
  - intros a b ->%jsval_eqb_eq. by rewrite sample_lt_irrefl.
  - apply sample_lt_total.
  - intros a _. by apply jsval_eqb_eq.
Qed.

#[local] Instance in_place_decision order l : Decision (StronglySorted (@not_beyond sample_ops order) l).
Proof. apply StronglySorted_dec. intros a b. unfold not_beyond. apply _. Defined.

(** A server whose tables keep their rows in order, and that lists them only in
    that order. *)
#[local] Instance sample_sort : @SqlSort sample_ops.
Proof.
  refine {| sql_sort := fun order l => if decide (StronglySorted (@not_beyond sample_ops order) l) then Some l else None |}.
  intros order l l'. destruct (decide _) as [Hs|]; [|done]. by intros [= <-].
Defined.

Definition order_row (id tenant : string) : list (string * jsval) := [("id", JStr id); ("tenant_id", JStr tenant); ("body", JNull)].

Definition four_rows : list (list (string * jsval)) := [order_row "a" "acme"; order_row "b" "globex"; order_row "c" "acme"; order_row "d" "acme"].

Notation own_rows := [order_row "a" "acme"; order_row "c" "acme"; order_row "d" "acme"].
Notation two_by_two := (@walk sample_number_text sample_ops sample_sort orders_shape acme [("select", JArr [JStr "id"])] 2 four_rows 4 JUndef).

Lemma own_rows_alike : Forall (fun a => Forall (fun b => Forall (fun e => alike (own a (oe_column e)) (own b (oe_column e))) by_id) own_rows) own_rows.
Proof. repeat constructor; eexists; reflexivity. Qed.

Lemma four_rows_answered f : is_Some (@sql_sort sample_ops sample_sort by_id (List.filter f four_rows)).
Proof.
  cbn [sql_sort sample_sort]. rewrite decide_True; [by eexists|]. unfold four_rows. cbn [List.filter].
  destruct (f (order_row "a" "acme")), (f (order_row "b" "globex")), (f (order_row "c" "acme")), (f (order_row "d" "acme")); repeat constructor.
Qed.


Example two_pages : two_by_two = Ok (project ["id"] <$> own_rows).
Proof. vm_compute. reflexivity. Qed.
