(* ===== verification/MongoFilter.v ===== *)
(** * Paths, filters and the scope of the MongoDB data API

    The first helpers of src/packages/adapters/src/mongodb-data-api.mjs: its
    errors, the shapes of names and field paths, integers in a range, reading and
    writing a document through a dotted path; then filters, orders, pages and the
    scope of a request.

    A member of an object is read as the object's own: the names every object
    inherits, and [__proto__], are outside the model (see the findings). *)
From S2P Require Import Prelude JsValue Json Regex WebhookKeys PgTable PgSql.
From Stdlib Require Import Ascii.
Local Open Scope Z_scope.

(** ** Errors *)

(** [MongoDataApiError]; a [TypeError] has neither code nor status. *)
Record mongo_error := mk_mongo_error {
  me_code : option string;
  me_status : option Z;
  me_message : string;
  me_details : list string;
  me_meta : list (string * jsval)
}.

Definition mongoError (code : string) (status : Z) (message : string) : mongo_error := mk_mongo_error (Some code) (Some status) message [] [].
Definition type_error : mongo_error := mk_mongo_error None None "TypeError" [] [].

Notation checked := (result mongo_error).
Notation js_object := (list (string * jsval)) (only parsing).

(** [items.map(f)], where [f] may throw. *)
Section throwing.
Context {A B : Type} (f : A -> checked B).
Fixpoint traverse_checked (l : list A) : checked (list B) :=
  match l with
  | [] => Ok []
  | x :: l' => match f x with
               | Err e => Err e
               | Ok y => match traverse_checked l' with Err e => Err e | Ok ys => Ok (y :: ys) end
               end
  end.
End throwing.

(** [v.k]: [null] and [undefined] have no members. *)
Definition member_of (v : jsval) (k : string) : checked jsval := if nullish v then Err type_error else Ok (js_get v k).

(** An argument whose default is [{}]. *)
Definition or_empty (v : jsval) : jsval := match v with JUndef => JObj [] | _ => v end.

(** [value.map] of [value ?? []]. *)
Definition array_of (v : jsval) : checked (list jsval) :=
  match v with JUndef | JNull => Ok [] | JArr xs => Ok xs | _ => Err type_error end.

Definition isPlainObject (v : jsval) : bool := match v with JObj _ => true | _ => false end.

(** [value === undefined ? undefined : JSON.parse(JSON.stringify(value))] *)
Fixpoint cloneJson (v : jsval) : jsval :=
  match v with
  | JNum (NNaN | NInf _) => JNull
  | JArr xs => JArr (List.map (fun x => if is_undef x then JNull else cloneJson x) xs)
  | JObj kvs => JObj (List.flat_map (fun kv => if is_undef kv.2 then [] else [(kv.1, cloneJson kv.2)]) kvs)
  | _ => v
  end.

(** ** Names *)

Definition NAME_PATTERN : re :=
  RSeq (RCls (fun c => is_upper c || is_lower c || is_digit c)) (rupto 62 (RCls (fun c => is_word c || Ascii.eqb c "." || Ascii.eqb c "-"))).

Definition FIELD_SEGMENT_PATTERN : re := RSeq (RCls (fun c => is_upper c || is_lower c || Ascii.eqb c "_")) (RStar (RCls is_word)).

Definition FIELD_PATH_PATTERN : re := RSeq FIELD_SEGMENT_PATTERN (RStar (RSeq (rchar ".") FIELD_SEGMENT_PATTERN)).

Definition normalizeNonEmptyString (v : jsval) (fieldName : string) : checked string :=
  match v with
  | JStr s => if String.eqb (trim s) "" then Err (mongoError "mongo_data_invalid_identifier" 400 (fieldName +:+ " must be a non-empty string."))
              else Ok (trim s)
  | _ => Err (mongoError "mongo_data_invalid_identifier" 400 (fieldName +:+ " must be a non-empty string."))
  end.

Definition normalizeScopedName (v : jsval) (fieldName : string) : checked string :=
  normalized ← normalizeNonEmptyString v fieldName;
  if re_test_full NAME_PATTERN normalized then Ok normalized
  else Err (mongoError "mongo_data_invalid_identifier" 400
              (fieldName +:+ " must match /^[A-Za-z0-9][A-Za-z0-9._-]{0,62}$/. Received " +:+ js_to_string v +:+ ".")).

Definition normalizeFieldPath (v : jsval) (fieldName : string) : checked string :=
  normalized ← normalizeNonEmptyString v fieldName;
  if re_test_full FIELD_PATH_PATTERN normalized then Ok normalized
  else Err (mongoError "mongo_data_invalid_field_path" 400
              (fieldName +:+ " must use dot-separated identifier segments. Received " +:+ js_to_string v +:+ ".")).

(** [maximum === undefined] is [None]. *)
Definition integer_within (v : jsval) (fieldName : string) (minimum : Z) (maximum : option Z) : checked Z :=
  let refused := mongoError "mongo_data_invalid_limit" 400
    (fieldName +:+ " must be an integer between " +:+ show_Z minimum +:+ " and " +:+ match maximum with Some m => show_Z m | None => "Infinity" end +:+ ".") in
  match js_number v with
  | NInt n => if (n <? minimum) || match maximum with Some m => m <? n | None => false end then Err refused else Ok n
  | _ => Err refused
  end.

Definition normalizePositiveInteger (v : jsval) (fieldName : string) (maximum : option Z) : checked Z := integer_within v fieldName 1 maximum.
Definition normalizeNonNegativeInteger (v : jsval) (fieldName : string) (maximum : option Z) : checked Z := integer_within v fieldName 0 maximum.

Definition normalizeEnumValue (v : jsval) (allowedValues : list string) (fieldName : string) : checked string :=
  normalized ← normalizeNonEmptyString v fieldName;
  if str_in normalized allowedValues then Ok normalized
  else Err (mongoError "mongo_data_invalid_option" 400 (fieldName +:+ " must be one of " +:+ JsValue.join ", " allowedValues +:+ ".")).

(** ** Reading and writing through a path *)

(** [delete o[k]] *)
Fixpoint assoc_delete {A} (k : string) (kvs : list (string * A)) : list (string * A) :=
  match kvs with
  | [] => []
  | (k', v) :: kvs' => if String.eqb k k' then assoc_delete k kvs' else (k', v) :: assoc_delete k kvs'
  end.

Definition pathSegments (path : string) : checked (list string) :=
  normalized ← normalizeFieldPath (JStr path) "fieldPath"; Ok (split_on "." normalized).

(** A value that is not an object gives way to one. *)
Definition inner_object (segment : string) (kvs : js_object) : js_object :=
  match assoc_lookup segment kvs with Some (JObj inner) => inner | _ => [] end.

Fixpoint set_segments (segments : list string) (v : jsval) (kvs : js_object) : js_object :=
  match segments with
  | [] => kvs
  | [last] => assoc_set last v kvs
  | segment :: rest => assoc_set segment (JObj (set_segments rest v (inner_object segment kvs))) kvs
  end.

Definition setPathValue (target : js_object) (path : string) (v : jsval) : checked js_object :=
  segments ← pathSegments path; Ok (set_segments segments v target).

Fixpoint unset_segments (segments : list string) (kvs : js_object) : js_object :=
  match segments with
  | [] => kvs
  | [last] => assoc_delete last kvs
  | segment :: rest => match assoc_lookup segment kvs with
                       | Some (JObj inner) => assoc_set segment (JObj (unset_segments rest inner)) kvs
                       | _ => kvs
                       end
  end.

Definition unsetPathValue (target : js_object) (path : string) : checked js_object :=
  segments ← pathSegments path; Ok (unset_segments segments target).

(** [cursor?.[segment]]: strings and arrays have a length. *)
Definition read_member (v : jsval) (segment : string) : jsval :=
  match v with
  | JObj _ => js_get v segment
  | JStr s => if String.eqb segment "length" then jint (Z.of_nat (String.length s)) else JUndef
  | JArr xs => if String.eqb segment "length" then jint (Z.of_nat (length xs)) else JUndef
  | _ => JUndef
  end.

Definition get_segments (segments : list string) (v : jsval) : jsval := foldl read_member v segments.

Definition getPathValue (target : jsval) (path : string) : checked jsval :=
  segments ← pathSegments path; Ok (get_segments segments target).

(** ** Lemmas *)

Lemma traverse_checked_ok {A B} (f : A -> checked B) l ys : traverse_checked f l = Ok ys <-> Forall2 (fun x y => f x = Ok y) l ys.
Proof.
  revert ys. induction l as [|x l IH]; intros ys; cbn.
  - split; [intros [= <-]; constructor | by inversion 1].
  - destruct (f x) as [y|e] eqn:Hx; [|split; [done | inversion 1; congruence]].
    destruct (traverse_checked f l) as [ys'|e] eqn:Hl.
    + split; [intros [= <-]; constructor; [done | by apply IH]|]. inversion 1; subst. do 2 f_equal; [congruence|].
      assert (Ok ys' = Ok l') as [= ->] by (by apply IH). done.
    + split; [done|]. inversion 1; subst. assert (Err e = Ok l') by (by apply IH). done.
Qed.

Lemma object_lookup_set {A} k (v : A) kvs : assoc_lookup k (assoc_set k v kvs) = Some v.
Proof. induction kvs as [|[k' v'] kvs IH]; cbn; [by rewrite String.eqb_refl|]. destruct (String.eqb k k') eqn:E; cbn; by rewrite E. Qed.

Lemma assoc_lookup_set_ne {A} k k' (v : A) kvs : k <> k' -> assoc_lookup k' (assoc_set k v kvs) = assoc_lookup k' kvs.
Proof.
  intros Hne. induction kvs as [|[k2 v2] kvs IH]; cbn.
  - destruct (String.eqb_spec k' k); [congruence | done].
  - destruct (String.eqb_spec k k2) as [<-|]; cbn; [|by rewrite IH]. destruct (String.eqb_spec k' k); [congruence | done].
Qed.

Lemma assoc_lookup_delete {A} k (kvs : list (string * A)) : assoc_lookup k (assoc_delete k kvs) = None.
Proof. induction kvs as [|[k' v] kvs IH]; [done|]. cbn. destruct (String.eqb k k') eqn:E; [done|]. cbn. by rewrite E. Qed.

Lemma assoc_lookup_delete_ne {A} k k' (kvs : list (string * A)) : k <> k' -> assoc_lookup k' (assoc_delete k kvs) = assoc_lookup k' kvs.
Proof.
  intros Hne. induction kvs as [|[k2 v] kvs IH]; [done|]. cbn. destruct (String.eqb_spec k k2) as [<-|]; cbn.
  - destruct (String.eqb_spec k' k); [congruence | done].
  - by rewrite IH.
Qed.

Lemma get_cons segment rest kvs : get_segments (segment :: rest) (JObj kvs) = get_segments rest (default JUndef (assoc_lookup segment kvs)).
Proof. done. Qed.

Lemma get_undef segments : get_segments segments JUndef = JUndef.
Proof. by induction segments. Qed.

(** What was written is read back. *)
Lemma get_set_same segments v kvs : segments <> [] -> get_segments segments (JObj (set_segments segments v kvs)) = v.
Proof.
  revert kvs. induction segments as [|s [|s' rest] IH]; intros kvs Hne; [done| |].
  - cbn [set_segments]. by rewrite get_cons, object_lookup_set.
  - change (set_segments (s :: s' :: rest) v kvs) with (assoc_set s (JObj (set_segments (s' :: rest) v (inner_object s kvs))) kvs).
    rewrite get_cons, object_lookup_set. by apply IH.
Qed.

(** Neither path leads to or through the other. *)
Definition apart (p q : list string) : Prop := ~ p `prefix_of` q /\ ~ q `prefix_of` p.

Lemma apart_cons s p q : apart (s :: p) (s :: q) <-> apart p q.
Proof. unfold apart. by split; intros [H1 H2]; split; intros H; (apply H1 + apply H2); (apply prefix_cons + apply prefix_cons_inv_2 in H). Qed.

Lemma apart_nil q : ~ apart [] q.
Proof. intros [H _]. apply H, prefix_nil. Qed.
Lemma apart_nil_r p : ~ apart p [].
Proof. intros [_ H]. apply H, prefix_nil. Qed.

(** Only an object has members other than a length. *)
Lemma get_no_object segments v : isPlainObject v = false -> "length" ∉ segments -> segments <> [] -> get_segments segments v = JUndef.
Proof.
  destruct segments as [|s rest]; [done|]. intros Hv Hl _. cbn. rewrite not_elem_of_cons in Hl. destruct Hl as [Hs _].
  replace (read_member v s) with JUndef; [apply get_undef|]. destruct v; try done; cbn; by destruct (String.eqb_spec s "length"); [congruence|].
Qed.

Lemma get_inner segment rest kvs : rest <> [] -> "length" ∉ rest ->
  get_segments rest (JObj (inner_object segment kvs)) = get_segments rest (default JUndef (assoc_lookup segment kvs)).
Proof.
  intros Hne Hl. unfold inner_object. destruct (assoc_lookup segment kvs) as [v|]; cbn [from_option id]; [|].
  - destruct (isPlainObject v) eqn:Hv; [by destruct v|]. rewrite (get_no_object rest v) by done.
    replace (match v with JObj inner => inner | _ => [] end) with (@nil (string * jsval)) by (by destruct v).
    destruct rest as [|r rest]; [done|]. exact (get_undef rest).
  - by destruct rest.
Qed.

(** A path apart from the one written reads as before. *)
Lemma get_set_other p q v kvs : apart p q -> "length" ∉ q -> get_segments q (JObj (set_segments p v kvs)) = get_segments q (JObj kvs).
Proof.
  revert q kvs. induction p as [|s p IH]; intros q kvs Ha Hl; [by destruct (apart_nil _ Ha)|].
  destruct q as [|s' q]; [by destruct (apart_nil_r _ Ha)|]. rewrite not_elem_of_cons in Hl. destruct Hl as [_ Hl].
  destruct (decide (s = s')) as [<-|Hne].
  - apply apart_cons in Ha. destruct p as [|s2 p]; [by destruct (apart_nil _ Ha)|].
    change (set_segments (s :: s2 :: p) v kvs) with (assoc_set s (JObj (set_segments (s2 :: p) v (inner_object s kvs))) kvs).
    rewrite !get_cons, object_lookup_set. cbn [from_option id]. rewrite IH by done. apply get_inner; [|done]. intros ->. by destruct (apart_nil_r _ Ha).
  - rewrite !get_cons. destruct p as [|s2 p]; cbn [set_segments]; by rewrite assoc_lookup_set_ne.
Qed.

Lemma get_unset_same segments kvs : segments <> [] -> "length" ∉ segments -> get_segments segments (JObj (unset_segments segments kvs)) = JUndef.
Proof.
  revert kvs. induction segments as [|s [|s' rest] IH]; intros kvs Hne Hl; [done| |].
  - cbn [unset_segments]. by rewrite get_cons, assoc_lookup_delete.
  - rewrite not_elem_of_cons in Hl. destruct Hl as [_ Hl].
    change (unset_segments (s :: s' :: rest) kvs) with (match assoc_lookup s kvs with Some (JObj inner) => assoc_set s (JObj (unset_segments (s' :: rest) inner)) kvs | _ => kvs end).
    destruct (assoc_lookup s kvs) as [v|] eqn:Hs.
    + destruct (isPlainObject v) eqn:Hv.
      * destruct v; try done. rewrite get_cons, object_lookup_set. by apply IH.
      * replace (match v with JObj inner => _ | _ => kvs end) with kvs by (by destruct v). rewrite get_cons, Hs. by apply get_no_object.
    + rewrite get_cons, Hs. apply get_undef.
Qed.

Lemma get_unset_other p q kvs : apart p q -> get_segments q (JObj (unset_segments p kvs)) = get_segments q (JObj kvs).
Proof.
  revert q kvs. induction p as [|s p IH]; intros q kvs Ha; [by destruct (apart_nil _ Ha)|].
  destruct q as [|s' q]; [by destruct (apart_nil_r _ Ha)|]. destruct (decide (s = s')) as [<-|Hne].
  - apply apart_cons in Ha. destruct p as [|s2 p]; [by destruct (apart_nil _ Ha)|].
    change (unset_segments (s :: s2 :: p) kvs) with (match assoc_lookup s kvs with Some (JObj inner) => assoc_set s (JObj (unset_segments (s2 :: p) inner)) kvs | _ => kvs end).
    destruct (assoc_lookup s kvs) as [[]|] eqn:Hs; try done. rewrite !get_cons, object_lookup_set, Hs. by apply IH.
  - destruct p as [|s2 p]; cbn [unset_segments]; [by rewrite !get_cons, assoc_lookup_delete_ne|].
    destruct (assoc_lookup s kvs) as [[]|] eqn:Hs; try done. by rewrite !get_cons, assoc_lookup_set_ne.
Qed.

(** * Filters, orders, pages and the scope of a MongoDB request

    What a request asks to see: filters made regular, projections, orders, page
    sizes and cursors, and the predicate on tenant and workspace that is put
    before every filter (src/packages/adapters/src/mongodb-data-api.mjs). *)

Definition ALLOWED_TOP_LEVEL_FILTER_OPERATORS : list string := ["$and"; "$or"].
Definition ALLOWED_FIELD_FILTER_OPERATORS : list string := ["$eq"; "$ne"; "$gt"; "$gte"; "$lt"; "$lte"; "$in"; "$nin"; "$exists"; "$regex"; "$elemMatch"].

(** ** Filters *)

Definition invalid_filter (message : string) : mongo_error := mongoError "mongo_data_invalid_filter" 400 message.

Definition normalizeRegexValue (v : jsval) (fieldPath : string) : checked jsval :=
  match v with
  | JStr _ => Ok v
  | _ => match js_get v "pattern" with
         | JStr pattern => Ok (JObj (("pattern", JStr pattern) :: match js_get v "options" with JStr o => [("options", JStr o)] | _ => [] end))
         | _ => Err (invalid_filter ("Filter operator $regex on " +:+ fieldPath +:+ " must be a string or { pattern, options } object."))
         end
  end.

Definition is_operator (key : string) : bool := starts_with "$" key.

(** What [normalizeFieldOperatorValue] refuses of an operand at once. *)
Definition refused_operand (operator : string) (v : jsval) (fieldPath : string) : option mongo_error :=
  if String.eqb operator "$exists" then
    match v with JBool _ => None | _ => Some (invalid_filter ("Filter operator $exists on " +:+ fieldPath +:+ " must be boolean.")) end
  else if str_in operator ["$in"; "$nin"] then
    match v with JArr (_ :: _) => None | _ => Some (invalid_filter ("Filter operator " +:+ operator +:+ " on " +:+ fieldPath +:+ " must be a non-empty array.")) end
  else if String.eqb operator "$elemMatch" then
    if isPlainObject v then None else Some (invalid_filter ("Filter operator $elemMatch on " +:+ fieldPath +:+ " must be an object."))
  else None.

(** [normalizeFilterScalar]; on an object it is [normalizeFieldFilterObject],
    whose operands [normalizeFieldOperatorValue] reads. *)
Fixpoint normalizeFilterScalar (v : jsval) (fieldPath : string) {struct v} : checked jsval :=
  match v with
  | JNull | JStr _ | JNum _ | JBool _ => Ok v
  | JArr xs => ys ← traverse_checked (fun x => normalizeFilterScalar x fieldPath) xs; Ok (JArr ys)
  | JUndef => Err (invalid_filter ("Filter value for " +:+ fieldPath +:+ " must be JSON-compatible."))
  | JObj [] => Err (invalid_filter ("Filter object for " +:+ fieldPath +:+ " must not be empty."))
  | JObj entries =>
      if existsb (fun kv => is_operator kv.1) entries then
        kvs ← traverse_checked (fun kv =>
                if negb (str_in kv.1 ALLOWED_FIELD_FILTER_OPERATORS)
                then Err (invalid_filter ("Unsupported MongoDB filter operator " +:+ kv.1 +:+ " on " +:+ fieldPath +:+ "."))
                else match refused_operand kv.1 kv.2 fieldPath with
                | Some e => Err e
                | None =>
                    operand ← (if String.eqb kv.1 "$exists" then Ok kv.2
                               else if String.eqb kv.1 "$regex" then normalizeRegexValue kv.2 fieldPath
                               else normalizeFilterScalar kv.2 fieldPath);
                    Ok (kv.1, operand)
                end) entries;
        Ok (JObj (from_entries kvs))
      else
        kvs ← traverse_checked (fun kv =>
                key ← normalizeFieldPath (JStr kv.1) ("filter." +:+ fieldPath +:+ "." +:+ kv.1);
                value ← normalizeFilterScalar kv.2 (fieldPath +:+ "." +:+ kv.1);
                Ok (key, value)) entries;
        Ok (JObj (from_entries kvs))
  end.

Fixpoint normalizeMongoDataFilter (filter : jsval) : checked jsval :=
  match filter with
  | JUndef | JNull | JObj [] => Ok (JObj [])
  | JObj entries =>
      kvs ← traverse_checked (fun kv =>
              if is_operator kv.1 then
                if negb (str_in kv.1 ALLOWED_TOP_LEVEL_FILTER_OPERATORS)
                then Err (invalid_filter ("Unsupported top-level MongoDB filter operator " +:+ kv.1 +:+ "."))
                else match kv.2 with
                | JArr (x :: xs) => fs ← traverse_checked normalizeMongoDataFilter (x :: xs); Ok (kv.1, JArr fs)
                | _ => Err (invalid_filter (kv.1 +:+ " must be a non-empty array of filter expressions."))
                end
              else
                key ← normalizeFieldPath (JStr kv.1) ("filter." +:+ kv.1);
                value ← normalizeFilterScalar kv.2 kv.1;
                Ok (key, value)) entries;
      Ok (JObj (from_entries kvs))
  | _ => Err (invalid_filter "filter must be an object.")
  end.

(** ** Projections and orders *)

Definition include_flag (v : jsval) : option Z :=
  match v with
  | JBool b => Some (if b then 1 else 0)
  | JNum (NInt 0) => Some 0
  | JNum (NInt 1) => Some 1
  | _ => None
  end.

(** [undefined] is no projection. *)
Definition normalizeMongoDataProjection (projection : jsval) : checked (option (list (string * Z))) :=
  match projection with
  | JUndef | JNull => Ok None
  | JObj ((_ :: _) as entries) =>
      kvs ← traverse_checked (fun kv : string * jsval =>
              match include_flag kv.2 with
              | None => Err (mongoError "mongo_data_invalid_projection" 400 ("projection for " +:+ kv.1 +:+ " must be 0/1 or true/false."))
              | Some flag => key ← normalizeFieldPath (JStr kv.1) ("projection." +:+ kv.1); Ok (key, flag)
              end) entries;
      Ok (Some (foldl (fun acc kv => assoc_set kv.1 kv.2 acc) [] kvs))
  | _ => Err (mongoError "mongo_data_invalid_projection" 400 "projection must be a non-empty object when provided.")
  end.

Definition DIRECTION_MAP (direction : jsval) : option Z :=
  match direction with
  | JStr s => assoc_lookup s [("asc", 1); ("desc", -1)]
  | JNum (NInt 1) => Some 1
  | JNum (NInt (-1)) => Some (-1)
  | _ => None
  end.

Notation sort_spec := (list (string * Z)) (only parsing).

(** The identifier breaks ties. *)
Definition with_id (sort : sort_spec) : sort_spec := match assoc_lookup "_id" sort with Some _ => sort | None => sort ++ [("_id", 1)] end.

Definition normalizeMongoDataSort (sort : jsval) : checked sort_spec :=
  match sort with
  | JUndef | JNull => Ok [("_id", 1)]
  | JObj ((_ :: _) as entries) =>
      kvs ← traverse_checked (fun kv : string * jsval =>
              match DIRECTION_MAP kv.2 with
              | None => Err (mongoError "mongo_data_invalid_sort" 400 ("sort direction for " +:+ kv.1 +:+ " must be asc/desc/1/-1."))
              | Some direction => key ← normalizeFieldPath (JStr kv.1) ("sort." +:+ kv.1); Ok (key, direction)
              end) entries;
      Ok (with_id (foldl (fun acc kv => assoc_set kv.1 kv.2 acc) [] kvs))
  | _ => Err (mongoError "mongo_data_invalid_sort" 400 "sort must be a non-empty object when provided.")
  end.

(** ** Pages *)

Definition MONGO_DATA_DEFAULT_PAGE_SIZE : Z := 25.
Definition MONGO_DATA_MAX_PAGE_SIZE : Z := 100.

Definition normalizePageSize (v : jsval) : checked Z :=
  if nullish v then Ok MONGO_DATA_DEFAULT_PAGE_SIZE
  else
    let refused := mongoError "mongo_data_invalid_page" 400 "page.size must be an integer between 1 and 100." in
    match js_number v with
    | NInt n => if (n <=? 0) || (MONGO_DATA_MAX_PAGE_SIZE <? n) then Err refused else Ok n
    | _ => Err refused
    end.

(** What [JSON.parse] says of a text it cannot read. *)
Class SyntaxText := { syntax_error : string -> string }.

Section pages.
Context `{NT : !NumberText, ST : !SyntaxText}.

(** [Buffer.byteLength(JSON.stringify(value ?? null))] *)
Definition estimateMongoPayloadBytes (v : jsval) : Z := byte_length (json_text v).

Definition encodeMongoDataCursor (cursor : jsval) : string := canonicalBase64Url (utf8_bytes (json_text cursor)).

(** [undefined] is no cursor. *)
Definition parseMongoDataCursor (v : jsval) : checked (option jsval) :=
  let refused cause := mk_mongo_error (Some "mongo_data_invalid_page") (Some 400) "page.after must be a valid Mongo Data API cursor." [] [("cause", JStr cause)] in
  if nullish v || jsval_eqb v (JStr "") then Ok None
  else
    let text := of_chars (utf8_chars (b64_decode (base64url_chars (js_to_string v)))) in
    match json_parse text with
    | None => Err (refused (syntax_error text))
    | Some parsed => if isPlainObject (js_get parsed "values") then Ok (Some parsed) else Err (refused "invalid cursor payload")
    end.

End pages.

(** The equalities on the earlier fields, then the comparison on this one. *)
Definition cursor_branch (values : jsval) (equal : sort_spec) (field : string) (direction : Z) : jsval :=
  JObj (assoc_set field (JObj [(if direction =? -1 then "$lt" else "$gt", js_get values field)])
          (foldl (fun branch (e : string * Z) => assoc_set e.1 (js_get values e.1) branch) [] equal)).

Fixpoint cursor_branches (values : jsval) (equal sort : sort_spec) : list jsval :=
  match sort with
  | [] => []
  | (field, direction) :: rest => cursor_branch values equal field direction :: cursor_branches values (equal ++ [(field, direction)]) rest
  end.

Definition buildMongoCursorPredicate (sort : sort_spec) (cursor : option jsval) : option jsval :=
  match cursor with
  | None => None
  | Some c => match cursor_branches (js_get c "values") [] sort with
                   | [branch] => Some branch
                   | branches => Some (JObj [("$or", JArr branches)])
                   end
  end.

(** ** The scope of a request *)

Definition no_filter_of (v : jsval) : bool := negb (truthy v) || match v with JObj [] => true | _ => false end.

Definition mergeFilters (left right : jsval) : jsval :=
  if no_filter_of left then right else if no_filter_of right then left else JObj [("$and", JArr [left; right])].

(** What a filter says of a field, wherever it says it. *)
Fixpoint collectTenantPredicates (node : jsval) (tenantFieldPath : string) : list jsval :=
  match node with
  | JObj kvs =>
      List.flat_map (fun kv =>
        if String.eqb kv.1 tenantFieldPath then [kv.2]
        else if str_in kv.1 ["$and"; "$or"] then match kv.2 with JArr xs => List.flat_map (fun x => collectTenantPredicates x tenantFieldPath) xs | _ => [] end
        else collectTenantPredicates kv.2 tenantFieldPath) kvs
  | _ => []
  end.

Definition validateTenantPredicate (predicate : jsval) (tenantId tenantFieldPath : string) : checked unit :=
  let names := match predicate with
               | JStr s => String.eqb s tenantId
               | JObj _ => jsval_eqb (js_get predicate "$eq") (JStr tenantId)
                           || match js_get predicate "$in" with JArr xs => existsb (fun x => jsval_eqb x (JStr tenantId)) xs | _ => false end
               | _ => false
               end in
  if names then Ok tt else Err (mongoError "mongo_data_tenant_scope_violation" 403 ("Tenant-scoped operations cannot override " +:+ tenantFieldPath +:+ ".")).

Record workspace_scope := mk_workspace_scope { wo_path : string; wo_value : string; wo_injected : bool }.

(** [tenantScope]; [ts_fields] are the fields every consumer goes through. *)
Record tenant_scope := mk_tenant_scope {
  ts_path : string;
  ts_value : string;
  ts_injected : bool;
  ts_workspace : option workspace_scope;
  ts_fields : list (string * string)
}.

(** [{}] with every field of the scope written into it. *)
Definition scope_object (fields : list (string * string)) : checked js_object :=
  foldl (fun acc f => target ← acc; setPathValue target f.1 (JStr f.2)) (Ok []) fields.

Definition path_or (v : jsval) (path : string) : jsval := match v with JUndef => JStr path | _ => v end.

Definition applyTenantScopeToFilter (filter tenantId tenantFieldPath workspaceId workspaceFieldPath : jsval) : checked (tenant_scope * jsval) :=
  tenant ← normalizeNonEmptyString tenantId "tenantId";
  path ← normalizeFieldPath (path_or tenantFieldPath "tenantId") "tenantFieldPath";
  workspace ← (if nullish workspaceId then Ok None
               else
                 w ← normalizeNonEmptyString workspaceId "workspaceId";
                 p ← normalizeFieldPath (path_or workspaceFieldPath "workspaceId") "workspaceFieldPath";
                 Ok (Some (p, w)));
  normalizedFilter ← normalizeMongoDataFilter filter;
  let tenantPredicates := collectTenantPredicates normalizedFilter path in
  _ ← traverse_checked (fun p => validateTenantPredicate p tenant path) tenantPredicates;
  scope ← (match workspace with
           | None => Ok None
           | Some (p, w) =>
               let predicates := collectTenantPredicates normalizedFilter p in
               _ ← traverse_checked (fun x => validateTenantPredicate x w p) predicates;
               Ok (Some (mk_workspace_scope p w (bool_decide (predicates = []))))
           end);
  let fields := (path, tenant) :: match scope with Some w => [(wo_path w, wo_value w)] | None => [] end in
  scopeFilter ← scope_object fields;
  Ok (mk_tenant_scope path tenant (bool_decide (tenantPredicates = [])) scope fields, mergeFilters (JObj scopeFilter) normalizedFilter).

Definition rescopeFilter (filter : jsval) (tenantScope : tenant_scope) : checked jsval :=
  scoped ← applyTenantScopeToFilter filter (JStr (ts_value tenantScope)) (JStr (ts_path tenantScope))
             (match ts_workspace tenantScope with Some w => JStr (wo_value w) | None => JUndef end)
             (match ts_workspace tenantScope with Some w => JStr (wo_path w) | None => JUndef end);
  Ok scoped.2.

Definition buildTenantMatchFilter (tenantScope : tenant_scope) : checked jsval :=
  kvs ← scope_object (ts_fields tenantScope); Ok (JObj kvs).
