(* ===== verification/MongoWrite.v ===== *)
(** * Documents and updates of the MongoDB data API

    Stamping the scope on a document, update operators and their effect, the
    rules of a collection, and duplicates within a request
    (src/packages/adapters/src/mongodb-data-api.mjs). *)
From S2P Require Import Prelude JsValue Json Regex PgTable MongoFilter.
From Stdlib Require Import Ascii.
Local Open Scope Z_scope.

(** ** Documents *)

Definition normalizeWriteDocument (v : jsval) (fieldName : string) : checked js_object :=
  match v with
  | JObj _ => match cloneJson v with JObj kvs => Ok kvs | _ => Err type_error end
  | _ => Err (mongoError "mongo_data_invalid_document" 400 (fieldName +:+ " must be an object."))
  end.

Definition stamp_field (document : js_object) (field : string * string) : checked js_object :=
  current ← getPathValue (JObj document) field.1;
  if negb (is_undef current) && negb (jsval_eqb current (JStr field.2))
  then Err (mongoError "mongo_data_tenant_scope_violation" 403 ("Document payload cannot override " +:+ field.1 +:+ "."))
  else setPathValue document field.1 (JStr field.2).

Definition stamp_fields (document : js_object) (fields : list (string * string)) : checked js_object :=
  foldl (fun acc field => d ← acc; stamp_field d field) (Ok document) fields.

Definition injectTenantIntoDocument (document : js_object) (tenantScope : tenant_scope) : checked js_object :=
  stamp_fields document (ts_fields tenantScope).

(** ** Updates *)

Definition ALLOWED_UPDATE_OPERATORS : list string := ["$set"; "$unset"; "$inc"; "$push"; "$pull"].

Definition invalid_update (message : string) : mongo_error := mongoError "mongo_data_invalid_update" 400 message.

Notation update_document := (list (string * js_object)) (only parsing).

Definition update_operations (operator : string) (v : jsval) : checked js_object :=
  match v with
  | JObj ((_ :: _) as operations) =>
      kvs ← traverse_checked (fun kv : string * jsval =>
              path ← normalizeFieldPath (JStr kv.1) (operator +:+ "." +:+ kv.1); Ok (path, cloneJson kv.2)) operations;
      Ok (from_entries kvs)
  | _ => Err (invalid_update (operator +:+ " must be a non-empty object."))
  end.

Definition normalizeMongoDataUpdateDocument (update : jsval) : checked update_document :=
  match or_empty update with
  | JObj ((_ :: _) as entries) =>
      if negb (forallb (fun kv : string * jsval => is_operator kv.1) entries) then Err (invalid_update "Partial updates must use MongoDB update operators.")
      else
        kvs ← traverse_checked (fun kv : string * jsval =>
                if negb (str_in kv.1 ALLOWED_UPDATE_OPERATORS) then Err (invalid_update ("Unsupported update operator " +:+ kv.1 +:+ "."))
                else operations ← update_operations kv.1 kv.2; Ok (kv.1, operations)) entries;
        Ok (foldl (fun acc kv => assoc_set kv.1 kv.2 acc) [] kvs)
  | _ => Err (invalid_update "update must be a non-empty object.")
  end.

Definition update_value (update : update_document) : jsval := JObj ((fun e : string * js_object => (e.1, JObj e.2)) <$> update).

Section updates.
Context `{NT : !NumberText}.

Definition equal_texts (a b : jsval) : bool := String.eqb (json_text a) (json_text b).

Definition apply_operation (operator : string) (target : js_object) (operation : string * jsval) : checked js_object :=
  let '(fieldPath, operand) := operation in
  if String.eqb operator "$set" then setPathValue target fieldPath (cloneJson operand)
  else if String.eqb operator "$unset" then unsetPathValue target fieldPath
  else
    current ← getPathValue (JObj target) fieldPath;
    if String.eqb operator "$inc" then
      match coalesce current (jint 0), operand with
      | JNum a, JNum b => setPathValue target fieldPath (JNum (num_add a b))
      | _, _ => Err (invalid_update ("$inc on " +:+ fieldPath +:+ " requires numeric operands."))
      end
    else
      let items := match current with JArr xs => xs | _ => [] end in
      if String.eqb operator "$push" then
        setPathValue target fieldPath (JArr (items ++ match js_get operand "$each" with
                                                      | JArr xs => match cloneJson (JArr xs) with JArr ys => ys | _ => [] end
                                                      | _ => [cloneJson operand]
                                                      end))
      else if String.eqb operator "$pull" then
        match current with
        | JArr xs => setPathValue target fieldPath (JArr (List.filter (fun entry => negb (equal_texts entry operand)) xs))
        | _ => Ok target
        end
      else Err (invalid_update ("Unsupported update operator " +:+ operator +:+ ".")).

Definition apply_operations (target : js_object) (operations : string * js_object) : checked js_object :=
  foldl (fun acc operation => t ← acc; apply_operation operations.1 t operation) (Ok target) operations.2.

Definition apply_update (target : js_object) (update : update_document) : checked js_object :=
  foldl (fun acc operations => t ← acc; apply_operations t operations) (Ok target) update.

(** A value without members cannot be written to; a list is outside the model. *)
Definition applyMongoDataUpdateDocument (baseDocument update : jsval) : checked js_object :=
  normalizedUpdate ← normalizeMongoDataUpdateDocument update;
  match cloneJson (coalesce baseDocument (JObj [])) with
  | JObj target => apply_update target normalizedUpdate
  | _ => Err type_error
  end.

(** ** The rules of a collection *)

Inductive bson_types := OneType (type : string) | AnyType (types : list string).

(** A node of a [$jsonSchema]. *)
Inductive schema := mk_schema
  (sc_bson : option bson_types) (sc_enum : option (list jsval))
  (sc_minimum sc_maximum sc_minLength sc_maxLength : option jsnum)
  (sc_items : option schema) (sc_required : list string) (sc_properties : list (string * schema)).

Definition inferBsonType (v : jsval) : string :=
  match v with
  | JNull => "null" | JArr _ => "array" | JStr _ => "string" | JNum n => if num_is_integer n then "int" else "double"
  | JBool _ => "bool" | JObj _ => "object" | JUndef => "undefined"
  end.

Definition accepted_types (b : bson_types) : list string := match b with OneType t => [t] | AnyType ts => ts end.

Definition matchesBsonType (v : jsval) (b : bson_types) : bool :=
  existsb (fun entry => if String.eqb entry "number" then str_in (inferBsonType v) ["int"; "double"] else String.eqb entry (inferBsonType v)) (accepted_types b).

Definition types_text (b : bson_types) : string := json_text (match b with OneType t => JStr t | AnyType ts => JArr (JStr <$> ts) end).

Definition enum_violations (enum : option (list jsval)) (v : jsval) (path : string) : list string :=
  match enum with
  | Some values => if existsb (fun entry => equal_texts entry v) values then [] else [path +:+ " must match one of the declared enum values."]
  | None => []
  end.

Definition bound_violation (bound : option jsnum) (broken : jsnum -> bool) (text : string) : list string :=
  match bound with Some b => if broken b then [text +:+ json_number b +:+ "."] else [] | None => [] end.

Definition scalar_violations (minimum maximum minLength maxLength : option jsnum) (v : jsval) (path : string) : list string :=
  match v with
  | JNum n => bound_violation minimum (fun b => num_ltb n b) (path +:+ " must be >= ")
              ++ bound_violation maximum (fun b => num_ltb b n) (path +:+ " must be <= ")
  | JStr s => let l := NInt (Z.of_nat (String.length s)) in
              bound_violation minLength (fun b => num_ltb l b) (path +:+ " must have length >= ")
              ++ bound_violation maxLength (fun b => num_ltb b l) (path +:+ " must have length <= ")
  | _ => []
  end.

Fixpoint validateSchemaNode (node : schema) (v : jsval) (path : string) (partial : bool) : list string :=
  match node with
  | mk_schema bson enum minimum maximum minLength maxLength items required properties =>
      match bson with
      | Some b => if matchesBsonType v b then [] else [path +:+ " must match bsonType " +:+ types_text b +:+ "."]
      | None => []
      end
      ++ (if match bson with Some b => matchesBsonType v b | None => true end then
            enum_violations enum v path ++ scalar_violations minimum maximum minLength maxLength v path
            ++ match v, items with
               | JArr xs, Some node' => concat (imap (fun index entry => validateSchemaNode node' entry (path +:+ "[" +:+ show_Z (Z.of_nat index) +:+ "]") false) xs)
               | _, _ => []
               end
            ++ match v with
               | JObj _ =>
                   List.flat_map (fun field => if is_undef (js_get v field) then [path +:+ "." +:+ field +:+ " is required."] else []) (if partial then [] else required)
                   ++ List.flat_map (fun p : string * schema =>
                        if is_undef (js_get v p.1) then [] else validateSchemaNode p.2 (js_get v p.1) (path +:+ "." +:+ p.1) false) properties
               | _ => []
               end
          else [])
  end.

Definition validateMongoDocumentAgainstCollectionRules (document : jsval) (rules : option schema) (partial : bool) : list string :=
  match rules with None => [] | Some node => validateSchemaNode node document "$" partial end.

(** [validateCandidateDocument]; without a document nothing is checked. *)
Definition validateCandidateDocument (rules : option schema) (candidate : option js_object) (partial : bool) : checked bool :=
  match candidate with
  | None => Ok false
  | Some document =>
      match validateMongoDocumentAgainstCollectionRules (JObj document) rules partial with
      | [] => Ok (bool_decide (is_Some rules))
      | violations => Err (mk_mongo_error (Some "mongo_data_validation_failed") (Some 422) "Document payload violates collection validation rules."
                             violations [("collectionValidation", JBool true)])
      end
  end.

(** ** Duplicates within a request *)

(** [keys] is [None] when the index does not say. *)
Record mongo_index := mk_index { ix_name : option string; ix_keys : option (list string); ix_unique : bool }.

Record index_conflict := mk_conflict { cf_index : string; cf_first : nat; cf_second : nat; cf_keys : list string }.

Definition index_name (i : mongo_index) : string := default "unnamed" (ix_name i).

Definition buildUniqueIndexSignature (i : mongo_index) (document : js_object) : checked (option string) :=
  match ix_keys i with
  | Some keys =>
      if ix_unique i then
        values ← traverse_checked (getPathValue (JObj document)) keys;
        if existsb is_undef values then Ok None else Ok (Some (index_name i +:+ ":" +:+ json_text (JArr values)))
      else Ok None
  | None => Ok None
  end.

Notation seen_signatures := (list (string * nat)) (only parsing).

Definition detect_one (documentIndex : nat) (document : js_object) (acc : checked (seen_signatures * list index_conflict)) (i : mongo_index)
    : checked (seen_signatures * list index_conflict) :=
  state ← acc;
  signature ← buildUniqueIndexSignature i document;
  let '(seen, conflicts) := (state : seen_signatures * list index_conflict) in
  match signature with
  | None => Ok (seen, conflicts)
  | Some sig =>
      match assoc_lookup sig seen with
      | Some first => Ok (seen, conflicts ++ [mk_conflict (index_name i) first documentIndex (default [] (ix_keys i))])
      | None => Ok (assoc_set sig documentIndex seen, conflicts)
      end
  end.

Fixpoint detect_from (documentIndex : nat) (documents : list js_object) (indexes : list mongo_index) (acc : checked (seen_signatures * list index_conflict))
    : checked (seen_signatures * list index_conflict) :=
  match documents with
  | [] => acc
  | document :: rest => detect_from (S documentIndex) rest indexes (foldl (detect_one documentIndex document) acc indexes)
  end.

Definition detectMongoRequestUniqueIndexConflicts (documents : list js_object) (indexes : list mongo_index) : checked (list index_conflict) :=
  state ← detect_from 0 documents indexes (Ok ([], [])); Ok (state.2 : list index_conflict).

End updates.
