(* ===== verification/MongoPipeline.v ===== *)
(** * Capabilities, limits and pipelines of the MongoDB data API

    What a deployment can do, how much a request may ask for, what the plan of a
    workspace allows, and the stages of a pipeline (src/packages/adapters/src/mongodb-data-api.mjs). *)
From S2P Require Import Prelude JsValue Json Regex PgTable MongoFilter.
Local Open Scope Z_scope.

Definition SUPPORTED_TOPOLOGIES : list string := ["replica_set"; "sharded_cluster"].

Definition MONGO_DATA_API_OPERATIONS : list string :=
  ["list"; "get"; "insert"; "update"; "replace"; "delete"; "bulk_write"; "aggregate"; "import"; "export"; "transaction"; "change_stream"].

Definition MONGO_DATA_API_CAPABILITIES : list (string * string) :=
  [("list", "mongo_data_query"); ("get", "mongo_data_query"); ("insert", "mongo_data_insert"); ("update", "mongo_data_update");
   ("replace", "mongo_data_replace"); ("delete", "mongo_data_delete"); ("bulk_write", "mongo_data_bulk_write"); ("aggregate", "mongo_data_aggregate");
   ("import", "mongo_data_import"); ("export", "mongo_data_export"); ("transaction", "mongo_data_transaction"); ("change_stream", "mongo_data_change_stream")].

(** ** What a deployment can do *)

Record topology_profile := mk_topology { tp_cluster : option string; tp_transactions : option bool; tp_change_streams : option bool }.

Definition optional_flag (v : jsval) : option bool := if is_undef v then None else Some (truthy v).

Definition optional_name (v : jsval) (fieldName : string) : checked (option string) :=
  if truthy v then s ← normalizeNonEmptyString v fieldName; Ok (Some s) else Ok None.

(** Nothing is known of a falsy profile or of one without members. *)
Definition no_profile (v : jsval) : bool := negb (truthy v) || match v with JObj [] | JArr [] => true | JObj _ | JArr _ | JStr _ => false | _ => true end.

Definition normalizeTopologyProfile (topology : jsval) : checked topology_profile :=
  if no_profile topology then Ok (mk_topology None None None)
  else
    cluster ← optional_name (coalesce (js_get topology "clusterTopology") (js_get topology "topology")) "clusterTopology";
    Ok (mk_topology cluster (optional_flag (js_get topology "supportsTransactions")) (optional_flag (js_get topology "supportsChangeStreams"))).

Record bridge_profile := mk_bridge { br_provider : option string; br_available : option bool; br_transport : option string; br_reason : option string }.

Definition normalizeBridgeProfile (bridge : jsval) : checked bridge_profile :=
  if no_profile bridge then Ok (mk_bridge None None None None)
  else
    provider ← optional_name (js_get bridge "provider") "bridge.provider";
    transport ← optional_name (js_get bridge "transport") "bridge.transport";
    reason ← optional_name (js_get bridge "reason") "bridge.reason";
    Ok (mk_bridge (Some (default "event_gateway" provider)) (optional_flag (js_get bridge "available")) transport reason).

Record bridge_status := mk_bridge_status { bs_provider : string; bs_available : bool; bs_status : string; bs_transport : string; bs_reason : option string }.

Record compatibility := mk_compatibility {
  cp_feature : string;
  cp_capability : option string;
  cp_supported : bool;
  cp_status : string;
  cp_required : list string;
  cp_cluster : option string;
  cp_reason : option string;
  cp_bridge : option bridge_status
}.

Definition set_bridge_status (status : string) (b : bridge_status) : bridge_status :=
  mk_bridge_status (bs_provider b) (bs_available b) status (bs_transport b) (bs_reason b).

Definition unsupported (status reason : string) (bridge : option bridge_status) (c : compatibility) : compatibility :=
  mk_compatibility (cp_feature c) (cp_capability c) false status (cp_required c) (cp_cluster c) (Some reason) bridge.

Definition compatibility_of (operation : string) (tp : topology_profile) (br : bridge_profile) : compatibility :=
  let requiresTopology := str_in operation ["transaction"; "change_stream"] in
  let is_stream := String.eqb operation "change_stream" in
  let available := bool_decide (br_available br = Some true) in
  let bridge := if is_stream
    then Some (mk_bridge_status (default "event_gateway" (br_provider br)) (default false (br_available br)) (if available then "ready" else "unavailable")
                 (default "event_gateway" (br_transport br)) (br_reason br))
    else None in
  let c := mk_compatibility operation (assoc_lookup operation MONGO_DATA_API_CAPABILITIES) true "available"
             (if requiresTopology then SUPPORTED_TOPOLOGIES else []) (tp_cluster tp) None bridge in
  if requiresTopology && bool_decide (tp_cluster tp = None) then
    unsupported "topology_unknown" "Cluster topology must be known before evaluating this MongoDB Data API capability." bridge c
  else if requiresTopology && negb (str_in (default "" (tp_cluster tp)) SUPPORTED_TOPOLOGIES) then
    unsupported "topology_unsupported" ("This capability requires one of: " +:+ JsValue.join ", " SUPPORTED_TOPOLOGIES +:+ ".") bridge c
  else if String.eqb operation "transaction" && bool_decide (tp_transactions tp = Some false) then
    unsupported "topology_unsupported" "Transactions are disabled for the current MongoDB deployment profile." bridge c
  else if is_stream && bool_decide (tp_change_streams tp = Some false) then
    unsupported "topology_unsupported" "Change streams are disabled for the current MongoDB deployment profile." (set_bridge_status "blocked" <$> bridge) c
  else if is_stream && negb available then
    unsupported "bridge_unavailable" (default "Change streams require the realtime/event gateway bridge to be available." (br_reason br))
      (set_bridge_status "unavailable" <$> bridge) c
  else c.

Definition resolveMongoDataCapabilityCompatibility (operation : string) (topology bridge : jsval) : checked compatibility :=
  tp ← normalizeTopologyProfile topology;
  br ← normalizeBridgeProfile bridge;
  Ok (compatibility_of operation tp br).

Definition text_or_undef (o : option string) : jsval := match o with Some s => JStr s | None => JUndef end.

Definition bridge_value (b : bridge_status) : jsval :=
  JObj [("provider", JStr (bs_provider b)); ("required", JBool true); ("available", JBool (bs_available b)); ("status", JStr (bs_status b));
        ("transport", JStr (bs_transport b)); ("reason", text_or_undef (bs_reason b))].

Definition compatibility_value (c : compatibility) : jsval :=
  JObj [("feature", JStr (cp_feature c)); ("capability", text_or_undef (cp_capability c)); ("supported", JBool (cp_supported c));
        ("status", JStr (cp_status c)); ("requiredTopologies", JArr (JStr <$> cp_required c)); ("clusterTopology", text_or_undef (cp_cluster c));
        ("reason", text_or_undef (cp_reason c)); ("bridge", match cp_bridge c with Some b => bridge_value b | None => JUndef end)].

Definition assertCapabilityCompatibility (c : compatibility) : checked unit :=
  if cp_supported c then Ok tt
  else Err (mk_mongo_error (Some "mongo_data_capability_unavailable") (Some (if String.eqb (cp_status c) "bridge_unavailable" then 503 else 409))
              (default "MongoDB capability is not available for the current deployment." (cp_reason c)) [] [("compatibility", compatibility_value c)]).

(** ** Limits *)

Record aggregation_limits := mk_aggregation_limits {
  al_maxStages : Z;
  al_maxPayloadBytes : Z;
  al_maxTimeMs : Z;
  al_maxResultWindow : Z;
  al_maxSkip : Z;
  al_maxLookupStages : Z;
  al_maxFacetBranches : Z;
  al_maxSortKeys : Z;
  al_allowDiskUse : jsval
}.

Definition MONGO_DATA_DEFAULT_AGGREGATION_LIMITS : aggregation_limits := mk_aggregation_limits 12 65536 30000 1000 10000 1 4 6 (JBool false).

(** [limits[name] ?? ceiling], at most the ceiling. *)
Definition capped (minimum : Z) (limits : jsval) (scope name : string) (ceiling : Z) : checked Z :=
  integer_within (coalesce (js_get limits name) (jint ceiling)) (scope +:+ "." +:+ name) minimum (Some ceiling).

Definition normalizeAggregationLimits (limits : jsval) (ceilings : aggregation_limits) : checked aggregation_limits :=
  l ← (match or_empty limits with JNull => Err type_error | v => Ok v end);
  maxStages ← capped 1 l "aggregation" "maxStages" (al_maxStages ceilings);
  maxPayloadBytes ← capped 1 l "aggregation" "maxPayloadBytes" (al_maxPayloadBytes ceilings);
  maxTimeMs ← capped 1 l "aggregation" "maxTimeMs" (al_maxTimeMs ceilings);
  maxResultWindow ← capped 1 l "aggregation" "maxResultWindow" (al_maxResultWindow ceilings);
  maxSkip ← capped 0 l "aggregation" "maxSkip" (al_maxSkip ceilings);
  maxLookupStages ← capped 0 l "aggregation" "maxLookupStages" (al_maxLookupStages ceilings);
  maxFacetBranches ← capped 1 l "aggregation" "maxFacetBranches" (al_maxFacetBranches ceilings);
  maxSortKeys ← capped 1 l "aggregation" "maxSortKeys" (al_maxSortKeys ceilings);
  Ok (mk_aggregation_limits maxStages maxPayloadBytes maxTimeMs maxResultWindow maxSkip maxLookupStages maxFacetBranches maxSortKeys
        (coalesce (js_get l "allowDiskUse") (coalesce (al_allowDiskUse ceilings) (JBool false)))).

Record transaction_limits := mk_transaction_limits {
  tl_maxOperations : Z;
  tl_maxPayloadBytes : Z;
  tl_maxCommitTimeMs : Z;
  tl_readConcern : string;
  tl_writeConcern : string;
  tl_allowedReadConcerns : list string;
  tl_allowedWriteConcerns : list string
}.

Definition MONGO_DATA_DEFAULT_TRANSACTION_LIMITS : transaction_limits :=
  mk_transaction_limits 25 262144 10000 "snapshot" "majority" ["local"; "majority"; "snapshot"] ["majority"; "journaled"; "w1"].

Definition normalizeTransactionLimits (limits : jsval) (ceilings : transaction_limits) : checked transaction_limits :=
  l ← (match or_empty limits with JNull => Err type_error | v => Ok v end);
  maxOperations ← capped 1 l "transaction" "maxOperations" (tl_maxOperations ceilings);
  maxPayloadBytes ← capped 1 l "transaction" "maxPayloadBytes" (tl_maxPayloadBytes ceilings);
  maxCommitTimeMs ← capped 1 l "transaction" "maxCommitTimeMs" (tl_maxCommitTimeMs ceilings);
  readConcern ← normalizeEnumValue (coalesce (js_get l "readConcern") (JStr (tl_readConcern ceilings))) (tl_allowedReadConcerns ceilings) "transaction.readConcern";
  writeConcern ← normalizeEnumValue (coalesce (js_get l "writeConcern") (JStr (tl_writeConcern ceilings))) (tl_allowedWriteConcerns ceilings) "transaction.writeConcern";
  Ok (mk_transaction_limits maxOperations maxPayloadBytes maxCommitTimeMs readConcern writeConcern
        (tl_allowedReadConcerns ceilings) (tl_allowedWriteConcerns ceilings)).

Record bulk_limits := mk_bulk_limits { bl_maxOperations : Z; bl_maxPayloadBytes : Z; bl_ordered : jsval }.

Definition MONGO_DATA_DEFAULT_BULK_LIMITS : jsval := JObj [("maxOperations", jint 100); ("maxPayloadBytes", jint 262144); ("ordered", JBool true)].

Definition positive_limit (v : jsval) (name : string) : checked Z :=
  let refused := mongoError "mongo_data_invalid_bulk_limits" 400 ("bulk " +:+ name +:+ " must be a positive integer.") in
  match js_number v with NInt n => if n <=? 0 then Err refused else Ok n | _ => Err refused end.

Definition normalizeBulkLimits (limits ceilings : jsval) : checked bulk_limits :=
  let d := match ceilings with JUndef => MONGO_DATA_DEFAULT_BULK_LIMITS | _ => ceilings end in
  let l := or_empty limits in
  if nullish l || nullish d then Err type_error
  else
    maxOperations ← positive_limit (coalesce (js_get l "maxOperations") (js_get d "maxOperations")) "maxOperations";
    maxPayloadBytes ← positive_limit (coalesce (js_get l "maxPayloadBytes") (js_get d "maxPayloadBytes")) "maxPayloadBytes";
    Ok (mk_bulk_limits maxOperations maxPayloadBytes (coalesce (js_get l "ordered") (coalesce (js_get d "ordered") (JBool true)))).

Record transfer_limits := mk_transfer_limits {
  fl_maxDocuments : Z;
  fl_maxPayloadBytes : Z;
  fl_maxExportDocuments : Z;
  fl_exportConsistency : string;
  fl_ordered : jsval
}.

Definition EXPORT_CONSISTENCIES : list string := ["snapshot"; "majority"; "best_effort"].

Definition MONGO_DATA_DEFAULT_TRANSFER_LIMITS : jsval :=
  JObj [("maxDocuments", jint 500); ("maxPayloadBytes", jint 524288); ("maxExportDocuments", jint 1000); ("exportConsistency", JStr "snapshot"); ("ordered", JBool true)].

Definition normalizeTransferLimits (limits ceilings : jsval) : checked transfer_limits :=
  let d := match ceilings with JUndef => MONGO_DATA_DEFAULT_TRANSFER_LIMITS | _ => ceilings end in
  let l := or_empty limits in
  if nullish l || nullish d then Err type_error
  else
    let given name := coalesce (js_get l name) (js_get d name) in
    maxDocuments ← normalizePositiveInteger (given "maxDocuments") "transfer.maxDocuments" None;
    maxPayloadBytes ← normalizePositiveInteger (given "maxPayloadBytes") "transfer.maxPayloadBytes" None;
    maxExportDocuments ← normalizePositiveInteger (given "maxExportDocuments") "transfer.maxExportDocuments" None;
    exportConsistency ← normalizeEnumValue (given "exportConsistency") EXPORT_CONSISTENCIES "transfer.exportConsistency";
    Ok (mk_transfer_limits maxDocuments maxPayloadBytes maxExportDocuments exportConsistency (coalesce (given "ordered") (JBool true))).

(** ** The plan of a workspace *)

Record plan_policy := mk_plan_policy {
  pp_planId : string;
  pp_aggregation_enabled : bool;
  pp_aggregation : aggregation_limits;
  pp_transaction_enabled : bool;
  pp_transaction : transaction_limits
}.

Definition object_or_empty (v : jsval) : jsval := if isPlainObject v then v else JObj [].
Definition not_false (v : jsval) : bool := negb (jsval_eqb v (JBool false)).

Definition normalizeMongoDataPlanPolicy (policy : jsval) : checked plan_policy :=
  p ← (match or_empty policy with JNull => Err type_error | v => Ok v end);
  let planId := match js_get p "planId" with JStr s => if nonempty (trim s) then trim s else "default" | _ => "default" end in
  let aggregationInput := object_or_empty (js_get p "aggregation") in
  let transactionInput := object_or_empty (js_get p "transaction") in
  aggregation ← normalizeAggregationLimits aggregationInput MONGO_DATA_DEFAULT_AGGREGATION_LIMITS;
  transaction ← normalizeTransactionLimits transactionInput MONGO_DATA_DEFAULT_TRANSACTION_LIMITS;
  Ok (mk_plan_policy planId (not_false (js_get aggregationInput "enabled")) aggregation (not_false (js_get transactionInput "enabled")) transaction).

Definition is_true_value (v : jsval) : bool := jsval_eqb v (JBool true).

(** The collection's limits, no more than the plan's. *)
Definition applyAggregationPlanPolicy (defaults : jsval) (policy : aggregation_limits) : checked aggregation_limits :=
  base ← normalizeAggregationLimits defaults MONGO_DATA_DEFAULT_AGGREGATION_LIMITS;
  Ok (mk_aggregation_limits
        (Z.min (al_maxStages base) (al_maxStages policy)) (Z.min (al_maxPayloadBytes base) (al_maxPayloadBytes policy))
        (Z.min (al_maxTimeMs base) (al_maxTimeMs policy)) (Z.min (al_maxResultWindow base) (al_maxResultWindow policy))
        (Z.min (al_maxSkip base) (al_maxSkip policy)) (Z.min (al_maxLookupStages base) (al_maxLookupStages policy))
        (Z.min (al_maxFacetBranches base) (al_maxFacetBranches policy)) (Z.min (al_maxSortKeys base) (al_maxSortKeys policy))
        (JBool (is_true_value (al_allowDiskUse base) && is_true_value (al_allowDiskUse policy)))).

Definition applyTransactionPlanPolicy (policy : transaction_limits) : checked transaction_limits :=
  base ← normalizeTransactionLimits (JObj []) MONGO_DATA_DEFAULT_TRANSACTION_LIMITS;
  Ok (mk_transaction_limits
        (Z.min (tl_maxOperations base) (tl_maxOperations policy)) (Z.min (tl_maxPayloadBytes base) (tl_maxPayloadBytes policy))
        (Z.min (tl_maxCommitTimeMs base) (tl_maxCommitTimeMs policy)) (tl_readConcern policy) (tl_writeConcern policy)
        (tl_allowedReadConcerns policy) (tl_allowedWriteConcerns policy)).

Definition POLICY_META (operation : string) : list (string * jsval) :=
  [("category", JStr "policy"); ("reason", JStr "plan_policy_violation"); ("retryable", JBool false); ("safeToExpose", JBool true);
   ("correctiveAction", JStr "Upgrade the workspace plan or use a lower-cost MongoDB operation.");
   ("correctiveActions", JArr [JStr "Use CRUD or export routes for simpler access patterns.";
                               JStr "Upgrade the workspace plan to enable this advanced MongoDB capability."]);
   ("resource", JObj [("operation", JStr operation)])].

Definition assertMongoPlanPolicyEnabled (enabled : bool) (operation planId : string) : checked unit :=
  if enabled then Ok tt
  else Err (mk_mongo_error (Some "mongo_data_plan_policy_violation") (Some 403) (operation +:+ " is not enabled for the " +:+ planId +:+ " plan.") [] (POLICY_META operation)).

(** ** Lemmas *)

Lemma integer_within_ok v name minimum maximum n : integer_within v name minimum (Some maximum) = Ok n -> minimum <= n <= maximum.
Proof.
  unfold integer_within. destruct (js_number v); try done. destruct (Z.ltb_spec z minimum); [done|].
  destruct (Z.ltb_spec maximum z); [done|]. cbn. intros [= <-]. lia.
Qed.

Lemma capped_ok minimum l scope name ceiling n : capped minimum l scope name ceiling = Ok n -> minimum <= n <= ceiling.
Proof. apply integer_within_ok. Qed.

(** * Aggregation pipelines and change streams of the MongoDB data API

    Which stages a pipeline may have, what they may ask for, and the match on the
    scope that is put before them
    (src/packages/adapters/src/mongodb-data-api.mjs). *)

Definition AGGREGATION_ALLOWED_STAGES : list string :=
  ["$match"; "$project"; "$sort"; "$limit"; "$skip"; "$group"; "$unwind"; "$lookup"; "$count"; "$facet"; "$addFields"; "$set"; "$unset"; "$replaceRoot"; "$replaceWith"].
Definition AGGREGATION_BLOCKED_STAGES : list string := ["$out"; "$merge"; "$geoNear"].
Definition CHANGE_STREAM_ALLOWED_STAGES : list string := ["$match"; "$project"; "$addFields"; "$set"; "$unset"; "$replaceRoot"; "$replaceWith"].

Definition allowed_stages (kind : string) : list string := if String.eqb kind "change_stream" then CHANGE_STREAM_ALLOWED_STAGES else AGGREGATION_ALLOWED_STAGES.

(** The limits a pipeline is held to. *)
Record pipeline_limits := mk_pipeline_limits {
  pl_maxStages : Z;
  pl_maxPayloadBytes : Z;
  pl_maxResultWindow : Z;
  pl_maxSkip : Z;
  pl_maxLookupStages : Z;
  pl_maxFacetBranches : Z;
  pl_maxSortKeys : Z
}.

Definition aggregation_pipeline_limits (l : aggregation_limits) : pipeline_limits :=
  mk_pipeline_limits (al_maxStages l) (al_maxPayloadBytes l) (al_maxResultWindow l) (al_maxSkip l) (al_maxLookupStages l) (al_maxFacetBranches l) (al_maxSortKeys l).

Definition invalid_pipeline (message : string) : mongo_error := mongoError "mongo_data_invalid_pipeline" 400 message.
Definition too_costly (status : Z) (message : string) : mongo_error := mongoError "mongo_data_pipeline_too_costly" status message.

(** [state]: what has been seen of the pipeline so far. *)
Record pipeline_state := mk_pipeline_state { ps_lookups : Z; ps_names : list string }.

Record pipeline_summary := mk_pipeline_summary { su_stages : Z; su_names : list string; su_injected : bool; su_lookups : Z }.

Definition sort_value (sort : list (string * Z)) : jsval := JObj ((fun e => (e.1, jint e.2)) <$> sort).
Definition projection_value (p : option (list (string * Z))) : jsval := match p with Some kvs => sort_value kvs | None => JUndef end.

(** [stages.map], where a stage sees and changes the state. *)
Section threading.
Context (f : nat -> jsval -> pipeline_state -> checked (jsval * pipeline_state)).
Fixpoint traverse_stages (index : nat) (stages : list jsval) (s : pipeline_state) : checked (list jsval * pipeline_state) :=
  match stages with
  | [] => Ok ([], s)
  | stage :: rest =>
      match f index stage s with
      | Err e => Err e
      | Ok (stage', s') => match traverse_stages (S index) rest s' with Err e => Err e | Ok (rest', s'') => Ok (stage' :: rest', s'') end
      end
  end.
End threading.

Section pipelines.
Context `{NT : !NumberText}.
Variables (kind : string) (limits : pipeline_limits).

Definition stage_path (index : nat) : string := kind +:+ ".pipeline[" +:+ show_Z (Z.of_nat index) +:+ "]".

(** The checks on a whole pipeline. *)
Definition pipeline_stages_of (pipeline : jsval) : checked (list jsval) :=
  match pipeline with
  | JArr ((_ :: _) as stages) =>
      if pl_maxStages limits <? Z.of_nat (length stages)
      then Err (too_costly 400 (kind +:+ ".pipeline exceeds the configured maximum of " +:+ show_Z (pl_maxStages limits) +:+ " stages."))
      else if pl_maxPayloadBytes limits <? byte_length (json_text pipeline)
      then Err (too_costly 413 (kind +:+ ".pipeline exceeds the configured maximum size of " +:+ show_Z (pl_maxPayloadBytes limits) +:+ " bytes."))
      else Ok stages
  | _ => Err (invalid_pipeline (kind +:+ ".pipeline must be a non-empty array."))
  end.

(** The stages that hold no pipeline. *)
Definition simple_stage (path name : string) (v : jsval) : checked jsval :=
  if String.eqb name "$match" then filter ← normalizeMongoDataFilter v; Ok (JObj [("$match", filter)])
  else if String.eqb name "$project" then p ← normalizeMongoDataProjection v; Ok (JObj [("$project", projection_value p)])
  else if String.eqb name "$sort" then
    sort ← normalizeMongoDataSort v;
    if pl_maxSortKeys limits + 1 <? Z.of_nat (length sort) then Err (too_costly 400 (path +:+ " exceeds the configured maximum number of sort keys."))
    else Ok (JObj [("$sort", sort_value sort)])
  else if String.eqb name "$limit" then
    n ← normalizePositiveInteger v (path +:+ ".$limit") (Some (pl_maxResultWindow limits)); Ok (JObj [("$limit", jint n)])
  else if String.eqb name "$skip" then
    n ← normalizeNonNegativeInteger v (path +:+ ".$skip") (Some (pl_maxSkip limits)); Ok (JObj [("$skip", jint n)])
  else
    match v with
    | JObj _ | JArr _ | JNum _ | JStr _ => Ok (JObj [(name, cloneJson v)])
    | _ => Err (invalid_pipeline (path +:+ "." +:+ name +:+ " must be JSON-compatible."))
    end.

Definition lookup_stage (path : string) (v : jsval) (s : pipeline_state) : checked (jsval * pipeline_state) :=
  let lookups := ps_lookups s + 1 in
  if pl_maxLookupStages limits <? lookups
  then Err (too_costly 400 ("The aggregation pipeline exceeds the configured maximum of " +:+ show_Z (pl_maxLookupStages limits) +:+ " $lookup stages."))
  else if negb (isPlainObject v) then Err (invalid_pipeline (path +:+ ".$lookup must be an object."))
  else Ok (JObj [("$lookup", cloneJson v)], mk_pipeline_state lookups (ps_names s)).

Definition facet_check (path : string) (v : jsval) : checked unit :=
  match v with
  | JObj ((_ :: _) as branches) =>
      if pl_maxFacetBranches limits <? Z.of_nat (length branches)
      then Err (too_costly 400 (path +:+ " exceeds the configured maximum number of facet branches.")) else Ok tt
  | _ => Err (invalid_pipeline (path +:+ ".$facet must be a non-empty object."))
  end.

(** Which stage it is, and whether there may be such a stage. *)
Definition stage_name (path : string) (stage : jsval) : checked string :=
  match stage with
  | JObj [(name, _)] =>
      if str_in name AGGREGATION_BLOCKED_STAGES then
        Err (mongoError "mongo_data_pipeline_stage_blocked" 400 (name +:+ " is blocked for the MongoDB Data API " +:+ kind +:+ " surface."))
      else if negb (str_in name (allowed_stages kind)) then Err (invalid_pipeline (name +:+ " is not supported for " +:+ kind +:+ " pipelines."))
      else Ok name
  | _ => Err (invalid_pipeline (path +:+ " must contain exactly one aggregation stage."))
  end.

(** The branches of a [$facet] are pipelines with a state of their own. *)
Fixpoint normalizePipelineStage (index : nat) (stage : jsval) (s : pipeline_state) {struct stage} : checked (jsval * pipeline_state) :=
  let path := stage_path index in
  match stage_name path stage with
  | Err e => Err e
  | Ok name =>
      let s' := mk_pipeline_state (ps_lookups s) (ps_names s ++ [name]) in
      match stage with
      | JObj [(_, v)] =>
          if String.eqb name "$lookup" then lookup_stage path v s'
          else if String.eqb name "$facet" then
            _ ← facet_check path v;
            branches ← (match v with
                        | JObj kvs => traverse_checked (fun kv =>
                            match kv.2 with
                            | JArr stages =>
                                _ ← pipeline_stages_of kv.2;
                                r ← traverse_stages normalizePipelineStage 0 stages (mk_pipeline_state 0 []);
                                Ok (kv.1, JArr (r.1 : list jsval))
                            | _ => Err (invalid_pipeline (path +:+ "." +:+ kv.1 +:+ " must be an array of pipeline stages."))
                            end) kvs
                        | _ => Ok []
                        end);
            Ok (JObj [("$facet", JObj (from_entries branches))], s')
          else stage' ← simple_stage path name v; Ok (stage', s')
      | _ => Err type_error
      end
  end.

Definition change_clause (field : string * string) : jsval :=
  JObj [("$or", JArr [JObj [("fullDocument." +:+ field.1, JStr field.2)]; JObj [("fullDocumentBeforeChange." +:+ field.1, JStr field.2)];
                      JObj [("updateDescription.updatedFields." +:+ field.1, JStr field.2)]])].

Definition buildChangeStreamTenantMatch (tenantScope : tenant_scope) : jsval :=
  match change_clause <$> ts_fields tenantScope with [clause] => clause | clauses => JObj [("$and", JArr clauses)] end.

Definition scope_match (tenantScope : tenant_scope) : checked jsval :=
  if String.eqb kind "change_stream" then Ok (buildChangeStreamTenantMatch tenantScope) else buildTenantMatchFilter tenantScope.

(** The match on the scope joins a leading match, or leads. *)
Definition inject_scope (tenantFilter : jsval) (stages : list jsval) : list jsval :=
  match stages with
  | first :: rest => if truthy (js_get first "$match") then JObj [("$match", mergeFilters tenantFilter (js_get first "$match"))] :: rest
                     else JObj [("$match", tenantFilter)] :: stages
  | [] => [JObj [("$match", tenantFilter)]]
  end.

(** A pipeline at the top; [tenantScope] is there when a match is injected. *)
Definition normalizeMongoDataPipeline (pipeline : jsval) (tenantScope : option tenant_scope) : checked (list jsval * Z * pipeline_summary) :=
  stages ← pipeline_stages_of pipeline;
  r ← traverse_stages normalizePipelineStage 0 stages (mk_pipeline_state 0 []);
  let '(normalized, s) := (r : list jsval * pipeline_state) in
  let bytes := byte_length (json_text pipeline) in
  match tenantScope with
  | None => Ok (normalized, bytes, mk_pipeline_summary (Z.of_nat (length normalized)) (ps_names s) false (ps_lookups s))
  | Some scope =>
      tenantFilter ← scope_match scope;
      let injected := inject_scope tenantFilter normalized in
      Ok (injected, bytes, mk_pipeline_summary (Z.of_nat (length injected)) ("$match" :: ps_names s) true (ps_lookups s))
  end.

End pipelines.
