(* ===== verification/MongoTransfer.v ===== *)
(** * Requests on many MongoDB documents

    Bulk writes, imports, exports, transactions and change streams made regular
    (src/packages/adapters/src/mongodb-data-api.mjs).  What the calling service
    knows of a collection is a record; what a client sends is a JavaScript value. *)
From S2P Require Import Prelude JsValue Json Regex PgTable MongoFilter MongoWrite MongoPipeline.
Local Open Scope Z_scope.

(** What is known of a collection, and how it is written in JSON. *)
Record collection_metadata := mk_metadata {
  cm_rules : option schema;
  cm_indexes : list mongo_index;
  cm_bulkLimits : jsval;
  cm_aggregationLimits : jsval;
  cm_transferLimits : jsval;
  cm_json : jsval
}.

Definition no_metadata : collection_metadata := mk_metadata None [] JUndef JUndef JUndef (JObj []).

(** What an operation of a transaction says of its collection, read as such. *)
Class MetadataReader := { metadata_of : jsval -> collection_metadata }.

Section transfers.
Context `{NT : !NumberText, MR : !MetadataReader}.

(** ** Duplicates *)

Definition conflict_value (c : index_conflict) : jsval :=
  JObj [("indexName", JStr (cf_index c)); ("firstDocumentIndex", jint (Z.of_nat (cf_first c)));
        ("conflictingDocumentIndex", jint (Z.of_nat (cf_second c))); ("keys", JArr (JStr <$> cf_keys c))].

Definition conflict_detail (what between : string) (c : index_conflict) : string :=
  what +:+ cf_index c +:+ " duplicated between " +:+ between +:+ " " +:+ show_Z (Z.of_nat (cf_first c)) +:+ " and " +:+ show_Z (Z.of_nat (cf_second c)) +:+ ".".

Definition refuse_conflicts (message what between : string) (meta : list (string * jsval)) (conflicts : list index_conflict) : checked unit :=
  match conflicts with
  | [] => Ok tt
  | _ => Err (mk_mongo_error (Some "mongo_data_conflict") (Some 409) message (conflict_detail what between <$> conflicts)
                (meta ++ [("uniqueIndexConflicts", JArr (conflict_value <$> conflicts))]))
  end.

(** ** Bulk writes *)

Inductive bulk_operation :=
| BulkInsert (document : js_object)
| BulkReplace (filter : jsval) (replacement : js_object) (upsert : bool)
| BulkUpdate (kind : string) (filter : jsval) (update : list (string * js_object)) (upsert : bool) (candidate : option js_object)
| BulkDelete (kind : string) (filter : jsval).

Definition MONGO_DATA_BULK_ACTIONS : list string := ["insertOne"; "updateOne"; "updateMany"; "replaceOne"; "deleteOne"; "deleteMany"].

Definition bulk_path (index : nat) (what : string) : string := "bulk.operations[" +:+ show_Z (Z.of_nat index) +:+ "]" +:+ what.

Definition is_true (v : jsval) : bool := jsval_eqb v (JBool true).

(** The document an update is about, changed and stamped, when it is given. *)
Definition update_candidate (existing : jsval) (update : list (string * js_object)) (tenantScope : tenant_scope) : checked (option js_object) :=
  if truthy existing then
    changed ← applyMongoDataUpdateDocument existing (update_value update);
    candidate ← injectTenantIntoDocument changed tenantScope;
    Ok (Some candidate)
  else Ok None.

(** [existingDocumentMap] is the map of a caller in the same process. *)
Definition normalizeBulkOperation (tenantScope : tenant_scope) (existingDocumentMap : list (string * jsval)) (index : nat) (operation : jsval)
    : checked bulk_operation :=
  let kind := coalesce (js_get operation "kind") (coalesce (js_get operation "operation") (js_get operation "type")) in
  let refused := Err (mongoError "mongo_data_invalid_bulk_operation" 400 (bulk_path index " uses unsupported kind " +:+ js_to_string kind +:+ ".")) in
  match kind with
  | JStr k =>
      if negb (str_in k MONGO_DATA_BULK_ACTIONS) then refused
      else if String.eqb k "insertOne" then
        raw ← normalizeWriteDocument (js_get operation "document") (bulk_path index ".document");
        document ← injectTenantIntoDocument raw tenantScope;
        Ok (BulkInsert document)
      else
        filter ← rescopeFilter (js_get operation "filter") tenantScope;
        if String.eqb k "replaceOne" then
          raw ← normalizeWriteDocument (js_get operation "replacement") (bulk_path index ".replacement");
          replacement ← injectTenantIntoDocument raw tenantScope;
          Ok (BulkReplace filter replacement (is_true (js_get operation "upsert")))
        else if str_in k ["updateOne"; "updateMany"] then
          update ← normalizeMongoDataUpdateDocument (js_get operation "update");
          let existing := if truthy (js_get operation "documentId")
            then match js_get operation "documentId" with JStr id => default JUndef (assoc_lookup id existingDocumentMap) | _ => JUndef end
            else js_get operation "existingDocument" in
          candidate ← update_candidate existing update tenantScope;
          Ok (BulkUpdate k filter update (is_true (js_get operation "upsert")) candidate)
        else Ok (BulkDelete k filter)
  | _ => refused
  end.

Definition candidate_of (o : bulk_operation) : option js_object :=
  match o with BulkInsert d => Some d | BulkReplace _ r _ => Some r | BulkUpdate _ _ _ _ c => c | BulkDelete _ _ => None end.

Definition written_of (o : bulk_operation) : list js_object :=
  match o with BulkInsert d => [d] | BulkReplace _ r _ => [r] | _ => [] end.

Definition validation_context (candidate : option js_object) : jsval :=
  match candidate with Some d => JObj [("candidateDocument", JObj d); ("partial", JBool false)] | None => JObj [("partial", JBool true)] end.

Definition bulk_value (o : bulk_operation) : jsval :=
  match o with
  | BulkInsert d => JObj [("kind", JStr "insertOne"); ("document", JObj d); ("validationContext", validation_context (Some d))]
  | BulkReplace f r u => JObj [("kind", JStr "replaceOne"); ("filter", f); ("replacement", JObj r); ("upsert", JBool u); ("validationContext", validation_context (Some r))]
  | BulkUpdate k f up u c => JObj [("kind", JStr k); ("filter", f); ("update", update_value up); ("upsert", JBool u); ("validationContext", validation_context c)]
  | BulkDelete k f => JObj [("kind", JStr k); ("filter", f)]
  end.

(** [items.map((item, index) => f(item, index))] *)
Definition map_indexed {A} (f : nat -> jsval -> checked A) (items : list jsval) : checked (list A) :=
  traverse_checked (fun p => f p.1 p.2) (zip (seq 0 (length items)) items).

Record bulk_plan := mk_bulk_plan { bp_limits : bulk_limits; bp_bytes : Z; bp_operations : list bulk_operation }.

Definition buildBulkPlan (payload : jsval) (tenantScope : tenant_scope) (cm : collection_metadata) (existingDocumentMap : list (string * jsval)) : checked bulk_plan :=
  given ← member_of payload "limits";
  limits ← normalizeBulkLimits given (cm_bulkLimits cm);
  entries ← array_of (js_get payload "operations");
  operations ← map_indexed (normalizeBulkOperation tenantScope existingDocumentMap) entries;
  if bool_decide (operations = []) then Err (mongoError "mongo_data_invalid_bulk_operation" 400 "bulk.operations must contain at least one operation.")
  else if bl_maxOperations limits <? Z.of_nat (length operations) then
    Err (mk_mongo_error (Some "mongo_data_bulk_limit_exceeded") (Some 413)
           ("bulk.operations exceeds the configured limit of " +:+ show_Z (bl_maxOperations limits) +:+ ".") []
           [("operationCount", jint (Z.of_nat (length operations))); ("maxOperations", jint (bl_maxOperations limits))])
  else
    let bytes := estimateMongoPayloadBytes (JObj [("operations", JArr (bulk_value <$> operations)); ("ordered", bl_ordered limits)]) in
    if bl_maxPayloadBytes limits <? bytes then
      Err (mk_mongo_error (Some "mongo_data_bulk_payload_too_large") (Some 413)
             ("bulk payload exceeds the configured limit of " +:+ show_Z (bl_maxPayloadBytes limits) +:+ " bytes.") []
             [("payloadBytes", jint bytes); ("maxPayloadBytes", jint (bl_maxPayloadBytes limits))])
    else
      _ ← traverse_checked (fun o => validateCandidateDocument (cm_rules cm) (candidate_of o) false) operations;
      conflicts ← detectMongoRequestUniqueIndexConflicts (List.flat_map written_of operations) (cm_indexes cm);
      _ ← refuse_conflicts "bulk payload conflicts with declared unique indexes." "" "operations" [] conflicts;
      Ok (mk_bulk_plan limits bytes operations).

(** ** Import and export *)

Definition MONGO_DATA_EXPORT_FORMATS : list string := ["json"].
Definition MONGO_DATA_IMPORT_MODES : list string := ["insert"; "replace"; "upsert"].

Record import_payload := mk_import_payload {
  im_format : string;
  im_mode : string;
  im_ordered : jsval;
  im_documents : list js_object;
  im_bytes : Z;
  im_limits : transfer_limits;
  im_manifest : jsval;
  im_preview : list bulk_operation
}.

Definition transfer_exceeded (message : string) : mongo_error := mongoError "mongo_data_transfer_limit_exceeded" 413 message.

Definition import_document (tenantScope : tenant_scope) (cm : collection_metadata) (index : nat) (document : jsval) : checked js_object :=
  raw ← normalizeWriteDocument document ("payload.documents[" +:+ show_Z (Z.of_nat index) +:+ "]");
  scoped ← injectTenantIntoDocument raw tenantScope;
  _ ← validateCandidateDocument (cm_rules cm) (Some scoped) false;
  Ok scoped.

(** [_id === undefined || _id === null || _id === ''] *)
Definition no_identifier (document : js_object) : bool := let id := js_get (JObj document) "_id" in nullish id || jsval_eqb id (JStr "").

Definition preview_of (mode : string) (tenantScope : tenant_scope) (document : js_object) : checked bulk_operation :=
  if String.eqb mode "insert" then Ok (BulkInsert document)
  else scope ← buildTenantMatchFilter tenantScope;
       Ok (BulkReplace (mergeFilters scope (JObj [("_id", js_get (JObj document) "_id")])) document (String.eqb mode "upsert")).

Definition normalizeMongoImportPayload (payload : jsval) (tenantScope : tenant_scope) (cm : collection_metadata) : checked import_payload :=
  given ← member_of payload "limits";
  limits ← normalizeTransferLimits given (cm_transferLimits cm);
  format ← normalizeEnumValue (coalesce (js_get payload "format") (JStr "json")) MONGO_DATA_EXPORT_FORMATS "payload.format";
  mode ← normalizeEnumValue (coalesce (js_get payload "mode") (JStr "insert")) MONGO_DATA_IMPORT_MODES "payload.mode";
  match js_get payload "documents" with
  | JArr ((_ :: _) as documents) =>
      if fl_maxDocuments limits <? Z.of_nat (length documents)
      then Err (transfer_exceeded ("payload.documents exceeds the configured limit of " +:+ show_Z (fl_maxDocuments limits) +:+ "."))
      else
        normalized ← map_indexed (import_document tenantScope cm) documents;
        if negb (String.eqb mode "insert") && existsb no_identifier normalized
        then Err (mongoError "mongo_data_invalid_import" 400 "Replace and upsert imports require every document to carry a stable _id.")
        else
          let bytes := estimateMongoPayloadBytes (JArr (JObj <$> normalized)) in
          if fl_maxPayloadBytes limits <? bytes
          then Err (transfer_exceeded ("Import payload exceeds the configured limit of " +:+ show_Z (fl_maxPayloadBytes limits) +:+ " bytes."))
          else
            preview ← traverse_checked (preview_of mode tenantScope) normalized;
            conflicts ← detectMongoRequestUniqueIndexConflicts normalized (cm_indexes cm);
            _ ← refuse_conflicts "import payload conflicts with declared unique indexes." "" "documents" [] conflicts;
            Ok (mk_import_payload format mode (coalesce (js_get payload "ordered") (fl_ordered limits)) normalized bytes limits
                  (cloneJson (js_get payload "restoreManifest")) preview)
  | _ => Err (mongoError "mongo_data_invalid_import" 400 "payload.documents must contain at least one document for import.")
  end.

Record export_payload := mk_export_payload {
  ex_format : string;
  ex_manifest_included : bool;
  ex_consistency : string;
  ex_limit : Z;
  ex_filter : jsval;
  ex_projection : option (list (string * Z));
  ex_sort : list (string * Z);
  ex_manifest : option (list (string * jsval))
}.

Definition normalizeMongoExportPayload (payload filter projection sort page : jsval) (tenantScope : tenant_scope) (cm : collection_metadata) : checked export_payload :=
  given ← member_of payload "limits";
  limits ← normalizeTransferLimits given (cm_transferLimits cm);
  format ← normalizeEnumValue (coalesce (js_get payload "format") (JStr "json")) MONGO_DATA_EXPORT_FORMATS "payload.format";
  limit ← normalizePositiveInteger (coalesce (js_get payload "limit") (coalesce (js_get page "size") (jint (fl_maxExportDocuments limits))))
            "payload.limit" (Some (fl_maxExportDocuments limits));
  normalizedSort ← normalizeMongoDataSort sort;
  normalizedProjection ← normalizeMongoDataProjection projection;
  scopedFilter ← rescopeFilter filter tenantScope;
  let included := not_false (js_get payload "includeRestoreManifest") in
  let asked := coalesce (js_get payload "consistency") (JStr (fl_exportConsistency limits)) in
  consistency ← normalizeEnumValue asked EXPORT_CONSISTENCIES "payload.consistency";
  Ok (mk_export_payload format included consistency limit scopedFilter normalizedProjection normalizedSort
        (if included then Some (compactDefined [("format", JStr format); ("collectionName", js_get payload "collectionName"); ("exportConsistency", asked);
                                                ("restoreMode", JStr "mongo_json_documents")])
         else None)).

(** ** Transactions *)

Definition MONGO_DATA_TRANSACTION_ACTIONS : list string := ["insert"; "update"; "replace"; "delete"].

Inductive transaction_write :=
| TxInsert (document : js_object)
| TxReplace (filter : jsval) (replacement : js_object) (upsert : bool)
| TxUpdate (filter : jsval) (update : list (string * js_object)) (upsert : bool)
| TxDelete (filter : jsval).

Record transaction_operation := mk_tx_operation {
  to_collection : string;
  to_document : option string;
  to_write : transaction_write;
  to_metadata : collection_metadata
}.

Definition resolveCollectionMetadataForTransaction (collectionName : string) (byName : list (string * collection_metadata)) (operation : jsval) : collection_metadata :=
  if truthy (js_get operation "collectionMetadata") then metadata_of (js_get operation "collectionMetadata")
  else default no_metadata (assoc_lookup collectionName byName).

Definition tx_path (index : nat) (what : string) : string := "payload.operations[" +:+ show_Z (Z.of_nat index) +:+ "]." +:+ what.

Definition tx_filter (operation : jsval) (documentId : option string) (tenantScope : tenant_scope) : checked jsval :=
  scoped ← rescopeFilter (js_get operation "filter") tenantScope;
  Ok (mergeFilters scoped (match documentId with Some id => JObj [("_id", JStr id)] | None => JObj [] end)).

Definition tx_write (kind : string) (operation : jsval) (documentId : option string) (tenantScope : tenant_scope) (cm : collection_metadata) (index : nat)
    : checked transaction_write :=
  if String.eqb kind "insert" then
    raw ← normalizeWriteDocument (js_get operation "document") (tx_path index "document");
    document ← injectTenantIntoDocument raw tenantScope;
    _ ← validateCandidateDocument (cm_rules cm) (Some document) false;
    Ok (TxInsert document)
  else if String.eqb kind "replace" then
    raw ← normalizeWriteDocument (js_get operation "replacement") (tx_path index "replacement");
    replacement ← injectTenantIntoDocument raw tenantScope;
    _ ← validateCandidateDocument (cm_rules cm) (Some replacement) false;
    filter ← tx_filter operation documentId tenantScope;
    Ok (TxReplace filter replacement (is_true (js_get operation "upsert")))
  else if String.eqb kind "update" then
    filter ← tx_filter operation documentId tenantScope;
    update ← normalizeMongoDataUpdateDocument (js_get operation "update");
    candidate ← (if truthy (js_get operation "existingDocument") then
                   existing ← normalizeWriteDocument (js_get operation "existingDocument") (tx_path index "existingDocument");
                   update_candidate (JObj existing) update tenantScope
                 else Ok None);
    _ ← validateCandidateDocument (cm_rules cm) candidate false;
    Ok (TxUpdate filter update (is_true (js_get operation "upsert")))
  else filter ← tx_filter operation documentId tenantScope; Ok (TxDelete filter).

Definition normalizeTransactionOperation (tenantScope : tenant_scope) (byName : list (string * collection_metadata)) (index : nat) (operation : jsval)
    : checked transaction_operation :=
  if nullish operation then Err type_error
  else
    kind ← normalizeEnumValue (coalesce (js_get operation "kind") (js_get operation "action")) MONGO_DATA_TRANSACTION_ACTIONS (tx_path index "kind");
    collectionName ← normalizeScopedName (js_get operation "collectionName") (tx_path index "collectionName");
    let cm := resolveCollectionMetadataForTransaction collectionName byName operation in
    documentId ← optional_name (js_get operation "documentId") (tx_path index "documentId");
    write ← tx_write kind operation documentId tenantScope cm index;
    Ok (mk_tx_operation collectionName documentId write cm).

Definition tx_value (o : transaction_operation) : jsval :=
  let target := JObj (("collectionName", JStr (to_collection o)) :: match to_document o with Some id => [("documentId", JStr id)] | None => [] end) in
  let rest := match to_write o with
              | TxInsert d => ("insert", [("document", JObj d)])
              | TxReplace f r u => ("replace", [("filter", f); ("replacement", JObj r); ("upsert", JBool u)])
              | TxUpdate f up u => ("update", [("filter", f); ("update", update_value up); ("upsert", JBool u)])
              | TxDelete f => ("delete", [("filter", f)])
              end in
  JObj ([("kind", JStr rest.1); ("target", target)] ++ rest.2 ++ [("collectionMetadata", cm_json (to_metadata o))]).

Definition previewed (o : transaction_operation) : option js_object :=
  match to_write o with TxInsert d => Some d | TxReplace _ r _ => Some r | _ => None end.

(** [documentsByCollection] *)
Definition documents_by_collection (operations : list transaction_operation) : list (string * list js_object) :=
  foldl (fun acc o => match previewed o with
                      | Some d => assoc_set (to_collection o) (default [] (assoc_lookup (to_collection o) acc) ++ [d]) acc
                      | None => acc
                      end) [] operations.

Definition check_collection (byName : list (string * collection_metadata)) (group : string * list js_object) : checked unit :=
  let cm := default no_metadata (assoc_lookup group.1 byName) in
  conflicts ← detectMongoRequestUniqueIndexConflicts group.2 (cm_indexes cm);
  refuse_conflicts ("Transaction payload conflicts with declared unique indexes for " +:+ group.1 +:+ ".") (group.1 +:+ ".") "operations"
    [("collectionName", JStr group.1)] conflicts.

Record transaction_plan := mk_transaction_plan {
  tr_options : transaction_limits;
  tr_operations : list transaction_operation;
  tr_bytes : Z;
  tr_collections : list string
}.

Definition normalizeMongoTransactionPayload (payload : jsval) (tenantScope : tenant_scope) (byName : list (string * collection_metadata)) (ceilings : transaction_limits)
    : checked transaction_plan :=
  given ← member_of payload "options";
  limits ← normalizeTransactionLimits (coalesce given (js_get payload "limits")) ceilings;
  match js_get payload "operations" with
  | JArr ((_ :: _) as entries) =>
      if tl_maxOperations limits <? Z.of_nat (length entries)
      then Err (transfer_exceeded ("payload.operations exceeds the configured transaction limit of " +:+ show_Z (tl_maxOperations limits) +:+ "."))
      else
        operations ← map_indexed (normalizeTransactionOperation tenantScope byName) entries;
        let bytes := estimateMongoPayloadBytes (JArr (tx_value <$> operations)) in
        if tl_maxPayloadBytes limits <? bytes
        then Err (transfer_exceeded ("Transaction payload exceeds the configured limit of " +:+ show_Z (tl_maxPayloadBytes limits) +:+ " bytes."))
        else
          _ ← traverse_checked (check_collection byName) (documents_by_collection operations);
          Ok (mk_transaction_plan limits operations bytes (string_set (JStr ∘ to_collection <$> operations)))
  | _ => Err (mongoError "mongo_data_invalid_transaction" 400 "payload.operations must contain at least one transactional operation.")
  end.

(** ** Change streams *)

Record stream_plan := mk_stream_plan {
  sm_transport : string;
  sm_window : Z;
  sm_full : string;
  sm_before : option string;
  sm_resume : jsval;
  sm_start : jsval;
  sm_pipeline : list jsval;
  sm_summary : pipeline_summary;
  sm_topic : string;
  sm_provider : string;
  sm_available : bool
}.

Definition normalizeMongoChangeStreamPayload (payload : jsval) (tenantScope : tenant_scope) (workspaceId databaseName collectionName : string) (bridge : bridge_profile)
    : checked stream_plan :=
  given ← member_of payload "limits";
  let limits := cloneJson (coalesce given (JObj [])) in
  maxStages ← normalizePositiveInteger (coalesce (js_get limits "maxStages") (jint 6)) "change_stream.maxStages" None;
  maxPayloadBytes ← normalizePositiveInteger (coalesce (js_get limits "maxPayloadBytes") (jint 16384)) "change_stream.maxPayloadBytes" None;
  normalized ← normalizeMongoDataPipeline "change_stream" (mk_pipeline_limits maxStages maxPayloadBytes 100 0 0 1 4)
                 (coalesce (js_get payload "pipeline") (JArr [JObj [("$project", JObj [("fullDocument", jint 1); ("operationType", jint 1)])]]))
                 (Some tenantScope);
  let '(pipeline, _, summary) := (normalized : list jsval * Z * pipeline_summary) in
  transport ← normalizeEnumValue (coalesce (js_get payload "transport") (coalesce (text_or_undef (br_transport bridge)) (JStr "event_gateway"))) ["event_gateway"] "payload.transport";
  window ← normalizePositiveInteger (coalesce (js_get payload "replayWindowSeconds") (jint 3600)) "payload.replayWindowSeconds" (Some 86400);
  full ← normalizeEnumValue (coalesce (js_get payload "fullDocument") (JStr "whenAvailable")) ["default"; "whenAvailable"; "required"; "updateLookup"] "payload.fullDocument";
  before ← (if truthy (js_get payload "fullDocumentBeforeChange")
            then b ← normalizeEnumValue (js_get payload "fullDocumentBeforeChange") ["off"; "whenAvailable"; "required"] "payload.fullDocumentBeforeChange"; Ok (Some b)
            else Ok None);
  Ok (mk_stream_plan transport window full before (cloneJson (js_get payload "resumeAfter")) (js_get payload "startAtOperationTime") pipeline summary
        ("mongo.change-stream." +:+ workspaceId +:+ "." +:+ databaseName +:+ "." +:+ collectionName +:+ "." +:+ ts_value tenantScope)
        (default "event_gateway" (br_provider bridge)) (default false (br_available bridge))).

End transfers.
