(* ===== verification/MongoQuery.v ===== *)
(** * Which documents a MongoDB filter selects

    What the proofs use of MongoDB's query language, as its manual states it: the
    fields of a filter hold together, the logical operators, equality with a text,
    and the comparisons of two values of one kind; and a small server that obeys
    it, for the examples. *)
From S2P Require Import Prelude JsValue Json PgTable PgSemantics MongoFilter MongoWrite MongoPipeline MongoTransfer MongoPlan.
From Stdlib Require Import Ascii.
Local Open Scope Z_scope.

(** ** What a filter selects *)

(** A field equals a text when it is the text or a list with it. *)
Definition holds_text (v : jsval) (s : string) : bool :=
  match v with JStr t => String.eqb t s | JArr xs => existsb (fun x => jsval_eqb x (JStr s)) xs | _ => false end.

(** A name that is neither a path into a document nor an operator. *)
Definition field_name (k : string) : Prop := split_on "." k = [k] /\ is_operator k = false.

(** A value holds a text at the end of a path; a list on the way holds it when a
    document in it does. *)
Fixpoint reaches (path : list string) (v : jsval) (s : string) : bool :=
  match path with
  | [] => holds_text v s
  | k :: rest =>
      match v with
      | JObj _ => reaches rest (js_get v k) s
      | JArr xs => existsb (fun x => match x with JObj _ => reaches rest (js_get x k) s | _ => false end) xs
      | _ => false
      end
  end.

(** A segment of a path that names a field and is not the index of an element. *)
Definition named_segment (k : string) : Prop := match k with String c _ => negb (is_digit c) | EmptyString => false end = true.

(** MongoDB's query language, as far as the scope needs it. *)
Class MongoQueries := {
  selects : jsval -> js_object -> bool;
  selects_fields kvs d : NoDup kvs.*1 -> selects (JObj kvs) d = forallb (fun kv => selects (JObj [kv]) d) kvs;
  selects_and fs d : fs <> [] -> selects (JObj [("$and", JArr fs)]) d = forallb (fun f => selects f d) fs;
  selects_or fs d : fs <> [] -> selects (JObj [("$or", JArr fs)]) d = existsb (fun f => selects f d) fs;
  selects_nor fs d : fs <> [] -> selects (JObj [("$nor", JArr fs)]) d = negb (existsb (fun f => selects f d) fs);
  selects_text k s d : field_name k -> selects (JObj [(k, JStr s)]) d = holds_text (js_get (JObj d) k) s;
  selects_path k s d : is_operator k = false -> Forall named_segment (split_on "." k) ->
    selects (JObj [(k, JStr s)]) d = reaches (split_on "." k) (JObj d) s
}.

(** The fields of a scope and their values. *)
Definition in_scope (fields : list (string * string)) (d : js_object) : bool :=
  forallb (fun f => holds_text (js_get (JObj d) f.1) f.2) fields.

(** Where a change event shows a document: as it is after the change, as it was
    before, and the fields that an update set. *)
Definition event_places : list (list string) := [["fullDocument"]; ["fullDocumentBeforeChange"]; ["updateDescription"; "updatedFields"]].

(** Each field of the scope has its value in one of these places of the event. *)
Definition event_in_scope (fields : list (string * string)) (e : js_object) : bool :=
  forallb (fun f => existsb (fun place => reaches (place ++ [f.1]) (JObj e) f.2) event_places) fields.

(** The document says exactly this scope. *)
Definition carries (fields : list (string * string)) (d : js_object) : Prop := Forall (fun f => js_get (JObj d) f.1 = JStr f.2) fields.

Lemma carries_in_scope fields d : carries fields d -> in_scope fields d = true.
Proof. intros H. apply forallb_forall. intros f Hf%list_elem_of_In. rewrite (proj1 (Forall_forall _ _) H f Hf). cbn. apply String.eqb_refl. Qed.

(** ** Comparisons *)

Class MongoOrder `{MQ : !MongoQueries} := {
  value_lt : jsval -> jsval -> bool;
  value_lt_asym a b : value_lt a b = true -> value_lt b a = false;
  value_lt_irrefl a : value_lt a a = false;
  value_lt_total a b : alike a b -> value_lt a b = true \/ value_lt b a = true \/ a = b;
  selects_equal k v d : field_name k -> alike v (js_get (JObj d) k) -> selects (JObj [(k, v)]) d = jsval_eqb (js_get (JObj d) k) v;
  selects_gt k v d : field_name k -> alike v (js_get (JObj d) k) -> selects (JObj [(k, JObj [("$gt", v)])]) d = value_lt v (js_get (JObj d) k);
  selects_lt k v d : field_name k -> alike v (js_get (JObj d) k) -> selects (JObj [(k, JObj [("$lt", v)])]) d = value_lt (js_get (JObj d) k) v
}.

(** * A small server for the examples

    A filter evaluator for equalities, comparisons and the logical operators, that
    obeys what [MongoQueries] and [MongoOrder] state, and sample requests. *)

(** A field and its predicate. *)
Definition sample_field (k : string) (v : jsval) (d : js_object) : bool :=
  match v with
  | JStr s => reaches (split_on "." k) (JObj d) s
  | JObj [(op, x)] => if String.eqb op "$gt" then sample_lt x (js_get (JObj d) k)
                      else if String.eqb op "$lt" then sample_lt (js_get (JObj d) k) x else jsval_eqb (js_get (JObj d) k) v
  | _ => jsval_eqb (js_get (JObj d) k) v
  end.

Fixpoint sample_selects (f : jsval) (d : js_object) : bool :=
  match f with
  | JObj kvs => forallb (fun kv =>
      match kv.2 with
      | JArr fs => if String.eqb kv.1 "$and" then forallb (fun g => sample_selects g d) fs
                   else if String.eqb kv.1 "$or" then existsb (fun g => sample_selects g d) fs
                   else if String.eqb kv.1 "$nor" then negb (existsb (fun g => sample_selects g d) fs)
                   else sample_field kv.1 kv.2 d
      | _ => sample_field kv.1 kv.2 d
      end) kvs
  | _ => false
  end.

#[local] Instance sample_queries : MongoQueries.
Proof.
  refine {| selects := sample_selects |}.
  - intros kvs d _. induction kvs as [|kv kvs IH]; [done|]. cbn [forallb]. rewrite <- IH. cbn [sample_selects forallb]. by rewrite andb_true_r.
  - intros fs d _. cbn [sample_selects forallb]. by rewrite andb_true_r.
  - intros fs d _. cbn [sample_selects forallb]. by rewrite andb_true_r.
  - intros fs d _. cbn [sample_selects forallb]. by rewrite andb_true_r.
  - intros k s d [Hk _]. change (sample_field k (JStr s) d && true = holds_text (js_get (JObj d) k) s). rewrite andb_true_r. unfold sample_field. by rewrite Hk.
  - intros k s d _ _. change (sample_field k (JStr s) d && true = reaches (split_on "." k) (JObj d) s). by rewrite andb_true_r.
Defined.

#[local] Instance sample_mongo_order : @MongoOrder sample_queries.
Proof.
  refine {| value_lt := sample_lt : jsval -> jsval -> bool |}.
  - apply sample_lt_asym.
  - apply sample_lt_irrefl.
  - apply sample_lt_total.
  - intros k v d [Hk _] [Hb [n Hn]]. change (sample_selects (JObj [(k, v)]) d = jsval_eqb (js_get (JObj d) k) v). rewrite Hn in Hb.
    destruct v as [| |x|[m| | |]|s| |]; try done; cbn [sample_selects forallb snd fst]; rewrite andb_true_r; cbn [sample_field]; try done.
    rewrite Hk. cbn [reaches]. cbn in Hn. injection Hn as <-. destruct (js_get (JObj d) k) as [| |y|[m| | |]|t| |]; try done.
  - intros k v d _ _. change (sample_selects (JObj [(k, JObj [("$gt", v)])]) d = sample_lt v (js_get (JObj d) k)).
    cbn [sample_selects forallb snd fst]. by rewrite andb_true_r.
  - intros k v d _ _. change (sample_selects (JObj [(k, JObj [("$lt", v)])]) d = sample_lt (js_get (JObj d) k) v).
    cbn [sample_selects forallb snd fst]. by rewrite andb_true_r.
Defined.

Definition sample_syntax : SyntaxText := {| syntax_error := fun _ => "Unexpected token" |}.
Definition sample_metadata : MetadataReader := {| metadata_of := fun _ => no_metadata |}.
Definition sample_contracts : MongoContracts := {| mongo_adapter_id := Some "mongodb"; mongo_request_version := JStr "2026-03-24" |}.

(** A request of the tenant [acme] in the workspace [ws1]. *)
Definition mongo_call (operation : string) (documentId filter payload : jsval) : mongo_request :=
  mk_mongo_request (JStr operation) (JStr "ws1") (JStr "shop") (JStr "orders") documentId (JStr "acme") JUndef JUndef filter JUndef JUndef
    (JObj []) payload no_metadata [] [] (JObj []) (JObj []) (JObj [("clusterTopology", JStr "replica_set")]) (JObj [("available", JBool true)]).

Definition sample_plan (r : mongo_request) : checked mongo_plan := @buildMongoDataApiPlan sample_number_text sample_syntax sample_metadata sample_contracts r.

Definition acme_fields : list (string * string) := [("tenantId", "acme"); ("workspaceId", "ws1")].

(** A plan, for requests known to be planned. *)
Definition plan_or (otherwise : mongo_detail) (r : checked mongo_plan) : mongo_detail := match r with Ok p => mp_detail p | Err _ => otherwise end.

Example get_plan : sample_plan (mongo_call "get" (JStr "o1") (JObj [("state", JStr "open")]) (JObj [])) <> Err type_error.
Proof. vm_compute. discriminate. Qed.
