(* ===== verification/MongoScope.v ===== *)
(** * The scope of a MongoDB request

    Every filter of every plan selects documents of the caller's tenant and
    workspace only, and every document a plan writes carries them. *)
From S2P Require Import Prelude JsValue Json Regex PgTable PgSemantics MongoFilter MongoWrite MongoPipeline MongoTransfer MongoPlan MongoQuery.
From Stdlib Require Import Ascii.
Local Open Scope Z_scope.

(** ** Names made regular stay as they are *)

Lemma drop_while_start {A} (p : A -> bool) l : drop_while p (drop_while p l) = drop_while p l.
Proof. induction l as [|x l IH]; [done|]. cbn. destruct (p x) eqn:E; [done|]. cbn. by rewrite E. Qed.

Lemma drop_while_prefix {A} (p : A -> bool) l a b : drop_while p l = a ++ b -> drop_while p a = a.
Proof.
  intros H. destruct a as [|x a]; [done|]. assert (Hx : p x = false); [|cbn; by rewrite Hx].
  induction l as [|y l IH]; [done|]. cbn in H. destruct (p y) eqn:E; [by apply IH|]. congruence.
Qed.

Lemma trim_trim s : trim (trim s) = trim s.
Proof.
  unfold trim. f_equal. rewrite chars_of_chars. unfold trim_chars. set (a := drop_while is_space (chars s)).
  destruct (drop_while_split is_space (reverse a)) as (sp & Hsp & _).
  assert (Ha : a = reverse (drop_while is_space (reverse a)) ++ reverse sp).
  { rewrite <- reverse_app, <- Hsp. by rewrite reverse_involutive. }
  rewrite (drop_while_prefix is_space (chars s) _ _ Ha), reverse_involutive. by rewrite drop_while_start.
Qed.

Lemma nonempty_again v name s : normalizeNonEmptyString v name = Ok s -> forall name', normalizeNonEmptyString (JStr s) name' = Ok s.
Proof.
  destruct v as [| | | |t| |]; try done. cbn. destruct (String.eqb (trim t) "") eqn:E; [done|]. intros [= <-] name'. cbn. by rewrite trim_trim, E.
Qed.

Lemma path_again v name s : normalizeFieldPath v name = Ok s -> forall name', normalizeFieldPath (JStr s) name' = Ok s.
Proof.
  unfold normalizeFieldPath. rewrite result_bind_ok. intros (n & Hn & H) name'. destruct (re_test_full FIELD_PATH_PATTERN n) eqn:E; [|done].
  injection H as <-. rewrite (nonempty_again _ _ _ Hn). cbn [mbind result_bind]. by rewrite E.
Qed.

(** ** Names without dots *)

Definition simple_fields (fields : list (string * string)) : Prop := NoDup fields.*1 /\ Forall (fun f => field_name f.1 /\ normalizeFieldPath (JStr f.1) "fieldPath" = Ok f.1) fields.

Lemma path_of_field k : field_name k -> normalizeFieldPath (JStr k) "fieldPath" = Ok k -> pathSegments k = Ok [k].
Proof. intros [Hs _] Hp. unfold pathSegments. rewrite Hp. cbn. by rewrite Hs. Qed.

(** A path starts with a letter or an underscore. *)
Lemma path_start v name path : normalizeFieldPath v name = Ok path -> named_segment path.
Proof.
  unfold normalizeFieldPath. rewrite result_bind_ok. intros (x & _ & H). destruct (re_test_full FIELD_PATH_PATTERN x) eqn:E; [|done]. injection H as <-.
  unfold re_test_full, FIELD_PATH_PATTERN, FIELD_SEGMENT_PATTERN in E. rewrite re_full_lang in E. apply lang_seq_inv in E as (a & b & Hl & Ha & _).
  apply lang_seq_inv in Ha as (a1 & a2 & -> & Ha & _). apply lang_cls_inv in Ha as (c & -> & Hc). destruct x as [|c' x]; [done|]. cbn in Hl. injection Hl as -> _.
  unfold named_segment. revert Hc. by destruct c as [[] [] [] [] [] [] [] []].
Qed.

Lemma split_under place k : free_of "." (chars place) = true -> split_on "." (place +:+ "." +:+ k) = place :: split_on "." k.
Proof. intros H. unfold split_on. rewrite !chars_app. change (chars ".") with ["."%char]. cbn [app]. rewrite split_chars_app by done. by rewrite fmap_cons, of_chars_chars. Qed.

Lemma foldl_err {A B E} (f : A -> B -> result E A) l e : foldl (fun acc x => a ← acc; f a x) (Err e) l = Err e.
Proof. by induction l. Qed.

Lemma scope_object_fields acc fields : Forall (fun f => field_name f.1 /\ normalizeFieldPath (JStr f.1) "fieldPath" = Ok f.1) fields ->
  NoDup (acc.*1 ++ fields.*1) ->
  foldl (fun acc f => target ← acc; setPathValue target f.1 (JStr f.2)) (Ok acc) fields = Ok (acc ++ ((fun f => (f.1, JStr f.2)) <$> fields) : js_object).
Proof.
  intros Hf. revert acc. induction Hf as [|f fields [Hn Hp] _ IH]; intros acc Hd; [by rewrite app_nil_r|].
  cbn [foldl mbind result_bind]. unfold setPathValue at 2. rewrite (path_of_field _ Hn Hp). cbn [mbind result_bind set_segments].
  rewrite assoc_set_fresh.
  - rewrite IH; [|by rewrite fmap_app, <- app_assoc]. by rewrite <- app_assoc.
  - apply assoc_lookup_none. intros Hin. rewrite fmap_cons in Hd. apply NoDup_app in Hd as (_ & Hd & _). apply (Hd f.1); [done | left].
Qed.

Lemma scope_object_simple fields : simple_fields fields -> scope_object fields = Ok ((fun f => (f.1, JStr f.2)) <$> fields).
Proof. intros [Hd Hf]. unfold scope_object. by rewrite (scope_object_fields [] fields Hf). Qed.

(** ** Merged filters *)

Section filters.
Context `{MQ : !MongoQueries}.

Lemma selects_nothing d : selects (JObj []) d = true.
Proof. rewrite selects_fields; [done | constructor]. Qed.

Lemma selects_scope fields d : simple_fields fields -> selects (JObj ((fun f => (f.1, JStr f.2)) <$> fields)) d = in_scope fields d.
Proof.
  intros [Hd Hf]. rewrite selects_fields.
  - clear Hd. induction Hf as [|f fields [Hn _] _ IH]; [done|]. cbn. rewrite IH, selects_text; done.
  - rewrite <- list_fmap_compose. exact Hd.
Qed.

Lemma selects_merged l r d : isPlainObject l = true -> isPlainObject r = true -> selects (mergeFilters l r) d = selects l d && selects r d.
Proof.
  destruct l as [| | | | | |lk], r as [| | | | | |rk]; try done. intros _ _. unfold mergeFilters. destruct lk as [|l lk]; cbn [no_filter_of truthy negb orb].
  - by rewrite selects_nothing.
  - destruct rk as [|r rk]; [by rewrite selects_nothing, andb_true_r|]. rewrite selects_and by done. cbn. by rewrite andb_true_r.
Qed.

Lemma merged_object l r : isPlainObject l = true -> isPlainObject r = true -> isPlainObject (mergeFilters l r) = true.
Proof. unfold mergeFilters. by repeat case_match. Qed.

(** *** Change events *)

Lemma clause_selects f e : field_name f.1 -> named_segment f.1 ->
  selects (change_clause f) e = existsb (fun place => reaches (place ++ [f.1]) (JObj e) f.2) event_places.
Proof.
  intros [Hs _] Hn. unfold change_clause, event_places. rewrite selects_or by done. cbn [existsb app].
  assert (H1 : forall place, free_of "." (chars place) = true -> split_on "." (place +:+ "." +:+ f.1) = [place; f.1]) by (intros place Hp; by rewrite split_under, Hs).
  pose proof (H1 "fullDocument" eq_refl) as E1. pose proof (H1 "fullDocumentBeforeChange" eq_refl) as E2.
  pose proof (split_under "updateDescription" ("updatedFields" +:+ "." +:+ f.1) eq_refl) as E3. rewrite (H1 "updatedFields" eq_refl) in E3.
  change ("updateDescription" +:+ "." +:+ "updatedFields" +:+ "." +:+ f.1) with ("updateDescription.updatedFields." +:+ f.1) in E3.
  change ("fullDocument" +:+ "." +:+ f.1) with ("fullDocument." +:+ f.1) in E1. change ("fullDocumentBeforeChange" +:+ "." +:+ f.1) with ("fullDocumentBeforeChange." +:+ f.1) in E2.
  rewrite !selects_path; [|done|rewrite E3; by repeat constructor|done|rewrite E2; by repeat constructor|done|rewrite E1; by repeat constructor].
  by rewrite E1, E2, E3.
Qed.

Lemma stream_match_selects ts e : simple_fields (ts_fields ts) -> ts_fields ts <> [] ->
  selects (buildChangeStreamTenantMatch ts) e = event_in_scope (ts_fields ts) e.
Proof.
  intros [_ Hf] Hne. unfold buildChangeStreamTenantMatch. assert (Hall : forallb (fun f => selects f e) (change_clause <$> ts_fields ts) = event_in_scope (ts_fields ts) e).
  { clear Hne. unfold event_in_scope. induction Hf as [|f fields [Hn Hp] _ IH]; [done|]. cbn [fmap list_fmap forallb]. rewrite IH, clause_selects; [done..|]. by eapply path_start. }
  rewrite <- Hall. destruct (ts_fields ts) as [|f [|f2 fields]]; [done| |]; cbn [fmap list_fmap].
  - cbn [forallb]. by rewrite andb_true_r.
  - by rewrite selects_and.
Qed.

(** The filter is an object that selects within the scope. *)
Definition confined (fields : list (string * string)) (f : jsval) : Prop :=
  isPlainObject f = true /\ forall d, selects f d = true -> in_scope fields d = true.

Lemma confined_merge fields l r : confined fields l -> isPlainObject r = true -> confined fields (mergeFilters l r).
Proof.
  intros [Hl Hs] Hr. split; [by apply merged_object|]. intros d. rewrite selects_merged by done. rewrite andb_true_iff. intros [H _]. by apply Hs.
Qed.

Lemma normalized_object filter f : normalizeMongoDataFilter filter = Ok f -> isPlainObject f = true.
Proof. destruct filter as [| | | | | |[|]]; cbn; try (by intros [= <-]). rewrite result_bind_ok. by intros (? & _ & [= <-]). Qed.

(** ** Scoped filters *)

Definition scope_fields_of (path tenant : string) (workspace : option (string * string)) : list (string * string) :=
  (path, tenant) :: match workspace with Some (p, w) => [(p, w)] | None => [] end.

Lemma scoped_parts filter tenantId tp workspaceId wp ts f : applyTenantScopeToFilter filter tenantId tp workspaceId wp = Ok (ts, f) ->
  exists nf kvs, normalizeMongoDataFilter filter = Ok nf /\ scope_object (ts_fields ts) = Ok kvs /\ f = mergeFilters (JObj kvs) nf /\
    ts_fields ts = (ts_path ts, ts_value ts) :: match ts_workspace ts with Some w => [(wo_path w, wo_value w)] | None => [] end /\
    Forall (fun p => validateTenantPredicate p (ts_value ts) (ts_path ts) = Ok tt) (collectTenantPredicates nf (ts_path ts)) /\
    normalizeNonEmptyString tenantId "tenantId" = Ok (ts_value ts) /\
    normalizeFieldPath (path_or tp "tenantId") "tenantFieldPath" = Ok (ts_path ts) /\
    match ts_workspace ts with
    | Some w => normalizeNonEmptyString workspaceId "workspaceId" = Ok (wo_value w) /\ normalizeFieldPath (path_or wp "workspaceId") "workspaceFieldPath" = Ok (wo_path w)
    | None => nullish workspaceId = true
    end.
Proof.
  unfold applyTenantScopeToFilter. rewrite !result_bind_ok. intros (tenant & Ht & H). rewrite result_bind_ok in H. destruct H as (path & Hp & H).
  rewrite result_bind_ok in H. destruct H as (workspace & Hw & H). rewrite result_bind_ok in H. destruct H as (nf & Hf & H). cbv zeta in H.
  rewrite result_bind_ok in H. destruct H as (us & Hu & H). rewrite result_bind_ok in H. destruct H as (scope & Hs & H).
  rewrite result_bind_ok in H. destruct H as (kvs & Hk & H). injection H as <- <-. cbn [ts_fields ts_path ts_value ts_workspace].
  exists nf, kvs. do 4 (split; [done|]). split.
  { apply traverse_checked_ok in Hu. apply Forall_forall. intros p Hin. apply (proj1 (list_elem_of_lookup _ _)) in Hin as [i Hi].
    destruct (Forall2_lookup_l _ _ _ _ _ Hu Hi) as ([] & _ & ->). done. }
  do 2 (split; [done|]). destruct (nullish workspaceId).
  - injection Hw as <-. by injection Hs as <-.
  - rewrite result_bind_ok in Hw. destruct Hw as (w & Hw & Hx). rewrite result_bind_ok in Hx. destruct Hx as (p & Hwp & [= <-]).
    cbv zeta in Hs. rewrite result_bind_ok in Hs. destruct Hs as (? & _ & [= <-]). done.
Qed.

(** A scoped filter selects the documents of the scope that the filter selects. *)
Lemma scoped_selects filter tenantId tp workspaceId wp ts f nf : applyTenantScopeToFilter filter tenantId tp workspaceId wp = Ok (ts, f) ->
  simple_fields (ts_fields ts) -> normalizeMongoDataFilter filter = Ok nf -> forall d, selects f d = in_scope (ts_fields ts) d && selects nf d.
Proof.
  intros H Hsf Hn d. destruct (scoped_parts _ _ _ _ _ _ _ H) as (nf' & kvs & Hn' & Hk & -> & _). rewrite Hn in Hn'. injection Hn' as <-.
  rewrite selects_merged; [|done | by eapply normalized_object]. rewrite scope_object_simple in Hk by done. injection Hk as <-. by rewrite selects_scope.
Qed.

Lemma scoped_confined filter tenantId tp workspaceId wp ts f : applyTenantScopeToFilter filter tenantId tp workspaceId wp = Ok (ts, f) ->
  simple_fields (ts_fields ts) -> confined (ts_fields ts) f.
Proof.
  intros H Hsf. destruct (scoped_parts _ _ _ _ _ _ _ H) as (nf & kvs & Hn & _ & -> & _). split.
  - apply merged_object; [done | by eapply normalized_object].
  - intros d Hd. rewrite (scoped_selects _ _ _ _ _ _ _ nf H) in Hd by done. by apply andb_true_iff in Hd as [Hd _].
Qed.

Lemma rescoped filter0 tenantId tp workspaceId wp ts f0 filter f : applyTenantScopeToFilter filter0 tenantId tp workspaceId wp = Ok (ts, f0) ->
  simple_fields (ts_fields ts) -> rescopeFilter filter ts = Ok f -> confined (ts_fields ts) f.
Proof.
  intros H Hsf Hr. destruct (scoped_parts _ _ _ _ _ _ _ H) as (_ & _ & _ & _ & _ & Hfields & _ & Ht & Hp & Hw).
  unfold rescopeFilter in Hr. rewrite result_bind_ok in Hr. destruct Hr as ([ts' f'] & Hr & [= <-]).
  destruct (scoped_parts _ _ _ _ _ _ _ Hr) as (_ & _ & _ & _ & _ & Hfields' & _ & Ht' & Hp' & Hw').
  rewrite (nonempty_again _ _ _ Ht) in Ht'. cbn [path_or] in Hp'. rewrite (path_again _ _ _ Hp) in Hp'.
  assert (Heq : ts_fields ts' = ts_fields ts).
  { rewrite Hfields, Hfields'. injection Ht' as <-. injection Hp' as <-. f_equal. destruct (ts_workspace ts) as [w|], (ts_workspace ts') as [w'|].
    - destruct Hw as [Hw1 Hw2], Hw' as [Hw1' Hw2']. cbn [path_or] in Hw2'. rewrite (nonempty_again _ _ _ Hw1) in Hw1'. rewrite (path_again _ _ _ Hw2) in Hw2'.
      by injection Hw1' as ->; injection Hw2' as ->.
    - done.
    - by destruct Hw'.
    - done. }
  rewrite <- Heq. eapply scoped_confined; [exact Hr|]. by rewrite Heq.
Qed.

(** ** Every filter of a plan *)

Definition bulk_filters (o : bulk_operation) : list jsval :=
  match o with BulkInsert _ => [] | BulkReplace f _ _ | BulkUpdate _ f _ _ _ | BulkDelete _ f => [f] end.

Definition tx_filters (o : transaction_operation) : list jsval :=
  match to_write o with TxInsert _ => [] | TxReplace f _ _ | TxUpdate f _ _ | TxDelete f => [f] end.

(** What the first stage of a pipeline matches. *)
Definition leading_match (pipeline : list jsval) : jsval := match pipeline with first :: _ => js_get first "$match" | [] => JUndef end.

(** The filters with which a plan reaches documents; what a pipeline sees has
    passed its first stage. *)
Definition filters_of (detail : mongo_detail) : list jsval :=
  match detail with
  | ReadDetail q | ReplaceDetail q _ _ _ | UpdateDetail q _ _ _ => [qu_filter q]
  | InsertDetail _ _ => []
  | BulkWriteDetail b => List.flat_map bulk_filters (bp_operations b)
  | AggregateDetail pipeline _ _ _ _ => [leading_match pipeline]
  | ImportTransfer t => List.flat_map bulk_filters (im_preview t)
  | ExportTransfer t => [ex_filter t]
  | TransactionDetail t => List.flat_map tx_filters (tr_operations t)
  | StreamDetail _ => []
  end.

(** The filter that the change events of a stream pass first. *)
Definition event_filters_of (detail : mongo_detail) : list jsval := match detail with StreamDetail s => [leading_match (sm_pipeline s)] | _ => [] end.

(** The documents a plan inserts or puts in the place of others. *)
Definition written_documents (detail : mongo_detail) : list js_object :=
  match detail with
  | InsertDetail d _ => [d]
  | ReplaceDetail _ d _ _ => [d]
  | BulkWriteDetail b => List.flat_map written_of (bp_operations b)
  | ImportTransfer t => im_documents t ++ List.flat_map written_of (im_preview t)
  | TransactionDetail t => List.flat_map (fun o => option_list (previewed o)) (tr_operations t)
  | _ => []
  end.

End filters.

(** ** Stamped documents *)

Ltac bind_ok H := rewrite result_bind_ok in H; let x := fresh "x" in let Hx := fresh "Hx" in destruct H as (x & Hx & H).

Lemma stamped_other fields document d k : Forall (fun f => field_name f.1 /\ normalizeFieldPath (JStr f.1) "fieldPath" = Ok f.1) fields ->
  stamp_fields document fields = Ok d -> k ∉ fields.*1 -> js_get (JObj d) k = js_get (JObj document) k.
Proof.
  intros Hf. unfold stamp_fields. revert document. induction Hf as [|f fields [Hn Hp] _ IH]; intros document Hd Hk; [by injection Hd as ->|].
  cbn [foldl mbind result_bind] in Hd. destruct (stamp_field document f) as [d'|e] eqn:Hs; [|by rewrite foldl_err in Hd].
  rewrite fmap_cons, not_elem_of_cons in Hk. destruct Hk as [Hkf Hk]. rewrite (IH d' Hd Hk).
  unfold stamp_field in Hs. bind_ok Hs. destruct (_ && _); [done|]. unfold setPathValue in Hs. rewrite (path_of_field _ Hn Hp) in Hs.
  injection Hs as <-. cbn. by rewrite assoc_lookup_set_ne.
Qed.

Lemma stamped_carries fields document d : simple_fields fields -> stamp_fields document fields = Ok d -> carries fields d.
Proof.
  intros [Hd Hf]. unfold carries. revert document. induction Hf as [|f fields [Hn Hp] Hf IH]; intros document Hs; [constructor|].
  unfold stamp_fields in Hs. cbn [foldl mbind result_bind] in Hs. destruct (stamp_field document f) as [d'|e] eqn:Hf1; [|by rewrite foldl_err in Hs].
  rewrite fmap_cons, NoDup_cons in Hd. destruct Hd as [Hnf Hd]. constructor; [|by eapply IH].
  rewrite (stamped_other fields d' d f.1 Hf Hs Hnf). unfold stamp_field in Hf1. bind_ok Hf1. destruct (_ && _); [done|].
  unfold setPathValue in Hf1. rewrite (path_of_field _ Hn Hp) in Hf1. injection Hf1 as <-. cbn. by rewrite object_lookup_set.
Qed.

Lemma injected_carries ts document d : simple_fields (ts_fields ts) -> injectTenantIntoDocument document ts = Ok d -> carries (ts_fields ts) d.
Proof. apply stamped_carries. Qed.

Lemma map_indexed_ok {A} (f : nat -> jsval -> checked A) items ys (P : A -> Prop) :
  map_indexed f items = Ok ys -> (forall i x y, f i x = Ok y -> P y) -> Forall P ys.
Proof.
  unfold map_indexed. intros H Hf. apply traverse_checked_ok in H. induction H as [|[i x] y l l' Hy _ IH]; constructor; [|done]. by eapply Hf.
Qed.

Lemma Forall_flat_map {A B} (f : A -> list B) (P : B -> Prop) l : Forall (fun x => Forall P (f x)) l -> Forall P (List.flat_map f l).
Proof. induction 1; [constructor|]. cbn. by apply Forall_app. Qed.

(** ** Each kind of request *)

Section plans.
Context `{MQ : !MongoQueries, NT : !NumberText, ST : !SyntaxText, MR : !MetadataReader, MC : !MongoContracts}.
Variable ts : tenant_scope.
Hypothesis simple : simple_fields (ts_fields ts).
Hypothesis rescope : forall filter f, rescopeFilter filter ts = Ok f -> confined (ts_fields ts) f.

Notation within := (confined (ts_fields ts)).
Notation stamped := (carries (ts_fields ts)).

Lemma bulk_within m i operation o : normalizeBulkOperation ts m i operation = Ok o -> Forall within (bulk_filters o) /\ Forall stamped (written_of o).
Proof.
  unfold normalizeBulkOperation. cbv zeta. destruct (coalesce _ _) as [| | | |k| |]; try done. destruct (negb _); [done|].
  destruct (String.eqb k "insertOne").
  - intros H. bind_ok H. bind_ok H. injection H as <-. split; constructor; [|done]. by eapply injected_carries.
  - intros H. bind_ok H. apply rescope in Hx. destruct (String.eqb k "replaceOne").
    + bind_ok H. bind_ok H. injection H as <-. split; repeat constructor; [apply Hx | apply Hx |]. by eapply injected_carries.
    + destruct (str_in k _).
      * bind_ok H. bind_ok H. injection H as <-. by repeat constructor; apply Hx.
      * injection H as <-. by repeat constructor; apply Hx.
Qed.

Lemma bulk_plan_within payload cm m b : buildBulkPlan payload ts cm m = Ok b ->
  Forall within (List.flat_map bulk_filters (bp_operations b)) /\ Forall stamped (List.flat_map written_of (bp_operations b)).
Proof.
  unfold buildBulkPlan. intros H. bind_ok H. bind_ok H. bind_ok H. bind_ok H. destruct (bool_decide _); [done|]. destruct (_ <? _); [done|]. cbv zeta in H.
  destruct (_ <? _); [done|]. bind_ok H. bind_ok H. bind_ok H. injection H as <-. cbn [bp_operations].
  pose proof (map_indexed_ok _ _ _ _ Hx2 (bulk_within m)) as Ho.
  split; apply Forall_flat_map; (eapply Forall_impl; [exact Ho|]); naive_solver.
Qed.

Lemma preview_within mode document o : buildTenantMatchFilter ts = Ok (JObj ((fun f => (f.1, JStr f.2)) <$> ts_fields ts)) ->
  preview_of mode ts document = Ok o -> stamped document -> Forall within (bulk_filters o) /\ Forall stamped (written_of o).
Proof.
  unfold preview_of. intros Hm H Hd. destruct (String.eqb mode "insert"); [injection H as <-; by repeat constructor|].
  rewrite Hm in H. cbn [mbind result_bind] in H. injection H as <-. split; constructor; try done. apply confined_merge; [|done]. split; [done|].
  intros d. by rewrite selects_scope.
Qed.

Lemma match_filter : buildTenantMatchFilter ts = Ok (JObj ((fun f => (f.1, JStr f.2)) <$> ts_fields ts)).
Proof. unfold buildTenantMatchFilter. by rewrite scope_object_simple. Qed.

Lemma import_within payload cm t : normalizeMongoImportPayload payload ts cm = Ok t ->
  Forall within (List.flat_map bulk_filters (im_preview t)) /\ Forall stamped (im_documents t ++ List.flat_map written_of (im_preview t)).
Proof.
  unfold normalizeMongoImportPayload. intros H. bind_ok H. bind_ok H. bind_ok H. bind_ok H.
  destruct (js_get payload "documents") as [| | | | |[|v vs]|]; try done. destruct (_ <? _); [done|]. bind_ok H. destruct (_ && _); [done|]. cbv zeta in H.
  destruct (_ <? _); [done|]. bind_ok H. bind_ok H. bind_ok H. injection H as <-. cbn [im_preview im_documents].
  assert (Hd : Forall stamped x3).
  { eapply map_indexed_ok; [exact Hx3|]. intros i v' d Hi. unfold import_document in Hi. bind_ok Hi. bind_ok Hi. bind_ok Hi. injection Hi as <-. by eapply injected_carries. }
  assert (Ho : Forall (fun o => Forall within (bulk_filters o) /\ Forall stamped (written_of o)) x4).
  { apply traverse_checked_ok in Hx4. clear - Hx4 Hd simple. induction Hx4 as [|d o l l' Ho _ IH]; [constructor|]. apply Forall_cons in Hd as [Hd Hds].
    constructor; [|by apply IH]. eapply preview_within; [apply match_filter | exact Ho | exact Hd]. }
  split; [|apply Forall_app; split; [done|]]; apply Forall_flat_map; (eapply Forall_impl; [exact Ho|]); naive_solver.
Qed.

Lemma tx_filter_within operation id f : tx_filter operation id ts = Ok f -> within f.
Proof. unfold tx_filter. intros H. bind_ok H. injection H as <-. apply confined_merge; [by apply rescope in Hx | by destruct id]. Qed.

Lemma tx_within byName i operation o : normalizeTransactionOperation ts byName i operation = Ok o ->
  Forall within (tx_filters o) /\ Forall stamped (option_list (previewed o)).
Proof.
  unfold normalizeTransactionOperation. destruct (nullish operation); [done|]. intros H. bind_ok H. bind_ok H. cbv zeta in H. bind_ok H. bind_ok H. injection H as <-.
  unfold tx_write in Hx2. unfold tx_filters, previewed. cbn [to_write].
  destruct (String.eqb x "insert"); [|destruct (String.eqb x "replace"); [|destruct (String.eqb x "update")]]; repeat bind_ok Hx2; injection Hx2 as <-; cbn [option_list];
    split; repeat first [by eapply injected_carries | by eapply tx_filter_within | constructor].
Qed.

Lemma transaction_within payload byName limits t : normalizeMongoTransactionPayload payload ts byName limits = Ok t ->
  Forall within (List.flat_map tx_filters (tr_operations t)) /\ Forall stamped (List.flat_map (fun o => option_list (previewed o)) (tr_operations t)).
Proof.
  unfold normalizeMongoTransactionPayload. intros H. bind_ok H. bind_ok H. destruct (js_get payload "operations") as [| | | | |[|v vs]|]; try done.
  destruct (_ <? _); [done|]. bind_ok H. cbv zeta in H. destruct (_ <? _); [done|]. bind_ok H. injection H as <-. cbn [tr_operations].
  pose proof (map_indexed_ok _ _ _ _ Hx1 (tx_within byName)) as Ho.
  split; apply Forall_flat_map; (eapply Forall_impl; [exact Ho|]); naive_solver.
Qed.

Lemma simple_stage_match limits path v stage : simple_stage limits path "$match" v = Ok stage -> isPlainObject (js_get stage "$match") = true.
Proof. unfold simple_stage. cbn [String.eqb Ascii.eqb Bool.eqb]. intros H. bind_ok H. injection H as <-. cbn. by eapply normalized_object. Qed.

Lemma simple_stage_name limits path name v stage : simple_stage limits path name v = Ok stage -> exists v', stage = JObj [(name, v')].
Proof.
  unfold simple_stage. intros H. destruct (String.eqb_spec name "$match") as [->|]; [bind_ok H; injection H as <-; eauto|].
  destruct (String.eqb_spec name "$project") as [->|]; [bind_ok H; injection H as <-; eauto|].
  destruct (String.eqb_spec name "$sort") as [->|]; [bind_ok H; destruct (_ <? _); [done|]; injection H as <-; eauto|].
  destruct (String.eqb_spec name "$limit") as [->|]; [bind_ok H; injection H as <-; eauto|].
  destruct (String.eqb_spec name "$skip") as [->|]; [bind_ok H; injection H as <-; eauto|].
  destruct v; try done; injection H as <-; eauto.
Qed.

Lemma stage_match kind limits i stage s stage' s' : normalizePipelineStage kind limits i stage s = Ok (stage', s') ->
  truthy (js_get stage' "$match") = true -> isPlainObject (js_get stage' "$match") = true.
Proof.
  intros H Ht. destruct stage as [| | | | | |[|[name v] [|]]]; try done. cbn [normalizePipelineStage] in H.
  destruct (stage_name kind _ _) as [n|] eqn:Hn; [|done]. assert (n = name) as ->.
  { unfold stage_name in Hn. repeat case_match; congruence. }
  destruct (String.eqb_spec name "$lookup") as [->|].
  { unfold lookup_stage in H. cbv zeta in H. repeat case_match; try done. injection H as <- <-. done. }
  destruct (String.eqb_spec name "$facet") as [->|].
  { bind_ok H. bind_ok H. injection H as <- <-. done. }
  bind_ok H. injection H as <- <-. destruct (String.eqb_spec name "$match") as [->|Hm]; [by eapply simple_stage_match|].
  destruct (simple_stage_name _ _ _ _ _ Hx) as [v' ->]. exfalso. unfold js_get in Ht. cbn [assoc_lookup] in Ht.
  by destruct (String.eqb_spec "$match" name); [congruence|].
Qed.

(** A pipeline begins with a match that selects no more than the scope's. *)
Lemma pipeline_led kind payload limits tenantFilter r : normalizeMongoDataPipeline kind limits payload (Some ts) = Ok r ->
  scope_match kind ts = Ok tenantFilter -> isPlainObject tenantFilter = true ->
  isPlainObject (leading_match r.1.1) = true /\ forall d, selects (leading_match r.1.1) d = true -> selects tenantFilter d = true.
Proof.
  unfold normalizeMongoDataPipeline. intros H Hm Ho. bind_ok H. bind_ok H. destruct x0 as [normalized s]. rewrite Hm in H. injection H as <-. cbn [fst].
  destruct normalized as [|first rest]; [by split|]. cbn [inject_scope]. destruct (truthy (js_get first "$match")) eqn:Ht; [|by split].
  change (leading_match (_ :: rest)) with (mergeFilters tenantFilter (js_get first "$match")).
  assert (Hf : isPlainObject (js_get first "$match") = true).
  { destruct x as [|stage stages]; [done|]. cbn [traverse_stages] in Hx0. destruct (normalizePipelineStage _ _ _ _ _) as [[stage' s']|] eqn:Hs; [|done].
    destruct (traverse_stages _ _ _ _) as [[rest' s'']|]; [|done]. injection Hx0 as <- <- <-. by eapply stage_match. }
  split; [by apply merged_object|]. intros d. rewrite selects_merged by done. by intros [H _]%andb_true_iff.
Qed.

Lemma pipeline_within payload limits r : normalizeMongoDataPipeline "aggregation" limits payload (Some ts) = Ok r -> within (leading_match r.1.1).
Proof.
  intros H. destruct (pipeline_led _ _ _ _ _ H match_filter eq_refl) as [Ho Hs]. split; [done|]. intros d Hd. rewrite <- selects_scope by done. by apply Hs.
Qed.

Lemma stream_within payload w db c bridge s : ts_fields ts <> [] -> normalizeMongoChangeStreamPayload payload ts w db c bridge = Ok s ->
  forall e, selects (leading_match (sm_pipeline s)) e = true -> event_in_scope (ts_fields ts) e = true.
Proof.
  clear rescope. intros Hne. unfold normalizeMongoChangeStreamPayload. intros H. bind_ok H. cbv zeta in H. bind_ok H. bind_ok H. bind_ok H. destruct x2 as [[pipeline n] summary].
  repeat bind_ok H. injection H as <-. cbn [sm_pipeline]. intros e He. rewrite <- stream_match_selects by done. revert e He.
  refine (proj2 (pipeline_led _ _ _ (buildChangeStreamTenantMatch ts) _ Hx2 eq_refl _)).
  unfold buildChangeStreamTenantMatch. by destruct (ts_fields ts) as [|f [|f2 fields]].
Qed.

End plans.

(** ** Every request *)

Section requests.
Context `{MQ : !MongoQueries, NT : !NumberText, ST : !SyntaxText, MR : !MetadataReader, MC : !MongoContracts}.

(** What the scope of a request is made of. *)
Record scope_of_request (r : mongo_request) (ts : tenant_scope) : Prop := {
  sr_tenant : normalizeNonEmptyString (mr_tenantId r) "tenantId" = Ok (ts_value ts);
  sr_path : normalizeFieldPath (path_or (mr_tenantFieldPath r) "tenantId") "tenantFieldPath" = Ok (ts_path ts);
  sr_workspace : exists w, ts_workspace ts = Some w /\ normalizeNonEmptyString (mr_workspaceId r) "workspaceId" = Ok (wo_value w) /\
    normalizeFieldPath (path_or (mr_workspaceFieldPath r) "workspaceId") "workspaceFieldPath" = Ok (wo_path w) /\
    ts_fields ts = [(ts_path ts, ts_value ts); (wo_path w, wo_value w)]
}.

Lemma cursor_branches_objects values equal sort : Forall (fun b => isPlainObject b = true) (cursor_branches values equal sort).
Proof. revert equal. induction sort as [|[f dir] sort IH]; intros equal; constructor; [done | apply IH]. Qed.

Lemma cursor_predicate_object sort cursor p : buildMongoCursorPredicate sort cursor = Some p -> isPlainObject p = true.
Proof.
  unfold buildMongoCursorPredicate. destruct cursor as [c|]; [|done]. pose proof (cursor_branches_objects (js_get c "values") [] sort) as H.
  destruct (cursor_branches _ _ _) as [|b [|b' bs]]; intros [= <-]; try done. by apply Forall_cons in H as [H _].
Qed.

Lemma basis_scope operation r b : build_basis operation r = Ok b ->
  exists f0, applyTenantScopeToFilter (mr_filter r) (mr_tenantId r) (mr_tenantFieldPath r) (JStr (ba_workspace b)) (mr_workspaceFieldPath r) = Ok (ba_scope b, f0) /\
    ba_filter b = with_cursor f0 (ba_predicate b) /\ (forall p, ba_predicate b = Some p -> isPlainObject p = true) /\ scope_of_request r (ba_scope b).
Proof.
  unfold build_basis. intros H. bind_ok H. bind_ok H. bind_ok H. bind_ok H. bind_ok H. bind_ok H. bind_ok H. bind_ok H. bind_ok H.
  destruct x7 as [ts f0]. cbv zeta in H. bind_ok H. bind_ok H. bind_ok H. bind_ok H. injection H as <-.
  cbn [ba_workspace ba_scope ba_filter ba_predicate]. exists f0. split; [exact Hx7|]. split; [done|]. split; [apply cursor_predicate_object|].
  destruct (scoped_parts _ _ _ _ _ _ _ Hx7) as (nf & kvs & _ & _ & _ & Hfields & _ & Ht & Hp & Hw). split; [done..|].
  destruct (ts_workspace ts) as [w|]; [|done]. destruct Hw as [Hw1 Hw2]. exists w. split; [done|].
  rewrite (nonempty_again _ _ _ Hx) in Hw1. injection Hw1 as Hw1. rewrite Hw1 in Hx. by split_and!.
Qed.

Lemma basis_filter operation r b : build_basis operation r = Ok b -> simple_fields (ts_fields (ba_scope b)) -> confined (ts_fields (ba_scope b)) (ba_filter b).
Proof.
  intros H Hs. destruct (basis_scope _ _ _ H) as (f0 & Hf & -> & Hp & _). unfold with_cursor. destruct (ba_predicate b) as [p|] eqn:E.
  - apply confined_merge; [by eapply scoped_confined | by apply Hp].
  - by eapply scoped_confined.
Qed.

Lemma plan_within r p : buildMongoDataApiPlan r = Ok p -> simple_fields (ts_fields (mp_scope p)) ->
  scope_of_request r (mp_scope p) /\ Forall (confined (ts_fields (mp_scope p))) (filters_of (mp_detail p)) /\
  Forall (carries (ts_fields (mp_scope p))) (written_documents (mp_detail p)).
Proof.
  unfold buildMongoDataApiPlan. destruct (mr_operation r) as [| | | |operation| |]; try done. destruct (negb _); [done|]. intros H. bind_ok H. bind_ok H. injection H as <-.
  cbn [mp_scope mp_detail]. intros Hs. rename x into b, Hx into Hb, x0 into detail, Hx0 into Hd. pose proof (basis_filter _ _ _ Hb Hs) as Hf.
  destruct (basis_scope _ _ _ Hb) as (f0 & Hf0 & _ & _ & Hr). split; [done|].
  pose proof (fun filter f => rescoped _ _ _ _ _ _ _ filter f Hf0 Hs) as Hre.
  assert (Hone : confined (ts_fields (ba_scope b)) (document_filter b)) by by apply confined_merge.
  unfold plan_detail_of in Hd. destruct (String.eqb operation "list"); [injection Hd as <-; repeat constructor; apply Hf|].
  destruct (str_in operation _); [injection Hd as <-; repeat constructor; apply Hone|].
  unfold plan_payload in Hd. cbv zeta in Hd.
  repeat match type of Hd with (if String.eqb operation _ then _ else _) = _ => destruct (String.eqb operation _) end.
  - unfold plan_insert in Hd. repeat bind_ok Hd. injection Hd as <-. repeat constructor. by eapply injected_carries.
  - unfold plan_replace in Hd. repeat bind_ok Hd. injection Hd as <-. repeat constructor; [apply Hone | apply Hone |]. by eapply injected_carries.
  - unfold plan_update in Hd. repeat bind_ok Hd. injection Hd as <-. repeat constructor; apply Hone.
  - bind_ok Hd. injection Hd as <-. by eapply bulk_plan_within.
  - unfold plan_aggregate in Hd. repeat bind_ok Hd. destruct x3 as [[pipeline n] summary]. bind_ok Hd. injection Hd as <-. split; [|constructor].
    constructor; [|constructor]. by eapply (pipeline_within _ Hs _ _ _ Hx3).
  - bind_ok Hd. injection Hd as <-. by eapply import_within.
  - bind_ok Hd. injection Hd as <-. unfold normalizeMongoExportPayload in Hx. repeat bind_ok Hx. injection Hx as <-. split; [|constructor].
    constructor; [|constructor]. by eapply Hre.
  - unfold plan_transaction in Hd. repeat bind_ok Hd. injection Hd as <-. by eapply transaction_within.
  - unfold plan_change_stream in Hd. bind_ok Hd. destruct (ba_collection b); [|done]. repeat bind_ok Hd. injection Hd as <-. by split; constructor.
Qed.

Lemma plan_watches r p : buildMongoDataApiPlan r = Ok p -> simple_fields (ts_fields (mp_scope p)) ->
  forall f e, f ∈ event_filters_of (mp_detail p) -> selects f e = true -> event_in_scope (ts_fields (mp_scope p)) e = true.
Proof.
  unfold buildMongoDataApiPlan. destruct (mr_operation r) as [| | | |operation| |]; try done. destruct (negb _); [done|]. intros H. bind_ok H. bind_ok H. injection H as <-.
  cbn [mp_scope mp_detail]. intros Hs f e. rename x into b, Hx into Hb, x0 into detail, Hx0 into Hd. destruct (basis_scope _ _ _ Hb) as (f0 & _ & _ & _ & Hr).
  assert (Hother : (forall s, detail <> StreamDetail s) -> f ∈ event_filters_of detail -> selects f e = true -> event_in_scope (ts_fields (ba_scope b)) e = true).
  { intros Hno Hf. destruct detail; try (by apply not_elem_of_nil in Hf). by destruct (Hno stream). }
  unfold plan_detail_of in Hd. destruct (String.eqb operation "list"); [injection Hd as <-; by apply Hother|]. destruct (str_in operation _); [injection Hd as <-; by apply Hother|].
  unfold plan_payload in Hd. cbv zeta in Hd.
  repeat match type of Hd with (if String.eqb operation _ then _ else _) = _ => destruct (String.eqb operation _) end;
    unfold plan_insert, plan_replace, plan_update, plan_aggregate, plan_transaction, plan_change_stream in Hd.
  9: { bind_ok Hd. destruct (ba_collection b); [|done]. repeat bind_ok Hd. injection Hd as <-. intros ->%list_elem_of_singleton. eapply (stream_within (ba_scope b) Hs); [|exact Hx1].
       destruct (sr_workspace _ _ Hr) as (w & _ & _ & _ & ->). done. }
  all: apply Hother; repeat bind_ok Hd; repeat case_match; repeat bind_ok Hd; by injection Hd as <-.
Qed.

(** C24: every filter with which a plan of the MongoDB data API reaches documents,
    for reads, changes and deletions, in bulk, in a transaction, an import or an
    export, and in front of a pipeline, selects only documents of the tenant and
    the workspace of the request, whatever filter, cursor or identifier it gave; and
    a change stream first selects only the events that show the tenant and the
    workspace in the document, in its image from before or in the updated fields.
    The names of the scope fields are distinct and without dots, as the executor's
    are. The collection that a [$lookup] joins is not filtered. *)
Theorem plans_filter_within_the_scope r p : buildMongoDataApiPlan r = Ok p -> simple_fields (ts_fields (mp_scope p)) ->
  scope_of_request r (mp_scope p) /\
  (forall f d, f ∈ filters_of (mp_detail p) -> selects f d = true -> in_scope (ts_fields (mp_scope p)) d = true) /\
  (forall f e, f ∈ event_filters_of (mp_detail p) -> selects f e = true -> event_in_scope (ts_fields (mp_scope p)) e = true).
Proof.
  intros H Hs. destruct (plan_within _ _ H Hs) as (Hr & Hf & _). split; [done|]. split; [|by eapply plan_watches].
  intros f d Hin. by apply (proj1 (Forall_forall _ _) Hf f Hin).
Qed.

Lemma written_documents_of r p d : buildMongoDataApiPlan r = Ok p -> simple_fields (ts_fields (mp_scope p)) ->
  d ∈ written_documents (mp_detail p) -> carries (ts_fields (mp_scope p)) d.
Proof. intros H Hs. destruct (plan_within _ _ H Hs) as (_ & _ & Hw). apply (proj1 (Forall_forall _ _) Hw). Qed.

(** C25: every document a plan inserts or puts in the place of another carries the
    tenant and the workspace of the request in its scope fields. *)
Theorem written_documents_carry_the_scope r p d : buildMongoDataApiPlan r = Ok p -> simple_fields (ts_fields (mp_scope p)) ->
  d ∈ written_documents (mp_detail p) -> carries (ts_fields (mp_scope p)) d.
Proof. apply written_documents_of. Qed.

End requests.

(** ** Samples *)

Lemma acme_simple : simple_fields acme_fields.
Proof.
  split; [apply (bool_decide_unpack _); vm_compute; exact I|]. repeat constructor.
Qed.

(** A planned request, and the scope it was planned in. *)
Definition planned_for_acme (r : mongo_request) : bool :=
  match sample_plan r with Ok p => bool_decide (ts_fields (mp_scope p) = acme_fields) | Err _ => false end.

Lemma acme_plan r : planned_for_acme r = true -> exists p, sample_plan r = Ok p /\ ts_fields (mp_scope p) = acme_fields.
Proof. unfold planned_for_acme. destruct (sample_plan r) as [p|]; [|done]. intros H%bool_decide_eq_true. eauto. Qed.

Notation get_call := (mongo_call "get" (JStr "o1") (JObj [("state", JStr "open")]) (JObj [])).
Notation import_call := (mongo_call "import" JUndef JUndef
  (JObj [("mode", JStr "upsert"); ("documents", JArr [JObj [("_id", JStr "o1"); ("tenantId", JStr "acme")]])])).

(** A request to watch a collection, with a match of its own. *)
Notation watch_call := (mongo_call "change_stream" JUndef JUndef
  (JObj [("pipeline", JArr [JObj [("$match", JObj [("operationType", JStr "update")])]])])).

(** An update of a document, as a change stream shows it. *)
Definition update_event (tenant : string) : js_object :=
  [("operationType", JStr "update"); ("fullDocument", JObj [("tenantId", JStr tenant); ("workspaceId", JStr "ws1")])].

Lemma plans_filter_within_the_scope_witness :
  (exists p, sample_plan get_call = Ok p /\ forall f d, f ∈ filters_of (mp_detail p) -> sample_selects f d = true -> in_scope acme_fields d = true) /\
  (exists p f, sample_plan watch_call = Ok p /\ event_filters_of (mp_detail p) = [f] /\ sample_selects f (update_event "acme") = true /\
     forall e, sample_selects f e = true -> event_in_scope acme_fields e = true).
Proof.
  pose proof (fun r p H => @plans_filter_within_the_scope sample_queries sample_number_text sample_syntax sample_metadata sample_contracts r p H) as Hall. split.
  - destruct (acme_plan get_call) as (p & Hp & Hs); [vm_compute; reflexivity|]. exists p. split; [exact Hp|].
    pose proof (Hall get_call p Hp) as H. rewrite Hs in H. exact (proj1 (proj2 (H acme_simple))).
  - destruct (acme_plan watch_call) as (p & Hp & Hs); [vm_compute; reflexivity|]. pose proof (Hall watch_call p Hp) as H. rewrite Hs in H.
    destruct (proj2 (H acme_simple)) as [_ He]. clear H Hs. exists p. vm_compute in Hp. injection Hp as <-. eexists. split; [vm_compute; reflexivity|].
    split; [reflexivity|]. split; [vm_compute; reflexivity|]. intros e. apply He. left.
Defined.

Lemma written_documents_carry_the_scope_witness : exists p, sample_plan import_call = Ok p /\
  (forall d, d ∈ written_documents (mp_detail p) -> carries acme_fields d).
Proof.
  destruct (acme_plan import_call) as (p & Hp & Hs); [vm_compute; reflexivity|]. exists p. split; [exact Hp|]. intros d. rewrite <- Hs.
  apply (@written_documents_carry_the_scope sample_queries sample_number_text sample_syntax sample_metadata sample_contracts import_call p d Hp).
  rewrite Hs. exact acme_simple.
Defined.

(** An update is not held to the scope: the plan of an update that moves a
    document to another tenant is made. *)
Theorem update_may_leave_the_scope : exists p,
  sample_plan (mongo_call "update" (JStr "o1") JUndef (JObj [("update", JObj [("$set", JObj [("tenantId", JStr "other")])])])) = Ok p /\
  match mp_detail p with UpdateDetail _ update _ _ => update = [("$set", [("tenantId", JStr "other")])] | _ => False end.
Proof. eexists. split; [vm_compute; reflexivity|]. reflexivity. Qed.

(** The pipeline of a [$lookup] and the collection it reads pass as they are. *)
Theorem lookup_is_not_scoped : exists p,
  sample_plan (mongo_call "aggregate" JUndef JUndef (JObj [("pipeline", JArr [JObj [("$lookup", JObj [("from", JStr "orders"); ("pipeline", JArr []); ("as", JStr "all")])]])])) = Ok p /\
  match mp_detail p with
  | AggregateDetail pipeline _ _ _ _ => pipeline = [JObj [("$match", JObj [("tenantId", JStr "acme"); ("workspaceId", JStr "ws1")])];
                                                    JObj [("$lookup", JObj [("from", JStr "orders"); ("pipeline", JArr []); ("as", JStr "all")])]]
  | _ => False
  end.
Proof. eexists. split; [vm_compute; reflexivity|]. reflexivity. Qed.
