(* ===== verification/MongoExecutor.v ===== *)
(** * Running a plan of the MongoDB data API

    src/apps/control-plane-executor/src/runtime/mongo-data-executor.mjs.  The
    driver, with the server behind it, and the resolution of connection strings
    are parameters; a plan for an operation on many documents is not run. *)
From S2P Require Import Prelude JsValue Json Regex PgTable PgExecutor MongoFilter MongoWrite MongoPipeline MongoTransfer MongoPlan.
From Stdlib Require Import Ascii.
Local Open Scope Z_scope.

(** A collection: connection string, database, name. *)
Record collection_ref := mk_collection { cr_uri : string; cr_database : jsval; cr_name : jsval }.

Record update_result := mk_update_result { ur_matched : Z; ur_modified : Z; ur_upserted : jsval }.

(** The package [mongodb]; a document holds JavaScript values and what the
    driver makes of BSON ones. *)
Class MongoDriver (D : Type) := {
  object_id : string -> jsval;
  bson_json : jsval -> jsval;
  mg_connect : string -> D -> result js_error unit;
  mg_find : collection_ref -> jsval -> option (list (string * Z)) -> list (string * Z) -> Z -> D -> result js_error (list js_object);
  mg_find_one : collection_ref -> jsval -> option (list (string * Z)) -> D -> result js_error (option js_object);
  mg_insert_one : collection_ref -> js_object -> D -> result js_error jsval * D;
  mg_update_one : collection_ref -> jsval -> list (string * js_object) -> bool -> D -> result js_error update_result * D;
  mg_replace_one : collection_ref -> jsval -> js_object -> bool -> D -> result js_error update_result * D;
  mg_delete_one : collection_ref -> jsval -> D -> result js_error Z * D
}.

(** [options]: the connection string of a workspace, empty when there is none. *)
Class MongoOptions := { resolveUri : jsval -> jsval -> result js_error string; options_topology : jsval }.

Definition OBJECT_ID_HEX : re := rtimes 24 (RCls (fun c => is_digit c || ((97 <=? code c) && (code c <=? 102) || (65 <=? code c) && (code c <=? 70))%N)).

Section executor.
Context {D : Type} `{NT : !NumberText, ST : !SyntaxText, MR : !MetadataReader, MC : !MongoContracts, MD : !MongoDriver D, MO : !MongoOptions}.

(** ** Identifiers *)

Definition either_id (hex : string) : jsval := JObj [("$or", JArr [JObj [("_id", object_id hex)]; JObj [("_id", JStr hex)]])].

(** An identifier as 24 hexadecimal digits. *)
Definition hex_id (key : string) (v : jsval) : option string :=
  match v with JStr s => if String.eqb key "_id" && re_test_full OBJECT_ID_HEX s then Some s else None | _ => None end.

Definition logical (key : string) : bool := str_in key ["$and"; "$or"; "$nor"].

Fixpoint coerceDocumentIdFilter (node : jsval) : jsval :=
  match node with
  | JArr xs => JArr (List.map coerceDocumentIdFilter xs)
  | JObj kvs =>
      let idOr := foldl (fun acc kv => match hex_id kv.1 kv.2 with Some hex => Some (either_id hex) | None => acc end) None kvs in
      let rewritten := List.flat_map (fun kv =>
        match hex_id kv.1 kv.2 with
        | Some _ => []
        | None => [(kv.1, if logical kv.1 then match kv.2 with JArr xs => JArr (List.map coerceDocumentIdFilter xs) | v => v end else kv.2)]
        end) kvs in
      match idOr with
      | None => JObj rewritten
      | Some id =>
          match rewritten with
          | [] => id
          | _ => if has_own (JObj rewritten) "$or" then JObj [("$and", JArr [JObj rewritten; id])]
                 else match id with JObj ids => JObj (rewritten ++ ids) | _ => JObj rewritten end
          end
      end
  | _ => node
  end.

(** ** Connections *)

Record mongo_state := mk_mongo_state { ms_clients : list string; ms_data : D }.

Notation run := (M mongo_state js_error).

Definition clientFor (uri : string) : run unit := fun s =>
  if str_in uri (ms_clients s) then (Ok tt, s)
  else match mg_connect uri (ms_data s) with
       | Ok _ => (Ok tt, mk_mongo_state (ms_clients s ++ [uri]) (ms_data s))
       | Err e => (Err e, s)
       end.

Definition resolve_uri (workspaceId identity : jsval) : result js_error string :=
  uri ← resolveUri workspaceId identity;
  if nonempty uri then Ok uri
  else Err (clientError ("No MongoDB is provisioned for workspace " +:+ js_to_string workspaceId) 503 "WORKSPACE_DB_UNRESOLVED").

(** The driver reads the data; it may change them. *)
Definition reading {A} (f : D -> result js_error A) : run A := fun s => (f (ms_data s), s).
Definition writing {A} (f : D -> result js_error A * D) : run A := fun s => let '(res, d) := f (ms_data s) in (res, mk_mongo_state (ms_clients s) d).

(** ** Answers *)

(** The cursor after a full page, when its last document has every field of the order. *)
Definition next_page (sort : list (string * Z)) (limit : Z) (items : list js_object) : option string :=
  match last items with
  | Some lastDoc =>
      if (limit <=? Z.of_nat (length items)) && forallb (fun e : string * Z => negb (is_undef (js_get (JObj lastDoc) e.1))) sort
      then Some (encodeMongoDataCursor (JObj [("values", JObj (from_entries ((fun e : string * Z => (e.1, bson_json (js_get (JObj lastDoc) e.1))) <$> sort)))]))
      else None
  | None => None
  end.

Definition list_answer (sort : list (string * Z)) (limit : Z) (items : list js_object) : jsval :=
  JObj [("items", JArr (JObj <$> items));
        ("page", JObj [("size", jint limit); ("returned", jint (Z.of_nat (length items)));
                       ("after", match next_page sort limit items with Some c => JStr c | None => JUndef end)])].

Definition item_answer (item : option js_object) : jsval :=
  JObj [("found", JBool (bool_decide (is_Some item))); ("item", match item with Some d => JObj d | None => JNull end)].

Definition update_answer (u : update_result) : jsval :=
  JObj [("matched", jint (ur_matched u)); ("modified", jint (ur_modified u)); ("upsertedId", coalesce (ur_upserted u) JNull)].

(** The driver gives a document without an identifier the one it inserted. *)
Definition insert_answer (document : js_object) (insertedId : jsval) : jsval :=
  JObj [("item", JObj (assoc_set "_id" (coalesce (js_get (JObj document) "_id") insertedId) document)); ("insertedId", insertedId)].

Definition unsupported_operation (operation : string) : js_error :=
  clientError ("Operation " +:+ operation +:+ " is not yet executed by the Mongo executor") 400 "UNSUPPORTED_OPERATION".

(** The operation says what is run; its plan has the members it needs. *)
Definition run_plan (c : collection_ref) (p : mongo_plan) : run jsval :=
  let operation := mp_operation p in
  match mp_detail p with
  | ReadDetail q =>
      if String.eqb operation "list" then
        let sort := default [("_id", 1)] (qu_sort q) in
        items ← reading (mg_find c (qu_filter q) (qu_projection q) sort (qu_limit q)); mret (list_answer sort (qu_limit q) items)
      else if String.eqb operation "get" then
        item ← reading (mg_find_one c (coerceDocumentIdFilter (qu_filter q)) (qu_projection q)); mret (item_answer item)
      else n ← writing (mg_delete_one c (coerceDocumentIdFilter (qu_filter q))); mret (JObj [("deleted", jint n)])
  | InsertDetail document _ => id ← writing (mg_insert_one c document); mret (insert_answer document id)
  | UpdateDetail q update _ upsert => u ← writing (mg_update_one c (coerceDocumentIdFilter (qu_filter q)) update upsert); mret (update_answer u)
  | ReplaceDetail q replacement _ upsert => u ← writing (mg_replace_one c (coerceDocumentIdFilter (qu_filter q)) replacement upsert); mret (update_answer u)
  | _ => throw (unsupported_operation operation)
  end.

(** ** The executor *)

(** [params]; [pa_identity] is [{}] when there is none. *)
Record mongo_params := mk_params {
  pa_operation : jsval;
  pa_workspaceId : jsval;
  pa_databaseName : jsval;
  pa_collectionName : jsval;
  pa_documentId : jsval;
  pa_filter : jsval;
  pa_projection : jsval;
  pa_sort : jsval;
  pa_page : jsval;
  pa_payload : jsval;
  pa_identity : jsval
}.

Definition executor_request (p : mongo_params) (workspaceId : jsval) : mongo_request :=
  let identity := coalesce (pa_identity p) (JObj []) in
  mk_mongo_request (coalesce (pa_operation p) (JStr "list")) workspaceId (pa_databaseName p) (pa_collectionName p) (pa_documentId p)
    (js_get identity "tenantId") JUndef JUndef (pa_filter p) (pa_projection p) (pa_sort p) (coalesce (pa_page p) (JObj [])) (coalesce (pa_payload p) (JObj []))
    no_metadata [] [] (JObj [("effectiveRoleName", js_get identity "roleName")]) (JObj []) (coalesce options_topology (JObj [])) (JObj []).

Definition rejected (e : mongo_error) : js_error := clientError (me_message e) (default 400 (me_status e)) (default "PLAN_REJECTED" (me_code e)).

Definition opaque_mongo_error (e : js_error) : js_error :=
  match err_status e with
  | Some 0 | None => clientError "MongoDB operation failed" 500 "MONGO_ERROR"
  | Some _ => e
  end.

Definition mongo_identity (p : mongo_params) : result js_error (jsval * jsval) :=
  let identity := coalesce (pa_identity p) (JObj []) in
  let workspaceId := coalesce (pa_workspaceId p) (js_get identity "workspaceId") in
  if negb (truthy (js_get identity "tenantId")) then Err (clientError "Missing tenant identity" 401 "IDENTITY_MISSING")
  else if negb (truthy workspaceId) then Err (clientError "Missing workspace" 400 "WORKSPACE_MISSING")
  else Ok (identity, workspaceId).

Definition plan_mongo (p : mongo_params) (workspaceId : jsval) : result js_error mongo_plan :=
  match buildMongoDataApiPlan (executor_request p workspaceId) with Ok plan => Ok plan | Err e => Err (rejected e) end.

Definition executeMongoData (p : mongo_params) : run jsval :=
  who ← lift (mongo_identity p);
  let '(identity, workspaceId) := (who : jsval * jsval) in
  plan ← lift (plan_mongo p workspaceId);
  uri ← lift (resolve_uri workspaceId identity);
  _ ← clientFor uri;
  try_catch (run_plan (mk_collection uri (pa_databaseName p) (pa_collectionName p)) plan) (fun e => throw (opaque_mongo_error e)).

(** Every connection is closed, failures ignored, and the next request connects
    again. *)
Definition close : run unit := fun s => (Ok tt, mk_mongo_state [] (ms_data s)).

End executor.
