(* ===== verification/MongoServer.v ===== *)
(** * What a MongoDB request reads and changes

    The documents of the server, what a driver's operations may do to them, and
    the proof that a request sees and changes documents of its own scope only. *)
From S2P Require Import Prelude JsValue Json Regex PgTable PgSemantics PgExecutor MongoFilter MongoWrite MongoPipeline MongoTransfer MongoPlan MongoQuery MongoScope MongoExecutor.
From Stdlib Require Import Ascii.
Local Open Scope Z_scope.

(** ** Identifiers as text or as ObjectId *)

(** The filter starts with the fields of the scope. *)
Inductive leads (fields : list (string * string)) : jsval -> Prop :=
| leads_scope : leads fields (JObj ((fun f => (f.1, JStr f.2)) <$> fields))
| leads_merged l r : leads fields l -> isPlainObject r = true -> leads fields (mergeFilters l r).

Definition plain_fields (fields : list (string * string)) : Prop := Forall (fun f => f.1 <> "_id" /\ logical f.1 = false) fields.

Section coercion.
Context {D : Type} `{MQ : !MongoQueries, MD : !MongoDriver D}.

Lemma coerce_scope fields : plain_fields fields ->
  coerceDocumentIdFilter (JObj ((fun f => (f.1, JStr f.2)) <$> fields)) = JObj ((fun f => (f.1, JStr f.2)) <$> fields).
Proof.
  intros H. cbn [coerceDocumentIdFilter].
  assert (Hno : forall acc, foldl (fun acc (kv : string * jsval) => match hex_id kv.1 kv.2 with Some hex => Some (either_id hex) | None => acc end) acc
                              ((fun f => (f.1, JStr f.2)) <$> fields) = acc).
  { induction H as [|f fields [Hf _] _ IH]; intros acc; [done|]. cbn [fmap list_fmap foldl fst snd hex_id].
    destruct (String.eqb_spec f.1 "_id"); [done|]. cbn [andb]. apply IH. }
  rewrite Hno. f_equal. clear Hno. induction H as [|f fields [Hf Hl] _ IH]; [done|]. cbn [fmap list_fmap List.flat_map fst snd hex_id].
  destruct (String.eqb_spec f.1 "_id"); [done|]. cbn [andb]. rewrite Hl. cbn [app]. by rewrite IH.
Qed.

Lemma coerce_and l r : coerceDocumentIdFilter (JObj [("$and", JArr [l; r])]) = JObj [("$and", JArr [coerceDocumentIdFilter l; coerceDocumentIdFilter r])].
Proof. done. Qed.

Lemma coerced_leads fields f d : simple_fields fields -> plain_fields fields -> leads fields f -> selects (coerceDocumentIdFilter f) d = true -> in_scope fields d = true.
Proof.
  intros Hs Hp H. revert d. induction H as [|l r Hl IH Hr]; intros d.
  - rewrite coerce_scope by done. by rewrite selects_scope.
  - unfold mergeFilters. assert (Hlo : isPlainObject l = true) by (clear - Hl; induction Hl; [done | by apply merged_object]).
    destruct l as [| | | | | |lk]; try done. destruct r as [| | | | | |rk]; try done. destruct (no_filter_of (JObj lk)) eqn:El.
    + intros _. apply IH. destruct lk; [|done]. cbn. apply selects_nothing.
    + destruct (no_filter_of (JObj rk)); [apply IH|]. rewrite coerce_and, selects_and by done. cbn [forallb]. rewrite andb_true_iff. intros [H _]. by apply IH.
Qed.

(** An identifier of 24 hexadecimal digits is looked up as an ObjectId as well. *)
Lemma coerced_identifier hex d : re_test_full OBJECT_ID_HEX hex = true ->
  selects (coerceDocumentIdFilter (JObj [("_id", JStr hex)])) d = selects (JObj [("_id", object_id hex)]) d || selects (JObj [("_id", JStr hex)]) d.
Proof.
  intros H. cbn [coerceDocumentIdFilter foldl List.flat_map fst snd hex_id]. rewrite (String.eqb_refl "_id"), H. cbn [andb app]. unfold either_id.
  rewrite selects_or by done. cbn. by rewrite orb_false_r.
Qed.

Lemma coerced_other_identifier id d : re_test_full OBJECT_ID_HEX id = false -> selects (coerceDocumentIdFilter (JObj [("_id", JStr id)])) d = selects (JObj [("_id", JStr id)]) d.
Proof. intros H. cbn [coerceDocumentIdFilter foldl List.flat_map fst snd hex_id]. by rewrite (String.eqb_refl "_id"), H. Qed.

End coercion.

(** ** The documents of a server *)

(** At most one selected document changes into one that may be written, or such a
    document is added. *)
Inductive one_write `{!MongoQueries} (f : jsval) (written : js_object -> Prop) : list js_object -> list js_object -> Prop :=
| write_nothing l : one_write f written l l
| write_one l1 x y l2 : selects f x = true -> written y -> one_write f written (l1 ++ x :: l2) (l1 ++ y :: l2)
| write_new l y : written y -> one_write f written l (l ++ [y]).

Inductive one_deletion `{!MongoQueries} (f : jsval) : list js_object -> list js_object -> Prop :=
| delete_nothing l : one_deletion f l l
| delete_one l1 x l2 : selects f x = true -> one_deletion f (l1 ++ x :: l2) (l1 ++ l2).

(** The same document but for its identifier. *)
Definition same_but_id (x y : js_object) : Prop := forall k, k <> "_id" -> js_get (JObj y) k = js_get (JObj x) k.

(** What the driver and the server do with one operation, the failed included. *)
Class MongoServer (D : Type) `{MQ : !MongoQueries, MD : !MongoDriver D} := {
  stored : collection_ref -> D -> list js_object;
  shown : option (list (string * Z)) -> js_object -> js_object;
  find_shows c f p sort n d items : mg_find c f p sort n d = Ok items ->
    Forall (fun i => exists x, x ∈ stored c d /\ selects f x = true /\ i = shown p x) items;
  find_one_shows c f p d i : mg_find_one c f p d = Ok (Some i) -> exists x, x ∈ stored c d /\ selects f x = true /\ i = shown p x;
  insert_adds c x d : stored c (snd (mg_insert_one c x d)) = stored c d \/
    exists y, same_but_id x y /\ stored c (snd (mg_insert_one c x d)) = stored c d ++ [y];
  update_writes c f u upsert d : one_write f (fun _ => True) (stored c d) (stored c (snd (mg_update_one c f u upsert d)));
  replace_writes c f x upsert d : one_write f (same_but_id x) (stored c d) (stored c (snd (mg_replace_one c f x upsert d)));
  delete_deletes c f d : one_deletion f (stored c d) (stored c (snd (mg_delete_one c f d)));
  others_kept c c' d : c' <> c ->
    (forall x, stored c' (snd (mg_insert_one c x d)) = stored c' d) /\
    (forall f u upsert, stored c' (snd (mg_update_one c f u upsert d)) = stored c' d) /\
    (forall f x upsert, stored c' (snd (mg_replace_one c f x upsert d)) = stored c' d) /\
    (forall f, stored c' (snd (mg_delete_one c f d)) = stored c' d)
}.

(** ** Requests *)

#[local] Instance collection_decision : EqDecision collection_ref.
Proof. solve_decision. Defined.

Section requests.
Context {D : Type} `{MQ : !MongoQueries, MD : !MongoDriver D, MS : !MongoServer D}.
Context `{NT : !NumberText, ST : !SyntaxText, MR : !MetadataReader, MC : !MongoContracts, MO : !MongoOptions}.

(** The scope of a caller: the names are the executor's. *)
Definition caller_fields (p : mongo_params) : list (string * string) :=
  let identity := coalesce (pa_identity p) (JObj []) in
  [("tenantId", trim (js_to_string (js_get identity "tenantId")));
   ("workspaceId", trim (js_to_string (coalesce (pa_workspaceId p) (js_get identity "workspaceId"))))].

(** The documents of everybody else. *)
Definition others (fields : list (string * string)) (l : list js_object) : list js_object := List.filter (fun d => negb (in_scope fields d)) l.

Lemma caller_simple p : simple_fields (caller_fields p).
Proof. split; [apply (bool_decide_unpack _); vm_compute; exact I|]. repeat constructor. Qed.

Lemma caller_plain p : plain_fields (caller_fields p).
Proof. repeat constructor; discriminate. Qed.

Lemma trimmed v name s : normalizeNonEmptyString v name = Ok s -> s = trim (js_to_string v).
Proof. destruct v; try done. cbn. destruct (String.eqb _ _); [done|]. by intros [= <-]. Qed.

(** What a plan of the executor is: its scope, its filters, what it writes. *)
Lemma executor_plan p identity w plan : mongo_identity p = Ok (identity, w) -> plan_mongo p w = Ok plan ->
  ts_fields (mp_scope plan) = caller_fields p /\ buildMongoDataApiPlan (executor_request p w) = Ok plan.
Proof.
  unfold mongo_identity, plan_mongo. intros Hi. destruct (negb _); [done|]. destruct (negb _); [done|]. injection Hi as <- <-.
  destruct (buildMongoDataApiPlan _) as [plan'|] eqn:Hp; [|done]. intros [= <-]. split; [|done].
  unfold buildMongoDataApiPlan in Hp. destruct (mr_operation _) as [| | | |op| |]; try done. destruct (negb _); [done|].
  rewrite result_bind_ok in Hp. destruct Hp as (b & Hb & Hp). rewrite result_bind_ok in Hp. destruct Hp as (detail & _ & Hp). injection Hp as <-. cbn [mp_scope].
  destruct (basis_scope _ _ _ Hb) as (_ & _ & _ & _ & [Ht Hpath (v & _ & Hw & Hwp & ->)]). unfold caller_fields.
  apply trimmed in Ht, Hw. cbn [mr_tenantId mr_workspaceId executor_request] in Ht, Hw. cbn [mr_tenantFieldPath mr_workspaceFieldPath executor_request path_or] in Hpath, Hwp.
  change (normalizeFieldPath (JStr "tenantId") "tenantFieldPath") with (@Ok mongo_error string "tenantId") in Hpath.
  change (normalizeFieldPath (JStr "workspaceId") "workspaceFieldPath") with (@Ok mongo_error string "workspaceId") in Hwp.
  assert (ts_path (ba_scope b) = "tenantId") as -> by congruence. assert (wo_path v = "workspaceId") as -> by congruence. by rewrite Ht, Hw.
Qed.

Definition asks_update (p : mongo_params) : bool := bool_decide (coalesce (pa_operation p) (JStr "list") = JStr "update").

(** The filter of a plan with one query starts with the scope, and only an update
    is planned as one. *)
Lemma plan_leads p identity w plan : mongo_identity p = Ok (identity, w) -> plan_mongo p w = Ok plan ->
  match mp_detail plan with
  | ReadDetail q | ReplaceDetail q _ _ _ => leads (caller_fields p) (qu_filter q)
  | UpdateDetail q _ _ _ => leads (caller_fields p) (qu_filter q) /\ asks_update p = true
  | _ => True
  end.
Proof.
  intros Hi Hplan. destruct (executor_plan _ _ _ _ Hi Hplan) as [Hfields Hp]. rewrite <- Hfields.
  assert (Hs : simple_fields (ts_fields (mp_scope plan))) by (rewrite Hfields; apply caller_simple). clear Hfields Hplan.
  unfold buildMongoDataApiPlan in Hp. destruct (mr_operation _) as [| | | |op| |] eqn:Hop; try done. destruct (negb _); [done|].
  rewrite result_bind_ok in Hp. destruct Hp as (b & Hb & Hp). rewrite result_bind_ok in Hp. destruct Hp as (detail & Hd & Hp). injection Hp as <-.
  cbn [mp_scope mp_detail mr_operation executor_request] in *. destruct (basis_scope _ _ _ Hb) as (f0 & Hf0 & Hf & Hpred & _).
  assert (Hlead : leads (ts_fields (ba_scope b)) (ba_filter b)).
  { destruct (scoped_parts _ _ _ _ _ _ _ Hf0) as (nf & kvs & Hn & Hk & -> & _). rewrite scope_object_simple in Hk by done. injection Hk as <-. rewrite Hf. unfold with_cursor.
    assert (leads (ts_fields (ba_scope b)) (mergeFilters (JObj ((fun f => (f.1, JStr f.2)) <$> ts_fields (ba_scope b))) nf)).
    { apply leads_merged; [constructor | by eapply normalized_object]. }
    destruct (ba_predicate b); [|done]. apply leads_merged; [done | by apply Hpred]. }
  assert (Hdoc : leads (ts_fields (ba_scope b)) (document_filter b)) by by apply leads_merged.
  unfold plan_detail_of in Hd. destruct (String.eqb op "list"); [by injection Hd as <-|].
  destruct (str_in op _); [by injection Hd as <-|]. unfold plan_payload in Hd. cbv zeta in Hd.
  repeat match type of Hd with (if String.eqb op ?k then _ else _) = _ => destruct (String.eqb_spec op k) end.
  - unfold plan_insert in Hd. repeat bind_ok Hd. by injection Hd as <-.
  - unfold plan_replace in Hd. repeat bind_ok Hd. by injection Hd as <-.
  - unfold plan_update in Hd. repeat bind_ok Hd. injection Hd as <-. split; [done|]. apply bool_decide_eq_true. congruence.
  - bind_ok Hd. by injection Hd as <-.
  - unfold plan_aggregate in Hd. repeat bind_ok Hd. destruct x3 as [[pipeline k] summary]. bind_ok Hd. by injection Hd as <-.
  - bind_ok Hd. by injection Hd as <-.
  - bind_ok Hd. by injection Hd as <-.
  - unfold plan_transaction in Hd. repeat bind_ok Hd. by injection Hd as <-.
  - unfold plan_change_stream in Hd. bind_ok Hd. destruct (ba_collection b); [|done]. repeat bind_ok Hd. by injection Hd as <-.
Qed.

(** *** Reads *)

Lemma run_reading {A} (f : D -> result js_error A) (k : A -> jsval) s r s' :
  (reading f ≫= fun a => mret (k a)) s = (r, s') -> s' = s /\ forall v, r = Ok v -> exists a, f (ms_data s) = Ok a /\ v = k a.
Proof. unfold mbind, M_bind, mret, M_ret, reading. destruct (f (ms_data s)); intros [= <- <-]; split; try done; intros v [= <-]; eauto. Qed.

Lemma run_writing {A} (f : D -> result js_error A * D) (k : A -> jsval) (s : @mongo_state D) r s' :
  (writing f ≫= fun a => mret (k a)) s = (r, s') -> ms_data s' = snd (f (ms_data s)).
Proof. unfold mbind, M_bind, mret, M_ret, writing. destruct (f (ms_data s)) as [[a|e] d]; by intros [= <- <-]. Qed.

(** *** Changes *)

Lemma others_app fields l l' : others fields (l ++ l') = others fields l ++ others fields l'.
Proof. apply List.filter_app. Qed.

Lemma others_own fields x : in_scope fields x = true -> others fields [x] = [].
Proof. intros H. cbn. by rewrite H. Qed.

Lemma write_others fields f written l l' : (forall x, selects f x = true -> in_scope fields x = true) -> one_write f written l l' ->
  others fields l `sublist_of` others fields l' /\ ((forall y, written y -> in_scope fields y = true) -> others fields l = others fields l').
Proof.
  intros Hf [l0 | l1 x y l2 Hx Hy | l0 y Hy]; [done| |].
  - change (x :: l2) with ([x] ++ l2). change (y :: l2) with ([y] ++ l2). rewrite !others_app, (others_own _ x) by by apply Hf. cbn [app]. split.
    + apply sublist_app; [done|]. by apply sublist_inserts_l.
    + intros Hw. by rewrite (others_own _ y) by by apply Hw.
  - rewrite others_app. split; [by apply sublist_inserts_r|]. intros Hw. by rewrite (others_own _ y), app_nil_r by by apply Hw.
Qed.

Lemma deletion_others fields f l l' : (forall x, selects f x = true -> in_scope fields x = true) -> one_deletion f l l' -> others fields l = others fields l'.
Proof.
  intros Hf [l0 | l1 x l2 Hx]; [done|]. change (x :: l2) with ([x] ++ l2). by rewrite !others_app, (others_own _ x) by by apply Hf.
Qed.

Lemma same_in_scope fields x y : plain_fields fields -> carries fields x -> same_but_id x y -> in_scope fields y = true.
Proof.
  intros Hp Hc Hs. apply carries_in_scope. unfold carries, plain_fields in *. rewrite Forall_forall in Hp, Hc |- *. intros f Hf.
  destruct (Hp f Hf) as [Hid _]. rewrite Hs by done. by apply Hc.
Qed.

(** What a request may do to a collection. *)
Definition leaves_others (fields : list (string * string)) (updates : bool) (d d' : D) : Prop :=
  forall c, others fields (stored c d) `sublist_of` others fields (stored c d') /\ (updates = false -> others fields (stored c d) = others fields (stored c d')).

Lemma leaves_same fields u d : leaves_others fields u d d.
Proof. by intros c. Qed.

Lemma leaves_write fields u c f written d d' : (forall x, selects f x = true -> in_scope fields x = true) ->
  (u = false -> forall y, written y -> in_scope fields y = true) -> one_write f written (stored c d) (stored c d') ->
  (forall c', c' <> c -> stored c' d' = stored c' d) -> leaves_others fields u d d'.
Proof.
  intros Hf Hw Hc Ho c'. destruct (decide (c' = c)) as [->|Hne]; [|by rewrite Ho].
  destruct (write_others fields _ _ _ _ Hf Hc) as [Hs He]. split; [done|]. intros Hu. by apply He, Hw.
Qed.

(** One planned operation. *)
Lemma run_plan_leaves p identity w plan c s r s' : mongo_identity p = Ok (identity, w) -> plan_mongo p w = Ok plan ->
  run_plan c plan s = (r, s') -> leaves_others (caller_fields p) (asks_update p) (ms_data s) (ms_data s').
Proof.
  intros Hi Hplan Hr. pose proof (plan_leads _ _ _ _ Hi Hplan) as Hl. destruct (executor_plan _ _ _ _ Hi Hplan) as [Hfields Hp].
  assert (Hw : forall x, x ∈ written_documents (mp_detail plan) -> carries (caller_fields p) x).
  { intros x Hx. rewrite <- Hfields. eapply written_documents_of; [exact Hp | rewrite Hfields; apply caller_simple | exact Hx]. }
  pose proof (fun f Hf x => coerced_leads (caller_fields p) f x (caller_simple p) (caller_plain p) Hf) as Hc.
  unfold run_plan in Hr. cbv zeta in Hr.
  destruct (mp_detail plan) as [q|document v|q replacement v upsert|q update v upsert| | | | | |] eqn:Hd; try (injection Hr as <- <-; apply leaves_same).
  - destruct (String.eqb (mp_operation plan) "list"); [apply run_reading in Hr as [-> _]; apply leaves_same|].
    destruct (String.eqb (mp_operation plan) "get"); [apply run_reading in Hr as [-> _]; apply leaves_same|].
    apply run_writing in Hr. rewrite Hr. intros c'. destruct (decide (c' = c)) as [->|Hne].
    + rewrite (deletion_others _ _ _ _ (Hc _ Hl) (delete_deletes c _ (ms_data s))). done.
    + destruct (others_kept c c' (ms_data s) Hne) as (_ & _ & _ & ->). done.
  - apply run_writing in Hr. rewrite Hr. intros c'. destruct (decide (c' = c)) as [->|Hne].
    + destruct (insert_adds c document (ms_data s)) as [-> | (y & Hy & ->)]; [done|]. rewrite others_app, (others_own _ y), app_nil_r; [done|].
      apply (same_in_scope _ document); [apply caller_plain | apply Hw; left | done].
    + destruct (others_kept c c' (ms_data s) Hne) as (-> & _). done.
  - apply run_writing in Hr. rewrite Hr. eapply leaves_write; [exact (Hc _ Hl) | | apply replace_writes |].
    + intros _ y Hy. apply (same_in_scope _ replacement); [apply caller_plain | apply Hw; left | done].
    + intros c' Hne. by destruct (others_kept c c' (ms_data s) Hne) as (_ & _ & -> & _).
  - destruct Hl as [Hl Hu]. apply run_writing in Hr. rewrite Hr. eapply leaves_write; [exact (Hc _ Hl) | by rewrite Hu | apply update_writes |].
    intros c' Hne. by destruct (others_kept c c' (ms_data s) Hne) as (_ & -> & _).
Qed.

Lemma try_caught {S E A} (m : M S E A) (g : E -> E) s r s' : try_catch m (fun e => throw (g e)) s = (r, s') -> exists r', m s = (r', s').
Proof. unfold try_catch, throw. destruct (m s) as [[a|e] s1]; intros [= <- <-]; eauto. Qed.

Lemma client_data uri s r s' : clientFor uri s = (r, s') -> ms_data s' = ms_data s.
Proof. unfold clientFor. destruct (str_in uri _); [by intros [= <- <-]|]. destruct (mg_connect uri _); by intros [= <- <-]. Qed.

(** C26: a request to the MongoDB data API, whatever it asks and whether it
    succeeds, leaves the documents of every other tenant and workspace as they
    are, in every collection of every database; it adds no document to them
    either, unless it is an update, which may move documents there. *)
Theorem requests_leave_other_scopes_alone p s r s' : executeMongoData p s = (r, s') ->
  forall c, others (caller_fields p) (stored c (ms_data s)) `sublist_of` others (caller_fields p) (stored c (ms_data s')) /\
    (coalesce (pa_operation p) (JStr "list") <> JStr "update" -> others (caller_fields p) (stored c (ms_data s)) = others (caller_fields p) (stored c (ms_data s'))).
Proof.
  intros H. assert (Hl : leaves_others (caller_fields p) (asks_update p) (ms_data s) (ms_data s')).
  { unfold executeMongoData, lift in H. unfold mbind, M_bind in H. destruct (mongo_identity p) as [[identity w]|e] eqn:Hi; [|injection H as <- <-; apply leaves_same].
    cbn [fst snd] in H. destruct (plan_mongo p w) as [plan|e] eqn:Hplan; [|injection H as <- <-; apply leaves_same].
    destruct (resolve_uri w identity) as [uri|e]; [|injection H as <- <-; apply leaves_same].
    destruct (clientFor uri s) as [[[]|e] s1] eqn:Hcl; apply client_data in Hcl; [|injection H as <- <-; rewrite Hcl; apply leaves_same].
    apply try_caught in H as [r' H]. rewrite <- Hcl. by eapply run_plan_leaves. }
  intros c. destruct (Hl c) as [Hs He]. split; [done|]. intros Hu. apply He. by apply bool_decide_eq_false.
Qed.

(** *** What is shown *)

(** The documents an answer to a read shows. *)
Definition answered (v : jsval) : list jsval :=
  match js_get v "items" with
  | JArr items => items
  | _ => if has_own v "found" then match js_get v "item" with JObj d => [JObj d] | _ => [] end else []
  end.

Lemma leads_selects fields f d : simple_fields fields -> leads fields f -> selects f d = true -> in_scope fields d = true.
Proof.
  intros Hs Hl. assert (Hc : confined fields f); [|apply Hc].
  induction Hl as [|l r _ IH Hr]; [split; [done | intros x; by rewrite selects_scope] | by apply confined_merge].
Qed.

Definition shows_own (p : mongo_params) (d : D) (i : jsval) : Prop :=
  exists c x projection, x ∈ stored c d /\ in_scope (caller_fields p) x = true /\ i = JObj (shown projection x).

Lemma run_plan_shows p identity w plan c s v s' i : mongo_identity p = Ok (identity, w) -> plan_mongo p w = Ok plan ->
  run_plan c plan s = (Ok v, s') -> i ∈ answered v -> shows_own p (ms_data s) i.
Proof.
  intros Hi Hplan Hr Hin. pose proof (plan_leads _ _ _ _ Hi Hplan) as Hl. unfold run_plan in Hr. cbv zeta in Hr.
  destruct (mp_detail plan) as [q|document b|q replacement b upsert|q update b upsert| | | | | |] eqn:Hd; try done.
  - destruct (String.eqb (mp_operation plan) "list"); [|destruct (String.eqb (mp_operation plan) "get")].
    + apply run_reading in Hr as [-> Hr]. destruct (Hr v eq_refl) as (items & Hf & ->). apply find_shows in Hf.
      unfold list_answer, answered in Hin. cbn in Hin. apply list_elem_of_fmap in Hin as (x & -> & Hx).
      destruct (proj1 (Forall_forall _ _) Hf x Hx) as (y & Hy & Hsel & ->). exists c, y, (qu_projection q). split_and!; [done | | done].
      eapply leads_selects; [apply caller_simple | exact Hl | exact Hsel].
    + apply run_reading in Hr as [-> Hr]. destruct (Hr v eq_refl) as ([item|] & Hf & ->); [|by apply not_elem_of_nil in Hin].
      apply find_one_shows in Hf as (y & Hy & Hsel & ->). apply list_elem_of_singleton in Hin as ->. exists c, y, (qu_projection q). split_and!; [done | | done].
      eapply coerced_leads; [apply caller_simple | apply caller_plain | exact Hl | exact Hsel].
    + unfold mbind, M_bind, mret, M_ret, writing in Hr. destruct (mg_delete_one _ _ _) as [[n|e] d']; [|done]. injection Hr as <- <-. by apply not_elem_of_nil in Hin.
  - unfold mbind, M_bind, mret, M_ret, writing in Hr. destruct (mg_insert_one _ _ _) as [[n|e] d']; [|done]. injection Hr as <- <-. by apply not_elem_of_nil in Hin.
  - unfold mbind, M_bind, mret, M_ret, writing in Hr. destruct (mg_replace_one _ _ _ _ _) as [[n|e] d']; [|done]. injection Hr as <- <-. by apply not_elem_of_nil in Hin.
  - unfold mbind, M_bind, mret, M_ret, writing in Hr. destruct (mg_update_one _ _ _ _ _) as [[n|e] d']; [|done]. injection Hr as <- <-. by apply not_elem_of_nil in Hin.
Qed.

(** C27: whatever filter, cursor or identifier a request gives, the documents in
    the answer to a list or a get are stored documents of the caller's own tenant
    and workspace. *)
Theorem requests_show_their_own_scope p s v s' i : executeMongoData p s = (Ok v, s') -> i ∈ answered v ->
  exists c x projection, x ∈ stored c (ms_data s) /\ in_scope (caller_fields p) x = true /\ i = JObj (shown projection x).
Proof.
  intros H Hin. change (shows_own p (ms_data s) i). unfold executeMongoData, lift in H. unfold mbind, M_bind in H.
  destruct (mongo_identity p) as [[identity w]|e] eqn:Hi; [|done]. cbn [fst snd] in H. destruct (plan_mongo p w) as [plan|e] eqn:Hplan; [|done].
  destruct (resolve_uri w identity) as [uri|e]; [|done]. destruct (clientFor uri s) as [[[]|e] s1] eqn:Hcl; apply client_data in Hcl; [|done].
  rewrite <- Hcl. unfold try_catch in H. destruct (run_plan _ plan s1) as [[v'|e] s2] eqn:Hr; [|done]. injection H as <- <-. by eapply run_plan_shows.
Qed.

End requests.

(** ** A server of one collection *)

Definition sample_collection : collection_ref := mk_collection "mongodb://db" (JStr "shop") (JStr "orders").

(** The documents of the collection in order; an update replaces the fields of [$set]. *)
Definition set_fields (u : list (string * js_object)) (x : js_object) : js_object :=
  foldl (fun acc kv => assoc_set kv.1 kv.2 acc) x (default [] (assoc_lookup "$set" u)).

Fixpoint change_first (f : jsval) (change : js_object -> list js_object) (l : list js_object) : list js_object :=
  match l with
  | [] => []
  | x :: l' => if sample_selects f x then change x ++ l' else x :: change_first f change l'
  end.

Definition sample_write (c : collection_ref) (f : jsval) (change : js_object -> list js_object) (d : list js_object) : list js_object :=
  if decide (c = sample_collection) then change_first f change d else d.

Definition sample_find (c : collection_ref) (f : jsval) (n : Z) (d : list js_object) : list js_object :=
  if decide (c = sample_collection) then take (Z.to_nat n) (List.filter (sample_selects f) d) else [].

#[local] Instance sample_driver : MongoDriver (list js_object) := {|
  object_id := fun hex => JObj [("$oid", JStr hex)];
  bson_json := fun v => v;
  mg_connect := fun _ _ => Ok tt;
  mg_find := fun c f _ _ n d => Ok (sample_find c f n d);
  mg_find_one := fun c f _ d => Ok (head (sample_find c f 1 d));
  mg_insert_one := fun c x d => (Ok (js_get (JObj x) "_id"), if decide (c = sample_collection) then d ++ [x] else d);
  mg_update_one := fun c f u _ d => (Ok (mk_update_result 1 1 JNull), sample_write c f (fun x => [set_fields u x]) d);
  mg_replace_one := fun c f x _ d => (Ok (mk_update_result 1 1 JNull), sample_write c f (fun _ => [x]) d);
  mg_delete_one := fun c f d => (Ok 1, sample_write c f (fun _ => []) d)
|}.

Lemma change_first_cases f change l : change_first f change l = l \/
  exists l1 x l2, l = l1 ++ x :: l2 /\ sample_selects f x = true /\ change_first f change l = l1 ++ change x ++ l2.
Proof.
  induction l as [|x l IH]; [by left|]. cbn. destruct (sample_selects f x) eqn:Hx; [right; by exists [], x, l|].
  destruct IH as [-> | (l1 & y & l2 & -> & Hy & ->)]; [by left|]. right. by exists (x :: l1), y, l2.
Qed.

Lemma found_shows c f n d i : i ∈ sample_find c f n d -> c = sample_collection /\ i ∈ d /\ sample_selects f i = true.
Proof.
  unfold sample_find. destruct (decide _) as [->|]; [|by intros ?%not_elem_of_nil]. intros Hi. split; [done|].
  apply (subseteq_take _) in Hi. apply list_elem_of_In, filter_In in Hi. by rewrite <- list_elem_of_In in Hi.
Qed.

#[local] Instance sample_server : @MongoServer (list js_object) sample_queries sample_driver.
Proof.
  refine (@Build_MongoServer _ sample_queries sample_driver (fun c d => if decide (c = sample_collection) then d else []) (fun _ x => x) _ _ _ _ _ _ _).
  - intros c f p sort n d items [= <-]. apply Forall_forall. intros i (-> & Hi & Hs)%found_shows. exists i. by rewrite decide_True by done.
  - intros c f p d i [= Hh]. destruct (sample_find c f 1 d) as [|j l] eqn:E; [done|]. injection Hh as ->.
    assert (i ∈ sample_find c f 1 d) as (-> & Hi & Hs)%found_shows by (rewrite E; left). exists i. by rewrite decide_True by done.
  - intros c x d. cbn. destruct (decide _) as [->|]; [right; by exists x | by left].
  - intros c f u upsert d. cbn. unfold sample_write. destruct (decide _) as [->|]; [|constructor].
    destruct (change_first_cases f (fun x => [set_fields u x]) d) as [-> | (l1 & x & l2 & -> & Hx & ->)]; [constructor | by apply write_one].
  - intros c f x upsert d. cbn. unfold sample_write. destruct (decide _) as [->|]; [|constructor].
    destruct (change_first_cases f (fun _ => [x]) d) as [-> | (l1 & y & l2 & -> & Hy & ->)]; [constructor | by apply write_one].
  - intros c f d. cbn. unfold sample_write. destruct (decide _) as [->|]; [|constructor].
    destruct (change_first_cases f (fun _ => []) d) as [-> | (l1 & x & l2 & -> & Hx & ->)]; [constructor | by apply delete_one].
  - intros c c' d Hne. cbn. unfold sample_write. destruct (decide (c' = sample_collection)) as [->|]; [|by split_and!].
    split_and!; intros; by rewrite decide_False.
Defined.

#[local] Instance sample_options : MongoOptions := {| resolveUri := fun _ _ => Ok "mongodb://db"; options_topology := JObj [] |}.

(** The tenant [acme] asks in its workspace [ws1]. *)
Definition sample_params (operation : string) (documentId payload : jsval) : mongo_params :=
  mk_params (JStr operation) (JStr "ws1") (JStr "shop") (JStr "orders") documentId JUndef JUndef JUndef JUndef payload
    (JObj [("tenantId", JStr "acme"); ("roleName", JStr "app")]).

Definition sample_document (id tenant workspace : string) : js_object := [("_id", JStr id); ("tenantId", JStr tenant); ("workspaceId", JStr workspace)].

Definition sample_state : @mongo_state (list js_object) :=
  mk_mongo_state [] [sample_document "o1" "other" "ws1"; sample_document "o1" "acme" "ws1"; sample_document "o2" "acme" "ws1"].

Notation sample_run p := (@executeMongoData (list js_object) sample_number_text sample_syntax sample_metadata sample_contracts sample_driver sample_options p sample_state).
Notation delete_o1 := (sample_params "delete" (JStr "o1") JUndef).
Notation get_o1 := (sample_params "get" (JStr "o1") JUndef).

(** Two tenants have a document [o1]; a tenant deletes its own. *)
Lemma requests_leave_other_scopes_alone_witness :
  ms_data (snd (sample_run delete_o1)) = [sample_document "o1" "other" "ws1"; sample_document "o2" "acme" "ws1"] /\
  others (caller_fields delete_o1) (ms_data sample_state) = others (caller_fields delete_o1) (ms_data (snd (sample_run delete_o1))).
Proof.
  split; [vm_compute; reflexivity|].
  destruct (sample_run delete_o1) as [r s'] eqn:H.
  destruct (@requests_leave_other_scopes_alone (list js_object) sample_queries sample_driver sample_server sample_number_text sample_syntax sample_metadata sample_contracts
    sample_options delete_o1 sample_state r s' H sample_collection) as [_ He]. apply He. discriminate.
Defined.

Lemma requests_show_their_own_scope_witness :
  match sample_run get_o1 with
  | (Ok v, _) => answered v = [JObj (sample_document "o1" "acme" "ws1")] /\ forall i, i ∈ answered v -> exists c x projection,
      x ∈ @stored (list js_object) sample_queries sample_driver sample_server c (ms_data sample_state) /\ in_scope (caller_fields get_o1) x = true /\
      i = JObj (@shown (list js_object) sample_queries sample_driver sample_server projection x)
  | _ => False
  end.
Proof.
  destruct (sample_run get_o1) as [[v|e] s'] eqn:H; [|exfalso; vm_compute in H; discriminate]. split; [vm_compute in H; injection H as <- <-; reflexivity|].
  intros i. exact (@requests_show_their_own_scope (list js_object) sample_queries sample_driver sample_server sample_number_text sample_syntax sample_metadata
    sample_contracts sample_options get_o1 sample_state v s' i H).
Defined.

(** An update that sets the tenant moves the caller's document to another tenant. *)
Theorem an_update_moves_a_document :
  ms_data (snd (sample_run (sample_params "update" (JStr "o2") (JObj [("update", JObj [("$set", JObj [("tenantId", JStr "other")])])]))))
  = [sample_document "o1" "other" "ws1"; sample_document "o1" "acme" "ws1"; sample_document "o2" "other" "ws1"].
Proof. vm_compute. reflexivity. Qed.
