(* ===== verification/MongoPages.v ===== *)
(** * Paging through MongoDB documents

    What the predicate of a cursor selects, the text of a cursor read back, and
    the proof that a client that follows the cursors sees every document once. *)
From S2P Require Import Prelude JsValue Json Regex SsrfProofs WebhookKeys PgTable PgSql PgSemantics PgPaging MongoFilter MongoWrite MongoPipeline MongoTransfer MongoPlan MongoQuery MongoScope MongoExecutor MongoServer.
From stdpp Require Import sorting.
From Stdlib Require Import Ascii.
Local Open Scope Z_scope.

Notation sort_spec := (list (string * Z)) (only parsing).
Notation js_object := (list (string * jsval)) (only parsing).

(** ** The predicate of a cursor *)

Section predicate.
Context `{MQ : !MongoQueries, OR : !MongoOrder}.

Definition past (direction : Z) (v x : jsval) : bool := if direction =? -1 then value_lt x v else value_lt v x.

(** The document comes after the values in the order. *)
Fixpoint after_values (d : js_object) (values : jsval) (sort : sort_spec) : bool :=
  match sort with
  | [] => false
  | (field, direction) :: rest =>
      let x := js_get (JObj d) field in
      let v := js_get values field in
      past direction v x || (jsval_eqb x v && after_values d values rest)
  end.

(** The values and the document compare on every field of the order. *)
Definition comparable (d : js_object) (values : jsval) (sort : sort_spec) : Prop :=
  Forall (fun e => field_name e.1 /\ alike (js_get values e.1) (js_get (JObj d) e.1)) sort.

Lemma equal_branch values equal acc : NoDup (acc.*1 ++ equal.*1) ->
  foldl (fun branch (e : string * Z) => assoc_set e.1 (js_get values e.1) branch) acc equal = acc ++ ((fun e : string * Z => (e.1, js_get values e.1)) <$> equal).
Proof.
  revert acc. induction equal as [|e equal IH]; intros acc Hd; [by rewrite app_nil_r|]. cbn [foldl fmap list_fmap]. rewrite assoc_set_fresh.
  - rewrite IH; [by rewrite <- app_assoc|]. by rewrite fmap_app, <- app_assoc.
  - apply assoc_lookup_none. rewrite fmap_cons in Hd. apply NoDup_app in Hd as (_ & Hd & _). intros Hin. apply (Hd e.1); [done | left].
Qed.

Lemma branch_selects d values equal field direction : NoDup (equal.*1 ++ [field]) -> comparable d values (equal ++ [(field, direction)]) ->
  selects (cursor_branch values equal field direction) d
  = forallb (fun e : string * Z => jsval_eqb (js_get (JObj d) e.1) (js_get values e.1)) equal && past direction (js_get values field) (js_get (JObj d) field).
Proof.
  intros Hd Hc. unfold cursor_branch. apply NoDup_app in Hd as Hd'. destruct Hd' as (Hde & Hf & _). rewrite equal_branch by done. cbn [app].
  rewrite assoc_set_fresh.
  - apply Forall_app in Hc as [He Hlast]. apply Forall_cons in Hlast as [[Hn Ha] _]. cbn [fst] in Hn, Ha. rewrite selects_fields.
    + rewrite forallb_app. cbn [forallb]. rewrite andb_true_r. f_equal.
      * clear - He OR. induction He as [|e equal [Hn Ha] _ IH]; [done|]. cbn [fmap list_fmap forallb]. by rewrite IH, selects_equal.
      * unfold past. destruct (direction =? -1); [by apply selects_lt | by apply selects_gt].
    + rewrite fmap_app, <- list_fmap_compose. exact Hd.
  - apply assoc_lookup_none. rewrite <- list_fmap_compose. intros Hin. apply (Hf field); [exact Hin | left].
Qed.

Lemma branches_select d values equal sort : NoDup (equal.*1 ++ sort.*1) -> comparable d values (equal ++ sort) ->
  existsb (fun b => selects b d) (cursor_branches values equal sort)
  = forallb (fun e : string * Z => jsval_eqb (js_get (JObj d) e.1) (js_get values e.1)) equal && after_values d values sort.
Proof.
  revert equal. induction sort as [|[field direction] sort IH]; intros equal Hd Hc; [by rewrite andb_false_r|].
  cbn [cursor_branches existsb after_values]. replace (equal ++ (field, direction) :: sort) with ((equal ++ [(field, direction)]) ++ sort) in Hc by by rewrite <- app_assoc.
  replace (equal.*1 ++ ((field, direction) :: sort).*1) with ((equal ++ [(field, direction)]).*1 ++ sort.*1) in Hd by by rewrite fmap_app, <- app_assoc.
  rewrite IH by done. rewrite branch_selects.
  - rewrite forallb_app. cbn [forallb fst]. by destruct (forallb _ equal), (past _ _ _), (jsval_eqb _ _), (after_values _ _ _).
  - rewrite fmap_app in Hd. by apply NoDup_app in Hd as (Hd & _).
  - by apply Forall_app in Hc as [Hc _].
Qed.

(** The predicate of a cursor selects exactly the documents that come after
    the cursor's values in the order of the request, field by field and in the
    direction of each. *)
Lemma cursor_selects_what_follows sort c p d : NoDup sort.*1 -> sort <> [] -> comparable d (js_get c "values") sort ->
  buildMongoCursorPredicate sort (Some c) = Some p -> selects p d = after_values d (js_get c "values") sort.
Proof.
  intros Hd Hne Hc. unfold buildMongoCursorPredicate. pose proof (branches_select d (js_get c "values") [] sort Hd Hc) as Hb. cbn [forallb andb app] in Hb.
  rewrite <- Hb. destruct sort as [|[f dir] [|[f2 dir2] sort]]; [done| |]; cbn [cursor_branches]; intros H; injection H as <-.
  - cbn [existsb]. by rewrite orb_false_r.
  - by rewrite selects_or.
Qed.

(** *** The order *)

Lemma past_asym dir a b : past dir a b = true -> past dir b a = false.
Proof. unfold past. destruct (dir =? -1); apply value_lt_asym. Qed.
Lemma past_irrefl dir a : past dir a a = false.
Proof. unfold past. destruct (dir =? -1); apply value_lt_irrefl. Qed.

Lemma follows_asym a b sort : after_values a (JObj b) sort = true -> after_values b (JObj a) sort = true -> False.
Proof.
  induction sort as [|[f dir] sort IH]; [done|]. cbn [after_values]. rewrite !orb_true_iff, !andb_true_iff. intros [H|[He H]] [H'|[He' H']].
  - apply past_asym in H. congruence.
  - apply jsval_eqb_eq in He'. rewrite He' in H. by rewrite past_irrefl in H.
  - apply jsval_eqb_eq in He. rewrite He in H'. by rewrite past_irrefl in H'.
  - by apply IH.
Qed.

Lemma after_ext d values values' sort : (forall f, f ∈ sort.*1 -> js_get values f = js_get values' f) -> after_values d values sort = after_values d values' sort.
Proof.
  induction sort as [|[f dir] sort IH]; intros H; [done|]. cbn [after_values]. rewrite (H f) by (rewrite fmap_cons; left). rewrite IH; [done|].
  intros f' Hf'. apply H. rewrite fmap_cons. by right.
Qed.

End predicate.

(** ** The text of a cursor *)

Section cursors.
Context `{NT : !NumberText, ST : !SyntaxText}.

Lemma encode_nonempty v : isPlainObject v = true -> String.eqb (encodeMongoDataCursor v) "" = false.
Proof.
  destruct v as [| | | | | |kvs]; try done. intros _. unfold encodeMongoDataCursor, canonicalBase64Url.
  assert (exists b bs, utf8_bytes (json_text (JObj kvs)) = b :: bs) as (b & bs & ->) by (cbn [json_text]; by do 2 eexists). by destruct bs as [|b2 [|b3 bs]].
Qed.

Lemma cursor_read v : plain v -> isPlainObject v = true -> isPlainObject (js_get v "values") = true ->
  parseMongoDataCursor (JStr (encodeMongoDataCursor v)) = Ok (Some v).
Proof.
  intros Hp Ho Hv. unfold parseMongoDataCursor. cbn [nullish jsval_eqb orb]. rewrite encode_nonempty by done. cbv zeta.
  change (js_to_string (JStr (encodeMongoDataCursor v))) with (encodeMongoDataCursor v). unfold encodeMongoDataCursor, canonicalBase64Url.
  rewrite url_chars by (apply b64_encode_class, utf8_byte_list). rewrite b64_roundtrip by apply utf8_byte_list.
  by rewrite utf8_roundtrip, of_chars_chars, json_parse_text, Hv.
Qed.

End cursors.

(** ** Following the cursors *)

Definition with_page (r : mongo_request) (page : jsval) : mongo_request :=
  mk_mongo_request (mr_operation r) (mr_workspaceId r) (mr_databaseName r) (mr_collectionName r) (mr_documentId r) (mr_tenantId r) (mr_tenantFieldPath r)
    (mr_workspaceFieldPath r) (mr_filter r) (mr_projection r) (mr_sort r) page (mr_payload r) (mr_metadata r) (mr_metadataByName r) (mr_existing r) (mr_context r)
    (mr_planPolicy r) (mr_topology r) (mr_bridge r).

Section requests.
Context `{MQ : !MongoQueries, NT : !NumberText, ST : !SyntaxText, MR : !MetadataReader, MC : !MongoContracts}.

Variables (r : mongo_request) (size : Z).

(** The request for the page after a cursor, or for the first one. *)
Definition page_request (after : jsval) : mongo_request := with_page r (JObj [("size", jint size); ("after", after)]).

Definition page_query (filter : jsval) (projection : option sort_spec) (sort : sort_spec) (cursor : option jsval) : mongo_query :=
  let predicate := buildMongoCursorPredicate sort cursor in
  mk_query (with_cursor filter predicate) projection (Some sort) size cursor predicate.

Lemma size_normalized n : normalizePageSize (jint size) = Ok n -> n = size /\ 0 < size.
Proof. cbn. destruct (Z.leb_spec size 0); [done|]. destruct (MONGO_DATA_MAX_PAGE_SIZE <? size); [done|]. cbn. by intros [= <-]. Qed.

(** Only the cursor and what is made of it depend on the page. *)
Lemma basis_paged page b : build_basis "list" (with_page r page) = Ok b -> js_get page "size" = jint size ->
  exists f0 cursor, applyTenantScopeToFilter (mr_filter r) (mr_tenantId r) (mr_tenantFieldPath r) (JStr (ba_workspace b)) (mr_workspaceFieldPath r) = Ok (ba_scope b, f0) /\ normalizeMongoDataSort (mr_sort r) = Ok (ba_sort b) /\ normalizeMongoDataProjection (mr_projection r) = Ok (ba_projection b) /\ parseMongoDataCursor (js_get page "after") = Ok cursor /\ ba_size b = size /\ 0 < size /\
    ba_filter b = with_cursor f0 (ba_predicate b) /\ ba_predicate b = buildMongoCursorPredicate (ba_sort b) cursor /\ ba_cursor b = cursor /\
    isPlainObject f0 = true /\
    forall page' cursor', isPlainObject page' = true -> js_get page' "size" = jint size -> parseMongoDataCursor (js_get page' "after") = Ok cursor' ->
      exists b', build_basis "list" (with_page r page') = Ok b' /\ ba_sort b' = ba_sort b /\ ba_projection b' = ba_projection b /\
        ba_filter b' = with_cursor f0 (buildMongoCursorPredicate (ba_sort b) cursor') /\ ba_cursor b' = cursor' /\
        ba_predicate b' = buildMongoCursorPredicate (ba_sort b) cursor' /\ ba_size b' = size.
Proof.
  unfold build_basis. cbn [mr_workspaceId mr_databaseName mr_collectionName mr_sort mr_projection mr_page mr_filter mr_tenantId mr_tenantFieldPath mr_workspaceFieldPath
    mr_topology mr_bridge mr_planPolicy mr_documentId mr_metadata with_page].
  intros H Hsize. assert (Hpage : or_empty page = page) by (by destruct page). rewrite Hpage in H.
  bind_ok H. bind_ok H. bind_ok H. bind_ok H. bind_ok H. bind_ok H. bind_ok H. bind_ok H. bind_ok H.
  destruct x7 as [ts f0]. cbv zeta in H. bind_ok H. bind_ok H. bind_ok H. bind_ok H. injection H as <-.
  cbn [ba_sort ba_size ba_filter ba_predicate ba_cursor ba_projection ba_scope ba_workspace]. exists f0, x5. split; [exact Hx7|]. unfold member_of in Hx4. destruct (nullish page); [done|]. injection Hx4 as <-.
  rewrite Hsize in Hx6. destruct (size_normalized _ Hx6) as [-> Hpos]. do 8 (split; [done|]).
  split. { destruct (scoped_parts _ _ _ _ _ _ _ Hx7) as (nf & kvs & Hn & _ & -> & _). apply merged_object; [done | by eapply normalized_object]. }
  intros page' cursor' Ho Hsize' Hc'. assert (or_empty page' = page') as -> by (by destruct page'). unfold member_of. assert (nullish page' = false) as -> by (by destruct page').
  rewrite Hx. cbn [mbind result_bind]. rewrite Hx0. cbn [mbind result_bind]. rewrite Hx1. cbn [mbind result_bind]. rewrite Hx2. cbn [mbind result_bind].
  rewrite Hx3. cbn [mbind result_bind]. rewrite Hc'. cbn [mbind result_bind]. rewrite Hsize', Hx6. cbn [mbind result_bind]. rewrite Hx7. cbn [mbind result_bind].
  cbv zeta. rewrite Hx8. cbn [mbind result_bind]. rewrite Hx9. cbn [mbind result_bind]. rewrite Hx10. cbn [mbind result_bind]. rewrite Hx11. cbn [mbind result_bind].
  eexists. split; [reflexivity|]. done.
Qed.

Lemma page_operation after : mr_operation (page_request after) = mr_operation r.
Proof. done. Qed.

(** What follows the first page is planned as the first page was. *)
Lemma page_planned p : mr_operation r = JStr "list" -> buildMongoDataApiPlan (page_request JUndef) = Ok p ->
  exists w filter projection sort, applyTenantScopeToFilter (mr_filter r) (mr_tenantId r) (mr_tenantFieldPath r) (JStr w) (mr_workspaceFieldPath r) = Ok (mp_scope p, filter) /\
    normalizeMongoDataSort (mr_sort r) = Ok sort /\ normalizeMongoDataProjection (mr_projection r) = Ok projection /\ isPlainObject filter = true /\ 0 < size /\
    forall after cursor, parseMongoDataCursor after = Ok cursor ->
      exists p', buildMongoDataApiPlan (page_request after) = Ok p' /\ mp_operation p' = "list" /\ mp_detail p' = ReadDetail (page_query filter projection sort cursor).
Proof.
  intros Hop H. unfold buildMongoDataApiPlan in H. rewrite page_operation, Hop in H.
  change (negb (str_in "list" MONGO_DATA_API_OPERATIONS)) with false in H. cbv iota beta in H.
  rewrite result_bind_ok in H. destruct H as (b & Hb & H). cbn [plan_detail_of String.eqb Ascii.eqb Bool.eqb mbind result_bind] in H. injection H as <-.
  destruct (basis_paged (JObj [("size", jint size); ("after", JUndef)]) b Hb eq_refl) as (f0 & cursor & Hscope & Hs & Hproj & Hc & Hsize & Hpos & Hf & Hpred & Hcur & Ho & Hall).
  exists (ba_workspace b), f0, (ba_projection b), (ba_sort b). do 5 (split; [done|]). intros after cursor' Hafter.
  destruct (Hall (JObj [("size", jint size); ("after", after)]) cursor') as (b' & Hb' & Hs' & Hp' & Hf' & Hc' & Hpr' & Hsz'); [reflexivity | reflexivity | exact Hafter |].
  unfold buildMongoDataApiPlan. rewrite page_operation, Hop. change (negb (str_in "list" MONGO_DATA_API_OPERATIONS)) with false. cbv iota beta.
  change (page_request after) with (with_page r (JObj [("size", jint size); ("after", after)])). rewrite Hb'. cbn [mbind result_bind plan_detail_of String.eqb Ascii.eqb Bool.eqb]. eexists. split; [reflexivity|].
  split; [reflexivity|]. cbn [mp_detail]. unfold plan_list, page_query. by rewrite Hf', Hs', Hp', Hc', Hpr', Hsz'.
Qed.

End requests.

(** *** Orders *)

Lemma foldl_set_nodup (acc : sort_spec) (kvs : sort_spec) : NoDup acc.*1 -> NoDup (foldl (fun acc (kv : string * Z) => assoc_set kv.1 kv.2 acc) acc kvs).*1.
Proof. revert acc. induction kvs as [|kv kvs IH]; intros acc Hd; [done|]. cbn [foldl]. by apply IH, assoc_set_nodup. Qed.

Lemma sort_keys v sort : normalizeMongoDataSort v = Ok sort -> NoDup sort.*1 /\ sort <> [].
Proof.
  assert (Hid : forall s : sort_spec, NoDup s.*1 -> NoDup (with_id s).*1 /\ with_id s <> []).
  { intros s Hs. unfold with_id. destruct (assoc_lookup "_id" s) eqn:E; [split; [done|]; by intros -> |]. split; [|by destruct s].
    rewrite fmap_app. apply NoDup_app. split; [done|]. split; [|apply NoDup_singleton]. intros k Hk ->%list_elem_of_singleton.
    apply list_elem_of_fmap in Hk as ([k z] & Hk & Hin). cbn in Hk. subst k. clear - E Hin. induction s as [|[k' z'] s IH]; [by apply not_elem_of_nil in Hin|].
    cbn [assoc_lookup] in E. destruct (String.eqb_spec "_id" k') as [|Hne]; [done|]. apply elem_of_cons in Hin as [Heq | Hin]; [congruence | by apply IH]. }
  destruct v as [| | | | | |[|kv kvs]]; try done; try (intros [= <-]; split; [apply NoDup_singleton | done]).
  cbn [normalizeMongoDataSort]. rewrite result_bind_ok. intros (x & _ & [= <-]). apply Hid. by apply foldl_set_nodup, NoDup_nil_2.
Qed.

Lemma with_id_has s : "_id" ∈ (with_id s).*1.
Proof.
  unfold with_id. destruct (assoc_lookup "_id" s) as [z|] eqn:E; [|rewrite fmap_app; set_solver].
  induction s as [|[k z'] s IH]; [done|]. cbn [assoc_lookup] in E. rewrite fmap_cons. destruct (String.eqb_spec "_id" k) as [<-|]; [left | right; by apply IH].
Qed.

(** Every order has the identifier. *)
Lemma sort_has_id v sort : normalizeMongoDataSort v = Ok sort -> "_id" ∈ sort.*1.
Proof.
  destruct v as [| | | | | |[|kv kvs]]; try done; try (intros [= <-]; left).
  cbn [normalizeMongoDataSort]. rewrite result_bind_ok. intros (x & _ & [= <-]). apply with_id_has.
Qed.

(** *** What the cursor says of the last document *)

(** What a find gives: the selected documents in the order of the sort, cut at the
    limit, when they compare on the fields of the sort; without a projection they
    are shown whole, and JSON leaves the values as they are. *)
Class MongoFinds (D : Type) `{MQ : !MongoQueries, OR : !MongoOrder, MD : !MongoDriver D, MS : !MongoServer D} := {
  find_sorted c f p (sort : sort_spec) n d items : mg_find c f p sort n d = Ok items -> 0 < n ->
    (forall a b, a ∈ List.filter (selects f) (stored c d) -> b ∈ List.filter (selects f) (stored c d) -> comparable b (JObj a) sort) ->
    exists l, l ≡ₚ List.filter (selects f) (stored c d) /\ StronglySorted (fun a b => after_values a (JObj b) sort = false) l /\
      items = shown p <$> take (Z.to_nat n) l;
  shown_whole x : shown None x = x;
  bson_plain v : plain v -> bson_json v = v
}.

Section walk.
Context {D : Type} `{MQ : !MongoQueries, OR : !MongoOrder, MD : !MongoDriver D, MS : !MongoServer D, MF : !MongoFinds D}.
Context `{NT : !NumberText, ST : !SyntaxText, MR : !MetadataReader, MC : !MongoContracts, MO : !MongoOptions}.

Definition last_values (sort : sort_spec) (x : js_object) : js_object := from_entries ((fun e : string * Z => (e.1, bson_json (js_get (JObj x) e.1))) <$> sort).

Lemma from_entries_same acc kvs : NoDup (acc ++ kvs).*1 -> foldl (fun acc (kv : string * jsval) => assoc_set kv.1 kv.2 acc) acc kvs = acc ++ kvs.
Proof.
  revert acc. induction kvs as [|[k v] kvs IH]; intros acc Hd; [by rewrite app_nil_r|]. cbn [foldl fst snd]. rewrite assoc_set_fresh.
  - rewrite IH; by rewrite <- app_assoc.
  - apply assoc_lookup_none. rewrite fmap_app in Hd. apply NoDup_app in Hd as (_ & Hd & _). intros Hin. apply (Hd k Hin). rewrite fmap_cons. left.
Qed.

Lemma alike_plain a b : alike a b -> plain b.
Proof. intros [Hb [n Hn]]. rewrite Hn in Hb. by destruct b as [| | |[| | |]| | |]. Qed.

Definition plain_keys (sort : sort_spec) (x : js_object) : Prop := Forall (fun e : string * Z => plain (js_get (JObj x) e.1)) sort.

Lemma comparable_plain d v sort : comparable d v sort -> plain_keys sort d.
Proof. intros H. eapply Forall_impl; [exact H|]. intros e [_ Ha]. by eapply alike_plain. Qed.

Lemma last_values_list sort x : NoDup sort.*1 -> plain_keys sort x -> last_values sort x = (fun e : string * Z => (e.1, js_get (JObj x) e.1)) <$> sort.
Proof.
  intros Hd Hp. unfold last_values, from_entries. rewrite from_entries_same; [|cbn [app]; by rewrite <- list_fmap_compose].
  cbn [app]. clear Hd. induction Hp as [|e sort He _ IH]; [done|]. cbn [fmap list_fmap]. by rewrite IH, bson_plain.
Qed.

Lemma last_values_get sort x f : NoDup sort.*1 -> plain_keys sort x -> f ∈ sort.*1 -> js_get (JObj (last_values sort x)) f = js_get (JObj x) f.
Proof.
  intros Hd Hp Hf. rewrite last_values_list by done. clear Hd Hp. unfold js_get at 1. induction sort as [|e sort IH]; [by apply not_elem_of_nil in Hf|].
  cbn [fmap list_fmap assoc_lookup]. destruct (String.eqb_spec f e.1) as [->|Hne]; [done|]. apply IH. rewrite fmap_cons, elem_of_cons in Hf. by destruct Hf.
Qed.

Definition cursor_of (sort : sort_spec) (x : js_object) : jsval := JObj [("values", JObj (last_values sort x))].

Lemma cursor_plain sort x : NoDup sort.*1 -> plain_keys sort x -> plain (cursor_of sort x).
Proof.
  intros Hd Hp. unfold cursor_of. cbn [plain List.map foldr snd fst fmap list_fmap]. split; [apply NoDup_singleton|]. split; [|done].
  rewrite last_values_list by done. split; [by rewrite <- list_fmap_compose|]. clear Hd. induction Hp as [|e sort He _ IH]; [done|]. by split.
Qed.

Lemma next_of sort limit items x : NoDup sort.*1 -> plain_keys sort x ->
  next_page sort limit (items ++ [x]) = if limit <=? Z.of_nat (length (items ++ [x])) then Some (encodeMongoDataCursor (cursor_of sort x)) else None.
Proof.
  intros Hd Hp. unfold next_page. rewrite last_snoc. replace (forallb _ sort) with true; [by rewrite andb_true_r|].
  symmetry. apply forallb_forall. intros e He%list_elem_of_In. specialize (proj1 (Forall_forall _ _) Hp e He) as Hpl. cbv beta in Hpl.
  by destruct (js_get (JObj x) e.1).
Qed.

Lemma predicate_after sort y p d : NoDup sort.*1 -> sort <> [] -> comparable d (JObj y) sort -> plain_keys sort y ->
  buildMongoCursorPredicate sort (Some (cursor_of sort y)) = Some p -> selects p d = after_values d (JObj y) sort.
Proof.
  intros Hn Hne Hc Hp Hb. assert (Hv : forall f, f ∈ sort.*1 -> js_get (js_get (cursor_of sort y) "values") f = js_get (JObj y) f) by (intros f Hf; by apply last_values_get).
  rewrite (cursor_selects_what_follows sort (cursor_of sort y) p d Hn Hne); [by apply after_ext | | exact Hb].
  apply Forall_forall. intros e He. destruct (proj1 (Forall_forall _ _) Hc e He) as [Hf Ha]. split; [done|]. rewrite Hv by (by apply list_elem_of_fmap_2). exact Ha.
Qed.

Lemma predicate_some sort y : exists p, buildMongoCursorPredicate sort (Some (cursor_of sort y)) = Some p.
Proof. unfold buildMongoCursorPredicate. destruct (cursor_branches _ _ _) as [|b [|b' bs]]; eauto. Qed.

(** *** Documents in order *)

Definition in_order (sort : sort_spec) (l : list js_object) : Prop := StronglySorted (fun a b => after_values b (JObj a) sort = true) l.

Lemma follows_total a b sort : comparable b (JObj a) sort ->
  after_values b (JObj a) sort = true \/ after_values a (JObj b) sort = true \/ (forall f, f ∈ sort.*1 -> js_get (JObj b) f = js_get (JObj a) f).
Proof.
  induction 1 as [|[f dir] sort [_ Ha] _ IH]; [right; right; by intros f ?%not_elem_of_nil|]. cbn [fst] in Ha. cbn [after_values].
  destruct (value_lt_total _ _ Ha) as [H|[H|H]].
  - unfold past. destruct (dir =? -1); rewrite H; auto.
  - unfold past. destruct (dir =? -1); rewrite H; auto.
  - destruct IH as [->|[->|IH]].
    + left. by rewrite H, (proj2 (jsval_eqb_eq _ _) eq_refl), orb_true_r.
    + right. left. by rewrite H, (proj2 (jsval_eqb_eq _ _) eq_refl), orb_true_r.
    + right. right. intros k. rewrite fmap_cons, elem_of_cons. intros [->|Hk]; [by symmetry | by apply IH].
Qed.

Lemma following sort rows1 x rows2 : in_order sort (rows1 ++ x :: rows2) ->
  List.filter (fun d => after_values d (JObj x) sort) (rows1 ++ x :: rows2) = rows2.
Proof.
  intros H. rewrite List.filter_app. replace (List.filter _ rows1) with (@nil js_object).
  - cbn [app List.filter]. destruct (after_values x (JObj x) sort) eqn:Hx; [by destruct (follows_asym _ _ _ Hx Hx)|].
    apply StronglySorted_app_1_r in H. apply StronglySorted_inv in H as [_ H]. induction H as [|y rows2 Hy _ IH]; [done|]. cbn. by rewrite Hy, IH.
  - symmetry. induction rows1 as [|y rows1 IH]; [done|]. cbn in H |- *. apply StronglySorted_inv in H as [H Hy].
    destruct (after_values y (JObj x) sort) eqn:E; [|by apply IH].
    rewrite Forall_forall in Hy. specialize (Hy x ltac:(set_solver)). by destruct (follows_asym _ _ _ E Hy).
Qed.

Lemma filter_conj {A} (p q : A -> bool) l : List.filter (fun x => p x && q x) l = List.filter q (List.filter p l).
Proof. induction l as [|x l IH]; [done|]. cbn. destruct (p x); cbn; [|done]. by rewrite IH. Qed.

Lemma filter_same {A} (p q : A -> bool) l : (forall x, x ∈ l -> p x = q x) -> List.filter p l = List.filter q l.
Proof. induction l as [|x l IH]; intros H; [done|]. cbn. rewrite (H x) by left. rewrite IH; [done|]. intros y Hy. apply H. by right. Qed.

Lemma filter_permuted {A} (p : A -> bool) l l' : l ≡ₚ l' -> List.filter p l ≡ₚ List.filter p l'.
Proof. induction 1 as [|x l l' _ IH|x y l|l1 l2 l3 _ IH1 _ IH2]; [done | | |by etrans]; cbn; repeat case_match; try done; by constructor. Qed.

(** *** The walk *)

Variables (p : mongo_params) (size : Z).

(** The same request for the page after a cursor. *)
Definition page_params (after : jsval) : mongo_params :=
  mk_params (pa_operation p) (pa_workspaceId p) (pa_databaseName p) (pa_collectionName p) (pa_documentId p) (pa_filter p) (pa_projection p) (pa_sort p)
    (JObj [("size", jint size); ("after", after)]) (pa_payload p) (pa_identity p).

(** A client that asks again with the cursor of each page. *)
Fixpoint walk_pages (fuel : nat) (after : jsval) : M (@mongo_state D) js_error (list jsval) :=
  match fuel with
  | O => mret []
  | S fuel' =>
      answer ← executeMongoData (page_params after);
      match js_get (js_get answer "page") "after" with
      | JStr cursor => rest ← walk_pages fuel' (JStr cursor); mret (answered answer ++ rest)
      | _ => mret (answered answer)
      end
  end.

(** The collection that a request reads. *)
Definition collection_of : result js_error collection_ref :=
  who ← mongo_identity p;
  uri ← resolve_uri (who : jsval * jsval).2 who.1;
  Ok (mk_collection uri (pa_databaseName p) (pa_collectionName p)).

Lemma answered_list sort limit items : answered (list_answer sort limit items) = JObj <$> items.
Proof. done. Qed.

(** A page that is planned is read from the collection. *)
Lemma page_executed identity w uri after plan q items s : mongo_identity p = Ok (identity, w) -> resolve_uri w identity = Ok uri -> str_in uri (ms_clients s) = true ->
  buildMongoDataApiPlan (page_request (executor_request p w) size after) = Ok plan -> mp_operation plan = "list" -> mp_detail plan = ReadDetail q ->
  mg_find (mk_collection uri (pa_databaseName p) (pa_collectionName p)) (qu_filter q) (qu_projection q) (default [("_id", 1)] (qu_sort q)) (qu_limit q) (ms_data s) = Ok items ->
  executeMongoData (page_params after) s = (Ok (list_answer (default [("_id", 1)] (qu_sort q)) (qu_limit q) items), s).
Proof.
  intros Hi Hu Hc Hp Hop Hd Hf. unfold executeMongoData, lift. unfold mbind, M_bind. change (mongo_identity (page_params after)) with (mongo_identity p). rewrite Hi.
  unfold plan_mongo. change (executor_request (page_params after) w) with (with_page (executor_request p w) (JObj [("size", jint size); ("after", after)])).
  unfold page_request in Hp. rewrite Hp, Hu. unfold clientFor. rewrite Hc. unfold try_catch, run_plan. rewrite Hd, Hop. cbv zeta. cbn [String.eqb Ascii.eqb Bool.eqb].
  unfold reading, mret, M_ret, mbind, M_bind. cbn [pa_databaseName pa_collectionName page_params]. by rewrite Hf.
Qed.

(** A request that was answered has connected, and its plan was made. *)
Lemma first_page after s v s1 : executeMongoData (page_params after) s = (Ok v, s1) ->
  exists identity w plan uri s0, mongo_identity p = Ok (identity, w) /\ plan_mongo (page_params after) w = Ok plan /\
    buildMongoDataApiPlan (page_request (executor_request p w) size after) = Ok plan /\ resolve_uri w identity = Ok uri /\
    ms_data s0 = ms_data s /\ str_in uri (ms_clients s0) = true /\ executeMongoData (page_params after) s0 = executeMongoData (page_params after) s.
Proof.
  unfold executeMongoData at 1, lift. unfold mbind, M_bind. change (mongo_identity (page_params after)) with (mongo_identity p).
  destruct (mongo_identity p) as [[identity w]|e] eqn:Hi; [|done]. destruct (plan_mongo (page_params after) w) as [plan|e] eqn:Hp; [|done].
  destruct (resolve_uri w identity) as [uri|e] eqn:Hu; [|done]. destruct (clientFor uri s) as [[[]|e] s0] eqn:Hc; [|done]. intros _. exists identity, w, plan, uri, s0.
  assert (Hs0 : str_in uri (ms_clients s0) = true).
  { unfold clientFor in Hc. destruct (str_in uri (ms_clients s)) eqn:E; [by injection Hc as <-|]. destruct (mg_connect uri (ms_data s)); [|done].
    injection Hc as <-. apply str_in_elem. cbn. set_solver. }
  split; [done|]. split; [done|]. split; [by destruct (executor_plan (page_params after) _ _ _ Hi Hp)|]. split; [done|]. split; [by eapply client_data|]. split; [done|].
  unfold executeMongoData, lift. unfold mbind, M_bind. change (mongo_identity (page_params after)) with (mongo_identity p). rewrite Hi, Hp, Hu, Hc.
  unfold clientFor. by rewrite Hs0.
Qed.

Variables (s : @mongo_state D) (c : collection_ref) (sort : sort_spec) (filter : jsval).

(** The documents that the client asks for, within its scope. *)
Definition wanted : list js_object := List.filter (fun x => in_scope (caller_fields p) x && selects filter x) (stored c (ms_data s)).

Hypothesis lists : coalesce (pa_operation p) (JStr "list") = JStr "list".
Hypothesis whole : pa_projection p = JUndef.
Hypothesis filtered : normalizeMongoDataFilter (pa_filter p) = Ok filter.
Hypothesis sorted : normalizeMongoDataSort (pa_sort p) = Ok sort.
Hypothesis reads : collection_of = Ok c.
(** The server answers, the documents have identifiers of their own, and their
    values in the fields of the order are texts, whole numbers or truth values, of
    one kind in each field. *)
Hypothesis answers : forall f n, exists items, mg_find c f None sort n (ms_data s) = Ok items.
Hypothesis identified : NoDup ((fun x => js_get (JObj x) "_id") <$> wanted).
Hypothesis alike_keys : forall a b, a ∈ wanted -> b ∈ wanted -> comparable b (JObj a) sort.

Lemma documents_apart a b : a ∈ wanted -> b ∈ wanted -> after_values a (JObj b) sort = false -> after_values b (JObj a) sort = false -> a = b.
Proof.
  intros Ha Hb Hab Hba. destruct (follows_total a b sort) as [H|[H|H]]; [by apply alike_keys | congruence | congruence |].
  specialize (H "_id" (sort_has_id _ _ sorted)). apply list_elem_of_lookup in Ha as [i Hi], Hb as [j Hj].
  assert (i = j); [|congruence]. apply (NoDup_lookup _ i j (js_get (JObj a) "_id") identified); rewrite list_lookup_fmap.
  - by rewrite Hi.
  - rewrite Hj. change (Some (js_get (JObj b) "_id") = Some (js_get (JObj a) "_id")). by rewrite H.
Qed.

Lemma sorted_in_order l : l ≡ₚ wanted -> StronglySorted (fun a b => after_values a (JObj b) sort = false) l -> in_order sort l.
Proof.
  intros Hl Hs. assert (Hin : forall x, x ∈ l -> x ∈ wanted) by (intros x; by rewrite Hl).
  assert (Hd : NoDup l) by (rewrite Hl; by eapply NoDup_fmap_1). clear Hl. induction Hs as [|a l Hs IH Ha]; [constructor|].
  apply NoDup_cons in Hd as [Hna Hd]. constructor; [apply IH; [intros x Hx; apply Hin; by right | done]|].
  apply Forall_forall. intros b Hb. rewrite Forall_forall in Ha. specialize (Ha b Hb). destruct (after_values b (JObj a) sort) eqn:E; [done|].
  exfalso. apply Hna. rewrite (documents_apart a b); [done | apply Hin; left | apply Hin; by right | done | done].
Qed.

Lemma in_order_sorted l : in_order sort l -> StronglySorted (fun a b => after_values a (JObj b) sort = false) l.
Proof.
  induction 1 as [|a l _ IH Ha]; constructor; [done|]. eapply Forall_impl; [exact Ha|]. intros b Hb. cbv beta in *.
  destruct (after_values a (JObj b) sort) eqn:E; [by destruct (follows_asym _ _ _ E Hb)|done].
Qed.

(** What a find gives of documents that are wanted. *)
Lemma find_wanted f n rest : 0 < n -> List.filter (selects f) (stored c (ms_data s)) ≡ₚ rest -> (forall x, x ∈ rest -> x ∈ wanted) ->
  exists l, l ≡ₚ rest /\ StronglySorted (fun a b => after_values a (JObj b) sort = false) l /\ mg_find c f None sort n (ms_data s) = Ok (take (Z.to_nat n) l).
Proof.
  intros Hn Hf Hin. destruct (answers f n) as [items Hi].
  destruct (find_sorted c f None sort n (ms_data s) items Hi Hn) as (l & Hl & Hs & ->).
  - intros a b. rewrite Hf. intros Ha Hb. apply alike_keys; by apply Hin.
  - exists l. split; [by rewrite Hl|]. split; [done|]. rewrite Hi. f_equal. clear - MF. induction (take (Z.to_nat n) l) as [|x xs IH]; [done|]. by rewrite fmap_cons, IH, shown_whole.
Qed.

Section pages.
Variables (identity w : jsval) (uri : string) (f0 : jsval) (l : list js_object) (s0 : @mongo_state D).
Hypothesis who : mongo_identity p = Ok (identity, w).
Hypothesis where_ : resolve_uri w identity = Ok uri.
Hypothesis connected : str_in uri (ms_clients s0) = true.
Hypothesis same_data : ms_data s0 = ms_data s.
Hypothesis some_size : 0 < size.
Hypothesis f0_object : isPlainObject f0 = true.
Hypothesis f0_selects : forall d, selects f0 d = in_scope (caller_fields p) d && selects filter d.
Hypothesis planned : forall after cursor, parseMongoDataCursor after = Ok cursor ->
  exists plan, buildMongoDataApiPlan (page_request (executor_request p w) size after) = Ok plan /\ mp_operation plan = "list" /\
    mp_detail plan = ReadDetail (page_query size f0 None sort cursor).
Hypothesis all_wanted : l ≡ₚ wanted.
Hypothesis l_in_order : in_order sort l.

Lemma collection_here : mk_collection uri (pa_databaseName p) (pa_collectionName p) = c.
Proof. pose proof reads as H. unfold collection_of in H. rewrite who in H. cbn [mbind result_bind fst snd] in H. rewrite where_ in H. by injection H. Qed.

(** What the filter of the page after a document selects. *)
Lemma after_page seen y rest : l = seen ++ y :: rest ->
  List.filter (selects (with_cursor f0 (buildMongoCursorPredicate sort (Some (cursor_of sort y))))) (stored c (ms_data s)) ≡ₚ rest.
Proof.
  intros Hl. destruct (sort_keys _ _ sorted) as [Hn Hne]. assert (Hy : y ∈ wanted) by (rewrite <- all_wanted, Hl; set_solver).
  assert (Hpy : plain_keys sort y) by (eapply comparable_plain, (alike_keys y y Hy Hy)).
  destruct (predicate_some sort y) as [pr Hpr]. rewrite Hpr. cbn [with_cursor].
  rewrite (filter_same _ (fun d => (in_scope (caller_fields p) d && selects filter d) && selects pr d)).
  2: { intros d _. rewrite selects_merged; [by rewrite f0_selects | done | by eapply cursor_predicate_object]. }
  rewrite filter_conj. change (List.filter _ (stored c (ms_data s))) with wanted.
  rewrite (filter_same (selects pr) (fun d => after_values d (JObj y) sort)).
  2: { intros d Hd. apply (predicate_after sort y pr d Hn Hne); [by apply alike_keys | done | done]. }
  etrans; [apply (filter_permuted _ wanted l); by symmetry|]. rewrite Hl. rewrite following; [done|]. by rewrite <- Hl.
Qed.

Lemma walk_on fuel seen rest after cursor : l = seen ++ rest -> parseMongoDataCursor after = Ok cursor ->
  List.filter (selects (with_cursor f0 (buildMongoCursorPredicate sort cursor))) (stored c (ms_data s)) ≡ₚ rest -> (length rest < fuel)%nat ->
  walk_pages fuel after s0 = (Ok (JObj <$> rest), s0).
Proof.
  revert seen rest after cursor. induction fuel as [|fuel IH]; intros seen rest after cursor Hl Hafter Hf Hfuel; [lia|].
  assert (Hrest : forall x, x ∈ rest -> x ∈ wanted) by (intros x Hx; rewrite <- all_wanted, Hl; set_solver).
  destruct (planned after cursor Hafter) as (plan & Hplan & Hop & Hdet).
  destruct (find_wanted _ size rest some_size Hf Hrest) as (l' & Hperm & Hs' & Hfind).
  assert (l' = rest) as ->.
  { apply (StronglySorted_unique_strong (fun a b => after_values a (JObj b) sort = false)); [| done | | done].
    - intros a b Ha Hb. apply documents_apart; apply Hrest; [by rewrite <- Hperm | done].
    - apply in_order_sorted. rewrite Hl in l_in_order. by apply StronglySorted_app_1_r in l_in_order. }
  cbn [walk_pages]. unfold mbind at 1, M_bind at 1.
  rewrite (page_executed identity w uri after plan (page_query size f0 None sort cursor) (take (Z.to_nat size) rest) s0 who where_ connected Hplan Hop Hdet) by (by rewrite collection_here, same_data).
  cbn [qu_sort qu_limit page_query from_option id]. rewrite answered_list. cbn [default from_option id]. destruct (sort_keys _ _ sorted) as [Hn Hne].
  change (js_get (js_get (list_answer sort size (take (Z.to_nat size) rest)) "page") "after") with (match next_page sort size (take (Z.to_nat size) rest) with Some c => JStr c | None => JUndef end).
  destruct (decide (Z.to_nat size <= length rest)%nat) as [Hfull|Hshort].
  - destruct (take (Z.to_nat size) rest) as [|y ys] eqn:Htake using rev_ind; [apply (f_equal length) in Htake; rewrite length_take in Htake; cbn in Htake; lia|].
    clear IHys. assert (Hlen : length (ys ++ [y]) = Z.to_nat size) by (rewrite <- Htake, length_take; lia).
    assert (Hsplit : rest = (ys ++ [y]) ++ drop (Z.to_nat size) rest) by (by rewrite <- Htake, take_drop).
    assert (Hy : y ∈ wanted) by (apply Hrest; rewrite Hsplit; set_solver).
    assert (Hpy : plain_keys sort y) by (eapply comparable_plain, (alike_keys y y Hy Hy)).
    rewrite (next_of sort size ys y Hn Hpy), Hlen, (proj2 (Z.leb_le _ _)) by lia. unfold mbind, M_bind.
    assert (Hl' : l = (seen ++ ys) ++ y :: drop (Z.to_nat size) rest) by (by rewrite Hl, Hsplit at 1; rewrite <- !app_assoc).
    rewrite (IH ((seen ++ ys) ++ [y]) (drop (Z.to_nat size) rest) _ (Some (cursor_of sort y))).
    + unfold mret, M_ret. rewrite <- fmap_app. by rewrite <- Hsplit.
    + by rewrite Hl', <- !app_assoc.
    + apply cursor_read; [by apply cursor_plain | done | done].
    + by eapply after_page.
    + rewrite length_drop. lia.
  - rewrite take_ge by lia. unfold next_page. destruct (last rest); [|done]. by rewrite (proj2 (Z.leb_gt _ _)) by lia.
Qed.

End pages.


End walk.

(** ** Samples *)

#[local] Existing Instance collection_decision.

(** A server that keeps documents in order and finds them only in that order. *)
Definition ordered_by (sort : sort_spec) (l : list js_object) : Prop := StronglySorted (fun a b => @after_values sample_queries sample_mongo_order a (JObj b) sort = false) l.

#[local] Instance ordered_by_decision sort l : Decision (ordered_by sort l).
Proof. apply StronglySorted_dec. intros a b. apply _. Defined.

Definition ordered_find (c : collection_ref) (f : jsval) (sort : sort_spec) (n : Z) (d : list js_object) : result js_error (list js_object) :=
  if decide (ordered_by sort (sample_find c f (Z.of_nat (length d)) d)) then Ok (sample_find c f n d) else Err (plain_error "Sort exceeded memory limit").

#[local] Instance ordered_driver : MongoDriver (list js_object) := {|
  object_id := @object_id _ sample_driver;
  bson_json := fun v => v;
  mg_connect := @mg_connect _ sample_driver;
  mg_find := fun c f _ sort n d => ordered_find c f sort n d;
  mg_find_one := @mg_find_one _ sample_driver;
  mg_insert_one := @mg_insert_one _ sample_driver;
  mg_update_one := @mg_update_one _ sample_driver;
  mg_replace_one := @mg_replace_one _ sample_driver;
  mg_delete_one := @mg_delete_one _ sample_driver
|}.

#[local] Instance ordered_server : @MongoServer (list js_object) sample_queries ordered_driver.
Proof.
  refine (@Build_MongoServer _ sample_queries ordered_driver (@stored _ _ _ sample_server) (fun _ x => x) _
    (@find_one_shows _ _ _ sample_server) (@insert_adds _ _ _ sample_server) (@update_writes _ _ _ sample_server) (@replace_writes _ _ _ sample_server)
    (@delete_deletes _ _ _ sample_server) (@others_kept _ _ _ sample_server)).
  intros c f p sort n d items. cbn [mg_find ordered_driver]. unfold ordered_find. destruct (decide _); [|done]. intros [= <-].
  exact (@find_shows _ _ _ sample_server c f p sort n d _ eq_refl).
Defined.

Lemma found_all c f d : sample_find c f (Z.of_nat (length d)) d = List.filter (sample_selects f) (@stored _ _ _ sample_server c d).
Proof.
  unfold sample_find. cbn [stored sample_server]. destruct (decide _); [|done]. rewrite Nat2Z.id. apply take_ge. apply List.filter_length_le.
Qed.

#[local] Instance ordered_finds : @MongoFinds (list js_object) sample_queries sample_mongo_order ordered_driver ordered_server.
Proof.
  split; [|done|done]. intros c f p sort n d items. cbn [mg_find ordered_driver]. unfold ordered_find. destruct (decide _) as [Ho|]; [|done].
  intros [= <-] Hn _. exists (sample_find c f (Z.of_nat (length d)) d). rewrite found_all in Ho |- *. split; [done|]. split; [done|].
  assert (Hid : forall l : list js_object, l = (fun x => x) <$> l) by (intros l; by rewrite list_fmap_id). cbn [shown ordered_server]. rewrite <- Hid.
  change (@stored _ _ _ sample_server c d) with (if decide (c = sample_collection) then d else []). unfold sample_find.
  destruct (decide (c = sample_collection)); [reflexivity|]. cbn. by rewrite take_nil.
Defined.

Definition page_document (id tenant : string) : js_object := [("_id", JStr id); ("tenantId", JStr tenant); ("workspaceId", JStr "ws1")].

Definition four_documents : list js_object := [page_document "a" "acme"; page_document "b" "other"; page_document "c" "acme"; page_document "d" "acme"].

Definition four_state : @mongo_state (list js_object) := mk_mongo_state [] four_documents.

Notation list_call := (sample_params "list" JUndef JUndef).
Notation four_walk := (@walk_pages (list js_object) ordered_driver sample_number_text sample_syntax sample_metadata sample_contracts sample_options list_call 2 4 JUndef four_state).
Notation four_wanted := [page_document "a" "acme"; page_document "c" "acme"; page_document "d" "acme"].

Lemma four_alike : Forall (fun a => Forall (fun b => @comparable b (JObj a) [("_id", 1)]) four_wanted) four_wanted.
Proof. repeat constructor; eexists; reflexivity. Qed.

Lemma four_answers f n : exists items, ordered_find sample_collection f [("_id", 1)] n four_documents = Ok items.
Proof.
  unfold ordered_find. rewrite decide_True; [by eexists|]. rewrite found_all. cbn [stored sample_server]. rewrite decide_True by done. unfold four_documents, ordered_by. cbn [List.filter].
  destruct (sample_selects f (page_document "a" "acme")), (sample_selects f (page_document "b" "other")), (sample_selects f (page_document "c" "acme")),
    (sample_selects f (page_document "d" "acme")); repeat constructor.
Qed.


Example four_pages : fst four_walk = Ok (JObj <$> four_wanted).
Proof. vm_compute. reflexivity. Qed.

(** *** What the cursors miss *)

(** The identifier a driver makes is an ObjectId; in a cursor it is a text, and the
    next page compares identifiers with that text. *)
Theorem object_ids_page_as_text {D} {MD : MongoDriver D} {NT : NumberText} (ST : SyntaxText) hex document :
  bson_json (object_id hex) = JStr hex -> js_get (JObj document) "_id" = object_id hex -> is_undef (object_id hex) = false ->
  exists text cursor, next_page [("_id", 1)] 1 [document] = Some text /\ parseMongoDataCursor (JStr text) = Ok (Some cursor) /\
    buildMongoCursorPredicate [("_id", 1)] (Some cursor) = Some (JObj [("_id", JObj [("$gt", JStr hex)])]).
Proof.
  intros Hj Hid Hu. exists (encodeMongoDataCursor (JObj [("values", JObj [("_id", JStr hex)])])), (JObj [("values", JObj [("_id", JStr hex)])]). split_and!.
  - unfold next_page. cbn [last length forallb fst]. rewrite Hid, Hu. cbn [fmap list_fmap fst]. by rewrite Hid, Hj.
  - apply cursor_read; [|done|done]. cbn. split; [apply NoDup_singleton|]. split; [|done]. split; [apply NoDup_singleton | done].
  - done.
Qed.

(** A document is read for the cursor as if a path were the name of a field: an
    order on a nested field has no next page. *)
Theorem nested_orders_have_no_next_page {D} {MD : MongoDriver D} {NT : NumberText} :
  next_page [("address.city", 1); ("_id", 1)] 1 [[("_id", JStr "a"); ("address", JObj [("city", JStr "Rome")])]] = None.
Proof. reflexivity. Qed.
