(* ===== verification/MongoRules.v ===== *)
(** * The rules of a MongoDB collection and the limits of a request

    What it means for a document to obey a schema, the proof that the validation
    of the adapter accepts exactly those documents, the duplicates that are found
    within one request; and what a request may ask for. *)
From S2P Require Import Prelude JsValue Json Regex PgTable PgSemantics MongoFilter MongoWrite MongoPipeline MongoTransfer MongoPlan MongoQuery MongoScope.
From Stdlib Require Import Ascii.
Local Open Scope Z_scope.

(** Induction through the items and the properties of a schema. *)
Lemma schema_nested_ind (P : schema -> Prop) :
  (forall bson enum minimum maximum minLength maxLength items required properties,
     match items with Some node => P node | None => True end -> Forall (fun p => P p.2) properties ->
     P (mk_schema bson enum minimum maximum minLength maxLength items required properties)) -> forall node, P node.
Proof.
  intros H. fix IH 1. intros [bson enum mn mx mnl mxl items required properties]. apply H.
  - destruct items as [node|]; [apply IH | exact I].
  - induction properties as [|[name node] properties IHp]; constructor; [apply IH | done].
Qed.

Section rules.
Context `{NT : !NumberText}.

Definition within_bounds (minimum maximum : option jsnum) (n : jsnum) : Prop :=
  (forall m, minimum = Some m -> num_ltb n m = false) /\ (forall m, maximum = Some m -> num_ltb m n = false).

(** The value is of an accepted type, among the listed ones, within the bounds,
    its items and its properties obey their schemas, and nothing is missing. *)
Fixpoint obeys (node : schema) (v : jsval) : Prop :=
  match node with
  | mk_schema bson enum minimum maximum minLength maxLength items required properties =>
      (forall b, bson = Some b -> matchesBsonType v b = true)
      /\ (forall values, enum = Some values -> exists x, x ∈ values /\ json_text x = json_text v)
      /\ (forall n, v = JNum n -> within_bounds minimum maximum n)
      /\ (forall s, v = JStr s -> within_bounds minLength maxLength (NInt (Z.of_nat (String.length s))))
      /\ (forall xs, v = JArr xs -> match items with Some node' => Forall (obeys node') xs | None => True end)
      /\ (forall kvs, v = JObj kvs -> Forall (fun field => js_get v field <> JUndef) required /\
            foldr and True (List.map (fun p : string * schema => js_get v p.1 <> JUndef -> obeys p.2 (js_get v p.1)) properties))
  end.

Lemma bound_nothing bound broken text : bound_violation bound broken text = [] <-> forall m, bound = Some m -> broken m = false.
Proof. unfold bound_violation. destruct bound as [b|]; [|split; [intros _ m; done | done]]. destruct (broken b) eqn:E; split; try done; [intros H; specialize (H b eq_refl); congruence | by intros _ m [= <-]]. Qed.

Lemma app_nothing {A} (l l' : list A) : l ++ l' = [] <-> l = [] /\ l' = [].
Proof. split; [apply app_nil | by intros [-> ->]]. Qed.

Lemma flat_nothing {A B} (f : A -> list B) l : List.flat_map f l = [] <-> Forall (fun x => f x = []) l.
Proof. induction l as [|x l IH]; [split; constructor|]. cbn. by rewrite app_nothing, IH, Forall_cons. Qed.

Lemma concat_indexed {A B} (f : nat -> A -> list B) (P : A -> Prop) l : (forall i x, x ∈ l -> f i x = [] <-> P x) -> concat (imap f l) = [] <-> Forall P l.
Proof.
  revert f. induction l as [|x l IH]; intros f H; [split; constructor|]. cbn [imap concat]. rewrite app_nothing, (H 0%nat x) by left. rewrite Forall_cons.
  assert (concat (imap (f ∘ S) l) = [] <-> Forall P l) as Hl; [|by rewrite Hl]. apply IH. intros i y Hy. apply (H (S i) y). by right.
Qed.

Lemma enum_nothing enum v path : enum_violations enum v path = [] <-> forall values, enum = Some values -> exists x, x ∈ values /\ json_text x = json_text v.
Proof.
  unfold enum_violations. destruct enum as [values|]; [|split; [intros _ m; done | done]].
  destruct (existsb (fun entry => equal_texts entry v) values) eqn:E; split; try done.
  - intros _ vs [= <-]. apply existsb_exists in E as (x & Hx & Hs%String.eqb_eq). exists x. by rewrite list_elem_of_In.
  - intros H. destruct (H values eq_refl) as (x & Hx & Hs). assert (existsb (fun entry => equal_texts entry v) values = true); [|congruence].
    apply existsb_exists. exists x. rewrite <- list_elem_of_In. split; [done|]. by apply String.eqb_eq.
Qed.

Lemma undef_nothing v {B} (b : B) (field : string) : (if is_undef (js_get v field) then [b] else []) = [] <-> js_get v field <> JUndef.
Proof. by destruct (js_get v field). Qed.

Lemma keep_true (P Q R : Prop) : P -> (Q <-> R) -> (Q <-> P /\ R).
Proof. tauto. Qed.

Lemma validation_obeys node : forall v path, validateSchemaNode node v path false = [] <-> obeys node v.
Proof.
  induction node as [bson enum mn mx mnl mxl items required properties Hitems Hprops] using schema_nested_ind. intros v path. cbn [validateSchemaNode obeys].
  assert (Hb : match bson with Some b => matchesBsonType v b | None => true end = true <-> forall b, bson = Some b -> matchesBsonType v b = true).
  { destruct bson as [b|]; [split; [by intros H b' [= <-] | intros H; by apply H] | by split]. }
  destruct (match bson with Some b => matchesBsonType v b | None => true end) eqn:E.
  - assert (Hnil : match bson with Some b => if matchesBsonType v b then [] else [path +:+ " must match bsonType " +:+ types_text b +:+ "."] | None => [] end = [])
      by (destruct bson as [b|]; [by rewrite E | done]).
    rewrite Hnil. cbn [app]. rewrite !app_nothing, enum_nothing. apply keep_true; [by apply Hb|]. apply and_iff_compat_l. clear Hb Hnil E.
    destruct v as [| |x|n|s|xs|kvs]; cbn [scalar_violations app]; try (split; [intros _; split_and!; intros; discriminate | done]).
    + rewrite app_nothing, !bound_nothing. split; [intros [[H1 H2] _]; split_and!; try (intros; discriminate); by intros m [= <-] | intros (H & _); by split; [apply H|]].
    + rewrite app_nothing, !bound_nothing. split; [intros [[H1 H2] _]; split_and!; try (intros; discriminate); by intros m [= <-] | intros (_ & H & _); by split; [apply H|]].
    + assert (Hi : match items with Some node' => concat (imap (fun index entry => validateSchemaNode node' entry (path +:+ "[" +:+ show_Z (Z.of_nat index) +:+ "]") false) xs) | None => [] end = []
                   <-> match items with Some node' => Forall (obeys node') xs | None => True end).
      { destruct items as [node'|]; [|by split]. apply concat_indexed. intros i x _. apply Hitems. }
      split; [intros (_ & H & _); split_and!; try (intros; discriminate); intros ys [= <-]; by apply Hi | intros (_ & _ & H & _); split_and!; try done; by apply Hi, H].
    + rewrite app_nothing, !flat_nothing.
      assert (Hp : Forall (fun p : string * schema => (if is_undef (js_get (JObj kvs) p.1) then [] else validateSchemaNode p.2 (js_get (JObj kvs) p.1) (path +:+ "." +:+ p.1) false) = []) properties
                   <-> foldr and True (List.map (fun p : string * schema => js_get (JObj kvs) p.1 <> JUndef -> obeys p.2 (js_get (JObj kvs) p.1)) properties)).
      { clear - Hprops. induction Hprops as [|p properties Hp _ IH]; [split; constructor|]. rewrite Forall_cons, IH. cbn [List.map foldr]. apply and_iff_compat_r.
        destruct (is_undef _) eqn:Eu; [destruct (js_get (JObj kvs) p.1); try discriminate Eu; by split|]. rewrite Hp. split; [done|]. intros H. apply H. intros Hn. by rewrite Hn in Eu. }
      assert (Hr : Forall (fun field => (if is_undef (js_get (JObj kvs) field) then [path +:+ "." +:+ field +:+ " is required."] else []) = []) required
                   <-> Forall (fun field => js_get (JObj kvs) field <> JUndef) required).
      { rewrite !Forall_forall. split; intros H field Hin; apply (undef_nothing (JObj kvs) (path +:+ "." +:+ field +:+ " is required.") field), (H field Hin). }
      rewrite Hr, Hp. split; [intros (_ & _ & H); split_and!; try (intros; discriminate); by intros kvs' [= <-] | intros (_ & _ & _ & H); split_and!; try done; by apply (H kvs)].
  - assert (Hne : match bson with Some b => if matchesBsonType v b then [] else [path +:+ " must match bsonType " +:+ types_text b +:+ "."] | None => [] end <> [])
      by (destruct bson as [b|]; [by rewrite E | done]).
    rewrite app_nothing. split; [intros [H _]; done|]. intros (H & _). apply Hb in H. congruence.
Qed.

(** C29: the validation of the MongoDB data API accepts a document exactly when it
    obeys the rules of the collection: type, enumeration, bounds, required fields,
    and the schemas of items and properties at every depth. *)
Theorem rules_are_enforced node document : validateCandidateDocument (Some node) (Some document) false = Ok true <-> obeys node (JObj document).
Proof.
  rewrite <- (validation_obeys node (JObj document) "$"). unfold validateCandidateDocument, validateMongoDocumentAgainstCollectionRules.
  destruct (validateSchemaNode node (JObj document) "$" false); [|split; done]. split; [done|]. intros _. by rewrite bool_decide_true by by eexists.
Qed.

(** ** Duplicates *)

(** What the documents say of the unique indexes, document by document. *)
Definition signatures_of (indexes : list mongo_index) (document : js_object) : checked (list string) :=
  sigs ← traverse_checked (fun i => buildUniqueIndexSignature i document) indexes; Ok (List.flat_map option_list (sigs : list (option string))).

Definition all_signatures (documents : list js_object) (indexes : list mongo_index) : checked (list string) :=
  sigs ← traverse_checked (signatures_of indexes) documents; Ok (concat (sigs : list (list string))).

(** The signatures seen so far, and whether one was seen twice. *)
Definition tracks (sigs : list string) (state : list (string * nat) * list index_conflict) : Prop :=
  (state.2 = [] <-> NoDup sigs) /\ forall s, is_Some (assoc_lookup s state.1) <-> s ∈ sigs.

Lemma tracks_step i document state index sig sigs : tracks sigs state -> buildUniqueIndexSignature index document = Ok sig ->
  exists state', detect_one i document (Ok state) index = Ok state' /\ tracks (sigs ++ option_list sig) state'.
Proof.
  destruct state as [seen conflicts]. intros [Hc Hs] Hsig. unfold detect_one. cbn [mbind result_bind]. rewrite Hsig. cbn [mbind result_bind].
  destruct sig as [s|]; cbn [option_list]; [|eexists; split; [done|]; by rewrite app_nil_r]. cbn [fst snd] in *.
  destruct (assoc_lookup s seen) as [first|] eqn:E.
  - eexists. split; [done|]. assert (Hin : s ∈ sigs) by (apply Hs; by rewrite E). split; cbn [fst snd].
    + split; [by intros [_ ?]%app_nil|]. intros (_ & Hd & _)%NoDup_app. destruct (Hd s Hin). left.
    + intros s'. rewrite Hs. set_solver.
  - eexists. split; [done|]. assert (Hin : s ∉ sigs) by (rewrite <- Hs, E; by intros []). split; cbn [fst snd].
    + rewrite Hc. split; [|by intros [H _]%NoDup_app]. intros Hn. apply NoDup_app. split; [done|]. split; [|apply NoDup_singleton].
      intros s' Hs' ->%list_elem_of_singleton. done.
    + intros s'. destruct (decide (s' = s)) as [->|Hne].
      * rewrite object_lookup_set. split; [set_solver | by eexists].
      * rewrite assoc_lookup_set_ne by done. rewrite Hs. set_solver.
Qed.

Lemma tracks_document i document indexes sigs new state : tracks sigs state -> signatures_of indexes document = Ok new ->
  exists state', foldl (detect_one i document) (Ok state) indexes = Ok state' /\ tracks (sigs ++ new) state'.
Proof.
  unfold signatures_of. intros Ht H. rewrite result_bind_ok in H. destruct H as (os & Hos & [= <-]). apply traverse_checked_ok in Hos.
  revert sigs state Ht. induction Hos as [|index sig indexes os Hsig _ IH]; intros sigs state Ht; [exists state; by rewrite app_nil_r|].
  destruct (tracks_step i document state index sig sigs Ht Hsig) as (state1 & H1 & Ht1). cbn [foldl]. rewrite H1.
  destruct (IH _ _ Ht1) as (state2 & H2 & Ht2). exists state2. split; [done|]. cbn [List.flat_map].
  by rewrite app_assoc.
Qed.

Lemma tracks_documents i documents indexes sigs new state : tracks sigs state -> all_signatures documents indexes = Ok new ->
  exists state', detect_from i documents indexes (Ok state) = Ok state' /\ tracks (sigs ++ new) state'.
Proof.
  unfold all_signatures. intros Ht H. rewrite result_bind_ok in H. destruct H as (ls & Hls & [= <-]). apply traverse_checked_ok in Hls.
  revert i sigs state Ht. induction Hls as [|document l documents ls Hl _ IH]; intros i sigs state Ht; [exists state; by rewrite app_nil_r|].
  destruct (tracks_document i document indexes sigs l state Ht Hl) as (state1 & H1 & Ht1). cbn [detect_from]. rewrite H1.
  destruct (IH (S i) _ _ Ht1) as (state2 & H2 & Ht2). exists state2. split; [done|]. cbn [concat]. by rewrite app_assoc.
Qed.

(** Duplicates are reported exactly when a signature occurs twice. *)
Theorem duplicates_are_detected documents indexes sigs : all_signatures documents indexes = Ok sigs ->
  exists conflicts, detectMongoRequestUniqueIndexConflicts documents indexes = Ok conflicts /\ (conflicts = [] <-> NoDup sigs).
Proof.
  intros H. destruct (tracks_documents 0 documents indexes [] sigs ([], [])) as (state & Hd & Ht & _).
  - split; [split; [constructor | done] | intros s; split; [by intros [] | by intros ?%not_elem_of_nil]].
  - done.
  - exists state.2. unfold detectMongoRequestUniqueIndexConflicts. by rewrite Hd.
Qed.

End rules.

(** ** Samples *)

Definition order_rules : schema :=
  mk_schema (Some (OneType "object")) None None None None None None ["state"]
    [("state", mk_schema None (Some [JStr "open"; JStr "closed"]) None None None None None [] []);
     ("lines", mk_schema (Some (OneType "array")) None None None None None (Some (mk_schema (Some (OneType "number")) None (Some (NInt 0)) None None None None [] [])) [] [])].

Example rules_accept : @validateCandidateDocument sample_number_text (Some order_rules) (Some [("state", JStr "open"); ("lines", JArr [jint 3])]) false = Ok true.
Proof. vm_compute. reflexivity. Qed.

Example rules_refuse : @validateSchemaNode sample_number_text order_rules (JObj [("lines", JArr [jint 3; jint (-1)])]) "$" false
  = ["$.state is required."; "$.lines[1] must be >= 0."].
Proof. vm_compute. reflexivity. Qed.

(** * What a MongoDB request may ask for

    The operators that reach the server, the stages of a pipeline and their
    operands, and the limits that the plan of a workspace sets. *)

(** ** Objects made from entries *)

Lemma set_forall {A} (P : string * A -> Prop) k v (kvs : list (string * A)) : P (k, v) -> Forall P kvs -> Forall P (assoc_set k v kvs).
Proof.
  intros Hv. induction 1 as [|[k' w] kvs Hw Hk IH]; cbn; [by constructor|]. destruct (String.eqb_spec k k') as [<-|]; by constructor.
Qed.

Lemma entries_forall (P : string * jsval -> Prop) acc kvs : Forall P acc -> Forall P kvs -> Forall P (foldl (fun acc (kv : string * jsval) => assoc_set kv.1 kv.2 acc) acc kvs).
Proof.
  intros Ha H. revert acc Ha. induction H as [|[k v] kvs Hv _ IH]; intros acc Ha; [done|]. cbn [foldl fst snd]. apply IH. by apply set_forall.
Qed.

Lemma set_length {A} k (v : A) kvs : (length (assoc_set k v kvs) <= S (length kvs))%nat.
Proof. induction kvs as [|[k' w] kvs IH]; cbn; [done|]. destruct (String.eqb k k'); cbn; lia. Qed.

Lemma entries_length acc kvs : (length (foldl (fun acc (kv : string * jsval) => assoc_set kv.1 kv.2 acc) acc kvs) <= length acc + length kvs)%nat.
Proof. revert acc. induction kvs as [|[k v] kvs IH]; intros acc; cbn [foldl length fst snd]; [lia|]. specialize (IH (assoc_set k v acc)). pose proof (set_length k v acc). lia. Qed.

(** ** The operators of a filter *)

(** Every name that starts with [$], at any depth. *)
Fixpoint operators_in (v : jsval) : list string :=
  match v with
  | JArr xs => List.flat_map operators_in xs
  | JObj kvs => List.flat_map (fun kv => (if is_operator kv.1 then [kv.1] else []) ++ operators_in kv.2) kvs
  | _ => []
  end.

Definition FILTER_OPERATORS : list string := ALLOWED_TOP_LEVEL_FILTER_OPERATORS ++ ALLOWED_FIELD_FILTER_OPERATORS.

Definition known_operators (v : jsval) : Prop := Forall (fun o => o ∈ FILTER_OPERATORS) (operators_in v).

Lemma known_leaf v : operators_in v = [] -> known_operators v.
Proof. unfold known_operators. intros ->. constructor. Qed.

Lemma known_object kvs : known_operators (JObj kvs) <-> Forall (fun kv => (is_operator kv.1 = true -> kv.1 ∈ FILTER_OPERATORS) /\ known_operators kv.2) kvs.
Proof.
  unfold known_operators. induction kvs as [|kv kvs IH]; [split; constructor|]. cbn [operators_in List.flat_map]. rewrite !Forall_app, Forall_cons.
  change (List.flat_map _ kvs) with (operators_in (JObj kvs)). rewrite IH. destruct (is_operator kv.1).
  - rewrite Forall_singleton. naive_solver.
  - rewrite Forall_nil. naive_solver.
Qed.

Lemma known_array xs : known_operators (JArr xs) <-> Forall known_operators xs.
Proof.
  unfold known_operators. induction xs as [|x xs IH]; [split; constructor|]. cbn [operators_in List.flat_map]. rewrite Forall_app, Forall_cons.
  change (List.flat_map _ xs) with (operators_in (JArr xs)). by rewrite IH.
Qed.

Lemma field_path_plain v name path : normalizeFieldPath v name = Ok path -> is_operator path = false.
Proof.
  unfold normalizeFieldPath. intros H. bind_ok H. destruct (re_test_full FIELD_PATH_PATTERN x) eqn:E; [|done]. injection H as <-.
  unfold is_operator, starts_with. destruct (chars x) as [|c l] eqn:Hc; [done|]. change (chars "$") with ["$"%char]. cbn [prefix_chars].
  destruct (Ascii.eqb_spec "$" c) as [<-|]; [|done]. exfalso. unfold re_test_full in E. rewrite Hc in E. clear Hc. cbn [re_full] in E.
  change (deriv "$" FIELD_PATH_PATTERN) with RNone in E. clear -E. induction l as [|c l IH]; [done | by apply IH].
Qed.

Lemma regex_known v path x : normalizeRegexValue v path = Ok x -> known_operators x.
Proof.
  unfold normalizeRegexValue. intros H. destruct v as [| | | | | |kvs]; try done; [injection H as <-; by apply known_leaf|].
  destruct (js_get (JObj kvs) "pattern") as [| | | |s'| |]; try done. destruct (js_get (JObj kvs) "options"); injection H as <-; by apply known_leaf.
Qed.

Lemma allowed_known o : str_in o ALLOWED_FIELD_FILTER_OPERATORS = true -> o ∈ FILTER_OPERATORS.
Proof. rewrite str_in_elem. unfold FILTER_OPERATORS. set_solver. Qed.

(** The entry of an object of operators, and of an object of fields. *)
Definition operator_entry (path : string) (kv kv' : string * jsval) : Prop :=
  str_in kv.1 ALLOWED_FIELD_FILTER_OPERATORS = true /\ refused_operand kv.1 kv.2 path = None /\ kv'.1 = kv.1 /\
  (if String.eqb kv.1 "$exists" then Ok kv.2 else if String.eqb kv.1 "$regex" then normalizeRegexValue kv.2 path else normalizeFilterScalar kv.2 path) = Ok kv'.2.

Definition field_entry (path : string) (kv kv' : string * jsval) : Prop :=
  normalizeFieldPath (JStr kv.1) ("filter." +:+ path +:+ "." +:+ kv.1) = Ok kv'.1 /\ normalizeFilterScalar kv.2 (path +:+ "." +:+ kv.1) = Ok kv'.2.

Lemma scalar_object kvs path x : normalizeFilterScalar (JObj kvs) path = Ok x ->
  exists ys, x = JObj (from_entries ys) /\ (Forall2 (operator_entry path) kvs ys \/ Forall2 (field_entry path) kvs ys).
Proof.
  intros H. destruct kvs as [|kv0 kvs]; [done|]. cbn [normalizeFilterScalar] in H.
  destruct (existsb (fun kv : string * jsval => is_operator kv.1) (kv0 :: kvs)); rewrite result_bind_ok in H; destruct H as (ys & Hys & H); injection H as <-;
    exists ys; (split; [done|]); [left | right]; apply traverse_checked_ok in Hys; (eapply Forall2_impl; [exact Hys|]); clear; intros kv kv' H; cbv beta in H.
  - unfold operator_entry. destruct (str_in kv.1 _); [|done]. cbn [negb] in H. destruct (refused_operand _ _ _); [done|]. bind_ok H. by injection H as <-.
  - unfold field_entry. bind_ok H. bind_ok H. by injection H as <-.
Qed.

Lemma scalar_known v : forall path x, normalizeFilterScalar v path = Ok x -> known_operators x.
Proof.
  induction v as [| |b|n|s|xs IH|kvs IH] using jsval_nested_ind; intros path x H; try done; try (injection H as <-; by apply known_leaf).
  - cbn [normalizeFilterScalar] in H. bind_ok H. injection H as <-. apply traverse_checked_ok in Hx. apply known_array.
    clear -IH Hx. induction Hx as [|y z l l' Hy _ IHl]; [constructor|]. apply Forall_cons in IH as [Hk IH]. constructor; [by eapply Hk | by apply IHl].
  - apply scalar_object in H as (ys & -> & Hys). apply known_object, entries_forall; [constructor|].
    destruct Hys as [Hys|Hys]; induction Hys as [|[k v] [k' v'] l l' Hy _ IHl]; try constructor; apply Forall_cons in IH as [Hk IH]; try (by apply IHl).
    + destruct Hy as (Ho & Hr & Hk' & Hv). cbn [fst snd] in *. subst k'. split; [intros _; by apply allowed_known|].
      destruct (String.eqb_spec k "$exists") as [->|]; [|destruct (String.eqb k "$regex"); [by eapply regex_known | by eapply Hk]].
      injection Hv as <-. destruct v; try done; by apply known_leaf.
    + destruct Hy as [Hp Hv]. cbn [fst snd] in *. split; [|by eapply Hk]. apply field_path_plain in Hp. congruence.
Qed.

Definition gives_known (v : jsval) : Prop := forall x, normalizeMongoDataFilter v = Ok x -> known_operators x.

(** A filter, and the elements of a list of filters. *)
Lemma filter_or_list v : gives_known v /\ match v with JArr xs => Forall gives_known xs | _ => True end.
Proof.
  induction v as [| |b|n|s|xs IH|kvs IH] using jsval_nested_ind; (split; [|try done]); try (intros x H; try done; injection H as <-; by apply known_leaf).
  - eapply Forall_impl; [exact IH|]. by intros v [H _].
  - intros x H. destruct kvs as [|kv0 kvs0]; [injection H as <-; by apply known_leaf|].
    cbn [normalizeMongoDataFilter] in H. rewrite result_bind_ok in H. destruct H as (ys & Hys & H). injection H as <-. apply traverse_checked_ok in Hys.
    apply known_object, entries_forall; [constructor|]. induction Hys as [|[k v] y l l' Hy _ IHl]; [constructor|]. apply Forall_cons in IH as [[_ Hk] IH].
    constructor; [|by apply IHl]. cbn [fst snd] in Hy, Hk. destruct (is_operator k) eqn:Ho.
    + destruct (str_in k ALLOWED_TOP_LEVEL_FILTER_OPERATORS) eqn:Ha; [|done]. cbn [negb] in Hy. destruct v as [| | | | |[|v vs]|]; try done. bind_ok Hy. injection Hy as <-.
      cbn [fst snd]. split; [intros _; apply str_in_elem in Ha; unfold FILTER_OPERATORS; set_solver|]. apply known_array. apply traverse_checked_ok in Hx.
      clear -Hk Hx. induction Hx as [|u w l l' Hw _ IHl]; [constructor|]. apply Forall_cons in Hk as [Hu Hk]. constructor; [by apply Hu | by apply IHl].
    + bind_ok Hy. bind_ok Hy. injection Hy as <-. cbn [fst snd]. apply field_path_plain in Hx. split; [congruence | by eapply scalar_known].
Qed.

Lemma filter_known v x : normalizeMongoDataFilter v = Ok x -> known_operators x.
Proof. apply filter_or_list. Qed.

(** ** The stages of a pipeline *)

Section stages.
Context `{NT : !NumberText}.
Variable kind : string.

Definition operand_within (l : pipeline_limits) (name : string) (v : jsval) : Prop :=
  (name = "$match" -> known_operators v) /\
  (name = "$limit" -> exists n, v = jint n /\ 1 <= n <= pl_maxResultWindow l) /\
  (name = "$skip" -> exists n, v = jint n /\ 0 <= n <= pl_maxSkip l) /\
  (name = "$sort" -> exists s, v = sort_value s /\ Z.of_nat (length s) <= pl_maxSortKeys l + 1).

Definition lookups_in (stages : list jsval) : Z := Z.of_nat (length (List.filter (fun s => has_own s "$lookup") stages)).

(** A stage that may be there; the branches of a [$facet] are pipelines. *)
Inductive stage_within (l : pipeline_limits) : jsval -> Prop :=
| simple_within name v : name ∈ allowed_stages kind -> name ∉ AGGREGATION_BLOCKED_STAGES -> name <> "$facet" -> operand_within l name v ->
    stage_within l (JObj [(name, v)])
| facet_within branches : "$facet" ∈ allowed_stages kind -> Z.of_nat (length branches) <= pl_maxFacetBranches l ->
    Forall (fun b => exists stages, b.2 = JArr stages /\ Z.of_nat (length stages) <= pl_maxStages l /\ lookups_in stages <= pl_maxLookupStages l /\
                       Forall (stage_within l) stages) branches ->
    stage_within l (JObj [("$facet", JObj branches)]).

Variable limits : pipeline_limits.

Lemma simple_stage_within path name v stage : name ∈ allowed_stages kind -> name ∉ AGGREGATION_BLOCKED_STAGES -> name <> "$facet" -> name <> "$lookup" ->
  simple_stage limits path name v = Ok stage -> stage_within limits stage /\ has_own stage "$lookup" = false.
Proof.
  intros Ha Hb Hf Hl H. destruct (simple_stage_name _ _ _ _ _ H) as [v' ->].
  split; [|unfold has_own; cbn [assoc_lookup]; by destruct (String.eqb_spec "$lookup" name); [congruence|]]. apply simple_within; [done..|]. unfold simple_stage in H.
  destruct (String.eqb_spec name "$match") as [->|H1]; [bind_ok H; injection H as <-; split_and!; try done; intros _; by eapply filter_known|].
  destruct (String.eqb_spec name "$project") as [->|]; [by split_and!|].
  destruct (String.eqb_spec name "$sort") as [->|].
  { bind_ok H. destruct (Z.ltb_spec (pl_maxSortKeys limits + 1) (Z.of_nat (length x))); [done|]. injection H as <-. split_and!; try done. intros _. by exists x. }
  destruct (String.eqb_spec name "$limit") as [->|].
  { bind_ok H. injection H as <-. split_and!; try done. intros _. exists x. split; [done|]. by apply integer_within_ok in Hx. }
  destruct (String.eqb_spec name "$skip") as [->|].
  { bind_ok H. injection H as <-. split_and!; try done. intros _. exists x. split; [done|]. by apply integer_within_ok in Hx. }
  by split_and!.
Qed.

Lemma stage_named path stage name : stage_name kind path stage = Ok name -> exists v, stage = JObj [(name, v)] /\ name ∈ allowed_stages kind /\ name ∉ AGGREGATION_BLOCKED_STAGES.
Proof.
  unfold stage_name. destruct stage as [| | | | | |[|[n v] [|]]]; try done. destruct (str_in n AGGREGATION_BLOCKED_STAGES) eqn:Eb; [done|].
  destruct (str_in n (allowed_stages kind)) eqn:Ea; [|done]. intros [= <-]. exists v. split; [done|]. by rewrite <- str_in_elem, <- str_in_not_elem.
Qed.

(** What a stage adds to the count of lookups. *)
Definition counts (stage : jsval) (s s' : pipeline_state) : Prop :=
  ps_lookups s' = ps_lookups s + (if has_own stage "$lookup" then 1 else 0) /\ (ps_lookups s <= pl_maxLookupStages limits -> ps_lookups s' <= pl_maxLookupStages limits).

Definition stage_good (v : jsval) : Prop := forall i s stage s', normalizePipelineStage kind limits i v s = Ok (stage, s') -> stage_within limits stage /\ counts stage s s'.
Definition stages_good (v : jsval) : Prop := match v with JArr xs => Forall stage_good xs | _ => True end.
Definition branches_good (v : jsval) : Prop := match v with JObj kvs => Forall (fun kv => stages_good kv.2) kvs | _ => True end.

Lemma traverse_good xs : Forall stage_good xs -> forall i s stages s', traverse_stages (normalizePipelineStage kind limits) i xs s = Ok (stages, s') ->
  Forall (stage_within limits) stages /\ length stages = length xs /\ ps_lookups s' = ps_lookups s + lookups_in stages /\
  (ps_lookups s <= pl_maxLookupStages limits -> ps_lookups s' <= pl_maxLookupStages limits).
Proof.
  induction 1 as [|x xs Hx _ IH]; intros i s stages s' H; cbn [traverse_stages] in H.
  - injection H as <- <-. split_and!; try done. unfold lookups_in. cbn. lia.
  - destruct (normalizePipelineStage kind limits i x s) as [[stage s1]|] eqn:H1; [|done]. destruct (traverse_stages _ (S i) xs s1) as [[rest s2]|] eqn:H2; [|done].
    injection H as <- <-. destruct (Hx _ _ _ _ H1) as (Hw & Hc & Hm). destruct (IH _ _ _ _ H2) as (Hws & Hlen & Hcs & Hms). split_and!; [by constructor | cbn; by rewrite Hlen | | tauto].
    rewrite Hcs, Hc. unfold lookups_in. cbn [List.filter]. destruct (has_own stage "$lookup"); cbn [length]; lia.
Qed.

Hypothesis some_lookups : 0 <= pl_maxLookupStages limits.

Lemma pipeline_stages v stages : pipeline_stages_of kind limits v = Ok stages -> v = JArr stages /\ Z.of_nat (length stages) <= pl_maxStages limits /\ byte_length (json_text v) <= pl_maxPayloadBytes limits.
Proof.
  unfold pipeline_stages_of. destruct v as [| | | | |[|x xs]|]; try done. destruct (Z.ltb_spec (pl_maxStages limits) (Z.of_nat (length (x :: xs)))); [done|].
  destruct (Z.ltb_spec (pl_maxPayloadBytes limits) (byte_length (json_text (JArr (x :: xs))))); [done|]. by intros [= <-].
Qed.

Lemma facet_good v path s' (branches : js_object) : branches_good v -> facet_check limits path v = Ok tt ->
  match v with
  | JObj kvs => traverse_checked (fun kv =>
      match kv.2 with
      | JArr stages =>
          _ ← pipeline_stages_of kind limits kv.2;
          r ← traverse_stages (normalizePipelineStage kind limits) 0 stages (mk_pipeline_state 0 []);
          Ok (kv.1, JArr (r.1 : list jsval))
      | _ => Err (invalid_pipeline (path +:+ "." +:+ kv.1 +:+ " must be an array of pipeline stages."))
      end) kvs
  | _ => Ok []
  end = Ok branches -> "$facet" ∈ allowed_stages kind -> stage_within limits (JObj [("$facet", JObj (from_entries branches))]) /\ counts (JObj [("$facet", JObj (from_entries branches))]) s' s'.
Proof.
  intros Hg Hc H Ha. split; [|split; [cbn; lia | done]]. unfold facet_check in Hc. destruct v as [| | | | | |[|kv kvs]]; try done.
  destruct (Z.ltb_spec (pl_maxFacetBranches limits) (Z.of_nat (length (kv :: kvs)))) as [|Hlen]; [done|]. apply traverse_checked_ok in H.
  apply facet_within; [done | |].
  - pose proof (entries_length [] branches). apply Forall2_length in H. unfold from_entries. cbn [length] in *. lia.
  - apply entries_forall; [constructor|]. clear Hc Hlen Ha. cbn [branches_good] in Hg.
    induction H as [|b b' l l' Hb _ IH]; [constructor|]. apply Forall_cons in Hg as [Hb1 Hg]. constructor; [|by apply IH]. clear IH Hg.
    unfold stages_good in Hb1. destruct b.2 as [| | | | |stages|]; try done. bind_ok Hb. bind_ok Hb. injection Hb as <-. destruct x0 as [stages' s1].
    destruct (traverse_good _ Hb1 _ _ _ _ Hx0) as (Hw & Hl & Hcnt & Hmax). apply pipeline_stages in Hx as ([= <-] & Hms & _). exists stages'. cbn [fst snd]. split_and!; [done | lia | | done].
    cbn [ps_lookups] in *. specialize (Hmax some_lookups). lia.
Qed.

Lemma all_good v : stage_good v /\ stages_good v /\ branches_good v.
Proof.
  induction v as [| |b|n|str|xs IH|kvs IH] using jsval_nested_ind; split_and!; try done; try (by intros i s stage s').
  - cbn [stages_good]. eapply Forall_impl; [exact IH|]. by intros v (H & _).
  - intros i s stage s' H. cbn [normalizePipelineStage] in H. destruct (stage_name kind _ (JObj kvs)) as [name|] eqn:Hn; [|done].
    apply stage_named in Hn as (v & [= ->] & Ha & Hb). apply Forall_cons in IH as [(_ & _ & Hbr) _]. cbn [snd] in Hbr.
    destruct (String.eqb_spec name "$lookup") as [->|Hl].
    { unfold lookup_stage in H. cbv zeta in H. cbn [ps_lookups ps_names] in H. destruct (Z.ltb_spec (pl_maxLookupStages limits) (ps_lookups s + 1)) as [|Hmax]; [done|].
      destruct (negb _); [done|]. injection H as <- <-. split; [apply simple_within; [done | done | done | by split_and!]|]. by split. }
    destruct (String.eqb_spec name "$facet") as [->|Hf].
    { rewrite result_bind_ok in H. destruct H as ([] & Hc & H). rewrite result_bind_ok in H. destruct H as (branches & Hbs & H). injection H as <- <-.
      destruct (facet_good v _ s branches Hbr Hc Hbs Ha) as [Hw _]. split; [done|]. split; [cbn; lia | done]. }
    rewrite result_bind_ok in H. destruct H as (stage' & Hs & H). injection H as <- <-. destruct (simple_stage_within _ _ _ _ Ha Hb Hf Hl Hs) as [Hw Ho].
    split; [done|]. unfold counts. rewrite Ho. cbn [ps_lookups]. split; [lia | done].
  - cbn [branches_good]. eapply Forall_impl; [exact IH|]. by intros kv (_ & H & _).
Qed.

Lemma stages_all_good xs : Forall stage_good xs.
Proof. apply Forall_forall. intros x _. apply all_good. Qed.

(** A pipeline made regular, before and after the match on the scope is put first. *)
Lemma pipeline_good pipeline scope stages bytes summary : normalizeMongoDataPipeline kind limits pipeline scope = Ok (stages, bytes, summary) ->
  exists own, Forall (stage_within limits) own /\ Z.of_nat (length own) <= pl_maxStages limits /\ lookups_in own <= pl_maxLookupStages limits /\
    su_lookups summary = lookups_in own /\ bytes <= pl_maxPayloadBytes limits /\
    match scope with None => stages = own | Some ts => exists f, scope_match kind ts = Ok f /\ stages = inject_scope f own end.
Proof.
  unfold normalizeMongoDataPipeline. intros H. bind_ok H. apply pipeline_stages in Hx as (-> & Hlen & Hbytes). bind_ok H. destruct x0 as [own s]. cbv zeta in H.
  destruct (traverse_good x (stages_all_good x) _ _ _ _ Hx) as (Hw & Hl & Hc & Hm). cbn [ps_lookups] in *. specialize (Hm some_lookups).
  exists own. rewrite Hl. split; [done|]. split; [done|]. split; [lia|]. destruct scope as [ts|].
  - bind_ok H. injection H as <- <- <-. cbn [su_lookups]. split; [lia|]. split; [done|]. by exists x0.
  - injection H as <- <- <-. cbn [su_lookups]. split; [lia|]. by split.
Qed.

End stages.

(** ** Limits *)

Definition limits_le (a b : aggregation_limits) : Prop :=
  al_maxStages a <= al_maxStages b /\ al_maxPayloadBytes a <= al_maxPayloadBytes b /\ al_maxTimeMs a <= al_maxTimeMs b /\
  al_maxResultWindow a <= al_maxResultWindow b /\ al_maxSkip a <= al_maxSkip b /\ al_maxLookupStages a <= al_maxLookupStages b /\
  al_maxFacetBranches a <= al_maxFacetBranches b /\ al_maxSortKeys a <= al_maxSortKeys b.

Lemma limits_trans a b c : limits_le a b -> limits_le b c -> limits_le a c.
Proof. unfold limits_le. intuition lia. Qed.

Lemma normalized_limits l ceilings x : normalizeAggregationLimits l ceilings = Ok x -> limits_le x ceilings /\ 0 <= al_maxLookupStages x.
Proof.
  unfold normalizeAggregationLimits. intros H. bind_ok H. repeat (rewrite result_bind_ok in H; destruct H as (? & ?%capped_ok & H)). injection H as <-.
  unfold limits_le. cbn [al_maxStages al_maxPayloadBytes al_maxTimeMs al_maxResultWindow al_maxSkip al_maxLookupStages al_maxFacetBranches al_maxSortKeys]. intuition lia.
Qed.

Lemma governed_limits defaults policy x : applyAggregationPlanPolicy defaults policy = Ok x -> limits_le x policy /\ limits_le x MONGO_DATA_DEFAULT_AGGREGATION_LIMITS.
Proof.
  unfold applyAggregationPlanPolicy. intros H. bind_ok H. apply normalized_limits in Hx as [Hx _]. injection H as <-. unfold limits_le in *.
  cbn [al_maxStages al_maxPayloadBytes al_maxTimeMs al_maxResultWindow al_maxSkip al_maxLookupStages al_maxFacetBranches al_maxSortKeys] in *. intuition lia.
Qed.

(** More is allowed under wider limits. *)
Lemma stage_wider kind a b : limits_le a b -> forall stage, stage_within kind (aggregation_pipeline_limits a) stage -> stage_within kind (aggregation_pipeline_limits b) stage.
Proof.
  intros (H1 & H2 & H3 & H4 & H5 & H6 & H7 & H8). fix IH 2. intros stage [name v Ha Hb Hf (Hm & Hl & Hs & Ho) | branches Ha Hlen Hbs].
  - apply simple_within; [done..|]. split_and!; [done | | |]; intros Hn.
    + destruct (Hl Hn) as (n & -> & Hn'). exists n. cbn in *. split; [done | lia].
    + destruct (Hs Hn) as (n & -> & Hn'). exists n. cbn in *. split; [done | lia].
    + destruct (Ho Hn) as (s & -> & Hn'). exists s. cbn in *. split; [done | lia].
  - apply facet_within; [done | cbn in *; lia |]. induction Hbs as [|br branches (stages & Hbr & Hms & Hlk & Hst) _ IHb]; constructor; [|apply IHb; cbn in *; lia].
    exists stages. cbn in *. split_and!; [done | lia | lia |]. clear -IH Hst. induction Hst as [|st stages Hst _ IHs]; constructor; [by apply IH | done].
Qed.

Section plans.
Context `{NT : !NumberText, ST : !SyntaxText, MR : !MetadataReader, MC : !MongoContracts}.

(** C30: an aggregation is planned only when the plan of the workspace enables it,
    and then within its limits, which no request and no collection can raise: its
    stages, lookups and time, and in every branch of a facet the stages, the sort
    keys, the skips and the limits; no stage writes, and filters have no operators
    but the listed ones. *)
Theorem aggregations_stay_within_the_plan r p policy pipeline summary time disk query :
  buildMongoDataApiPlan r = Ok p -> mp_detail p = AggregateDetail pipeline summary time disk query -> normalizeMongoDataPlanPolicy (mr_planPolicy r) = Ok policy ->
  pp_aggregation_enabled policy = true /\ 1 <= time <= al_maxTimeMs (pp_aggregation policy) /\
  exists own f, scope_match "aggregation" (mp_scope p) = Ok f /\ pipeline = inject_scope f own /\
    Forall (stage_within "aggregation" (aggregation_pipeline_limits (pp_aggregation policy))) own /\
    Z.of_nat (length own) <= al_maxStages (pp_aggregation policy) /\ lookups_in own <= al_maxLookupStages (pp_aggregation policy).
Proof.
  intros H Hd Hpol. unfold buildMongoDataApiPlan in H. destruct (mr_operation r) as [| | | |operation| |]; try done. destruct (negb _); [done|].
  bind_ok H. bind_ok H. injection H as <-. cbn [mp_scope mp_detail] in *. subst x0. rename x into b, Hx into Hb, Hx0 into Hplan.
  assert (ba_policy b = policy) as Hpb.
  { unfold build_basis in Hb. repeat bind_ok Hb. destruct x7 as [ts f0]. cbv zeta in Hb. repeat bind_ok Hb. injection Hb as <-. cbn [ba_policy]. congruence. }
  unfold plan_detail_of in Hplan. destruct (String.eqb operation "list"); [done|]. destruct (str_in operation _); [done|]. unfold plan_payload in Hplan. cbv zeta in Hplan.
  repeat match type of Hplan with (if String.eqb operation ?k then _ else _) = _ => destruct (String.eqb operation k) end.
  all: try (unfold plan_insert, plan_replace, plan_update, plan_transaction in Hplan; repeat bind_ok Hplan; discriminate).
  2: { unfold plan_change_stream in Hplan. bind_ok Hplan. destruct (ba_collection b); [|done]. repeat bind_ok Hplan. discriminate. }
  unfold plan_aggregate in Hplan. rewrite Hpb in Hplan. bind_ok Hplan. bind_ok Hplan. bind_ok Hplan. bind_ok Hplan. bind_ok Hplan.
  destruct x3 as [[pl bytes] su]. bind_ok Hplan. injection Hplan as <- <- <- <- <-.
  apply governed_limits in Hx0 as [Hgov _]. apply normalized_limits in Hx2 as [Hle Hpos]. pose proof (limits_trans _ _ _ Hle Hgov) as Hall.
  destruct (pipeline_good "aggregation" (aggregation_pipeline_limits x2) Hpos _ _ _ _ _ Hx3) as (own & Hw & Hlen & Hlk & _ & _ & f & Hf & ->).
  apply integer_within_ok in Hx4. unfold assertMongoPlanPolicyEnabled in Hx. destruct (pp_aggregation_enabled policy); [|done].
  pose proof Hall as (HA & _ & HT & _ & _ & HL & _). split; [done|]. split; [lia|]. exists own, f. split; [done|]. split; [done|]. split.
  - eapply Forall_impl; [exact Hw|]. intros stage. by apply stage_wider.
  - cbn in Hlen, Hlk. split; lia.
Qed.

End plans.

(** ** Samples *)

Notation facet_call := (mongo_call "aggregate" JUndef JUndef
  (JObj [("limits", JObj [("maxStages", jint 3)]);
         ("pipeline", JArr [JObj [("$match", JObj [("state", JStr "open")])]; JObj [("$facet", JObj [("few", JArr [JObj [("$limit", jint 5)]])])]])])).

Lemma aggregations_stay_within_the_plan_witness :
  match sample_plan facet_call with
  | Ok p => match mp_detail p with
            | AggregateDetail pipeline _ time _ _ => 1 <= time <= 30000 /\
                exists own f, pipeline = inject_scope f own /\ Z.of_nat (length own) <= 12 /\ lookups_in own <= 1
            | _ => False
            end
  | Err _ => False
  end.
Proof.
  destruct (sample_plan facet_call) as [p|] eqn:H; [|vm_compute in H; discriminate].
  destruct (mp_detail p) as [| | | | |pipeline summary time disk query| | | |] eqn:Hd; try (vm_compute in H; injection H as <-; discriminate).
  destruct (normalizeMongoDataPlanPolicy (JObj [])) as [policy|] eqn:Hpol; [|vm_compute in Hpol; discriminate].
  destruct (@aggregations_stay_within_the_plan sample_number_text sample_syntax sample_metadata sample_contracts facet_call p policy pipeline summary time disk query H Hd Hpol)
    as (_ & Ht & own & f & _ & Hp & _ & Hl & Hk).
  vm_compute in Hpol. injection Hpol as <-. split; [exact Ht|]. exists own, f. split; [exact Hp|]. split; [exact Hl | exact Hk].
Defined.

(** A request may use the disk although its plan does not allow it. *)
Theorem disk_use_is_for_the_asking : exists p,
  sample_plan (mongo_call "aggregate" JUndef JUndef (JObj [("allowDiskUse", JBool true); ("pipeline", JArr [JObj [("$count", JStr "n")]])])) = Ok p /\
  match mp_detail p with AggregateDetail _ _ _ disk _ => disk = JBool true | _ => False end /\
  match ps_aggregation (mp_policy p) with Some (_, l) => al_allowDiskUse l = JBool false | None => False end.
Proof. eexists. split; [vm_compute; reflexivity|]. split; reflexivity. Qed.

(** The limits of a bulk write, an import or a change stream are those of the
    request when it names its own. *)
Theorem bulk_limits_are_for_the_asking : exists limits, normalizeBulkLimits (JObj [("maxOperations", jint 1000000)]) JUndef = Ok limits /\ bl_maxOperations limits = 1000000.
Proof. eexists. split; [vm_compute; reflexivity | reflexivity]. Qed.

(** Each branch of a facet may have the lookups of a whole pipeline. *)
Theorem facets_multiply_lookups : exists p,
  sample_plan (mongo_call "aggregate" JUndef JUndef (JObj [("pipeline", JArr [JObj [("$lookup", JObj [("from", JStr "a")])];
    JObj [("$facet", JObj [("x", JArr [JObj [("$lookup", JObj [("from", JStr "b")])]]); ("y", JArr [JObj [("$lookup", JObj [("from", JStr "c")])]])])]])])) = Ok p /\
  match mp_detail p with AggregateDetail _ summary _ _ _ => su_lookups summary = 1 | _ => False end.
Proof. eexists. split; [vm_compute; reflexivity | reflexivity]. Qed.

(** A leading match is joined with the scope, and counted twice by name. *)
Theorem stage_names_count_the_match_twice : exists p, sample_plan facet_call = Ok p /\
  match mp_detail p with AggregateDetail _ summary _ _ _ => su_stages summary = 2 /\ su_names summary = ["$match"; "$match"; "$facet"] | _ => False end.
Proof. eexists. split; [vm_compute; reflexivity | split; reflexivity]. Qed.
